(* ===== verification/_CoqProject ===== *)
-Q . S2P
Prelude.v
Ring.v
Paths.v
Cwd.v
Sched.v
Memory.v
Float32.v
Power.v
Compress.v
Boomerang.v
Vfs.v
Tmpfs.v
Process.v
Reach.v
Pipe.v
Ipc.v
Printk.v
Phys.v
Vm.v
VmSpace.v
Shm.v
Elf.v
ElfLoad.v
ElfStack.v
ElfSpace.v
Signal.v
Net.v
Eth.v
Ip.v
Udp.v
NetIn.v
Loopback.v
Bytes.v
Ext2.v
Ext2Dir.v
Ext2Blocks.v
Ext2Layout.v
Ext2Alloc.v
Ext2Free.v
Ext2File.v
Ext2Write.v
Ext2Ino.v
Ext2Demo.v
Ext2Names.v
Ext2Path.v
SysMem.v
Sys.v
SysTask.v
SysWait.v
SysProc.v
Exec.v
SysPath.v
SysFd.v
Keyboard.v
Devfs.v
Pseudo.v
Open.v
Stat.v
Users.v
SysMisc.v
Socket.v
