(* ===== verification/Prelude.v ===== *)
(** * BananaOS kernel: a verification library

    BananaOS (src/) is a small x86-64 kernel in C. This library translates the
    parts of src/src/kernel that carry its own logic into Rocq functions on
    explicit state and proves what makes them correct, or shows by an example
    where they are not.

    ** Files and what they model

    - Prelude (this file): machine integers, bits, C arrays as lists, counting
      and searching; used by every file. Ring: circular buffers and [memcpy] on
      lists, shared by pipes, doorbells, the log, and the sockets.
    - Memory (Mm; mm/mm.c, mm.h): the page allocator. A zone is a bitmap of
      64-bit words, the hot zone with a cache of free pages.
    - Compress (Compress, Hotness; mm/compress.c, hotness.c) and Boomerang
      (mm/boomerang.c): compression of cold pages into the pools of the lower
      zones, and their way back.
    - Phys, Vm, VmSpace (mm/vm.c): physical memory as bytes, the four-level
      page tables in it, and address spaces: create, map, unmap, fork, copy.
    - Float32, Power (Freq, Policy, Cstate; power/*.c): frequency and idle
      policy over exact float comparisons.
    - Sched (sched/sched.c): the five run queues and every operation on them.
      Process (sched.c, syscall/signal.c): exit, spawn and kill.
      Signal (syscall/signal.c, the restore path of syscall_entry.S).
    - Vfs (fs/vfs.c): descriptors and dispatch. Pipe (fs/pipe.c),
      Ipc (Doorbell, Ipc; ipc/*.c), Printk (core/printk.c). Paths: splitting a
      path at its slashes, shared by the filesystems. Tmpfs (fs/tmpfs.c).
    - Shm (syscall/shm.c): shared memory segments over the page tables.
    - Elf (elf/loader.c, interp.c): the program loader; ElfLoad proves what an
      image becomes in the address space, ElfStack the initial stack.
    - Ext2 (fs/ext2.c): every operation of the disk filesystem, in a monad of
      state and failure. Bytes: the little-endian fields of its structures.
      The proofs about it are spread over Ext2Dir (directory entries),
      Ext2Blocks (the disk as blocks), Ext2Layout (no two fields overlap),
      Ext2Alloc and Ext2Free (bitmaps and counters), Ext2File and Ext2Write
      (data of a file), Ext2Ino (inodes), Ext2Names (a directory as a map from
      names), Ext2Path (path lookup), and Ext2Demo (a formatted disk on which
      the theorems are applied).
    - The system calls (syscall/table.c). Sys: their frame, a monad of state
      and early return, and what they take from user memory. SysTask: identity,
      limits, sessions, clocks and timers. SysMem: mmap, munmap, brk. SysWait:
      wait4, futex, nanosleep, rt_sigtimedwait. SysProc: fork, clone, vfork,
      exit. Exec: execve and the environment. Cwd: path resolution; SysPath:
      the calls that take a path. SysFd: the calls that take a descriptor.
      Open (with fs/vfs.c): opening a file in the filesystem its path names.
      Stat: stat, access and their kin. Users: reading the password file.
      SysMisc: the remaining calls, and the table itself with its dispatch
      (syscall/syscall.c).
    - Keyboard (core/keyboard.c): the ring of keys, scan codes, line reading.
      Devfs (fs/devfs.c): the null, zero and terminal devices, with the line
      editor. Pseudo (fs/procfs.c, fs/sysfs.c): files generated when opened.
    - Net, Eth, Ip, Udp, NetIn (net/net.c, eth.c, ip.c, udp.c): the network
      stack, sending and receiving. Loopback (net/loopback.c): stream sockets.
      Socket (net/socket.c): the socket calls, over ports and stream sockets.

    ** How the state corresponds

    Each component has a Record with the static variables of its C file; an
    operation is a function of that record which returns the new one and the C
    result. A pointer into a static table is its index, NULL is [None]. An
    integer is a [Z] with the reduction of its width written where the C type
    wraps ([u8] .. [u64], [i32], [i64]). A loop over a table is a fold or a
    [Fixpoint] over the list of indices; a [while] has fuel, with a comment
    saying why it is enough, and the theorems state the result the code
    reaches, never only what holds if it returns. The filesystem is written in
    a monad of state and failure (Ext2.M), a system call in a monad of state
    and early return (Sys.H) whose answers are a C result, [Ret], or
    [Blocked]: the call has given up the processor. Such a call comes in two
    parts, what happens up to the block and what happens once the scheduler
    has resumed the task ([.._resume]), with any run of other tasks between.

    ** How the parts meet

    Four interfaces keep the parts apart: [Process.ProcEnv] (what exit, spawn
    and kill need of descriptors, memory and stacks), [Vfs.FileOps] (what an
    open file provides; instances for pipes, stream sockets, ext2 and tmpfs),
    [Net.NicOps] with its laws [Net.NicSpec] (a network card), and
    [Ext2.BlockDev] with its laws [Ext2.BlockSpec] (a disk). Pipes and channels
    block and wake through the scheduler model itself; the page tables, the
    zone pools, shared memory and the loader take their pages from the
    allocator model. The loader reads an interpreter through any [FileOps]
    and any function that opens a path.

    ** What is shown

    - Allocation: exact accounting and cache consistency in every reachable
      state, freshness of pages and of contiguous runs.
    - Scheduling: every live task is in exactly one place in every reachable
      state; the choice is highest level first, first in first out; a queue
      refines a list; a running task gives way when its slice is used up; exit,
      spawn and kill.
    - Memory: compression and eviction round trips (with the 32 bytes eviction
      loses), mapping changes exactly its page, a fork copies and shares
      nothing, copies across the user boundary return what was written.
    - Streams and queues: pipes and loopback connections deliver byte streams,
      doorbells and UDP ports refine bounded queues, the log keeps the last 64
      lines, formatting stays in its buffer.
    - Network: address resolution, the checksum against RFC 1071, a datagram
      and a ping end to end through two stacks.
    - Signals: a caught signal is transparent to the interrupted code, and the
      case in which it is not.
    - Programs: what the loader leaves at every address of an image, its
      interpreter, stack and break; the words of the initial stack; a shared
      page is the same page in every address space that attached it.
    - System calls: an anonymous mapping never lies over memory in use; the
      break; a path resolves to where walking its components leads; no sequence
      of the calls on a task's attributes gives it privileges; wait4 is
      transparent to its caller whatever runs meanwhile, other blocking calls
      are not; a futex wakes the first waiters; the child of fork; what
      environment a program starts with, and that execve happens completely or
      not at all; directories change only where the caller may write; writev
      is one write of everything; what a descriptor returned by open stands
      for and that the caller may use it; dispatch is the registration table;
      thread-local storage follows the task.
    - The terminal: a read in line mode returns the line as edited, however the
      keys arrive. Generated files read as their text; the password file reads
      back; a port belongs to one socket.
    - Filesystems: tmpfs answers as a map from paths does. On disk: a block
      allocated is the first free one and was free, an inode and the data of a
      file read back as written, a directory block is a finite map from names,
      and the lookup of a path is the walk over its components.

    ** Not modelled

    Boot and application-processor start-up, interrupt and descriptor tables,
    the panic screen, port-driven devices (VGA, timer, PCI, ATA,
    RTL8139): their work is reading and writing hardware registers. The shell
    and kmain are sequences of printing and of calls of what is modelled. The
    compiler output kept beside some C files (sched.s, vfs.s, devfs.s) says the
    same as they do. A system call that stores through the raw user pointer
    (stat, uname, getrandom, gettimeofday) has the bytes stored as its result.
    Concurrency between
    processors does not occur in the modelled code, which runs under one
    scheduler on one processor. *)
From Stdlib Require Export ZArith Lia Bool.
From stdpp Require Export prelude gmap fin_maps.

#[export] Set Default Goal Selector "!".

Declare Scope kernel_scope.
Delimit Scope kernel_scope with kernel.
Open Scope kernel_scope.
Open Scope Z_scope.

(** * Machine integers *)

(** A w-bit unsigned C integer is a [Z] in [0, 2^w); arithmetic that may wrap
    is followed by the reduction of its type. *)
Definition u8  (x : Z) : Z := x mod 2 ^ 8.
Definition u16 (x : Z) : Z := x mod 2 ^ 16.
Definition u32 (x : Z) : Z := x mod 2 ^ 32.
Definition u64 (x : Z) : Z := x mod 2 ^ 64.

(** Conversion to [int] / [int64_t] (two's complement). *)
Definition i32 (x : Z) : Z := (x + 2 ^ 31) mod 2 ^ 32 - 2 ^ 31.
Definition i64 (x : Z) : Z := (x + 2 ^ 63) mod 2 ^ 64 - 2 ^ 63.

Lemma u64_small x : 0 <= x < 2 ^ 64 -> u64 x = x.
Proof. apply Z.mod_small. Qed.

Lemma u32_small x : 0 <= x < 2 ^ 32 -> u32 x = x.
Proof. apply Z.mod_small. Qed.

Lemma u16_small x : 0 <= x < 2 ^ 16 -> u16 x = x.
Proof. apply Z.mod_small. Qed.

Lemma u8_small x : 0 <= x < 2 ^ 8 -> u8 x = x.
Proof. apply Z.mod_small. Qed.

Lemma u64_add_l a b : u64 (u64 a + b) = u64 (a + b).
Proof. apply Zplus_mod_idemp_l. Qed.

Lemma u64_range x : 0 <= u64 x < 2 ^ 64.
Proof. apply Z.mod_pos_bound. lia. Qed.

Lemma u32_range x : 0 <= u32 x < 2 ^ 32.
Proof. apply Z.mod_pos_bound. lia. Qed.

Lemma u16_range x : 0 <= u16 x < 2 ^ 16.
Proof. apply Z.mod_pos_bound. lia. Qed.

Lemma u8_range x : 0 <= u8 x < 2 ^ 8.
Proof. apply Z.mod_pos_bound. lia. Qed.

Lemma i32_small x : - 2 ^ 31 <= x < 2 ^ 31 -> i32 x = x.
Proof. intros H. unfold i32. rewrite Z.mod_small; lia. Qed.

(** * Single bits of a word *)

(** [w | (1ULL << i)] and [w & ~(1ULL << i)]. *)
Definition bit_set (w i : Z) : Z := Z.lor w (Z.shiftl 1 i).
Definition bit_clr (w i : Z) : Z := Z.land w (Z.lnot (Z.shiftl 1 i)).

Lemma bit_set_spec w i j :
  0 <= i -> 0 <= j -> Z.testbit (bit_set w i) j = Z.testbit w j || (i =? j).
Proof.
  intros Hi Hj. unfold bit_set. rewrite Z.lor_spec, Z.shiftl_1_l, Z.pow2_bits_eqb by lia.
  done.
Qed.

Lemma bit_clr_spec w i j :
  0 <= i -> 0 <= j -> Z.testbit (bit_clr w i) j = Z.testbit w j && negb (i =? j).
Proof.
  intros Hi Hj. unfold bit_clr.
  rewrite Z.land_spec, Z.lnot_spec, Z.shiftl_1_l, Z.pow2_bits_eqb by lia. done.
Qed.

Lemma testbit_range w n :
  0 <= n -> 0 <= w -> (forall i, n <= i -> Z.testbit w i = false) -> w < 2 ^ n.
Proof.
  intros Hn Hw H. destruct (Z.eq_dec w 0) as [->|Hne]; [lia|].
  destruct (Z_lt_le_dec w (2 ^ n)) as [|Hge]; [done|].
  assert (Hl : n <= Z.log2 w) by (apply Z.log2_le_pow2; lia).
  specialize (H (Z.log2 w) Hl). rewrite Z.bit_log2 in H; [done|lia].
Qed.

Lemma testbit_high w n i : 0 <= w < 2 ^ n -> n <= i -> Z.testbit w i = false.
Proof.
  intros [H0 H1] Hi. destruct (Z.eq_dec w 0) as [->|]; [apply Z.bits_0|].
  apply Z.bits_above_log2; [lia|]. apply Z.log2_lt_pow2; [lia|].
  apply Z.lt_le_trans with (2 ^ n); [lia|]. apply Z.pow_le_mono_r; lia.
Qed.

Lemma bit_set_range w i n : 0 <= w < 2 ^ n -> 0 <= i < n -> 0 <= bit_set w i < 2 ^ n.
Proof.
  intros Hw Hi.
  assert (H0 : 0 <= bit_set w i).
  { unfold bit_set. apply Z.lor_nonneg. rewrite Z.shiftl_1_l. split; [lia|].
    apply Z.pow_nonneg; lia. }
  split; [done|]. apply testbit_range; [lia|done|]. intros j Hj.
  rewrite bit_set_spec by lia. rewrite (testbit_high w n) by (done || lia).
  simpl. lia.
Qed.

Lemma bit_clr_range w i n : 0 <= w < 2 ^ n -> 0 <= i -> 0 <= n -> 0 <= bit_clr w i < 2 ^ n.
Proof.
  intros Hw Hi Hn.
  assert (H0 : 0 <= bit_clr w i) by (unfold bit_clr; apply Z.land_nonneg; lia).
  split; [done|]. apply testbit_range; [lia|done|]. intros j Hj.
  rewrite bit_clr_spec by lia. by rewrite (testbit_high w n) by (done || lia).
Qed.

(** * Arrays *)

(** [a[i]] and [a[i] = v] on a C array held as a list. An index outside the
    array reads the default and writes nothing: the operations below are used
    at indices the code (or an invariant) keeps in range, and where the code
    does not check an index the operation returns an option instead. *)
Section Arrays.
  Context {A : Type} `{Inhabited A}.

Definition aget (l : list A) (i : Z) : A := l !!! Z.to_nat i.
Definition aset (l : list A) (i : Z) (v : A) : list A := <[Z.to_nat i := v]> l.

Lemma length_aset l i v : length (aset l i v) = length l.
  Proof. apply length_insert. Qed.

Lemma aget_aset_eq l i v :
    0 <= i < Z.of_nat (length l) -> aget (aset l i v) i = v.
  Proof. intros Hi. apply list_lookup_total_insert_eq. lia. Qed.

Lemma aget_aset_ne l i j v :
    0 <= i -> 0 <= j -> i <> j -> aget (aset l i v) j = aget l j.
  Proof. intros Hi Hj Hne. apply list_lookup_total_insert_ne. lia. Qed.

Lemma aget_aset l i j v :
    0 <= i < Z.of_nat (length l) -> 0 <= j ->
    aget (aset l i v) j = if decide (i = j) then v else aget l j.
  Proof.
    intros Hi Hj. case_decide as E; [subst; by apply aget_aset_eq|].
    apply aget_aset_ne; lia.
  Qed.

Lemma aset_id l i : aset l i (aget l i) = l.
  Proof.
    unfold aset, aget. destruct (decide (Z.to_nat i < length l)%nat) as [Hi|Hi].
    - apply list_insert_id. by apply list_lookup_lookup_total_lt.
    - apply list_insert_ge. lia.
  Qed.

Lemma Forall_aget (P : A -> Prop) l i :
    Forall P l -> 0 <= i < Z.of_nat (length l) -> P (aget l i).
  Proof.
    intros HF Hi. eapply (Forall_lookup_1 _ _ (Z.to_nat i)); [done|].
    apply list_lookup_lookup_total_lt. lia.
  Qed.

Lemma Forall_aset (P : A -> Prop) l i v : Forall P l -> P v -> Forall P (aset l i v).
  Proof. intros. by apply Forall_insert. Qed.

Lemma aget_app_l (p q : list A) i : 0 <= i < Z.of_nat (length p) -> aget (p ++ q) i = aget p i.
Proof. intros Hi. unfold aget. apply lookup_total_app_l. lia. Qed.

Lemma aget_app_r (p q : list A) i : Z.of_nat (length p) <= i -> aget (p ++ q) i = aget q (i - Z.of_nat (length p)).
Proof. intros Hi. unfold aget. rewrite lookup_total_app_r by lia. f_equal. lia. Qed.

Lemma aget_lookup (l : list A) (i : nat) x : l !! i = Some x -> aget l (Z.of_nat i) = x.
Proof. intros Hx. unfold aget. rewrite Nat2Z.id. by apply list_lookup_total_correct. Qed.

Lemma aget_replicate n (v : A) i : 0 <= i < Z.of_nat n -> aget (replicate n v) i = v.
  Proof. intros Hi. apply lookup_total_replicate_2. lia. Qed.
End Arrays.

Lemma aget_fmap {A B} `{Inhabited A, Inhabited B} (f : A -> B) (l : list A) i :
  0 <= i < Z.of_nat (length l) -> aget (f <$> l) i = f (aget l i).
Proof. intros Hi. unfold aget. apply list_lookup_total_fmap. lia. Qed.

#[global] Arguments aget : simpl never.
#[global] Arguments aset : simpl never.

(** The array indices 0 .. n-1, as the loops of the code visit them. *)
Definition zrange (n : nat) : list Z := Z.of_nat <$> seq 0 n.

Lemma elem_of_zrange n i : i ∈ zrange n <-> 0 <= i < Z.of_nat n.
Proof.
  unfold zrange. rewrite list_elem_of_fmap. setoid_rewrite elem_of_seq. split.
  - intros (k & -> & ?). lia.
  - intros ?. exists (Z.to_nat i). lia.
Qed.

Lemma NoDup_zrange n : NoDup (zrange n).
Proof. apply NoDup_fmap_2; [apply _|]. apply NoDup_seq. Qed.

Lemma length_zrange n : length (zrange n) = n.
Proof. unfold zrange. by rewrite length_fmap, length_seq. Qed.

Lemma zrange_S n : zrange (S n) = zrange n ++ [Z.of_nat n].
Proof. unfold zrange. by rewrite seq_S, fmap_app. Qed.

(** * Sums over index lists *)

Definition zsum {A} (f : A -> Z) (l : list A) : Z := foldr (fun x acc => f x + acc) 0 l.

Lemma zsum_ext {A} (f g : A -> Z) l :
  (forall x, x ∈ l -> f x = g x) -> zsum f l = zsum g l.
Proof.
  induction l as [|x l IH]; intros Hfg; [done|]. simpl.
  rewrite Hfg by set_solver. rewrite IH; [done|]. set_solver.
Qed.

(** Changing the summand at one index changes the sum by the difference. *)
Lemma zsum_change {A} `{EqDecision A} (f g : A -> Z) (l : list A) x :
  NoDup l -> x ∈ l -> (forall y, y ∈ l -> y <> x -> f y = g y) ->
  zsum g l = zsum f l + (g x - f x).
Proof.
  induction l as [|y l IH]; intros Hnd Hx Hfg; [by apply not_elem_of_nil in Hx|].
  apply NoDup_cons in Hnd as [Hy Hnd]. simpl.
  destruct (decide (y = x)) as [->|Hne].
  - rewrite (zsum_ext g f l); [lia|]. intros z Hz. symmetry. apply Hfg; set_solver.
  - rewrite (IH Hnd); [rewrite (Hfg y); set_solver by lia| set_solver|set_solver].
Qed.

Lemma zsum_bounds {A} (f : A -> Z) l c :
  (forall x, x ∈ l -> 0 <= f x <= c) -> 0 <= zsum f l <= c * Z.of_nat (length l).
Proof.
  induction l as [|x l IH]; intros Hf; [simpl; lia|].
  assert (Hx : 0 <= f x <= c) by (apply Hf; set_solver).
  assert (Hl : 0 <= zsum f l <= c * Z.of_nat (length l)) by (apply IH; set_solver).
  simpl zsum. simpl length. lia.
Qed.

Lemma zsum_zero {A} (f : A -> Z) l : (forall x, x ∈ l -> f x = 0) -> zsum f l = 0.
Proof.
  intros Hf. pose proof (zsum_bounds f l 0) as Hb.
  assert (0 <= zsum f l <= 0 * Z.of_nat (length l)); [|lia].
  apply Hb. intros x Hx. rewrite (Hf x Hx). lia.
Qed.

Lemma zsum_insert {A} (f : A -> Z) (l : list A) (i : nat) x y :
  l !! i = Some x -> zsum f (<[i := y]> l) = zsum f l + (f y - f x).
Proof.
  revert i. induction l as [|z l IH]; intros [|i] Hx; simpl in *; [done|done| |].
  - injection Hx as ->. lia.
  - rewrite (IH i Hx). lia.
Qed.

Lemma zsum_aset {A} `{Inhabited A} (f : A -> Z) (l : list A) i y :
  0 <= i < Z.of_nat (length l) -> zsum f (aset l i y) = zsum f l + (f y - f (aget l i)).
Proof.
  intros Hi. apply zsum_insert. apply list_lookup_lookup_total_lt. lia.
Qed.

Lemma zsum_max {A} (f : A -> Z) l c :
  (forall x, x ∈ l -> f x <= c) -> zsum f l = c * Z.of_nat (length l) ->
  forall x, x ∈ l -> f x = c.
Proof.
  intros Hf Hs x Hx. apply list_elem_of_lookup in Hx as [i Hi].
  pose proof (zsum_insert (fun y => c - f y) l i x x Hi) as Hi'.
  assert (Hz : zsum (fun y => c - f y) l = 0).
  { clear Hi' Hi. revert Hs. clear Hf. intros Hs.
    assert (E : zsum (fun y => c - f y) l = c * Z.of_nat (length l) - zsum f l); [|lia].
    clear Hs. induction l as [|y l IH]; simpl zsum; simpl length; [lia|]. lia. }
  destruct (Z.eq_dec (f x) c) as [|Hne]; [done|exfalso].
  assert (Hx : x ∈ l) by (apply list_elem_of_lookup; eauto).
  assert (0 < c - f x) by (specialize (Hf x Hx); lia).
  assert (Hpos : forall k, (forall y, y ∈ k -> f y <= c) -> x ∈ k -> 0 < zsum (fun y => c - f y) k).
  { induction k as [|y k IH]; intros Hk Hin; [by apply not_elem_of_nil in Hin|].
    assert (Hy : f y <= c) by (apply Hk; left).
    assert (Hk' : forall z, z ∈ k -> f z <= c) by (intros z ?; apply Hk; by right).
    assert (0 <= zsum (fun y => c - f y) k).
    { clear IH Hin Hk. induction k as [|z k IH]; simpl; [lia|].
      assert (f z <= c) by (apply Hk'; left).
      assert (0 <= zsum (fun y => c - f y) k) by (apply IH; intros ??; apply Hk'; by right).
      lia. }
    simpl. apply elem_of_cons in Hin as [->|Hin]; [lia|]. specialize (IH Hk' Hin). lia. }
  specialize (Hpos l Hf Hx). lia.
Qed.

Lemma zsum_replicate0 {A} (f : A -> Z) n x : f x = 0 -> zsum f (replicate n x) = 0.
Proof. intros Hf. induction n as [|n IH]; simpl; [done|]. rewrite Hf, IH. done. Qed.

(** * Population count and first zero bit of a 64-bit word *)

Definition popcount (w : Z) : Z := zsum (fun i => Z.b2z (Z.testbit w i)) (zrange 64).

Lemma popcount_0 : popcount 0 = 0.
Proof. reflexivity. Qed.

Lemma popcount_bounds w : 0 <= popcount w <= 64.
Proof.
  change 64 with (1 * Z.of_nat (length (zrange 64))). apply zsum_bounds.
  intros i _. destruct (Z.testbit w i); simpl; lia.
Qed.

Lemma popcount_64 w : 0 <= w < 2 ^ 64 -> popcount w = 64 -> w = 2 ^ 64 - 1.
Proof.
  intros Hw Hp. change (2 ^ 64 - 1) with (Z.ones 64). apply Z.bits_inj'. intros j Hj.
  destruct (Z_lt_le_dec j 64) as [Hlt|Hge].
  - rewrite Z.ones_spec_low by lia.
    assert (E : Z.b2z (Z.testbit w j) = 1).
    { apply (zsum_max (fun i => Z.b2z (Z.testbit w i)) (zrange 64) 1).
      - intros i _. destruct (Z.testbit w i); simpl; lia.
      - rewrite length_zrange. apply Hp.
      - apply elem_of_zrange. lia. }
    by destruct (Z.testbit w j).
  - rewrite Z.ones_spec_high by lia. by apply (testbit_high w 64).
Qed.

Lemma popcount_ones : popcount (2 ^ 64 - 1) = 64.
Proof. reflexivity. Qed.

Lemma popcount_set w i :
  0 <= i < 64 -> Z.testbit w i = false -> popcount (bit_set w i) = popcount w + 1.
Proof.
  intros Hi Hb. unfold popcount.
  rewrite (zsum_change (fun j => Z.b2z (Z.testbit w j)) _ _ i).
  - rewrite bit_set_spec, Hb, Z.eqb_refl by lia. simpl. lia.
  - apply NoDup_zrange.
  - by apply elem_of_zrange.
  - intros j Hj%elem_of_zrange Hne. rewrite bit_set_spec by lia.
    rewrite (proj2 (Z.eqb_neq i j)) by lia. by rewrite orb_false_r.
Qed.

Lemma popcount_clr w i :
  0 <= i < 64 -> Z.testbit w i = true -> popcount (bit_clr w i) = popcount w - 1.
Proof.
  intros Hi Hb. unfold popcount.
  rewrite (zsum_change (fun j => Z.b2z (Z.testbit w j)) _ _ i).
  - rewrite bit_clr_spec, Hb, Z.eqb_refl by lia. simpl. lia.
  - apply NoDup_zrange.
  - by apply elem_of_zrange.
  - intros j Hj%elem_of_zrange Hne. rewrite bit_clr_spec by lia.
    rewrite (proj2 (Z.eqb_neq i j)) by lia. by rewrite andb_true_r.
Qed.

(** The first index of [l] satisfying [p]: the shape of every
    "scan the table for the first ..." loop of the kernel. *)
Fixpoint find_index {A} (p : A -> bool) (l : list A) : option nat :=
  match l with
  | [] => None
  | x :: l' => if p x then Some 0%nat else S <$> find_index p l'
  end.

Lemma find_index_Some {A} (p : A -> bool) l i :
  find_index p l = Some i <->
  exists x, l !! i = Some x /\ p x = true /\
            forall j y, (j < i)%nat -> l !! j = Some y -> p y = false.
Proof.
  revert i. induction l as [|x l IH]; intros i; simpl.
  { split; [done|]. intros (y & Hy & _). by rewrite lookup_nil in Hy. }
  destruct (p x) eqn:Hp.
  - split.
    + intros [= <-]. exists x. repeat split; [done|]. lia.
    + intros (y & Hy & Hpy & Hlt). destruct i as [|i]; [done|].
      specialize (Hlt 0%nat x). rewrite Hlt in Hp; [done|lia|done].
  - rewrite fmap_Some. setoid_rewrite IH. split.
    + intros (k & (y & Hy & Hpy & Hlt) & ->). exists y. repeat split; [done..|].
      intros [|j] z Hj Hz; simpl in Hz; [congruence|]. apply (Hlt j); [lia|done].
    + intros (y & Hy & Hpy & Hlt). destruct i as [|i]; simpl in Hy; [congruence|].
      exists i. split; [|done]. exists y. repeat split; [done..|].
      intros j z Hj Hz. apply (Hlt (S j)); [lia|done].
Qed.

Lemma find_index_None {A} (p : A -> bool) l :
  find_index p l = None <-> Forall (fun x => p x = false) l.
Proof.
  induction l as [|x l IH]; simpl; [by split; [constructor|]|].
  rewrite Forall_cons, <- IH. destruct (p x); [naive_solver|].
  rewrite fmap_None. naive_solver.
Qed.

(** Rewriting an element without changing the test leaves the search alone. *)
Lemma find_index_insert {A} (p : A -> bool) l (i : nat) x y :
  l !! i = Some x -> p y = p x -> find_index p (<[i := y]> l) = find_index p l.
Proof.
  revert i. induction l as [|z l IH]; intros [|i] Hx Hp; simpl in *; [done..| |].
  - injection Hx as ->. by rewrite Hp.
  - destruct (p z); [done|]. by rewrite (IH i).
Qed.

(** When at most one element passes the test, finding it is having it. *)
Lemma find_index_uniq {A} (p : A -> bool) l i x :
  (forall j k y z, l !! j = Some y -> l !! k = Some z -> p y = true -> p z = true -> j = k) ->
  l !! i = Some x -> p x = true -> find_index p l = Some i.
Proof.
  intros Hu Hx Hp. apply find_index_Some. exists x. split_and!; [done..|].
  intros j y Hj Hy. destruct (p y) eqn:E; [|done]. specialize (Hu j i y x Hy Hx E Hp). lia.
Qed.

(** [__builtin_ctzll(~w)]: the lowest clear bit of [w]. *)
Definition ctz_not (w : Z) : Z :=
  match find_index (fun i => negb (Z.testbit w i)) (zrange 64) with
  | Some i => Z.of_nat i
  | None => 64
  end.

Lemma lookup_zrange n i : (i < n)%nat -> zrange n !! i = Some (Z.of_nat i).
Proof. intros Hi. unfold zrange. rewrite list_lookup_fmap, lookup_seq_lt by done. done. Qed.

Lemma ctz_not_spec w :
  0 <= w < 2 ^ 64 -> w <> 2 ^ 64 - 1 ->
  0 <= ctz_not w < 64 /\ Z.testbit w (ctz_not w) = false /\
  forall j, 0 <= j < ctz_not w -> Z.testbit w j = true.
Proof.
  intros Hw Hne. unfold ctz_not.
  destruct (find_index _ _) as [i|] eqn:Hf.
  - apply find_index_Some in Hf as (x & Hx & Hpx & Hlt).
    assert (Hi : (i < 64)%nat).
    { apply lookup_lt_Some in Hx. by rewrite length_zrange in Hx. }
    rewrite lookup_zrange in Hx by done. injection Hx as <-.
    split; [lia|]. split; [by destruct (Z.testbit w _)|]. intros j Hj.
    specialize (Hlt (Z.to_nat j) j). rewrite lookup_zrange in Hlt by lia.
    rewrite Z2Nat.id in Hlt by lia. specialize (Hlt ltac:(lia) eq_refl).
    by destruct (Z.testbit w j).
  - exfalso. apply find_index_None in Hf. rewrite Forall_forall in Hf.
    apply Hne. change (2 ^ 64 - 1) with (Z.ones 64).
    apply Z.bits_inj'. intros j Hj. destruct (Z_lt_le_dec j 64) as [Hlt|Hge].
    + rewrite Z.ones_spec_low by lia. specialize (Hf j).
      rewrite elem_of_zrange in Hf. specialize (Hf ltac:(lia)).
      by destruct (Z.testbit w j).
    + rewrite Z.ones_spec_high by lia. by apply (testbit_high w 64).
Qed.

#[global] Arguments zsum : simpl never.
#[global] Arguments popcount : simpl never.
#[global] Arguments ctz_not : simpl never.
#[global] Arguments bit_set : simpl never.
#[global] Arguments bit_clr : simpl never.
#[global] Arguments zrange : simpl never.
#[global] Arguments u8 : simpl never.
#[global] Arguments u16 : simpl never.
#[global] Arguments u32 : simpl never.
#[global] Arguments u64 : simpl never.
#[global] Arguments i32 : simpl never.
#[global] Arguments i64 : simpl never.

(** * Record update *)

(** [r <| f := v |>]: the record [r] with field [f] replaced. The instance is
    found by eta-expanding the record and abstracting the field. *)
Class Eta (R : Type) := eta_of : R -> R.

Class Update {R F : Type} (proj : R -> F) := update : (F -> F) -> R -> R.
Arguments update {R F} proj {_} f r /.

Ltac solve_update :=
  lazymatch goal with
  | |- @Update ?R ?F ?proj =>
      let mk := constr:(_ : Eta R) in
      let mk := eval cbv delta [eta_of] in mk in
      exact (fun (f : F -> F) (r : R) =>
               ltac:(let body := eval hnf in (mk r) in
                     let body := eval pattern (proj r) in body in
                     lazymatch body with ?g _ => exact (g (f (proj r))) end))
  end.

#[export] Hint Extern 1 (Update _) => solve_update : typeclass_instances.

Notation "r <| f := v |>" := (update f (fun _ => v) r)
  (at level 14, left associativity, format "r  <| f  :=  v |>") : kernel_scope.
