(* ===== verification/Ring.v ===== *)
(** Circular buffers: the list a ring of capacity [cap] holds between its read
    index and its count. Shared by the run queues, the pipes, the doorbell
    channels, the log ring and the datagram queues. *)
From S2P Require Import Prelude.

Module Ring.
Section Ring.
  Context {A : Type} `{Inhabited A}.

(** The [count] elements read from index [head] on, wrapping at [cap]. *)
Definition ring_list (cap : Z) (buf : list A) (head count : Z) : list A :=
  (fun i => aget buf ((head + i) mod cap)) <$> zrange (Z.to_nat count).

Lemma length_ring_list cap buf head count :
  length (ring_list cap buf head count) = Z.to_nat count.
Proof. unfold ring_list. by rewrite length_fmap, length_zrange. Qed.

Lemma lookup_ring_list cap buf head count i :
  (i < Z.to_nat count)%nat ->
  ring_list cap buf head count !! i = Some (aget buf ((head + Z.of_nat i) mod cap)).
Proof. intros Hi. unfold ring_list. rewrite list_lookup_fmap, lookup_zrange by done. done. Qed.

Lemma ring_list_empty cap buf head : ring_list cap buf head 0 = [].
Proof. done. Qed.

(** Two rings with the same elements at the same offsets. *)
Lemma ring_list_ext cap buf1 head1 buf2 head2 count :
  (forall i, 0 <= i < count ->
     aget buf1 ((head1 + i) mod cap) = aget buf2 ((head2 + i) mod cap)) ->
  ring_list cap buf1 head1 count = ring_list cap buf2 head2 count.
Proof.
  intros Heq. unfold ring_list. apply list_fmap_ext. intros i x Hx.
  apply list_elem_of_lookup_2, elem_of_zrange in Hx. apply Heq. lia.
Qed.

(** Two offsets below the capacity name different slots. *)
Lemma ring_slot_inj cap head i j :
  0 < cap -> 0 <= i < cap -> 0 <= j < cap -> (head + i) mod cap = (head + j) mod cap -> i = j.
Proof.
  intros Hc Hi Hj Heq.
  pose proof (Z_div_mod_eq_full (head + i) cap). pose proof (Z_div_mod_eq_full (head + j) cap).
  assert (i - j = cap * ((head + i) / cap - (head + j) / cap)) by lia.
  assert (-1 < (head + i) / cap - (head + j) / cap < 1) by nia. nia.
Qed.

Lemma ring_push cap buf head count x :
  0 < cap -> Z.of_nat (length buf) = cap -> 0 <= count < cap ->
  ring_list cap (aset buf ((head + count) mod cap) x) head (count + 1) =
  ring_list cap buf head count ++ [x].
Proof.
  intros Hc Hl Hn. apply list_eq. intros k.
  destruct (Nat.lt_trichotomy k (Z.to_nat count)) as [Hk|[->|Hk]].
  - rewrite lookup_app_l by (rewrite length_ring_list; lia).
    rewrite !lookup_ring_list by lia. f_equal. apply aget_aset_ne.
    + apply Z.mod_pos_bound; lia.
    + apply Z.mod_pos_bound; lia.
    + intros E. apply ring_slot_inj in E; lia.
  - rewrite lookup_ring_list, Z2Nat.id by lia.
    rewrite lookup_app_r, length_ring_list, Nat.sub_diag by (rewrite length_ring_list; lia).
    simpl. f_equal. apply aget_aset_eq. rewrite Hl. apply Z.mod_pos_bound; lia.
  - rewrite !lookup_ge_None_2; [done| |].
    + rewrite length_app, length_ring_list. simpl. lia.
    + rewrite length_ring_list. lia.
Qed.

Lemma ring_pop cap buf head count :
  0 < cap -> 0 <= head < cap -> 0 < count ->
  ring_list cap buf head count =
  aget buf head :: ring_list cap buf ((head + 1) mod cap) (count - 1).
Proof.
  intros Hc Hh Hn. apply list_eq. intros [|k].
  - rewrite lookup_ring_list by lia. simpl. rewrite Z.add_0_r, Z.mod_small by lia. done.
  - simpl. destruct (decide (k < Z.to_nat (count - 1))%nat) as [Hk|Hk].
    + rewrite !lookup_ring_list by lia. do 2 f_equal.
      rewrite Zplus_mod_idemp_l. f_equal. lia.
    + rewrite !lookup_ge_None_2 by (rewrite length_ring_list; lia). done.
Qed.

(** Dropping [k] elements moves the read index by [k]. *)
Lemma ring_drop cap buf head count k :
  0 < cap -> 0 <= k <= count ->
  ring_list cap buf ((head + k) mod cap) (count - k) =
  drop (Z.to_nat k) (ring_list cap buf head count).
Proof.
  intros Hc Hk. apply list_eq. intros j. rewrite lookup_drop.
  destruct (decide (j < Z.to_nat (count - k))%nat) as [Hj|Hj].
  - rewrite !lookup_ring_list by lia. do 2 f_equal.
    rewrite Zplus_mod_idemp_l. f_equal. lia.
  - rewrite !lookup_ge_None_2 by (rewrite length_ring_list; lia). done.
Qed.

(** The slot after the last element. *)
Lemma ring_tail_next cap head count :
  0 < cap -> ((head + count) mod cap + 1) mod cap = (head + (count + 1)) mod cap.
Proof. intros Hc. rewrite Zplus_mod_idemp_l. f_equal. lia. Qed.

Lemma ring_list_take cap buf head count k :
  0 <= k <= count ->
  ring_list cap buf head k = take (Z.to_nat k) (ring_list cap buf head count).
Proof.
  intros Hk. apply list_eq. intros j.
  destruct (decide (j < Z.to_nat k)%nat) as [Hj|Hj].
  - rewrite lookup_take_lt by lia. rewrite !lookup_ring_list by lia. done.
  - rewrite !lookup_ge_None_2; [done| |].
    + rewrite length_take, length_ring_list. lia.
    + rewrite length_ring_list. lia.
Qed.

(** ** Block copies, as [memcpy] in at most two segments *)

(** The [n] elements from [off] on. *)
Definition slice (buf : list A) (off n : Z) : list A := take (Z.to_nat n) (drop (Z.to_nat off) buf).

(** [memcpy(buf + off, data, |data|)] *)
Definition blit (buf : list A) (off : Z) (data : list A) : list A :=
  take (Z.to_nat off) buf ++ data ++ drop (Z.to_nat off + length data) buf.

Lemma length_blit buf off data :
  0 <= off -> off + Z.of_nat (length data) <= Z.of_nat (length buf) ->
  length (blit buf off data) = length buf.
Proof. intros H0 Hb. unfold blit. rewrite !length_app, length_take, length_drop. lia. Qed.

Lemma aget_blit buf off data i :
  0 <= off -> off + Z.of_nat (length data) <= Z.of_nat (length buf) ->
  0 <= i < Z.of_nat (length buf) ->
  aget (blit buf off data) i =
  if decide (off <= i < off + Z.of_nat (length data)) then aget data (i - off) else aget buf i.
Proof.
  intros H0 Hb Hi. unfold aget, blit. rewrite !list_lookup_total_alt. f_equal.
  case_decide as E.
  - rewrite lookup_app_r by (rewrite length_take; lia). rewrite length_take, Nat.min_l by lia.
    rewrite lookup_app_l by lia. do 2 f_equal. lia.
  - destruct (decide (i < off)) as [Hlt|Hge].
    + rewrite lookup_app_l by (rewrite length_take; lia). by rewrite lookup_take_lt by lia.
    + rewrite lookup_app_r by (rewrite length_take; lia). rewrite length_take, Nat.min_l by lia.
      rewrite lookup_app_r by lia. rewrite lookup_drop. do 2 f_equal. lia.
Qed.

Lemma lookup_slice buf off n i :
  0 <= off -> (i < Z.to_nat n)%nat -> off + Z.of_nat i < Z.of_nat (length buf) ->
  slice buf off n !! i = Some (aget buf (off + Z.of_nat i)).
Proof.
  intros H0 Hi Hl. unfold slice. rewrite lookup_take_lt by done. rewrite lookup_drop.
  unfold aget. replace (Z.to_nat (off + Z.of_nat i)) with (Z.to_nat off + i)%nat by lia.
  apply list_lookup_lookup_total_lt. lia.
Qed.

Lemma length_slice buf off n :
  0 <= off -> 0 <= n -> off + n <= Z.of_nat (length buf) -> length (slice buf off n) = Z.to_nat n.
Proof. intros. unfold slice. rewrite length_take, length_drop. lia. Qed.

(** Reading [n] elements in two segments gives the first [n] of the ring. *)
Lemma ring_read cap buf head count n :
  0 < cap -> Z.of_nat (length buf) = cap -> 0 <= head < cap -> 0 <= n <= count -> count <= cap ->
  let first := Z.min (cap - head) n in
  slice buf head first ++ slice buf 0 (n - first) =
  take (Z.to_nat n) (ring_list cap buf head count).
Proof.
  intros Hc Hl Hh Hn Hcap. cbv zeta. set (first := Z.min (cap - head) n).
  rewrite <- ring_list_take by lia. apply list_eq. intros i.
  destruct (decide (i < Z.to_nat n)%nat) as [Hi|Hi].
  2: { rewrite !lookup_ge_None_2; [done| |].
       - rewrite length_ring_list. lia.
       - rewrite length_app, !length_slice by lia. lia. }
  rewrite lookup_ring_list by done.
  destruct (decide (i < Z.to_nat first)%nat) as [Hf|Hf].
  - rewrite lookup_app_l by (rewrite length_slice; lia). rewrite lookup_slice by lia.
    rewrite Z.mod_small by lia. done.
  - rewrite lookup_app_r by (rewrite length_slice; lia). rewrite length_slice by lia.
    rewrite lookup_slice by lia. do 2 f_equal.
    replace (head + Z.of_nat i) with ((0 + Z.of_nat (i - Z.to_nat first)) + 1 * cap) by lia.
    rewrite Z_mod_plus_full. symmetry. apply Z.mod_small. lia.
Qed.

(** Writing in two segments appends to the ring. *)
Lemma ring_write cap buf head count data :
  0 < cap -> Z.of_nat (length buf) = cap -> 0 <= head < cap -> 0 <= count ->
  count + Z.of_nat (length data) <= cap ->
  let tail := (head + count) mod cap in
  let n := Z.of_nat (length data) in
  let first := Z.min (cap - tail) n in
  let buf1 := blit buf tail (take (Z.to_nat first) data) in
  let buf2 := blit buf1 0 (drop (Z.to_nat first) data) in
  length buf2 = length buf /\
  ring_list cap buf2 head (count + n) = ring_list cap buf head count ++ data.
Proof.
  intros Hc Hl Hh Hn Hcap. cbv zeta.
  pose proof (Z.mod_pos_bound (head + count) cap Hc) as Ht.
  set (tail := (head + count) mod cap) in *. set (n := Z.of_nat (length data)) in *.
  set (first := Z.min (cap - tail) n).
  assert (L1 : length (take (Z.to_nat first) data) = Z.to_nat first) by (rewrite length_take; lia).
  assert (L2 : length (drop (Z.to_nat first) data) = (length data - Z.to_nat first)%nat) by apply length_drop.
  assert (B1 : length (blit buf tail (take (Z.to_nat first) data)) = length buf) by (apply length_blit; lia).
  assert (B2 : length (blit (blit buf tail (take (Z.to_nat first) data)) 0 (drop (Z.to_nat first) data)) = length buf).
  { rewrite length_blit; lia. }
  split; [done|].
  assert (Hget : forall j, 0 <= j < cap ->
    aget (blit (blit buf tail (take (Z.to_nat first) data)) 0 (drop (Z.to_nat first) data)) j =
    if decide (0 <= j < 0 + Z.of_nat (length data - Z.to_nat first)) then aget (drop (Z.to_nat first) data) (j - 0)
    else if decide (tail <= j < tail + first) then aget (take (Z.to_nat first) data) (j - tail) else aget buf j).
  { intros j Hj. rewrite aget_blit by lia. rewrite L2. case_decide; [done|].
    rewrite aget_blit by lia. rewrite L1. by rewrite Z2Nat.id by lia. }
  assert (Htail : tail = head + count \/ tail = head + count - cap).
  { unfold tail. destruct (Z_lt_le_dec (head + count) cap).
    - left. apply Z.mod_small. lia.
    - right. symmetry. apply (Z.mod_unique_pos _ _ 1); lia. }
  apply list_eq. intros i.
  destruct (decide (i < Z.to_nat (count + n))%nat) as [Hi|Hi].
  2: { rewrite !lookup_ge_None_2; [done| |]; rewrite ?length_app, ?length_ring_list; lia. }
  rewrite lookup_ring_list by done.
  assert (Hslot : (head + Z.of_nat i) mod cap = head + Z.of_nat i \/ (head + Z.of_nat i) mod cap = head + Z.of_nat i - cap /\ cap <= head + Z.of_nat i).
  { destruct (Z_lt_le_dec (head + Z.of_nat i) cap).
    - left. apply Z.mod_small. lia.
    - right. split; [|done]. symmetry. apply (Z.mod_unique_pos _ _ 1); lia. }
  pose proof (Z.mod_pos_bound (head + Z.of_nat i) cap Hc) as Hsr.
  rewrite Hget by done.
  destruct (decide (i < Z.to_nat count)%nat) as [Hio|Hio].
  - rewrite lookup_app_l by (rewrite length_ring_list; lia). rewrite lookup_ring_list by lia.
    rewrite decide_False by lia. rewrite decide_False by lia. done.
  - rewrite lookup_app_r by (rewrite length_ring_list; lia). rewrite length_ring_list.
    assert (Hd : forall k, (k < length data)%nat -> data !! k = Some (aget data (Z.of_nat k))).
    { intros k Hk. unfold aget. rewrite Nat2Z.id. by apply list_lookup_lookup_total_lt. }
    rewrite Hd by lia. f_equal.
    case_decide as D1; [|case_decide as D2; [|exfalso; lia]].
    + unfold aget. rewrite !list_lookup_total_alt, lookup_drop. do 2 f_equal. lia.
    + unfold aget. rewrite !list_lookup_total_alt, lookup_take_lt by lia. do 2 f_equal. lia.
Qed.
End Ring.
End Ring.
