(* ===== verification/Paths.v ===== *)
(** Paths as the filesystems walk them: pieces up to the next slash, and the
    components of a path. *)
From S2P Require Import Prelude.

Module Paths.

(** At most [n] bytes up to the next slash, and the rest. *)
Fixpoint take_seg (n : nat) (p : list Z) : list Z * list Z :=
  match n, p with
  | S n', c :: p' => if c =? 47 then ([], p) else let '(seg, rest) := take_seg n' p' in (c :: seg, rest)
  | _, _ => ([], p)
  end.

(** Past one slash. *)
Definition skip_slash (p : list Z) : list Z :=
  match p with c :: r => if c =? 47 then r else p | [] => [] end.

(** The pieces between the slashes, empty ones included. *)
Fixpoint split_slash (p : list Z) : list (list Z) :=
  match p with
  | [] => [[]]
  | c :: p' => if c =? 47 then [] :: split_slash p' else match split_slash p' with s :: ss => (c :: s) :: ss | [] => [[c]] end
  end.

(** Empty components are passed over. *)
Definition components (p : list Z) : list (list Z) := filter (fun c => c <> []) (split_slash p).

Definition absolute (p : list Z) : bool := match p with c :: _ => c =? 47 | [] => false end.

Lemma components_slash p : components (47 :: p) = components p.
Proof. unfold components. cbn [split_slash Z.eqb Pos.eqb]. by rewrite filter_cons_False by (by intros ?). Qed.

Lemma split_slash_cons p : exists s ss, split_slash p = s :: ss.
Proof.
  induction p as [|c p (s & ss & E)]; [by exists [], []|]. cbn [split_slash]. destruct (c =? 47); [by eexists _, _|].
  rewrite E. by eexists _, _.
Qed.

Lemma take_seg_split n p s ss : split_slash p = s :: ss -> (length s <= n)%nat ->
  exists rest, take_seg n p = (s, rest) /\ (length s + length rest = length p)%nat /\
    ((rest = [] /\ ss = []) \/ exists p', rest = 47 :: p' /\ ss = split_slash p').
Proof.
  revert n s ss. induction p as [|c p IH]; intros n s ss E Hl.
  { injection E as <- <-. exists []. split_and!; [by destruct n|done|by left]. }
  cbn [split_slash] in E. destruct (c =? 47) eqn:Ec.
  { injection E as <- <-. apply Z.eqb_eq in Ec as ->. exists (47 :: p). split_and!; [by destruct n|done|right; by exists p]. }
  destruct (split_slash_cons p) as (s1 & ss1 & E1). rewrite E1 in E. injection E as <- <-. cbn in Hl.
  destruct n as [|n]; [lia|]. destruct (IH n s1 ss1 E1 ltac:(lia)) as (rest & Et & Hlen & Hr).
  exists rest. cbn [take_seg]. rewrite Ec, Et. split_and!; [done|cbn; lia|done].
Qed.

Lemma components_ne p c : c ∈ components p -> c <> [].
Proof. unfold components. rewrite list_elem_of_filter. naive_solver. Qed.

(** One round of a walk: the piece taken is the first component, or empty, and
    what is left has the others. *)
Lemma take_seg_step n c p : Forall (fun s => (length s <= n)%nat) (components (c :: p)) ->
  let '(seg, rest) := take_seg n (c :: p) in
  components (c :: p) = (if decide (seg = []) then [] else [seg]) ++ components (skip_slash rest) /\
  (length (skip_slash rest) < length (c :: p))%nat.
Proof.
  intros Hc. destruct (split_slash_cons (c :: p)) as (seg & ss & Es).
  assert (Hseg : (length seg <= n)%nat).
  { destruct seg as [|x seg]; [cbn; lia|]. unfold components in Hc. rewrite Es, filter_cons_True in Hc by done. by apply Forall_cons in Hc as [? _]. }
  destruct (take_seg_split n (c :: p) seg ss Es Hseg) as (rest & Et & Hlen & Hr). rewrite Et.
  unfold components at 1. rewrite Es, filter_cons. cbn [length] in *.
  destruct Hr as [[-> ->]|(p' & -> & ->)]; cbn [skip_slash length] in *.
  - split; [|lia]. by repeat case_decide.
  - rewrite Z.eqb_refl. split; [|lia]. by repeat case_decide.
Qed.
End Paths.
