(* ===== verification/Cwd.v ===== *)
(** Path resolution of the system-call layer ([cwd_resolve] of
    src/src/kernel/syscall/table.c): a working directory and a path become one
    absolute path without "." and "..". *)
From S2P Require Import Prelude Paths.

Module Cwd.
Import Paths.

(** Strings are lists of bytes without the closing NUL. *)
Definition cstring (p : list Z) : Prop := Forall (fun c => c <> 0) p.

(** [while ( *p == '/') p++] *)
Fixpoint skip_slashes (p : list Z) : list Z :=
  match p with c :: r => if c =? 47 then skip_slashes r else p | [] => [] end.

(** The buffer [seg] has no closing NUL and is indeterminate when a round
    begins: [junk] gives its bytes. *)
Definition seg_at (junk : Z -> Z) (seg : list Z) (j : Z) : Z := if j <? Z.of_nat (length seg) then aget seg j else junk j.

Definition is_dot (junk : Z -> Z) (seg : list Z) : bool := (seg_at junk seg 0 =? 46) && (seg_at junk seg 1 =? 0).
Definition is_dotdot (junk : Z -> Z) (seg : list Z) : bool :=
  (seg_at junk seg 0 =? 46) && (seg_at junk seg 1 =? 46) && (seg_at junk seg 2 =? 0).

Definition DEPTH : nat := 8.

(** What a round does with its segment. *)
Definition push_seg (junk : Z -> Z) (seg : list Z) (stack : list (list Z)) : list (list Z) :=
  if bool_decide (seg = []) then stack
  else if is_dot junk seg then stack
  else if is_dotdot junk seg then removelast stack
  else if (length stack <? DEPTH)%nat then stack ++ [seg] else stack.

(** [k] counts the segments that are tested; every round consumes a byte, so
    the length of the path is enough fuel. *)
Fixpoint seg_loop (fuel : nat) (junk : nat -> Z -> Z) (k : nat) (p : list Z) (stack : list (list Z)) : nat * list (list Z) :=
  match fuel, p with
  | S f, _ :: _ => let '(seg, rest) := take_seg 63 p in seg_loop f junk (if bool_decide (seg = []) then k else S k) (skip_slashes rest) (push_seg (junk k) seg stack)
  | _, _ => (k, stack)
  end.

(** Writing into [out], of which [room] bytes are before the closing NUL. *)
Definition put (room : nat) (out s : list Z) : list Z := out ++ take (room - length out) s.

Fixpoint put_stack (room : nat) (out : list Z) (stack : list (list Z)) : list Z :=
  match stack with
  | [] => out
  | [s] => put room out s
  | s :: rest => put_stack room (put room (put room out s) [47]) rest
  end.

Definition cwd_resolve (junk : nat -> Z -> Z) (cwd path : list Z) (outsz : Z) : list Z :=
  let '(k, stack) := if absolute path then (O, []) else seg_loop (length cwd) junk O cwd [] in
  let '(_, stack) := seg_loop (length path) junk k path stack in
  put_stack (Z.to_nat (outsz - 1)) [47] stack.

(** ** What it computes *)
Definition dot : list Z := [46].
Definition dotdot : list Z := [46; 46].

(** One component applied to the directory reached so far, as a path means it. *)
Definition enter (st : list (list Z)) (c : list Z) : list (list Z) :=
  if decide (c = dot) then st else if decide (c = dotdot) then removelast st else st ++ [c].
Definition walk_from (st cs : list (list Z)) : list (list Z) := foldl enter st cs.

(** The same as the code sees it, with [j] the bytes behind the component in
    the buffer, which the code has not written: "." and ".." count as such
    when a NUL happens to follow, and "." counts as ".." when a dot and a NUL
    do. *)
Definition enter_seen (j : Z -> Z) (st : list (list Z)) (c : list Z) : list (list Z) :=
  if decide (c = dot) then
    if decide (j 1 = 0) then st
    else if decide (j 1 = 46 /\ j 2 = 0) then removelast st else st ++ [c]
  else if decide (c = dotdot) then if decide (j 2 = 0) then removelast st else st ++ [c]
  else st ++ [c].

Fixpoint walk_seen (junk : nat -> Z -> Z) (k : nat) (st cs : list (list Z)) : list (list Z) :=
  match cs with [] => st | c :: cs => walk_seen junk (S k) (enter_seen (junk k) st c) cs end.

Definition slashed (cs : list (list Z)) : list Z := concat ((fun c => 47 :: c) <$> cs).
Definition join (cs : list (list Z)) : list Z := match cs with [] => [47] | _ => slashed cs end.

(** The components to walk, from the root. *)
Definition steps (cwd path : list Z) : list (list Z) := (if absolute path then [] else components cwd) ++ components path.
Definition target (cwd path : list Z) : list (list Z) := walk_from [] (steps cwd path).

(** Component [k] of [cs] has its NUL in the buffer if it is "." or "..". *)
Definition dots_ended (junk : nat -> Z -> Z) (cs : list (list Z)) : Prop :=
  forall k, (cs !! k = Some dot -> junk k 1 = 0) /\ (cs !! k = Some dotdot -> junk k 2 = 0).

(** ** Rounds *)
Lemma skip_slash_le p : (length (skip_slash p) <= length p)%nat.
Proof. destruct p as [|c p]; [done|]. cbn [skip_slash length]. destruct (c =? 47); cbn [length]; lia. Qed.

Lemma skip_slashes_spec p : components (skip_slashes p) = components p /\ (length (skip_slashes p) <= length (skip_slash p))%nat.
Proof.
  induction p as [|c p [IH IL]]; [done|]. cbn [skip_slashes skip_slash]. destruct (Z.eqb_spec c 47) as [->|]; [|done].
  rewrite components_slash. split; [done|]. pose proof (skip_slash_le p). change (47 =? 47) with true. cbv iota. lia.
Qed.

Lemma take_seg_rounds c p : Forall (fun s => (length s <= 63)%nat) (components (c :: p)) ->
  let '(seg, rest) := take_seg 63 (c :: p) in
  components (c :: p) = (if decide (seg = []) then [] else [seg]) ++ components (skip_slashes rest) /\
  (length (skip_slashes rest) < length (c :: p))%nat.
Proof.
  intros Hc. pose proof (take_seg_step 63 c p Hc) as H. destruct (take_seg 63 (c :: p)) as [seg rest].
  destruct (skip_slashes_spec rest) as [E L]. destruct H as [-> ?]. rewrite E. split; [|lia].
  f_equal. destruct rest as [|d r]; [done|]. cbn [skip_slash]. destruct (Z.eqb_spec d 47) as [->|]; [|done]. by rewrite components_slash.
Qed.

Lemma push_seg_spec junk seg stack : cstring seg -> seg <> [] -> (length (enter_seen junk stack seg) <= DEPTH)%nat ->
  push_seg junk seg stack = enter_seen junk stack seg.
Proof.
  intros Hs Hne Hd. unfold push_seg, is_dot, is_dotdot, seg_at. rewrite bool_decide_eq_false_2 by done.
  assert (Hpush : (length (stack ++ [seg]) <= DEPTH)%nat -> (if (length stack <? DEPTH)%nat then stack ++ [seg] else stack) = stack ++ [seg]).
  { intros H. rewrite length_app in H. cbn in H. by rewrite (proj2 (Nat.ltb_lt _ _)) by lia. }
  revert Hd. unfold enter_seen, dot, dotdot in *.
  destruct seg as [|a [|b [|c l]]]; [done|..]; repeat (apply Forall_cons in Hs as [? Hs]).
  - change (0 <? Z.of_nat (length [a])) with true. change (1 <? Z.of_nat (length [a])) with false.
    change (2 <? Z.of_nat (length [a])) with false. change (aget [a] 0) with a. cbv iota.
    destruct (Z.eqb_spec a 46) as [->|Ha]; cbn [andb].
    + rewrite decide_True by done. destruct (Z.eqb_spec (junk 1) 0) as [->|H1]; [done|]. rewrite (decide_False (P := junk 1 = 0)) by done.
      destruct (Z.eqb_spec (junk 1) 46) as [->|H46], (Z.eqb_spec (junk 2) 0) as [->|H2]; cbn [andb];
        [by rewrite decide_True by done|rewrite decide_False by tauto; exact Hpush..].
    + rewrite !decide_False by congruence. exact Hpush.
  - change (0 <? Z.of_nat (length [a; b])) with true. change (1 <? Z.of_nat (length [a; b])) with true.
    change (2 <? Z.of_nat (length [a; b])) with false. change (aget [a; b] 0) with a. change (aget [a; b] 1) with b. cbv iota.
    rewrite (proj2 (Z.eqb_neq b 0)), andb_false_r by done. rewrite (decide_False (P := [a; b] = [46])) by congruence.
    destruct (Z.eqb_spec a 46) as [->|], (Z.eqb_spec b 46) as [->|]; cbn [andb]; try (rewrite decide_False by congruence; exact Hpush).
    rewrite decide_True by done. destruct (Z.eqb_spec (junk 2) 0) as [->|H2]; [by rewrite decide_True by done|].
    rewrite decide_False by done. exact Hpush.
  - change (aget (a :: b :: c :: l) 0) with a. change (aget (a :: b :: c :: l) 1) with b. change (aget (a :: b :: c :: l) 2) with c.
    cbn [length]. rewrite !(proj2 (Z.ltb_lt _ _)) by lia.
    rewrite (proj2 (Z.eqb_neq b 0)), (proj2 (Z.eqb_neq c 0)), !andb_false_r by done. rewrite !decide_False by done. exact Hpush.
Qed.

Lemma walk_seen_app junk cs ds : forall k st,
  walk_seen junk k st (cs ++ ds) = walk_seen junk (k + length cs) (walk_seen junk k st cs) ds.
Proof.
  induction cs as [|c cs IH]; intros k st; cbn [app walk_seen length]; [by rewrite Nat.add_0_r|].
  rewrite IH. by rewrite Nat.add_succ_r.
Qed.

(** When every dot has its NUL, the code walks the path as it is meant. *)
Lemma walk_seen_ended junk cs : forall k st,
  (forall n, (cs !! n = Some dot -> junk (k + n)%nat 1 = 0) /\ (cs !! n = Some dotdot -> junk (k + n)%nat 2 = 0)) ->
  walk_seen junk k st cs = walk_from st cs.
Proof.
  induction cs as [|c cs IH]; intros k st Hd; [done|]. cbn [walk_seen walk_from foldl]. rewrite IH.
  - f_equal. destruct (Hd O) as [H1 H2]. rewrite Nat.add_0_r in H1, H2. unfold enter_seen, enter.
    destruct (decide (c = dot)) as [->|]; [by rewrite H1, decide_True|].
    destruct (decide (c = dotdot)) as [->|]; [by rewrite H2, decide_True|done].
  - intros n. rewrite Nat.add_succ_comm. exact (Hd (S n)).
Qed.

(** What is asked of the components: no NUL, no name longer than the buffer,
    and nowhere on the way more than the eight rows of the stack. *)
Record fits (junk : nat -> Z -> Z) (k : nat) (st cs : list (list Z)) : Prop := {
  ft_nul : Forall cstring cs;
  ft_len : Forall (fun s => (length s <= 63)%nat) cs;
  ft_deep n : (length (walk_seen junk k st (take n cs)) <= DEPTH)%nat
}.

Lemma fits_cons junk k st c cs : fits junk k st (c :: cs) ->
  cstring c /\ (length (enter_seen (junk k) st c) <= DEPTH)%nat /\ fits junk (S k) (enter_seen (junk k) st c) cs.
Proof.
  intros [Hn Hl Hw]. apply Forall_cons in Hn as [Hc Hn]. apply Forall_cons in Hl as [_ Hl].
  split_and!; [done|exact (Hw 1%nat)|]. split; [done|done|]. intros n. exact (Hw (S n)).
Qed.

Lemma fits_app junk k st cs ds : fits junk k st (cs ++ ds) ->
  fits junk k st cs /\ fits junk (k + length cs) (walk_seen junk k st cs) ds.
Proof.
  intros [Hn Hl Hw]. apply Forall_app in Hn as [Hn1 Hn2]. apply Forall_app in Hl as [Hl1 Hl2]. split; split; try done.
  - intros n. specialize (Hw (n `min` length cs)%nat). rewrite take_app_le in Hw by lia.
    destruct (Nat.min_spec n (length cs)) as [[? E]|[? E]]; rewrite E in Hw; [done|]. by rewrite take_ge in Hw |- * by lia.
  - intros n. specialize (Hw (length cs + n)%nat). by rewrite take_app_add, walk_seen_app in Hw.
Qed.

(** The loop applies the components one after the other. *)
Lemma seg_loop_spec junk fuel : forall p k stack, (length p <= fuel)%nat -> fits junk k stack (components p) ->
  seg_loop fuel junk k p stack = ((k + length (components p))%nat, walk_seen junk k stack (components p)).
Proof.
  induction fuel as [|fuel IH]; intros p k stack Hf Hp.
  { destruct p; [|cbn in Hf; lia]. cbn. by rewrite Nat.add_0_r. }
  destruct p as [|c p]; [cbn; by rewrite Nat.add_0_r|]. cbn [seg_loop].
  pose proof (take_seg_rounds c p (ft_len _ _ _ _ Hp)) as Hr. destruct (take_seg 63 (c :: p)) as [seg rest]. destruct Hr as [Ec Hlen].
  rewrite Ec in Hp |- *. cbn [length] in Hf, Hlen. case_decide as Es.
  - rewrite Es. apply IH; [lia|done].
  - rewrite bool_decide_eq_false_2 by done.
    apply fits_cons in Hp as (Hs & Hd & Hp). rewrite push_seg_spec by done. rewrite IH by (lia || done).
    cbn [app length walk_seen]. by rewrite Nat.add_succ_r.
Qed.

(** ** The result *)
Lemma put_fits room out s : (length out + length s <= room)%nat -> put room out s = out ++ s.
Proof. intros H. unfold put. by rewrite take_ge by lia. Qed.

Lemma put_stack_spec room stack : forall out, (length out + length (slashed stack) <= S room)%nat ->
  put_stack room out stack = out ++ drop 1 (slashed stack).
Proof.
  induction stack as [|s stack IH]; intros out Hl; [by cbn; rewrite app_nil_r|].
  change (slashed (s :: stack)) with ((47 :: s) ++ slashed stack) in *. rewrite length_app in Hl. cbn [put_stack length app drop] in *.
  rewrite drop_0. destruct stack as [|s' stack].
  - rewrite put_fits by (cbn in Hl; lia). by rewrite app_nil_r.
  - assert (Hp : slashed (s' :: stack) = 47 :: drop 1 (slashed (s' :: stack))) by done.
    assert (Hl' : (1 <= length (slashed (s' :: stack)))%nat) by (rewrite Hp; cbn [length]; lia).
    rewrite (put_fits room out s), (put_fits room _ [47]) by (rewrite ?length_app; cbn [length]; lia).
    rewrite IH by (rewrite ?length_app; cbn [length]; lia). rewrite Hp at 2. by rewrite <- !app_assoc.
Qed.

(** A component: not empty, no slash inside. *)
Definition comp (c : list Z) : Prop := c <> [] /\ 47 ∉ c.

Lemma split_slash_no s p : s ∈ split_slash p -> 47 ∉ s.
Proof.
  revert s. induction p as [|c p IH]; intros s Hs; cbn [split_slash] in Hs.
  { apply list_elem_of_singleton in Hs as ->. apply not_elem_of_nil. }
  destruct (Z.eqb_spec c 47) as [|Hc].
  - apply elem_of_cons in Hs as [->|Hs]; [apply not_elem_of_nil|by apply IH].
  - destruct (split_slash_cons p) as (s1 & ss & E). rewrite E in Hs, IH. apply elem_of_cons in Hs as [->|Hs].
    + rewrite not_elem_of_cons. split; [congruence|]. apply IH. left.
    + apply IH. by right.
Qed.

Lemma components_comp p : Forall comp (components p).
Proof.
  apply Forall_forall. intros s Hs. split; [by eapply components_ne|]. apply list_elem_of_filter in Hs as [_ Hs].
  by eapply split_slash_no.
Qed.

Lemma split_slash_app s p : 47 ∉ s -> split_slash (s ++ 47 :: p) = s :: split_slash p.
Proof.
  induction s as [|c s IH]; intros Hs; [done|]. apply not_elem_of_cons in Hs as [Hc Hs]. cbn [app split_slash].
  rewrite (proj2 (Z.eqb_neq c 47)) by congruence. by rewrite IH.
Qed.

Lemma split_slash_seg s : 47 ∉ s -> split_slash s = [s].
Proof.
  induction s as [|c s IH]; intros Hs; [done|]. apply not_elem_of_cons in Hs as [Hc Hs]. cbn [split_slash].
  rewrite (proj2 (Z.eqb_neq c 47)) by congruence. by rewrite IH.
Qed.

Lemma components_slashed cs : Forall comp cs -> components (slashed cs) = cs.
Proof.
  induction cs as [|c cs IH]; intros Hc; [done|]. apply Forall_cons in Hc as [[Hne Hs] Hc]. specialize (IH Hc).
  change (slashed (c :: cs)) with (47 :: c ++ slashed cs). rewrite components_slash. destruct cs as [|d cs].
  - change (slashed []) with (@nil Z). rewrite app_nil_r. unfold components. rewrite split_slash_seg by done. by rewrite filter_cons_True by done.
  - change (slashed (d :: cs)) with (47 :: d ++ slashed cs) in *. rewrite components_slash in IH.
    unfold components in *. rewrite split_slash_app by done. rewrite filter_cons_True by done. by rewrite IH.
Qed.

Lemma components_join cs : Forall comp cs -> components (join cs) = cs.
Proof. destruct cs as [|c cs]; [done|]. apply components_slashed. Qed.

Lemma removelast_forall {A} (P : A -> Prop) l : Forall P l -> Forall P (removelast l).
Proof. induction l as [|a [|b l] IH]; [done|done|]. intros [? ?]%Forall_cons. constructor; [done|by apply IH]. Qed.

Lemma walk_from_forall (P : list Z -> Prop) cs : forall st, Forall P st -> Forall P cs -> Forall P (walk_from st cs).
Proof.
  induction cs as [|c cs IH]; intros st Hst Hcs; [done|]. apply Forall_cons in Hcs as [Hc Hcs]. cbn. apply IH; [|done].
  unfold enter. repeat case_decide; [done|by apply removelast_forall|by apply Forall_app; auto].
Qed.

Lemma walk_seen_forall (P : list Z -> Prop) junk cs : forall k st, Forall P st -> Forall P cs -> Forall P (walk_seen junk k st cs).
Proof.
  induction cs as [|c cs IH]; intros k st Hst Hcs; [done|]. apply Forall_cons in Hcs as [Hc Hcs]. cbn. apply IH; [|done].
  unfold enter_seen. repeat case_decide; try done; try (by apply removelast_forall); by apply Forall_app; auto.
Qed.

(** Neither "." nor "..". *)
Definition real (c : list Z) : Prop := c <> dot /\ c <> dotdot.

Lemma walk_from_real cs : forall st, Forall real st -> Forall real (walk_from st cs).
Proof.
  induction cs as [|c cs IH]; intros st Hst; [done|]. cbn. apply IH. unfold enter. repeat case_decide; [done|by apply removelast_forall|].
  apply Forall_app. split; [done|]. constructor; [done|constructor].
Qed.

Lemma walk_real cs : forall st, Forall real cs -> walk_from st cs = st ++ cs.
Proof.
  induction cs as [|c cs IH]; intros st Hc; [by rewrite app_nil_r|]. apply Forall_cons in Hc as [[H1 H2] Hc]. cbn. rewrite IH by done.
  unfold enter. rewrite !decide_False by done. by rewrite <- app_assoc.
Qed.

Lemma resolve_stack junk cwd path : fits junk 0 [] (steps cwd path) ->
  (let '(k, stack) := if absolute path then (O, []) else seg_loop (length cwd) junk O cwd [] in
   seg_loop (length path) junk k path stack) = (length (steps cwd path), walk_seen junk 0 [] (steps cwd path)).
Proof.
  unfold steps. destruct (absolute path); intros Hp; [by rewrite seg_loop_spec|].
  apply fits_app in Hp as [H1 H2]. rewrite seg_loop_spec by done. rewrite seg_loop_spec by done.
  by rewrite length_app, walk_seen_app.
Qed.

Lemma steps_comp cwd path : Forall comp (steps cwd path).
Proof. apply Forall_app. split; [|apply components_comp]. destruct (absolute path); [done|apply components_comp]. Qed.

Lemma target_real cwd path : Forall real (target cwd path).
Proof. by apply walk_from_real. Qed.

Lemma put_join room cs : (length (join cs) <= room)%nat -> put_stack room [47] cs = join cs.
Proof.
  intros H. destruct cs as [|c cs]; [done|]. unfold join in *.
  rewrite put_stack_spec by (cbn [length]; lia). done.
Qed.

Lemma resolve_string junk cwd path outsz : fits junk 0 [] (steps cwd path) ->
  Z.of_nat (length (join (walk_seen junk 0 [] (steps cwd path)))) < outsz ->
  cwd_resolve junk cwd path outsz = join (walk_seen junk 0 [] (steps cwd path)).
Proof.
  intros Hp Hl. pose proof (resolve_stack junk cwd path Hp) as E. unfold cwd_resolve.
  destruct (if absolute path then (O, []) else seg_loop (length cwd) junk O cwd []) as [k0 st0]. rewrite E. apply put_join. lia.
Qed.

(** A path without dots that has been walked once is the path walked again. *)
Lemma fits_real junk junk' cs : fits junk 0 [] cs -> Forall real (walk_seen junk 0 [] cs) ->
  fits junk' 0 [] (walk_seen junk 0 [] cs) /\ walk_seen junk' 0 [] (walk_seen junk 0 [] cs) = walk_seen junk 0 [] cs.
Proof.
  intros [Hn Hl Hd] Hr. specialize (Hd (length cs)). rewrite take_ge in Hd by done. set (ds := walk_seen junk 0 [] cs) in *.
  assert (Hw : forall es, Forall real es -> walk_seen junk' 0 [] es = es).
  { intros es He. rewrite walk_seen_ended; [by apply walk_real|]. intros n. rewrite Forall_forall in He.
    split; intros Hi%list_elem_of_lookup_2; apply He in Hi as [? ?]; done. }
  split; [|by apply Hw]. split.
  - by apply walk_seen_forall.
  - by apply walk_seen_forall.
  - intros n. rewrite Hw by by apply Forall_take. rewrite length_take. lia.
Qed.

(** C29: For whatever bytes the stack holds where the code reads them
    unwritten, path resolution is the walk over the components, from the root
    for an absolute path and from the working directory otherwise, with "."
    and ".." read as the bytes behind them make them ([enter_seen]), as long as
    the walk is nowhere more than eight directories deep, names have at most 63
    bytes and the result fits. Where every "." and ".." has its NUL behind it
    (or none occurs) that is the walk the path means: "." stays, ".." goes up
    (at the root it stays), and the result is a canonical absolute path, which
    resolves to itself from anywhere, whatever the stack holds then. *)
Theorem cwd_resolve_walks junk cwd path outsz :
  let cs := steps cwd path in
  fits junk 0 [] cs -> Z.of_nat (length (join (walk_seen junk 0 [] cs))) < outsz ->
  cwd_resolve junk cwd path outsz = join (walk_seen junk 0 [] cs) /\
  components (cwd_resolve junk cwd path outsz) = walk_seen junk 0 [] cs /\
  (dots_ended junk cs ->
     cwd_resolve junk cwd path outsz = join (target cwd path) /\ Forall real (target cwd path) /\
     forall junk' cwd', cwd_resolve junk' cwd' (join (target cwd path)) outsz = join (target cwd path)).
Proof.
  intros cs Hp Hl. rewrite (resolve_string _ _ _ _ Hp Hl). fold cs. split; [done|].
  split; [apply components_join, walk_seen_forall; [done|apply steps_comp]|].
  intros He. assert (Et : walk_seen junk 0 [] cs = target cwd path) by (by apply walk_seen_ended).
  rewrite Et. split; [done|]. split; [apply target_real|]. intros junk' cwd'.
  pose proof (target_real cwd path) as Hr. rewrite <- Et in Hr. destruct (fits_real junk junk' cs Hp Hr) as [Hp' Hw].
  assert (Hs : steps cwd' (join (target cwd path)) = walk_seen junk 0 [] cs).
  { unfold steps. assert (Ha : absolute (join (target cwd path)) = true) by (by destruct (target cwd path)).
    rewrite Ha, Et. apply components_join. rewrite <- Et. apply walk_seen_forall; [done|apply steps_comp]. }
  rewrite resolve_string; rewrite Hs; [by rewrite Hw, Et|done|by rewrite Hw].
Qed.

(** "/home/banana" and "../x/./y". *)
Definition cwd0 : list Z := [47; 104; 111; 109; 101; 47; 98; 97; 110; 97; 110; 97].
Definition path0 : list Z := [46; 46; 47; 120; 47; 46; 47; 121].

(** A stack with zeroes, and one where only the first two dots (the
    components "home", "banana" come before) have their NUL. *)
Lemma cwd_resolve_walks_witness :
  cwd_resolve (fun _ _ => 0) cwd0 path0 96 = join [[104; 111; 109; 101]; [120]; [121]] /\
  cwd_resolve (fun k _ => if (k <? 4)%nat then 0 else 98) cwd0 path0 96 = join [[104; 111; 109; 101]; [120]; dot; [121]].
Proof.
  assert (Hf : forall junk, (forall n, (length (walk_seen junk 0 [] (take n (steps cwd0 path0))) <= DEPTH)%nat) ->
    fits junk 0 [] (steps cwd0 path0)).
  { intros junk Hd. split; [repeat constructor; done|repeat constructor; vm_compute; lia|exact Hd]. }
  split.
  - apply (cwd_resolve_walks (fun _ _ => 0) cwd0 path0 96); [|vm_compute; done|].
    + apply Hf. intros n. do 7 (destruct n as [|n]; [vm_compute; lia|]). vm_compute. lia.
    + intros k. done.
  - refine (proj1 (cwd_resolve_walks (fun k _ => if (k <? 4)%nat then 0 else 98) cwd0 path0 96 _ _)); [|vm_compute; done].
    apply Hf. intros n. do 7 (destruct n as [|n]; [vm_compute; lia|]). vm_compute. lia.
Defined.

Example resolve0 : cwd_resolve (fun _ _ => 0) cwd0 path0 96 = [47; 104; 111; 109; 101; 47; 120; 47; 121].
Proof. reflexivity. Qed.

(** The missing NUL: when the buffer keeps the bytes of the round before,
    "ab/." stays as it is, and "../." goes up twice. *)
Example dot_after_name : cwd_resolve (fun k j => if j =? 1 then 98 else 0) [47] [97; 98; 47; 46] 96 = [47; 97; 98; 47; 46].
Proof. reflexivity. Qed.
Example dot_after_dotdot : cwd_resolve (fun k j => if j =? 1 then 46 else 0) cwd0 [46; 46; 47; 46] 96 = [47].
Proof. reflexivity. Qed.

(** The ninth component is lost. *)
Example ninth_lost : cwd_resolve (fun _ _ => 0) [47] (concat (replicate 9 [47; 97])) 96 = concat (replicate 8 [47; 97]).
Proof. reflexivity. Qed.
End Cwd.
