(* ===== verification/Sched.v ===== *)
(** The multi-level feedback queue scheduler (src/src/kernel/sched/sched.c):
    task table, run queues, picking, ticking, blocking and waking. The
    operations that also touch descriptors, signals or memory are in
    Process.v. *)
From S2P Require Import Prelude Ring.

Module Sched.

(** ** Constants (include/axion.h, sched/sched.h) *)
Definition MAX_TASKS : Z := 64.
Definition MLFQ_LEVELS : Z := 5.
Definition TIME_SLICE_BASE : Z := 10.
Definition TASK_STATE_RUNNING : Z := 0.
Definition TASK_STATE_READY : Z := 1.
Definition TASK_STATE_BLOCKED : Z := 2.
Definition TASK_STATE_ZOMBIE : Z := 4.
Definition TASK_STATE_REAPED : Z := 5.
Definition WAIT_NONE : Z := 0.
Definition WAIT_CHILD : Z := 1.
Definition WAIT_KBD : Z := 2.
Definition WAIT_PIPE_RD : Z := 3.
Definition WAIT_PIPE_WR : Z := 4.
Definition WAIT_FUTEX : Z := 5.
Definition WAIT_TIME : Z := 6.
Definition WAIT_SELECT : Z := 7.
Definition WAIT_SIGTIMED : Z := 8.
Definition WAIT_NET : Z := 9.

(** ** Data *)
Record user_regs_t := UserRegs {
  r_rax : Z; r_rdi : Z; r_rsi : Z; r_rdx : Z; r_r10 : Z; r_r8 : Z; r_r9 : Z;
  r_rflags : Z; r_rip : Z; r_rbx : Z; r_rbp : Z; r_r12 : Z; r_r13 : Z;
  r_r14 : Z; r_r15 : Z; r_rsp : Z
}.
#[export] Instance eta_user_regs : Eta user_regs_t := fun r =>
  UserRegs (r_rax r) (r_rdi r) (r_rsi r) (r_rdx r) (r_r10 r) (r_r8 r) (r_r9 r)
    (r_rflags r) (r_rip r) (r_rbx r) (r_rbp r) (r_r12 r) (r_r13 r) (r_r14 r)
    (r_r15 r) (r_rsp r).

Record kctx_t := Kctx {
  k_rsp : Z; k_rbx : Z; k_rbp : Z; k_r12 : Z; k_r13 : Z; k_r14 : Z; k_r15 : Z;
  k_valid : Z
}.
#[export] Instance eta_kctx : Eta kctx_t := fun k =>
  Kctx (k_rsp k) (k_rbx k) (k_rbp k) (k_r12 k) (k_r13 k) (k_r14 k) (k_r15 k) (k_valid k).

(** [const char* name]: NULL, a string literal, or the task's own buffer. *)
Inductive name_ptr :=
| NameNull
| NameLit (bytes : list Z)
| NameBuf.

Record task := Task {
  t_id : Z;
  name : name_ptr;
  func : option Z;
  state : Z;
  priority : Z;
  time_slice : Z;
  ticks_left : Z;
  core_id : Z;
  doorbell_wait : Z;
  saved_priority : Z;
  pid : Z;
  user_rsp : Z;
  entry : Z;
  is_user : Z;
  mm_context : option Z;
  ppid : Z;
  exit_code : Z;
  fork_ctx : user_regs_t;
  kstack_top : Z;
  uid : Z;
  gid : Z;
  euid : Z;
  egid : Z;
  sid : Z;
  umask : Z;
  kctx : kctx_t;
  exit_ctx : kctx_t;
  wait_kind : Z;
  wait_arg : Z;
  is_fork : Z;
  cwd : list Z;
  rlimit_cur : list Z;
  rlimit_max : list Z;
  altstack_base : Z;
  altstack_size : Z;
  altstack_onstack : Z;
  pgrp : Z;
  sig_handler : list Z;
  sig_flags : list Z;
  sig_restorer : list Z;
  sig_pending : Z;
  sig_blocked : Z;
  itimer_deadline : Z;
  itimer_interval : Z;
  wait_deadline : Z;
  task_name : list Z;
  fs_base : Z;
  gs_base : Z
}.
#[export] Instance eta_task : Eta task := fun t =>
  Task (t_id t) (name t) (func t) (state t) (priority t) (time_slice t) (ticks_left t)
    (core_id t) (doorbell_wait t) (saved_priority t) (pid t) (user_rsp t) (entry t)
    (is_user t) (mm_context t) (ppid t) (exit_code t) (fork_ctx t) (kstack_top t)
    (uid t) (gid t) (euid t) (egid t) (sid t) (umask t) (kctx t) (exit_ctx t)
    (wait_kind t) (wait_arg t) (is_fork t) (cwd t) (rlimit_cur t) (rlimit_max t)
    (altstack_base t) (altstack_size t) (altstack_onstack t) (pgrp t) (sig_handler t)
    (sig_flags t) (sig_restorer t) (sig_pending t) (sig_blocked t) (itimer_deadline t)
    (itimer_interval t) (wait_deadline t) (task_name t) (fs_base t) (gs_base t).

Definition regs0 : user_regs_t := UserRegs 0 0 0 0 0 0 0 0 0 0 0 0 0 0 0 0.
Definition kctx0 : kctx_t := Kctx 0 0 0 0 0 0 0 0.
Definition zeros (n : nat) : list Z := replicate n 0.

(** A zeroed slot of the static task table. *)
Definition task0 : task :=
  Task 0 NameNull None 0 0 0 0 0 0 0 0 0 0 0 None 0 0 regs0 0 0 0 0 0 0 0 kctx0 kctx0
    0 0 0 (zeros 96) (zeros 16) (zeros 16) 0 0 0 0 (zeros 64) (zeros 64) (zeros 64)
    0 0 0 0 0 (zeros 32) 0 0.
#[export] Instance inhabited_task : Inhabited task := populate task0.

(** [task_t*] into the table is the slot's index; NULL is [None]. *)
Record mlfq_t := Mlfq {
  tasks : list (option Z);
  head : Z;
  tail : Z;
  count : Z
}.
#[export] Instance eta_mlfq : Eta mlfq_t := fun q => Mlfq (tasks q) (head q) (tail q) (count q).
Definition mlfq0 : mlfq_t := Mlfq (replicate (Z.to_nat MAX_TASKS) None) 0 0 0.
#[export] Instance inhabited_mlfq : Inhabited mlfq_t := populate mlfq0.

(** The static variables of sched.c. *)
Record sched := Sch {
  task_table : list task;
  mlfq : list mlfq_t;
  task_count : Z;
  current_task : option Z;
  idle_task : option Z;
  g_default_uid : Z;
  g_default_gid : Z;
  sched_active_ticks : Z;
  sched_total_ticks : Z;
  sched_sample_start_ms : Z
}.
#[export] Instance eta_sched : Eta sched := fun s =>
  Sch (task_table s) (mlfq s) (task_count s) (current_task s) (idle_task s)
    (g_default_uid s) (g_default_gid s) (sched_active_ticks s) (sched_total_ticks s)
    (sched_sample_start_ms s).

Definition sched_bss : sched :=
  Sch (replicate (Z.to_nat MAX_TASKS) task0) (replicate (Z.to_nat MLFQ_LEVELS) mlfq0)
    0 None None 0 0 0 0 0.

Definition tget (s : sched) (i : Z) : task := aget (task_table s) i.
Definition mod_task (i : Z) (f : task -> task) (s : sched) : sched :=
  s <| task_table := aset (task_table s) i (f (tget s i)) |>.
Definition qget (s : sched) (l : Z) : mlfq_t := aget (mlfq s) l.
Definition set_q (l : Z) (q : mlfq_t) (s : sched) : sched := s <| mlfq := aset (mlfq s) l q |>.

(** ** Run queues *)
Definition time_slice_for_level (level : Z) : Z := (MLFQ_LEVELS - level) * TIME_SLICE_BASE.

Definition mlfq_enqueue (q : mlfq_t) (t : Z) : mlfq_t :=
  if MAX_TASKS <=? count q then q
  else Mlfq (aset (tasks q) (tail q) (Some t)) (head q) ((tail q + 1) mod MAX_TASKS)
         (count q + 1).

Definition mlfq_dequeue (q : mlfq_t) : mlfq_t * option Z :=
  if count q =? 0 then (q, None)
  else (Mlfq (tasks q) ((head q + 1) mod MAX_TASKS) (tail q) (count q - 1),
        aget (tasks q) (head q)).

(** The inner loop of [mlfq_remove]: close the gap at offset [i]. *)
Definition mlfq_shift (h : Z) (js : list Z) (ts : list (option Z)) : list (option Z) :=
  foldl (fun ts j => aset ts ((h + j) mod MAX_TASKS)
                        (aget ts ((h + j + 1) mod MAX_TASKS))) ts js.

Definition mlfq_remove (q : mlfq_t) (t : Z) : mlfq_t * bool :=
  match find_index (fun i => bool_decide (aget (tasks q) ((head q + i) mod MAX_TASKS) = Some t))
          (zrange (Z.to_nat (count q))) with
  | None => (q, false)
  | Some i =>
      (Mlfq (mlfq_shift (head q) (drop i (zrange (Z.to_nat (count q - 1)))) (tasks q))
         (head q) ((tail q - 1 + MAX_TASKS) mod MAX_TASKS) (count q - 1), true)
  end.

Definition enqueue (l t : Z) (s : sched) : sched := set_q l (mlfq_enqueue (qget s l) t) s.
Definition remove (l t : Z) (s : sched) : sched := set_q l (mlfq_remove (qget s l) t).1 s.
Definition remove_all (t : Z) (s : sched) : sched :=
  foldl (fun s l => remove l t s) s (zrange (Z.to_nat MLFQ_LEVELS)).

(** ** sched_init *)
Definition reset_slot (t : task) : task :=
  t <| t_id := 0 |> <| name := NameNull |> <| func := None |> <| state := TASK_STATE_ZOMBIE |>
    <| priority := 0 |> <| time_slice := 0 |> <| ticks_left := 0 |> <| core_id := -1 |>
    <| doorbell_wait := -1 |> <| saved_priority := 0 |> <| pid := 0 |> <| user_rsp := 0 |>
    <| entry := 0 |> <| is_user := 0 |> <| ppid := 0 |> <| exit_code := 0 |> <| uid := 0 |>
    <| gid := 0 |> <| pgrp := 0 |> <| sig_handler := zeros 64 |> <| sig_flags := zeros 64 |>
    <| sig_restorer := zeros 64 |> <| sig_pending := 0 |> <| sig_blocked := 0 |>.

Definition lit_idle : list Z := [73; 100; 108; 101].
Definition lit_user : list Z := [117; 115; 101; 114].

Definition idle_slot (t : task) : task :=
  t <| t_id := 0 |> <| name := NameLit lit_idle |> <| func := None |>
    <| state := TASK_STATE_READY |> <| priority := MLFQ_LEVELS - 1 |> <| time_slice := 100 |>
    <| ticks_left := 100 |> <| core_id := -1 |> <| doorbell_wait := -1 |>
    <| saved_priority := MLFQ_LEVELS - 1 |> <| pid := 0 |> <| user_rsp := 0 |> <| entry := 0 |>
    <| is_user := 0 |> <| mm_context := None |> <| pgrp := 0 |>.

Definition sched_init (s : sched) : sched :=
  let s1 := s <| current_task := None |>
              <| mlfq := (fun q => q <| head := 0 |> <| tail := 0 |> <| count := 0 |>) <$> mlfq s |>
              <| task_table := reset_slot <$> task_table s |>
              <| idle_task := Some 0 |> in
  mod_task 0 idle_slot s1 <| task_count := 1 |>.

(** ** Picking the next task *)
Fixpoint next_scan (ls : list Z) (s : sched) : sched * option Z :=
  match ls with
  | [] => (s, None)
  | i :: ls' =>
      if 0 <? count (qget s i) then
        let '(q, ot) := mlfq_dequeue (qget s i) in
        let s1 := set_q i q s in
        match ot with
        | Some t =>
            if state (tget s1 t) =? TASK_STATE_READY then
              let s2 := mod_task t (fun x =>
                          let x := x <| state := TASK_STATE_RUNNING |> in
                          if ticks_left x <=? 0
                          then x <| ticks_left := time_slice_for_level (priority x) |> else x)
                        (s1 <| current_task := Some t |>) in
              (s2, Some (i32 (t_id (tget s2 t))))
            else next_scan ls' s1
        | None => next_scan ls' s1
        end
      else next_scan ls' s
  end.

Definition sched_next (s : sched) : sched * Z :=
  match next_scan (zrange (Z.to_nat MLFQ_LEVELS)) s with
  | (s1, Some r) => (s1, r)
  | (s1, None) =>
      match idle_task s1 with
      | Some i =>
          if state (tget s1 i) =? TASK_STATE_READY then
            let s2 := mod_task i (fun x => x <| state := TASK_STATE_RUNNING |>) s1
                        <| current_task := Some i |> in
            (s2, i32 (t_id (tget s2 i)))
          else (s1, -1)
      | None => (s1, -1)
      end
  end.

(** ** Timer tick *)
Definition sched_tick (s : sched) : sched :=
  let s1 := s <| sched_total_ticks := u64 (sched_total_ticks s + 1) |> in
  match current_task s1 with
  | Some t =>
      if state (tget s1 t) =? TASK_STATE_RUNNING then
        let s2 := s1 <| sched_active_ticks := u64 (sched_active_ticks s1 + 1) |> in
        let s3 := mod_task t (fun x => x <| ticks_left := ticks_left x - 1 |>) s2 in
        if ticks_left (tget s3 t) <=? 0 then
          let s4 := mod_task t (fun x =>
                      let x := if priority x <? MLFQ_LEVELS - 1
                               then x <| priority := priority x + 1 |> else x in
                      x <| state := TASK_STATE_READY |>) s3 in
          enqueue (priority (tget s4 t)) t s4 <| current_task := None |>
        else s3
      else s1
  | None => s1
  end.

(** ** Adding a kernel task (a copy of [*task]) *)
Definition add_slot (i : Z) (t : task) : task :=
  t <| t_id := i |> <| state := TASK_STATE_READY |> <| priority := 2 |>
    <| time_slice := time_slice_for_level 2 |> <| ticks_left := time_slice_for_level 2 |>
    <| core_id := 0 |> <| doorbell_wait := -1 |> <| saved_priority := 2 |>
    <| mm_context := None |> <| uid := 0 |> <| gid := 0 |> <| pgrp := u32 (pid t) |>
    <| sig_handler := zeros 64 |> <| sig_flags := zeros 64 |> <| sig_restorer := zeros 64 |>
    <| sig_pending := 0 |> <| sig_blocked := 0 |>.

Definition sched_add (t : task) (s : sched) : sched :=
  if MAX_TASKS <=? task_count s then s
  else
    let i := task_count s in
    let s1 := mod_task i (fun _ => add_slot i t) s <| task_count := i + 1 |> in
    enqueue (priority (tget s1 i)) i s1.

(** ** Blocking and waking *)

(** [!task || task->id >= task_count]: the pointer arguments checked by
    [sched_block], [sched_wake] and [sched_boost]. *)
Definition bad_task (ot : option Z) (s : sched) : bool :=
  match ot with None => true | Some t => u32 (task_count s) <=? t_id (tget s t) end.

Definition clear_current (t : Z) (s : sched) : sched :=
  if bool_decide (current_task s = Some t) then s <| current_task := None |> else s.

Definition sched_block (ot : option Z) (doorbell_ch : Z) (s : sched) : sched :=
  if bad_task ot s then s else
  match ot with
  | None => s
  | Some t =>
      let s1 := mod_task t (fun x => x <| state := TASK_STATE_BLOCKED |>
                                       <| doorbell_wait := doorbell_ch |>) s in
      clear_current t (remove (priority (tget s1 t)) t s1)
  end.

Definition sched_wake (ot : option Z) (s : sched) : sched :=
  if bad_task ot s then s else
  match ot with
  | None => s
  | Some t =>
      if negb (state (tget s t) =? TASK_STATE_BLOCKED) then s else
      let s1 := mod_task t (fun x => x <| state := TASK_STATE_READY |> <| doorbell_wait := -1 |>
                                       <| priority := saved_priority x |>
                                       <| ticks_left := time_slice_for_level (saved_priority x) |>) s in
      enqueue (priority (tget s1 t)) t s1
  end.

(** [sched_block_and_switch] up to [switch_context]: [uret] holds the
    user_ret_* globals, [saved] the kernel registers switch_context stores in
    [t->kctx]. The code after the switch is [sched_resume]. *)
Definition sched_block_and_switch (kind arg : Z) (uret saved : kctx_t) (s : sched) : sched :=
  match current_task s with
  | None => s
  | Some t =>
      let s1 := mod_task t (fun x => x <| wait_kind := kind |> <| wait_arg := arg |>
                                       <| state := TASK_STATE_BLOCKED |>) s in
      let s2 := remove (priority (tget s1 t)) t s1 in
      mod_task t (fun x => x <| exit_ctx := uret <| k_valid := 1 |> |> <| kctx := saved |>) s2
  end.

Definition sched_resume (t : Z) (s : sched) : sched :=
  mod_task t (fun x => x <| state := TASK_STATE_RUNNING |>) s.

(** Every wake loop: visit the slots in order, waking those that satisfy the
    loop's condition when they are reached. *)
Definition wake_loop (cond : task -> bool) (s : sched) : sched :=
  foldl (fun s i => if cond (tget s i) then sched_wake (Some i) s else s)
    s (zrange (Z.to_nat (task_count s))).

Definition is_blocked_on (kind : Z) (t : task) : bool :=
  (state t =? TASK_STATE_BLOCKED) && (wait_kind t =? kind).

Definition sched_wake_cond (kind arg : Z) : sched -> sched :=
  wake_loop (fun t => is_blocked_on kind t && (wait_arg t =? arg)).
Definition sched_wake_kbd_all : sched -> sched := wake_loop (is_blocked_on WAIT_KBD).
Definition sched_wake_select_all : sched -> sched := wake_loop (is_blocked_on WAIT_SELECT).

(** [sig_pending & ~sig_blocked] *)
Definition sig_deliverable (t : task) : Z := Z.land (sig_pending t) (Z.lnot (sig_blocked t)).

Definition sched_poll_signals : sched -> sched :=
  wake_loop (fun t => (state t =? TASK_STATE_BLOCKED) && negb (wait_kind t =? WAIT_NONE) &&
                      negb (sig_deliverable t =? 0)).

Definition sched_wake_waiting_parent (child : option Z) (s : sched) : sched :=
  match child with
  | None => s
  | Some c =>
      wake_loop (fun p =>
        is_blocked_on WAIT_CHILD p && (pid p =? ppid (tget s c)) &&
        ((i64 (wait_arg p) =? -1) || (i64 (pid (tget s c)) =? i64 (wait_arg p)))) s
  end.

(** ** Queries over the table *)
Definition first_task (p : task -> bool) (s : sched) : option Z :=
  Z.of_nat <$> find_index p (take (Z.to_nat (task_count s)) (task_table s)).

Definition dead (t : task) : bool :=
  (state t =? TASK_STATE_ZOMBIE) || (state t =? TASK_STATE_REAPED).

Definition sched_task_alive (p : Z) (s : sched) : bool :=
  match first_task (fun t => pid t =? p) s with
  | Some i => negb (dead (tget s i))
  | None => false
  end.

Definition name_is_null (t : task) : bool :=
  match name t with NameNull => true | _ => false end.

Definition sched_find_child (parent_pid p : Z) (s : sched) : option Z :=
  first_task (fun t =>
    (ppid t =? parent_pid) && negb (state t =? TASK_STATE_REAPED) &&
    negb ((state t =? TASK_STATE_ZOMBIE) && name_is_null t) &&
    negb ((0 <? p) && negb (i64 (pid t) =? p))) s.

Definition sched_reap_zombie (s : sched) : Z :=
  match first_task (fun t => state t =? TASK_STATE_ZOMBIE) s with Some i => i | None => -1 end.

Definition sched_force_reap (p : Z) (s : sched) : sched :=
  if p <=? 0 then s else
  match first_task (fun t => (pid t =? p) && (state t =? TASK_STATE_ZOMBIE)) s with
  | Some i => mod_task i (fun x => x <| state := TASK_STATE_REAPED |>) s
  | None => s
  end.

Definition sched_get_task (i : Z) (s : sched) : option Z :=
  if (i <? 0) || (task_count s <=? i) then None
  else if dead (tget s i) then None else Some i.

Definition sched_task_count (s : sched) : Z := task_count s.

(** ** Priority boost, requeue, user-task exit *)
Definition sched_boost (ot : option Z) (s : sched) : sched :=
  if bad_task ot s then s else
  match ot with
  | None => s
  | Some t =>
      let s1 := mod_task t (fun x => x <| saved_priority := priority x |> <| priority := 0 |>
                                       <| ticks_left := time_slice_for_level 0 |>) s in
      let s2 := remove (saved_priority (tget s1 t)) t s1 in
      enqueue 0 t (mod_task t (fun x => x <| state := TASK_STATE_READY |>) s2)
  end.

Definition sched_requeue (ot : option Z) (s : sched) : sched :=
  match ot with
  | None => s
  | Some t =>
      if negb (state (tget s t) =? TASK_STATE_RUNNING) then s else
      let s1 := mod_task t (fun x => x <| state := TASK_STATE_READY |>) s in
      clear_current t (enqueue (priority (tget s1 t)) t s1)
  end.

Definition sched_user_task_exit (i : Z) (s : sched) : sched :=
  if (i <? 0) || (task_count s <=? i) then s else
  remove_all i (mod_task i (fun x => x <| state := TASK_STATE_ZOMBIE |> <| is_user := 0 |>) s).

Definition sched_set_user_task_rsp (rsp : Z) (s : sched) : sched :=
  match current_task s with
  | Some t => if is_user (tget s t) =? 0 then s
              else mod_task t (fun x => x <| user_rsp := rsp |>) s
  | None => s
  end.

(** One turn of [sched_loop]: [run t] is the effect of calling the task's
    function (it may do anything the other operations allow). *)
Definition sched_loop_step (run : Z -> sched -> sched) (s : sched) : sched :=
  let '(s1, tid) := sched_next s in
  if 0 <=? tid then
    let s2 := match func (tget s1 tid) with Some _ => run tid s1 | None => s1 end in
    let s3 := if state (tget s2 tid) =? TASK_STATE_RUNNING then
                let s' := mod_task tid (fun x => x <| state := TASK_STATE_READY |>) s2 in
                enqueue (priority (tget s' tid)) tid s'
              else s2 in
    s3 <| current_task := None |>
  else s1.

(** ** sched_list *)

(** The bytes written so far; [pos] of the code is their number. *)
Definition pos_of (out : list Z) : Z := Z.of_nat (length out).

(** The C string at [p]: the bytes before the first NUL. *)
Fixpoint c_str (l : list Z) : list Z :=
  match l with
  | [] => []
  | b :: l' => if b =? 0 then [] else b :: c_str l'
  end.

(** Append while [pos < max]. *)
Definition put_bounded (max : Z) (bs : list Z) (out : list Z) : list Z :=
  out ++ take (Z.to_nat (max - pos_of out)) bs.

Definition name_bytes (t : task) : list Z :=
  match name t with
  | NameNull => [63]
  | NameLit l => l
  | NameBuf => c_str (task_name t)
  end.

Definition state_names : list (list Z) :=
  [[82; 85; 78]; [82; 68; 89]; [66; 76; 75]; [83; 76; 80]; [90; 77; 66]; [82; 80; 68]].

Definition list_header : list Z :=
  [73; 68; 32; 32; 78; 97; 109; 101; 32; 32; 32; 32; 32; 32; 32; 32; 83; 116; 97; 116; 101;
   32; 80; 114; 105; 32; 67; 111; 114; 101; 10].

Definition list_row (t : task) (max : Z) (out : list Z) : list Z :=
  let out := out ++ (if t_id t <? 10 then [32; u8 (48 + t_id t)]
                     else [u8 (48 + t_id t / 10); u8 (48 + t_id t mod 10)]) ++ [32; 32] in
  let nm := take 12 (name_bytes t) in
  let out := put_bounded max nm out in
  let out := put_bounded max (replicate (12 - length nm) 32) out in
  let sn := if (0 <=? state t) && (state t <=? 5) then aget state_names (state t)
            else [63; 63; 63] in
  let out := put_bounded max sn out ++ [32; 32] in
  let out := put_bounded max [u8 (48 + priority t)] out ++ [32; 32] in
  put_bounded max [u8 (48 + core_id t)] out ++ [10].

Fixpoint list_rows (ids : list Z) (max : Z) (s : sched) (out : list Z) : list Z :=
  match ids with
  | [] => out
  | i :: ids' =>
      let t := tget s i in
      if (state t =? TASK_STATE_ZOMBIE) && name_is_null t then list_rows ids' max s out
      else if max <? pos_of out + 4 then out
      else list_rows ids' max s (list_row t max out)
  end.

(** The bytes left in [buf] and the value returned. *)
Definition sched_list (max : Z) (s : sched) : list Z * Z :=
  let out := list_rows (zrange (Z.to_nat (task_count s))) max s (put_bounded max list_header []) in
  let pos := pos_of out in
  (if pos <? max then out ++ [0] else if 0 <? pos then aset out (pos - 1) 0 else out, pos).


(** ** The run queues refine FIFO lists *)
Definition q_ok (q : mlfq_t) : Prop :=
  length (tasks q) = Z.to_nat MAX_TASKS /\ 0 <= head q < MAX_TASKS /\
  0 <= count q <= MAX_TASKS /\ tail q = (head q + count q) mod MAX_TASKS /\
  Forall is_Some (Ring.ring_list MAX_TASKS (tasks q) (head q) (count q)).

(** The waiting tasks, oldest first. *)
Definition q_list (q : mlfq_t) : list Z :=
  omap (fun x => x) (Ring.ring_list MAX_TASKS (tasks q) (head q) (count q)).

Lemma omap_id_Somes (l : list (option Z)) :
  Forall is_Some l -> Some <$> omap (fun x => x) l = l.
Proof.
  induction 1 as [|x l [y ->] _ IH]; [done|]. cbn. f_equal. apply IH.
Qed.

Lemma q_list_ring q :
  q_ok q -> Some <$> q_list q = Ring.ring_list MAX_TASKS (tasks q) (head q) (count q).
Proof. intros (_ & _ & _ & _ & HF). by apply omap_id_Somes. Qed.

Lemma length_q_list q : q_ok q -> Z.of_nat (length (q_list q)) = count q.
Proof.
  intros Hq. pose proof (q_list_ring q Hq) as E. apply (f_equal length) in E.
  rewrite length_fmap, Ring.length_ring_list in E. destruct Hq as (_ & _ & ? & _). lia.
Qed.

Lemma q_list_unique q l :
  q_ok q -> Ring.ring_list MAX_TASKS (tasks q) (head q) (count q) = Some <$> l -> q_list q = l.
Proof.
  intros Hq E. apply (inj (fmap Some)). by rewrite q_list_ring.
Qed.

Lemma q_ok_intro q l :
  length (tasks q) = Z.to_nat MAX_TASKS -> 0 <= head q < MAX_TASKS ->
  0 <= count q <= MAX_TASKS -> tail q = (head q + count q) mod MAX_TASKS ->
  Ring.ring_list MAX_TASKS (tasks q) (head q) (count q) = Some <$> l ->
  q_ok q /\ q_list q = l.
Proof.
  intros Hl Hh Hc Ht E.
  assert (Hq : q_ok q).
  { split_and!; [done|lia..|done|]. rewrite E. apply Forall_fmap, Forall_true. intros; eauto. }
  split; [done|]. by apply q_list_unique.
Qed.

Lemma mlfq_enqueue_spec q t :
  q_ok q -> count q < MAX_TASKS ->
  q_ok (mlfq_enqueue q t) /\ q_list (mlfq_enqueue q t) = q_list q ++ [t].
Proof.
  intros Hq Hlt. pose proof (q_list_ring q Hq) as E.
  destruct Hq as (Hl & Hh & Hc & Ht & HF).
  unfold mlfq_enqueue. destruct (Z.leb_spec MAX_TASKS (count q)); [lia|].
  apply q_ok_intro; simpl.
  - by rewrite length_aset.
  - done.
  - lia.
  - rewrite Ht. apply Ring.ring_tail_next. unfold MAX_TASKS; lia.
  - rewrite fmap_app, E. simpl. rewrite Ht. apply Ring.ring_push; unfold MAX_TASKS in *; lia.
Qed.

Lemma mlfq_dequeue_empty q : count q = 0 -> mlfq_dequeue q = (q, None).
Proof. intros E. unfold mlfq_dequeue. by rewrite E. Qed.

Lemma mlfq_dequeue_spec q :
  q_ok q -> 0 < count q ->
  exists t q', mlfq_dequeue q = (q', Some t) /\ q_ok q' /\ q_list q = t :: q_list q'.
Proof.
  intros Hq Hpos. pose proof (q_list_ring q Hq) as E.
  destruct Hq as (Hl & Hh & Hc & Ht & HF).
  unfold mlfq_dequeue. destruct (Z.eqb_spec (count q) 0); [lia|].
  rewrite Ring.ring_pop in E by (unfold MAX_TASKS in *; lia).
  destruct (q_list q) as [|t l] eqn:El; [done|]. simpl in E. injection E as E1 E2.
  exists t. eexists. split; [by rewrite <- E1|].
  set (q' := Mlfq _ _ _ _).
  assert (Hq' : q_ok q' /\ q_list q' = l).
  { apply q_ok_intro; simpl.
    - done.
    - apply Z.mod_pos_bound. unfold MAX_TASKS; lia.
    - lia.
    - rewrite Zplus_mod_idemp_l, Ht. f_equal. lia.
    - done. }
  destruct Hq' as [Hq' ->]. done.
Qed.

Lemma length_mlfq_shift h js ts : length (mlfq_shift h js ts) = length ts.
Proof.
  unfold mlfq_shift. revert ts. induction js as [|j js IH]; intros ts; simpl; [done|].
  by rewrite IH, length_aset.
Qed.

(** Closing the gap at offset [i]: later elements move down by one. *)
Lemma mlfq_shift_get h n m ts k :
  length ts = Z.to_nat MAX_TASKS -> (Z.of_nat (n + m) < MAX_TASKS) -> 0 <= k < MAX_TASKS ->
  aget (mlfq_shift h (Z.of_nat <$> seq n m) ts) ((h + k) mod MAX_TASKS) =
  if decide (Z.of_nat n <= k < Z.of_nat (n + m))
  then aget ts ((h + (k + 1)) mod MAX_TASKS)
  else aget ts ((h + k) mod MAX_TASKS).
Proof.
  assert (HM : 0 < MAX_TASKS) by (unfold MAX_TASKS; lia).
  assert (HMl : Z.of_nat (Z.to_nat MAX_TASKS) = MAX_TASKS) by lia.
  revert n ts. induction m as [|m IH]; intros n ts Hl Hn Hk.
  { simpl. case_decide; [lia|done]. }
  simpl. change (foldl _ _ _) with
    (mlfq_shift h (Z.of_nat <$> seq (S n) m)
       (aset ts ((h + Z.of_nat n) mod MAX_TASKS) (aget ts ((h + Z.of_nat n + 1) mod MAX_TASKS)))).
  rewrite IH; [|by rewrite length_aset|lia|lia].
  rewrite <- Z.add_assoc.
  assert (Hr : forall j, 0 <= (h + j) mod MAX_TASKS < Z.of_nat (length ts)).
  { intros j. rewrite Hl, HMl. by apply Z.mod_pos_bound. }
  destruct (decide (Z.of_nat n <= k < Z.of_nat (n + S m))) as [Hd|Hd].
  - destruct (decide (k = Z.of_nat n)) as [->|Hne].
    + rewrite decide_False by lia. by rewrite aget_aset_eq.
    + rewrite decide_True by lia. apply aget_aset_ne; [apply Hr|apply Hr|].
      intros E. apply Ring.ring_slot_inj in E; lia.
  - rewrite decide_False by lia. apply aget_aset_ne; [apply Hr|apply Hr|].
    intros E. apply Ring.ring_slot_inj in E; lia.
Qed.

Lemma list_elem_find (l : list (option Z)) t :
  find_index (fun x => bool_decide (x = Some t)) l = None <-> Some t ∉ l.
Proof.
  rewrite find_index_None, Forall_forall. split.
  - intros HF Hin. specialize (HF _ Hin). by rewrite bool_decide_eq_true_2 in HF.
  - intros Hni x Hx. apply bool_decide_eq_false. by intros ->.
Qed.

Lemma find_index_fmap {A B} (f : A -> B) (p : B -> bool) l :
  find_index (fun x => p (f x)) l = find_index p (f <$> l).
Proof. induction l as [|x l IH]; simpl; [done|]. by rewrite IH. Qed.

Lemma drop_zrange i n : drop i (zrange n) = Z.of_nat <$> seq i (n - i).
Proof. unfold zrange. rewrite <- fmap_drop. f_equal. apply drop_seq. Qed.

(** [mlfq_remove] takes out the first occurrence and keeps the order. *)
Lemma mlfq_remove_spec q t :
  q_ok q ->
  q_ok (mlfq_remove q t).1 /\
  (mlfq_remove q t).2 = bool_decide (t ∈ q_list q) /\
  exists l1 l2,
    q_list (mlfq_remove q t).1 = l1 ++ l2 /\ (t ∉ l1) /\
    (if bool_decide (t ∈ q_list q) then q_list q = l1 ++ t :: l2 else q_list q = l1 /\ l2 = []).
Proof.
  intros Hq. pose proof (q_list_ring q Hq) as E.
  assert (Hf : find_index (fun i => bool_decide (aget (tasks q) ((head q + i) mod MAX_TASKS) = Some t))
                 (zrange (Z.to_nat (count q))) =
               find_index (fun x => bool_decide (x = t)) (q_list q)).
  { pose proof (find_index_fmap (fun i => aget (tasks q) ((head q + i) mod MAX_TASKS))
      (fun x => bool_decide (x = Some t)) (zrange (Z.to_nat (count q)))) as Hf.
    cbv beta in Hf. rewrite Hf.
    change ((fun i => aget (tasks q) ((head q + i) mod MAX_TASKS)) <$> zrange (Z.to_nat (count q)))
      with (Ring.ring_list MAX_TASKS (tasks q) (head q) (count q)).
    rewrite <- E, <- find_index_fmap. clear. induction (q_list q) as [|x l IH]; simpl; [done|].
    rewrite IH. rewrite (bool_decide_ext (Some x = Some t) (x = t)); [done|].
    split; [congruence|congruence]. }
  unfold mlfq_remove. rewrite Hf.
  destruct (find_index _ (q_list q)) as [i|] eqn:Hi.
  - apply find_index_Some in Hi as (x & Hx & Hp & Hlt). apply bool_decide_eq_true in Hp as ->.
    rewrite bool_decide_eq_true_2 by (by apply list_elem_of_lookup_2 with i).
    pose proof (length_q_list q Hq) as Hlen.
    pose proof (lookup_lt_Some _ _ _ Hx) as Hil.
    destruct Hq as (Hl & Hh & Hc & Ht & HF). rewrite drop_zrange.
    set (q' := Mlfq _ _ _ _).
    assert (Hq' : q_ok q' /\ q_list q' = delete i (q_list q)).
    { apply q_ok_intro; simpl.
      - by rewrite length_mlfq_shift.
      - done.
      - lia.
      - rewrite Ht. replace ((head q + count q) mod MAX_TASKS - 1 + MAX_TASKS)
          with ((head q + count q) mod MAX_TASKS + (MAX_TASKS - 1)) by lia.
        rewrite Zplus_mod_idemp_l. replace (head q + count q + (MAX_TASKS - 1))
          with (head q + (count q - 1) + 1 * MAX_TASKS) by lia.
        apply Z_mod_plus_full.
      - apply list_eq. intros k.
        destruct (decide (k < Z.to_nat (count q - 1))%nat) as [Hk|Hk].
        + rewrite Ring.lookup_ring_list by done.
          rewrite mlfq_shift_get by (try done; unfold MAX_TASKS in *; lia).
          rewrite list_fmap_delete, E.
          destruct (decide (k < i)%nat) as [Hki|Hki].
          * rewrite list_lookup_delete_lt by done. rewrite decide_False by lia.
            by rewrite Ring.lookup_ring_list by lia.
          * rewrite list_lookup_delete_ge by lia. rewrite decide_True by lia.
            rewrite Ring.lookup_ring_list by lia. do 3 f_equal. lia.
        + rewrite lookup_ge_None_2 by (rewrite Ring.length_ring_list; lia).
          rewrite lookup_ge_None_2; [done|]. rewrite length_fmap, length_delete by eauto. lia. }
    destruct Hq' as [Hq' E']. cbn [fst snd]. rewrite E'. split; [done|]. split; [done|].
    exists (take i (q_list q)), (drop (S i) (q_list q)).
    split_and!.
    + apply delete_take_drop.
    + intros Hin. apply list_elem_of_lookup in Hin as [j Hj].
      assert (Hji : (j < i)%nat) by (apply lookup_lt_Some in Hj; rewrite length_take in Hj; lia).
      rewrite lookup_take_lt in Hj by done. specialize (Hlt j t Hji Hj).
      by rewrite bool_decide_eq_true_2 in Hlt.
    + symmetry. by apply take_drop_middle.
  - apply find_index_None in Hi. simpl. rewrite Forall_forall in Hi.
    assert (Hni : t ∉ q_list q).
    { intros Hin. specialize (Hi t Hin). by rewrite bool_decide_eq_true_2 in Hi. }
    rewrite bool_decide_eq_false_2 by done. split; [done|]. split; [done|].
    exists (q_list q), []. by rewrite app_nil_r.
Qed.


(** ** The scheduler invariant *)

(** The tasks waiting at level [l], oldest first. *)
Definition ql (s : sched) (l : Z) : list Z := q_list (qget s l).

Definition slot_ok (i : Z) (t : task) : Prop :=
  t_id t = i /\ 0 <= priority t < MLFQ_LEVELS /\ 0 <= saved_priority t < MLFQ_LEVELS.

Record sched_ok (s : sched) : Prop := {
  ok_len : length (task_table s) = Z.to_nat MAX_TASKS;
  ok_lvls : length (mlfq s) = Z.to_nat MLFQ_LEVELS;
  ok_tc : 0 <= task_count s <= MAX_TASKS;
  ok_q : forall l, 0 <= l < MLFQ_LEVELS -> q_ok (qget s l);
  ok_queued : forall l t, 0 <= l < MLFQ_LEVELS -> t ∈ ql s l ->
    0 <= t < task_count s /\ state (tget s t) = TASK_STATE_READY /\ priority (tget s t) = l;
  ok_nodup : forall l, 0 <= l < MLFQ_LEVELS -> NoDup (ql s l);
  ok_slot : forall i, 0 <= i < task_count s -> slot_ok i (tget s i);
  ok_cur : forall t, current_task s = Some t -> 0 <= t < task_count s;
  ok_idle : forall t, idle_task s = Some t -> 0 <= t < task_count s
}.

(** No READY task is forgotten: it waits in the queue of its priority, unless
    it is the idle task or one of the slots [L], which are lost. *)
Definition sched_live_but (L : Z -> Prop) (s : sched) : Prop :=
  forall i, 0 <= i < task_count s -> state (tget s i) = TASK_STATE_READY ->
            idle_task s = Some i \/ i ∈ ql s (priority (tget s i)) \/ L i.
Definition sched_live : sched -> Prop := sched_live_but (fun _ => False).

(** What every operation on a task amounts to: slot [t] becomes [x], [t]
    leaves the queue it was in, and it joins the back of the queue of its
    priority if it is READY now. *)
Record placed (s : sched) (t : Z) (x : task) (s' : sched) : Prop := {
  pl_table : task_table s' = aset (task_table s) t x;
  pl_tc : task_count s' = task_count s \/ t = task_count s /\ task_count s' = t + 1;
  pl_idle : idle_task s' = idle_task s;
  pl_lvls : length (mlfq s') = length (mlfq s);
  pl_cur : current_task s' = current_task s \/ current_task s' = None \/ current_task s' = Some t;
  pl_q : forall l, 0 <= l < MLFQ_LEVELS ->
    q_ok (qget s' l) /\
    ql s' l = filter (fun y => y <> t) (ql s l) ++
              (if decide (state x = TASK_STATE_READY /\ priority x = l) then [t] else [])
}.

Lemma tget_mod_eq s t f :
  sched_ok s -> 0 <= t < MAX_TASKS -> tget (mod_task t f s) t = f (tget s t).
Proof. intros Hs Ht. apply aget_aset_eq. rewrite (ok_len _ Hs). lia. Qed.

Lemma tget_mod_ne s t u f : 0 <= t -> 0 <= u -> t <> u -> tget (mod_task t f s) u = tget s u.
Proof. intros. by apply aget_aset_ne. Qed.

Lemma elem_of_filter_ne (t y : Z) (l : list Z) : y ∈ filter (fun z => z <> t) l <-> y <> t /\ y ∈ l.
Proof. by rewrite list_elem_of_filter. Qed.

Lemma filter_ne_id (t : Z) (l : list Z) : t ∉ l -> filter (fun z => z <> t) l = l.
Proof.
  induction l as [|y l IH]; intros Hni; [done|].
  rewrite filter_cons_True by set_solver. f_equal. apply IH. set_solver.
Qed.

Lemma placed_ok s t x s' :
  sched_ok s -> 0 <= t < task_count s' -> task_count s' <= MAX_TASKS ->
  slot_ok t x -> placed s t x s' -> sched_ok s'.
Proof.
  intros Hs Ht Htc Hx [Ptab Ptc Pidle Plv Pcur Pq].
  assert (Hle : task_count s <= task_count s') by lia.
  assert (Hlen : Z.of_nat (length (task_table s)) = MAX_TASKS).
  { rewrite (ok_len _ Hs). unfold MAX_TASKS. lia. }
  assert (Hget : forall u, 0 <= u -> tget s' u = if decide (t = u) then x else tget s u).
  { intros u Hu. unfold tget. rewrite Ptab. apply aget_aset; lia. }
  constructor.
  - rewrite Ptab, length_aset. apply (ok_len _ Hs).
  - rewrite Plv. apply (ok_lvls _ Hs).
  - lia.
  - intros l Hl. by apply Pq.
  - intros l u Hl Hu. destruct (Pq l Hl) as [_ E]. rewrite E in Hu.
    apply elem_of_app in Hu as [Hu|Hu].
    + apply elem_of_filter_ne in Hu as [Hne Hu].
      destruct (ok_queued _ Hs l u Hl Hu) as (? & ? & ?).
      rewrite Hget, decide_False by (done || lia). split_and!; [lia|lia|done..].
    + destruct (decide _) as [[Hr Hp]|]; [|by apply not_elem_of_nil in Hu].
      apply list_elem_of_singleton in Hu as ->. rewrite Hget, decide_True by (done || lia). done.
  - intros l Hl. destruct (Pq l Hl) as [_ ->]. apply NoDup_app. split_and!.
    + apply NoDup_filter, (ok_nodup _ Hs l Hl).
    + intros u [Hne _]%elem_of_filter_ne. destruct (decide (state x = _ /\ _)); [by intros ->%list_elem_of_singleton|apply not_elem_of_nil].
    + destruct (decide (state x = _ /\ _)); [apply NoDup_singleton|apply NoDup_nil_2].
  - intros i Hi. rewrite Hget by lia. destruct (decide (t = i)) as [<-|Hne]; [done|].
    apply (ok_slot _ Hs). lia.
  - intros u Hu. destruct Pcur as [E|[E|E]]; rewrite E in Hu; [|done|].
    + pose proof (ok_cur _ Hs u Hu). lia.
    + by injection Hu as <-.
  - intros u Hu. rewrite Pidle in Hu. pose proof (ok_idle _ Hs u Hu). lia.
Qed.

Lemma placed_live L s t x s' :
  sched_ok s -> 0 <= t < task_count s' -> task_count s' <= MAX_TASKS ->
  slot_ok t x -> placed s t x s' -> sched_live_but L s -> sched_live_but L s'.
Proof.
  intros Hs Ht Htc Hx [Ptab Ptc Pidle Plv Pcur Pq] Hlive i Hi Hr.
  assert (Hget : forall u, 0 <= u -> tget s' u = if decide (t = u) then x else tget s u).
  { intros u Hu. unfold tget. rewrite Ptab. apply aget_aset; [|done].
    rewrite (ok_len _ Hs). unfold MAX_TASKS in *. lia. }
  rewrite Hget in Hr |- * by lia. destruct (decide (t = i)) as [E|E].
  - subst i. right. left. destruct Hx as (_ & Hp & _). destruct (Pq _ Hp) as [_ ->].
    rewrite decide_True by done. apply elem_of_app. right. by apply list_elem_of_singleton.
  - rewrite Pidle. destruct (Hlive i) as [|[Hq|HL]]; [lia|done|by left|right; left|by right; right].
    destruct (ok_slot _ Hs i) as (_ & Hp & _); [lia|].
    destruct (Pq _ Hp) as [_ ->]. apply elem_of_app. left. apply elem_of_filter_ne. split; congruence.
Qed.

(** *** Where a task is queued *)
Definition unqueued (s : sched) (t : Z) : Prop :=
  forall l, 0 <= l < MLFQ_LEVELS -> t ∉ ql s l.

Lemma unqueued_state s t :
  sched_ok s -> state (tget s t) <> TASK_STATE_READY -> unqueued s t.
Proof. intros Hs Hne l Hl Hin. by destruct (ok_queued _ Hs l t Hl Hin) as (_ & ? & _). Qed.

Lemma unqueued_beyond s t : sched_ok s -> task_count s <= t -> unqueued s t.
Proof. intros Hs Hle l Hl Hin. destruct (ok_queued _ Hs l t Hl Hin) as (? & _). lia. Qed.

Lemma qget_set_q s l k q :
  sched_ok s -> 0 <= l < MLFQ_LEVELS -> 0 <= k -> qget (set_q l q s) k = if decide (l = k) then q else qget s k.
Proof. intros Hs Hl Hk. apply aget_aset; [|done]. rewrite (ok_lvls _ Hs). lia. Qed.

Lemma nodup_removed (t : Z) (l l1 l2 : list Z) :
  NoDup l -> (t ∉ l1) -> (if bool_decide (t ∈ l) then l = l1 ++ t :: l2 else l = l1 /\ l2 = []) ->
  l1 ++ l2 = filter (fun y => y <> t) l.
Proof.
  intros Hnd Hl1. case_bool_decide as Hin.
  - intros ->. apply NoDup_app in Hnd as (_ & _ & Hnd). apply NoDup_cons in Hnd as [Hl2 _].
    rewrite filter_app, filter_cons_False by (intros H; by apply H).
    by rewrite !filter_ne_id.
  - intros [-> ->]. rewrite app_nil_r. by rewrite filter_ne_id.
Qed.

Lemma remove_ql s l t :
  sched_ok s -> 0 <= l < MLFQ_LEVELS ->
  forall k, 0 <= k < MLFQ_LEVELS ->
    q_ok (qget (remove l t s) k) /\
    ql (remove l t s) k = if decide (l = k) then filter (fun y => y <> t) (ql s k) else ql s k.
Proof.
  intros Hs Hl k Hk. unfold ql, remove. rewrite qget_set_q by (done || lia).
  case_decide as E; [subst k|split; [by apply (ok_q _ Hs)|done]].
  destruct (mlfq_remove_spec (qget s l) t (ok_q _ Hs l Hl)) as (Hq & _ & l1 & l2 & E & Hn & Hif).
  split; [done|]. rewrite E. apply nodup_removed; [by apply (ok_nodup _ Hs)|done|done].
Qed.

Lemma remove_own_ql s t :
  sched_ok s -> 0 <= priority (tget s t) < MLFQ_LEVELS ->
  forall k, 0 <= k < MLFQ_LEVELS ->
    q_ok (qget (remove (priority (tget s t)) t s) k) /\
    ql (remove (priority (tget s t)) t s) k = filter (fun y => y <> t) (ql s k).
Proof.
  intros Hs Hp k Hk. destruct (remove_ql s _ t Hs Hp k Hk) as [Hq E]. split; [done|].
  rewrite E. case_decide as Ek; [done|]. symmetry. apply filter_ne_id.
  intros Hin. by destruct (ok_queued _ Hs k t Hk Hin) as (_ & _ & ?).
Qed.

(** A queue of distinct tasks that misses one of them is not full. *)
Lemma queue_not_full s l t :
  sched_ok s -> 0 <= l < MLFQ_LEVELS -> 0 <= t < MAX_TASKS ->
  Z.of_nat (length (filter (fun y => y <> t) (ql s l))) < MAX_TASKS.
Proof.
  intros Hs Hl Ht.
  assert (Hnd : NoDup (t :: filter (fun y => y <> t) (ql s l))).
  { apply NoDup_cons. split; [by intros [? _]%elem_of_filter_ne|].
    apply NoDup_filter, (ok_nodup _ Hs l Hl). }
  assert (Hsub : t :: filter (fun y => y <> t) (ql s l) ⊆ zrange (Z.to_nat MAX_TASKS)).
  { intros u Hu. apply elem_of_zrange. rewrite Z2Nat.id by (unfold MAX_TASKS; lia).
    apply elem_of_cons in Hu as [->|[_ Hu]%elem_of_filter_ne]; [done|].
    destruct (ok_queued _ Hs l u Hl Hu) as (? & _). pose proof (ok_tc _ Hs). lia. }
  pose proof (submseteq_length _ _ (NoDup_submseteq _ _ Hnd Hsub)) as Hlen.
  rewrite length_zrange in Hlen. simpl in Hlen. lia.
Qed.

Lemma ql_mod_task t f s l : ql (mod_task t f s) l = ql s l.
Proof. done. Qed.

(** *** The three shapes of a task operation *)

(** [t] is taken out of its queue and its slot rewritten. *)
Lemma placed_remove s t x :
  sched_ok s -> 0 <= t < task_count s -> state x <> TASK_STATE_READY ->
  placed s t x (mod_task t (fun _ => x) (remove (priority (tget s t)) t s)).
Proof.
  intros Hs Ht Hx. destruct (ok_slot _ Hs t Ht) as (_ & Hp & _).
  constructor; try done; [by left|apply length_aset|by left|].
  intros l Hl. destruct (remove_own_ql s t Hs Hp l Hl) as [Hq E]. split; [done|].
  rewrite ql_mod_task, E.
  rewrite decide_False by (by intros [? _]). by rewrite app_nil_r.
Qed.

(** Enqueueing [t] at its new priority once it is out of every queue. *)
Lemma placed_enqueue s s1 t x :
  sched_ok s -> 0 <= t < MAX_TASKS -> slot_ok t x -> state x = TASK_STATE_READY ->
  task_table s1 = aset (task_table s) t x ->
  (task_count s1 = task_count s \/ t = task_count s /\ task_count s1 = t + 1) ->
  idle_task s1 = idle_task s -> length (mlfq s1) = length (mlfq s) ->
  current_task s1 = current_task s ->
  (forall l, 0 <= l < MLFQ_LEVELS ->
     q_ok (qget s1 l) /\ ql s1 l = filter (fun y => y <> t) (ql s l)) ->
  placed s t x (enqueue (priority x) t s1).
Proof.
  intros Hs Ht (_ & Hp & _) Hx Etab Etc Eidle Elv Ecur Hq.
  constructor; try done; [by rewrite <- Elv; apply length_aset|by left|].
  intros l Hl. destruct (Hq l Hl) as [Hql El].
  assert (Eg : qget (enqueue (priority x) t s1) l =
               if decide (priority x = l) then mlfq_enqueue (qget s1 (priority x)) t else qget s1 l).
  { apply aget_aset; [|lia]. rewrite Elv, (ok_lvls _ Hs). lia. }
  unfold ql at 1. rewrite Eg. clear Eg. case_decide as E.
  - subst l. rewrite decide_True by done.
    destruct (mlfq_enqueue_spec (qget s1 (priority x)) t Hql) as [H1 H2].
    { rewrite <- length_q_list by done. change (q_list _) with (ql s1 (priority x)).
      rewrite El. by apply queue_not_full. }
    split; [done|]. rewrite H2. change (q_list _) with (ql s1 (priority x)). by rewrite El.
  - rewrite decide_False by (by intros [_ ?]). rewrite app_nil_r. by split.
Qed.

Lemma placed_move s t x :
  sched_ok s -> 0 <= t < task_count s -> slot_ok t x -> state x = TASK_STATE_READY ->
  placed s t x (enqueue (priority x) t (mod_task t (fun _ => x) (remove (priority (tget s t)) t s))).
Proof.
  intros Hs Ht Hx Hr. pose proof (ok_tc _ Hs). destruct (ok_slot _ Hs t Ht) as (_ & Hp & _).
  apply placed_enqueue; try done; [lia|by left|apply length_aset|].
  intros l Hl. by apply remove_own_ql.
Qed.

Lemma placed_wake s t x :
  sched_ok s -> 0 <= t < MAX_TASKS -> unqueued s t -> slot_ok t x -> state x = TASK_STATE_READY ->
  placed s t x (enqueue (priority x) t (mod_task t (fun _ => x) s)).
Proof.
  intros Hs Ht Hu Hx Hr. apply placed_enqueue; try done; [by left|].
  intros l Hl. split; [by apply (ok_q _ Hs)|]. symmetry. by apply filter_ne_id, Hu.
Qed.

Lemma placed_set s t x :
  sched_ok s -> unqueued s t -> state x <> TASK_STATE_READY -> placed s t x (mod_task t (fun _ => x) s).
Proof.
  intros Hs Hu Hx. constructor; try done; [by left|by left|].
  intros l Hl. split; [by apply (ok_q _ Hs)|].
  rewrite decide_False by (by intros [? _]). rewrite app_nil_r. symmetry. by apply filter_ne_id, Hu.
Qed.

Lemma placed_current s t x s' c :
  placed s t x s' -> c = None \/ c = Some t -> placed s t x (s' <| current_task := c |>).
Proof. intros [] Hc. constructor; try done. by right. Qed.

Lemma placed_clear s t x s' : placed s t x s' -> placed s t x (clear_current t s').
Proof.
  intros H. unfold clear_current. case_bool_decide; [|done]. apply placed_current; [done|by left].
Qed.

(** Rewriting fields the queues do not depend on. *)
Lemma mod_task_ok s t f :
  sched_ok s -> 0 <= t < MAX_TASKS ->
  (forall x, t_id (f x) = t_id x /\ state (f x) = state x /\ priority (f x) = priority x /\
             saved_priority (f x) = saved_priority x) ->
  sched_ok (mod_task t f s).
Proof.
  intros Hs Ht Hf. pose proof (ok_len _ Hs) as Hlen.
  assert (Hget : forall u, 0 <= u -> tget (mod_task t f s) u =
                  if decide (t = u) then f (tget s u) else tget s u).
  { intros u Hu. unfold tget at 1. simpl. rewrite aget_aset; [|unfold MAX_TASKS in *; lia|done].
    case_decide; [by subst|done]. }
  assert (Hsame : forall u, 0 <= u ->
     t_id (tget (mod_task t f s) u) = t_id (tget s u) /\
     state (tget (mod_task t f s) u) = state (tget s u) /\
     priority (tget (mod_task t f s) u) = priority (tget s u) /\
     saved_priority (tget (mod_task t f s) u) = saved_priority (tget s u)).
  { intros u Hu. rewrite Hget by done. case_decide; [apply Hf|done]. }
  constructor; try apply Hs.
  - simpl. by rewrite length_aset.
  - intros l u Hl Hu. destruct (ok_queued _ Hs l u Hl Hu) as (? & ? & ?).
    destruct (Hsame u) as (_ & -> & -> & _); [lia|]. done.
  - intros i Hi. pose proof (ok_slot _ Hs i Hi) as Hi'. unfold slot_ok in *.
    destruct (Hsame i) as (-> & _ & -> & ->); [|done]. apply Hi.
Qed.

Lemma mod_task_live L s t f :
  sched_ok s -> 0 <= t < MAX_TASKS ->
  (forall x, state (f x) = state x /\ priority (f x) = priority x) ->
  sched_live_but L s -> sched_live_but L (mod_task t f s).
Proof.
  intros Hs Ht Hf Hl i Hi Hr.
  assert (Hget : tget (mod_task t f s) i = if decide (t = i) then f (tget s i) else tget s i).
  { unfold tget at 1. simpl. rewrite aget_aset; [|rewrite (ok_len _ Hs); unfold MAX_TASKS in *; lia|apply Hi].
    case_decide; [by subst|done]. }
  rewrite Hget in Hr |- *.
  case_decide; [|by apply Hl]. destruct (Hf (tget s i)) as [E1 E2]. rewrite E1 in Hr.
  rewrite E2. by apply Hl.
Qed.

(** ** Every operation preserves the invariant *)
Definition preserves (s s' : sched) : Prop := sched_ok s' /\ forall L, sched_live_but L s -> sched_live_but L s'.

Lemma preserves_refl s : sched_ok s -> preserves s s.
Proof. by split. Qed.

Lemma preserves_trans s1 s2 s3 : preserves s1 s2 -> preserves s2 s3 -> preserves s1 s3.
Proof. intros [_ H1] [H2 H3]. split; [done|]. intros L H. by apply H3, H1. Qed.

Lemma placed_preserves s t x s' :
  sched_ok s -> 0 <= t < task_count s' -> task_count s' <= MAX_TASKS ->
  slot_ok t x -> placed s t x s' -> preserves s s'.
Proof. intros. split; [by eapply placed_ok|intros L; by eapply placed_live]. Qed.

(** The common case: a task already in the table. *)
Lemma placed_in s t x s' :
  sched_ok s -> 0 <= t < task_count s -> slot_ok t x -> placed s t x s' -> preserves s s'.
Proof.
  intros Hs Ht Hx Hp. pose proof (ok_tc _ Hs).
  eapply placed_preserves; [done| | |done|done]; destruct (pl_tc _ _ _ _ Hp) as [E|[E _]]; lia.
Qed.

(** Rewriting a slot twice. *)
Lemma table_mod_twice s s1 t y g :
  sched_ok s -> 0 <= t < MAX_TASKS -> task_table s1 = aset (task_table s) t y ->
  task_table (mod_task t g s1) = aset (task_table s) t (g y).
Proof.
  intros Hs Ht E. change (task_table (mod_task t g s1)) with
    (aset (task_table s1) t (g (aget (task_table s1) t))).
  rewrite E, aget_aset_eq by (rewrite (ok_len _ Hs); lia).
  unfold aset. apply list_insert_insert_eq.
Qed.

Lemma bad_task_valid t s : sched_ok s -> 0 <= t < task_count s -> bad_task (Some t) s = false.
Proof.
  intros Hs Ht. simpl. apply Z.leb_gt. pose proof (ok_tc _ Hs).
  destruct (ok_slot _ Hs t Ht) as (-> & _). rewrite u32_small; unfold MAX_TASKS in *; lia.
Qed.

Lemma sched_block_placed s t ch :
  sched_ok s -> 0 <= t < task_count s ->
  placed s t (tget s t <| state := TASK_STATE_BLOCKED |> <| doorbell_wait := ch |>)
    (sched_block (Some t) ch s).
Proof.
  intros Hs Ht. pose proof (ok_tc _ Hs). unfold sched_block. rewrite bad_task_valid by done.
  rewrite tget_mod_eq by (done || lia).
  apply placed_clear. by apply (placed_remove s t (tget s t <| state := TASK_STATE_BLOCKED |>
    <| doorbell_wait := ch |>)).
Qed.

Lemma sched_block_preserves s t ch :
  sched_ok s -> 0 <= t < task_count s -> preserves s (sched_block (Some t) ch s).
Proof.
  intros Hs Ht. eapply placed_in; [done|done| |by apply sched_block_placed].
  apply (ok_slot _ Hs t Ht).
Qed.

(** The record [sched_wake] leaves in the slot. *)
Definition woken (x : task) : task :=
  x <| state := TASK_STATE_READY |> <| doorbell_wait := -1 |> <| priority := saved_priority x |>
    <| ticks_left := time_slice_for_level (saved_priority x) |>.

Lemma sched_wake_not_blocked s t :
  state (tget s t) <> TASK_STATE_BLOCKED -> sched_wake (Some t) s = s.
Proof.
  intros Hne. unfold sched_wake. destruct (bad_task _ _); [done|].
  by rewrite (proj2 (Z.eqb_neq _ _)) by done.
Qed.

Lemma sched_wake_placed s t :
  sched_ok s -> 0 <= t < task_count s -> state (tget s t) = TASK_STATE_BLOCKED ->
  placed s t (woken (tget s t)) (sched_wake (Some t) s).
Proof.
  intros Hs Ht Hb. pose proof (ok_tc _ Hs). unfold sched_wake. rewrite bad_task_valid by done.
  rewrite Hb. simpl negb. cbv iota. rewrite tget_mod_eq by (done || lia).
  destruct (ok_slot _ Hs t Ht) as (Hid & _ & Hsv).
  apply (placed_wake s t (woken (tget s t))); [done|lia| |done|done].
  apply unqueued_state; [done|]. by rewrite Hb.
Qed.

Lemma woken_slot_ok i x : slot_ok i x -> slot_ok i (woken x).
Proof. by intros (Hid & _ & Hsv). Qed.

Lemma sched_wake_preserves s t :
  sched_ok s -> 0 <= t < task_count s -> preserves s (sched_wake (Some t) s).
Proof.
  intros Hs Ht. destruct (decide (state (tget s t) = TASK_STATE_BLOCKED)) as [Hb|Hb].
  - eapply placed_in; [done|done| |by apply sched_wake_placed].
    apply woken_slot_ok, (ok_slot _ Hs t Ht).
  - rewrite sched_wake_not_blocked by done. by apply preserves_refl.
Qed.

Lemma sched_wake_tc s t : sched_ok s -> 0 <= t < task_count s -> task_count (sched_wake (Some t) s) = task_count s.
Proof.
  intros Hs Ht. unfold sched_wake. destruct (bad_task _ _); [done|]. by destruct (negb _).
Qed.

(** A waking loop over any list of slots. *)
Lemma wake_fold_preserves (cond : task -> bool) (l0 : list Z) s :
  sched_ok s -> (forall i, i ∈ l0 -> 0 <= i < task_count s) ->
  preserves s (foldl (fun s i => if cond (tget s i) then sched_wake (Some i) s else s) s l0) /\
  task_count (foldl (fun s i => if cond (tget s i) then sched_wake (Some i) s else s) s l0) =
  task_count s.
Proof.
  revert s. induction l0 as [|i l IH]; intros s Hs Hin; simpl.
  { split; [by apply preserves_refl|done]. }
  assert (Hi : 0 <= i < task_count s) by (apply Hin; left).
  set (s1 := if cond (tget s i) then sched_wake (Some i) s else s).
  assert (H1 : preserves s s1 /\ task_count s1 = task_count s).
  { unfold s1. destruct (cond _); [|split; [by apply preserves_refl|done]].
    split; [by apply sched_wake_preserves|by apply sched_wake_tc]. }
  destruct H1 as [H1 E1]. destruct (IH s1) as [H2 E2].
  - apply H1.
  - intros j Hj. rewrite E1. apply Hin. by right.
  - split; [by eapply preserves_trans|congruence].
Qed.

Lemma wake_loop_preserves cond s : sched_ok s -> preserves s (wake_loop cond s).
Proof.
  intros Hs. apply wake_fold_preserves; [done|]. intros i Hi%elem_of_zrange.
  pose proof (ok_tc _ Hs). lia.
Qed.

Lemma wake_waiting_parent_preserves c s :
  sched_ok s -> preserves s (sched_wake_waiting_parent c s).
Proof. intros Hs. destruct c; [by apply wake_loop_preserves|by apply preserves_refl]. Qed.

Lemma sched_block_and_switch_placed s t kind arg u k :
  sched_ok s -> current_task s = Some t ->
  placed s t (tget s t <| wait_kind := kind |> <| wait_arg := arg |>
                <| state := TASK_STATE_BLOCKED |>
                <| exit_ctx := u <| k_valid := 1 |> |> <| kctx := k |>)
    (sched_block_and_switch kind arg u k s).
Proof.
  intros Hs Hc. pose proof (ok_cur _ Hs t Hc) as Ht. pose proof (ok_tc _ Hs).
  unfold sched_block_and_switch. rewrite Hc, tget_mod_eq by (done || lia).
  set (x := tget s t <| wait_kind := kind |> <| wait_arg := arg |> <| state := TASK_STATE_BLOCKED |>).
  change (priority x) with (priority (tget s t)).
  pose proof (placed_remove s t x Hs Ht ltac:(done)) as [P1 P2 P3 P4 P5 P6].
  constructor; try done.
  by apply (table_mod_twice s _ t x); [done|lia|].
Qed.

Lemma sched_block_and_switch_preserves s kind arg u k :
  sched_ok s -> preserves s (sched_block_and_switch kind arg u k s).
Proof.
  intros Hs. destruct (current_task s) as [t|] eqn:Hc.
  - pose proof (ok_cur _ Hs t Hc) as Ht.
    eapply placed_in; [done|done| |by apply sched_block_and_switch_placed].
    apply (ok_slot _ Hs t Ht).
  - unfold sched_block_and_switch. rewrite Hc. by apply preserves_refl.
Qed.

Lemma sched_requeue_placed s t :
  sched_ok s -> 0 <= t < task_count s -> state (tget s t) = TASK_STATE_RUNNING ->
  placed s t (tget s t <| state := TASK_STATE_READY |>) (sched_requeue (Some t) s).
Proof.
  intros Hs Ht Hr. pose proof (ok_tc _ Hs). unfold sched_requeue. rewrite Hr.
  cbn [negb Z.eqb TASK_STATE_RUNNING]. rewrite tget_mod_eq by (done || lia).
  apply placed_clear, (placed_wake s t (tget s t <| state := TASK_STATE_READY |>));
    [done|lia| |by apply (ok_slot _ Hs)|done].
  apply unqueued_state; [done|]. by rewrite Hr.
Qed.

Lemma sched_requeue_preserves s ot :
  sched_ok s -> (forall t, ot = Some t -> 0 <= t < task_count s) -> preserves s (sched_requeue ot s).
Proof.
  intros Hs Hot. destruct ot as [t|]; [|by apply preserves_refl].
  specialize (Hot t eq_refl).
  destruct (decide (state (tget s t) = TASK_STATE_RUNNING)) as [Hr|Hr].
  - eapply placed_in; [done|done| |by apply sched_requeue_placed]. by apply (ok_slot _ Hs).
  - unfold sched_requeue. rewrite (proj2 (Z.eqb_neq _ _)) by done. by apply preserves_refl.
Qed.

Lemma sched_boost_placed s t :
  sched_ok s -> 0 <= t < task_count s ->
  placed s t (tget s t <| saved_priority := priority (tget s t) |> <| priority := 0 |>
                <| ticks_left := time_slice_for_level 0 |> <| state := TASK_STATE_READY |>)
    (sched_boost (Some t) s).
Proof.
  intros Hs Ht. pose proof (ok_tc _ Hs). unfold sched_boost. rewrite bad_task_valid by done.
  rewrite tget_mod_eq by (done || lia).
  set (x := tget s t <| saved_priority := priority (tget s t) |> <| priority := 0 |>
                     <| ticks_left := time_slice_for_level 0 |>).
  change (saved_priority x) with (priority (tget s t)).
  destruct (ok_slot _ Hs t Ht) as (Hid & Hp & Hsv).
  change (enqueue 0 t) with (enqueue (priority (x <| state := TASK_STATE_READY |>)) t).
  apply placed_enqueue; try done.
  - lia.
  - apply (table_mod_twice s _ t x); [done|lia|done].
  - by left.
  - simpl. by rewrite length_aset.
  - intros l Hl. exact (remove_own_ql s t Hs Hp l Hl).
Qed.

Lemma sched_boost_preserves s t :
  sched_ok s -> 0 <= t < task_count s -> preserves s (sched_boost (Some t) s).
Proof.
  intros Hs Ht. eapply placed_in; [done|done| |by apply sched_boost_placed].
  destruct (ok_slot _ Hs t Ht) as (Hid & Hp & Hsv). done.
Qed.

(** Removing a task from every level, as exiting does. *)
Lemma fold_remove_ql t ls s :
  sched_ok s -> (forall l, l ∈ ls -> 0 <= l < MLFQ_LEVELS) ->
  (forall k, 0 <= k < MLFQ_LEVELS ->
     q_ok (qget (foldl (fun s l => remove l t s) s ls) k) /\
     ql (foldl (fun s l => remove l t s) s ls) k =
       if decide (k ∈ ls) then filter (fun y => y <> t) (ql s k) else ql s k) /\
  task_table (foldl (fun s l => remove l t s) s ls) = task_table s /\
  task_count (foldl (fun s l => remove l t s) s ls) = task_count s /\
  idle_task (foldl (fun s l => remove l t s) s ls) = idle_task s /\
  length (mlfq (foldl (fun s l => remove l t s) s ls)) = length (mlfq s) /\
  current_task (foldl (fun s l => remove l t s) s ls) = current_task s.
Proof.
  revert s. induction ls as [|l ls IH]; intros s Hs Hls; simpl.
  { split_and!; try done. intros k Hk. split; [by apply (ok_q _ Hs)|].
    destruct (decide (k ∈ [])) as [H|]; [by apply not_elem_of_nil in H|done]. }
  assert (Hl : 0 <= l < MLFQ_LEVELS) by (apply Hls; left).
  assert (Hs1 : sched_ok (remove l t s)).
  { constructor; try apply Hs.
    - simpl. rewrite length_aset. apply (ok_lvls _ Hs).
    - intros k Hk. by apply remove_ql.
    - intros k u Hk Hu. destruct (remove_ql s l t Hs Hl k Hk) as [_ E]. rewrite E in Hu.
      destruct (decide (l = k)); [apply elem_of_filter_ne in Hu as [_ Hu]|]; by apply (ok_queued _ Hs).
    - intros k Hk. destruct (remove_ql s l t Hs Hl k Hk) as [_ ->].
      destruct (decide (l = k)); [apply NoDup_filter|]; by apply (ok_nodup _ Hs). }
  destruct (IH (remove l t s) Hs1) as (H1 & E1 & E2 & E3 & E4 & E5); [intros; apply Hls; by right|].
  split_and!; [|by rewrite E1|by rewrite E2|by rewrite E3| |by rewrite E5].
  - intros k Hk. destruct (H1 k Hk) as [Hq ->]. split; [done|].
    destruct (remove_ql s l t Hs Hl k Hk) as [_ ->].
    destruct (decide (l = k)) as [<-|Hne].
    + rewrite (decide_True (P := l ∈ l :: ls)) by left. destruct (decide (l ∈ ls)); [|done].
      apply filter_ne_id. by intros [? _]%elem_of_filter_ne.
    + destruct (decide (k ∈ ls)).
      * by rewrite decide_True by (by right).
      * rewrite decide_False; [done|]. intros [?|?]%elem_of_cons; congruence.
  - rewrite E4. simpl. apply length_aset.
Qed.

Lemma remove_all_facts t s :
  sched_ok s ->
  (forall k, 0 <= k < MLFQ_LEVELS ->
     q_ok (qget (remove_all t s) k) /\
     ql (remove_all t s) k = filter (fun y => y <> t) (ql s k)) /\
  task_table (remove_all t s) = task_table s /\ task_count (remove_all t s) = task_count s /\
  idle_task (remove_all t s) = idle_task s /\ length (mlfq (remove_all t s)) = length (mlfq s) /\
  current_task (remove_all t s) = current_task s.
Proof.
  intros Hs. destruct (fold_remove_ql t (zrange (Z.to_nat MLFQ_LEVELS)) s Hs) as [H1 H2].
  { intros l Hl%elem_of_zrange. unfold MLFQ_LEVELS in *. lia. }
  split; [|exact H2]. intros k Hk. destruct (H1 k Hk) as [Hq E]. split; [exact Hq|].
  rewrite decide_True in E by (apply elem_of_zrange; unfold MLFQ_LEVELS in *; lia). exact E.
Qed.

Lemma placed_set_gen s s1 t x :
  state x <> TASK_STATE_READY -> task_table s1 = task_table s -> task_count s1 = task_count s ->
  idle_task s1 = idle_task s -> length (mlfq s1) = length (mlfq s) ->
  current_task s1 = current_task s ->
  (forall l, 0 <= l < MLFQ_LEVELS ->
     q_ok (qget s1 l) /\ ql s1 l = filter (fun y => y <> t) (ql s l)) ->
  placed s t x (mod_task t (fun _ => x) s1).
Proof.
  intros Hx E1 E2 E3 E4 E5 H1. constructor;
    [exact (f_equal (fun tb => aset tb t x) E1)|left; exact E2|exact E3|exact E4|left; exact E5|].
  intros l Hl. destruct (H1 l Hl) as [Hq E]. split; [exact Hq|]. rewrite ql_mod_task, E.
  rewrite decide_False by (by intros [? _]). by rewrite app_nil_r.
Qed.

Lemma placed_remove_all s t x :
  sched_ok s -> 0 <= t < task_count s -> state x <> TASK_STATE_READY ->
  placed s t x (mod_task t (fun _ => x) (remove_all t s)).
Proof.
  intros Hs Ht Hx. destruct (remove_all_facts t s Hs) as (H1 & E1 & E2 & E3 & E4 & E5).
  by apply placed_set_gen.
Qed.

Lemma remove_mod_task l t u f s : remove l t (mod_task u f s) = mod_task u f (remove l t s).
Proof. done. Qed.

Lemma remove_all_mod_task t u f s : remove_all t (mod_task u f s) = mod_task u f (remove_all t s).
Proof.
  unfold remove_all. generalize (zrange (Z.to_nat MLFQ_LEVELS)) as ls. intros ls. revert s.
  induction ls as [|l ls IH]; intros s; simpl; [done|]. by rewrite remove_mod_task, IH.
Qed.

Lemma tget_remove_all s t u : tget (remove_all t s) u = tget s u.
Proof.
  unfold remove_all. generalize (zrange (Z.to_nat MLFQ_LEVELS)) as ls. intros ls. revert s.
  induction ls as [|l ls IH]; intros s; simpl; [done|]. by rewrite IH.
Qed.

Lemma mod_task_remove_all t f s :
  mod_task t f (remove_all t s) = mod_task t (fun _ => f (tget s t)) (remove_all t s).
Proof. unfold mod_task. by rewrite tget_remove_all. Qed.

Lemma zombie_not_ready : TASK_STATE_ZOMBIE <> TASK_STATE_READY.
Proof. done. Qed.

Lemma sched_user_task_exit_placed s i :
  sched_ok s -> 0 <= i < task_count s ->
  placed s i (tget s i <| state := TASK_STATE_ZOMBIE |> <| is_user := 0 |>)
    (sched_user_task_exit i s).
Proof.
  intros Hs Hi. unfold sched_user_task_exit.
  rewrite (proj2 (Z.ltb_ge _ _)), (proj2 (Z.leb_gt _ _)) by lia. cbn [orb].
  rewrite remove_all_mod_task, mod_task_remove_all.
  pose proof (placed_remove_all s i (tget s i <| state := TASK_STATE_ZOMBIE |> <| is_user := 0 |>)
                Hs Hi zombie_not_ready) as Hp.
  exact Hp.
Qed.

Lemma sched_user_task_exit_preserves s i : sched_ok s -> preserves s (sched_user_task_exit i s).
Proof.
  intros Hs. destruct (decide (0 <= i < task_count s)) as [Hi|Hi].
  - refine (placed_in s i _ _ Hs Hi _ (sched_user_task_exit_placed s i Hs Hi)).
    apply (ok_slot _ Hs i Hi).
  - unfold sched_user_task_exit. destruct (Z.ltb_spec i 0); [by apply preserves_refl|].
    rewrite (proj2 (Z.leb_le _ _)) by lia. by apply preserves_refl.
Qed.

(** The record of a task whose slice is used up: one level down, READY. *)
Definition demoted (x : task) : task :=
  let x := x <| ticks_left := ticks_left x - 1 |> in
  let x := if priority x <? MLFQ_LEVELS - 1 then x <| priority := priority x + 1 |> else x in
  x <| state := TASK_STATE_READY |>.

Lemma demoted_slot_ok i x : slot_ok i x -> slot_ok i (demoted x).
Proof.
  intros (Hid & Hp & Hsv). unfold demoted, slot_ok. cbv zeta.
  change (priority (x <| ticks_left := ticks_left x - 1 |>)) with (priority x).
  destruct (Z.ltb_spec (priority x) (MLFQ_LEVELS - 1)); simpl; split_and!; try done; lia.
Qed.

Lemma sched_tick_idle s :
  (forall t, current_task s = Some t -> state (tget s t) <> TASK_STATE_RUNNING) ->
  sched_tick s = s <| sched_total_ticks := u64 (sched_total_ticks s + 1) |>.
Proof.
  intros Hc. unfold sched_tick. cbv zeta.
  change (current_task (s <| sched_total_ticks := _ |>)) with (current_task s).
  destruct (current_task s) as [t|] eqn:E; [|done]. specialize (Hc t eq_refl).
  change (tget (s <| sched_total_ticks := _ |>) t) with (tget s t).
  by rewrite (proj2 (Z.eqb_neq _ _)).
Qed.

(** A tick that does not end the slice. *)
Lemma sched_tick_running s t :
  sched_ok s -> current_task s = Some t -> state (tget s t) = TASK_STATE_RUNNING ->
  1 < ticks_left (tget s t) ->
  sched_tick s =
  mod_task t (fun x => x <| ticks_left := ticks_left x - 1 |>)
    (s <| sched_total_ticks := u64 (sched_total_ticks s + 1) |>
       <| sched_active_ticks := u64 (sched_active_ticks s + 1) |>).
Proof.
  intros Hs Hc Hr Htk. pose proof (ok_cur _ Hs t Hc). pose proof (ok_tc _ Hs).
  unfold sched_tick. cbv zeta.
  change (current_task (s <| sched_total_ticks := _ |>)) with (current_task s). rewrite Hc.
  change (tget (s <| sched_total_ticks := _ |>) t) with (tget s t). rewrite Hr.
  cbn [Z.eqb TASK_STATE_RUNNING].
  match goal with |- context [mod_task t ?f ?s2] => assert (E : tget (mod_task t f s2) t = f (tget s t)) end.
  { apply aget_aset_eq. change (task_table _) with (task_table s). rewrite (ok_len _ Hs). lia. }
  rewrite E. change (ticks_left (tget s t <| ticks_left := _ |>)) with (ticks_left (tget s t) - 1).
  rewrite (proj2 (Z.leb_gt _ _)) by lia. done.
Qed.

(** A tick that ends the slice: the task goes to the back of the next lower
    queue and the core is free. *)
Lemma sched_tick_exhausted s t :
  sched_ok s -> current_task s = Some t -> state (tget s t) = TASK_STATE_RUNNING ->
  ticks_left (tget s t) <= 1 ->
  placed s t (demoted (tget s t)) (sched_tick s) /\ current_task (sched_tick s) = None.
Proof.
  intros Hs Hc Hr Htk. pose proof (ok_cur _ Hs t Hc) as Ht. pose proof (ok_tc _ Hs) as Htc.
  unfold sched_tick. cbv zeta.
  change (current_task (s <| sched_total_ticks := _ |>)) with (current_task s). rewrite Hc.
  change (tget (s <| sched_total_ticks := _ |>) t) with (tget s t). rewrite Hr.
  cbn [Z.eqb TASK_STATE_RUNNING].
  match goal with |- context [mod_task t ?f ?s2] => set (s3 := mod_task t f s2) end.
  assert (E : tget s3 t = tget s t <| ticks_left := ticks_left (tget s t) - 1 |>).
  { apply aget_aset_eq. change (task_table _) with (task_table s). rewrite (ok_len _ Hs). lia. }
  rewrite E. change (ticks_left (tget s t <| ticks_left := _ |>)) with (ticks_left (tget s t) - 1).
  rewrite (proj2 (Z.leb_le _ _)) by lia.
  match goal with |- context [mod_task t ?f s3] => set (s4 := mod_task t f s3) end.
  assert (Etab : task_table s4 = aset (task_table s) t (demoted (tget s t))).
  { apply (table_mod_twice s s3 t _ (fun x => _)); [done|lia|done]. }
  assert (E4 : tget s4 t = demoted (tget s t)).
  { unfold tget. rewrite Etab. apply aget_aset_eq. rewrite (ok_len _ Hs). lia. }
  split; [|done]. rewrite E4. apply placed_current; [|by left].
  apply placed_enqueue; try done; [lia|apply demoted_slot_ok, (ok_slot _ Hs t Ht)|by left|].
  intros l Hl. split; [exact (ok_q _ Hs l Hl)|]. symmetry. apply filter_ne_id.
  refine (unqueued_state s t Hs _ l Hl). by rewrite Hr.
Qed.

Lemma ok_counters s a b :
  preserves s s -> preserves s (s <| sched_total_ticks := a |> <| sched_active_ticks := b |>).
Proof. intros [Hs Hl]. split; [|done]. destruct Hs. by constructor. Qed.

Lemma mod_task_preserves s t f :
  sched_ok s -> 0 <= t < MAX_TASKS ->
  (forall x, t_id (f x) = t_id x /\ state (f x) = state x /\ priority (f x) = priority x /\
             saved_priority (f x) = saved_priority x) ->
  preserves s (mod_task t f s).
Proof.
  intros Hs Ht Hf. split; [by apply mod_task_ok|]. intros L. apply mod_task_live; [done|done|].
  intros x. destruct (Hf x) as (_ & ? & ? & _). done.
Qed.

Lemma sched_tick_preserves s : sched_ok s -> preserves s (sched_tick s).
Proof.
  intros Hs. pose proof (ok_tc _ Hs) as Htc.
  destruct (current_task s) as [t|] eqn:Hc.
  2: { rewrite sched_tick_idle by (intros t; by rewrite Hc).
       apply (ok_counters s _ (sched_active_ticks s)). by apply preserves_refl. }
  pose proof (ok_cur _ Hs t Hc) as Ht.
  destruct (decide (state (tget s t) = TASK_STATE_RUNNING)) as [Hr|Hr].
  2: { rewrite sched_tick_idle by (intros u; rewrite Hc; by intros [= <-]).
       apply (ok_counters s _ (sched_active_ticks s)). by apply preserves_refl. }
  destruct (Z_lt_le_dec 1 (ticks_left (tget s t))).
  - rewrite (sched_tick_running s t) by done.
    pose proof (ok_counters s (u64 (sched_total_ticks s + 1)) (u64 (sched_active_ticks s + 1))
                  (preserves_refl s Hs)) as Hpr.
    eapply preserves_trans; [exact Hpr|].
    apply mod_task_preserves; [apply Hpr|lia|done].
  - destruct (sched_tick_exhausted s t) as [Hp _]; [done..|].
    refine (placed_in s t _ _ Hs Ht _ Hp). apply demoted_slot_ok, (ok_slot _ Hs t Ht).
Qed.

Lemma add_slot_ok i x : slot_ok i (add_slot i x).
Proof. unfold slot_ok, MLFQ_LEVELS. simpl. lia. Qed.

Lemma sched_add_preserves s x : sched_ok s -> preserves s (sched_add x s).
Proof.
  intros Hs. pose proof (ok_tc _ Hs) as Htc. unfold sched_add.
  destruct (Z.leb_spec MAX_TASKS (task_count s)); [by apply preserves_refl|]. cbv zeta.
  set (i := task_count s).
  set (s1 := mod_task i (fun _ => add_slot i x) s <| task_count := i + 1 |>).
  assert (E : tget s1 i = add_slot i x).
  { apply aget_aset_eq. rewrite (ok_len _ Hs). lia. }
  rewrite E. eapply (placed_preserves s i (add_slot i x)); [done|simpl; lia|simpl; lia| |].
  - apply add_slot_ok.
  - apply placed_enqueue; try done; [lia|by right|].
    intros l Hl. split; [exact (ok_q _ Hs l Hl)|]. symmetry. apply filter_ne_id.
    exact (unqueued_beyond s i Hs (Z.le_refl _) l Hl).
Qed.

Lemma sched_set_user_task_rsp_preserves s r : sched_ok s -> preserves s (sched_set_user_task_rsp r s).
Proof.
  intros Hs. pose proof (ok_tc _ Hs). unfold sched_set_user_task_rsp.
  destruct (current_task s) as [t|] eqn:Hc; [|by apply preserves_refl].
  pose proof (ok_cur _ Hs t Hc). destruct (_ =? _); [by apply preserves_refl|].
  apply mod_task_preserves; [done|lia|done].
Qed.

(** The scans over the table in index order. *)
Lemma first_task_Some p s i :
  sched_ok s -> first_task p s = Some i ->
  0 <= i < task_count s /\ p (tget s i) = true /\
  forall j, 0 <= j < i -> p (tget s j) = false.
Proof.
  intros Hs. pose proof (ok_tc _ Hs) as Htc. pose proof (ok_len _ Hs) as Hlen.
  unfold first_task. intros (k & Hk & ->)%fmap_Some.
  apply find_index_Some in Hk as (x & Hx & Hp & Hlt).
  apply lookup_take_Some in Hx as [Hx Hk].
  assert (Hg : forall j, (j < k)%nat \/ j = k -> task_table s !! j = Some (tget s (Z.of_nat j))).
  { intros j Hj. unfold tget, aget. rewrite Nat2Z.id. apply list_lookup_lookup_total_lt.
    apply lookup_lt_Some in Hx. lia. }
  split; [lia|]. split.
  - rewrite (Hg k) in Hx by (by right). by injection Hx as ->.
  - intros j Hj. apply (Hlt (Z.to_nat j)); [lia|].
    rewrite lookup_take_lt by lia. rewrite Hg by lia. by rewrite Z2Nat.id by lia.
Qed.

Lemma first_task_None p s :
  sched_ok s -> first_task p s = None -> forall j, 0 <= j < task_count s -> p (tget s j) = false.
Proof.
  intros Hs Hf j Hj. pose proof (ok_tc _ Hs) as Htc. pose proof (ok_len _ Hs) as Hlen.
  unfold first_task in Hf. apply fmap_None, find_index_None in Hf.
  rewrite Forall_forall in Hf. apply Hf, list_elem_of_lookup. exists (Z.to_nat j).
  rewrite lookup_take_lt by lia. apply list_lookup_lookup_total_lt. unfold MAX_TASKS in *. lia.
Qed.

Lemma reaped_not_ready : TASK_STATE_REAPED <> TASK_STATE_READY.
Proof. done. Qed.

Lemma sched_force_reap_preserves s p : sched_ok s -> preserves s (sched_force_reap p s).
Proof.
  intros Hs. unfold sched_force_reap. destruct (p <=? 0); [by apply preserves_refl|].
  destruct (first_task _ s) as [i|] eqn:Hf; [|by apply preserves_refl].
  apply first_task_Some in Hf as (Hi & Hp & _); [|done].
  apply andb_true_iff in Hp as [_ Hz%Z.eqb_eq].
  refine (placed_in s i _ _ Hs Hi _ (placed_set s i (tget s i <| state := TASK_STATE_REAPED |>)
    Hs _ reaped_not_ready)).
  - apply (ok_slot _ Hs i Hi).
  - apply unqueued_state; [done|]. by rewrite Hz.
Qed.

(** ** Picking the next task *)

(** The slot of the task picked: RUNNING, with a fresh slice if it had none. *)
Definition picked_slot (x : task) : task :=
  let x := x <| state := TASK_STATE_RUNNING |> in
  if ticks_left x <=? 0 then x <| ticks_left := time_slice_for_level (priority x) |> else x.

Lemma picked_slot_ok i x : slot_ok i x -> slot_ok i (picked_slot x).
Proof.
  intros (Hid & Hp & Hsv). unfold picked_slot, slot_ok. cbv zeta. by destruct (_ <=? 0).
Qed.

Lemma picked_slot_state x : state (picked_slot x) = TASK_STATE_RUNNING.
Proof. unfold picked_slot. cbv zeta. by destruct (_ <=? 0). Qed.

Lemma picked_slot_ticks i x : slot_ok i x -> 0 < ticks_left (picked_slot x).
Proof.
  intros (Hid & Hp & Hsv). unfold picked_slot. cbv zeta.
  change (ticks_left (x <| state := TASK_STATE_RUNNING |>)) with (ticks_left x).
  destruct (Z.leb_spec (ticks_left x) 0); [|done].
  unfold time_slice_for_level, MLFQ_LEVELS, TIME_SLICE_BASE in *. simpl. lia.
Qed.

Lemma ql_empty s l : sched_ok s -> 0 <= l < MLFQ_LEVELS -> count (qget s l) = 0 -> ql s l = [].
Proof.
  intros Hs Hl Hc. pose proof (length_q_list _ (ok_q _ Hs l Hl)) as E.
  apply nil_length_inv. unfold ql. lia.
Qed.

(** Taking the oldest task off its queue and making it the current one. *)
Lemma pick_placed s l t rest q g :
  sched_ok s -> 0 <= l < MLFQ_LEVELS -> ql s l = t :: rest -> q_ok q -> q_list q = rest ->
  (forall x, g x = picked_slot x) ->
  placed s t (picked_slot (tget s t))
    (mod_task t g (set_q l q s <| current_task := Some t |>)).
Proof.
  intros Hs Hl Hql Hq Er Hg.
  assert (Hin : t ∈ ql s l) by (rewrite Hql; left).
  destruct (ok_queued _ Hs l t Hl Hin) as (Ht & Hr & Hp).
  constructor; try done.
  - simpl. by rewrite Hg.
  - by left.
  - simpl. apply length_aset.
  - by right; right.
  - intros k Hk. rewrite ql_mod_task.
    rewrite decide_False by (rewrite picked_slot_state; by intros [? _]). rewrite app_nil_r.
    change (qget (mod_task t g (set_q l q s <| current_task := Some t |>)) k) with (qget (set_q l q s) k).
    change (ql (set_q l q s <| current_task := Some t |>) k) with (q_list (qget (set_q l q s) k)).
    rewrite qget_set_q by (done || lia). destruct (decide (l = k)) as [<-|Hne].
    + split; [done|]. rewrite Hql, filter_cons_False by (intros H; by apply H).
      rewrite Er. symmetry. apply filter_ne_id. pose proof (ok_nodup _ Hs l Hl) as Hnd.
      rewrite Hql in Hnd. by apply NoDup_cons in Hnd as [? _].
    + split; [by apply (ok_q _ Hs)|]. symmetry. apply filter_ne_id. intros Hin'.
      destruct (ok_queued _ Hs k t Hk Hin') as (_ & _ & ?). congruence.
Qed.

Lemma placed_tget s t x s' :
  sched_ok s -> placed s t x s' -> 0 <= t < MAX_TASKS -> tget s' t = x.
Proof.
  intros Hs Hp Ht. unfold tget. rewrite (pl_table _ _ _ _ Hp). apply aget_aset_eq.
  rewrite (ok_len _ Hs). lia.
Qed.

(** The other slots. *)
Lemma placed_tget_ne s t x s' u :
  placed s t x s' -> 0 <= t -> 0 <= u -> t <> u -> tget s' u = tget s u.
Proof. intros Hp Ht Hu Hne. unfold tget. rewrite (pl_table _ _ _ _ Hp). by apply aget_aset_ne. Qed.

Lemma placed_id s t x s' :
  sched_ok s -> 0 <= t < MAX_TASKS -> slot_ok t x -> placed s t x s' -> i32 (t_id (tget s' t)) = t.
Proof.
  intros Hs Ht (Hid & _) Hp. rewrite (placed_tget s t x s') by done. rewrite Hid.
  apply i32_small. unfold MAX_TASKS in *. lia.
Qed.

Lemma next_scan_spec s a m :
  sched_ok s -> Z.of_nat (a + m) = MLFQ_LEVELS ->
  (next_scan (Z.of_nat <$> seq a m) s = (s, None) /\
   forall k, Z.of_nat a <= k < MLFQ_LEVELS -> ql s k = []) \/
  (exists s' l t rest,
     next_scan (Z.of_nat <$> seq a m) s = (s', Some t) /\
     Z.of_nat a <= l < MLFQ_LEVELS /\ (forall k, Z.of_nat a <= k < l -> ql s k = []) /\
     ql s l = t :: rest /\ placed s t (picked_slot (tget s t)) s' /\ current_task s' = Some t).
Proof.
  intros Hs. revert a. induction m as [|m IH]; intros a Ham.
  { left. split; [done|]. intros k Hk. lia. }
  assert (Hl : 0 <= Z.of_nat a < MLFQ_LEVELS) by lia.
  simpl. destruct (Z.ltb_spec 0 (count (qget s (Z.of_nat a)))) as [Hc|Hc].
  - right. destruct (mlfq_dequeue_spec _ (ok_q _ Hs _ Hl) Hc) as (t & q & Ed & Hq & El).
    rewrite Ed. change (tget (set_q (Z.of_nat a) q s) t) with (tget s t).
    assert (Hin : t ∈ ql s (Z.of_nat a)) by (unfold ql; rewrite El; left).
    destruct (ok_queued _ Hs _ t Hl Hin) as (Ht & Hr & Hp). rewrite Hr.
    cbn [Z.eqb TASK_STATE_READY]. pose proof (ok_tc _ Hs) as Htc.
    pose proof (pick_placed s (Z.of_nat a) t (q_list q) q _ Hs Hl El Hq eq_refl (fun x => eq_refl)) as Hpl.
    eexists _, (Z.of_nat a), t, (q_list q). split; [|split_and!; [lia|lia|lia|done|exact Hpl|done]].
    do 2 f_equal. refine (placed_id _ _ _ _ Hs _ _ Hpl); [lia|].
    apply picked_slot_ok, (ok_slot _ Hs t Ht).
  - assert (E0 : ql s (Z.of_nat a) = []).
    { apply ql_empty; [done|done|]. destruct (ok_q _ Hs _ Hl) as (_ & _ & ? & _). lia. }
    destruct (IH (S a)) as [[E H]|(s' & l & t & rest & E & Hal & Hlow & Hrest)]; [lia| |].
    + left. split; [done|]. intros k Hk. destruct (decide (k = Z.of_nat a)) as [->|]; [done|].
      apply H. lia.
    + right. exists s', l, t, rest. split_and!; [done|lia|lia| |apply Hrest..].
      intros k Hk. destruct (decide (k = Z.of_nat a)) as [->|]; [done|]. apply Hlow. lia.
Qed.

(** The three outcomes of [sched_next]. *)
Lemma sched_next_cases s :
  sched_ok s ->
  (exists l t rest, 0 <= l < MLFQ_LEVELS /\ (forall k, 0 <= k < l -> ql s k = []) /\
     ql s l = t :: rest /\ (sched_next s).2 = t /\ current_task (sched_next s).1 = Some t /\
     placed s t (picked_slot (tget s t)) (sched_next s).1) \/
  ((forall k, 0 <= k < MLFQ_LEVELS -> ql s k = []) /\
   ((exists i, idle_task s = Some i /\ state (tget s i) = TASK_STATE_READY /\
       (sched_next s).2 = i /\ current_task (sched_next s).1 = Some i /\
       placed s i (tget s i <| state := TASK_STATE_RUNNING |>) (sched_next s).1) \/
    ((forall i, idle_task s = Some i -> state (tget s i) <> TASK_STATE_READY) /\
     sched_next s = (s, -1)))).
Proof.
  intros Hs. unfold sched_next.
  destruct (next_scan_spec s 0 5 Hs eq_refl) as [[E Hemp]|(s' & l & t & rest & E & Hl & Hlow & Hql & Hp & Hc)].
  - right. split; [exact Hemp|].
    change (zrange (Z.to_nat MLFQ_LEVELS)) with (Z.of_nat <$> seq 0 5). rewrite E.
    destruct (idle_task s) as [i|] eqn:Hi.
    2: { right. by split. }
    destruct (Z.eqb_spec (state (tget s i)) TASK_STATE_READY) as [Hr|Hr].
    + left. exists i. pose proof (ok_idle _ Hs i Hi) as Hit. pose proof (ok_tc _ Hs) as Htc.
      assert (Hpl : placed s i (tget s i <| state := TASK_STATE_RUNNING |>)
                (mod_task i (fun x => x <| state := TASK_STATE_RUNNING |>) s <| current_task := Some i |>)).
      { apply placed_current; [|by right].
        apply (placed_set s i (tget s i <| state := TASK_STATE_RUNNING |>)); [done| |done].
        intros k Hk. rewrite (Hemp k Hk). apply not_elem_of_nil. }
      split_and!; [done|done| |done|exact Hpl]. cbn [snd].
      refine (placed_id _ _ _ _ Hs _ _ Hpl); [lia|]. apply (ok_slot _ Hs i Hit).
    + right. split; [|done]. by intros j [= <-].
  - left. exists l, t, rest.
    change (zrange (Z.to_nat MLFQ_LEVELS)) with (Z.of_nat <$> seq 0 5). rewrite E.
    split_and!; try done; lia.
Qed.

Lemma sched_next_preserves s : sched_ok s -> preserves s (sched_next s).1.
Proof.
  intros Hs. destruct (sched_next_cases s Hs)
    as [(l & t & rest & Hl & _ & Hql & _ & _ & Hp)|[Hemp [(i & Hi & Hr & _ & _ & Hp)|[_ E]]]].
  - assert (Hin : t ∈ ql s l) by (rewrite Hql; left).
    destruct (ok_queued _ Hs l t Hl Hin) as (Ht & _ & _).
    refine (placed_in s t _ _ Hs Ht _ Hp). apply picked_slot_ok, (ok_slot _ Hs t Ht).
  - pose proof (ok_idle _ Hs i Hi) as Hit. refine (placed_in s i _ _ Hs Hit _ Hp).
    apply (ok_slot _ Hs i Hit).
  - rewrite E. by apply preserves_refl.
Qed.

(** ** Initialisation establishes the invariant *)

(** What [sched_init] relies on: the two tables have their declared sizes. *)
Definition tables_sized (s : sched) : Prop :=
  length (task_table s) = Z.to_nat MAX_TASKS /\ length (mlfq s) = Z.to_nat MLFQ_LEVELS /\
  Forall (fun q => length (tasks q) = Z.to_nat MAX_TASKS) (mlfq s).

Lemma init_queue s l :
  tables_sized s -> 0 <= l < MLFQ_LEVELS ->
  q_ok (qget (sched_init s) l) /\ ql (sched_init s) l = [].
Proof.
  intros (_ & Hlv & HF) Hl.
  assert (E : qget (sched_init s) l = qget s l <| head := 0 |> <| tail := 0 |> <| count := 0 |>).
  { refine (aget_fmap (fun q => q <| head := 0 |> <| tail := 0 |> <| count := 0 |>) (mlfq s) l _).
    lia. }
  unfold ql. rewrite E. apply q_ok_intro; simpl; try done; [|unfold MAX_TASKS; lia..].
  apply (Forall_aget _ _ l HF). lia.
Qed.

Lemma sched_init_ok s : tables_sized s -> sched_ok (sched_init s) /\ sched_live (sched_init s).
Proof.
  intros Hsz. pose proof Hsz as (Hlen & Hlv & HF).
  assert (E0 : tget (sched_init s) 0 = idle_slot (reset_slot (tget s 0))).
  { unfold sched_init, tget at 1. cbv zeta.
    change (task_table (mod_task 0 ?f ?x <| task_count := 1 |>)) with (task_table (mod_task 0 f x)).
    change (task_table (mod_task 0 ?f ?x)) with (aset (task_table x) 0 (f (tget x 0))).
    rewrite aget_aset_eq; [|simpl; rewrite length_fmap, Hlen; unfold MAX_TASKS; lia].
    f_equal. refine (aget_fmap reset_slot (task_table s) 0 _). rewrite Hlen. unfold MAX_TASKS. lia. }
  split.
  - constructor.
    + unfold sched_init. simpl. by rewrite length_aset, length_fmap.
    + unfold sched_init. simpl. by rewrite length_fmap.
    + simpl. unfold MAX_TASKS. lia.
    + intros l Hl. by apply init_queue.
    + intros l t Hl. destruct (init_queue s l Hsz Hl) as [_ ->]. by intros ?%not_elem_of_nil.
    + intros l Hl. destruct (init_queue s l Hsz Hl) as [_ ->]. apply NoDup_nil_2.
    + intros i Hi. simpl in Hi. assert (i = 0) as -> by lia. rewrite E0.
      unfold slot_ok, MLFQ_LEVELS. simpl. unfold MLFQ_LEVELS. lia.
    + done.
    + simpl. intros t [= <-]. lia.
  - intros i Hi _. left. simpl in Hi |- *. f_equal. lia.
Qed.

Lemma sched_bss_sized : tables_sized sched_bss.
Proof. split_and!; [done|done|]. by apply Forall_replicate. Qed.

(** ** The waking loops, exactly *)
Section WakeLoop.
  Variable cond : task -> bool.
  (** The loops only select tasks that are BLOCKED. *)
  Hypothesis cond_blocked : forall x, cond x = true -> state x = TASK_STATE_BLOCKED.

Definition woken_if (x : task) : task := if cond x then woken x else x.

Definition wakes_to (s : sched) (l i : Z) : Prop :=
    cond (tget s i) = true /\ saved_priority (tget s i) = l.
#[local] Instance wakes_to_dec s l i : Decision (wakes_to s l i).
  Proof. unfold wakes_to. apply _. Defined.

Lemma wake_prefix s n :
    sched_ok s -> Z.of_nat n <= task_count s ->
    let s' := foldl (fun s i => if cond (tget s i) then sched_wake (Some i) s else s) s (zrange n) in
    sched_ok s' /\ task_count s' = task_count s /\
    (forall i, 0 <= i -> tget s' i = if decide (i < Z.of_nat n) then woken_if (tget s i) else tget s i) /\
    (forall l, 0 <= l < MLFQ_LEVELS ->
       ql s' l = ql s l ++ filter (wakes_to s l) (zrange n)).
  Proof.
    intros Hs. induction n as [|n IH]; intros Hn.
    { simpl. split_and!; try done; intros l Hl; [by rewrite decide_False by lia|].
      change (filter _ (zrange 0)) with (@nil Z). by rewrite app_nil_r. }
    destruct IH as (Hs1 & Etc & Hget & Hql); [lia|]. cbv zeta.
    rewrite zrange_S, foldl_app. simpl.
    set (s1 := foldl _ s (zrange n)) in *.
    assert (Hgn : tget s1 (Z.of_nat n) = tget s (Z.of_nat n)) by (rewrite Hget by lia; by rewrite decide_False by lia).
    pose proof (ok_tc _ Hs) as Htc.
    assert (Hrange : 0 <= Z.of_nat n < task_count s1) by lia.
    rewrite Hgn. destruct (cond (tget s (Z.of_nat n))) eqn:Hc.
    - pose proof (sched_wake_placed s1 (Z.of_nat n) Hs1 Hrange ltac:(rewrite Hgn; by apply cond_blocked)) as Hp.
      rewrite Hgn in Hp. split_and!.
      + apply (sched_wake_preserves s1 (Z.of_nat n) Hs1 Hrange).
      + by rewrite sched_wake_tc.
      + intros i Hi. destruct (decide (i = Z.of_nat n)) as [->|Hne].
        * rewrite (placed_tget _ _ _ _ Hs1 Hp ltac:(lia)), decide_True by lia.
          unfold woken_if. by rewrite Hc.
        * rewrite (placed_tget_ne _ _ _ _ i Hp) by lia. rewrite Hget by lia.
          destruct (decide (i < Z.of_nat n)), (decide (i < Z.of_nat (S n))); (done || lia).
      + intros l Hl. destruct (pl_q _ _ _ _ Hp l Hl) as [_ ->]. rewrite filter_app, Hql by done.
        rewrite filter_ne_id.
        2: { rewrite <- Hql by done. apply unqueued_state; [done| |done].
             rewrite Hgn, (cond_blocked _ Hc). done. }
        rewrite app_assoc. f_equal.
        destruct (decide (saved_priority (tget s (Z.of_nat n)) = l)) as [El|El].
        * rewrite decide_True by done. rewrite filter_cons_True by done. done.
        * rewrite decide_False by (by intros [_ ?]). rewrite filter_cons_False by (by intros [_ ?]). done.
    - split_and!; [done|done| |].
      + intros i Hi. rewrite Hget by done. destruct (decide (i = Z.of_nat n)) as [->|Hne].
        * rewrite decide_False, decide_True by lia. unfold woken_if. by rewrite Hc.
        * destruct (decide (i < Z.of_nat n)), (decide (i < Z.of_nat (S n))); (done || lia).
      + intros l Hl. rewrite filter_app, Hql by done.
        rewrite (filter_cons_False (wakes_to s l)) by (intros [? _]; congruence).
        by rewrite app_nil_r.
  Qed.

Lemma wake_loop_spec s :
    sched_ok s ->
    (forall i, 0 <= i < task_count s -> tget (wake_loop cond s) i = woken_if (tget s i)) /\
    (forall l, 0 <= l < MLFQ_LEVELS ->
       ql (wake_loop cond s) l =
       ql s l ++ filter (wakes_to s l) (zrange (Z.to_nat (task_count s)))).
  Proof.
    intros Hs. pose proof (ok_tc _ Hs) as Htc.
    destruct (wake_prefix s (Z.to_nat (task_count s)) Hs ltac:(lia)) as (_ & _ & Hget & Hql).
    split; [|exact Hql]. intros i Hi. unfold wake_loop. rewrite Hget by lia.
    by rewrite decide_True by lia.
  Qed.
End WakeLoop.

Lemma sched_resume_preserves s t :
  sched_ok s -> 0 <= t < task_count s -> state (tget s t) = TASK_STATE_RUNNING ->
  preserves s (sched_resume t s).
Proof.
  intros Hs Ht Hr. apply (placed_in s t (tget s t <| state := TASK_STATE_RUNNING |>)); [done|done| |].
  - apply (ok_slot _ Hs t Ht).
  - apply (placed_set s t (tget s t <| state := TASK_STATE_RUNNING |>)); [done| |done].
    apply unqueued_state; [done|]. by rewrite Hr.
Qed.

(** ** Properties *)

(** [sched_next] runs the task that has waited longest in the highest
    non-empty level; only with every queue empty does it run the idle task,
    and it reports -1 only if that is not READY either. *)
Theorem sched_next_highest_fifo s :
  sched_ok s ->
  let '(s', r) := sched_next s in
  (exists l rest, 0 <= l < MLFQ_LEVELS /\ (forall k, 0 <= k < l -> ql s k = []) /\
     ql s l = r :: rest /\ ql s' l = rest /\ current_task s' = Some r /\
     state (tget s' r) = TASK_STATE_RUNNING /\ 0 < ticks_left (tget s' r)) \/
  ((forall k, 0 <= k < MLFQ_LEVELS -> ql s k = []) /\ idle_task s = Some r /\
     current_task s' = Some r /\ state (tget s' r) = TASK_STATE_RUNNING) \/
  ((forall k, 0 <= k < MLFQ_LEVELS -> ql s k = []) /\
     (forall i, idle_task s = Some i -> state (tget s i) <> TASK_STATE_READY) /\
     s' = s /\ r = -1).
Proof.
  intros Hs. destruct (sched_next_cases s Hs)
    as [(l & t & rest & Hl & Hlow & Hql & Er & Ec & Hp)|[Hemp [(i & Hi & Hr & Er & Ec & Hp)|[Hi E]]]];
    pose proof (ok_tc _ Hs) as Htc.
  - destruct (sched_next s) as [s' r]. simpl in *. subst r. left. exists l, rest.
    assert (Hin : t ∈ ql s l) by (rewrite Hql; left).
    destruct (ok_queued _ Hs l t Hl Hin) as (Ht & _ & _).
    split; [done|]. split; [done|]. split; [done|].
    rewrite (placed_tget _ _ _ _ Hs Hp ltac:(lia)).
    split_and!; [|done|apply picked_slot_state|by apply (picked_slot_ticks t), (ok_slot _ Hs)].
    destruct (pl_q _ _ _ _ Hp l Hl) as [_ ->]. rewrite Hql, filter_cons_False by (intros H; by apply H).
    rewrite decide_False, app_nil_r by (rewrite picked_slot_state; by intros [? _]).
    apply filter_ne_id. pose proof (ok_nodup _ Hs l Hl) as Hnd. rewrite Hql in Hnd.
    by apply NoDup_cons in Hnd as [? _].
  - destruct (sched_next s) as [s' r]. simpl in *. subst r. right. left.
    pose proof (ok_idle _ Hs i Hi). rewrite (placed_tget _ _ _ _ Hs Hp ltac:(lia)). done.
  - rewrite E. right. right. done.
Qed.

(** While some task other than the idle one is READY and not lost,
    [sched_next] picks a task, of a priority at least as high. *)
Lemma sched_next_conserves L s i :
  sched_ok s -> sched_live_but L s -> ~ L i ->
  0 <= i < task_count s -> state (tget s i) = TASK_STATE_READY -> idle_task s <> Some i ->
  let r := (sched_next s).2 in
  0 <= r < task_count s /\ state (tget s r) = TASK_STATE_READY /\
  priority (tget s r) <= priority (tget s i).
Proof.
  intros Hs Hlive HL Hi Hr Hidle. destruct (Hlive i Hi Hr) as [|[Hin|]]; [done| |done].
  destruct (ok_slot _ Hs i Hi) as (_ & Hp & _).
  destruct (sched_next_cases s Hs) as [(l & t & rest & Hl & Hlow & Hql & -> & _)|[Hemp _]].
  - assert (Ht : t ∈ ql s l) by (rewrite Hql; left).
    destruct (ok_queued _ Hs l t Hl Ht) as (? & ? & Ep). cbv zeta.
    split; [done|]. split; [done|]. rewrite Ep.
    destruct (Z_lt_le_dec (priority (tget s i)) l) as [Hlt|]; [|done].
    rewrite (Hlow _ (conj (proj1 Hp) Hlt)) in Hin. by apply not_elem_of_nil in Hin.
  - rewrite (Hemp _ Hp) in Hin. by apply not_elem_of_nil in Hin.
Qed.

(** C5: The circular run queue is a FIFO list: enqueueing appends (while there
    is room), dequeueing takes the head, removing deletes the first occurrence
    and keeps the order of the rest. *)
Theorem mlfq_refines_fifo q t :
  q_ok q ->
  (count q < MAX_TASKS -> q_ok (mlfq_enqueue q t) /\ q_list (mlfq_enqueue q t) = q_list q ++ [t]) /\
  (q_ok (mlfq_dequeue q).1 /\ (mlfq_dequeue q).2 = hd_error (q_list q) /\
   q_list (mlfq_dequeue q).1 = tl (q_list q)) /\
  (q_ok (mlfq_remove q t).1 /\ (mlfq_remove q t).2 = bool_decide (t ∈ q_list q) /\
   exists l1 l2, q_list (mlfq_remove q t).1 = l1 ++ l2 /\ (t ∉ l1) /\
     q_list q = if bool_decide (t ∈ q_list q) then l1 ++ t :: l2 else l1 ++ l2).
Proof.
  intros Hq. split_and!.
  - intros Hc. by apply mlfq_enqueue_spec.
  - destruct (decide (0 < count q)) as [Hc|Hc].
    + destruct (mlfq_dequeue_spec q Hq Hc) as (u & q' & E & Hq' & El). by rewrite E.
    + rewrite mlfq_dequeue_empty; [done|]. destruct Hq as (_ & _ & ? & _). lia.
  - destruct (decide (0 < count q)) as [Hc|Hc].
    + destruct (mlfq_dequeue_spec q Hq Hc) as (u & q' & -> & _ & ->). done.
    + assert (E0 : count q = 0) by (destruct Hq as (_ & _ & ? & _); lia).
      rewrite mlfq_dequeue_empty by done. pose proof (length_q_list q Hq) as El.
      destruct (q_list q); [done|]. simpl in El. lia.
  - destruct (decide (0 < count q)) as [Hc|Hc].
    + destruct (mlfq_dequeue_spec q Hq Hc) as (u & q' & -> & _ & ->). done.
    + assert (E0 : count q = 0) by (destruct Hq as (_ & _ & ? & _); lia).
      rewrite mlfq_dequeue_empty by done. pose proof (length_q_list q Hq) as El.
      simpl. destruct (q_list q); [done|]. simpl in El. lia.
  - by apply mlfq_remove_spec.
  - by apply mlfq_remove_spec.
  - destruct (mlfq_remove_spec q t Hq) as (_ & _ & l1 & l2 & E & Hn & Hif). exists l1, l2.
    split_and!; [done|done|]. case_bool_decide; [done|]. destruct Hif as [-> ->]. by rewrite app_nil_r.
Qed.

(** [sched_wake_cond kind arg] makes READY exactly the tasks BLOCKED on
    that condition, restoring their saved priority, and appends them to the
    queues in slot order; every other task keeps its slot. *)
Theorem sched_wake_cond_spec s kind arg :
  sched_ok s ->
  let wanted x := (state x = TASK_STATE_BLOCKED) /\ wait_kind x = kind /\ wait_arg x = arg in
  let s' := sched_wake_cond kind arg s in
  (forall i, 0 <= i < task_count s -> wanted (tget s i) -> tget s' i = woken (tget s i)) /\
  (forall i, 0 <= i < task_count s -> ~ wanted (tget s i) -> tget s' i = tget s i) /\
  (forall l, 0 <= l < MLFQ_LEVELS -> exists ws, ql s' l = ql s l ++ ws /\
     forall i, i ∈ ws <-> 0 <= i < task_count s /\ wanted (tget s i) /\ saved_priority (tget s i) = l).
Proof.
  intros Hs. cbv zeta. pose proof (ok_tc _ Hs) as Htc.
  set (cond := fun t => is_blocked_on kind t && (wait_arg t =? arg)).
  assert (Hc : forall x, cond x = true <-> state x = TASK_STATE_BLOCKED /\ wait_kind x = kind /\ wait_arg x = arg).
  { intros x. unfold cond, is_blocked_on. rewrite !andb_true_iff, !Z.eqb_eq. tauto. }
  destruct (wake_loop_spec cond (fun x H => proj1 (proj1 (Hc x) H)) s Hs) as [Hget Hql].
  split_and!.
  - intros i Hi Hw. change (sched_wake_cond kind arg s) with (wake_loop cond s). rewrite (Hget i Hi). unfold woken_if.
    by rewrite (proj2 (Hc _)).
  - intros i Hi Hw. change (sched_wake_cond kind arg s) with (wake_loop cond s). rewrite (Hget i Hi). unfold woken_if.
    destruct (cond (tget s i)) eqn:E; [|done]. by apply Hc in E.
  - intros l Hl. eexists. split; [apply (Hql l Hl)|]. intros i.
    rewrite list_elem_of_filter, elem_of_zrange. unfold wakes_to. rewrite Hc, Z2Nat.id by lia. tauto.
Qed.

(** [n] consecutive ticks. *)
Fixpoint ticks (n : nat) (s : sched) : sched :=
  match n with O => s | S n' => ticks n' (sched_tick s) end.

(** C6: A running task keeps the core for exactly its remaining ticks: until
    then each tick only counts down, and the last one demotes it by one level
    (never below the lowest) to the back of that level's queue. *)
Theorem slice_runs_out s t n :
  sched_ok s -> current_task s = Some t -> state (tget s t) = TASK_STATE_RUNNING ->
  ticks_left (tget s t) = Z.of_nat (S n) ->
  (forall k, (k <= n)%nat ->
     current_task (ticks k s) = Some t /\ state (tget (ticks k s) t) = TASK_STATE_RUNNING /\
     ticks_left (tget (ticks k s) t) = Z.of_nat (S n - k)) /\
  let l := Z.min (MLFQ_LEVELS - 1) (priority (tget s t) + 1) in
  current_task (ticks (S n) s) = None /\
  state (tget (ticks (S n) s) t) = TASK_STATE_READY /\
  priority (tget (ticks (S n) s) t) = l /\
  ql (ticks (S n) s) l = ql s l ++ [t].
Proof.
  revert s. induction n as [|n IH]; intros s Hs Hc Hr Htk;
    pose proof (ok_cur _ Hs t Hc) as Ht; pose proof (ok_tc _ Hs) as Htc.
  - destruct (sched_tick_exhausted s t Hs Hc Hr ltac:(lia)) as [Hp Hn].
    destruct (ok_slot _ Hs t Ht) as (_ & Hpr & _).
    assert (Edp : priority (demoted (tget s t)) = Z.min (MLFQ_LEVELS - 1) (priority (tget s t) + 1)).
    { unfold demoted. cbv zeta. change (priority (tget s t <| ticks_left := _ |>)) with (priority (tget s t)).
      destruct (Z.ltb_spec (priority (tget s t)) (MLFQ_LEVELS - 1)); simpl; lia. }
    split.
    + intros k Hk. assert (k = 0%nat) as -> by lia. simpl. rewrite Htk. done.
    + cbn [ticks]. rewrite (placed_tget _ _ _ _ Hs Hp ltac:(lia)). split_and!; [done|done|done|].
      destruct (pl_q _ _ _ _ Hp (Z.min (MLFQ_LEVELS - 1) (priority (tget s t) + 1))) as [_ ->];
        [unfold MLFQ_LEVELS in *; lia|].
      rewrite decide_True by (split; [done|lia]). f_equal. apply filter_ne_id, unqueued_state;
        [done|by rewrite Hr|unfold MLFQ_LEVELS in *; lia].
  - pose proof (sched_tick_running s t Hs Hc Hr ltac:(lia)) as E.
    assert (Hok1 : sched_ok (sched_tick s)) by (by apply sched_tick_preserves).
    assert (Eg : tget (sched_tick s) t = tget s t <| ticks_left := ticks_left (tget s t) - 1 |>).
    { rewrite E. refine (aget_aset_eq (task_table s) t _ _). rewrite (ok_len _ Hs). lia. }
    destruct (IH (sched_tick s)) as [H1 H2]; [done|by rewrite E|by rewrite Eg|rewrite Eg; simpl; lia|].
    split.
    + intros [|k] Hk; [simpl; rewrite Htk; done|]. simpl ticks. destruct (H1 k) as (? & ? & ->); [lia|].
      split_and!; [done|done|lia].
    + cbv zeta in *. rewrite Eg in H2. change (priority (tget s t <| ticks_left := _ |>)) with (priority (tget s t)) in H2.
      assert (Eq : forall l, ql (sched_tick s) l = ql s l) by (intros l; by rewrite E).
      rewrite Eq in H2. exact H2.
Qed.

(** *** sched_list and its buffer *)
Lemma length_put_bounded max bs out :
  pos_of (put_bounded max bs out) <= Z.max max (pos_of out) /\
  pos_of (put_bounded max bs out) <= pos_of out + Z.of_nat (length bs) /\
  pos_of out <= pos_of (put_bounded max bs out).
Proof. unfold put_bounded, pos_of. rewrite length_app, length_take. lia. Qed.

Lemma pos_of_app a b : pos_of (a ++ b) = pos_of a + Z.of_nat (length b).
Proof. unfold pos_of. rewrite length_app. lia. Qed.

Lemma list_row_pos t max out : pos_of out + 4 <= max -> pos_of (list_row t max out) <= max + 5.
Proof.
  intros H. unfold list_row. cbv zeta.
  set (o1 := out ++ _ ++ _).
  assert (H1 : pos_of o1 <= max).
  { unfold o1. rewrite pos_of_app, length_app. destruct (t_id t <? 10); simpl; lia. }
  set (o2 := put_bounded max (take 12 (name_bytes t)) o1).
  pose proof (length_put_bounded max (take 12 (name_bytes t)) o1) as H2. fold o2 in H2.
  set (o3 := put_bounded max (replicate (12 - length (take 12 (name_bytes t))) 32) o2).
  pose proof (length_put_bounded max (replicate (12 - length (take 12 (name_bytes t))) 32) o2) as H3.
  fold o3 in H3. set (sn := if _ : bool then _ else _).
  set (o4 := put_bounded max sn o3 ++ [32; 32]).
  assert (H4 : pos_of o4 <= max + 2).
  { unfold o4. rewrite pos_of_app. pose proof (length_put_bounded max sn o3).
    change (Z.of_nat (length [32; 32])) with 2. lia. }
  pose proof (length_put_bounded max [u8 (48 + priority t)] o4) as H5.
  set (o5 := put_bounded max [u8 (48 + priority t)] o4) in *.
  pose proof (length_put_bounded max [u8 (48 + core_id t)] (o5 ++ [32; 32])) as H6.
  rewrite pos_of_app in *. change (Z.of_nat (length [32; 32])) with 2 in *.
  change (Z.of_nat (length [10])) with 1. lia.
Qed.

Lemma list_rows_pos ids max s out :
  pos_of out <= max + 5 -> pos_of (list_rows ids max s out) <= max + 5.
Proof.
  revert out. induction ids as [|i ids IH]; intros out H; simpl; [done|].
  destruct (_ && _); [by apply IH|].
  destruct (Z.ltb_spec max (pos_of out + 4)); [done|]. apply IH, list_row_pos. lia.
Qed.

(** [sched_list] checks for room only before a task's number, so it writes
    at most five bytes past the [max] it is given, in any state; the bytes
    written and the returned length agree. *)
Theorem sched_list_bound s max :
  0 <= max ->
  (sched_list max s).2 <= max + 5 /\
  pos_of (sched_list max s).1 = (sched_list max s).2 + (if (sched_list max s).2 <? max then 1 else 0).
Proof.
  intros Hm. unfold sched_list. cbv zeta.
  set (out := list_rows _ max s _). cbn [fst snd].
  assert (Ho : pos_of out <= max + 5).
  { apply list_rows_pos. pose proof (length_put_bounded max list_header []) as H.
    change (pos_of []) with 0 in H. lia. }
  split; [done|]. destruct (pos_of out <? max); [by rewrite pos_of_app|].
  destruct (0 <? pos_of out); unfold pos_of; rewrite ?length_aset; lia.
Qed.

(** The bound is reached: with room for 35 bytes, 40 are written. *)
Example sched_list_overruns : (sched_list 35 (sched_init sched_bss)).2 = 40.
Proof. vm_compute. reflexivity. Qed.

(** ** A concrete run: init, two kernel tasks, one picked and blocked *)
Definition ex_two : sched := sched_add task0 (sched_add task0 (sched_init sched_bss)).
Definition ex_running : sched := (sched_next ex_two).1.
Definition ex_blocked : sched := sched_block_and_switch WAIT_PIPE_RD 3 kctx0 kctx0 ex_running.

Lemma ex_two_inv : sched_ok ex_two /\ sched_live ex_two.
Proof.
  destruct (sched_init_ok _ sched_bss_sized) as [H0 L0].
  destruct (sched_add_preserves (sched_init sched_bss) task0 H0) as [H1 L1].
  destruct (sched_add_preserves _ task0 H1) as [H2 L2]. split; [exact H2|]. by apply L2, L1.
Qed.
Lemma ex_two_ok : sched_ok ex_two.
Proof. apply ex_two_inv. Qed.
Lemma ex_running_ok : sched_ok ex_running.
Proof. apply sched_next_preserves, ex_two_ok. Qed.
Lemma ex_blocked_ok : sched_ok ex_blocked.
Proof. apply sched_block_and_switch_preserves, ex_running_ok. Qed.

Lemma sched_next_highest_fifo_witness :
  (sched_next ex_two).2 = 1 /\
  (let '(s', r) := sched_next ex_two in
   (exists l rest, 0 <= l < MLFQ_LEVELS /\ (forall k, 0 <= k < l -> ql ex_two k = []) /\
     ql ex_two l = r :: rest /\ ql s' l = rest /\ current_task s' = Some r /\
     state (tget s' r) = TASK_STATE_RUNNING /\ 0 < ticks_left (tget s' r)) \/
   ((forall k, 0 <= k < MLFQ_LEVELS -> ql ex_two k = []) /\ idle_task ex_two = Some r /\
     current_task s' = Some r /\ state (tget s' r) = TASK_STATE_RUNNING) \/
   ((forall k, 0 <= k < MLFQ_LEVELS -> ql ex_two k = []) /\
     (forall i, idle_task ex_two = Some i -> state (tget ex_two i) <> TASK_STATE_READY) /\
     s' = ex_two /\ r = -1)).
Proof. split; [reflexivity|]. apply (sched_next_highest_fifo ex_two ex_two_ok). Defined.

Lemma mlfq_refines_fifo_witness :
  q_list (mlfq_enqueue (qget ex_two 2) 5) = [1; 2; 5].
Proof.
  pose proof (mlfq_refines_fifo (qget ex_two 2) 5 (ok_q _ ex_two_ok 2 ltac:(vm_compute; split; [discriminate|reflexivity]))) as [H _].
  destruct (H eq_refl) as [_ ->]. reflexivity.
Defined.

Lemma sched_wake_cond_spec_witness :
  tget (sched_wake_cond WAIT_PIPE_RD 3 ex_blocked) 1 = woken (tget ex_blocked 1).
Proof.
  destruct (sched_wake_cond_spec ex_blocked WAIT_PIPE_RD 3 ex_blocked_ok) as [H _]. apply (H 1).
  - vm_compute. split; [discriminate|reflexivity].
  - split; [reflexivity|]. split; reflexivity.
Defined.

Lemma slice_runs_out_witness : current_task (ticks 30 ex_running) = None.
Proof.
  destruct (slice_runs_out ex_running 1 29 ex_running_ok) as (_ & H & _);
    [vm_compute; reflexivity..|]. exact H.
Defined.

Lemma sched_list_bound_witness : (sched_list 35 (sched_init sched_bss)).2 <= 40.
Proof. apply (sched_list_bound (sched_init sched_bss) 35). discriminate. Defined.
End Sched.
