(* ===== verification/Memory.v ===== *)
(** Physical page allocator (src/src/kernel/mm/mm.c): three bitmap zones, the
    16-slot cache of recently freed hot pages, and the user mmap/brk helpers. *)
From S2P Require Import Prelude.

Module Mm.

(** ** Constants (include/axion.h) *)
Definition HEAP_BASE : Z := 0x800000.
Definition PAGE_SIZE : Z := 0x1000.
Definition HOT_ZONE_PAGES : Z := 0x40000000 / PAGE_SIZE.
Definition WARM_ZONE_PAGES : Z := 0x20000000 / PAGE_SIZE.
Definition BOOMERANG_PAGES : Z := 0x10000000 / PAGE_SIZE.
Definition WARM_BASE : Z := HEAP_BASE + 0x40000000.
Definition BOOMERANG_BASE : Z := WARM_BASE + 0x20000000.
Definition NUM_PAGE_GROUPS : Z := HOT_ZONE_PAGES / 64.
Definition HOT_CACHE_SLOTS : nat := 16.

(** [~0ULL]: every page of a group is taken. *)
Definition FULL : Z := 2 ^ 64 - 1.

(** ** State *)
Record zone_t := Zone {
  base_addr : Z;
  total_pages : Z;
  used_pages : Z;
  bitmap : list Z;
  bitmap_groups : Z;
  compressed_equiv : Z;
  evict_count : Z
}.
#[export] Instance eta_zone : Eta zone_t := fun z =>
  Zone (base_addr z) (total_pages z) (used_pages z) (bitmap z) (bitmap_groups z)
    (compressed_equiv z) (evict_count z).

Record hot_cache_entry_t := CacheEntry { group : Z; bit : Z; valid : bool }.
#[export] Instance eta_entry : Eta hot_cache_entry_t := fun e =>
  CacheEntry (group e) (bit e) (valid e).
#[export] Instance inhabited_entry : Inhabited hot_cache_entry_t :=
  populate (CacheEntry 0 0 false).

(** The static variables of mm.c. *)
Record mm := MM {
  hot_zone : zone_t;
  warm_zone : zone_t;
  boomerang_zone : zone_t;
  hot_free_cache : list hot_cache_entry_t;
  user_brk : Z
}.
#[export] Instance eta_mm : Eta mm := fun m =>
  MM (hot_zone m) (warm_zone m) (boomerang_zone m) (hot_free_cache m) (user_brk m).

(** ** Initialisation *)
Definition zone_reset (base total : Z) : zone_t :=
  Zone base total 0 (replicate (Z.to_nat (total / 64)) 0) (total / 64) 0 0.

(** [mm_init] from any earlier state: bitmaps, counters and cache are cleared,
    [user_brk] is left alone. Clearing a cache entry drops only its valid flag. *)
Definition mm_init (m : mm) : mm :=
  MM (zone_reset HEAP_BASE HOT_ZONE_PAGES)
     (zone_reset WARM_BASE WARM_ZONE_PAGES)
     (zone_reset BOOMERANG_BASE BOOMERANG_PAGES)
     ((fun e => e <| valid := false |>) <$> hot_free_cache m)
     (user_brk m).

(** The load-time image: static initialisers and a zeroed BSS. *)
Definition mm_bss : mm :=
  MM (zone_reset HEAP_BASE HOT_ZONE_PAGES)
     (zone_reset WARM_BASE WARM_ZONE_PAGES)
     (zone_reset BOOMERANG_BASE BOOMERANG_PAGES)
     (replicate HOT_CACHE_SLOTS (CacheEntry 0 0 false)) 0.

(** ** Is the identity address of a physical page shadowed by a user mapping?
    [rd] loads a 64-bit word of physical memory, [cr3] is the CR3 register. *)
Definition paddr_linear_ok (rd : Z -> Z) (cr3 p : Z) : bool :=
  let M := 0x000FFFFFFFFFF000 in
  let ix s := Z.land (Z.shiftr p s) 0x1FF in
  let e4 := rd (Z.land cr3 M + 8 * ix 39) in
  if negb (Z.testbit e4 0) then false else
  let e3 := rd (Z.land e4 M + 8 * ix 30) in
  if negb (Z.testbit e3 0) then false else
  if Z.testbit e3 7 then u64 (Z.land e3 M + Z.land p 0x3FFFFFFF) =? p else
  let e2 := rd (Z.land e3 M + 8 * ix 21) in
  if negb (Z.testbit e2 0) then false else
  if Z.testbit e2 7 then u64 (Z.land e2 M + Z.land p 0x1FFFFF) =? p else
  let e1 := rd (Z.land e2 M + 8 * ix 12) in
  if negb (Z.testbit e1 0) then false else
  Z.land e1 M =? p.

(** ** Hot-zone bit operations shared by the functions below *)

Definition hot_test (m : mm) (g b : Z) : bool := Z.testbit (aget (bitmap (hot_zone m)) g) b.

(** [hot_bitmap[g] |= 1ULL << b] *)
Definition hot_mark (m : mm) (g b : Z) : mm :=
  m <| hot_zone := (hot_zone m)
         <| bitmap := aset (bitmap (hot_zone m)) g
                        (bit_set (aget (bitmap (hot_zone m)) g) b) |> |>.

(** [hot_zone.used_pages += n] *)
Definition hot_count (m : mm) (n : Z) : mm :=
  m <| hot_zone := (hot_zone m) <| used_pages := u64 (used_pages (hot_zone m) + n) |> |>.

(** [hot_free_cache[ci].valid = 0] *)
Definition cache_drop (m : mm) (ci : Z) : mm :=
  m <| hot_free_cache := aset (hot_free_cache m) ci
         ((aget (hot_free_cache m) ci) <| valid := false |>) |>.

Definition page_addr (g b : Z) : Z := HEAP_BASE + (g * 64 + b) * PAGE_SIZE.

(** ** pmalloc *)
Section Pmalloc.
  (** [ok pa] stands for [paddr_linear_ok(pa)] under the current page table. *)
  Variable ok : Z -> bool.

  (** The cache loop: every valid entry met is consumed and its page taken;
      the first one that is not shadowed is returned. *)
Fixpoint pmalloc_cache (cis : list Z) (m : mm) : mm * option Z :=
    match cis with
    | [] => (m, None)
    | ci :: cis' =>
        let e := aget (hot_free_cache m) ci in
        if valid e then
          let m1 := hot_count (hot_mark (cache_drop m ci) (group e) (bit e)) 1 in
          let pa := page_addr (group e) (bit e) in
          if ok pa then (m1, Some pa) else pmalloc_cache cis' m1
        else pmalloc_cache cis' m
    end.

  (** The bitmap loop: one candidate per group, its lowest clear bit. *)
Fixpoint pmalloc_scan (gs : list Z) (m : mm) : mm * option Z :=
    match gs with
    | [] => (m, None)
    | g :: gs' =>
        let w := aget (bitmap (hot_zone m)) g in
        if w =? FULL then pmalloc_scan gs' m
        else
          let b := ctz_not w in
          let m1 := hot_count (hot_mark m g b) 1 in
          let pa := page_addr g b in
          if ok pa then (m1, Some pa) else pmalloc_scan gs' m1
    end.

Definition pmalloc (m : mm) : mm * option Z :=
    match pmalloc_cache (zrange HOT_CACHE_SLOTS) m with
    | (m1, Some pa) => (m1, Some pa)
    | (m1, None) => pmalloc_scan (zrange (Z.to_nat NUM_PAGE_GROUPS)) m1
    end.

  (** ** pmalloc_contig *)

  (** Pages [base .. base+pages) all free and not shadowed. *)
Definition contig_ok (m : mm) (base pages : Z) : bool :=
    forallb (fun i =>
      let idx := base + i in
      negb (hot_test m (idx / 64) (idx mod 64)) && ok (HEAP_BASE + idx * PAGE_SIZE))
      (zrange (Z.to_nat pages)).

  (** Take page [idx]: mark it and invalidate the cache entries naming it. *)
Definition contig_take (m : mm) (idx : Z) : mm :=
    let m1 := hot_mark m (idx / 64) (idx mod 64) in
    m1 <| hot_free_cache :=
      (fun e => if valid e && (group e =? u16 (idx / 64)) && (bit e =? u16 (idx mod 64))
                then e <| valid := false |> else e) <$> hot_free_cache m1 |>.

  (** Candidate bases are the multiples of 64 below HOT_ZONE_PAGES. *)
Fixpoint contig_scan (pages : Z) (gs : list Z) (m : mm) : mm * option Z :=
    match gs with
    | [] => (m, None)
    | g :: gs' =>
        let base := 64 * g in
        if base + pages <=? HOT_ZONE_PAGES then
          if contig_ok m base pages then
            let m1 := foldl contig_take m ((fun i => base + i) <$> zrange (Z.to_nat pages)) in
            (hot_count m1 pages, Some (HEAP_BASE + base * PAGE_SIZE))
          else contig_scan pages gs' m
        else (m, None)
    end.

Definition pmalloc_contig (pages : Z) (m : mm) : mm * option Z :=
    if pages <=? 1 then pmalloc m
    else contig_scan pages (zrange (S (Z.to_nat NUM_PAGE_GROUPS))) m.
End Pmalloc.

(** ** pfree *)

(** Clear bit [(g, b)] of a zone if it is set; [None] when [g] is outside the
    bitmap array (the code does not check it). *)
Definition zone_release (z : zone_t) (g b : Z) : option (zone_t * bool) :=
  if (0 <=? g) && (g <? Z.of_nat (length (bitmap z))) then
    let w := aget (bitmap z) g in
    if Z.testbit w b then
      Some (z <| bitmap := aset (bitmap z) g (bit_clr w b) |>
              <| used_pages := u64 (used_pages z - 1) |>, true)
    else Some (z, false)
  else None.

(** Put a freed page into the first empty cache slot, if there is one. *)
Definition cache_insert (c : list hot_cache_entry_t) (g b : Z) : list hot_cache_entry_t :=
  match find_index (fun e => negb (valid e)) c with
  | Some ci => <[ci := CacheEntry (u16 g) (u16 b) true]> c
  | None => c
  end.

Definition pfree (addr : Z) (m : mm) : option mm :=
  let locate base :=
    let page_idx := u64 (addr - base) / PAGE_SIZE in
    (i32 (page_idx / 64), i32 (page_idx mod 64)) in
  if BOOMERANG_BASE <=? addr then
    let '(g, b) := locate BOOMERANG_BASE in
    '(z, _) ← zone_release (boomerang_zone m) g b;
    Some (m <| boomerang_zone := z |>)
  else if WARM_BASE <=? addr then
    let '(g, b) := locate WARM_BASE in
    '(z, _) ← zone_release (warm_zone m) g b;
    Some (m <| warm_zone := z |>)
  else
    let '(g, b) := locate HEAP_BASE in
    '(z, freed) ← zone_release (hot_zone m) g b;
    let m1 := m <| hot_zone := z |> in
    Some (if freed : bool then m1 <| hot_free_cache := cache_insert (hot_free_cache m1) g b |>
          else m1).

(** [pfree] of [n] consecutive pages from [addr]. *)
Fixpoint pfree_run (n : nat) (addr : Z) (m : mm) : option mm :=
  match n with
  | O => Some m
  | S n' => m1 ← pfree addr m; pfree_run n' (u64 (addr + PAGE_SIZE)) m1
  end.

Definition pfree_contig (addr pages : Z) (m : mm) : option mm :=
  pfree_run (Z.to_nat pages) addr m.

(** ** Statistics *)
Definition mm_stats (m : mm) : Z * Z * Z :=
  (total_pages (hot_zone m), used_pages (hot_zone m),
   u64 (total_pages (hot_zone m) - used_pages (hot_zone m))).

Definition mm_zone_stats (m : mm) (zone_id : Z) : option zone_t :=
  if zone_id =? 0 then Some (hot_zone m)
  else if zone_id =? 1 then Some (warm_zone m)
  else if zone_id =? 2 then Some (boomerang_zone m)
  else None.

Record mm_report := MMReport {
  total_phys : Z; equiv_total : Z; hot_used : Z; warm_used : Z; boom_used : Z;
  warm_equiv : Z; boom_equiv : Z
}.

Definition mm_stats_full (m : mm) : mm_report :=
  let h := hot_zone m in let w := warm_zone m in let b := boomerang_zone m in
  MMReport (u64 (total_pages h + total_pages w + total_pages b))
           (u64 (total_pages h + compressed_equiv w + compressed_equiv b))
           (used_pages h) (used_pages w) (used_pages b)
           (compressed_equiv w) (compressed_equiv b).

(** ** User mmap / munmap / brk *)
Section User.
  Variable ok : Z -> bool.

  (** [n] calls of [pmalloc]; the addresses obtained, oldest first, and whether
      all succeeded. On failure the pages already taken stay taken. *)
Fixpoint pmalloc_n (n : nat) (m : mm) : mm * list Z * bool :=
    match n with
    | O => (m, [], true)
    | S n' =>
        match pmalloc ok m with
        | (m1, None) => (m1, [], false)
        | (m1, Some pa) =>
            let '(m2, l, r) := pmalloc_n n' m1 in (m2, pa :: l, r)
        end
    end.

Definition pages_of (length : Z) : Z := u64 (length + 0xFFF) / 0x1000.

  (** Returns the first page, 0 for NULL. *)
Definition mmap_user (addr len : Z) (m : mm) : mm * Z :=
    if len =? 0 then (m, 0)
    else
      let '(m1, l, r) := pmalloc_n (Z.to_nat (pages_of len)) m in
      (m1, if r : bool then hd 0 l else 0).

Definition munmap_user (addr len : Z) (m : mm) : option (mm * Z) :=
    if (addr =? 0) || (len =? 0) then Some (m, -1)
    else m1 ← pfree_run (Z.to_nat (pages_of len)) addr m; Some (m1, 0).

Definition brk_user (new_brk : Z) (m : mm) : mm * Z :=
    let m := if user_brk m =? 0 then m <| user_brk := 0x600000 |> else m in
    if new_brk =? 0 then (m, user_brk m)
    else
      let '(m1, _, r) :=
        if user_brk m <? new_brk
        then pmalloc_n (Z.to_nat (pages_of (new_brk - user_brk m))) m
        else (m, [], true) in
      if r : bool then (m1 <| user_brk := new_brk |>, new_brk)
      else (m1, user_brk m1).
End User.

(** * Invariant *)

Definition zone_ok (z : zone_t) (base total : Z) : Prop :=
  base_addr z = base /\ total_pages z = total /\
  Z.of_nat (length (bitmap z)) = total / 64 /\
  Forall (fun w => 0 <= w < 2 ^ 64) (bitmap z) /\
  used_pages z = zsum popcount (bitmap z).

(** A valid cache entry names a free hot page, and no page is cached twice. *)
Definition cache_ok (m : mm) : Prop :=
  length (hot_free_cache m) = HOT_CACHE_SLOTS /\
  (forall ci e, hot_free_cache m !! ci = Some e -> valid e = true ->
     0 <= group e < NUM_PAGE_GROUPS /\ 0 <= bit e < 64 /\
     hot_test m (group e) (bit e) = false) /\
  (forall ci cj e e', hot_free_cache m !! ci = Some e -> hot_free_cache m !! cj = Some e' ->
     valid e = true -> valid e' = true -> group e = group e' -> bit e = bit e' -> ci = cj).

Record mm_ok (m : mm) : Prop := {
  hot_zone_ok : zone_ok (hot_zone m) HEAP_BASE HOT_ZONE_PAGES;
  warm_zone_ok : zone_ok (warm_zone m) WARM_BASE WARM_ZONE_PAGES;
  boomerang_zone_ok : zone_ok (boomerang_zone m) BOOMERANG_BASE BOOMERANG_PAGES;
  hot_cache_ok : cache_ok m
}.

(** Hot page number [idx] is taken. *)
Definition page_used (m : mm) (idx : Z) : bool := hot_test m (idx / 64) (idx mod 64).

(** Entry [(g, b)] is not offered by the cache. *)
Definition uncached (m : mm) (g b : Z) : Prop :=
  forall ci e, hot_free_cache m !! ci = Some e -> valid e = true ->
               ~ (group e = g /\ bit e = b).

(** * Lemmas *)

(** Put the zone constants in numeric form, for [lia]. *)
Ltac mm_consts :=
  change HOT_ZONE_PAGES with 262144 in *; change WARM_ZONE_PAGES with 131072 in *;
  change BOOMERANG_PAGES with 65536 in *; change NUM_PAGE_GROUPS with 4096 in *;
  change HEAP_BASE with 0x800000 in *; change WARM_BASE with 0x40800000 in *;
  change BOOMERANG_BASE with 0x60800000 in *; change PAGE_SIZE with 0x1000 in *;
  change (262144 / 64) with 4096 in *; change (131072 / 64) with 2048 in *;
  change (65536 / 64) with 1024 in *.

Lemma zone_groups z base total :
  zone_ok z base total -> 0 <= total -> Forall (fun w => 0 <= popcount w <= 64) (bitmap z).
Proof. intros _ _. apply Forall_forall. intros w _. apply popcount_bounds. Qed.

Lemma zone_used_bound z base total :
  zone_ok z base total -> 0 <= used_pages z <= 64 * (total / 64).
Proof.
  intros (_ & _ & Hlen & _ & ->). rewrite <- Hlen. apply zsum_bounds.
  intros w _. apply popcount_bounds.
Qed.

Lemma zone_mark_ok z base total g b :
  zone_ok z base total -> 0 <= total < 2 ^ 60 -> 0 <= g < total / 64 -> 0 <= b < 64 ->
  Z.testbit (aget (bitmap z) g) b = false ->
  zone_ok (z <| bitmap := aset (bitmap z) g (bit_set (aget (bitmap z) g) b) |>
             <| used_pages := u64 (used_pages z + 1) |>) base total.
Proof.
  intros Hz Ht Hg Hb Hfree. pose proof (zone_used_bound _ _ _ Hz) as Hub.
  pose proof (Z.mul_div_le total 64 ltac:(lia)) as Hdiv.
  destruct Hz as (Hbase & Htot & Hlen & Hw & Hu). cbn.
  repeat split; cbn; [done|done|by rewrite length_aset| |].
  - apply Forall_aset; [done|]. apply bit_set_range; [|lia].
    apply (Forall_aget _ _ _ Hw). lia.
  - rewrite zsum_aset, popcount_set, u64_small by (done || lia). lia.
Qed.

Lemma zone_clear_ok z base total g b :
  zone_ok z base total -> 0 <= total < 2 ^ 60 -> 0 <= g < total / 64 -> 0 <= b < 64 ->
  Z.testbit (aget (bitmap z) g) b = true ->
  zone_ok (z <| bitmap := aset (bitmap z) g (bit_clr (aget (bitmap z) g) b) |>
             <| used_pages := u64 (used_pages z - 1) |>) base total.
Proof.
  intros Hz Ht Hg Hb Hset. pose proof (zone_used_bound _ _ _ Hz) as Hub.
  pose proof (Z.mul_div_le total 64 ltac:(lia)) as Hdiv.
  destruct Hz as (Hbase & Htot & Hlen & Hw & Hu). cbn.
  assert (Hpos : 0 <= zsum popcount (bitmap z) - 1).
  { pose proof (zsum_aset popcount (bitmap z) g (bit_clr (aget (bitmap z) g) b)) as Hs.
    rewrite popcount_clr in Hs by (done || lia).
    specialize (Hs ltac:(lia)).
    assert (0 <= zsum popcount (aset (bitmap z) g (bit_clr (aget (bitmap z) g) b))); [|lia].
    eapply zsum_bounds. intros w _. apply popcount_bounds. }
  repeat split; cbn; [done|done|by rewrite length_aset| |].
  - apply Forall_aset; [done|]. apply bit_clr_range; [|lia|lia].
    apply (Forall_aget _ _ _ Hw). lia.
  - rewrite zsum_aset, popcount_clr, u64_small by (done || lia). lia.
Qed.

Lemma hot_mark_test m g b g' b' :
  0 <= g < Z.of_nat (length (bitmap (hot_zone m))) -> 0 <= g' -> 0 <= b -> 0 <= b' ->
  hot_test (hot_mark m g b) g' b' = hot_test m g' b' || ((g =? g') && (b =? b')).
Proof.
  intros Hg Hg' Hb Hb'. unfold hot_test, hot_mark. cbn.
  rewrite aget_aset by lia. case_decide as E.
  - subst g'. rewrite bit_set_spec, Z.eqb_refl by lia. done.
  - rewrite (proj2 (Z.eqb_neq g g')) by lia. by rewrite orb_false_r.
Qed.

Lemma group_bit_idx g b : 0 <= b < 64 -> (g * 64 + b) / 64 = g /\ (g * 64 + b) mod 64 = b.
Proof.
  intros Hb. split.
  - rewrite Z.div_add_l, Z.div_small by lia. lia.
  - rewrite Z.add_comm, Z.mod_add, Z.mod_small by lia. done.
Qed.

Lemma idx_group_bit idx :
  0 <= idx < HOT_ZONE_PAGES ->
  0 <= idx / 64 < NUM_PAGE_GROUPS /\ 0 <= idx mod 64 < 64 /\ idx / 64 * 64 + idx mod 64 = idx.
Proof.
  intros Hi. change HOT_ZONE_PAGES with 262144 in Hi. change NUM_PAGE_GROUPS with 4096.
  pose proof (Z.mod_pos_bound idx 64 ltac:(lia)). pose proof (Z_div_mod_eq_full idx 64).
  assert (0 <= idx / 64 < 4096); [|lia].
  split; [by apply Z.div_pos; lia|]. apply Z.div_lt_upper_bound; lia.
Qed.

Lemma hot_groups m : mm_ok m -> Z.of_nat (length (bitmap (hot_zone m))) = NUM_PAGE_GROUPS.
Proof. intros [(_ & _ & H & _) _ _ _]. done. Qed.

Lemma hot_word_range m g :
  mm_ok m -> 0 <= g < NUM_PAGE_GROUPS -> 0 <= aget (bitmap (hot_zone m)) g < 2 ^ 64.
Proof.
  intros Hm Hg. pose proof (hot_groups m Hm) as Hl. destruct Hm as [(_ & _ & _ & Hw & _) _ _ _].
  apply (Forall_aget _ _ _ Hw). lia.
Qed.

Lemma hot_take_ok m g b :
  mm_ok m -> 0 <= g < NUM_PAGE_GROUPS -> 0 <= b < 64 -> hot_test m g b = false ->
  uncached m g b -> mm_ok (hot_count (hot_mark m g b) 1).
Proof.
  intros Hm Hg Hb Hfree Hun. pose proof (hot_groups m Hm) as Hl.
  pose proof (hot_mark_test m g b) as Hmark.
  destruct Hm as [Hh Hw Hbo (Hlen & Hval & Hdist)]. split; [|done..|].
  - apply (zone_mark_ok _ _ _ g b Hh); [mm_consts; lia|done..].
  - split; [done|]. split; [|done]. intros ci e He Hv.
    destruct (Hval ci e He Hv) as (Hge & Hbe & Hte). repeat split; [lia..|].
    change (hot_test (hot_mark m g b) (group e) (bit e) = false).
    rewrite Hmark, Hte by lia. pose proof (Hun ci e He Hv) as Hne.
    destruct (Z.eqb_spec g (group e)); [|done]. destruct (Z.eqb_spec b (bit e)); [|done].
    exfalso. auto.
Qed.

Lemma cache_drop_lookup m ci cj e :
  hot_free_cache (cache_drop m ci) !! cj = Some e -> valid e = true ->
  hot_free_cache m !! cj = Some e /\ cj <> Z.to_nat ci.
Proof.
  unfold cache_drop. cbn. unfold aset. rewrite list_lookup_insert. case_decide as E.
  - intros [= <-]. done.
  - intros He _. split; [done|]. intros ->. apply E. split; [done|].
    by eapply lookup_lt_Some.
Qed.

Lemma cache_drop_ok m ci : mm_ok m -> mm_ok (cache_drop m ci).
Proof.
  intros [Hh Hw Hb (Hlen & Hval & Hdist)]. split; [done..|]. split; [|split].
  - cbn. by rewrite length_aset.
  - intros cj e He Hv. apply (cache_drop_lookup m ci cj e) in He as [He _]; [|done].
    by apply (Hval cj e).
  - intros cj ck e e' He He' Hv Hv'.
    apply cache_drop_lookup in He as [He _]; [|done].
    apply cache_drop_lookup in He' as [He' _]; [|done]. by apply (Hdist cj ck e e').
Qed.

(** A valid entry can be dropped and its page taken. *)
Lemma cache_consume_ok m ci e :
  mm_ok m -> hot_free_cache m !! Z.to_nat ci = Some e -> valid e = true ->
  mm_ok (hot_count (hot_mark (cache_drop m ci) (group e) (bit e)) 1).
Proof.
  intros Hm He Hv. pose proof Hm as [_ _ _ (_ & Hval & Hdist)].
  destruct (Hval _ _ He Hv) as (Hg & Hb & Ht).
  apply hot_take_ok; [by apply cache_drop_ok|done..|].
  intros cj e' He' Hv' [Eg Eb]. apply cache_drop_lookup in He' as [He' Hne]; [|done].
  apply Hne. by apply (Hdist cj (Z.to_nat ci) e' e).
Qed.

(** [m'] has every page of [m] taken, and the other zones are untouched. *)
Definition extends (m m' : mm) : Prop :=
  (forall idx, 0 <= idx < HOT_ZONE_PAGES -> page_used m idx = true -> page_used m' idx = true) /\
  warm_zone m' = warm_zone m /\ boomerang_zone m' = boomerang_zone m /\ user_brk m' = user_brk m.

Lemma extends_refl m : extends m m.
Proof. done. Qed.

Lemma extends_trans m1 m2 m3 : extends m1 m2 -> extends m2 m3 -> extends m1 m3.
Proof. intros (HA & ? & ? & ?) (HB & ? & ? & ?). split; [auto|]. repeat split; congruence. Qed.

Lemma page_used_take m g b idx :
  mm_ok m -> 0 <= g < NUM_PAGE_GROUPS -> 0 <= b < 64 -> 0 <= idx < HOT_ZONE_PAGES ->
  page_used (hot_count (hot_mark m g b) 1) idx = page_used m idx || (idx =? g * 64 + b).
Proof.
  intros Hm Hg Hb Hi. unfold page_used.
  change (hot_test (hot_count (hot_mark m g b) 1) (idx / 64) (idx mod 64))
    with (hot_test (hot_mark m g b) (idx / 64) (idx mod 64)).
  pose proof (idx_group_bit idx Hi) as (Hgi & Hbi & Hidx). pose proof (hot_groups m Hm).
  rewrite hot_mark_test by lia. f_equal.
  destruct (Z.eqb_spec idx (g * 64 + b)) as [->|Hne].
  - destruct (group_bit_idx g b Hb) as [-> ->]. by rewrite !Z.eqb_refl.
  - destruct (Z.eqb_spec g (idx / 64)); [|done]. destruct (Z.eqb_spec b (idx mod 64)); [|done].
    subst. lia.
Qed.

Lemma take_extends m g b :
  mm_ok m -> 0 <= g < NUM_PAGE_GROUPS -> 0 <= b < 64 ->
  extends m (hot_count (hot_mark m g b) 1).
Proof.
  intros Hm Hg Hb. split; [|done]. intros idx Hi Hu. rewrite page_used_take, Hu by done. done.
Qed.

(** What one allocation attempt guarantees. *)
Definition alloc_post (ok : Z -> bool) (m m' : mm) (r : option Z) : Prop :=
  mm_ok m' /\ extends m m' /\
  forall pa, r = Some pa ->
    ok pa = true /\
    exists idx, 0 <= idx < HOT_ZONE_PAGES /\ pa = HEAP_BASE + idx * PAGE_SIZE /\
                page_used m idx = false /\ page_used m' idx = true.

Lemma alloc_post_trans ok m m1 m2 r :
  mm_ok m1 -> extends m m1 -> alloc_post ok m1 m2 r -> alloc_post ok m m2 r.
Proof.
  intros Hm1 Hex (Hok & Hex2 & Hr). split; [done|]. split; [by eapply extends_trans|].
  intros pa ->. destruct (Hr pa eq_refl) as (Hpa & idx & Hi & Hp & Hf & Hu).
  split; [done|]. exists idx. repeat split; [lia..|done| |done].
  destruct (page_used m idx) eqn:E; [|done].
  destruct Hex as [Hex _]. rewrite (Hex idx) in Hf by done. done.
Qed.

Lemma alloc_post_take ok m m1 g b :
  mm_ok m1 -> extends m m1 -> 0 <= g < NUM_PAGE_GROUPS -> 0 <= b < 64 ->
  hot_test m1 g b = false -> uncached m1 g b ->
  ok (page_addr g b) = true ->
  alloc_post ok m (hot_count (hot_mark m1 g b) 1) (Some (page_addr g b)).
Proof.
  intros Hm1 Hex Hg Hb Hf Hun Hok. eapply alloc_post_trans; [done..|].
  split; [by apply hot_take_ok|]. split; [by apply take_extends|].
  intros pa [= <-]. split; [done|]. exists (g * 64 + b).
  assert (Hi : 0 <= g * 64 + b < HOT_ZONE_PAGES) by (clear - Hg Hb; mm_consts; lia).
  split; [done|]. split; [done|]. destruct (group_bit_idx g b Hb) as [E1 E2]. split.
  - unfold page_used. by rewrite E1, E2.
  - rewrite page_used_take, Z.eqb_refl by (done || lia). by rewrite orb_true_r.
Qed.

Section PmallocProofs.
  Context (ok : Z -> bool).

Lemma pmalloc_cache_post cis m :
    mm_ok m -> alloc_post ok m (pmalloc_cache ok cis m).1 (pmalloc_cache ok cis m).2.
  Proof.
    revert m. induction cis as [|ci cis IH]; intros m Hm; simpl.
    { split; [done|]. split; [apply extends_refl|]. done. }
    destruct (valid (aget (hot_free_cache m) ci)) eqn:Hv; [|by apply IH].
    set (e := aget (hot_free_cache m) ci) in *.
    assert (He : hot_free_cache m !! Z.to_nat ci = Some e).
    { unfold e, aget in *. destruct (hot_free_cache m !! Z.to_nat ci) as [e'|] eqn:E.
      - by rewrite (list_lookup_total_correct _ _ _ E).
      - rewrite list_lookup_total_alt, E in Hv. done. }
    pose proof Hm as [_ _ _ (_ & Hval & Hdist)]. destruct (Hval _ _ He Hv) as (Hg & Hb & Ht).
    assert (Hun : uncached (cache_drop m ci) (group e) (bit e)).
    { intros cj e' He' Hv' [Eg Eb]. apply cache_drop_lookup in He' as [He' Hne]; [|done].
      apply Hne. by apply (Hdist cj (Z.to_nat ci) e' e). }
    assert (Hex : extends m (cache_drop m ci)) by (split; [auto|done]).
    destruct (ok (page_addr (group e) (bit e))) eqn:Hok; cbn [fst snd].
    - apply alloc_post_take; [by apply cache_drop_ok|done..].
    - eapply (alloc_post_trans _ _ (hot_count (hot_mark (cache_drop m ci) (group e) (bit e)) 1)).
      + by apply cache_consume_ok.
      + eapply extends_trans; [done|]. apply take_extends; [by apply cache_drop_ok|done..].
      + apply IH. by apply cache_consume_ok.
  Qed.

  (** A cache pass that returns nothing leaves every visited entry invalid. *)
Lemma pmalloc_cache_empties cis m ci :
    (pmalloc_cache ok cis m).2 = None ->
    (Z.to_nat ci < length (hot_free_cache m))%nat ->
    (ci ∈ cis \/ valid (aget (hot_free_cache m) ci) = false) ->
    valid (aget (hot_free_cache (pmalloc_cache ok cis m).1) ci) = false.
  Proof.
    revert m. induction cis as [|cj cis IH]; intros m Hr Hci Hin; simpl in *.
    { destruct Hin as [Hin|]; [by apply not_elem_of_nil in Hin|done]. }
    destruct (valid (aget (hot_free_cache m) cj)) eqn:Hv.
    - destruct (ok _); [done|]. apply IH; [done|cbn; by rewrite length_aset|].
      cbn. unfold aget, aset.
      destruct (decide (Z.to_nat cj = Z.to_nat ci)) as [E|E].
      + right. rewrite E. by rewrite list_lookup_total_insert_eq.
      + rewrite list_lookup_total_insert_ne by done.
        destruct Hin as [[->|?]%elem_of_cons|?]; auto. done.
    - apply IH; [done..|]. destruct Hin as [[->|?]%elem_of_cons|?]; auto.
  Qed.

Lemma pmalloc_scan_post gs m :
    mm_ok m -> Forall (fun g => 0 <= g < NUM_PAGE_GROUPS) gs ->
    (forall g b, uncached m g b) ->
    alloc_post ok m (pmalloc_scan ok gs m).1 (pmalloc_scan ok gs m).2.
  Proof.
    revert m. induction gs as [|g gs IH]; intros m Hm Hgs Hun; simpl.
    { split; [done|]. split; [apply extends_refl|]. done. }
    apply Forall_cons in Hgs as [Hg Hgs].
    destruct (Z.eqb_spec (aget (bitmap (hot_zone m)) g) FULL) as [|Hne]; [by apply IH|].
    destruct (ctz_not_spec _ (hot_word_range m g Hm Hg) Hne) as (Hb & Ht & _).
    destruct (ok (page_addr g _)) eqn:Hok; cbn [fst snd].
    - apply alloc_post_take; [done|apply extends_refl|done..].
    - eapply alloc_post_trans; [| |apply IH]; [|by apply take_extends|..].
      + by apply hot_take_ok.
      + by apply hot_take_ok.
      + done.
      + exact Hun.
  Qed.

Lemma all_invalid_uncached m :
    (forall ci, 0 <= ci < Z.of_nat HOT_CACHE_SLOTS -> valid (aget (hot_free_cache m) ci) = false) ->
    length (hot_free_cache m) = HOT_CACHE_SLOTS -> forall g b, uncached m g b.
  Proof.
    intros Hall Hlen g b ci e He Hv. exfalso.
    assert (ci < HOT_CACHE_SLOTS)%nat by (rewrite <- Hlen; by eapply lookup_lt_Some).
    specialize (Hall (Z.of_nat ci) ltac:(lia)). unfold aget in Hall.
    rewrite Nat2Z.id, (list_lookup_total_correct _ _ _ He) in Hall. congruence.
  Qed.

Lemma zrange_groups : Forall (fun g => 0 <= g < NUM_PAGE_GROUPS) (zrange (Z.to_nat NUM_PAGE_GROUPS)).
  Proof. apply Forall_forall. intros g Hg%elem_of_zrange. mm_consts. lia. Qed.

Lemma pmalloc_cache_None_uncached m :
    mm_ok m -> (pmalloc_cache ok (zrange HOT_CACHE_SLOTS) m).2 = None ->
    forall g b, uncached (pmalloc_cache ok (zrange HOT_CACHE_SLOTS) m).1 g b.
  Proof.
    intros Hm Hr. pose proof Hm as [_ _ _ (Hlen & _)].
    apply all_invalid_uncached.
    - intros ci Hci. apply pmalloc_cache_empties; [done|rewrite Hlen; lia|].
      left. by apply elem_of_zrange.
    - by destruct (pmalloc_cache_post (zrange HOT_CACHE_SLOTS) m Hm) as ([_ _ _ (? & _)] & _).
  Qed.

Lemma pmalloc_post m : mm_ok m -> alloc_post ok m (pmalloc ok m).1 (pmalloc ok m).2.
  Proof.
    intros Hm. unfold pmalloc.
    pose proof (pmalloc_cache_post (zrange HOT_CACHE_SLOTS) m Hm) as Hc.
    pose proof (pmalloc_cache_None_uncached m Hm) as Hun.
    destruct (pmalloc_cache _ _ _) as [m1 [pa|]]; [done|]. cbn [fst snd] in *.
    destruct Hc as (Hm1 & Hex & _). eapply alloc_post_trans; [done..|].
    apply pmalloc_scan_post; [done|apply zrange_groups|by apply Hun].
  Qed.
End PmallocProofs.

(** ** Exhaustion *)

Lemma pmalloc_cache_ok_None cis m :
  (pmalloc_cache (fun _ => true) cis m).2 = None ->
  (pmalloc_cache (fun _ => true) cis m).1 = m.
Proof.
  induction cis as [|ci cis IH]; simpl; [done|].
  destruct (valid _); [done|]. apply IH.
Qed.

Lemma pmalloc_scan_None gs m :
  (pmalloc_scan (fun _ => true) gs m).2 = None <->
  Forall (fun g => aget (bitmap (hot_zone m)) g = FULL) gs.
Proof.
  induction gs as [|g gs IH]; simpl; [by split; [constructor|]|].
  rewrite Forall_cons, <- IH. destruct (Z.eqb_spec (aget (bitmap (hot_zone m)) g) FULL).
  - naive_solver.
  - simpl. naive_solver.
Qed.

Lemma full_words_iff m :
  mm_ok m ->
  Forall (fun g => aget (bitmap (hot_zone m)) g = FULL) (zrange (Z.to_nat NUM_PAGE_GROUPS)) <->
  used_pages (hot_zone m) = HOT_ZONE_PAGES.
Proof.
  intros Hm. pose proof (hot_groups m Hm) as Hlen.
  pose proof Hm as [(_ & _ & _ & Hw & Hu) _ _ _]. rewrite Hu, Forall_forall. split.
  - intros Hall. rewrite (zsum_ext popcount (fun _ => 64)).
    + change HOT_ZONE_PAGES with (64 * 4096). change NUM_PAGE_GROUPS with 4096 in Hlen.
      rewrite <- Hlen. clear. induction (bitmap (hot_zone m)) as [|w l IH]; [done|].
      cbn [length]. unfold zsum in *. simpl foldr. rewrite IH. lia.
    + intros w (i & Hi)%list_elem_of_lookup.
      assert (E : aget (bitmap (hot_zone m)) (Z.of_nat i) = FULL).
      { apply Hall. apply elem_of_zrange. apply lookup_lt_Some in Hi. mm_consts. lia. }
      unfold aget in E. rewrite Nat2Z.id, (list_lookup_total_correct _ _ _ Hi) in E.
      rewrite E. apply popcount_ones.
  - intros Hs g Hg%elem_of_zrange. rewrite Z2Nat.id in Hg by (mm_consts; lia).
    apply popcount_64; [by apply hot_word_range|].
    apply (zsum_max popcount (bitmap (hot_zone m)) 64).
    + intros w _. pose proof (popcount_bounds w). lia.
    + rewrite Hlen. exact Hs.
    + unfold aget. apply list_elem_of_lookup_total_2. mm_consts. lia.
Qed.

Lemma full_word_bit m g b :
  aget (bitmap (hot_zone m)) g = FULL -> 0 <= b < 64 -> hot_test m g b = true.
Proof. intros E Hb. unfold hot_test. rewrite E. change FULL with (Z.ones 64). by rewrite Z.ones_spec_low by lia. Qed.

Lemma pmalloc_cache_full m cis :
  mm_ok m -> used_pages (hot_zone m) = HOT_ZONE_PAGES ->
  pmalloc_cache (fun _ => true) cis m = (m, None).
Proof.
  intros Hm Hfull. apply full_words_iff in Hfull; [|done]. rewrite Forall_forall in Hfull.
  induction cis as [|ci cis IH]; simpl; [done|].
  destruct (valid (aget (hot_free_cache m) ci)) eqn:Hv; [exfalso|done].
  assert (He : exists e, hot_free_cache m !! Z.to_nat ci = Some e /\ valid e = true).
  { unfold aget in Hv. destruct (hot_free_cache m !! Z.to_nat ci) as [e|] eqn:E.
    - exists e. by rewrite (list_lookup_total_correct _ _ _ E) in Hv.
    - by rewrite list_lookup_total_alt, E in Hv. }
  destruct He as (e & He & Hve). destruct Hm as [_ _ _ (_ & Hval & _)].
  destruct (Hval _ _ He Hve) as (Hg & Hb & Ht).
  rewrite full_word_bit in Ht; [done| |done].
  apply Hfull, elem_of_zrange. mm_consts. lia.
Qed.

(** ** Freeing *)

Lemma zone_release_ok z base total g b :
  zone_ok z base total -> 0 <= total < 2 ^ 60 -> 0 <= g < total / 64 -> 0 <= b < 64 ->
  exists z', zone_release z g b = Some (z', Z.testbit (aget (bitmap z) g) b) /\
    zone_ok z' base total /\
    used_pages z' = used_pages z - Z.b2z (Z.testbit (aget (bitmap z) g) b) /\
    (forall g' b', 0 <= g' -> 0 <= b' ->
       Z.testbit (aget (bitmap z') g') b' =
       Z.testbit (aget (bitmap z) g') b' && negb ((g =? g') && (b =? b'))).
Proof.
  intros Hz Ht Hg Hb. unfold zone_release. pose proof Hz as (_ & _ & Hlen & _ & _).
  rewrite (proj2 (Z.leb_le 0 g)), (proj2 (Z.ltb_lt g _)) by lia. simpl.
  destruct (Z.testbit (aget (bitmap z) g) b) eqn:Hbit.
  - eexists. split; [done|]. pose proof (zone_clear_ok _ _ _ g b Hz Ht Hg Hb Hbit) as Hok.
    split; [done|]. pose proof (zone_used_bound _ _ _ Hok) as Hub. split.
    + pose proof (zone_used_bound _ _ _ Hz) as Hub'.
      assert (Hu1 : 1 <= used_pages z).
      { destruct Hok as (_ & _ & _ & _ & Hu). destruct Hz as (_ & _ & _ & _ & Hu').
        cbn in Hu, Hub. rewrite zsum_aset, popcount_clr in Hu by (done || lia).
        rewrite Hu in Hub. lia. }
      cbn. rewrite u64_small; [done|]. pose proof (Z.mul_div_le total 64). lia.
    + intros g' b' Hg' Hb'. cbn. rewrite aget_aset by lia. case_decide as E.
      * subst g'. rewrite bit_clr_spec, Z.eqb_refl by lia. done.
      * rewrite (proj2 (Z.eqb_neq g g')) by lia. by rewrite andb_true_r.
  - exists z. split; [done|]. split; [done|]. split; [simpl; lia|].
    intros g' b' Hg' Hb'. destruct (Z.eqb_spec g g') as [<-|]; [|by rewrite andb_true_r].
    destruct (Z.eqb_spec b b') as [<-|]; [|by rewrite andb_true_r].
    by rewrite Hbit.
Qed.

Lemma cache_insert_ok m g b :
  mm_ok m -> 0 <= g < NUM_PAGE_GROUPS -> 0 <= b < 64 -> hot_test m g b = false ->
  uncached m g b -> mm_ok (m <| hot_free_cache := cache_insert (hot_free_cache m) g b |>).
Proof.
  intros [Hh Hw Hbo (Hlen & Hval & Hdist)] Hg Hb Ht Hun. split; [done..|].
  unfold cache_ok. cbn. unfold cache_insert.
  destruct (find_index _ _) as [ci|] eqn:Hf; [|done].
  apply find_index_Some in Hf as (e0 & He0 & Hinv & _).
  assert (Eg : u16 g = g) by (apply u16_small; mm_consts; lia).
  assert (Eb : u16 b = b) by (apply u16_small; lia). rewrite Eg, Eb.
  assert (Hlook : forall cj e, <[ci := CacheEntry g b true]> (hot_free_cache m) !! cj = Some e ->
    (cj = ci /\ e = CacheEntry g b true) \/ (cj <> ci /\ hot_free_cache m !! cj = Some e)).
  { intros cj e. rewrite list_lookup_insert. case_decide as E.
    - intros [= <-]. left. destruct E. done.
    - intros He. right. split; [|done]. intros ->. apply E. split; [done|].
      by eapply lookup_lt_Some. }
  split; [by rewrite length_insert|]. split.
  - intros cj e He Hv. apply Hlook in He as [[-> ->]|[_ He]]; [done|].
    by apply (Hval cj e).
  - intros cj ck e e' He He' Hv Hv' Egr Ebt.
    apply Hlook in He as [[-> ->]|[Hne He]]; apply Hlook in He' as [[-> ->]|[Hne' He']].
    + done.
    + exfalso. by apply (Hun ck e').
    + exfalso. by apply (Hun cj e).
    + by apply (Hdist cj ck e e').
Qed.

(** A freed hot page is free, counted once, and nothing else changes. *)
Definition freed_post (m m' : mm) (idx : Z) : Prop :=
  mm_ok m' /\ warm_zone m' = warm_zone m /\ boomerang_zone m' = boomerang_zone m /\
  user_brk m' = user_brk m /\
  used_pages (hot_zone m') = used_pages (hot_zone m) - Z.b2z (page_used m idx) /\
  forall j, 0 <= j < HOT_ZONE_PAGES ->
    page_used m' j = page_used m j && negb (idx =? j).

Lemma taken_uncached m g b : mm_ok m -> hot_test m g b = true -> uncached m g b.
Proof.
  intros [_ _ _ (_ & Hval & _)] Ht ci e He Hv [<- <-].
  destruct (Hval ci e He Hv) as (_ & _ & Hf). congruence.
Qed.

Lemma locate_small base addr n :
  0 <= base -> base <= addr < base + n * PAGE_SIZE -> 0 <= n < 2 ^ 30 -> addr < 2 ^ 63 ->
  let idx := (addr - base) / PAGE_SIZE in
  0 <= idx < n /\ u64 (addr - base) / PAGE_SIZE = idx /\
  i32 (idx / 64) = idx / 64 /\ i32 (idx mod 64) = idx mod 64.
Proof.
  intros Hb Ha Hn Hm idx.
  assert (Hidx : 0 <= idx < n).
  { split; [apply Z.div_pos; [lia|done]|]. apply Z.div_lt_upper_bound; [done|]. lia. }
  split; [done|]. split; [by rewrite u64_small by lia|].
  pose proof (Z.mod_pos_bound idx 64 ltac:(lia)). split; apply i32_small; [|lia].
  split; [|apply Z.div_lt_upper_bound; lia]. pose proof (Z.div_pos idx 64). lia.
Qed.

Lemma pfree_hot m addr :
  mm_ok m -> HEAP_BASE <= addr < WARM_BASE ->
  exists m', pfree addr m = Some m' /\ freed_post m m' ((addr - HEAP_BASE) / PAGE_SIZE).
Proof.
  intros Hm Ha.
  destruct (locate_small HEAP_BASE addr HOT_ZONE_PAGES) as (Hidx & Eu & Eg & Eb);
    [done|clear - Ha; mm_consts; lia|done|clear - Ha; mm_consts; lia|].
  unfold pfree. rewrite (proj2 (Z.leb_gt BOOMERANG_BASE addr)) by (clear - Ha; mm_consts; lia).
  rewrite (proj2 (Z.leb_gt WARM_BASE addr)) by lia. rewrite Eu, Eg, Eb.
  set (idx := (addr - HEAP_BASE) / PAGE_SIZE) in *.
  destruct (idx_group_bit idx Hidx) as (Hg & Hb & Hgb).
  pose proof Hm as [Hh Hw Hbo Hc].
  destruct (zone_release_ok _ _ _ (idx / 64) (idx mod 64) Hh) as (z & Er & Hz & Hu & Hbits);
    [done|done|done|].
  rewrite Er. cbn [mbind option_bind].
  change (Z.testbit (aget (bitmap (hot_zone m)) (idx / 64)) (idx mod 64))
    with (page_used m idx) in *.
  set (m1 := m <| hot_zone := z |>).
  assert (Htest : forall g b, 0 <= g -> 0 <= b ->
    hot_test m1 g b = hot_test m g b && negb ((idx / 64 =? g) && (idx mod 64 =? b))).
  { intros g b Hg' Hb'. apply Hbits; done. }
  assert (Hm1 : mm_ok m1).
  { split; [done..|]. destruct Hc as (Hlen & Hval & Hdist). split; [done|]. split; [|done].
    intros ci e He Hv. destruct (Hval ci e He Hv) as (? & ? & Hf). split; [done|]. split; [done|].
    rewrite Htest, Hf by lia. done. }
  assert (Hused : forall j, 0 <= j < HOT_ZONE_PAGES ->
    page_used m1 j = page_used m j && negb (idx =? j)).
  { intros j Hj. destruct (idx_group_bit j Hj) as (? & ? & Hj').
    unfold page_used. rewrite Htest by lia. f_equal. f_equal.
    destruct (Z.eqb_spec idx j) as [->|Hne]; [by rewrite !Z.eqb_refl|].
    destruct (Z.eqb_spec (idx / 64) (j / 64)); [|done].
    destruct (Z.eqb_spec (idx mod 64) (j mod 64)); [|done]. lia. }
  eexists. split; [done|]. unfold freed_post.
  destruct (page_used m idx) eqn:Hp; [|by split_and!].
  split; [|by split_and!]. apply cache_insert_ok; [done..| |].
  - change (page_used m1 idx = false). rewrite Hused, Hp, Z.eqb_refl by done. done.
  - exact (taken_uncached m _ _ Hm Hp).
Qed.

Lemma pfree_managed m addr :
  mm_ok m -> HEAP_BASE <= addr < BOOMERANG_BASE + BOOMERANG_PAGES * PAGE_SIZE ->
  exists m', pfree addr m = Some m' /\ mm_ok m'.
Proof.
  intros Hm Ha. destruct (Z_lt_le_dec addr WARM_BASE) as [Hlt|Hge].
  { destruct (pfree_hot m addr Hm) as (m' & E & Hok & _); [lia|by eauto]. }
  pose proof Hm as [Hh Hw Hbo Hc].
  assert (Hloc : forall z base total, zone_ok z base total -> 0 <= base ->
    base <= addr < base + total * PAGE_SIZE -> total mod 64 = 0 -> 0 <= total < 2 ^ 30 ->
    addr < 2 ^ 63 ->
    exists z' r, zone_release z (i32 (u64 (addr - base) / PAGE_SIZE / 64))
                   (i32 (u64 (addr - base) / PAGE_SIZE mod 64)) = Some (z', r) /\
                 zone_ok z' base total).
  { intros z base total Hz Hb Hr Hmod Ht H63.
    destruct (locate_small base addr total) as (Hidx & Eu & Eg & Eb); [done..|].
    rewrite Eu, Eg, Eb. pose proof (Z.mod_pos_bound ((addr - base) / PAGE_SIZE) 64).
    pose proof (Z_div_mod_eq_full total 64).
    destruct (zone_release_ok z base total ((addr - base) / PAGE_SIZE / 64)
                ((addr - base) / PAGE_SIZE mod 64) Hz) as (z' & Er & Hz' & _);
      [lia|split; [apply Z.div_pos; lia|apply Z.div_lt_upper_bound; lia]|lia|eauto]. }
  unfold pfree. destruct (Z.leb_spec BOOMERANG_BASE addr) as [Hb|Hb].
  - destruct (Hloc _ _ _ Hbo) as (z' & r & Er & Hz');
      [done|lia|done|done|clear - Ha; mm_consts; lia|].
    rewrite Er. eexists. split; [done|]. by split.
  - rewrite (proj2 (Z.leb_le WARM_BASE addr)) by lia.
    destruct (Hloc _ _ _ Hw) as (z' & r & Er & Hz');
      [done|clear - Hge Hb; mm_consts; lia|done|done|clear - Hb; mm_consts; lia|].
    rewrite Er. eexists. split; [done|]. by split.
Qed.

Lemma pfree_run_managed n m addr :
  mm_ok m -> HEAP_BASE <= addr ->
  addr + Z.of_nat n * PAGE_SIZE <= BOOMERANG_BASE + BOOMERANG_PAGES * PAGE_SIZE ->
  exists m', pfree_run n addr m = Some m' /\ mm_ok m'.
Proof.
  revert m addr. induction n as [|n IH]; intros m addr Hm Ha Hend; simpl; [eauto|].
  destruct (pfree_managed m addr Hm) as (m1 & -> & Hm1); [clear - Ha Hend; mm_consts; lia|].
  cbn [mbind option_bind].
  destruct (IH m1 (addr + PAGE_SIZE)) as (m2 & E & Hm2);
    [done|clear - Ha; mm_consts; lia|clear - Hend; mm_consts; lia|].
  exists m2. split; [|done]. rewrite u64_small; [done|]. clear - Ha Hend. mm_consts. lia.
Qed.

(** ** Contiguous runs *)

Lemma hot_count_add m j k : hot_count (hot_count m j) k = hot_count m (j + k).
Proof.
  unfold hot_count. destruct m as [[? ? ? ? ? ? ?] ? ? ? ?]. cbn. rewrite u64_add_l.
  by rewrite Z.add_assoc.
Qed.

Lemma hot_count_0 m : mm_ok m -> hot_count m 0 = m.
Proof.
  intros [Hh _ _ _]. pose proof (zone_used_bound _ _ _ Hh) as Hub.
  unfold hot_count. destruct m as [[? ? ? ? ? ? ?] ? ? ? ?]. cbn in *.
  rewrite Z.add_0_r, u64_small; [done|]. mm_consts. lia.
Qed.

Definition cache_inval (m : mm) (g b : Z) : mm :=
  m <| hot_free_cache :=
      (fun e => if valid e && (group e =? u16 g) && (bit e =? u16 b)
                then e <| valid := false |> else e) <$> hot_free_cache m |>.

Lemma cache_inval_lookup m g b ci e :
  hot_free_cache (cache_inval m g b) !! ci = Some e -> valid e = true ->
  hot_free_cache m !! ci = Some e /\ (group e =? u16 g) && (bit e =? u16 b) = false.
Proof.
  cbn. rewrite list_lookup_fmap. intros (e0 & He & ->)%fmap_Some.
  destruct (valid e0 && _ && _) eqn:E; cbn; [done|]. intros Hv. split; [done|].
  rewrite Hv in E. by destruct (group e0 =? u16 g).
Qed.

Lemma cache_inval_ok m g b : mm_ok m -> mm_ok (cache_inval m g b).
Proof.
  intros [Hh Hw Hb (Hlen & Hval & Hdist)]. split; [done..|]. split; [|split].
  - cbn. by rewrite length_fmap.
  - intros ci e He Hv. apply cache_inval_lookup in He as [He _]; [|done]. by apply (Hval ci e).
  - intros ci cj e e' He He' Hv Hv'.
    apply cache_inval_lookup in He as [He _]; [|done].
    apply cache_inval_lookup in He' as [He' _]; [|done]. by apply (Hdist ci cj e e').
Qed.

Lemma cache_inval_uncached m g b :
  0 <= g < NUM_PAGE_GROUPS -> 0 <= b < 64 -> uncached (cache_inval m g b) g b.
Proof.
  intros Hg Hb ci e He Hv [Eg Eb]. apply cache_inval_lookup in He as [_ He]; [|done].
  rewrite Eg, Eb in He. rewrite !u16_small in He by (mm_consts; lia). by rewrite !Z.eqb_refl in He.
Qed.

Lemma contig_take_step m k idx :
  mm_ok (hot_count m k) -> 0 <= idx < HOT_ZONE_PAGES -> page_used m idx = false ->
  mm_ok (hot_count (contig_take m idx) (k + 1)) /\
  forall j, 0 <= j < HOT_ZONE_PAGES -> page_used (contig_take m idx) j = page_used m j || (j =? idx).
Proof.
  intros Hm Hi Hf. destruct (idx_group_bit idx Hi) as (Hg & Hb & Hgb).
  set (mi := cache_inval (hot_count m k) (idx / 64) (idx mod 64)).
  assert (Hmi : mm_ok mi) by (by apply cache_inval_ok).
  replace (hot_count (contig_take m idx) (k + 1))
    with (hot_count (hot_mark mi (idx / 64) (idx mod 64)) 1).
  - split; [apply hot_take_ok; [done..|]; by apply cache_inval_uncached|].
    intros j Hj. pose proof (page_used_take mi (idx / 64) (idx mod 64) j Hmi Hg Hb Hj) as E.
    rewrite Hgb in E. exact E.
  - rewrite <- hot_count_add. unfold mi, contig_take, cache_inval, hot_mark, hot_count.
    destruct m as [[? ? ? ? ? ? ?] ? ? ? ?]. cbn. by rewrite !u64_add_l.
Qed.

Lemma contig_fold l m k :
  mm_ok (hot_count m k) -> NoDup l ->
  Forall (fun idx => 0 <= idx < HOT_ZONE_PAGES /\ page_used m idx = false) l ->
  let m' := foldl contig_take m l in
  mm_ok (hot_count m' (k + Z.of_nat (length l))) /\
  forall j, 0 <= j < HOT_ZONE_PAGES -> page_used m' j = page_used m j || bool_decide (j ∈ l).
Proof.
  revert m k. induction l as [|idx l IH]; intros m k Hm Hnd Hl; cbn [foldl length].
  { rewrite Z.add_0_r. split; [done|]. intros j _.
    rewrite bool_decide_eq_false_2 by set_solver. by rewrite orb_false_r. }
  apply NoDup_cons in Hnd as [Hni Hnd]. apply Forall_cons in Hl as [[Hi Hf] Hl].
  destruct (contig_take_step m k idx Hm Hi Hf) as [Hm1 Hu1].
  destruct (IH (contig_take m idx) (k + 1)) as [Hm2 Hu2]; [done|done| |].
  { rewrite Forall_forall in Hl |- *. intros x Hx. destruct (Hl x Hx) as [Hxr Hxf].
    split; [done|]. rewrite Hu1, Hxf by done. destruct (Z.eqb_spec x idx); [subst; done|done]. }
  split.
  - by replace (k + Z.of_nat (S (length l))) with (k + 1 + Z.of_nat (length l)) by lia.
  - intros j Hj. rewrite Hu2, Hu1 by done. rewrite <- orb_assoc. f_equal.
    destruct (Z.eqb_spec j idx) as [->|Hne]; simpl.
    + rewrite bool_decide_eq_true_2; [done|]. left.
    + apply bool_decide_ext. rewrite elem_of_cons. naive_solver.
Qed.

(** The run starting at hot page [base]. *)
Definition run_of (base pages : Z) : list Z := (fun i => base + i) <$> zrange (Z.to_nat pages).

Lemma elem_of_run base pages j : 0 <= pages -> j ∈ run_of base pages <-> base <= j < base + pages.
Proof.
  intros Hp. unfold run_of. rewrite list_elem_of_fmap. setoid_rewrite elem_of_zrange. split.
  - intros (i & -> & ?). lia.
  - intros ?. exists (j - base). lia.
Qed.

Definition contig_post (ok : Z -> bool) (m m' : mm) (pages a : Z) : Prop :=
  exists base, 0 <= base /\ base + pages <= HOT_ZONE_PAGES /\ base mod 64 = 0 /\
    a = HEAP_BASE + base * PAGE_SIZE /\ mm_ok m' /\
    forall j, 0 <= j < HOT_ZONE_PAGES ->
      (base <= j < base + pages ->
         page_used m j = false /\ page_used m' j = true /\ ok (HEAP_BASE + j * PAGE_SIZE) = true) /\
      (~ base <= j < base + pages -> page_used m' j = page_used m j).

Lemma contig_scan_post ok pages gs m m' a :
  mm_ok m -> 0 <= pages -> Forall (fun g => 0 <= g) gs ->
  contig_scan ok pages gs m = (m', Some a) -> contig_post ok m m' pages a.
Proof.
  intros Hm Hp. induction gs as [|g gs IH]; simpl; intros Hgs E; [done|].
  apply Forall_cons in Hgs as [Hg Hgs].
  destruct (Z.leb_spec (64 * g + pages) HOT_ZONE_PAGES) as [Hle|]; [|done].
  destruct (contig_ok ok m (64 * g) pages) eqn:Hok; [|by apply IH].
  injection E as <- <-. unfold contig_ok in Hok. rewrite forallb_forall in Hok.
  assert (Hfree : forall j, 64 * g <= j < 64 * g + pages ->
    page_used m j = false /\ ok (HEAP_BASE + j * PAGE_SIZE) = true).
  { intros j Hj. specialize (Hok (j - 64 * g)). rewrite <- list_elem_of_In, elem_of_zrange in Hok.
    specialize (Hok ltac:(lia)). replace (64 * g + (j - 64 * g)) with j in Hok by lia.
    apply andb_true_iff in Hok as [H1 H2]. split; [by apply negb_true_iff|done]. }
  fold (run_of (64 * g) pages).
  destruct (contig_fold (run_of (64 * g) pages) m 0) as [Hm' Hu].
  { by rewrite hot_count_0. }
  { apply NoDup_fmap_2; [intros ???; lia|apply NoDup_zrange]. }
  { apply Forall_forall. intros j Hj%elem_of_run; [|done]. split; [lia|]. by apply Hfree. }
  assert (Elen : 0 + Z.of_nat (length (run_of (64 * g) pages)) = pages).
  { unfold run_of. rewrite length_fmap, length_zrange. lia. }
  rewrite Elen in Hm'. exists (64 * g).
  split; [lia|]. split; [done|]. split; [by rewrite Z.mul_comm, Z.mod_mul|]. split; [done|].
  split; [done|]. intros j Hj. split.
  - intros Hin. destruct (Hfree j Hin). split; [done|]. split; [|done].
    change (page_used (foldl contig_take m (run_of (64 * g) pages)) j = true).
    rewrite Hu, bool_decide_eq_true_2; [by rewrite orb_true_r|by apply elem_of_run|done].
  - intros Hout.
    change (page_used (foldl contig_take m (run_of (64 * g) pages)) j = page_used m j).
    rewrite Hu, bool_decide_eq_false_2; [by rewrite orb_false_r| |done].
    rewrite elem_of_run by done. done.
Qed.

Lemma contig_scan_None ok pages gs m m' : contig_scan ok pages gs m = (m', None) -> m' = m.
Proof.
  induction gs as [|g gs IH]; simpl; [congruence|].
  destruct (_ <=? _); [|congruence]. destruct (contig_ok _ _ _ _); [done|]. done.
Qed.

(** ** Reachable states *)

Lemma zone_reset_ok base total :
  0 <= total -> zone_ok (zone_reset base total) base total.
Proof.
  intros Ht. repeat split; cbn.
  - rewrite length_replicate. pose proof (Z.div_pos total 64). lia.
  - apply Forall_replicate. lia.
  - by rewrite zsum_replicate0.
Qed.

Lemma mm_init_ok m : length (hot_free_cache m) = HOT_CACHE_SLOTS -> mm_ok (mm_init m).
Proof.
  intros Hlen. split; [by apply zone_reset_ok..|]. unfold cache_ok. cbn.
  split; [by rewrite length_fmap|]. split.
  - intros ci e He Hv. rewrite list_lookup_fmap in He.
    apply fmap_Some in He as (e0 & _ & ->). done.
  - intros ci cj e e' He _ Hv. rewrite list_lookup_fmap in He.
    apply fmap_Some in He as (e0 & _ & ->). done.
Qed.

Lemma mm_bss_ok : mm_ok mm_bss.
Proof.
  split; [by apply zone_reset_ok..|]. split; [done|]. split.
  - intros ci e He Hv. apply lookup_replicate in He as [-> _]. done.
  - intros ci cj e e' He _ Hv. apply lookup_replicate in He as [-> _]. done.
Qed.

Lemma pmalloc_ok_step ok m : mm_ok m -> mm_ok (pmalloc ok m).1.
Proof. intros Hm. by destruct (pmalloc_post ok m Hm). Qed.

Lemma pmalloc_n_ok ok n m : mm_ok m -> mm_ok (pmalloc_n ok n m).1.1.
Proof.
  revert m. induction n as [|n IH]; intros m Hm; simpl; [done|].
  pose proof (pmalloc_ok_step ok m Hm) as Hm1.
  destruct (pmalloc ok m) as [m1 [pa|]]; [|done]. cbn in Hm1.
  specialize (IH m1 Hm1). by destruct (pmalloc_n ok n m1) as [[m2 l] r].
Qed.

Lemma pmalloc_contig_ok ok pages m : mm_ok m -> mm_ok (pmalloc_contig ok pages m).1.
Proof.
  intros Hm. unfold pmalloc_contig. destruct (Z.leb_spec pages 1); [by apply pmalloc_ok_step|].
  destruct (contig_scan _ _ _ _) as [m' [a|]] eqn:E; cbn.
  - assert (Hgs : Forall (fun g => 0 <= g) (zrange (S (Z.to_nat NUM_PAGE_GROUPS)))).
    { apply Forall_forall. intros g Hg%elem_of_zrange. lia. }
    by destruct (contig_scan_post ok pages _ m m' a Hm ltac:(lia) Hgs E)
      as (? & ? & ? & ? & ? & ? & ?).
  - apply contig_scan_None in E. by subst.
Qed.

(** One call of an allocator entry point; freed addresses lie in the managed
    zones. *)
Inductive mm_step (m m' : mm) : Prop :=
  | step_init : m' = mm_init m -> mm_step m m'
  | step_pmalloc ok : m' = (pmalloc ok m).1 -> mm_step m m'
  | step_contig ok pages : m' = (pmalloc_contig ok pages m).1 -> mm_step m m'
  | step_pfree n addr :
      HEAP_BASE <= addr ->
      addr + Z.of_nat n * PAGE_SIZE <= BOOMERANG_BASE + BOOMERANG_PAGES * PAGE_SIZE ->
      pfree_run n addr m = Some m' -> mm_step m m'
  | step_mmap ok addr len : m' = (mmap_user ok addr len m).1 -> mm_step m m'
  | step_brk ok new_brk : m' = (brk_user ok new_brk m).1 -> mm_step m m'.

Lemma brk_user_ok ok new_brk m : mm_ok m -> mm_ok (brk_user ok new_brk m).1.
Proof.
  intros Hm. unfold brk_user.
  set (m0 := if user_brk m =? 0 then _ else _).
  assert (Hm0 : mm_ok m0) by (unfold m0; destruct (_ =? _); [destruct Hm; by split|done]).
  clearbody m0. destruct (new_brk =? 0); [done|].
  pose proof (pmalloc_n_ok ok (Z.to_nat (pages_of (new_brk - user_brk m0))) m0 Hm0) as Hn.
  destruct (user_brk m0 <? new_brk).
  - destruct (pmalloc_n _ _ _) as [[m1 l] [|]]; [|done]. destruct Hn; by split.
  - destruct Hm0; by split.
Qed.

Lemma mm_step_ok m m' : mm_ok m -> mm_step m m' -> mm_ok m'.
Proof.
  intros Hm [-> | ok -> | ok pages -> | n addr Ha Hend E | ok addr len -> | ok nb ->].
  - apply mm_init_ok. by destruct Hm as [_ _ _ (? & _)].
  - by apply pmalloc_ok_step.
  - by apply pmalloc_contig_ok.
  - destruct (pfree_run_managed n m addr Hm Ha Hend) as (m2 & E2 & Hm2). congruence.
  - unfold mmap_user. destruct (len =? 0); [done|].
    pose proof (pmalloc_n_ok ok (Z.to_nat (pages_of len)) m Hm) as Hn.
    by destruct (pmalloc_n _ _ _) as [[m1 l] r].
  - by apply brk_user_ok.
Qed.

(** * Properties *)

(** C1: In every state reachable from boot through the allocator's entry
    points, each zone's used_pages equals the number of set bits of its
    bitmap, every bitmap word is a 64-bit value, and every valid slot of the
    hot-page cache names a distinct page whose bitmap bit is clear. *)
Theorem mm_reachable_ok m : rtc mm_step (mm_init mm_bss) m -> mm_ok m.
Proof.
  intros Hr. remember (mm_init mm_bss) as m0 eqn:E.
  assert (Hm0 : mm_ok m0) by (subst; by apply mm_init_ok).
  clear E. induction Hr as [|m0 m1 m2 Hs _ IH]; [done|]. apply IH. by eapply mm_step_ok.
Qed.

Lemma mm_reachable_ok_witness :
  mm_ok (pmalloc (fun _ => true) (mm_init mm_bss)).1.
Proof.
  apply mm_reachable_ok. eapply rtc_l; [|apply rtc_refl].
  apply (step_pmalloc _ _ (fun _ => true)). reflexivity.
Defined.

(** C2: pmalloc never hands out a page twice: a returned address is a
    page-aligned hot-zone page that was free before the call and is taken
    after it, its identity address is not shadowed, and every page that was
    taken stays taken, so it differs from every live allocation. *)
Theorem pmalloc_fresh ok m m' pa :
  mm_ok m -> pmalloc ok m = (m', Some pa) ->
  ok pa = true /\ mm_ok m' /\
  (exists idx, 0 <= idx < HOT_ZONE_PAGES /\ pa = HEAP_BASE + idx * PAGE_SIZE /\
               page_used m idx = false /\ page_used m' idx = true) /\
  (forall j, 0 <= j < HOT_ZONE_PAGES -> page_used m j = true -> page_used m' j = true).
Proof.
  intros Hm E. destruct (pmalloc_post ok m Hm) as (Hok & Hex & Hr). rewrite E in *. cbn in *.
  destruct (Hr pa eq_refl) as [Hpa Hidx]. destruct Hex as [Hex _]. done.
Qed.

Lemma pmalloc_fresh_witness :
  let m := (pmalloc (fun _ => true) mm_bss).1 in
  (pmalloc (fun _ => true) m).2 = Some 0x801000 /\
  exists idx, 0x801000 = HEAP_BASE + idx * PAGE_SIZE /\ page_used m idx = false.
Proof.
  intros m. assert (E : pmalloc (fun _ => true) m = ((pmalloc (fun _ => true) m).1, Some 0x801000))
    by (vm_compute; reflexivity).
  split; [by rewrite E|].
  destruct (pmalloc_fresh (fun _ => true) m _ _ (pmalloc_ok_step _ _ mm_bss_ok) E)
    as (_ & _ & (idx & _ & Hpa & Hf & _) & _).
  exists idx. by split.
Defined.

(** When no page is shadowed, pmalloc returns NULL exactly when every page
    of the hot zone is taken; the failing call changes nothing. *)
Theorem pmalloc_null_iff_full m :
  mm_ok m ->
  ((pmalloc (fun _ => true) m).2 = None <-> used_pages (hot_zone m) = HOT_ZONE_PAGES) /\
  ((pmalloc (fun _ => true) m).2 = None -> (pmalloc (fun _ => true) m).1 = m).
Proof.
  intros Hm. rewrite <- full_words_iff by done. unfold pmalloc.
  destruct (pmalloc_cache _ _ m) as [m1 [pa|]] eqn:E.
  - cbn. split; [|done]. split; [done|]. intros Hfull.
    rewrite full_words_iff in Hfull by done. by rewrite (pmalloc_cache_full m) in E.
  - pose proof (pmalloc_cache_ok_None (zrange HOT_CACHE_SLOTS) m) as Em. rewrite E in Em.
    specialize (Em eq_refl). cbn in Em. subst m1. split; [apply pmalloc_scan_None|].
    generalize (zrange (Z.to_nat NUM_PAGE_GROUPS)). intros gs. clear.
    induction gs as [|g gs IH]; simpl; [done|]. by destruct (_ =? FULL).
Qed.

Lemma pmalloc_null_iff_full_witness :
  (pmalloc (fun _ => true) mm_bss).2 <> None.
Proof.
  intros E. apply (pmalloc_null_iff_full mm_bss mm_bss_ok) in E. vm_compute in E. discriminate E.
Defined.

(** Pfree of any address inside a hot page succeeds, leaves that page free
    and every other page as it was, lowers used_pages by one exactly when the
    page was taken (a second free of the same page changes no bit and no
    count), and keeps the allocator invariant. *)
Theorem pfree_hot_spec m addr :
  mm_ok m -> HEAP_BASE <= addr < WARM_BASE ->
  exists m', pfree addr m = Some m' /\ freed_post m m' ((addr - HEAP_BASE) / PAGE_SIZE).
Proof. exact (pfree_hot m addr). Qed.

Lemma pfree_hot_spec_witness :
  exists m', pfree 0x800123 (pmalloc (fun _ => true) mm_bss).1 = Some m' /\
             page_used m' 0 = false.
Proof.
  destruct (pfree_hot_spec (pmalloc (fun _ => true) mm_bss).1 0x800123)
    as (m' & E & _ & _ & _ & _ & _ & Hj).
  - by apply pmalloc_ok_step, mm_bss_ok.
  - vm_compute. split; [discriminate|reflexivity].
  - exists m'. split; [exact E|]. rewrite (Hj 0); [by rewrite andb_false_r|].
    vm_compute. split; [discriminate|reflexivity].
Defined.

(** Pmalloc_contig returns the start of a 64-page-aligned run lying inside
    the hot zone whose pages were all free and unshadowed; exactly these pages
    become taken, and the invariant holds afterwards, so no stale cache entry
    can hand one of them out again. *)
Theorem pmalloc_contig_run ok m m' pages a :
  mm_ok m -> 1 < pages -> pmalloc_contig ok pages m = (m', Some a) ->
  contig_post ok m m' pages a.
Proof.
  intros Hm Hp E. unfold pmalloc_contig in E. rewrite (proj2 (Z.leb_gt pages 1)) in E by lia.
  eapply contig_scan_post; [done|lia| |done]. apply Forall_forall.
  intros g Hg%elem_of_zrange. lia.
Qed.

Lemma contig_fold_zones l m : let m' := foldl contig_take m l in
  warm_zone m' = warm_zone m /\ boomerang_zone m' = boomerang_zone m /\ user_brk m' = user_brk m.
Proof. revert m. induction l as [|i l IH]; intros m; [done|]. exact (IH (contig_take m i)). Qed.

Lemma contig_scan_zones ok pages gs m : let m' := (contig_scan ok pages gs m).1 in
  warm_zone m' = warm_zone m /\ boomerang_zone m' = boomerang_zone m /\ user_brk m' = user_brk m.
Proof.
  induction gs as [|g gs IH]; [done|]. cbn [contig_scan]. destruct (_ <=? _); [|done]. destruct (contig_ok ok m _ _); [|exact IH].
  apply contig_fold_zones.
Qed.

(** Either way of [pmalloc_contig], one page or a run: what it gives was free,
    is taken now, and every page taken before still is. *)
Lemma pmalloc_contig_post ok pages m : mm_ok m -> 1 <= pages ->
  let '(m', r) := pmalloc_contig ok pages m in
  mm_ok m' /\ extends m m' /\ forall a, r = Some a -> exists base, 0 <= base /\ base + pages <= HOT_ZONE_PAGES /\ a = HEAP_BASE + base * PAGE_SIZE /\
    forall j, base <= j < base + pages -> page_used m j = false /\ page_used m' j = true.
Proof.
  intros Hm Hp. pose proof (pmalloc_contig_ok ok pages m Hm) as Hok. unfold pmalloc_contig in *. destruct (Z.leb_spec pages 1) as [H1|H1].
  - destruct (pmalloc_post ok m Hm) as (_ & Hex & Hr). destruct (pmalloc ok m) as [m' r]. cbn [fst snd] in *. split; [done|]. split; [done|].
    intros a ->. destruct (Hr a eq_refl) as (_ & i & Hi & -> & Hf & Hu). exists i. split; [lia|]. split; [lia|]. split; [done|].
    intros j Hj. by replace j with i by lia.
  - pose proof (contig_scan_zones ok pages (zrange (S (Z.to_nat NUM_PAGE_GROUPS))) m) as Hz.
    pose proof (fun m' a => contig_scan_post ok pages (zrange (S (Z.to_nat NUM_PAGE_GROUPS))) m m' a Hm ltac:(lia)) as Hpost.
    pose proof (contig_scan_None ok pages (zrange (S (Z.to_nat NUM_PAGE_GROUPS))) m) as Hnone.
    destruct (contig_scan _ _ _ m) as [m' [a|]]; cbn [fst] in *; (split; [done|]).
    + destruct (Hpost m' a) as (b & B1 & B2 & _ & B4 & _ & B6); [apply Forall_forall; intros g Hg%elem_of_zrange; lia|done|]. split.
      * split; [|done]. intros j Hj Hu. destruct (B6 j Hj) as [Hin Hout].
        destruct (decide (b <= j < b + pages)) as [H|H]; [by destruct (Hin H) as (_ & -> & _)|by rewrite (Hout H)].
      * intros a' [= <-]. exists b. split_and!; [done..|]. intros j Hj. destruct (B6 j ltac:(lia)) as [Hin _]. by destruct (Hin Hj) as (E1 & E2 & _).
    + rewrite (Hnone m' eq_refl). split; [apply extends_refl|done].
Qed.

(** One page taken, freed again (so it is cached), then an 8-page run. *)
Lemma pmalloc_contig_run_witness :
  exists m m', pfree 0x800000 (pmalloc (fun _ => true) mm_bss).1 = Some m /\
    pmalloc_contig (fun _ => true) 8 m = (m', Some 0x800000) /\ page_used m' 7 = true.
Proof.
  destruct (pfree_hot (pmalloc (fun _ => true) mm_bss).1 0x800000)
    as (m & E & Hm & _); [by apply pmalloc_ok_step, mm_bss_ok|vm_compute; split; [discriminate|reflexivity]|].
  assert (Ec : exists m', pmalloc_contig (fun _ => true) 8 m = (m', Some 0x800000)).
  { assert (E' : Some m = pfree 0x800000 (pmalloc (fun _ => true) mm_bss).1) by congruence.
    exists (pmalloc_contig (fun _ => true) 8 m).1. clear E Hm. revert E'.
    assert (Hc : forall o, o = pfree 0x800000 (pmalloc (fun _ => true) mm_bss).1 ->
      match o with Some m => (pmalloc_contig (fun _ => true) 8 m).2 = Some 0x800000
                 | None => False end) by (intros o ->; vm_compute; reflexivity).
    intros E'. specialize (Hc _ E'). cbv beta iota in Hc. rewrite <- Hc.
    by destruct (pmalloc_contig _ 8 m). }
  destruct Ec as [m' Ec]. exists m, m'. split; [exact E|]. split; [exact Ec|].
  destruct (pmalloc_contig_run _ m m' 8 0x800000 Hm ltac:(lia) Ec)
    as (base & Hb & _ & _ & Ha & _ & Hj).
  assert (base = 0) by (clear - Hb Ha; mm_consts; lia). subst base.
  destruct (Hj 7) as [Hin _]; [mm_consts; lia|]. apply Hin. lia.
Defined.

End Mm.
