(* ===== verification/Float32.v ===== *)
(** IEEE single precision, as [float] of the C code: the Standard Library's
    specification of floating point at 24 bits of precision. *)
From Stdlib Require Import SpecFloat.
From S2P Require Import Prelude.

Module F32.

Definition float := spec_float.
Definition prec : Z := 24.
Definition emax : Z := 128.

Definition f0 : float := S754_zero false.

(** [(float)n] for an unsigned integer. *)
Definition of_uint (n : Z) : float := binary_normalize prec emax n 0 false.
Definition fdiv : float -> float -> float := SFdiv prec emax.
Definition fmul : float -> float -> float := SFmul prec emax.
Definition feqb : float -> float -> bool := SFeqb.
Definition fltb : float -> float -> bool := SFltb.

(** [(uint64_t)f]: truncation toward zero ([f] non-negative and in range). *)
Definition to_uint64 (f : float) : Z :=
  match f with
  | S754_finite false m e => u64 (Z.shiftl (Zpos m) e)
  | _ => 0
  end.

(** The literal [p/q]f: the quotient of two small integers is rounded once, so
    it is the nearest single to the decimal literal. *)
Definition lit (p q : Z) : float := fdiv (of_uint p) (of_uint q).

Example lit_02 : lit 1 5 = S754_finite false 13421773 (-26).
Proof. vm_compute. reflexivity. Qed.
Example lit_07 : lit 7 10 = S754_finite false 11744051 (-24).
Proof. vm_compute. reflexivity. Qed.
Example half : to_uint64 (fmul (of_uint 7) (lit 5 2)) = 17.
Proof. vm_compute. reflexivity. Qed.
End F32.
