(* ===== verification/Power.v ===== *)
(** Power management (src/src/kernel/power/): frequency control (freq.c), the
    load-driven policy (policy.c), C-state tracking (cstate.c), and the load
    sample the scheduler feeds to the policy (sched.c). *)
From S2P Require Import Prelude Float32 Sched.

(** * freq.c *)
Module Freq.

Definition FREQ_MIN_KHZ : Z := 800000.
Definition FREQ_MAX_KHZ : Z := 3000000.
Definition FREQ_DEFAULT_KHZ : Z := 2000000.
Definition FREQ_SIM_KHZ : Z := 2000000.

(** The static variables, and the value last written to IA32_PERF_CTL. *)
Record freq := FreqSt {
  freq_current_khz : Z;
  freq_min_khz : Z;
  freq_max_khz : Z;
  sim_mode : bool;
  perf_ctl : option Z
}.
#[export] Instance eta_freq : Eta freq := fun f =>
  FreqSt (freq_current_khz f) (freq_min_khz f) (freq_max_khz f) (sim_mode f) (perf_ctl f).

Definition freq_bss : freq := FreqSt FREQ_DEFAULT_KHZ FREQ_MIN_KHZ FREQ_MAX_KHZ false None.

Definition absent_msr (v : Z) : bool := (v =? 0) || (v =? 2 ^ 64 - 1).

(** [status] and [mperf] are the values of IA32_PERF_STATUS and IA32_MPERF. *)
Definition freq_init (status mperf : Z) (f : freq) : freq :=
  let sim := sim_mode f || absent_msr status || absent_msr mperf in
  if sim then FreqSt FREQ_SIM_KHZ FREQ_MIN_KHZ FREQ_MAX_KHZ true (perf_ctl f)
  else
    let ratio := u32 (Z.land status 0xFFFF) in
    let hw_khz := u32 (ratio * 100000) in
    let hw_khz := if (hw_khz <? FREQ_MIN_KHZ) || (FREQ_MAX_KHZ <? hw_khz)
                  then FREQ_DEFAULT_KHZ else hw_khz in
    f <| freq_current_khz := hw_khz |>.

Definition freq_set (target_khz : Z) (f : freq) : freq :=
  let t := if target_khz <? FREQ_MIN_KHZ then FREQ_MIN_KHZ else target_khz in
  let t := if FREQ_MAX_KHZ <? t then FREQ_MAX_KHZ else t in
  if sim_mode f then f <| freq_current_khz := t |>
  else f <| perf_ctl := Some (u32 (t / 100000)) |> <| freq_current_khz := t |>.

Definition freq_get (f : freq) : Z := freq_current_khz f.
Definition freq_boost : freq -> freq := freq_set FREQ_MAX_KHZ.
Definition freq_drop : freq -> freq := freq_set FREQ_MIN_KHZ.

(** The frequency stays in the supported band, and on real hardware the ratio
    last programmed is that of a frequency in the band. *)
Definition freq_ok (f : freq) : Prop :=
  FREQ_MIN_KHZ <= freq_current_khz f <= FREQ_MAX_KHZ /\
  forall v, perf_ctl f = Some v -> 8 <= v <= 30.

Lemma freq_set_clamps t f :
  freq_current_khz (freq_set t f) = Z.max FREQ_MIN_KHZ (Z.min FREQ_MAX_KHZ t).
Proof.
  unfold freq_set, FREQ_MIN_KHZ, FREQ_MAX_KHZ. cbv zeta.
  destruct (Z.ltb_spec t 800000); destruct (sim_mode f); simpl;
    destruct (Z.ltb_spec 3000000 t); simpl; lia.
Qed.

Lemma freq_set_ok t f : freq_ok f -> freq_ok (freq_set t f).
Proof.
  intros [Hc Hp]. split; [rewrite freq_set_clamps; unfold FREQ_MIN_KHZ, FREQ_MAX_KHZ; lia|].
  intros v. unfold freq_set, FREQ_MIN_KHZ, FREQ_MAX_KHZ. cbv zeta.
  set (t1 := if t <? 800000 then 800000 else t). set (t2 := if 3000000 <? t1 then 3000000 else t1).
  assert (H : 800000 <= t2 <= 3000000).
  { unfold t2, t1. destruct (Z.ltb_spec t 800000); [simpl; lia|].
    destruct (Z.ltb_spec 3000000 t); lia. }
  destruct (sim_mode f); simpl; [apply Hp|]. intros [= <-].
  rewrite u32_small by (split; [apply Z.div_pos; lia|apply Z.div_lt_upper_bound; lia]).
  split; [apply Z.div_le_lower_bound|apply Z.div_le_upper_bound]; lia.
Qed.

Lemma freq_init_ok status mperf f : freq_ok f -> freq_ok (freq_init status mperf f).
Proof.
  intros [Hc Hp]. unfold freq_init. cbv zeta. destruct (_ || _ || _).
  { split; [simpl; unfold FREQ_SIM_KHZ, FREQ_MIN_KHZ, FREQ_MAX_KHZ; lia|done]. }
  split; [|done]. simpl. set (h := u32 _).
  destruct (Z.ltb_spec h FREQ_MIN_KHZ), (Z.ltb_spec FREQ_MAX_KHZ h); simpl;
    unfold FREQ_DEFAULT_KHZ, FREQ_MIN_KHZ, FREQ_MAX_KHZ in *; lia.
Qed.
End Freq.

(** * policy.c *)
Module Policy.

Inductive policy_t := POLICY_IDLE | POLICY_LIGHT | POLICY_BALANCED | POLICY_PERFORMANCE.
#[export] Instance policy_eq_dec : EqDecision policy_t.
Proof. solve_decision. Defined.

Definition POLICY_HYST_MS : Z := 100.

Record policy := PolicySt {
  current_policy : policy_t;
  last_switch_ms : Z;
  manual_mode : bool;
  last_load : F32.float;
  hw : Freq.freq
}.
#[export] Instance eta_policy : Eta policy := fun p =>
  PolicySt (current_policy p) (last_switch_ms p) (manual_mode p) (last_load p) (hw p).

Definition policy_init (p : policy) : policy :=
  PolicySt POLICY_BALANCED 0 false F32.f0 (hw p).

(** The policy the load asks for. *)
Definition target_of (load : F32.float) : policy_t :=
  if F32.feqb load F32.f0 then POLICY_IDLE
  else if F32.fltb load (F32.lit 1 5) then POLICY_LIGHT
  else if F32.fltb load (F32.lit 7 10) then POLICY_BALANCED
  else POLICY_PERFORMANCE.

Definition set_freq_for (t : policy_t) (f : Freq.freq) : Freq.freq :=
  match t with
  | POLICY_IDLE => Freq.freq_drop f
  | POLICY_PERFORMANCE => Freq.freq_boost f
  | POLICY_LIGHT | POLICY_BALANCED => Freq.freq_set Freq.FREQ_DEFAULT_KHZ f
  end.

(** [now1], [now2]: the two readings of [timer_ms()]. *)
Definition policy_apply (now1 now2 : Z) (load : F32.float) (p : policy) : policy :=
  let p := p <| last_load := load |> in
  if manual_mode p then p else
  let target := target_of load in
  if bool_decide (target = current_policy p) then p else
  if u64 (now1 - last_switch_ms p) <? POLICY_HYST_MS then p else
  p <| current_policy := target |> <| last_switch_ms := now2 |>
    <| hw := set_freq_for target (hw p) |>.

Definition policy_set_manual (now : Z) (t : policy_t) (p : policy) : policy :=
  p <| manual_mode := true |> <| current_policy := t |> <| last_switch_ms := now |>
    <| hw := set_freq_for t (hw p) |>.

Definition policy_get (p : policy) : policy_t := current_policy p.
Definition policy_get_load (p : policy) : F32.float := last_load p.
Definition policy_is_manual (p : policy) : Z := if manual_mode p then 1 else 0.

Lemma set_freq_for_ok t f : Freq.freq_ok f -> Freq.freq_ok (set_freq_for t f).
Proof. intros H. destruct t; by apply Freq.freq_set_ok. Qed.

(** The policy engine's steps. *)
Inductive policy_step : policy -> policy -> Prop :=
| step_apply p now1 now2 load : policy_step p (policy_apply now1 now2 load p)
| step_manual p now t : policy_step p (policy_set_manual now t p)
| step_init p : policy_step p (policy_init p)
| step_freq_init p status mperf :
    policy_step p (p <| hw := Freq.freq_init status mperf (hw p) |>).

Definition policy_bss : policy := PolicySt POLICY_IDLE 0 false F32.f0 Freq.freq_bss.

Lemma freq_bss_ok : Freq.freq_ok Freq.freq_bss.
Proof. split; [unfold Freq.FREQ_MIN_KHZ, Freq.FREQ_MAX_KHZ; simpl; unfold Freq.FREQ_DEFAULT_KHZ; lia|done]. Qed.

Lemma policy_step_ok p p' : policy_step p p' -> Freq.freq_ok (hw p) -> Freq.freq_ok (hw p').
Proof.
  intros [] H; [|by apply set_freq_for_ok|done|by apply Freq.freq_init_ok].
  unfold policy_apply. cbv zeta.
  change (manual_mode (p0 <| last_load := load |>)) with (manual_mode p0).
  destruct (manual_mode p0); [done|]. case_bool_decide; [done|].
  destruct (_ <? _); [done|]. by apply set_freq_for_ok.
Qed.

(** Whatever the load samples, timers and manual settings, every frequency
    the power subsystem selects is within 800 MHz and 3 GHz and every ratio it
    programs is one of that band. *)
Theorem frequency_in_band p :
  rtc policy_step policy_bss p ->
  Freq.FREQ_MIN_KHZ <= Freq.freq_get (hw p) <= Freq.FREQ_MAX_KHZ /\
  forall v, Freq.perf_ctl (hw p) = Some v -> 8 <= v <= 30.
Proof.
  intros Hr. change (Freq.freq_ok (hw p)).
  assert (H : forall p0, rtc policy_step p0 p -> Freq.freq_ok (hw p0) -> Freq.freq_ok (hw p)).
  { clear Hr. intros p0 Hr. induction Hr as [|x y z Hs _ IH]; [done|].
    intros H0. by apply IH, (policy_step_ok x y). }
  by apply (H _ Hr), freq_bss_ok.
Qed.

Lemma frequency_in_band_witness :
  Freq.FREQ_MIN_KHZ <= Freq.freq_get (hw (policy_apply 500 500 (F32.lit 1 1) policy_bss)) <= Freq.FREQ_MAX_KHZ.
Proof.
  destruct (frequency_in_band (policy_apply 500 500 (F32.lit 1 1) policy_bss)) as [H _].
  - apply rtc_once, step_apply.
  - exact H.
Defined.

(** Automatic switching has hysteresis and yields to manual mode: a load
    sample changes the policy only outside manual mode and at least 100 ms
    after the last switch, and then it selects the band the load is in, with
    that band's frequency. *)
Theorem policy_hysteresis now1 now2 load p :
  let p' := policy_apply now1 now2 load p in
  (current_policy p' <> current_policy p ->
     manual_mode p = false /\ POLICY_HYST_MS <= u64 (now1 - last_switch_ms p) /\
     current_policy p' = target_of load /\ last_switch_ms p' = now2 /\
     hw p' = set_freq_for (target_of load) (hw p)) /\
  (current_policy p' = current_policy p ->
     last_switch_ms p' = last_switch_ms p /\ hw p' = hw p) /\
  last_load p' = load /\ manual_mode p' = manual_mode p.
Proof.
  unfold policy_apply. cbv zeta.
  change (manual_mode (p <| last_load := load |>)) with (manual_mode p).
  change (current_policy (p <| last_load := load |>)) with (current_policy p).
  change (last_switch_ms (p <| last_load := load |>)) with (last_switch_ms p).
  destruct (manual_mode p) eqn:Em; [done|]. case_bool_decide as Et; [done|].
  destruct (Z.ltb_spec (u64 (now1 - last_switch_ms p)) POLICY_HYST_MS); [done|].
  simpl. split_and!; [done|intros E; by destruct Et|done|done].
Qed.

Lemma policy_hysteresis_witness :
  current_policy (policy_apply 500 500 (F32.lit 1 1) policy_bss) = POLICY_PERFORMANCE.
Proof.
  destruct (policy_hysteresis 500 500 (F32.lit 1 1) policy_bss) as [H _].
  apply H. vm_compute. discriminate.
Defined.
End Policy.

(** * cstate.c *)
Module Cstate.

Definition CSTATE_ACTIVE : Z := 0.
Definition CSTATE_C1E : Z := 1.
Definition CSTATE_DEEP : Z := 2.

(** The static variables; [wakeup_addr] NULL is [None]. *)
Record cstate := CstateSt { wakeup_addr : option Z; core_state : Z }.
#[export] Instance eta_cstate : Eta cstate := fun c => CstateSt (wakeup_addr c) (core_state c).

Definition cstate_init (c : cstate) : cstate := CstateSt None CSTATE_ACTIVE.
Definition cstate_set_wakeup_addr (a : option Z) (c : cstate) : cstate := c <| wakeup_addr := a |>.
Definition cstate_get_state (c : cstate) : Z := core_state c.

(** Entering a C-state: the state while the core sleeps in MWAIT, if it does,
    and the state once it is awake again. *)
Definition cstate_enter (st : Z) (c : cstate) : option cstate * cstate :=
  match wakeup_addr c with
  | None => (None, c)
  | Some _ => (Some (c <| core_state := st |>), c <| core_state := CSTATE_ACTIVE |>)
  end.
Definition cstate_enter_light : cstate -> option cstate * cstate := cstate_enter CSTATE_C1E.
Definition cstate_enter_deep : cstate -> option cstate * cstate := cstate_enter CSTATE_DEEP.
Definition cstate_enter_deep_with_wakeup (a : option Z) (c : cstate) : option cstate * cstate :=
  cstate_enter_deep (cstate_set_wakeup_addr a c).

(** A core never monitors address 0 and is ACTIVE whenever it executes. *)
Lemma cstate_enter_awake st c :
  core_state c = CSTATE_ACTIVE ->
  core_state (cstate_enter st c).2 = CSTATE_ACTIVE /\
  (wakeup_addr c = None -> (cstate_enter st c).1 = None) /\
  wakeup_addr (cstate_enter st c).2 = wakeup_addr c.
Proof. intros H. unfold cstate_enter. destruct (wakeup_addr c) eqn:E; simpl; split_and!; done. Qed.
End Cstate.

(** * sched_load_sample *)
Module Load.
Import Sched.

Definition sched_load_sample (now_ms : Z) (s : sched) : sched * F32.float :=
  if sched_total_ticks s =? 0 then (s, F32.f0) else
  let load := F32.fdiv (F32.of_uint (sched_active_ticks s)) (F32.of_uint (sched_total_ticks s)) in
  (if 100 <=? u64 (now_ms - sched_sample_start_ms s)
   then s <| sched_active_ticks := 0 |> <| sched_total_ticks := 0 |> <| sched_sample_start_ms := now_ms |>
   else s, load).
End Load.
