(* ===== verification/Compress.v ===== *)
(** Page compression (src/src/kernel/mm/compress.c), page hotness
    (mm/hotness.c) and the eviction pool built on them (mm/boomerang.c). *)
From S2P Require Import Prelude Float32 Memory.

(** * compress.c *)
Module Compress.

Definition PAGE_BYTES : nat := 4096.

Record compressed_page_t := CPage {
  base_page_ptr : Z;
  xor_data : list Z;
  valid_bytes : Z;
  original_addr : Z
}.

Record compress_stats_t := CStats {
  total_original : Z;
  total_compressed : Z;
  compress_count : Z
}.

(** The static variables of compress.c. *)
Record compress := CompressSt {
  base_pages : list (option Z);
  stats : compress_stats_t
}.
#[export] Instance eta_compress : Eta compress := fun c => CompressSt (base_pages c) (stats c).

Definition compress_init (c : compress) : compress :=
  CompressSt (replicate (length (base_pages c)) None) (CStats 0 0 0).

Definition MAX_TASKS : Z := 64.

(** A negative [task_id] passes the code's check; the store then lands before
    the array, which is undefined: [None]. *)
Definition compress_set_base (task_id : Z) (page_addr : option Z) (c : compress) : option compress :=
  if MAX_TASKS <=? task_id then Some c
  else if task_id <? 0 then None
  else Some (c <| base_pages := aset (base_pages c) task_id page_addr |>).

(** The loop of [compress_xor]: the XOR bytes and the last non-zero index. *)
Definition xor_bytes (src base : list Z) : list Z := zip_with Z.lxor src base.
Definition last_nonzero (xord : list Z) : Z :=
  foldl (fun last i => if aget xord i =? 0 then last else i) 0 (zrange PAGE_BYTES).

(** [src] and [base] are the bytes of the pages at [src_addr] and [base_addr]. *)
Definition compress_xor (src_addr base_addr : Z) (src base : list Z) (c : compress)
    : compress * compressed_page_t * Z :=
  let xord := xor_bytes src base in
  let valid := last_nonzero xord + 1 in
  let s := stats c in
  (c <| stats := CStats (u64 (total_original s + 4096)) (u64 (total_compressed s + valid))
                   (u32 (compress_count s + 1)) |>,
   CPage base_addr xord valid (u32 src_addr), valid).

(** The destination page, whatever it held. *)
Definition decompress_xor (src : compressed_page_t) (base : list Z) : list Z :=
  let valid := Z.to_nat (valid_bytes src) in
  zip_with Z.lxor (take valid (xor_data src)) (take valid base) ++
  drop valid (take PAGE_BYTES base).

Definition compress_ratio (c : compress) : F32.float :=
  if total_compressed (stats c) =? 0 then F32.f0
  else F32.fdiv (F32.of_uint (total_original (stats c))) (F32.of_uint (total_compressed (stats c))).

Definition compress_get_stats (c : compress) : compress_stats_t := stats c.

(** ** Lemmas *)
Lemma last_nonzero_prefix xord n :
  (n <= PAGE_BYTES)%nat ->
  let last := foldl (fun last i => if aget xord i =? 0 then last else i) 0 (zrange n) in
  0 <= last /\ (last = 0 \/ last < Z.of_nat n) /\
  forall i, last < i < Z.of_nat n -> aget xord i = 0.
Proof.
  induction n as [|n IH]; intros Hn; cbv zeta.
  { simpl. split_and!; [done|by left|lia]. }
  rewrite zrange_S, foldl_app. simpl. destruct IH as (H0 & H1 & H2); [lia|].
  set (last := foldl _ 0 (zrange n)) in *.
  destruct (Z.eqb_spec (aget xord (Z.of_nat n)) 0) as [E|E].
  - split_and!; [done|lia|]. intros i Hi. destruct (decide (i = Z.of_nat n)) as [->|]; [done|].
    apply H2. lia.
  - split_and!; [lia|lia|]. intros i Hi. lia.
Qed.

Lemma last_nonzero_spec xord :
  0 <= last_nonzero xord < 4096 /\
  forall i, last_nonzero xord < i < 4096 -> aget xord i = 0.
Proof.
  destruct (last_nonzero_prefix xord PAGE_BYTES (le_n _)) as (H0 & H1 & H2).
  split; [|exact H2]. unfold last_nonzero. change (Z.of_nat PAGE_BYTES) with 4096 in H1. lia.
Qed.

Lemma lxor_cancel (src base : list Z) :
  length src = length base -> zip_with Z.lxor (xor_bytes src base) base = src.
Proof.
  revert base. induction src as [|x src IH]; intros [|y base] Hl; try done.
  simpl. rewrite Z.lxor_assoc, Z.lxor_nilpotent, Z.lxor_0_r. f_equal. apply IH. by injection Hl.
Qed.

Lemma zip_with_take {A B C} (f : A -> B -> C) n l k :
  zip_with f (take n l) (take n k) = take n (zip_with f l k).
Proof. revert l k. induction n as [|n IH]; intros [|x l] [|y k]; simpl; [done..|]. by rewrite IH. Qed.

(** Bytes past the last difference are those of the base page. *)
Lemma xor_zero_tail (src base : list Z) n :
  length src = length base ->
  (forall i, Z.of_nat n <= i < Z.of_nat (length src) -> aget (xor_bytes src base) i = 0) ->
  drop n src = drop n base.
Proof.
  intros Hl Hz. apply list_eq. intros i. rewrite !lookup_drop.
  destruct (decide (n + i < length src)%nat) as [Hi|Hi].
  2: { rewrite !lookup_ge_None_2; [done|lia|lia]. }
  assert (Hz' := Hz (Z.of_nat (n + i)) ltac:(lia)).
  destruct (lookup_lt_is_Some_2 src (n + i) Hi) as [x Hx].
  destruct (lookup_lt_is_Some_2 base (n + i) ltac:(lia)) as [y Hy].
  unfold aget in Hz'. rewrite Nat2Z.id in Hz'. rewrite Hx, Hy. f_equal.
  unfold xor_bytes in Hz'. erewrite list_lookup_total_correct in Hz'; [by apply Z.lxor_eq|].
  apply lookup_zip_with_Some. eauto.
Qed.

(** C7: Decompression inverts compression: for every source and base page the
    XOR difference truncated after its last non-zero byte restores the source,
    and between 1 and 4096 bytes are kept. *)
Theorem decompress_compress sa ba src base c :
  length src = PAGE_BYTES -> length base = PAGE_BYTES ->
  let '(_, cp, n) := compress_xor sa ba src base c in
  decompress_xor cp base = src /\ n = valid_bytes cp /\ 1 <= n <= 4096 /\
  forall i, n <= i < 4096 -> aget (xor_data cp) i = 0.
Proof.
  intros Hs Hb. unfold compress_xor. cbv zeta. unfold decompress_xor.
  cbn [xor_data valid_bytes]. set (xord := xor_bytes src base).
  destruct (last_nonzero_spec xord) as [Hr Hz].
  split_and!; [|done|lia|lia|intros i Hi; apply Hz; lia].
  rewrite zip_with_take. unfold xord at 2. rewrite lxor_cancel by congruence.
  rewrite (take_ge base) by lia.
  rewrite <- (xor_zero_tail src base); [apply take_drop|congruence|].
  intros i Hi. apply Hz. rewrite Hs in Hi. change (Z.of_nat PAGE_BYTES) with 4096 in Hi. lia.
Qed.

Definition compress_bss : compress := CompressSt (replicate 64 None) (CStats 0 0 0).
Definition ex_page : list Z := replicate 10 7 ++ [200; 255] ++ replicate 4084 0.

Lemma decompress_compress_witness :
  (compress_xor 0x900000 0 ex_page (replicate PAGE_BYTES 0) compress_bss).2 = 12 /\
  decompress_xor (compress_xor 0x900000 0 ex_page (replicate PAGE_BYTES 0) compress_bss).1.2
    (replicate PAGE_BYTES 0) = ex_page.
Proof.
  split; [vm_compute; reflexivity|].
  apply (decompress_compress 0x900000 0 ex_page (replicate PAGE_BYTES 0) compress_bss);
    vm_compute; reflexivity.
Defined.
End Compress.

(** * hotness.c *)
Module Hotness.

Definition HOTNESS_WORDS : nat := 256.

(** [static uint64_t hotness[HOTNESS_WORDS]]: sixteen 4-bit counters a word. *)
Definition hotness := list Z.

Definition hotness_init (h : hotness) : hotness := replicate HOTNESS_WORDS 0.

Definition hotness_get (group_idx : Z) (h : hotness) : Z :=
  let word := group_idx / 16 in
  let shift := (group_idx mod 16) * 4 in
  u8 (Z.land (Z.shiftr (aget h word) shift) 0xF).

Definition hotness_age (h : hotness) : hotness :=
  (fun w => Z.land (Z.shiftr w 1) 0x7777777777777777) <$> h.

Lemma mask7_bit i : 0 <= i < 64 -> Z.testbit 0x7777777777777777 i = negb (i mod 4 =? 3).
Proof.
  intros Hi. assert (Hin : i ∈ zrange 64) by (by apply elem_of_zrange).
  revert i Hin Hi. assert (HF : Forall (fun i => Z.testbit 0x7777777777777777 i = negb (i mod 4 =? 3)) (zrange 64)).
  { vm_compute. repeat constructor. }
  rewrite Forall_forall in HF. auto.
Qed.

Lemma land15 x : Z.land x 15 = x mod 16.
Proof. change 15 with (Z.ones 4). by rewrite Z.land_ones. Qed.

(** One nibble of an aged word. *)
Lemma age_nibble w k :
  0 <= k < 16 ->
  Z.land (Z.shiftr (Z.land (Z.shiftr w 1) 0x7777777777777777) (k * 4)) 15 =
  Z.land (Z.shiftr w (k * 4)) 15 / 2.
Proof.
  intros Hk. rewrite <- Z.div2_div, Z.div2_spec. apply Z.bits_inj'. intros n Hn.
  change 15 with (Z.ones 4).
  rewrite Z.land_spec, Z.shiftr_spec, Z.land_spec, Z.shiftr_spec, Z.shiftr_spec, Z.land_spec,
    Z.shiftr_spec by lia.
  destruct (Z_lt_le_dec n 4) as [Hlt|Hge].
  - rewrite (Z.ones_spec_low 4 n) by lia. rewrite andb_true_r.
    rewrite mask7_bit by lia.
    replace ((n + k * 4) mod 4) with n.
    2: { rewrite Z_mod_plus_full. symmetry. by apply Z.mod_small. }
    destruct (Z.eqb_spec n 3) as [->|Hne]; simpl negb.
    + rewrite andb_false_r. rewrite Z.ones_spec_high by lia. by rewrite andb_false_r.
    + rewrite andb_true_r. rewrite Z.ones_spec_low by lia. rewrite andb_true_r. f_equal. lia.
  - rewrite (Z.ones_spec_high 4 n), (Z.ones_spec_high 4 (n + 1)) by lia. by rewrite !andb_false_r.
Qed.

(** Ageing halves the 4-bit hotness of every page group at once: the
    masked word shift never leaks a bit from one counter into its neighbour. *)
Theorem hotness_age_halves h g :
  length h = HOTNESS_WORDS -> 0 <= g < 4096 ->
  hotness_get g (hotness_age h) = hotness_get g h / 2 /\ 0 <= hotness_get g h <= 15.
Proof.
  intros Hl Hg. unfold hotness_get, hotness_age. cbv zeta.
  pose proof (Z.mod_pos_bound g 16 ltac:(lia)) as Hm.
  rewrite aget_fmap.
  2: { rewrite Hl. unfold HOTNESS_WORDS. split; [apply Z.div_pos; lia|apply Z.div_lt_upper_bound; lia]. }
  rewrite age_nibble by done. set (x := Z.land _ 15).
  assert (Hx : 0 <= x <= 15).
  { unfold x. rewrite land15. pose proof (Z.mod_pos_bound (Z.shiftr (aget h (g / 16)) (g mod 16 * 4)) 16 ltac:(lia)). lia. }
  assert (0 <= x / 2 <= 15).
  { split; [apply Z.div_pos; lia|]. apply Z.div_le_upper_bound; lia. }
  rewrite !u8_small by lia. done.
Qed.

Lemma hotness_age_halves_witness :
  hotness_get 17 (hotness_age (replicate 256 0xFFFF)) = 7.
Proof.
  destruct (hotness_age_halves (replicate 256 0xFFFF) 17) as [-> _];
    [reflexivity|lia|vm_compute; reflexivity].
Defined.
End Hotness.
