(* ===== verification/Boomerang.v ===== *)
(** The eviction pool (src/src/kernel/mm/boomerang.c): cold hot-zone pages are
    compressed into slots of the warm and boomerang zones and restored on
    demand. *)
From S2P Require Import Prelude Float32 Memory Compress.

Module Boomerang.
Import Mm Compress.

Definition DATA_OFFSET : Z := 32.
Definition MAX_DATA : Z := PAGE_SIZE - DATA_OFFSET.

Record boomerang_entry_t := Entry {
  e_original_addr : Z;
  e_valid_bytes : Z;
  e_base_page : Z;
  e_timestamp : Z;
  e_in_boomerang : bool;
  e_used : bool
}.
#[export] Instance eta_bentry : Eta boomerang_entry_t := fun e =>
  Entry (e_original_addr e) (e_valid_bytes e) (e_base_page e) (e_timestamp e)
    (e_in_boomerang e) (e_used e).

(** The two zones that hold compressed pages. *)
Inductive pool := Warm | Boom.
#[export] Instance pool_eq_dec : EqDecision pool.
Proof. solve_decision. Defined.

(** A zone page seen as the entry at its start and the bytes behind it. *)
Record slot_mem := Slot { entry : boomerang_entry_t; data : list Z }.

(** The state the functions share: the allocator, the compressor, the hotness
    words, the pool pages and the hot-zone and kernel pages by address. *)
Record boom := BoomSt {
  b_mm : mm;
  b_cmp : compress;
  b_hot : Hotness.hotness;
  b_slots : pool -> Z -> slot_mem;
  b_phys : Z -> list Z
}.
#[export] Instance eta_boom : Eta boom := fun b =>
  BoomSt (b_mm b) (b_cmp b) (b_hot b) (b_slots b) (b_phys b).

Definition pool_zone (z : pool) (m : mm) : zone_t :=
  match z with Warm => warm_zone m | Boom => boomerang_zone m end.
Definition set_pool_zone (z : pool) (x : zone_t) (m : mm) : mm :=
  match z with Warm => m <| warm_zone := x |> | Boom => m <| boomerang_zone := x |> end.
Definition pool_pages (z : pool) : Z :=
  match z with Warm => WARM_ZONE_PAGES | Boom => BOOMERANG_PAGES end.

Definition set_slot (z : pool) (i : Z) (s : slot_mem) (b : boom) : boom :=
  b <| b_slots := fun z' j => if decide (z' = z /\ j = i) then s else b_slots b z' j |>.
Definition set_page (a : Z) (bytes : list Z) (b : boom) : boom :=
  b <| b_phys := fun a' => if a' =? a then bytes else b_phys b a' |>.

(** The 4096 bytes at [a], which may straddle two pages. *)
Definition read_page (a : Z) (b : boom) : list Z :=
  let off := Z.to_nat (a mod PAGE_SIZE) in
  drop off (b_phys b (a - a mod PAGE_SIZE)) ++
  take off (b_phys b (a - a mod PAGE_SIZE + PAGE_SIZE)).

Definition find_free_slot (z : zone_t) : option Z :=
  match find_index (fun w => negb (w =? FULL)) (bitmap z) with
  | Some g => Some (Z.of_nat g * 64 + ctz_not (aget (bitmap z) (Z.of_nat g)))
  | None => None
  end.

(** The first pool with a free slot, warm before boomerang. *)
Definition choose_dest (b : boom) : option (pool * Z) :=
  match find_free_slot (warm_zone (b_mm b)) with
  | Some s => Some (Warm, s)
  | None =>
      match find_free_slot (boomerang_zone (b_mm b)) with
      | Some s => Some (Boom, s)
      | None => None
      end
  end.

Definition update_compressed_equiv (z : pool) (b : boom) : boom :=
  let zn := pool_zone z (b_mm b) in
  let ratio := compress_ratio (b_cmp b) in
  let v := if F32.fltb F32.f0 ratio
           then F32.to_uint64 (F32.fmul (F32.of_uint (used_pages zn)) ratio)
           else u64 (used_pages zn * 5) / 2 in
  b <| b_mm := set_pool_zone z (zn <| compressed_equiv := v |>) (b_mm b) |>.

Section Boomerang.
  (** Addresses of [zero_page] and [paddr_linear_ok] under the page table. *)
  Variable zero_page : Z.
  Variable ok : Z -> bool.

(** Compress the page at [addr] into slot [s] of pool [z] and mark the slot:
    the part [boomerang_evict_cold] and [boomerang_manual_compress] share. *)
Definition store_page (z : pool) (s addr now : Z) (b : boom) : boom :=
    let '(c, cp, valid) := compress_xor addr zero_page (read_page addr b) (b_phys b zero_page) (b_cmp b) in
    let n := if MAX_DATA <? valid then MAX_DATA else valid in
    let old := b_slots b z s in
    let new := Slot (Entry (u32 addr) (u32 n) zero_page now (bool_decide (z = Boom)) true)
                 (take (Z.to_nat n) (xor_data cp) ++ drop (Z.to_nat n) (data old)) in
    let b1 := set_slot z s new (b <| b_cmp := c |>) in
    let zn := pool_zone z (b_mm b1) in
    b1 <| b_mm := set_pool_zone z
            (zn <| bitmap := aset (bitmap zn) (s / 64) (bit_set (aget (bitmap zn) (s / 64)) (s mod 64)) |>
                <| used_pages := u64 (used_pages zn + 1) |>) (b_mm b1) |>.

(** Then the hot page is released and the statistics are updated. *)
Definition evict_to (z : pool) (s addr now : Z) (b : boom) : option boom :=
    let b1 := store_page z s addr now b in
    m ← pfree addr (b_mm b1);
    Some (update_compressed_equiv z (b1 <| b_mm := m |>)).

(** The eviction loop from page [i] on; [clock i] is the timer when page [i]
    is evicted. *)
Fixpoint evict_loop (clock : Z -> Z) (is_ : list Z) (b : boom) (evicted : Z) : option (boom * Z) :=
    match is_ with
    | [] => Some (b, evicted)
    | i :: is' =>
        let g := i / 64 in
        if negb (hot_test (b_mm b) g (i mod 64)) then evict_loop clock is' b evicted
        else if 2 <=? Hotness.hotness_get g (b_hot b) then evict_loop clock is' b evicted
        else
          match choose_dest b with
          | None => Some (b, evicted)
          | Some (z, s) =>
              b1 ← evict_to z s (HEAP_BASE + i * PAGE_SIZE) (clock i) b;
              evict_loop clock is' b1 (evicted + 1)
          end
    end.

Definition boomerang_evict_cold (clock : Z -> Z) (b : boom) : option (boom * Z) :=
    evict_loop clock (zrange (Z.to_nat HOT_ZONE_PAGES)) b 0.

(** The first slot of a pool whose entry is in use for [target]. *)
Definition slot_matches (target : Z) (b : boom) (z : pool) (i : Z) : bool :=
    e_used (entry (b_slots b z i)) && (e_original_addr (entry (b_slots b z i)) =? target).
Fixpoint first_from (p : Z -> bool) (n : nat) (i : Z) : option Z :=
    match n with
    | O => None
    | S n' => if p i then Some i else first_from p n' (i + 1)
    end.
Definition find_entry (target : Z) (b : boom) : option (pool * Z) :=
    match first_from (slot_matches target b Warm) (Z.to_nat WARM_ZONE_PAGES) 0 with
    | Some i => Some (Warm, i)
    | None =>
        match first_from (slot_matches target b Boom) (Z.to_nat BOOMERANG_PAGES) 0 with
        | Some i => Some (Boom, i)
        | None => None
        end
    end.

(** [pmalloc], and once more after evicting cold pages. *)
Definition alloc_or_evict (clock : Z -> Z) (b : boom) : option (boom * option Z) :=
    match pmalloc ok (b_mm b) with
    | (m, Some p) => Some (b <| b_mm := m |>, Some p)
    | (m, None) =>
        '(b1, _) ← boomerang_evict_cold clock (b <| b_mm := m |>);
        let '(m1, r) := pmalloc ok (b_mm b1) in
        Some (b1 <| b_mm := m1 |>, r)
    end.

(** The entry and its data are read again after the allocation, as the code
    does. [None]: an entry of more than 4064 valid bytes is copied past its
    page. *)
Definition boomerang_restore (clock : Z -> Z) (addr : Z) (b : boom) : option (boom * option Z) :=
    match find_entry (u32 addr) b with
    | None => Some (b, None)
    | Some (z, s) =>
        '(b1, r) ← alloc_or_evict clock b;
        match r with
        | None => Some (b1, None)
        | Some hot_page =>
            let sl := b_slots b1 z s in
            let e := entry sl in
            if MAX_DATA <? e_valid_bytes e then None else
            let cp := CPage (e_base_page e) (take (Z.to_nat (e_valid_bytes e)) (data sl))
                        (e_valid_bytes e) (e_original_addr e) in
            let b2 := set_page hot_page (decompress_xor cp (b_phys b1 (e_base_page e))) b1 in
            m ← pfree (base_addr (pool_zone z (b_mm b2)) + s * PAGE_SIZE) (b_mm b2);
            let b3 := update_compressed_equiv z (b2 <| b_mm := m |>) in
            Some (set_slot z s (Slot (e <| e_used := false |>) (data sl)) b3, Some hot_page)
        end
    end.

(** The entries in use, and the fixed estimate of what they stand for. *)
Fixpoint count_used (f : Z -> slot_mem) (n : nat) (i acc : Z) : Z :=
    match n with
    | O => acc
    | S n' => count_used f n' (i + 1) (if e_used (entry (f i)) then acc + 1 else acc)
    end.
Definition boomerang_stats (b : boom) : Z * Z * Z * Z :=
    let w := count_used (b_slots b Warm) (Z.to_nat WARM_ZONE_PAGES) 0 0 in
    let o := count_used (b_slots b Boom) (Z.to_nat BOOMERANG_PAGES) 0 0 in
    (w, o, w * 5 / 2, o * 5 / 2).

(** The message [boomerang_manual_compress] prints. *)
Inductive report := NotInHotZone | NotAllocated | TooHot | NoFreeSlots | Evicted.

Definition boomerang_manual_compress (now addr : Z) (b : boom) : option (boom * report) :=
    let page_idx := u64 (addr - HEAP_BASE) / PAGE_SIZE in
    if HOT_ZONE_PAGES <=? page_idx then Some (b, NotInHotZone)
    else
      let g := page_idx / 64 in
      if negb (hot_test (b_mm b) g (page_idx mod 64)) then Some (b, NotAllocated)
      else if 2 <=? Hotness.hotness_get g (b_hot b) then Some (b, TooHot)
      else
        match choose_dest b with
        | None => Some (b, NoFreeSlots)
        | Some (z, s) => b1 ← evict_to z s addr now b; Some (b1, Evicted)
        end.
End Boomerang.

(** ** Lemmas *)

(** The pools' pages and the pages of memory have their sizes. *)
Record boom_ok (b : boom) : Prop := {
  bo_mm : mm_ok (b_mm b);
  bo_slots : forall z i, Z.of_nat (length (data (b_slots b z i))) = MAX_DATA;
  bo_phys : forall a, length (b_phys b a) = PAGE_BYTES
}.

Lemma pool_zone_ok z m :
  mm_ok m -> exists base, zone_ok (pool_zone z m) base (pool_pages z) /\
    (HEAP_BASE <= base /\ base + pool_pages z * PAGE_SIZE <= BOOMERANG_BASE + BOOMERANG_PAGES * PAGE_SIZE).
Proof.
  intros [_ Hw Hb _]. destruct z; [exists WARM_BASE|exists BOOMERANG_BASE];
    (split; [done|vm_compute; split; discriminate]).
Qed.

Lemma set_pool_zone_ok z x m :
  mm_ok m -> (forall base, zone_ok (pool_zone z m) base (pool_pages z) -> zone_ok x base (pool_pages z)) ->
  mm_ok (set_pool_zone z x m).
Proof. intros [Hh Hw Hb Hc] Hx. destruct z; constructor; try done; by apply Hx. Qed.

Lemma pool_total z : 0 <= pool_pages z < 2 ^ 60.
Proof. destruct z; vm_compute; split; discriminate || reflexivity. Qed.

Lemma find_free_slot_spec z base total s :
  zone_ok z base total -> find_free_slot z = Some s ->
  0 <= s < 64 * (total / 64) /\ 0 <= s / 64 < total / 64 /\ 0 <= s mod 64 < 64 /\
  Z.testbit (aget (bitmap z) (s / 64)) (s mod 64) = false.
Proof.
  intros (_ & _ & Hlen & HF & _). unfold find_free_slot.
  destruct (find_index _ _) as [g|] eqn:Hf; [|done]. intros [= <-].
  apply find_index_Some in Hf as (w & Hw & Hp & _).
  pose proof (lookup_lt_Some _ _ _ Hw) as Hg.
  assert (E : aget (bitmap z) (Z.of_nat g) = w).
  { unfold aget. rewrite Nat2Z.id. by apply list_lookup_total_correct. }
  rewrite E. rewrite Forall_forall in HF. assert (Hr : 0 <= w < 2 ^ 64) by (by apply HF, list_elem_of_lookup_2 with g).
  destruct (ctz_not_spec w Hr) as (Hc & Hb & _).
  { intros ->. by rewrite Z.eqb_refl in Hp. }
  destruct (group_bit_idx (Z.of_nat g) (ctz_not w) Hc) as [-> ->].
  rewrite E. split_and!; (done || lia).
Qed.

Lemma choose_dest_spec b z s :
  mm_ok (b_mm b) -> choose_dest b = Some (z, s) ->
  find_free_slot (pool_zone z (b_mm b)) = Some s /\ 0 <= s < pool_pages z.
Proof.
  intros Hm. unfold choose_dest. destruct Hm as [_ Hw Hb _].
  destruct (find_free_slot (warm_zone (b_mm b))) as [s'|] eqn:E1.
  { intros [= <- <-]. split; [done|]. destruct (find_free_slot_spec _ _ _ _ Hw E1) as [H _]. exact H. }
  destruct (find_free_slot (boomerang_zone (b_mm b))) as [s'|] eqn:E2; [|done].
  intros [= <- <-]. split; [done|]. destruct (find_free_slot_spec _ _ _ _ Hb E2) as [H _]. exact H.
Qed.

Lemma update_compressed_equiv_ok z b : mm_ok (b_mm b) -> mm_ok (b_mm (update_compressed_equiv z b)).
Proof.
  intros Hm. unfold update_compressed_equiv. cbv zeta.
  change (b_mm (b <| b_mm := ?m |>)) with m. apply set_pool_zone_ok; [done|]. by intros base.
Qed.

Lemma first_from_unique p n i s :
    i <= s < i + Z.of_nat n -> (forall j, i <= j < i + Z.of_nat n -> p j = bool_decide (j = s)) ->
    first_from p n i = Some s.
  Proof.
    revert i. induction n as [|n IH]; intros i Hs Hp; [lia|]. simpl.
    rewrite (Hp i) by lia. case_bool_decide as E; [by rewrite E|].
    apply IH; [lia|]. intros j Hj. apply Hp. lia.
  Qed.

Lemma first_from_none p n i :
    (forall j, i <= j < i + Z.of_nat n -> p j = false) -> first_from p n i = None.
  Proof.
    revert i. induction n as [|n IH]; intros i Hp; [done|]. simpl. rewrite (Hp i) by lia.
    apply IH. intros j Hj. apply Hp. lia.
  Qed.

Lemma find_entry_unique target b z s :
    0 <= s < pool_pages z ->
    (forall z' i, 0 <= i < pool_pages z' ->
       slot_matches target b z' i = bool_decide (z' = z /\ i = s)) ->
    find_entry target b = Some (z, s).
  Proof.
    intros Hs Hm. pose proof (pool_total Warm) as HW. pose proof (pool_total Boom) as HB.
    unfold find_entry. change WARM_ZONE_PAGES with (pool_pages Warm).
    change BOOMERANG_PAGES with (pool_pages Boom).
    destruct z.
    - rewrite (first_from_unique _ _ _ s); [done|lia|]. intros j Hj. rewrite Hm by lia.
      apply bool_decide_ext. naive_solver.
    - rewrite (first_from_none _ (Z.to_nat (pool_pages Warm))).
      2: { intros j Hj. rewrite Hm by lia. apply bool_decide_eq_false. naive_solver. }
      rewrite (first_from_unique _ _ _ s); [done|lia|]. intros j Hj. rewrite Hm by lia.
      apply bool_decide_ext. naive_solver.
  Qed.

Section Proofs.
  Variable zero_page : Z.
  Variable ok : Z -> bool.

Lemma store_page_mm z s addr now b :
    mm_ok (b_mm b) -> find_free_slot (pool_zone z (b_mm b)) = Some s ->
    mm_ok (b_mm (store_page zero_page z s addr now b)).
  Proof.
    intros Hm Hs. unfold store_page. destruct (compress_xor _ _ _ _ _) as [[c cp] valid]. cbv zeta.
    apply (set_pool_zone_ok z _ (b_mm b) Hm). intros base Hz.
    destruct (find_free_slot_spec _ _ _ _ Hz Hs) as (_ & Hg & Hb & Hf).
    by apply zone_mark_ok; [|apply pool_total|..].
  Qed.

(** The slot [store_page] fills. *)
Lemma store_page_slot z s addr now b z' i :
    b_slots (store_page zero_page z s addr now b) z' i =
    if decide (z' = z /\ i = s) then
      let '(_, cp, valid) := compress_xor addr zero_page (read_page addr b) (b_phys b zero_page) (b_cmp b) in
      let n := if MAX_DATA <? valid then MAX_DATA else valid in
      Slot (Entry (u32 addr) (u32 n) zero_page now (bool_decide (z = Boom)) true)
        (take (Z.to_nat n) (xor_data cp) ++ drop (Z.to_nat n) (data (b_slots b z s)))
    else b_slots b z' i.
  Proof. unfold store_page. by destruct (compress_xor _ _ _ _ _) as [[c cp] valid]. Qed.

Lemma store_page_phys z s addr now b a :
    b_phys (store_page zero_page z s addr now b) a = b_phys b a.
  Proof. unfold store_page. by destruct (compress_xor _ _ _ _ _) as [[c cp] valid]. Qed.

(** An eviction succeeds, keeps the allocator's invariant, and leaves slot
    memory and page contents as [store_page] made them. *)
Lemma evict_to_spec z s addr now b :
    mm_ok (b_mm b) -> find_free_slot (pool_zone z (b_mm b)) = Some s ->
    HEAP_BASE <= addr < WARM_BASE ->
    exists b1, evict_to zero_page z s addr now b = Some b1 /\ mm_ok (b_mm b1) /\
      b_slots b1 = b_slots (store_page zero_page z s addr now b) /\
      b_phys b1 = b_phys (store_page zero_page z s addr now b).
  Proof.
    intros Hm Hs Ha. unfold evict_to.
    destruct (pfree_hot _ addr (store_page_mm z s addr now b Hm Hs) Ha) as (m & E & Hm' & _).
    rewrite E. eexists. split; [reflexivity|]. split; [|done].
    by apply update_compressed_equiv_ok.
  Qed.

(** Decompressing the stored bytes: at most 4064 of them survive. *)
Lemma stored_bytes src old ba sa c :
    length src = PAGE_BYTES -> Z.of_nat (length old) = MAX_DATA ->
    let '(_, cp, valid) := compress_xor sa ba src (replicate PAGE_BYTES 0) c in
    let n := Z.to_nat (if MAX_DATA <? valid then MAX_DATA else valid) in
    decompress_xor (CPage ba (take n (take n (xor_data cp) ++ drop n old)) (Z.of_nat n) sa)
      (replicate PAGE_BYTES 0) =
    take (Z.to_nat MAX_DATA) src ++ replicate (Z.to_nat DATA_OFFSET) 0.
  Proof.
    intros Hs Ho. unfold compress_xor. cbv zeta. cbn [xor_data valid_bytes].
    assert (Hx : xor_bytes src (replicate PAGE_BYTES 0) = src).
    { rewrite <- Hs. clear. induction src as [|x l IH]; [done|]. simpl. by rewrite Z.lxor_0_r, IH. }
    rewrite Hx. destruct (last_nonzero_spec src) as [Hr Hz].
    set (valid := last_nonzero src + 1) in *.
    set (n := Z.to_nat (if MAX_DATA <? valid then MAX_DATA else valid)).
    assert (Hn : (n <= Z.to_nat MAX_DATA)%nat /\ (n = Z.to_nat MAX_DATA \/ Z.of_nat n = valid)).
    { unfold n, MAX_DATA, DATA_OFFSET in *. change PAGE_SIZE with 4096 in *.
      destruct (Z.ltb_spec (4096 - 32) valid); lia. }
    assert (HnP : (n <= PAGE_BYTES)%nat) by (destruct Hn as [Hn _]; change (Z.to_nat MAX_DATA) with 4064%nat in Hn; unfold PAGE_BYTES; lia).
    unfold decompress_xor. cbn [xor_data valid_bytes]. rewrite Nat2Z.id.
    rewrite take_take, Nat.min_id, (take_app_length' (take n src)) by (rewrite length_take, Hs; lia).
    rewrite zip_with_take, <- Hx at 1. rewrite Hx.
    assert (Hxx : zip_with Z.lxor src (replicate PAGE_BYTES 0) = src) by exact Hx.
    rewrite (take_ge (replicate PAGE_BYTES 0)) by (by rewrite length_replicate).
    rewrite Hxx, drop_replicate.
    destruct Hn as [Hn1 [En|En]].
    - rewrite En. done.
    - apply list_eq. intros i. change (Z.to_nat MAX_DATA) with 4064%nat in *.
      change (Z.to_nat DATA_OFFSET) with 32%nat.
      assert (Hsrc : forall j, (n <= j < 4096)%nat -> src !! j = Some 0).
      { intros j Hj. specialize (Hz (Z.of_nat j) ltac:(lia)). unfold aget in Hz. rewrite Nat2Z.id in Hz.
        destruct (lookup_lt_is_Some_2 src j) as [x Hxj]; [rewrite Hs; unfold PAGE_BYTES; lia|].
        rewrite (list_lookup_total_correct _ _ _ Hxj) in Hz. by subst. }
      unfold PAGE_BYTES in *.
      destruct (decide (i < n)%nat) as [Hi|Hi].
      { rewrite !lookup_app_l by (rewrite length_take; lia). rewrite !lookup_take_lt by lia. done. }
      rewrite lookup_app_r by (rewrite length_take; lia). rewrite length_take, Hs.
      replace (n `min` 4096)%nat with n by lia.
      destruct (decide (i < 4096)%nat) as [Hi2|Hi2].
      + rewrite lookup_replicate_2 by lia.
        destruct (decide (i < 4064)%nat) as [Hi3|Hi3].
        * rewrite lookup_app_l by (rewrite length_take; lia). rewrite lookup_take_lt by lia.
          symmetry. apply Hsrc. lia.
        * rewrite lookup_app_r by (rewrite length_take; lia). rewrite length_take, Hs.
          rewrite lookup_replicate_2 by lia. done.
      + rewrite !lookup_ge_None_2; [done|rewrite length_app, length_take, length_replicate; lia|
          rewrite length_replicate; lia].
  Qed.
End Proofs.

(** The page contents a slot gives back. *)
Definition survives (src : list Z) : list Z :=
  take (Z.to_nat MAX_DATA) src ++ replicate (Z.to_nat DATA_OFFSET) 0.

Lemma read_aligned a b :
  boom_ok b -> a mod PAGE_SIZE = 0 -> read_page a b = b_phys b a.
Proof.
  intros Hb Ha. unfold read_page. cbv zeta. rewrite Ha. change (Z.to_nat 0) with 0%nat.
  rewrite drop_0, take_0, app_nil_r. f_equal. lia.
Qed.

Lemma pool_slot_managed z m base s :
  zone_ok (pool_zone z m) base (pool_pages z) ->
  HEAP_BASE <= base -> base + pool_pages z * PAGE_SIZE <= BOOMERANG_BASE + BOOMERANG_PAGES * PAGE_SIZE ->
  0 <= s < pool_pages z ->
  HEAP_BASE <= base_addr (pool_zone z m) + s * PAGE_SIZE < BOOMERANG_BASE + BOOMERANG_PAGES * PAGE_SIZE.
Proof.
  intros (-> & _) H1 H2 Hs. assert (0 < PAGE_SIZE) by (vm_compute; reflexivity). nia.
Qed.

(** C8: Compressing a cold page by hand and restoring it later gives back a
    hot page with the same first 4064 bytes and zeros after them (the entry
    header takes 32 bytes of the slot, so exactly the pages that end in 32
    zero bytes survive unchanged), provided no older entry claims the address. *)
Theorem boomerang_roundtrip zero_page ok clock now b b1 idx m2 p :
  boom_ok b -> b_phys b zero_page = replicate PAGE_BYTES 0 ->
  0 <= idx < HOT_ZONE_PAGES ->
  let addr := HEAP_BASE + idx * PAGE_SIZE in
  (forall z i, 0 <= i < pool_pages z -> slot_matches addr b z i = false) ->
  boomerang_manual_compress zero_page now addr b = Some (b1, Evicted) ->
  pmalloc ok (b_mm b1) = (m2, Some p) ->
  exists b2, boomerang_restore zero_page ok clock addr b1 = Some (b2, Some p) /\
    b_phys b2 p = survives (b_phys b addr) /\
    (drop (Z.to_nat MAX_DATA) (b_phys b addr) = replicate (Z.to_nat DATA_OFFSET) 0 ->
     b_phys b2 p = b_phys b addr) /\
    mm_ok (b_mm b2).
Proof.
  intros Hb Hzp Hidx addr Hfree Hc Hp.
  assert (Haddr : HEAP_BASE <= addr < WARM_BASE) by (unfold addr; clear - Hidx; mm_consts; lia).
  assert (Eu : u32 addr = addr) by (apply u32_small; clear - Haddr; mm_consts; lia).
  assert (Hal : addr mod PAGE_SIZE = 0).
  { unfold addr. change HEAP_BASE with (2048 * PAGE_SIZE). rewrite <- Z.mul_add_distr_r. apply Z_mod_mult. }
  (* the compression: which slot, and what it holds *)
  unfold boomerang_manual_compress in Hc. cbv zeta in Hc.
  destruct (_ <=? _); [done|]. destruct (negb _); [done|]. destruct (2 <=? _); [done|].
  destruct (choose_dest b) as [[z s]|] eqn:Hd; [|done].
  destruct (choose_dest_spec b z s (bo_mm b Hb) Hd) as [Hff Hs].
  destruct (evict_to_spec zero_page z s addr now b (bo_mm b Hb) Hff Haddr) as (b1' & E & Hm1 & Hsl & Hph).
  rewrite E in Hc. injection Hc as <-. clear E.
  assert (Hslot : b_slots b1' z s =
    let '(_, cp, valid) := compress_xor addr zero_page (b_phys b addr) (replicate PAGE_BYTES 0) (b_cmp b) in
    let n := if MAX_DATA <? valid then MAX_DATA else valid in
    Slot (Entry addr (u32 n) zero_page now (bool_decide (z = Boom)) true)
      (take (Z.to_nat n) (xor_data cp) ++ drop (Z.to_nat n) (data (b_slots b z s)))).
  { rewrite Hsl, store_page_slot, decide_True by done. by rewrite read_aligned, Hzp, Eu. }
  assert (Hother : forall z' i, ~ (z' = z /\ i = s) -> b_slots b1' z' i = b_slots b z' i).
  { intros z' i Hne. by rewrite Hsl, store_page_slot, decide_False. }
  assert (Hzp1 : b_phys b1' zero_page = replicate PAGE_BYTES 0) by (by rewrite Hph, store_page_phys).
  pose proof (decompress_compress addr zero_page (b_phys b addr) (replicate PAGE_BYTES 0) (b_cmp b)
                (bo_phys b Hb addr) (length_replicate _ _)) as Hdc.
  pose proof (stored_bytes (b_phys b addr) (data (b_slots b z s)) zero_page addr (b_cmp b)
                (bo_phys b Hb addr) (bo_slots b Hb z s)) as Hst.
  destruct (compress_xor addr zero_page (b_phys b addr) (replicate PAGE_BYTES 0) (b_cmp b))
    as [[c cp] valid]. cbv zeta in Hslot, Hst.
  destruct Hdc as (_ & _ & Hvalid & _).
  set (n := if MAX_DATA <? valid then MAX_DATA else valid) in *.
  assert (Hn : 1 <= n <= MAX_DATA).
  { unfold n, MAX_DATA, DATA_OFFSET in *. change PAGE_SIZE with 4096 in *.
    destruct (Z.ltb_spec (4096 - 32) valid); lia. }
  assert (HM : MAX_DATA = 4064) by reflexivity.
  rewrite (u32_small n) in Hslot by lia.
  (* the search finds it *)
  assert (Hfind : find_entry (u32 addr) b1' = Some (z, s)).
  { apply find_entry_unique; [done|]. intros z' i Hi. rewrite Eu. unfold slot_matches.
    destruct (decide (z' = z /\ i = s)) as [[-> ->]|Hne].
    - rewrite Hslot. simpl. rewrite Z.eqb_refl. by rewrite bool_decide_eq_true_2.
    - rewrite Hother by done. rewrite bool_decide_eq_false_2 by done. by apply Hfree. }
  unfold boomerang_restore. rewrite Hfind. unfold alloc_or_evict. rewrite Hp.
  cbn [mbind option_bind]. change (b_slots (b1' <| b_mm := m2 |>)) with (b_slots b1').
  rewrite Hslot. cbn [entry data e_valid_bytes e_base_page e_original_addr].
  rewrite (proj2 (Z.ltb_ge _ _)) by lia. change (b_phys (b1' <| b_mm := m2 |>)) with (b_phys b1').
  rewrite Hzp1. cbv zeta.
  assert (Hm2 : mm_ok m2).
  { pose proof (pmalloc_ok_step ok _ Hm1) as H. by rewrite Hp in H. }
  change (b_mm (set_page p ?x (b1' <| b_mm := m2 |>))) with m2.
  destruct (pool_zone_ok z m2 Hm2) as (base & Hz & Hb1 & Hb2).
  destruct (pfree_managed m2 (base_addr (pool_zone z m2) + s * PAGE_SIZE) Hm2
              (pool_slot_managed z m2 base s Hz Hb1 Hb2 Hs)) as (m3 & Ef & Hm3).
  rewrite Ef. cbn [mbind option_bind].
  rewrite Z2Nat.id in Hst by lia.
  match goal with |- context [CPage zero_page ?d n addr] =>
    assert (Hpage : decompress_xor (CPage zero_page d n addr) (replicate PAGE_BYTES 0) = survives (b_phys b addr))
      by exact Hst end.
  eexists. split; [reflexivity|].
  match goal with |- b_phys ?b2 p = _ /\ _ => assert (E : b_phys b2 p = survives (b_phys b addr)) end.
  { simpl. rewrite Z.eqb_refl. exact Hpage. }
  split; [exact E|]. split.
  - intros Ht. rewrite E. unfold survives. rewrite <- Ht. apply take_drop.
  - by apply update_compressed_equiv_ok.
Qed.

(** A state with one allocated, cold page. *)
Definition ex_boom : boom :=
  BoomSt (pmalloc (fun _ => true) mm_bss).1 compress_bss (replicate 256 0)
    (fun _ _ => Slot (Entry 0 0 0 0 false false) (replicate 4064 0))
    (fun a => if a =? 0x800000 then ex_page else replicate PAGE_BYTES 0).

Lemma ex_boom_ok : boom_ok ex_boom.
Proof.
  constructor.
  - apply pmalloc_ok_step, mm_bss_ok.
  - intros z i. reflexivity.
  - intros a. unfold ex_boom. cbn [b_phys]. by destruct (a =? _).
Qed.

Lemma boomerang_roundtrip_witness :
  exists b1 b2,
    boomerang_manual_compress 0x1000 7 (HEAP_BASE + 0 * PAGE_SIZE) ex_boom = Some (b1, Evicted) /\
    boomerang_restore 0x1000 (fun _ => true) (fun _ => 9) (HEAP_BASE + 0 * PAGE_SIZE) b1 =
      Some (b2, Some 0x800000) /\
    b_phys b2 0x800000 = ex_page.
Proof.
  assert (F : match boomerang_manual_compress 0x1000 7 (HEAP_BASE + 0 * PAGE_SIZE) ex_boom with
              | Some (b1, Evicted) => (pmalloc (fun _ => true) (b_mm b1)).2
              | _ => None
              end = Some 0x800000) by (vm_compute; reflexivity).
  destruct (boomerang_manual_compress 0x1000 7 (HEAP_BASE + 0 * PAGE_SIZE) ex_boom)
    as [[b1 []]|] eqn:E; try discriminate F.
  destruct (pmalloc (fun _ => true) (b_mm b1)) as [m2 r] eqn:Ep. cbn [snd] in F. subst r.
  destruct (boomerang_roundtrip 0x1000 (fun _ => true) (fun _ => 9) 7 ex_boom b1 0 m2 0x800000
              ex_boom_ok eq_refl) as (b2 & Er & _ & Hsame & _).
  - vm_compute. split; [discriminate|reflexivity].
  - intros z i Hi. reflexivity.
  - exact E.
  - exact Ep.
  - exists b1, b2. split; [reflexivity|]. split; [exact Er|]. apply Hsame. vm_compute. reflexivity.
Defined.
End Boomerang.
