(* ===== verification/Vfs.v ===== *)
(** The descriptor table and the file layer (src/src/kernel/fs/vfs.c): fd
    allocation, duplication, closing at exit, permission checks, dispatch
    through the operation tables, seeking. *)
From S2P Require Import Prelude.

Module Vfs.

Definition MAX_FDS : Z := 256.
Definition O_RDONLY : Z := 0x0000.
Definition O_WRONLY : Z := 0x0001.
Definition O_RDWR : Z := 0x0002.
Definition O_CREAT : Z := 0x0040.
Definition O_TRUNC : Z := 0x0200.
Definition O_NONBLOCK : Z := 0x0800.

(** [ops] is the address of the operation table, NULL being [None]. *)
Record file_t := File {
  f_inode : Z;
  f_size : Z;
  f_offset : Z;
  f_ops : option Z;
  f_private : Z;
  f_refs : Z;
  f_name : list Z;
  f_flags : Z;
  f_type : Z
}.
#[export] Instance eta_file : Eta file_t := fun f =>
  File (f_inode f) (f_size f) (f_offset f) (f_ops f) (f_private f) (f_refs f) (f_name f)
    (f_flags f) (f_type f).
Definition file0 : file_t := File 0 0 0 None 0 0 [] 0 0.
#[export] Instance inhabited_file : Inhabited file_t := populate file0.

(** The static tables of vfs.c; a [file_t*] is the address of the object. *)
Record vfs := VfsSt {
  fd_table : list (option Z);
  fd_owner : list Z;
  vfs_open_errno : Z
}.
#[export] Instance eta_vfs : Eta vfs := fun v => VfsSt (fd_table v) (fd_owner v) (vfs_open_errno v).

(** A component that provides open files: the objects by address, and the
    operations its tables hold ([None]: a NULL entry). *)
Class FileOps (E : Type) := {
  file_at : E -> Z -> file_t;
  set_file : Z -> file_t -> E -> E;
  op_close : Z -> option (Z -> E -> E * Z);
  op_read : Z -> option (Z -> Z -> Z -> E -> E * (Z * list Z));
  op_write : Z -> option (Z -> Z -> list Z -> E -> E * Z);
  op_ioctl : Z -> option (Z -> Z -> Z -> E -> E * Z)
}.

Definition vfs_init (v : vfs) : vfs :=
  VfsSt (replicate (Z.to_nat MAX_FDS) None) (replicate (Z.to_nat MAX_FDS) (-1)) (vfs_open_errno v).
Definition vfs_bss : vfs :=
  VfsSt (replicate (Z.to_nat MAX_FDS) None) (replicate (Z.to_nat MAX_FDS) 0) 0.

Definition fd_at (v : vfs) (fd : Z) : option Z := aget (fd_table v) fd.
Definition set_fd (fd : Z) (f : option Z) (owner : Z) (v : vfs) : vfs :=
  v <| fd_table := aset (fd_table v) fd f |> <| fd_owner := aset (fd_owner v) fd owner |>.

(** The first free slot from [min] on. *)
Definition first_free (min : Z) (v : vfs) : option Z :=
  (fun k => min + Z.of_nat k) <$>
    find_index (fun x => bool_decide (x = None)) (drop (Z.to_nat min) (fd_table v)).

(** [owner] is [current_pid()]. *)
Definition vfs_fd_alloc (owner f : Z) (v : vfs) : vfs * Z :=
  match first_free 3 v with
  | Some i => (set_fd i (Some f) owner v, i)
  | None => (v, -1)
  end.

Definition fd_valid (fd : Z) : bool := (0 <=? fd) && (fd <? MAX_FDS).

Definition vfs_fd_get (fd : Z) (v : vfs) : option Z :=
  if fd_valid fd then fd_at v fd else None.

Definition vfs_fd_free (fd : Z) (v : vfs) : vfs :=
  if fd_valid fd then set_fd fd None (-1) v else v.

Definition vfs_fd_set (owner f fd : Z) (v : vfs) : vfs * Z :=
  if fd_valid fd then (set_fd fd (Some f) owner v, 0) else (v, -1).

Section Ops.
  Context {E : Type} {FO : FileOps E}.

(** [if (f->ref_count > 0) f->ref_count++] *)
Definition take_ref (f : Z) (e : E) : E :=
    let x := file_at e f in
    if 0 <? f_refs x then set_file f (x <| f_refs := u64 (f_refs x + 1) |>) e else e.

Definition vfs_fd_alloc_min (owner f min : Z) (v : vfs) (e : E) : vfs * E * Z :=
    let min := if min <? 3 then 3 else min in
    match first_free min v with
    | Some i => (set_fd i (Some f) owner v, take_ref f e, i)
    | None => (v, e, -1)
    end.

(** The table entry for [close] of file [f], if there is one. *)
Definition close_of (f : Z) (e : E) : option (Z -> E -> E * Z) :=
    match f_ops (file_at e f) with Some o => op_close o | None => None end.

Definition vfs_close (f : option Z) (e : E) : E * Z :=
    match f with
    | None => (e, 2 ^ 64 - 1)
    | Some f => match close_of f e with Some c => c f e | None => (e, 2 ^ 64 - 1) end
    end.

Definition vfs_fd_dup2 (owner oldfd newfd : Z) (v : vfs) (e : E) : vfs * E * Z :=
    if negb (fd_valid oldfd) || negb (fd_valid newfd) then (v, e, -1) else
    match fd_at v oldfd with
    | None => (v, e, -1)
    | Some f =>
        let '(v1, e1) :=
          match fd_at v newfd with
          | Some g => (v <| fd_table := aset (fd_table v) newfd None |>,
                       match close_of g e with Some c => (c g e).1 | None => e end)
          | None => (v, e)
          end in
        (set_fd newfd (Some f) owner v1, take_ref f e1, newfd)
    end.

(** The exit clean-up visits the slots in order. *)
Definition close_owned (pid : Z) (st : vfs * E) (i : Z) : vfs * E :=
    let '(v, e) := st in
    match fd_at v i with
    | Some f => if aget (fd_owner v) i =? pid
                then (set_fd i None (-1) v, (vfs_close (Some f) e).1) else st
    | None => st
    end.
Definition vfs_fd_close_all (pid : Z) (v : vfs) (e : E) : vfs * E :=
    if pid <=? 0 then (v, e)
    else foldl (close_owned pid) (v, e) (zrange (Z.to_nat MAX_FDS)).

(** The result [-1] for a missing file or operation. *)
Definition EMISSING : Z := 2 ^ 64 - 1.

Definition vfs_read (f : option Z) (size : Z) (e : E) : E * (Z * list Z) :=
    match f with
    | None => (e, (EMISSING, []))
    | Some f =>
        match (match f_ops (file_at e f) with Some o => op_read o | None => None end) with
        | Some r => r f (f_offset (file_at e f)) size e
        | None => (e, (EMISSING, []))
        end
    end.

Definition vfs_write (f : option Z) (bytes : list Z) (e : E) : E * Z :=
    match f with
    | None => (e, EMISSING)
    | Some f =>
        match (match f_ops (file_at e f) with Some o => op_write o | None => None end) with
        | Some w => w f (f_offset (file_at e f)) bytes e
        | None => (e, EMISSING)
        end
    end.

Definition vfs_ioctl (f : option Z) (req arg : Z) (e : E) : E * Z :=
    match f with
    | None => (e, EMISSING)
    | Some f =>
        match (match f_ops (file_at e f) with Some o => op_ioctl o | None => None end) with
        | Some c => c f req arg e
        | None => (e, EMISSING)
        end
    end.

Definition vfs_lseek (f : option Z) (offset whence : Z) (e : E) : E * Z :=
    match f with
    | None => (e, EMISSING)
    | Some f =>
        let x := file_at e f in
        let seek o := (set_file f (x <| f_offset := o |>) e, o) in
        if whence =? 0 then seek offset
        else if whence =? 1 then seek (u64 (f_offset x + offset))
        else if whence =? 2 then seek (u64 (f_size x + offset))
        else (e, EMISSING)
    end.
End Ops.

(** ** Permission checks *)

(** The fields of an ext2 inode the checks read, and the caller's ids. *)
Record perm_inode := PermInode { i_mode : Z; i_uid : Z; i_gid : Z }.
Record cred := Cred { euid : Z; egid : Z }.

(** The three permission bits that apply to the caller. *)
Definition perm_bits (c : cred) (i : perm_inode) : Z :=
  if euid c =? i_uid i then Z.land (Z.shiftr (i_mode i) 6) 7
  else if egid c =? i_gid i then Z.land (Z.shiftr (i_mode i) 3) 7
  else Z.land (i_mode i) 7.

Definition EACCES : Z := -13.

(** [inode] is what [ext2_read_inode] reads ([None]: it fails); [cur] is the
    current task's ids, if there is one. *)
Definition vfs_check_perm (inode : option perm_inode) (cur : option cred) (flags : Z) : Z :=
  match inode with
  | None => 0
  | Some i =>
      let c := default (Cred 0 0) cur in
      if euid c =? 0 then 0 else
      let acc := u32 (Z.land flags 3) in
      let need_r := (acc =? 0) || (acc =? 2) in
      let need_w := (acc =? 1) || (acc =? 2) || negb (Z.land flags (Z.lor O_TRUNC O_CREAT) =? 0) in
      let perm := perm_bits c i in
      if (need_r && negb (Z.testbit perm 2)) || (need_w && negb (Z.testbit perm 1))
      then EACCES else 0
  end.

Definition vfs_dir_write_perm (inode : option perm_inode) (cur : option cred) : Z :=
  match cur with
  | None => 0
  | Some c =>
      if euid c =? 0 then 0 else
      match inode with
      | None => 0
      | Some i => if Z.testbit (perm_bits c i) 1 then 0 else EACCES
      end
  end.

(** ** Properties *)
Definition vfs_ok (v : vfs) : Prop :=
  length (fd_table v) = Z.to_nat MAX_FDS /\ length (fd_owner v) = Z.to_nat MAX_FDS.

Lemma set_fd_ok fd f o v : vfs_ok v -> vfs_ok (set_fd fd f o v).
Proof. intros [H1 H2]. split; simpl; by rewrite length_aset. Qed.

Lemma fd_at_set v fd f o k :
  vfs_ok v -> 0 <= fd < MAX_FDS -> 0 <= k ->
  fd_at (set_fd fd f o v) k = if decide (fd = k) then f else fd_at v k.
Proof. intros [H1 _] Hf Hk. apply aget_aset; [rewrite H1; lia|done]. Qed.

Lemma owner_set v fd f o k :
  vfs_ok v -> 0 <= fd < MAX_FDS -> 0 <= k ->
  aget (fd_owner (set_fd fd f o v)) k = if decide (fd = k) then o else aget (fd_owner v) k.
Proof. intros [_ H2] Hf Hk. apply (aget_aset (fd_owner v)); [rewrite H2; lia|done]. Qed.

Lemma first_free_Some v min i :
  vfs_ok v -> 0 <= min -> first_free min v = Some i ->
  min <= i < MAX_FDS /\ fd_at v i = None /\ forall j, min <= j < i -> fd_at v j <> None.
Proof.
  intros [Hl _] Hm. unfold first_free. intros (k & Hk & ->)%fmap_Some.
  apply find_index_Some in Hk as (x & Hx & Hp & Hlt). apply bool_decide_eq_true in Hp as ->.
  rewrite lookup_drop in Hx. pose proof (lookup_lt_Some _ _ _ Hx) as Hlen.
  assert (E : forall n, fd_at v (min + Z.of_nat n) = default None (fd_table v !! (Z.to_nat min + n)%nat)).
  { intros n. unfold fd_at, aget. rewrite list_lookup_total_alt. do 2 f_equal. lia. }
  split; [lia|]. split.
  - rewrite E, Hx. done.
  - intros j Hj. replace j with (min + Z.of_nat (Z.to_nat (j - min))) by lia. rewrite E.
    destruct (lookup_lt_is_Some_2 (fd_table v) (Z.to_nat min + Z.to_nat (j - min))) as [y Hy]; [lia|].
    rewrite Hy. simpl. intros ->. specialize (Hlt (Z.to_nat (j - min)) None ltac:(lia)).
    rewrite lookup_drop in Hlt. specialize (Hlt Hy). done.
Qed.

Lemma first_free_None v min i :
  vfs_ok v -> 0 <= min -> first_free min v = None -> min <= i < MAX_FDS -> fd_at v i <> None.
Proof.
  intros [Hl _] Hm Hf Hi. apply fmap_None, find_index_None in Hf. rewrite Forall_forall in Hf.
  destruct (lookup_lt_is_Some_2 (fd_table v) (Z.to_nat i)) as [y Hy]; [lia|].
  unfold fd_at, aget. rewrite (list_lookup_total_correct _ _ _ Hy). intros ->.
  specialize (Hf None). rewrite bool_decide_eq_true_2 in Hf by done. discriminate Hf.
  apply list_elem_of_lookup. exists (Z.to_nat (i - min)). rewrite lookup_drop.
  replace (Z.to_nat min + Z.to_nat (i - min))%nat with (Z.to_nat i) by lia. done.
Qed.

(** [vfs_fd_alloc] gives out the lowest free descriptor above the standard
    three, records the owner, changes no other slot, and fails exactly when
    all of 3..255 are taken. *)
Theorem vfs_fd_alloc_lowest owner f v :
  vfs_ok v ->
  let '(v', fd) := vfs_fd_alloc owner f v in
  (fd = -1 /\ v' = v /\ (forall i, 3 <= i < MAX_FDS -> fd_at v i <> None)) \/
  (3 <= fd < MAX_FDS /\ fd_at v fd = None /\ (forall i, 3 <= i < fd -> fd_at v i <> None) /\
   vfs_fd_get fd v' = Some f /\ aget (fd_owner v') fd = owner /\
   forall i, 0 <= i -> i <> fd -> fd_at v' i = fd_at v i /\ aget (fd_owner v') i = aget (fd_owner v) i).
Proof.
  intros Hv. unfold vfs_fd_alloc. destruct (first_free 3 v) as [i|] eqn:Hf.
  - right. destruct (first_free_Some v 3 i Hv ltac:(lia) Hf) as (Hi & Hn & Hlow).
    split; [done|]. split; [done|]. split; [done|]. split_and!.
    + unfold vfs_fd_get, fd_valid. rewrite (proj2 (Z.leb_le 0 i)), (proj2 (Z.ltb_lt _ _)) by lia. cbn [andb].
      rewrite fd_at_set by (done || lia). by rewrite decide_True.
    + rewrite owner_set by (done || lia). by rewrite decide_True.
    + intros k Hk Hne. rewrite fd_at_set, owner_set by (done || lia). by rewrite !decide_False by congruence.
  - left. split_and!; [done|done|]. intros i Hi. apply (first_free_None v 3); [done|lia|done|done].
Qed.

Lemma vfs_fd_alloc_lowest_witness :
  (vfs_fd_alloc 7 0x5000 vfs_bss).2 = 3 /\
  vfs_fd_get 3 (vfs_fd_alloc 7 0x5000 vfs_bss).1 = Some 0x5000.
Proof.
  split; [vm_compute; reflexivity|].
  destruct (vfs_fd_alloc_lowest 7 0x5000 vfs_bss) as [(H & _)|(_ & _ & _ & H & _)].
  - split; reflexivity.
  - vm_compute in H. discriminate H.
  - exact H.
Defined.

(** Closing at exit is complete and precise: after [vfs_fd_close_all pid]
    (for a positive pid) no descriptor is owned by [pid] and open, exactly the
    open descriptors [pid] owned are free, and all other slots, whatever the
    files' close operations do, are as they were. *)
Theorem vfs_fd_close_all_exact {E} `{FileOps E} pid v (e : E) i :
  vfs_ok v -> 0 < pid -> 0 <= i < MAX_FDS ->
  let v' := (vfs_fd_close_all pid v e).1 in
  fd_at v' i = (if decide (aget (fd_owner v) i = pid) then None else fd_at v i) /\
  (fd_at v i <> None -> aget (fd_owner v) i = pid -> aget (fd_owner v') i = -1) /\
  (aget (fd_owner v) i <> pid -> aget (fd_owner v') i = aget (fd_owner v) i).
Proof.
  intros Hv Hp Hi. cbv zeta. unfold vfs_fd_close_all.
  rewrite (proj2 (Z.leb_gt _ _)) by lia.
  assert (Hpre : forall n, Z.of_nat n <= MAX_FDS ->
    let st := foldl (close_owned pid) (v, e) (zrange n) in
    vfs_ok st.1 /\ forall k, 0 <= k < MAX_FDS ->
      if decide (k < Z.of_nat n /\ fd_at v k <> None /\ aget (fd_owner v) k = pid)
      then fd_at st.1 k = None /\ aget (fd_owner st.1) k = -1
      else fd_at st.1 k = fd_at v k /\ aget (fd_owner st.1) k = aget (fd_owner v) k).
  { induction n as [|n IH]; intros Hn; cbv zeta.
    { split; [done|]. intros k Hk. rewrite decide_False by lia. done. }
    rewrite zrange_S, foldl_app. simpl. destruct IH as [Hok IH]; [lia|].
    destruct (foldl _ (v, e) (zrange n)) as [v1 e1]. cbn [fst] in *.
    assert (Hnr : 0 <= Z.of_nat n < MAX_FDS) by lia.
    pose proof (IH _ Hnr) as Hn'. rewrite decide_False in Hn' by lia. destruct Hn' as [En Eo].
    unfold close_owned. rewrite En, Eo. destruct (fd_at v (Z.of_nat n)) as [f|] eqn:Ef.
    2: { cbn [fst]. split; [done|]. intros k Hk. specialize (IH k Hk).
         destruct (decide (k = Z.of_nat n)) as [->|Hne].
         - rewrite decide_False by (intros (_ & H1 & _); congruence). split; congruence.
         - destruct (decide _) as [Hd|Hd] in IH; [rewrite decide_True by (destruct Hd; split; [lia|done])
             |rewrite decide_False by (intros (? & ?); apply Hd; split; [lia|done])]; done. }
    destruct (Z.eqb_spec (aget (fd_owner v) (Z.of_nat n)) pid) as [Ep|Ep].
    - cbn [fst]. split; [by apply set_fd_ok|]. intros k Hk.
      rewrite fd_at_set, owner_set by (done || lia).
      destruct (decide (k = Z.of_nat n)) as [->|Hne].
      + rewrite !(decide_True (P := Z.of_nat n = Z.of_nat n)) by done.
        rewrite decide_True; [done|]. split; [lia|]. split; [congruence|done].
      + rewrite !(decide_False (P := Z.of_nat n = k)) by congruence. specialize (IH k Hk).
        destruct (decide _) as [Hd|Hd] in IH; [rewrite decide_True by (destruct Hd; split; [lia|done])
             |rewrite decide_False by (intros (? & ?); apply Hd; split; [lia|done])]; done.
    - cbn [fst]. split; [done|]. intros k Hk. specialize (IH k Hk).
      destruct (decide (k = Z.of_nat n)) as [->|Hne].
      + rewrite decide_False by (intros (_ & _ & H1); congruence). split; congruence.
      + destruct (decide _) as [Hd|Hd] in IH; [rewrite decide_True by (destruct Hd; split; [lia|done])
             |rewrite decide_False by (intros (? & ?); apply Hd; split; [lia|done])]; done. }
  destruct (Hpre (Z.to_nat MAX_FDS) ltac:(vm_compute; discriminate)) as [_ H0].
  specialize (H0 i Hi). change (Z.of_nat (Z.to_nat MAX_FDS)) with MAX_FDS in H0.
  destruct (decide _) as [(_ & Hne & Ho)|Hd] in H0; destruct H0 as [E1 E2].
  - rewrite decide_True by done. by split_and!.
  - split_and!.
    + rewrite E1. destruct (decide (aget (fd_owner v) i = pid)) as [Ho|]; [|done].
      destruct (fd_at v i) eqn:Ef; [|done]. exfalso. apply Hd. split; [lia|]. split; congruence.
    + intros Hne Ho. exfalso. apply Hd. split; [lia|]. by split.
    + done.
Qed.

(** A provider whose close counts its calls. *)
Definition ex_ops : FileOps Z := {|
  file_at := fun _ _ => file0 <| f_ops := Some 1 |>;
  set_file := fun _ _ e => e;
  op_close := fun _ => Some (fun _ e => (e + 1, 0));
  op_read := fun _ => None; op_write := fun _ => None; op_ioctl := fun _ => None
|}.

Lemma vfs_fd_close_all_exact_witness :
  let v := (vfs_fd_alloc 8 0x6000 (vfs_fd_alloc 7 0x5000 vfs_bss).1).1 in
  fd_at (@vfs_fd_close_all Z ex_ops 7 v 0).1 3 = None /\
  fd_at (@vfs_fd_close_all Z ex_ops 7 v 0).1 4 = Some 0x6000 /\
  (@vfs_fd_close_all Z ex_ops 7 v 0).2 = 1.
Proof.
  intros v. assert (Hv : vfs_ok v) by (split; reflexivity).
  destruct (@vfs_fd_close_all_exact Z ex_ops 7 v 0 3 Hv ltac:(lia) ltac:(vm_compute; split; [discriminate|reflexivity])) as [H3 _].
  destruct (@vfs_fd_close_all_exact Z ex_ops 7 v 0 4 Hv ltac:(lia) ltac:(vm_compute; split; [discriminate|reflexivity])) as [H4 _].
  split; [exact H3|]. split; [exact H4|]. vm_compute. reflexivity.
Defined.

(** The access a caller needs to open with these flags. *)
Definition wants_read (flags : Z) : Prop := Z.land flags 3 = 0 \/ Z.land flags 3 = 2.
Definition wants_write (flags : Z) : Prop :=
  Z.land flags 3 = 1 \/ Z.land flags 3 = 2 \/ Z.land flags (Z.lor O_TRUNC O_CREAT) <> 0.

(** Opening is refused exactly when the inode is readable, the caller is
    not root, and the permission bits of its class (owner, group, other, first
    match) lack an access the open mode asks for; creating in a directory
    follows the write bit of the same class. *)
Theorem vfs_check_perm_spec i c flags :
  (vfs_check_perm (Some i) (Some c) flags = EACCES <->
     euid c <> 0 /\ (wants_read flags /\ Z.testbit (perm_bits c i) 2 = false \/
                     wants_write flags /\ Z.testbit (perm_bits c i) 1 = false)) /\
  (vfs_check_perm (Some i) (Some c) flags <> EACCES -> vfs_check_perm (Some i) (Some c) flags = 0) /\
  vfs_dir_write_perm (Some i) (Some c) = vfs_check_perm (Some i) (Some c) O_WRONLY.
Proof.
  unfold vfs_check_perm, vfs_dir_write_perm.
  change (default (Cred 0 0) (Some c)) with c.
  assert (Er : u32 (Z.land flags 3) = Z.land flags 3).
  { apply u32_small. change 3 with (Z.ones 2). rewrite Z.land_ones by lia.
    pose proof (Z.mod_pos_bound flags (2 ^ 2) ltac:(lia)). lia. }
  rewrite Er. unfold wants_read, wants_write, EACCES.
  destruct (Z.eqb_spec (euid c) 0) as [E0|E0].
  { split_and!; [split; [done|tauto]|done|done]. }
  destruct (Z.testbit (perm_bits c i) 2), (Z.testbit (perm_bits c i) 1).
  all: destruct (Z.eqb_spec (Z.land flags 3) 0), (Z.eqb_spec (Z.land flags 3) 1),
    (Z.eqb_spec (Z.land flags 3) 2), (Z.eqb_spec (Z.land flags (Z.lor O_TRUNC O_CREAT)) 0); simpl.
  all: split_and!; try done; try lia.
  all: split; intros; try done; try lia; try tauto.
  all: split; [done|]; tauto.
Qed.

(** Mode 3, which asks for neither access, is never refused. *)
Example open_mode_3 i c : vfs_check_perm (Some i) (Some c) 3 = 0.
Proof.
  unfold vfs_check_perm. change (default (Cred 0 0) (Some c)) with c.
  destruct (euid c =? 0); [done|]. by destruct (Z.testbit _ 2), (Z.testbit _ 1).
Qed.
End Vfs.
