(* ===== verification/Tmpfs.v ===== *)
(** The in-memory filesystem (src/src/kernel/fs/tmpfs.c): a tree of nodes from
    a static pool, walked by path, and read-only files that point at memory
    owned by whoever created them. *)
From S2P Require Import Prelude Vfs Paths.

Module Tmpfs.
Import Vfs Paths.

(** A [char[64]] name is the string up to its NUL; [data] is an address. *)
Record tmpfs_node_t := Node {
  n_name : list Z;
  n_dir : Z;
  n_data : Z;
  n_size : Z;
  n_children : option Z;
  n_next : option Z
}.
#[export] Instance eta_node : Eta tmpfs_node_t := fun n =>
  Node (n_name n) (n_dir n) (n_data n) (n_size n) (n_children n) (n_next n).
Definition node0 : tmpfs_node_t := Node [] 0 0 0 None None.
#[export] Instance inhabited_node : Inhabited tmpfs_node_t := populate node0.

Definition POOL_SIZE : Z := 64.
Definition FILE_POOL_SIZE : Z := 16.

(** The addresses of the nodes: [pool[i]] is [i]; the two static [root_node]
    of [tmpfs_lookup] come behind the pool. *)
Definition ROOT_SLASH : Z := 64.
Definition ROOT_PATH : Z := 65.

(** [tmpfs_ops] has its entries once [tmpfs_init] has run. *)
Record tmpfs := TmpfsSt {
  root : option Z;
  nodes : list tmpfs_node_t;
  pool_idx : Z;
  file_pool : list file_t;
  file_pool_idx : Z;
  ops_set : bool
}.
#[export] Instance eta_tmpfs : Eta tmpfs := fun s =>
  TmpfsSt (root s) (nodes s) (pool_idx s) (file_pool s) (file_pool_idx s) (ops_set s).
Definition tmpfs_bss : tmpfs :=
  TmpfsSt None (replicate 66 node0) 0 (replicate (Z.to_nat FILE_POOL_SIZE) file0) 0 false.

Definition tmpfs_init (s : tmpfs) : tmpfs := s <| root := None |> <| ops_set := true |>.

Definition nget (s : tmpfs) (i : Z) : tmpfs_node_t := aget (nodes s) i.
Definition mod_node (i : Z) (f : tmpfs_node_t -> tmpfs_node_t) (s : tmpfs) : tmpfs :=
  s <| nodes := aset (nodes s) i (f (nget s i)) |>.

(** ** Walking a path *)

Definition make_root (i : Z) (s : tmpfs) : tmpfs :=
  mod_node i (fun _ => Node [47] 1 0 0 None None) s <| root := Some i |>.

(** The list of children has no cycle and its nodes are from the pool, so a
    round per pool node is enough. *)
Fixpoint search_children (fuel : nat) (s : tmpfs) (child : option Z) (seg : list Z) : option Z :=
  match fuel, child with
  | S f, Some c => if bool_decide (n_name (nget s c) = seg) then Some c
                   else search_children f s (n_next (nget s c)) seg
  | _, _ => None
  end.
Definition find_child (s : tmpfs) (cur : Z) (seg : list Z) : option Z :=
  search_children (Z.to_nat POOL_SIZE) s (n_children (nget s cur)) seg.

(** The new node goes to the front of the list. *)
Definition new_child (cur : Z) (seg : list Z) (s : tmpfs) : tmpfs :=
  let k := pool_idx s in
  let s1 := s <| pool_idx := k + 1 |> in
  let s2 := mod_node k (fun _ => Node seg 1 0 0 None (n_children (nget s1 cur))) s1 in
  mod_node cur (fun n => n <| n_children := Some k |>) s2.

(** Every round consumes a byte. *)
Fixpoint walk (fuel : nat) (p : list Z) (cur : Z) (create : bool) (s : tmpfs) : tmpfs * option Z :=
  match fuel, p with
  | S f, _ :: _ =>
      let '(seg, rest) := take_seg 63 p in
      if bool_decide (seg = []) then walk f (skip_slash rest) cur create s else
      match find_child s cur seg with
      | Some c => walk f (skip_slash rest) c create s
      | None =>
          if create then
            if POOL_SIZE <=? pool_idx s then (s, None)
            else walk f (skip_slash rest) (pool_idx s) create (new_child cur seg s)
          else (s, None)
      end
  | _, _ => (s, Some cur)
  end.

Definition tmpfs_lookup (path : list Z) (create_dir : bool) (s : tmpfs) : tmpfs * option Z :=
  match path with
  | c :: p =>
      if negb (c =? 47) then (s, None) else
      match root s, create_dir with
      | None, false => (s, None)
      | None, true => match p with
                      | [] => (make_root ROOT_SLASH s, Some ROOT_SLASH)
                      | _ => walk (length p) p ROOT_PATH create_dir (make_root ROOT_PATH s)
                      end
      | Some r, _ => walk (length p) p r create_dir s
      end
  | [] => (s, None)
  end.

Definition tmpfs_create_file (path : list Z) (data size : Z) (s : tmpfs) : tmpfs * Z :=
  match tmpfs_lookup path true s with
  | (s1, None) => (s1, -1)
  | (s1, Some n) => (mod_node n (fun x => x <| n_dir := 0 |> <| n_data := data |> <| n_size := size |>) s1, 0)
  end.

Definition tmpfs_create_dir (path : list Z) (s : tmpfs) : tmpfs * Z :=
  match tmpfs_lookup path true s with
  | (s1, None) => (s1, -1)
  | (s1, Some n) => (mod_node n (fun x => x <| n_dir := 1 |>) s1, 0)
  end.

(** ** Files *)
Definition TMPFS_OPS : Z := 3.
Definition fget (s : tmpfs) (i : Z) : file_t := aget (file_pool s) i.
Definition fset (i : Z) (f : file_t) (s : tmpfs) : tmpfs := s <| file_pool := aset (file_pool s) i f |>.

Section Read.
  (** The bytes of memory, where the files point. *)
  Context (mem : Z -> Z).

Definition tmpfs_read_op (f off size : Z) (s : tmpfs) : tmpfs * (Z * list Z) :=
  let node := nget s (f_private (fget s f)) in
  if n_data node =? 0 then (s, (0, [])) else
  if n_size node <=? off then (s, (0, [])) else
  let remain := n_size node - off in
  let size := if remain <? size then remain else size in
  (s, (size, (fun i => mem (n_data node + off + i)) <$> zrange (Z.to_nat size))).

(** The bytes are dropped and the whole length reported. *)
Definition tmpfs_write_op (f off : Z) (buf : list Z) (s : tmpfs) : tmpfs * Z := (s, Z.of_nat (length buf)).

Definition tmpfs_close_op (f : Z) (s : tmpfs) : tmpfs * Z :=
  (fset f (fget s f <| f_refs := u64 (f_refs (fget s f) - 1) |>) s, 0).

Definition tmpfs_files : FileOps tmpfs := {|
  file_at := fget;
  set_file := fset;
  op_close o := if o =? TMPFS_OPS then Some tmpfs_close_op else None;
  op_read o := if o =? TMPFS_OPS then Some tmpfs_read_op else None;
  op_write o := if o =? TMPFS_OPS then Some tmpfs_write_op else None;
  op_ioctl o := None
|}.
End Read.

(** The slot is taken before the operation table is tested. *)
Definition tmpfs_open (path : list Z) (s : tmpfs) : tmpfs * option Z :=
  match tmpfs_lookup path false s with
  | (s1, None) => (s1, None)
  | (s1, Some n) =>
      if negb (n_dir (nget s1 n) =? 0) then (s1, None) else
      if FILE_POOL_SIZE <=? file_pool_idx s1 then (s1, None) else
      let k := file_pool_idx s1 in
      let f := File n (n_size (nget s1 n)) 0 (Some TMPFS_OPS) n 1 (take 63 path)
                 (f_flags (fget s1 k)) (f_type (fget s1 k)) in
      let s2 := fset k f (s1 <| file_pool_idx := k + 1 |>) in
      if ops_set s2 then (s2, Some k) else (s2, None)
  end.

(** ** Listing *)

(** The bytes of a name while [pos < max - 1]. *)
Definition list_name (pos max : Z) (name : list Z) : list Z := take (Z.to_nat (max - 1 - pos)) name.

(** What is written from [pos] on. *)
Fixpoint list_children (fuel : nat) (s : tmpfs) (child : option Z) (pos max : Z) : list Z :=
  match fuel, child with
  | S f, Some c =>
      if pos <? max - 32 then
        let out := list_name pos max (n_name (nget s c)) ++ [if n_dir (nget s c) =? 0 then 32 else 47; 32] in
        out ++ list_children f s (n_next (nget s c)) (pos + Z.of_nat (length out)) max
      else []
  | _, _ => []
  end.

(** The bytes written, a closing NUL included, and the result. *)
Definition tmpfs_list (path : list Z) (max : Z) (s : tmpfs) : tmpfs * (list Z * Z) :=
  match tmpfs_lookup path false s with
  | (s1, None) => (s1, ([], -1))
  | (s1, Some n) =>
      if n_dir (nget s1 n) =? 0 then (s1, ([], -1)) else
      let out := list_children (Z.to_nat POOL_SIZE) s1 (n_children (nget s1 n)) 0 max in
      let pos := Z.of_nat (length out) in
      (s1, (out ++ (if pos <? max then [0] else []), pos))
  end.

(** ** The specification: a map from paths to entries *)

(** What a path names: a directory or not, where its bytes are and how many. *)
Record entry := Entry { e_dir : Z; e_data : Z; e_size : Z }.
#[export] Instance entry_dec : EqDecision entry.
Proof. solve_decision. Defined.
Definition dir_entry : entry := Entry 1 0 0.

Abbreviation path := (list (list Z)).

(** The entries, how many more nodes there may be, and the paths of the files
    opened so far. *)
Record spec := Spec { sp_map : gmap path entry; sp_room : nat; sp_open : list path }.

(** Adds the missing directories along [done ++ cs], as long as there is room. *)
Fixpoint add_path (done cs : path) (m : gmap path entry) (room : nat) : gmap path entry * nat * bool :=
  match cs with
  | [] => (m, room, true)
  | c :: cs' =>
      let q := done ++ [c] in
      match m !! q, room with
      | Some _, _ => add_path q cs' m room
      | None, S room' => add_path q cs' (<[q := dir_entry]> m) room'
      | None, 0%nat => (m, 0%nat, false)
      end
  end.

Definition with_root (m : gmap path entry) : gmap path entry :=
  match m !! [] with Some _ => m | None => <[[] := dir_entry]> m end.

(** The requests, and what they answer. *)
Inductive op :=
| CreateFile (p : list Z) (data size : Z)
| CreateDir (p : list Z)
| Open (p : list Z)
| Read (f : nat) (off size : Z).
Inductive answer :=
| Status (r : Z)
| Opened (f : option Z)
| Bytes (l : list Z).

#[export] Instance eta_spec : Eta spec := fun s => Spec (sp_map s) (sp_room s) (sp_open s).


Definition spec_create (p : list Z) (f : entry -> entry) (sp : spec) : spec * answer :=
  if absolute p then
    let cs := components p in
    let '(m, room, ok) := add_path [] cs (with_root (sp_map sp)) (sp_room sp) in
    if (ok : bool) then (Spec (alter f cs m) room (sp_open sp), Status 0)
    else (Spec m room (sp_open sp), Status (-1))
  else (sp, Status (-1)).

(** At most sixteen files are ever opened; a file has what its path has now. *)
Definition spec_step (mem : Z -> Z) (o : op) (sp : spec) : spec * answer :=
  match o with
  | CreateFile p data size => spec_create p (fun _ => Entry 0 data size) sp
  | CreateDir p => spec_create p (fun e => Entry 1 (e_data e) (e_size e)) sp
  | Open p =>
      match (if absolute p then sp_map sp !! components p else None) with
      | Some e =>
          let n := length (sp_open sp) in
          if (e_dir e =? 0) && (Z.of_nat n <? FILE_POOL_SIZE)
          then (sp <| sp_open := sp_open sp ++ [components p] |>, Opened (Some (Z.of_nat n)))
          else (sp, Opened None)
      | None => (sp, Opened None)
      end
  | Read f off size =>
      match (sp_open sp !! f) ≫= (fun q => sp_map sp !! q) with
      | Some e => (sp, Bytes (if e_data e =? 0 then [] else
                     (fun i => mem (e_data e + off + i)) <$> zrange (Z.to_nat (Z.min size (e_size e - off)))))
      | None => (sp, Bytes [])
      end
  end.

(** One call; reading is through files that were opened. *)
Definition step (mem : Z -> Z) (o : op) (s : tmpfs) : tmpfs * answer :=
  match o with
  | CreateFile p data size => let '(s1, r) := tmpfs_create_file p data size s in (s1, Status r)
  | CreateDir p => let '(s1, r) := tmpfs_create_dir p s in (s1, Status r)
  | Open p => let '(s1, r) := tmpfs_open p s in (s1, Opened r)
  | Read f off size =>
      if file_pool_idx s <=? Z.of_nat f then (s, Bytes []) else
      let '(s1, (_, l)) := tmpfs_read_op mem (Z.of_nat f) off size s in (s1, Bytes l)
  end.

Fixpoint run {S : Type} (st : op -> S -> S * answer) (ops : list op) (s : S) : list answer :=
  match ops with
  | [] => []
  | o :: ops' => let '(s1, a) := st o s in a :: run st ops' s1
  end.

(** ** The nodes form a tree *)
Inductive linked (s : tmpfs) : option Z -> list Z -> Prop :=
| linked_nil : linked s None []
| linked_cons k l : linked s (n_next (nget s k)) l -> linked s (Some k) (k :: l).

Definition live (s : tmpfs) (n : Z) : Prop := root s = Some n \/ 0 <= n < pool_idx s.
Definition name_of (s : tmpfs) (k : Z) : list Z := n_name (nget s k).

(** [ch n] are the children of node [n]. *)
Record tree (s : tmpfs) (ch : Z -> list Z) : Prop := {
  t_len : length (nodes s) = 66%nat;
  t_idx : 0 <= pool_idx s <= POOL_SIZE;
  t_root r : root s = Some r -> r = ROOT_SLASH \/ r = ROOT_PATH;
  t_link n : live s n -> linked s (n_children (nget s n)) (ch n);
  t_kids n k : live s n -> k ∈ ch n -> 0 <= k < pool_idx s;
  t_names n : live s n -> NoDup (name_of s <$> ch n);
  t_uniq n m k : live s n -> live s m -> k ∈ ch n -> k ∈ ch m -> n = m
}.

Lemma live_range s ch n : tree s ch -> live s n -> 0 <= n < 66.
Proof.
  intros T [Hr|Hn]; [destruct (t_root _ _ T n Hr) as [->| ->]; unfold ROOT_SLASH, ROOT_PATH; lia|].
  pose proof (t_idx _ _ T). unfold POOL_SIZE in *. lia.
Qed.

Lemma linked_frame s s' c l : (forall k, k ∈ l -> n_next (nget s' k) = n_next (nget s k)) -> linked s c l -> linked s' c l.
Proof.
  intros E Hl. induction Hl as [|k l Hl IH]; [constructor|]. constructor. rewrite E by by left. apply IH. intros j Hj. apply E. by right.
Qed.

Lemma search_spec s c l seg fuel : linked s c l -> (length l <= fuel)%nat ->
  match search_children fuel s c seg with
  | Some k => k ∈ l /\ name_of s k = seg
  | None => forall k, k ∈ l -> name_of s k <> seg
  end.
Proof.
  intros Hl. revert fuel. induction Hl as [|k l Hl IH]; intros fuel Hf.
  { destruct fuel; cbn; intros k Hk; by apply not_elem_of_nil in Hk. }
  destruct fuel as [|fuel]; [cbn in Hf; lia|]. cbn [search_children]. case_bool_decide as E.
  { split; [by left|done]. }
  specialize (IH fuel ltac:(cbn in Hf; lia)). destruct (search_children fuel s _ seg).
  - destruct IH. split; [by right|done].
  - intros j [->|Hj]%elem_of_cons; [done|by apply IH].
Qed.

Lemma kids_few s ch n : tree s ch -> live s n -> (length (ch n) <= Z.to_nat POOL_SIZE)%nat.
Proof.
  intros T Hn. rewrite <- (length_zrange (Z.to_nat POOL_SIZE)). apply submseteq_length, NoDup_submseteq.
  - exact (NoDup_fmap_1 _ _ (t_names _ _ T n Hn)).
  - intros k Hk. apply elem_of_zrange. pose proof (t_kids _ _ T n k Hn Hk). pose proof (t_idx _ _ T). unfold POOL_SIZE in *. lia.
Qed.

Lemma same_name s ch n j k : tree s ch -> live s n -> j ∈ ch n -> k ∈ ch n -> name_of s j = name_of s k -> j = k.
Proof.
  intros T Hn (a & Ha)%list_elem_of_lookup (b & Hb)%list_elem_of_lookup E. assert (a = b); [|naive_solver].
  apply (NoDup_lookup _ a b (name_of s j) (t_names _ _ T n Hn)); rewrite list_lookup_fmap, ?Ha, ?Hb; cbn; congruence.
Qed.

Lemma find_child_spec s ch n seg k : tree s ch -> live s n ->
  find_child s n seg = Some k <-> k ∈ ch n /\ name_of s k = seg.
Proof.
  intros T Hn. unfold find_child. pose proof (search_spec s _ _ seg _ (t_link _ _ T n Hn) (kids_few s ch n T Hn)) as Hs.
  destruct (search_children _ _ _ _) as [j|]; split.
  - by intros [= <-].
  - intros [Hk E]. destruct Hs as [Hj Ej]. f_equal. eapply same_name; eauto; congruence.
  - done.
  - intros [Hk E]. by destruct (Hs k Hk).
Qed.

Lemma find_child_none s ch n seg : tree s ch -> live s n -> find_child s n seg = None -> forall k, k ∈ ch n -> name_of s k <> seg.
Proof. intros T Hn E k Hk Ek. assert (find_child s n seg = Some k) by (by eapply find_child_spec). congruence. Qed.

Fixpoint at_path (s : tmpfs) (cur : Z) (cs : path) : option Z :=
  match cs with
  | [] => Some cur
  | c :: cs' => find_child s cur c ≫= fun n => at_path s n cs'
  end.

Lemma at_path_app s cur p q : at_path s cur (p ++ q) = at_path s cur p ≫= fun n => at_path s n q.
Proof. revert cur. induction p as [|c p IH]; intros cur; [done|]. cbn. destruct (find_child s cur c); [apply IH|done]. Qed.

Lemma at_path_snoc s cur p c : at_path s cur (p ++ [c]) = at_path s cur p ≫= fun n => find_child s n c.
Proof. rewrite at_path_app. destruct (at_path s cur p) as [n|]; [|done]. cbn. by destruct (find_child s n c). Qed.

Lemma find_live s ch n c k : tree s ch -> live s n -> find_child s n c = Some k -> live s k.
Proof. intros T Hn E. right. apply (find_child_spec s ch n c k T Hn) in E as [Hk _]. by eapply t_kids. Qed.

Lemma at_live s ch cs r n : tree s ch -> live s r -> at_path s r cs = Some n -> live s n.
Proof.
  intros T. revert r. induction cs as [|c cs IH]; intros r Hr E; [by injection E as <-|].
  cbn in E. apply bind_Some in E as (k & Ek & E). eapply IH; [|exact E]. by eapply find_live.
Qed.

(** A node is at one path. *)
Lemma at_inj s ch r p q n : tree s ch -> root s = Some r -> at_path s r p = Some n -> at_path s r q = Some n -> p = q.
Proof.
  intros T Hr. assert (Lr : live s r) by by left.
  assert (Hroot : forall p c k, at_path s r (p ++ [c]) = Some k -> k <> r).
  { intros p' c k E ->. rewrite at_path_snoc in E. apply bind_Some in E as (m & Em & Ec).
    apply (find_child_spec s ch m c r T (at_live _ _ _ _ _ T Lr Em)) in Ec as [Hk _].
    pose proof (t_kids _ _ T m r (at_live _ _ _ _ _ T Lr Em) Hk). pose proof (t_idx _ _ T).
    destruct (t_root _ _ T r Hr) as [->| ->]; unfold POOL_SIZE, ROOT_SLASH, ROOT_PATH in *; lia. }
  revert q n. induction p as [|c p IH] using rev_ind; intros q n Ep Eq; destruct q as [|d q _] using rev_ind.
  - done.
  - injection Ep as <-. by apply Hroot in Eq.
  - injection Eq as <-. by apply Hroot in Ep.
  - rewrite at_path_snoc in Ep, Eq. apply bind_Some in Ep as (a & Ea & Ec), Eq as (b & Eb & Ed).
    pose proof (at_live _ _ _ _ _ T Lr Ea) as La. pose proof (at_live _ _ _ _ _ T Lr Eb) as Lb.
    apply (find_child_spec s ch a c n T La) in Ec as [Ha <-]. apply (find_child_spec s ch b d n T Lb) in Ed as [Hb <-].
    f_equal. apply (IH q a); [done|]. by rewrite (t_uniq _ _ T a b n La Lb Ha Hb).
Qed.

(** ** Changes of the tree *)
Lemma nget_mod s i f n : 0 <= i < Z.of_nat (length (nodes s)) -> 0 <= n ->
  nget (mod_node i f s) n = if decide (i = n) then f (nget s n) else nget s n.
Proof. intros Hi Hn. unfold nget, mod_node. cbn. rewrite aget_aset by lia. case_decide; [by subst|done]. Qed.

(** The links and the names are those of [s]. *)
Definition same_links (s s' : tmpfs) : Prop :=
  root s' = root s /\ pool_idx s' = pool_idx s /\ length (nodes s') = length (nodes s) /\
  forall n, 0 <= n -> n_name (nget s' n) = n_name (nget s n) /\ n_children (nget s' n) = n_children (nget s n) /\
    n_next (nget s' n) = n_next (nget s n).

Lemma same_links_tree s s' ch : same_links s s' -> tree s ch -> tree s' ch.
Proof.
  intros (Er & Ei & El & En) T. assert (L : forall n, live s' n <-> live s n) by (intros n; unfold live; by rewrite Er, Ei).
  constructor.
  - rewrite El. apply T.
  - rewrite Ei. apply T.
  - rewrite Er. apply T.
  - intros n Hn%L. pose proof (live_range s ch n T Hn). rewrite (proj1 (proj2 (En n ltac:(lia)))).
    eapply linked_frame, t_link; [|done..]. intros k Hk. apply En. by eapply t_kids.
  - intros n k Hn%L. rewrite Ei. by apply T.
  - intros n Hn%L. rewrite (list_fmap_ext _ (name_of s)); [by apply T|].
    intros i k Hk%list_elem_of_lookup_2. apply En. by eapply t_kids.
  - intros n m k Hn%L Hm%L. by apply T.
Qed.

Lemma same_links_find s s' ch n seg : same_links s s' -> tree s ch -> live s n -> find_child s' n seg = find_child s n seg.
Proof.
  intros L T Hn. pose proof (same_links_tree s s' ch L T) as T'. destruct L as (Er & Ei & _ & En).
  assert (Hn' : live s' n) by (unfold live; by rewrite Er, Ei). apply option_eq. intros k.
  rewrite (find_child_spec s ch n seg k T Hn), (find_child_spec s' ch n seg k T' Hn').
  split; intros [Hk <-]; (split; [done|]); pose proof (t_kids _ _ T n k Hn Hk); [symmetry|]; apply En; lia.
Qed.

Lemma same_links_path s s' ch n cs : same_links s s' -> tree s ch -> live s n -> at_path s' n cs = at_path s n cs.
Proof.
  intros L T. revert n. induction cs as [|c cs IH]; intros n Hn; [done|]. cbn. rewrite (same_links_find s s' ch n c L T Hn).
  destruct (find_child s n c) as [k|] eqn:E; [|done]. apply IH. by eapply find_live.
Qed.

Lemma mod_node_links s i f : 0 <= i < Z.of_nat (length (nodes s)) ->
  (forall x, n_name (f x) = n_name x /\ n_children (f x) = n_children x /\ n_next (f x) = n_next x) -> same_links s (mod_node i f s).
Proof.
  intros Hi Hf. split_and!; [done|done|apply length_aset|]. intros n Hn. rewrite nget_mod by done. case_decide; [apply Hf|done].
Qed.

Section NewChild.
  Context (s : tmpfs) (ch : Z -> list Z) (cur : Z) (seg : list Z).
  Hypothesis T : tree s ch.
  Hypothesis Hcur : live s cur.
  Hypothesis Hroom : pool_idx s < POOL_SIZE.
  Hypothesis Hnew : find_child s cur seg = None.
Let k := pool_idx s.
Let s' := new_child cur seg s.
Let ch' n := if decide (n = k) then [] else if decide (n = cur) then k :: ch cur else ch n.

Lemma new_cur : cur <> k.
Proof.
  subst k. destruct Hcur as [Hr|Hn]; [|lia]. destruct (t_root _ _ T cur Hr) as [->| ->]; unfold ROOT_SLASH, ROOT_PATH, POOL_SIZE in *; lia.
Qed.

Lemma new_get n : 0 <= n ->
  nget s' n = if decide (n = k) then Node seg 1 0 0 None (n_children (nget s cur))
              else if decide (n = cur) then nget s cur <| n_children := Some k |> else nget s n.
Proof.
  intros Hn. pose proof new_cur as Hne. pose proof (live_range _ _ _ T Hcur). pose proof (t_len _ _ T) as Hl. pose proof (t_idx _ _ T).
  subst s' k. unfold new_child. unfold POOL_SIZE in *. rewrite nget_mod; [|unfold mod_node; cbn; rewrite length_aset; lia|done].
  rewrite nget_mod by (cbn; lia). change (nget (_ <| pool_idx := _ |>) n) with (nget s n).
  repeat case_decide; subst; done.
Qed.

Lemma new_live n : live s' n <-> n = k \/ live s n.
Proof. subst s' k. unfold live, new_child, mod_node. cbn. pose proof (t_idx _ _ T). intuition lia. Qed.

Lemma new_other n j : live s n -> j ∈ ch n -> j <> k /\ nget s' j = (if decide (j = cur) then nget s cur <| n_children := Some k |> else nget s j).
Proof.
  intros Hn Hj. pose proof (t_kids _ _ T n j Hn Hj). split; [subst k; lia|]. rewrite new_get, decide_False by (subst k; lia). done.
Qed.

Lemma new_link n : live s n -> linked s' (n_children (nget s n)) (ch n).
Proof.
  intros Hn. eapply linked_frame, t_link; [|done..]. intros j Hj. destruct (new_other n j Hn Hj) as [_ ->]. by case_decide; subst.
Qed.

Lemma new_name n j : live s n -> j ∈ ch n -> name_of s' j = name_of s j.
Proof. intros Hn Hj. unfold name_of. destruct (new_other n j Hn Hj) as [_ ->]. by case_decide; subst. Qed.

Lemma new_k : nget s' k = Node seg 1 0 0 None (n_children (nget s cur)).
Proof. rewrite new_get by apply (t_idx _ _ T). by rewrite decide_True. Qed.

Lemma new_kids n j : live s' n -> j ∈ ch' n -> (live s n /\ j ∈ ch n) \/ (n = cur /\ j = k).
Proof.
  intros Hn%new_live Hj. subst ch'. cbn beta in Hj. repeat case_decide; subst.
  - by apply not_elem_of_nil in Hj.
  - apply elem_of_cons in Hj as [->|Hj]; [by right|by left].
  - left. split; [naive_solver|done].
Qed.

Lemma new_tree : tree s' ch'.
Proof.
  pose proof (t_idx _ _ T) as Hi. constructor.
  - unfold s', new_child, mod_node. cbn. rewrite !length_aset. apply T.
  - unfold s', new_child, mod_node. cbn. unfold POOL_SIZE in *. lia.
  - unfold s', new_child, mod_node. cbn. apply T.
  - intros n [->|Hn]%new_live; unfold ch'.
    + rewrite decide_True by done. rewrite new_k. constructor.
    + pose proof (live_range _ _ _ T Hn). destruct (decide (n = k)) as [->|Hk]; [rewrite new_k; constructor|].
      rewrite new_get, decide_False by (done || lia). case_decide as E; [|by apply new_link].
      subst n. constructor. rewrite new_k. by apply new_link.
  - intros n j Hn Hj. change (pool_idx s') with (k + 1). destruct (new_kids n j Hn Hj) as [[Hl Hj']|[-> ->]].
    + pose proof (t_kids _ _ T n j Hl Hj'). subst k. lia.
    + subst k. lia.
  - intros n Hn. unfold ch'. case_decide as Ek; [apply NoDup_nil_2|]. apply new_live in Hn as [->|Hn]; [done|].
    assert (En : forall m, live s m -> name_of s' <$> ch m = name_of s <$> ch m).
    { intros m Hm. apply list_fmap_ext. intros i j Hj%list_elem_of_lookup_2. by eapply new_name. }
    case_decide as E; [|rewrite En by done; by apply T]. subst n. rewrite fmap_cons, En by done. apply NoDup_cons. split; [|by apply T].
    intros (j & Ej & Hj)%list_elem_of_fmap. eapply find_child_none; [done..|exact Hj|]. rewrite <- Ej.
    unfold name_of. by rewrite new_k.
  - intros n m j Hn Hm Hjn Hjm.
    destruct (new_kids n j Hn Hjn) as [[Ln Hj1]|[E1 E2]], (new_kids m j Hm Hjm) as [[Lm Hj2]|[E3 E4]].
    + by eapply t_uniq.
    + pose proof (t_kids _ _ T n j Ln Hj1). subst k. lia.
    + pose proof (t_kids _ _ T m j Lm Hj2). subst k. lia.
    + congruence.
Qed.

Lemma new_find n c : live s n -> find_child s' n c = if decide (n = cur /\ c = seg) then Some k else find_child s n c.
Proof.
  intros Hn. apply option_eq. intros j. assert (Hn' : live s' n) by (apply new_live; by right).
  assert (Hnk : n <> k).
  { destruct Hn as [Hr|Hn]; [|subst k; lia]. destruct (t_root _ _ T n Hr) as [->| ->]; subst k; unfold ROOT_SLASH, ROOT_PATH, POOL_SIZE in *; lia. }
  rewrite (find_child_spec s' ch' n c j new_tree Hn'). unfold ch'. rewrite (decide_False (P := n = k)) by done.
  assert (Ek : name_of s' k = seg) by (unfold name_of; by rewrite new_k).
  destruct (decide (n = cur)) as [->|Hc].
  - rewrite elem_of_cons. destruct (decide (cur = cur /\ c = seg)) as [[_ ->]|Hs].
    + split; [|intros [= <-]; split; [by left|done]]. intros [[->|Hj] Ej]; [done|]. rewrite (new_name cur j Hn Hj) in Ej.
      by destruct (find_child_none s ch cur seg T Hcur Hnew j Hj).
    + rewrite (find_child_spec s ch cur c j T Hn). split.
      * intros [[->|Hj] Ej]; [naive_solver|]. by rewrite (new_name cur j Hn Hj) in Ej.
      * intros [Hj Ej]. split; [by right|]. by rewrite (new_name cur j Hn Hj).
  - rewrite decide_False by naive_solver. rewrite (find_child_spec s ch n c j T Hn).
    split; intros [Hj Ej]; (split; [done|]); rewrite (new_name n j Hn Hj) in *; done.
Qed.

Lemma new_find_k c : find_child s' k c = None.
Proof.
  apply eq_None_not_Some. intros [j Hj]. apply (find_child_spec s' ch' k c j new_tree) in Hj as [Hj _]; [|apply new_live; by left].
  unfold ch' in Hj. rewrite decide_True in Hj by done. by apply not_elem_of_nil in Hj.
Qed.

(** The paths of [s], and the new one. *)
Lemma new_path r done cs : root s = Some r -> at_path s r done = Some cur ->
  at_path s' r cs = if decide (cs = done ++ [seg]) then Some k else at_path s r cs.
Proof.
  intros Hr Hd. assert (Lr : live s r) by by left. induction cs as [|c cs IH] using rev_ind.
  { rewrite decide_False; [done|]. by destruct done. }
  rewrite !at_path_snoc, IH. destruct (decide (cs = done ++ [seg])) as [->|Hne].
  - cbn. rewrite new_find_k, decide_False by (intros [Hp _]%app_inj_tail; apply (f_equal length) in Hp; rewrite length_app in Hp; cbn in Hp; lia).
    by rewrite at_path_snoc, Hd; cbn; rewrite Hnew.
  - destruct (at_path s r cs) as [n|] eqn:En; cbn.
    + rewrite new_find by by eapply at_live. apply decide_ext. split.
      * intros [-> ->]. f_equal. by eapply at_inj.
      * intros [-> ->]%app_inj_tail. split; [congruence|done].
    + rewrite decide_False; [done|]. intros [-> _]%app_inj_tail. congruence.
Qed.
End NewChild.

(** ** The tree implements the map *)
Definition info (s : tmpfs) (n : Z) : entry := Entry (n_dir (nget s n)) (n_data (nget s n)) (n_size (nget s n)).
Definition ents (s : tmpfs) (cs : path) : option entry := root s ≫= fun r => info s <$> at_path s r cs.

(** The directories are those of [m], with [room] nodes to spare. *)
Record shape (s : tmpfs) (m : gmap path entry) (room : nat) : Prop := {
  sh_tree : exists ch, tree s ch;
  sh_map cs : m !! cs = ents s cs;
  sh_room : pool_idx s + Z.of_nat room = POOL_SIZE
}.

(** Every path of [s] stays, with its node; the open files are not touched. *)
Record grows (s s' : tmpfs) : Prop := {
  gr_path r cs n : root s = Some r -> at_path s r cs = Some n -> root s' = Some r /\ at_path s' r cs = Some n;
  gr_files : file_pool s' = file_pool s;
  gr_idx : file_pool_idx s' = file_pool_idx s;
  gr_ops : ops_set s' = ops_set s
}.

Lemma grows_refl s : grows s s.
Proof. constructor; [intros; split|..]; done. Qed.

Lemma grows_trans s s' s'' : grows s s' -> grows s' s'' -> grows s s''.
Proof.
  intros [P F I O] [P' F' I' O']. constructor; [|congruence..]. intros r cs n Hr Hc. destruct (P r cs n Hr Hc). by apply P'.
Qed.

Lemma new_child_shape s m room r done cur seg : shape s m (S room) -> root s = Some r -> at_path s r done = Some cur ->
  find_child s cur seg = None ->
  let s' := new_child cur seg s in
  shape s' (<[done ++ [seg] := dir_entry]> m) room /\ grows s s' /\ at_path s' r (done ++ [seg]) = Some (pool_idx s).
Proof.
  intros [[ch T] Hm Hroom] Hr Hd Hn. cbv zeta. assert (Hc : live s cur) by (eapply at_live; [done|by left|done]).
  assert (Hlt : pool_idx s < POOL_SIZE) by lia. pose proof (t_idx _ _ T) as Hi.
  assert (Hp : forall cs, at_path (new_child cur seg s) r cs = if decide (cs = done ++ [seg]) then Some (pool_idx s) else at_path s r cs).
  { intros cs. by apply (new_path s ch cur seg T Hc Hlt Hn). }
  split; [constructor|split; [constructor|]].
  - eexists. by apply new_tree.
  - intros cs. unfold ents. change (root (new_child cur seg s)) with (root s). rewrite Hr. cbn. rewrite Hp.
    destruct (decide (cs = done ++ [seg])) as [->|Hne].
    + rewrite lookup_insert_eq. cbn. f_equal. unfold info. by rewrite (new_k s ch cur seg T Hc Hlt).
    + rewrite lookup_insert_ne by done. rewrite Hm. unfold ents. rewrite Hr. cbn. destruct (at_path s r cs) as [n|] eqn:En; [|done].
      cbn. f_equal. unfold info. assert (Hln : live s n) by (eapply at_live; [done|by left|done]). pose proof (live_range _ _ _ T Hln) as Hln'.
      assert (n <> pool_idx s).
      { destruct Hln as [Hr'|?]; [|lia]. destruct (t_root _ _ T n Hr') as [->| ->]; unfold POOL_SIZE, ROOT_SLASH, ROOT_PATH in *; lia. }
      rewrite (new_get s ch cur seg T Hc Hlt Hn n) by apply Hln'. rewrite decide_False by done. by case_decide; subst.
  - change (pool_idx (new_child cur seg s)) with (pool_idx s + 1). lia.
  - intros r' cs n Hr' Hcs. simplify_eq. split; [done|]. rewrite Hp. case_decide as E; [|done]. subst cs.
    rewrite at_path_snoc, Hd in Hcs. cbn in Hcs. congruence.
  - done.
  - done.
  - done.
  - rewrite Hp. by rewrite decide_True.
Qed.

Lemma walk_create fuel p cur s done m room r : shape s m room -> root s = Some r -> at_path s r done = Some cur ->
  (length p <= fuel)%nat -> Forall (fun c => (length c <= 63)%nat) (components p) ->
  let '(s', res) := walk fuel p cur true s in
  let '(m', room', ok) := add_path done (components p) m room in
  shape s' m' room' /\ grows s s' /\
  match res with Some n => ok = true /\ at_path s' r (done ++ components p) = Some n | None => ok = false end.
Proof.
  revert p cur s done m room. induction fuel as [|fuel IH]; intros p cur s done m room Sh Hr Hd Hf Hc.
  { destruct p; [|cbn in Hf; lia]. cbn. rewrite app_nil_r, Hd. by split; [|split; [apply grows_refl|]]. }
  destruct p as [|c p]; [cbn; rewrite app_nil_r, Hd; by split; [|split; [apply grows_refl|]]|]. cbn [walk].
  pose proof (take_seg_step 63 c p Hc) as Hstep. destruct (take_seg 63 (c :: p)) as [seg rest] eqn:Et. destruct Hstep as [Ec Hlen].
  rewrite Ec in Hc |- *. apply Forall_app in Hc as [_ Hc]. cbn [length] in Hf, Hlen.
  destruct (decide (seg = [])) as [->|Hne].
  { rewrite bool_decide_true by done. apply IH; [done..|lia|done]. }
  rewrite bool_decide_false by done. cbn [app add_path]. pose proof (sh_map _ _ _ Sh (done ++ [seg])) as Hq.
  unfold ents in Hq. rewrite Hr in Hq. cbn in Hq. rewrite at_path_snoc, Hd in Hq. cbn in Hq.
  destruct (find_child s cur seg) as [k|] eqn:Ek; cbn in Hq; rewrite Hq.
  - specialize (IH (skip_slash rest) k s (done ++ [seg]) m room Sh Hr ltac:(by rewrite at_path_snoc, Hd) ltac:(lia) Hc).
    rewrite <- app_assoc in IH. exact IH.
  - pose proof (sh_room _ _ _ Sh) as Hroom. destruct room as [|room].
    { rewrite (proj2 (Z.leb_le _ _)) by lia. split_and!; [done|apply grows_refl|done]. }
    rewrite (proj2 (Z.leb_gt _ _)) by lia. destruct (new_child_shape s m room r done cur seg Sh Hr Hd Ek) as (Sh1 & G1 & P1).
    specialize (IH (skip_slash rest) _ _ _ _ room Sh1 Hr P1 ltac:(lia) Hc). rewrite <- app_assoc in IH.
    destruct (walk _ _ _ _ (new_child cur seg s)) as [s' res], (add_path _ _ _ _) as [[m' room'] ok].
    destruct IH as (Sh2 & G2 & E). split_and!; [done|by eapply grows_trans|done].
Qed.

Lemma walk_find fuel p cur s : (length p <= fuel)%nat -> Forall (fun c => (length c <= 63)%nat) (components p) ->
  walk fuel p cur false s = (s, at_path s cur (components p)).
Proof.
  revert p cur. induction fuel as [|fuel IH]; intros p cur Hf Hc; [by destruct p; [|cbn in Hf; lia]|].
  destruct p as [|c p]; [done|]. cbn [walk]. pose proof (take_seg_step 63 c p Hc) as Hstep.
  destruct (take_seg 63 (c :: p)) as [seg rest] eqn:Et. destruct Hstep as [Ec Hlen].
  rewrite Ec in Hc |- *. apply Forall_app in Hc as [_ Hc]. cbn [length] in Hf, Hlen. destruct (decide (seg = [])) as [->|Hne].
  { rewrite bool_decide_true by done. apply IH; [lia|done]. }
  rewrite bool_decide_false by done. cbn [app at_path]. destruct (find_child s cur seg); [|done]. apply IH; [lia|done].
Qed.

Lemma shape_mod s m room r cs n f g : shape s m room -> root s = Some r -> at_path s r cs = Some n ->
  (forall x, n_name (f x) = n_name x /\ n_children (f x) = n_children x /\ n_next (f x) = n_next x) ->
  (forall x, Entry (n_dir (f x)) (n_data (f x)) (n_size (f x)) = g (Entry (n_dir x) (n_data x) (n_size x))) ->
  shape (mod_node n f s) (alter g cs m) room /\ grows s (mod_node n f s).
Proof.
  intros [[ch T] Hm Hroom] Hr Hcs Hf Hg. assert (Lr : live s r) by by left.
  pose proof (live_range _ _ _ T (at_live _ _ _ _ _ T Lr Hcs)) as Hn. pose proof (t_len _ _ T) as Hl.
  assert (L : same_links s (mod_node n f s)) by (apply mod_node_links; [lia|done]).
  assert (P : forall q, at_path (mod_node n f s) r q = at_path s r q) by (intros q; by eapply same_links_path).
  split; constructor; try done.
  - exists ch. by eapply same_links_tree.
  - intros q. unfold ents. change (root (mod_node n f s)) with (root s). rewrite Hr. cbn. rewrite P.
    assert (E : m !! q = info s <$> at_path s r q) by (rewrite Hm; unfold ents; by rewrite Hr).
    destruct (at_path s r q) as [j|] eqn:Ej.
    + pose proof (live_range _ _ _ T (at_live _ _ _ _ _ T Lr Ej)). cbn in *. destruct (decide (q = cs)) as [->|Hne].
      * rewrite lookup_alter_eq, E. cbn. f_equal. simplify_eq. unfold info. rewrite nget_mod by lia. by rewrite decide_True.
      * rewrite lookup_alter_ne by done. rewrite E. f_equal. unfold info. rewrite nget_mod by lia.
        rewrite decide_False; [done|]. intros <-. by destruct Hne; eapply at_inj.
    + cbn in *. destruct (decide (q = cs)) as [->|Hne]; [congruence|]. by rewrite lookup_alter_ne.
  - intros r' q j Hr' Hq. split; [done|]. simplify_eq. by rewrite P.
Qed.

Lemma make_root_shape s m room i : i = ROOT_SLASH \/ i = ROOT_PATH -> root s = None -> shape s m room ->
  shape (make_root i s) (<[[] := dir_entry]> m) room /\ grows s (make_root i s).
Proof.
  intros Hi Hr [[ch T] Hm Hroom]. pose proof (t_len _ _ T) as Hl. pose proof (t_idx _ _ T) as Hx.
  assert (Hi' : 64 <= i < 66) by (unfold ROOT_SLASH, ROOT_PATH in Hi; lia). unfold POOL_SIZE in *.
  assert (G : forall n, 0 <= n -> nget (make_root i s) n = if decide (i = n) then Node [47] 1 0 0 None None else nget s n).
  { intros n Hn. change (nget (make_root i s) n) with (nget (mod_node i (fun _ => Node [47] 1 0 0 None None) s) n). by rewrite nget_mod by lia. }
  assert (Go : forall n, live s n -> nget (make_root i s) n = nget s n /\ i <> n).
  { intros n [Hn|Hn]; [congruence|]. rewrite G, decide_False by lia. split; [done|lia]. }
  assert (Lv : forall n, live (make_root i s) n -> i = n \/ (live s n /\ i <> n)).
  { intros n [[= <-]|Hn]; [by left|]. right. split; [by right|]. change (pool_idx (make_root i s)) with (pool_idx s) in Hn. lia. }
  assert (Tr : tree (make_root i s) (fun n => if decide (i = n) then [] else ch n)).
  { constructor.
    - change (nodes (make_root i s)) with (nodes (mod_node i (fun _ => Node [47] 1 0 0 None None) s)). unfold mod_node. cbn. by rewrite length_aset.
    - done.
    - by intros r [= <-].
    - intros n [<-|[Hn Hne]]%Lv; [rewrite decide_True, G, decide_True by (done || lia); constructor|].
      rewrite decide_False by done. rewrite (proj1 (Go n Hn)). eapply linked_frame, t_link; [|done..].
      intros k Hk. f_equal. apply Go. right. by eapply t_kids.
    - intros n k [<-|[Hn Hne]]%Lv; [rewrite decide_True by done; by intros ?%not_elem_of_nil|]. rewrite decide_False by done. by apply T.
    - intros n [<-|[Hn Hne]]%Lv; [rewrite decide_True by done; apply NoDup_nil_2|]. rewrite decide_False by done.
      rewrite (list_fmap_ext _ (name_of s)); [by apply T|]. intros j k Hk%list_elem_of_lookup_2. unfold name_of.
      rewrite (proj1 (Go k ltac:(right; by eapply t_kids))). done.
    - intros n n' k [<-|[Hn Hne]]%Lv [<-|[Hn' Hne']]%Lv; rewrite ?(decide_True (P := i = i)), ?decide_False by done;
        [by intros ?%not_elem_of_nil|by intros ?%not_elem_of_nil|by intros _ ?%not_elem_of_nil|by apply T]. }
  split; constructor.
  - by eexists.
  - intros cs. unfold ents. cbn [make_root root mod_node]. change (root (make_root i s)) with (Some i). cbn. destruct cs as [|c cs].
    + rewrite lookup_insert_eq. cbn. f_equal. unfold info. rewrite G by lia. by rewrite decide_True.
    + rewrite lookup_insert_ne by done. rewrite Hm. unfold ents. rewrite Hr. cbn. destruct (find_child (make_root i s) i c) as [k|] eqn:Ek; [|done].
      apply (find_child_spec _ _ _ _ _ Tr) in Ek as [Hk _]; [|by left]. rewrite decide_True in Hk by done. by apply not_elem_of_nil in Hk.
  - done.
  - intros r cs n Hr'. congruence.
  - done.
  - done.
  - done.
Qed.

Abbreviation short p := (Forall (fun c => (length c <= 63)%nat) (components p)).

Lemma lookup_create p s m room : absolute p = true -> short p -> shape s m room ->
  let '(s', res) := tmpfs_lookup p true s in
  let '(m', room', ok) := add_path [] (components p) (with_root m) room in
  shape s' m' room' /\ grows s s' /\ exists r, root s' = Some r /\
  match res with Some n => ok = true /\ at_path s' r (components p) = Some n | None => ok = false end.
Proof.
  intros Ha Hs Sh. destruct p as [|c p]; [done|]. cbn in Ha. apply Z.eqb_eq in Ha as ->. rewrite components_slash in *. cbn [tmpfs_lookup Z.eqb Pos.eqb negb].
  pose proof (sh_map _ _ _ Sh []) as He. unfold ents in He. destruct (root s) as [r|] eqn:Hr; cbn in He; unfold with_root; rewrite He.
  - pose proof (walk_create (length p) p r s [] m room r Sh Hr eq_refl ltac:(lia) Hs) as W. cbn [app] in W.
    destruct (walk _ _ _ _ _) as [s' res], (add_path _ _ _ _) as [[m' room'] ok]. destruct W as (Sh' & G & E).
    split_and!; [done|done|]. exists r. split; [by destruct (gr_path _ _ G r [] r Hr eq_refl)|done].
  - destruct p as [|c p].
    + destruct (make_root_shape s m room ROOT_SLASH) as [Sh' G]; [by left|done|done|]. cbn. split_and!; [done|done|]. by exists ROOT_SLASH.
    + destruct (make_root_shape s m room ROOT_PATH) as [Sh' G]; [by right|done|done|].
      pose proof (walk_create (length (c :: p)) (c :: p) ROOT_PATH _ [] _ room ROOT_PATH Sh' eq_refl eq_refl ltac:(lia) Hs) as W. cbn [app] in W.
      destruct (walk _ _ _ _ _) as [s' res], (add_path _ _ _ _) as [[m' room'] ok]. destruct W as (Sh2 & G2 & E).
      split_and!; [done|by eapply grows_trans|]. exists ROOT_PATH. split; [by destruct (gr_path _ _ G2 ROOT_PATH [] ROOT_PATH eq_refl eq_refl)|done].
Qed.

Lemma lookup_find p s : short p ->
  tmpfs_lookup p false s = (s, if absolute p then root s ≫= fun r => at_path s r (components p) else None).
Proof.
  intros Hs. destruct p as [|c p]; [done|]. cbn [tmpfs_lookup absolute]. destruct (c =? 47) eqn:E; [|done]. cbn [negb].
  apply Z.eqb_eq in E as ->. rewrite components_slash in *. destruct (root s) as [r|]; [|done]. by apply walk_find.
Qed.

(** ** Refinement *)
Record refines (s : tmpfs) (sp : spec) : Prop := {
  rf_shape : shape s (sp_map sp) (sp_room sp);
  rf_idx : file_pool_idx s = Z.of_nat (length (sp_open sp));
  rf_max : file_pool_idx s <= FILE_POOL_SIZE;
  rf_pool : length (file_pool s) = Z.to_nat FILE_POOL_SIZE;
  rf_ops : ops_set s = true;
  rf_open i cs : sp_open sp !! i = Some cs ->
    exists r, root s = Some r /\ at_path s r cs = Some (f_private (fget s (Z.of_nat i)))
}.

Lemma refines_grows s s' sp m room : refines s sp -> grows s s' -> shape s' m room -> refines s' (Spec m room (sp_open sp)).
Proof.
  intros Rf G Sh. constructor; [done|..]; cbn; rewrite ?(gr_idx _ _ G), ?(gr_files _ _ G), ?(gr_ops _ _ G); [by apply Rf..|].
  intros i cs Hi. destruct (rf_open _ _ Rf i cs Hi) as (r & Hr & Hp). unfold fget. rewrite (gr_files _ _ G). exists r. by apply G.
Qed.

(** The two creating calls differ in what they write into the node. *)
Definition create_with (p : list Z) (f : tmpfs_node_t -> tmpfs_node_t) (s : tmpfs) : tmpfs * answer :=
  match tmpfs_lookup p true s with
  | (s1, None) => (s1, Status (-1))
  | (s1, Some n) => (mod_node n f s1, Status 0)
  end.

Lemma create_refines p s sp f g : refines s sp -> short p ->
  (forall x, n_name (f x) = n_name x /\ n_children (f x) = n_children x /\ n_next (f x) = n_next x) ->
  (forall x, Entry (n_dir (f x)) (n_data (f x)) (n_size (f x)) = g (Entry (n_dir x) (n_data x) (n_size x))) ->
  let '(s', a) := create_with p f s in let '(sp', b) := spec_create p g sp in a = b /\ refines s' sp'.
Proof.
  intros Rf Hs Hf Hg. unfold create_with, spec_create. destruct (absolute p) eqn:Ha.
  - pose proof (lookup_create p s _ _ Ha Hs (rf_shape _ _ Rf)) as L.
    destruct (tmpfs_lookup p true s) as [s1 res], (add_path _ _ _ _) as [[m room] ok] eqn:Ea.
    destruct L as (Sh & G & r & Hr & Hres). destruct res as [n|]; [|rewrite Hres; split; [done|by eapply refines_grows]].
    destruct Hres as [-> Hn]. destruct (shape_mod s1 m room r (components p) n f g Sh Hr Hn Hf Hg) as [Sh2 G2].
    split; [done|]. eapply refines_grows; [done| |done]. by eapply grows_trans.
  - destruct p as [|c p]; [by split|]. cbn in Ha. unfold tmpfs_lookup. rewrite Ha. by split.
Qed.

Lemma same_nodes_path s s' n cs : nodes s' = nodes s -> at_path s' n cs = at_path s n cs.
Proof.
  intros E. assert (En : forall k, nget s' k = nget s k) by (intros k; unfold nget; by rewrite E).
  assert (Es : forall f o c, search_children f s' o c = search_children f s o c).
  { induction f as [|f IH]; intros o c; [done|]. destruct o as [k|]; [|done]. cbn [search_children]. rewrite En. by case_bool_decide. }
  assert (Ec : forall m c, find_child s' m c = find_child s m c) by (intros m c; unfold find_child; by rewrite En, Es).
  revert n. induction cs as [|c cs IH]; intros n; [done|]. cbn [at_path]. rewrite Ec. by destruct (find_child s n c); [apply IH|].
Qed.

Lemma open_refines p s sp : refines s sp -> short p ->
  let '(s', a) := tmpfs_open p s in let '(sp', b) := spec_step (fun _ => 0) (Open p) sp in Opened a = b /\ refines s' sp'.
Proof.
  intros Rf Hs. unfold tmpfs_open, spec_step. rewrite (lookup_find p s Hs). destruct (absolute p); [|by split].
  rewrite (sh_map _ _ _ (rf_shape _ _ Rf)). unfold ents. destruct (root s) as [r|] eqn:Hr; cbn; [|by split].
  destruct (at_path s r (components p)) as [n|] eqn:En; cbn; [|by split].
  destruct (n_dir (nget s n) =? 0) eqn:Ed; cbn; [|by split]. pose proof (rf_idx _ _ Rf) as Hi. pose proof (rf_pool _ _ Rf) as Hl.
  destruct (Z.leb_spec FILE_POOL_SIZE (file_pool_idx s)) as [Hx|Hx].
  { rewrite (proj2 (Z.ltb_ge _ _)) by lia. by split. }
  rewrite (proj2 (Z.ltb_lt _ _)) by lia. rewrite (rf_ops _ _ Rf). cbv beta iota. split; [by do 2 f_equal|]. unfold FILE_POOL_SIZE in *.
  constructor; cbn; try apply Rf.
  - destruct (rf_shape _ _ Rf) as [[ch T] Hm Hroom]. constructor; [exists ch; by apply (same_links_tree s)| |exact Hroom].
    intros cs. rewrite Hm. unfold ents. cbn. destruct (root s) as [z|]; [|done]. cbn.
    assert (E : forall s', nodes s' = nodes s -> info s <$> at_path s z cs = info s' <$> at_path s' z cs); [|by apply E].
    intros s' E. rewrite (same_nodes_path s s') by done. unfold info, nget. by rewrite E.
  - rewrite length_app, Hi. cbn. lia.
  - unfold FILE_POOL_SIZE. lia.
  - rewrite length_aset. done.
  - done.
  - intros i cs Hcs. exists r. split; [done|]. etrans; [by apply (same_nodes_path s)|]. unfold fget. cbn.
    rewrite aget_aset by lia. apply lookup_app_Some in Hcs as [Hcs|[Hge Hcs]].
    + pose proof (lookup_lt_Some _ _ _ Hcs). rewrite decide_False by lia.
      destruct (rf_open _ _ Rf i cs Hcs) as (r' & Hr' & Hp). by simplify_eq.
    + apply list_lookup_singleton_Some in Hcs as [Hk <-]. by rewrite decide_True by lia.
Qed.

Lemma read_refines mem f off size s sp : refines s sp ->
  let '(s', a) := step mem (Read f off size) s in let '(sp', b) := spec_step mem (Read f off size) sp in a = b /\ refines s' sp'.
Proof.
  intros Rf. cbn [step spec_step]. pose proof (rf_idx _ _ Rf) as Hi. destruct (Z.leb_spec (file_pool_idx s) (Z.of_nat f)) as [Hx|Hx].
  { rewrite lookup_ge_None_2 by lia. by split. }
  destruct (lookup_lt_is_Some_2 (sp_open sp) f) as [cs Hcs]; [lia|]. rewrite Hcs. cbn [mbind option_bind].
  destruct (rf_open _ _ Rf f cs Hcs) as (r & Hr & Hp). rewrite (sh_map _ _ _ (rf_shape _ _ Rf)). unfold ents. rewrite Hr. cbn [mbind option_bind].
  rewrite Hp. cbn [fmap option_fmap option_map]. unfold tmpfs_read_op, info. cbn [e_data e_size].
  set (n := nget s _). destruct (n_data n =? 0); [by split|]. destruct (Z.leb_spec (n_size n) off).
  { split; [|done]. replace (Z.to_nat (Z.min size (n_size n - off))) with 0%nat by lia. done. }
  split; [|done]. do 4 f_equal. destruct (Z.ltb_spec (n_size n - off) size); lia.
Qed.

(** The paths of a request have components of at most 63 bytes. *)
Definition short_op (o : op) : Prop :=
  match o with CreateFile p _ _ | CreateDir p | Open p => short p | Read _ _ _ => True end.

Lemma step_refines mem o s sp : refines s sp -> short_op o ->
  let '(s', a) := step mem o s in let '(sp', b) := spec_step mem o sp in a = b /\ refines s' sp'.
Proof.
  intros Rf Hs. destruct o as [p d sz|p|p|f off sz].
  - pose proof (create_refines p s sp (fun x => x <| n_dir := 0 |> <| n_data := d |> <| n_size := sz |>) (fun _ => Entry 0 d sz) Rf Hs ltac:(done) ltac:(done)) as H.
    unfold step, spec_step, tmpfs_create_file. unfold create_with in H. by destruct (tmpfs_lookup p true s) as [s1 [n|]].
  - pose proof (create_refines p s sp (fun x => x <| n_dir := 1 |>) (fun e => Entry 1 (e_data e) (e_size e)) Rf Hs ltac:(done) ltac:(done)) as H.
    unfold step, spec_step, tmpfs_create_dir. unfold create_with in H. by destruct (tmpfs_lookup p true s) as [s1 [n|]].
  - pose proof (open_refines p s sp Rf Hs) as H. unfold step. by destruct (tmpfs_open p s).
  - by apply read_refines.
Qed.

Lemma init_refines : refines (tmpfs_init tmpfs_bss) (Spec ∅ 64 []).
Proof.
  constructor; try done. constructor; [|done..]. exists (fun _ => []). constructor; try done.
  - intros n [?|Hn]; [done|]. cbn in Hn. lia.
  - intros n k _ Hk. by apply not_elem_of_nil in Hk.
  - intros n _. apply NoDup_nil_2.
  - intros n m k _ _ Hk. by apply not_elem_of_nil in Hk.
Qed.

(** C25: The pool of linked nodes implements a map from paths to entries: in
    any sequence of calls after [tmpfs_init] each answers what the map gives.
    Creating adds the missing directories while there is room for them and
    then writes the entry, one path touching no other; opening finds files
    and not directories, sixteen times at most; reading gives the bytes of
    memory the entry of the path has at that moment, cut at its end. *)
Theorem tmpfs_refines_paths mem ops : Forall short_op ops ->
  run (step mem) ops (tmpfs_init tmpfs_bss) = run (spec_step mem) ops (Spec ∅ (Z.to_nat POOL_SIZE) []).
Proof.
  intros Ho. change (Z.to_nat POOL_SIZE) with 64%nat. pose proof init_refines as Rf. revert Rf.
  generalize (tmpfs_init tmpfs_bss), (Spec ∅ 64 []). induction Ho as [|o ops Hso Ho IH]; intros s sp Rf; [done|]. cbn [run].
  pose proof (step_refines mem o s sp Rf Hso) as H. destruct (step mem o s) as [s' a], (spec_step mem o sp) as [sp' b].
  destruct H as [-> Rf']. f_equal. by apply IH.
Qed.

(** "/bin", "/bin/sh", "/etc//rc". *)
Definition p_bin : list Z := [47; 98; 105; 110].
Definition p_sh : list Z := p_bin ++ [47; 115; 104].
Definition p_rc : list Z := [47; 101; 116; 99; 47; 47; 114; 99].
Definition ops0 : list op :=
  [Open p_sh; CreateDir p_bin; CreateFile p_sh 1000 5; Open p_bin; Open p_sh; Read 0 1 9; CreateFile p_rc 7 1; Read 0 5 9;
   CreateFile p_sh 2000 2; Read 0 0 9; Open p_rc; Read 1 0 1].

Lemma tmpfs_refines_paths_witness :
  run (step (fun a => a)) ops0 (tmpfs_init tmpfs_bss) =
    [Opened None; Status 0; Status 0; Opened None; Opened (Some 0); Bytes [1001; 1002; 1003; 1004]; Status 0; Bytes [];
     Status 0; Bytes [2000; 2001]; Opened (Some 1); Bytes [7]].
Proof.
  rewrite (tmpfs_refines_paths (fun a => a) ops0); [vm_compute; reflexivity|].
  repeat (constructor; [cbn; first [exact I|vm_compute components; repeat (constructor; [cbn; lia|]); constructor]|]). constructor.
Defined.

(** ** What the code does beyond the map *)

(** Reading does not move the file on: the layer above reads at [f_offset],
    which stays, so a reader that goes on until it gets nothing never ends. *)
Lemma read_stays mem f size s : vfs_read (FO := tmpfs_files mem) f size s = (s, (vfs_read (FO := tmpfs_files mem) f size s).2).
Proof.
  destruct f as [f|]; [|done]. cbn. destruct (f_ops (fget s f)) as [o|]; [|done]. destruct (o =? TMPFS_OPS); [|done].
  unfold tmpfs_read_op. by repeat case_match.
Qed.

(** A file can have children, and two files can have the same memory. *)
Example file_as_directory :
  run (step (fun a => a)) [CreateFile p_bin 10 1; CreateFile p_sh 10 1; Open p_bin; Open p_sh; Read 0 0 1; Read 1 0 1] (tmpfs_init tmpfs_bss) =
    [Status 0; Status 0; Opened (Some 0); Opened (Some 1); Bytes [10]; Bytes [10]].
Proof. vm_compute. reflexivity. Qed.

Lemma list_children_bound fuel s c pos max : pos <= max + 1 -> pos + Z.of_nat (length (list_children fuel s c pos max)) <= max + 1.
Proof.
  revert c pos. induction fuel as [|fuel IH]; intros c pos Hp; [cbn; lia|]. destruct c as [c|]; [|cbn; lia]. cbn [list_children].
  destruct (Z.ltb_spec pos (max - 32)); [|cbn; lia]. rewrite length_app, Nat2Z.inj_add, Z.add_assoc. apply IH.
  rewrite length_app. unfold list_name. rewrite length_take. cbn. lia.
Qed.

(** A listing stays in its buffer but for one byte, and can use that one. *)
Lemma tmpfs_list_bound path max s : 0 <= max -> Z.of_nat (length (tmpfs_list path max s).2.1) <= max + 1.
Proof.
  intros Hm. unfold tmpfs_list. destruct (tmpfs_lookup path false s) as [s1 [n|]]; [|cbn; lia].
  destruct (n_dir (nget s1 n) =? 0); [cbn; lia|]. cbv zeta. cbn [snd fst]. rewrite length_app.
  pose proof (list_children_bound (Z.to_nat POOL_SIZE) s1 (n_children (nget s1 n)) 0 max ltac:(lia)).
  destruct (Z.ltb_spec (Z.of_nat (length (list_children (Z.to_nat POOL_SIZE) s1 (n_children (nget s1 n)) 0 max))) max); cbn [length]; lia.
Qed.

Example tmpfs_list_overrun :
  let s := (tmpfs_create_dir (47 :: replicate 40 97) (tmpfs_init tmpfs_bss)).1 in
  Z.of_nat (length (tmpfs_list [47] 36 s).2.1) = 37 /\ (tmpfs_list [47] 36 s).2.2 = 37.
Proof. vm_compute. done. Qed.
End Tmpfs.
