(* ===== verification/Process.v ===== *)
(** Process life cycle and signal posting: the operations of sched.c that also
    touch descriptors, memory or signal state (spawn, exit, kill, timeouts),
    and the posting half of syscall/signal.c (kill_one_task, sys_kill). *)
From S2P Require Import Prelude Ring Sched.

Module Process.
Import Sched.

(** What the scheduler asks of the rest of the kernel [E]. Closing a process's
    descriptors may wake other tasks, so it also takes the scheduler state. *)
Class ProcEnv (E : Type) := {
  signal_globals_reset : E -> E;
  set_exit_request : E -> E;
  pmalloc_contig : Z -> E -> E * option Z;
  vfs_fd_close_all : Z -> sched -> E -> sched * E;
  vfs_fd_get : Z -> E -> option Z;
  vfs_fd_set : Z -> Z -> Z -> E -> E;
  vfs_fd_alloc : Z -> Z -> E -> E;
  devfs_open_tty : E -> E * option Z
}.

(** [s'] comes from [s] by waking tasks of the table. *)
Definition wakes_only : sched -> sched -> Prop :=
  rtc (fun a b => exists t, 0 <= t < task_count a /\ b = sched_wake (Some t) a).

(** The contract the exit path relies on. *)
Class ProcEnvOk (E : Type) `{ProcEnv E} :=
  close_all_wakes : forall p s e, wakes_only s (vfs_fd_close_all p s e).1.

Definition SIG_KILL : Z := 9.
Definition SIG_ALRM : Z := 14.
Definition SIG_CHLD : Z := 17.
Definition SIG_STOP : Z := 19.
Definition SIG_IGN_VAL : Z := 1.
Definition PAGE_SIZE : Z := 4096.
Definition ESRCH : Z := 2 ^ 64 - 3.
Definition EINVAL : Z := 2 ^ 64 - 22.

(** fs/vfs.c [current_pid], as the [int] the owner table stores. *)
Definition current_pid (s : sched) : Z :=
  match current_task s with
  | Some t => if 0 <? pid (tget s t) then i32 (pid (tget s t)) else -1
  | None => -1
  end.

Section Process.
  Context {E : Type} {PE : ProcEnv E}.

(** ** Exit and kill *)
Definition clear_timers (x : task) : task := x <| itimer_deadline := 0 |> <| itimer_interval := 0 |>.

Definition sched_mark_exited (ot : option Z) (code : Z) (s : sched) (e : E) : sched * E :=
    match ot with
    | None => (s, e)
    | Some t =>
        let s1 := mod_task t (fun x => clear_timers (x <| exit_code := code |>)) s in
        let e1 := signal_globals_reset e in
        let s2 := mod_task t (fun x => x <| state := TASK_STATE_ZOMBIE |>) (remove_all t s1) in
        vfs_fd_close_all (i32 (pid (tget s2 t))) s2 e1
    end.

Definition sched_kill (i : Z) (s : sched) (e : E) : sched * E :=
    if (i <? 0) || (task_count s <=? i) then (s, e)
    else if state (tget s i) =? TASK_STATE_ZOMBIE then (s, e)
    else
      let s1 := mod_task i clear_timers s in
      let e1 := signal_globals_reset e in
      let s2 := remove (priority (tget s1 i)) i s1 in
      (clear_current i (mod_task i (fun x => x <| state := TASK_STATE_ZOMBIE |>) s2), e1).

(** ** Creating user tasks *)

(** [task_name], [cwd]: the new strings over what the buffers held. *)
Definition overwrite (new old : list Z) : list Z := new ++ drop (length new) old.

Definition unlimited : Z := 2 ^ 64 - 1.

(** Everything [sched_spawn_process] writes into slot [i] before it allocates
    the kernel stack. *)
Definition spawn_slot (i : Z) (mm : option Z) (ent rsp du dg : Z) (t : task) : task :=
    t <| t_id := i |> <| func := None |> <| fs_base := 0 |> <| gs_base := 0 |>
      <| state := TASK_STATE_READY |> <| priority := 2 |> <| time_slice := TIME_SLICE_BASE * 3 |>
      <| ticks_left := TIME_SLICE_BASE * 3 |> <| core_id := 0 |> <| doorbell_wait := -1 |>
      <| saved_priority := 2 |> <| pid := i |> <| user_rsp := rsp |> <| entry := ent |>
      <| is_user := 1 |> <| mm_context := mm |> <| ppid := 0 |> <| exit_code := 0 |>
      <| name := NameBuf |> <| task_name := overwrite (lit_user ++ [0]) (task_name t) |>
      <| uid := du |> <| gid := dg |> <| euid := du |> <| egid := dg |> <| sid := 0 |>
      <| umask := 0 |> <| pgrp := u32 i |> <| wait_kind := WAIT_NONE |> <| wait_arg := 0 |>
      <| is_fork := 0 |> <| kctx := (kctx t) <| k_valid := 0 |> |>
      <| exit_ctx := (exit_ctx t) <| k_valid := 0 |> |> <| cwd := overwrite [47; 0] (cwd t) |>
      <| rlimit_cur := <[7%nat := 64]> (replicate 16 unlimited) |>
      <| rlimit_max := <[7%nat := 64]> (replicate 16 unlimited) |>
      <| altstack_base := 0 |> <| altstack_size := 0 |> <| altstack_onstack := 0 |>
      <| itimer_deadline := 0 |> <| itimer_interval := 0 |> <| wait_deadline := 0 |>
      <| sig_handler := zeros 64 |> <| sig_flags := zeros 64 |> <| sig_restorer := zeros 64 |>
      <| sig_pending := 0 |> <| sig_blocked := 0 |>.

(** Give each of the descriptors 0, 1, 2 that is free its own /dev/tty. *)
Definition wire_std (s : sched) (e : E) (fd : Z) : E :=
    match vfs_fd_get fd e with
    | Some _ => e
    | None =>
        match devfs_open_tty e with
        | (e1, Some f) => vfs_fd_set (current_pid s) f fd e1
        | (e1, None) => e1
        end
    end.

Definition sched_spawn_process (mm : option Z) (ent rsp : Z) (s : sched) (e : E)
      : sched * E * option Z :=
    let reuse := first_task (fun t => state t =? TASK_STATE_REAPED) s in
    match reuse, MAX_TASKS <=? task_count s with
    | None, true => (s, e, None)
    | _, _ =>
        let i := default (task_count s) reuse in
        let e1 := signal_globals_reset e in
        let s1 := mod_task i (spawn_slot i mm ent rsp (g_default_uid s) (g_default_gid s)) s in
        match pmalloc_contig 4 e1 with
        | (e2, None) => (s1, e2, None)
        | (e2, Some kstack) =>
            let s2 := mod_task i (fun x => x <| kstack_top := u64 (kstack + 4 * PAGE_SIZE) |>) s1 in
            let s3 := enqueue (priority (tget s2 i)) i s2 in
            let s4 := match reuse with
                      | None => s3 <| task_count := task_count s + 1 |>
                      | Some _ => s3
                      end in
            (s4, foldl (wire_std s4) e2 [0; 1; 2], Some i)
        end
    end.

(** The older entry point: no kernel stack, no reuse, three fresh fds. *)
Definition user_slot (i ent rsp : Z) (t : task) : task :=
    t <| t_id := i |> <| name := NameLit lit_user |> <| func := None |>
      <| state := TASK_STATE_READY |> <| priority := 2 |> <| time_slice := TIME_SLICE_BASE * 3 |>
      <| ticks_left := TIME_SLICE_BASE * 3 |> <| core_id := 0 |> <| doorbell_wait := -1 |>
      <| saved_priority := 2 |> <| pid := i |> <| user_rsp := rsp |> <| entry := ent |>
      <| is_user := 1 |> <| mm_context := None |> <| uid := 0 |> <| gid := 0 |> <| pgrp := u32 i |>
      <| sig_handler := zeros 64 |> <| sig_flags := zeros 64 |> <| sig_restorer := zeros 64 |>
      <| sig_pending := 0 |> <| sig_blocked := 0 |>.

Definition open_std (s : sched) (e : E) : E :=
    match devfs_open_tty e with
    | (e1, Some f) => vfs_fd_alloc (current_pid s) f e1
    | (e1, None) => e1
    end.

Definition sched_create_user_task (ent stack_top : Z) (s : sched) (e : E) : sched * E * Z :=
    if MAX_TASKS <=? task_count s then (s, e, -1) else
    let i := task_count s in
    let s1 := mod_task i (user_slot i ent stack_top) s in
    let s2 := enqueue (priority (tget s1 i)) i s1 <| task_count := i + 1 |> in
    (s2, open_std s2 (open_std s2 (open_std s2 e)), i32 (t_id (tget s2 i))).

(** ** Posting signals (syscall/signal.c) *)

(** The default action that ends the task. *)
Definition terminate (t sig : Z) (s : sched) (e : E) : sched * E :=
    if bool_decide (current_task s = Some t) then
      let s1 := mod_task t (fun x => x <| exit_code := sig |>) s in
      let '(s2, e2) := sched_mark_exited (Some t) sig s1 e in
      (s2, set_exit_request e2)
    else sched_kill (i32 (t_id (tget s t))) s e.

Definition kill_one_task (ot : option Z) (sig : Z) (s : sched) (e : E) : sched * E :=
    match ot with
    | None => (s, e)
    | Some t =>
        if (sig <=? 0) || (64 <=? sig) then (s, e)
        else if sig =? SIG_KILL then terminate t sig s e
        else if sig =? SIG_STOP then (s, e)
        else
          let x := tget s t in
          let h := aget (sig_handler x) sig in
          if (SIG_IGN_VAL <? h) && negb (Z.testbit (sig_blocked x) sig) then
            let s1 := mod_task t (fun x => x <| sig_pending := bit_set (sig_pending x) sig |>) s in
            (if (state (tget s1 t) =? TASK_STATE_BLOCKED) && (is_user (tget s1 t) =? 0)
             then sched_wake (Some t) s1 else s1, e)
          else if h =? SIG_IGN_VAL then (s, e)
          else if sig =? SIG_CHLD then (s, e)
          else if (sig =? 18) || (sig =? 19) || (sig =? 20) || (sig =? 21) || (sig =? 22) then (s, e)
          else terminate t sig s e
    end.

Definition signal_deliver_to_task : option Z -> Z -> sched -> E -> sched * E := kill_one_task.

(** The process-group loop: live slots in order, counting the targets. *)
Definition kill_group (pgid sig : Z) (st : sched * E * Z) (i : Z) : sched * E * Z :=
    let '(s, e, sent) := st in
    match sched_get_task i s with
    | None => st
    | Some t =>
        if (pgid =? 1) || (i64 (pid (tget s t)) =? pgid) || (i64 (ppid (tget s t)) =? pgid) then
          let '(s1, e1) := kill_one_task (Some t) sig s e in (s1, e1, sent + 1)
        else st
    end.

Definition sys_kill (p sig : Z) (s : sched) (e : E) : sched * E * Z :=
    if 64 <=? sig then (s, e, EINVAL) else
    let spid := i64 p in
    let isig := i32 sig in
    if 0 <? spid then
      let self := match current_task s with
                  | Some c => if spid =? i64 (pid (tget s c)) then Some c else None
                  | None => None
                  end in
      match (match self with Some c => Some c | None => sched_get_task (i32 p) s end) with
      | None => (s, e, ESRCH)
      | Some t => let '(s1, e1) := kill_one_task (Some t) isig s e in (s1, e1, 0)
      end
    else if spid =? 0 then
      match current_task s with
      | Some c => let '(s1, e1) := kill_one_task (Some c) isig s e in (s1, e1, 0)
      | None => (s, e, 0)
      end
    else
      let '(s1, e1, sent) := foldl (kill_group (- spid) isig) (s, e, 0)
                               (zrange (Z.to_nat (sched_task_count s))) in
      (s1, e1, if sent =? 0 then ESRCH else 0).

(** ** Timers: one slot of [sched_poll_timeouts] *)
Definition expired (now : Z) (t : task) : bool :=
    (state t =? TASK_STATE_BLOCKED) &&
    (if (wait_kind t =? WAIT_TIME) || (wait_kind t =? WAIT_SIGTIMED) || (wait_kind t =? WAIT_SELECT)
     then wait_arg t <=? now
     else (wait_kind t =? WAIT_FUTEX) && negb (wait_deadline t =? 0) && (wait_deadline t <=? now)).

Definition rearm (t : task) : task :=
    t <| itimer_deadline := if itimer_interval t =? 0 then 0
                            else u64 (itimer_deadline t + itimer_interval t) |>.

Definition poll_slot (now : Z) (st : sched * E) (i : Z) : sched * E :=
    let '(s, e) := st in
    if dead (tget s i) then (mod_task i (fun x => x <| itimer_deadline := 0 |>) s, e)
    else
      let '(s1, e1) :=
        if negb (itimer_deadline (tget s i) =? 0) && (itimer_deadline (tget s i) <=? now)
        then signal_deliver_to_task (Some i) SIG_ALRM (mod_task i rearm s) e
        else (s, e) in
      (if expired now (tget s1 i) then sched_wake (Some i) s1 else s1, e1).

Definition sched_poll_timeouts (now : Z) (s : sched) (e : E) : sched * E :=
    foldl (poll_slot now) (s, e) (zrange (Z.to_nat (task_count s))).
End Process.

(** A signal that has a handler but is blocked is not kept pending: the task
    meets the default action. *)
Lemma blocked_signal_terminates {E : Type} {PE : ProcEnv E} t sig s (e : E) :
  0 < sig < 64 -> sig <> SIG_KILL -> sig <> SIG_CHLD -> ~ (18 <= sig <= 22) ->
  SIG_IGN_VAL < aget (sig_handler (tget s t)) sig -> Z.testbit (sig_blocked (tget s t)) sig = true ->
  kill_one_task (Some t) sig s e = terminate t sig s e.
Proof.
  intros Hs Hk Hc Hj Hh Hb. unfold kill_one_task, SIG_STOP, SIG_CHLD, SIG_KILL, SIG_IGN_VAL in *.
  rewrite Hb, andb_false_r.
  repeat match goal with |- context [?a =? ?b] => rewrite (proj2 (Z.eqb_neq a b)) by lia end.
  rewrite (proj2 (Z.leb_gt sig 0)), (proj2 (Z.leb_gt 64 sig)) by lia. done.
Qed.

(** ** Lemmas *)
Lemma mod_task_mod_task s t f g :
  sched_ok s -> 0 <= t < MAX_TASKS ->
  mod_task t g (mod_task t f s) = mod_task t (fun x => g (f x)) s.
Proof.
  intros Hs Ht. unfold mod_task at 1 3. rewrite (tget_mod_eq s t f Hs Ht).
  assert (Et : aset (task_table (mod_task t f s)) t (g (f (tget s t))) = aset (task_table s) t (g (f (tget s t)))).
  { apply (table_mod_twice s (mod_task t f s) t (f (tget s t)) (fun _ => g (f (tget s t)))); done. }
  rewrite Et. done.
Qed.

Lemma wakes_only_facts s s' :
  sched_ok s -> wakes_only s s' ->
  preserves s s' /\ task_count s' = task_count s /\
  forall u, 0 <= u -> state (tget s u) <> TASK_STATE_BLOCKED -> tget s' u = tget s u.
Proof.
  intros Hs Hw. induction Hw as [s|s s1 s' [t [Ht ->]] _ IH].
  { split; [by apply preserves_refl|done]. }
  pose proof (sched_wake_preserves s t Hs Ht) as Hp.
  destruct (IH (proj1 Hp)) as (Hp' & Etc & Hget).
  split; [by eapply preserves_trans|]. split; [by rewrite Etc, sched_wake_tc|].
  intros u Hu Hb.
  assert (E : tget (sched_wake (Some t) s) u = tget s u).
  { destruct (decide (state (tget s t) = TASK_STATE_BLOCKED)) as [Htb|Htb].
    - apply (placed_tget_ne _ _ _ _ u (sched_wake_placed s t Hs Ht Htb)); [lia|done|]. by intros ->.
    - by rewrite sched_wake_not_blocked. }
  rewrite Hget; [done|done|by rewrite E].
Qed.

(** The record an exiting task leaves. *)
Definition exited (code : Z) (x : task) : task :=
  clear_timers (x <| exit_code := code |>) <| state := TASK_STATE_ZOMBIE |>.

Section ExitProofs.
  Context {E : Type} {PE : ProcEnv E} {PEok : ProcEnvOk E}.

(** The state [sched_mark_exited] hands to the descriptor clean-up. *)
Definition exit_core (t code : Z) (s : sched) : sched :=
    mod_task t (fun x => x <| state := TASK_STATE_ZOMBIE |>)
      (remove_all t (mod_task t (fun x => clear_timers (x <| exit_code := code |>)) s)).

Lemma exit_core_placed s t code :
    sched_ok s -> 0 <= t < task_count s ->
    placed s t (exited code (tget s t)) (exit_core t code s).
  Proof.
    intros Hs Ht. pose proof (ok_tc _ Hs) as Htc. unfold exit_core.
    assert (Eq : exit_core t code s = mod_task t (fun _ => exited code (tget s t)) (remove_all t s)).
    { unfold exit_core. rewrite <- !remove_all_mod_task. rewrite mod_task_mod_task by (done || lia).
      rewrite remove_all_mod_task, mod_task_remove_all. done. }
    unfold exit_core in Eq. rewrite Eq.
    apply (placed_remove_all s t (exited code (tget s t)) Hs Ht zombie_not_ready).
  Qed.

Lemma mark_exited_facts s e t code :
    sched_ok s -> 0 <= t < task_count s ->
    let s' := (sched_mark_exited (Some t) code s e).1 in
    preserves s s' /\ task_count s' = task_count s /\
    tget s' t = exited code (tget s t) /\
    forall u, 0 <= u -> u <> t -> state (tget s u) <> TASK_STATE_BLOCKED -> tget s' u = tget s u.
  Proof.
    intros Hs Ht. pose proof (ok_tc _ Hs) as Htc. cbv zeta.
    pose proof (exit_core_placed s t code Hs Ht) as Hp.
    change (sched_mark_exited (Some t) code s e).1 with
      (vfs_fd_close_all (i32 (pid (tget (exit_core t code s) t))) (exit_core t code s) (signal_globals_reset e)).1.
    assert (Hpr : preserves s (exit_core t code s)).
    { refine (placed_in s t _ _ Hs Ht _ Hp). apply (ok_slot _ Hs t Ht). }
    destruct (wakes_only_facts _ _ (proj1 Hpr)
                (close_all_wakes (i32 (pid (tget (exit_core t code s) t))) (exit_core t code s)
                   (signal_globals_reset e))) as (Hp' & Etc & Hget).
    assert (Et : tget (exit_core t code s) t = exited code (tget s t)) by (apply (placed_tget _ _ _ _ Hs Hp); lia).
    assert (Etc' : task_count (exit_core t code s) = task_count s).
    { destruct (pl_tc _ _ _ _ Hp) as [?|[? _]]; [done|lia]. }
    split_and!.
    - by eapply preserves_trans.
    - congruence.
    - rewrite Hget; [done|lia|]. by rewrite Et.
    - intros u Hu Hne Hb. assert (Eu : tget (exit_core t code s) u = tget s u).
      { apply (placed_tget_ne _ _ _ _ u Hp); lia. }
      rewrite Hget; [done|done|by rewrite Eu].
  Qed.

Lemma kill_facts s e i :
    sched_ok s -> 0 <= i < task_count s ->
    let s' := (sched_kill i s e).1 in
    preserves s s' /\ task_count s' = task_count s /\ state (tget s' i) = TASK_STATE_ZOMBIE /\
    forall u, 0 <= u -> u <> i -> tget s' u = tget s u.
  Proof.
    intros Hs Hi. pose proof (ok_tc _ Hs) as Htc. cbv zeta. unfold sched_kill.
    rewrite (proj2 (Z.ltb_ge _ _)), (proj2 (Z.leb_gt _ _)) by lia. cbn [orb].
    destruct (Z.eqb_spec (state (tget s i)) TASK_STATE_ZOMBIE) as [Hz|Hz].
    { cbn [fst]. split_and!; [apply preserves_refl; done| |done..]. done. }
    cbn [fst]. rewrite tget_mod_eq by (done || lia).
    change (priority (clear_timers (tget s i))) with (priority (tget s i)).
    rewrite remove_mod_task.
    set (x := clear_timers (tget s i) <| state := TASK_STATE_ZOMBIE |>).
    assert (Hp : placed s i x (clear_current i (mod_task i (fun y => y <| state := TASK_STATE_ZOMBIE |>)
                (mod_task i clear_timers (remove (priority (tget s i)) i s))))).
    { apply placed_clear. pose proof (placed_remove s i x Hs Hi zombie_not_ready) as [P1 P2 P3 P4 P5 P6].
      constructor; try done.
      by apply (table_mod_twice s _ i (clear_timers (tget s i)) (fun y => y <| state := TASK_STATE_ZOMBIE |>));
        [done|lia|]. }
    split_and!.
    - refine (placed_in s i _ _ Hs Hi _ Hp). apply (ok_slot _ Hs i Hi).
    - destruct (pl_tc _ _ _ _ Hp) as [?|[? _]]; [done|lia].
    - by rewrite (placed_tget _ _ _ _ Hs Hp) by lia.
    - intros u Hu Hne. apply (placed_tget_ne _ _ _ _ u Hp); lia.
  Qed.

(** Exiting is final and clean: the task becomes a ZOMBIE with its code
    recorded and its timers off, is in no run queue (so it is never picked),
    and the scheduler invariant is kept. *)
Theorem sched_mark_exited_spec s e t code :
    sched_ok s -> 0 <= t < task_count s ->
    let s' := (sched_mark_exited (Some t) code s e).1 in
    tget s' t = exited code (tget s t) /\
    (forall l, 0 <= l < MLFQ_LEVELS -> t ∉ ql s' l) /\
    (forall s'' r, sched_next s' = (s'', r) -> r <> t) /\
    sched_ok s' /\ (sched_live s -> sched_live s').
  Proof.
    intros Hs Ht. pose proof (ok_tc _ Hs) as Htc. cbv zeta.
    destruct (mark_exited_facts s e t code Hs Ht) as ([Hok Hlv] & Etc & Et & _). pose proof (Hlv (fun _ => False)) as Hlive. cbv zeta in *.
    set (s' := (sched_mark_exited (Some t) code s e).1) in *.
    assert (Hu : unqueued s' t) by (apply unqueued_state; [done|rewrite Et; exact zombie_not_ready]).
    split; [done|]. split; [exact Hu|]. split; [|done].
    intros s'' r En Hr.
    destruct (sched_next_cases s' Hok) as [(l & u & rest & Hl & _ & Hql & Er & _)|[_ [(i & Hi & Hri & Er & _)|[_ Er]]]];
      rewrite En in Er; cbn [snd] in Er; subst.
    - apply (Hu l Hl). rewrite Hql. left.
    - rewrite Et in Hri. discriminate Hri.
    - injection Er as _ E1. lia.
  Qed.

Lemma terminate_facts s e t sig :
    sched_ok s -> 0 <= t < task_count s ->
    let s' := (terminate t sig s e).1 in
    preserves s s' /\ task_count s' = task_count s /\ state (tget s' t) = TASK_STATE_ZOMBIE /\
    forall u, 0 <= u -> u <> t -> state (tget s u) <> TASK_STATE_BLOCKED -> tget s' u = tget s u.
  Proof.
    intros Hs Ht. pose proof (ok_tc _ Hs) as Htc. cbv zeta. unfold terminate.
    case_bool_decide as Hc.
    - set (s1 := mod_task t (fun x => x <| exit_code := sig |>) s).
      assert (Hp1 : preserves s s1) by (apply mod_task_preserves; [done|lia|done]).
      destruct (mark_exited_facts s1 e t sig (proj1 Hp1) Ht) as (Hp & Etc & Et & Hget).
      destruct (sched_mark_exited (Some t) sig s1 e) as [s2 e2]. cbn [fst] in *.
      split_and!; [by eapply preserves_trans|done|by rewrite Et|].
      intros u Hu Hne Hb. assert (Eu : tget s1 u = tget s u) by (apply tget_mod_ne; lia).
      rewrite Hget; [done|done|done|by rewrite Eu].
    - destruct (ok_slot _ Hs t Ht) as (-> & _). rewrite i32_small by (unfold MAX_TASKS in *; lia).
      destruct (kill_facts s e t Hs Ht) as (Hp & Etc & Ez & Hget). split_and!; try done.
      intros u Hu Hne _. by apply Hget.
  Qed.

(** Posting any signal keeps the invariant and never revives a dead task. *)
Lemma kill_one_task_facts s e t sig :
    sched_ok s -> 0 <= t < task_count s ->
    let s' := (kill_one_task (Some t) sig s e).1 in
    preserves s s' /\ task_count s' = task_count s /\
    (forall u, 0 <= u < task_count s -> dead (tget s u) = true -> dead (tget s' u) = true) /\
    (sig = SIG_KILL -> dead (tget s' t) = true).
  Proof.
    intros Hs Ht. pose proof (ok_tc _ Hs) as Htc. cbv zeta.
    assert (Hterm : let s' := (terminate t sig s e).1 in
      preserves s s' /\ task_count s' = task_count s /\
      (forall u, 0 <= u < task_count s -> dead (tget s u) = true -> dead (tget s' u) = true) /\
      (sig = SIG_KILL -> dead (tget s' t) = true)).
    { cbv zeta. destruct (terminate_facts s e t sig Hs Ht) as (Hp & Etc & Ez & Hget).
      assert (Hd : dead (tget (terminate t sig s e).1 t) = true) by (unfold dead; rewrite Ez; done).
      split_and!; [done|done| |done]. intros u Hu Hdu. destruct (decide (u = t)) as [->|Hne]; [done|].
      rewrite Hget; [done|lia|done|]. intros Eb. unfold dead in Hdu. by rewrite Eb in Hdu. }
    assert (Hsame : (sig = SIG_KILL -> False) ->
      preserves s s /\ task_count s = task_count s /\
      (forall u, 0 <= u < task_count s -> dead (tget s u) = true -> dead (tget s u) = true) /\
      (sig = SIG_KILL -> dead (tget s t) = true)).
    { intros Hn. split_and!; [by apply preserves_refl|done|done|by intros ?%Hn]. }
    unfold kill_one_task.
    destruct (Z.leb_spec sig 0); cbn [orb]; [apply Hsame; unfold SIG_KILL; lia|].
    destruct (Z.leb_spec 64 sig); [apply Hsame; unfold SIG_KILL; lia|].
    destruct (Z.eqb_spec sig SIG_KILL) as [|Hnk]; [exact Hterm|].
    destruct (sig =? SIG_STOP); [by apply Hsame|]. cbv zeta.
    destruct ((_ <? _) && _).
    2: { destruct (_ =? SIG_IGN_VAL); [by apply Hsame|]. destruct (_ =? SIG_CHLD); [by apply Hsame|].
         destruct (_ || _); [by apply Hsame|exact Hterm]. }
    cbn [fst].
    set (s1 := mod_task t (fun x => x <| sig_pending := bit_set (sig_pending x) sig |>) s).
    assert (Hp1 : preserves s s1) by (apply mod_task_preserves; [done|lia|done]).
    assert (Hst : forall u, 0 <= u -> state (tget s1 u) = state (tget s u)).
    { intros u Hu. destruct (decide (u = t)) as [->|Hne].
      - unfold s1. by rewrite tget_mod_eq by (done || lia).
      - unfold s1. by rewrite tget_mod_ne by lia. }
    assert (Hdead : forall u, 0 <= u -> dead (tget s1 u) = dead (tget s u)).
    { intros u Hu. unfold dead. by rewrite Hst. }
    destruct ((state (tget s1 t) =? TASK_STATE_BLOCKED) && (is_user (tget s1 t) =? 0)).
    2: { split_and!; [done|done| |done]. intros u Hu. rewrite Hdead by lia. done. }
    destruct (wakes_only_facts s1 (sched_wake (Some t) s1) (proj1 Hp1)) as (Hp2 & Etc & Hget).
    { apply rtc_once. exists t. split; [exact Ht|done]. }
    split_and!; [by eapply preserves_trans|done| |done].
    intros u Hu Hdu. rewrite Hget; [rewrite Hdead by lia; done|lia|].
    rewrite Hst by lia. intros Eb. unfold dead in Hdu. by rewrite Eb in Hdu.
  Qed.

Lemma kill_group_facts pgid sig is0 s e sent :
    sched_ok s -> (forall i, i ∈ is0 -> 0 <= i < task_count s) ->
    let s' := (foldl (kill_group pgid sig) (s, e, sent) is0).1.1 in
    sched_ok s' /\ task_count s' = task_count s /\
    (forall u, 0 <= u < task_count s -> dead (tget s u) = true -> dead (tget s' u) = true) /\
    (pgid = 1 -> sig = SIG_KILL -> forall u, u ∈ is0 -> dead (tget s' u) = true).
  Proof.
    revert s e sent. induction is0 as [|i l IH]; intros s e sent Hs Hin; cbv zeta; cbn [foldl].
    { split_and!; try done. intros _ _ u Hu. by apply not_elem_of_nil in Hu. }
    assert (Hi : 0 <= i < task_count s) by (apply Hin; left).
    assert (Hstep : exists s1 e1 n1, kill_group pgid sig (s, e, sent) i = (s1, e1, n1) /\
      sched_ok s1 /\ task_count s1 = task_count s /\
      (forall u, 0 <= u < task_count s -> dead (tget s u) = true -> dead (tget s1 u) = true) /\
      (pgid = 1 -> sig = SIG_KILL -> dead (tget s1 i) = true)).
    { unfold kill_group, sched_get_task.
      rewrite (proj2 (Z.ltb_ge _ _)), (proj2 (Z.leb_gt _ _)) by lia. cbn [orb].
      destruct (dead (tget s i)) eqn:Hd.
      { exists s, e, sent. split; [done|]. split_and!; done. }
      destruct ((pgid =? 1) || _ || _) eqn:Hp.
      - pose proof (kill_one_task_facts s e i sig Hs Hi) as (Hp' & Etc & Hdead & Hk).
        destruct (kill_one_task (Some i) sig s e) as [s1 e1]. exists s1, e1, (sent + 1).
        split; [done|]. split_and!; [apply Hp'|done|done|]. intros _. exact Hk.
      - exists s, e, sent. split; [done|]. split_and!; try done. intros ->. discriminate Hp. }
    destruct Hstep as (s1 & e1 & n1 & -> & Hok1 & Etc1 & Hd1 & Hk1).
    destruct (IH s1 e1 n1 Hok1) as (Hok' & Etc' & Hd' & Hk').
    { intros j Hj. rewrite Etc1. apply Hin. by right. }
    split_and!; [done|congruence| |].
    - intros u Hu Hdu. apply Hd'; [lia|]. by apply Hd1.
    - intros E1 E2 u [->|Hu]%elem_of_cons; [|by apply Hk'].
      apply Hd'; [lia|]. by apply Hk1.
  Qed.

(** [kill(-1, SIGKILL)] leaves no live task at all, the idle task and the
    kernel's own tasks included; the run queues are then empty. *)
Theorem kill_all_kills_every_task s e :
    sched_ok s ->
    let '(s', _, _) := sys_kill (2 ^ 64 - 1) SIG_KILL s e in
    sched_ok s' /\
    (forall u, 0 <= u < task_count s -> sched_get_task u s' = None) /\
    (forall l, 0 <= l < MLFQ_LEVELS -> ql s' l = []) /\
    (sched_next s').2 = -1.
  Proof.
    intros Hs. pose proof (ok_tc _ Hs) as Htc. unfold sys_kill.
    change (64 <=? SIG_KILL) with false. change (0 <? i64 (2 ^ 64 - 1)) with false.
    change (i64 (2 ^ 64 - 1) =? 0) with false. cbv iota zeta.
    change (- i64 (2 ^ 64 - 1)) with 1. change (i32 SIG_KILL) with SIG_KILL.
    destruct (kill_group_facts 1 SIG_KILL (zrange (Z.to_nat (sched_task_count s))) s e 0 Hs) as (Hok & Etc & _ & Hd).
    { intros i Hi%elem_of_zrange. unfold sched_task_count in Hi. lia. }
    destruct (foldl _ (s, e, 0) _) as [[s' e'] sent]. cbn [fst] in *.
    assert (Hdead : forall u, 0 <= u < task_count s -> dead (tget s' u) = true).
    { intros u Hu. apply Hd; [done|done|]. apply elem_of_zrange. unfold sched_task_count. lia. }
    assert (Hemp : forall l, 0 <= l < MLFQ_LEVELS -> ql s' l = []).
    { intros l Hl. destruct (ql s' l) as [|u rest] eqn:Eq0; [done|].
      assert (Hin : u ∈ ql s' l) by (rewrite Eq0; left).
      destruct (ok_queued _ Hok l u Hl Hin) as (Hu & Hr & _). rewrite Etc in Hu.
      specialize (Hdead u Hu). unfold dead in Hdead. by rewrite Hr in Hdead. }
    split_and!; [done| |done|].
    - intros u Hu. unfold sched_get_task. destruct (_ || _); [done|]. by rewrite Hdead.
    - destruct (sched_next_cases s' Hok) as [(l & u & rest & Hl & _ & Hql & _)|[_ [(i & Hi & Hr & _)|[_ ->]]]].
      + by rewrite Hemp in Hql.
      + pose proof (ok_idle _ Hok i Hi) as Hir. rewrite Etc in Hir. specialize (Hdead i Hir).
        unfold dead in Hdead. by rewrite Hr in Hdead.
      + done.
  Qed.
End ExitProofs.

(** ** Spawning *)
Lemma spawn_slot_ok i mm ent rsp du dg t : slot_ok i (spawn_slot i mm ent rsp du dg t).
Proof.
  split; [reflexivity|]. unfold MLFQ_LEVELS.
  change (priority (spawn_slot i mm ent rsp du dg t)) with 2.
  change (saved_priority (spawn_slot i mm ent rsp du dg t)) with 2. lia.
Qed.

Lemma spawn_slot_fields i mm ent rsp du dg t :
  state (spawn_slot i mm ent rsp du dg t) = TASK_STATE_READY /\
  priority (spawn_slot i mm ent rsp du dg t) = 2 /\ pid (spawn_slot i mm ent rsp du dg t) = i.
Proof. split_and!; reflexivity. Qed.

(** Setting the kernel stack changes none of the fields the scheduler uses. *)
Lemma kstack_fields i k (y : task) :
  state y = TASK_STATE_READY -> priority y = 2 -> pid y = i -> slot_ok i y ->
  state (y <| kstack_top := k |>) = TASK_STATE_READY /\ priority (y <| kstack_top := k |>) = 2 /\
  pid (y <| kstack_top := k |>) = i /\ slot_ok i (y <| kstack_top := k |>).
Proof. done. Qed.

Lemma enqueue_tc l t n s : enqueue l t (s <| task_count := n |>) = enqueue l t s <| task_count := n |>.
Proof. done. Qed.

(** The slot a new process gets: the first REAPED one, or a new one. *)
Definition spawn_index (s : sched) : option Z :=
  match first_task (fun t => state t =? TASK_STATE_REAPED) s with
  | Some i => Some i
  | None => if MAX_TASKS <=? task_count s then None else Some (task_count s)
  end.

Lemma spawn_index_spec s i :
  sched_ok s -> spawn_index s = Some i ->
  0 <= i < MAX_TASKS /\ unqueued s i /\ i <= task_count s /\
  (i < task_count s -> state (tget s i) = TASK_STATE_REAPED).
Proof.
  intros Hs. pose proof (ok_tc _ Hs) as Htc. unfold spawn_index.
  destruct (first_task _ s) as [j|] eqn:Hf.
  - intros [= <-]. apply first_task_Some in Hf as (Hj & Hr%Z.eqb_eq & _); [|done].
    split; [lia|]. split; [|split; [lia|done]]. apply unqueued_state; [done|]. by rewrite Hr.
  - destruct (Z.leb_spec MAX_TASKS (task_count s)); [done|]. intros [= <-].
    split; [lia|]. split; [|split; lia]. apply unqueued_beyond; [done|lia].
Qed.

Section SpawnProofs.
  Context {E : Type} {PE : ProcEnv E}.

(** Spawning takes the first REAPED slot, or a new one, and gives it a
    READY process whose pid is its slot number, with default credentials,
    limits and signal state and a 16 KB kernel stack; it joins the back of the
    middle queue, every other slot is untouched and the invariant is kept. It
    fails only when the table is full or the stack cannot be allocated. *)
Theorem sched_spawn_process_spec mm ent rsp s e :
    sched_ok s ->
    let '(s', _, r) := sched_spawn_process mm ent rsp s e in
    match r with
    | Some i =>
        spawn_index s = Some i /\
        (exists kstack,
           tget s' i = spawn_slot i mm ent rsp (g_default_uid s) (g_default_gid s) (tget s i)
                         <| kstack_top := u64 (kstack + 4 * PAGE_SIZE) |>) /\
        pid (tget s' i) = i /\ state (tget s' i) = TASK_STATE_READY /\ ql s' 2 = ql s 2 ++ [i] /\
        (forall u, 0 <= u -> u <> i -> tget s' u = tget s u) /\ preserves s s'
    | None =>
        (spawn_index s = None /\ s' = s) \/
        ((pmalloc_contig 4 (signal_globals_reset e)).2 = None /\
         exists i, spawn_index s = Some i /\
           s' = mod_task i (spawn_slot i mm ent rsp (g_default_uid s) (g_default_gid s)) s)
    end.
  Proof.
    intros Hs. pose proof (ok_tc _ Hs) as Htc.
    assert (Hcase : sched_spawn_process mm ent rsp s e =
      match spawn_index s with
      | None => (s, e, None)
      | Some i =>
          let s1 := mod_task i (spawn_slot i mm ent rsp (g_default_uid s) (g_default_gid s)) s in
          match pmalloc_contig 4 (signal_globals_reset e) with
          | (e2, None) => (s1, e2, None)
          | (e2, Some kstack) =>
              let s2 := mod_task i (fun x => x <| kstack_top := u64 (kstack + 4 * PAGE_SIZE) |>) s1 in
              let s3 := enqueue (priority (tget s2 i)) i s2 in
              let s4 := match first_task (fun t => state t =? TASK_STATE_REAPED) s with
                        | None => s3 <| task_count := task_count s + 1 |>
                        | Some _ => s3
                        end in
              (s4, foldl (wire_std s4) e2 [0; 1; 2], Some i)
          end
      end).
    { unfold sched_spawn_process, spawn_index. destruct (first_task _ s); [done|].
      by destruct (MAX_TASKS <=? task_count s). }
    rewrite Hcase. clear Hcase.
    destruct (spawn_index s) as [i|] eqn:Hi; [|by left].
    destruct (spawn_index_spec s i Hs Hi) as (Hir & Hun & Hile & Hreap).
    cbv zeta. destruct (pmalloc_contig 4 (signal_globals_reset e)) as [e2 [kstack|]] eqn:Hpm.
    2: { right. split; [done|]. by exists i. }
    rewrite mod_task_mod_task by (done || lia).
    destruct (spawn_slot_fields i mm ent rsp (g_default_uid s) (g_default_gid s) (tget s i)) as (Hy1 & Hy2 & Hy3).
    destruct (kstack_fields i (u64 (kstack + 4 * PAGE_SIZE)) _ Hy1 Hy2 Hy3 (spawn_slot_ok i mm ent rsp _ _ _))
      as (Hx1 & Hx2 & Hx3 & Hx).
    set (x := spawn_slot i mm ent rsp (g_default_uid s) (g_default_gid s) (tget s i)
                <| kstack_top := u64 (kstack + 4 * PAGE_SIZE) |>) in *.
    set (s2 := mod_task i (fun y => spawn_slot i mm ent rsp (g_default_uid s) (g_default_gid s) y
                <| kstack_top := u64 (kstack + 4 * PAGE_SIZE) |>) s).
    assert (Ex : tget s2 i = x) by (unfold s2; by rewrite tget_mod_eq by done).
    rewrite Ex, Hx2. assert (Et2 : task_table s2 = aset (task_table s) i x) by reflexivity.
    clearbody x.
    set (s4 := match first_task _ s with Some _ => _ | None => _ end).
    assert (Hp : placed s i x s4 /\ i < task_count s4 <= MAX_TASKS).
    { assert (Hq : forall l, 0 <= l < MLFQ_LEVELS ->
         q_ok (qget s l) /\ ql s l = filter (fun y => y <> i) (ql s l)).
      { intros l Hl. split; [exact (ok_q _ Hs l Hl)|]. symmetry. by apply filter_ne_id, Hun. }
      unfold s4. unfold spawn_index in Hi. destruct (first_task _ s) as [j|] eqn:Hf.
      - injection Hi as ->. apply first_task_Some in Hf as (Hj & _); [|done]. split.
        + rewrite <- Hx2. apply (placed_enqueue s s2 i x Hs Hir Hx Hx1 Et2); [by left|done|done|done|exact Hq].
        + change (task_count (enqueue 2 i s2)) with (task_count s). lia.
      - destruct (Z.leb_spec MAX_TASKS (task_count s)); [done|]. injection Hi as Ei. split.
        + unfold s4. rewrite <- Hx2, <- enqueue_tc.
          assert (Et3 : task_table (s2 <| task_count := task_count s + 1 |>) = aset (task_table s) i x) by exact Et2.
          refine (placed_enqueue s _ i x Hs Hir Hx Hx1 Et3 _ _ _ _ Hq);
            [right; split; [done|simpl; lia]|done|done|done].
        + change (task_count (enqueue 2 i s2 <| task_count := task_count s + 1 |>)) with (task_count s + 1). lia. }
    destruct Hp as [Hp [Hlt Hle]].
    assert (Hpr : preserves s s4).
    { refine (placed_preserves s i x s4 Hs _ Hle Hx Hp). lia. }
    rewrite (placed_tget _ _ _ _ Hs Hp) by done.
    split; [done|]. split; [by exists kstack; rewrite <- Ex; unfold s2; rewrite tget_mod_eq|]. split; [done|]. split; [done|]. split; [|split].
    - destruct (pl_q _ _ _ _ Hp 2) as [_ ->]; [unfold MLFQ_LEVELS; lia|].
      rewrite decide_True by done. f_equal. apply filter_ne_id, Hun. unfold MLFQ_LEVELS. lia.
    - intros u Hu Hne. apply (placed_tget_ne _ _ _ _ u Hp); lia.
    - exact Hpr.
  Qed.

(** When the kernel stack of a process that would reuse a REAPED slot
    cannot be allocated, the slot is left READY and in no queue: it is neither
    reusable nor ever scheduled, so the slot is lost. *)
Theorem spawn_oom_loses_slot mm ent rsp s e i :
    sched_ok s -> first_task (fun t => state t =? TASK_STATE_REAPED) s = Some i ->
    idle_task s <> Some i ->
    (pmalloc_contig 4 (signal_globals_reset e)).2 = None ->
    let '(s', _, r) := sched_spawn_process mm ent rsp s e in
    r = None /\ state (tget s' i) = TASK_STATE_READY /\
    (forall l, 0 <= l < MLFQ_LEVELS -> i ∉ ql s' l) /\
    first_task (fun t => state t =? TASK_STATE_REAPED) s' <> Some i /\ ~ sched_live s'.
  Proof.
    intros Hs Hf Hidle Hpm. pose proof (ok_tc _ Hs) as Htc.
    pose proof (first_task_Some _ _ _ Hs Hf) as (Hi & Hr%Z.eqb_eq & _).
    unfold sched_spawn_process. rewrite Hf.
    destruct (pmalloc_contig 4 (signal_globals_reset e)) as [e2 r2]. cbn [snd] in Hpm. subst r2.
    cbv zeta. change (default (task_count s) (Some i)) with i.
    set (s' := mod_task i _ s).
    assert (Ex : tget s' i = spawn_slot i mm ent rsp (g_default_uid s) (g_default_gid s) (tget s i)).
    { unfold s'. by rewrite tget_mod_eq by (done || lia). }
    assert (Est : state (tget s' i) = TASK_STATE_READY) by (by rewrite Ex).
    assert (Hun : forall l, 0 <= l < MLFQ_LEVELS -> i ∉ ql s' l).
    { intros l Hl. unfold s'. rewrite ql_mod_task. apply unqueued_state; [done| |done]. by rewrite Hr. }
    split; [done|]. split; [done|]. split; [done|]. split.
    - intros Hf'. unfold first_task in Hf'. apply fmap_Some in Hf' as (k & Hk & Ek).
      apply find_index_Some in Hk as (y & Hy & Hp%Z.eqb_eq & _).
      apply lookup_take_Some in Hy as [Hy _].
      assert (y = tget s' i) as ->.
      { unfold tget, aget. rewrite Ek, Nat2Z.id. symmetry. by apply list_lookup_total_correct. }
      rewrite Est in Hp. discriminate Hp.
    - intros Hl. destruct (Hl i Hi Est) as [H|[H|[]]]; [done|]. apply (Hun (priority (tget s' i))); [|done].
      rewrite Ex. change (priority (spawn_slot i mm ent rsp (g_default_uid s) (g_default_gid s) (tget s i))) with 2.
      unfold MLFQ_LEVELS. lia.
  Qed.
End SpawnProofs.

(** ** A small environment: closing wakes nothing, [e] kernel stacks are left *)
Definition ex_env : ProcEnv Z := {|
  signal_globals_reset := fun e => e;
  set_exit_request := fun e => e;
  pmalloc_contig := fun _ e => if 0 <? e then (e - 1, Some 0x900000) else (e, None);
  vfs_fd_close_all := fun _ s e => (s, e);
  vfs_fd_get := fun _ _ => Some 0;
  vfs_fd_set := fun _ _ _ e => e;
  vfs_fd_alloc := fun _ _ e => e;
  devfs_open_tty := fun e => (e, None)
|}.

Lemma ex_env_ok : @ProcEnvOk Z ex_env.
Proof. intros p s e. apply rtc_refl. Qed.

Lemma sched_mark_exited_spec_witness :
  tget (@sched_mark_exited Z ex_env (Some 1) 7 ex_two 0).1 1 = exited 7 (tget ex_two 1).
Proof.
  apply (@sched_mark_exited_spec Z ex_env ex_env_ok ex_two 0 1 7 ex_two_ok).
  vm_compute. split; [discriminate|reflexivity].
Defined.

Lemma kill_all_kills_every_task_witness :
  (sched_next (@sys_kill Z ex_env (2 ^ 64 - 1) SIG_KILL ex_two 0).1.1).2 = -1.
Proof.
  pose proof (@kill_all_kills_every_task Z ex_env ex_env_ok ex_two 0 ex_two_ok) as H.
  destruct (@sys_kill Z ex_env (2 ^ 64 - 1) SIG_KILL ex_two 0) as [[s' e'] r]. apply H.
Defined.

Lemma sched_spawn_process_spec_witness :
  (@sched_spawn_process Z ex_env (Some 5) 0x400000 0x7000 ex_two 1).2 = Some 3 /\
  ql (@sched_spawn_process Z ex_env (Some 5) 0x400000 0x7000 ex_two 1).1.1 2 = [1; 2; 3].
Proof.
  split; [vm_compute; reflexivity|].
  pose proof (@sched_spawn_process_spec Z ex_env (Some 5) 0x400000 0x7000 ex_two 1 ex_two_ok) as H.
  assert (Hr : (@sched_spawn_process Z ex_env (Some 5) 0x400000 0x7000 ex_two 1).2 = Some 3) by (vm_compute; reflexivity).
  destruct (@sched_spawn_process Z ex_env (Some 5) 0x400000 0x7000 ex_two 1) as [[s' e'] r].
  cbn [snd fst] in *. subst r. destruct H as (_ & _ & _ & _ & -> & _). vm_compute. reflexivity.
Defined.

(** Task 1 exits and is reaped. *)
Definition ex_reaped : sched := sched_force_reap 1 (@sched_mark_exited Z ex_env (Some 1) 0
  (mod_task 1 (fun x => x <| pid := 1 |>) ex_two) 0).1.

Lemma ex_reaped_ok : sched_ok ex_reaped.
Proof.
  apply sched_force_reap_preserves.
  assert (H : sched_ok (mod_task 1 (fun x => x <| pid := 1 |>) ex_two)).
  { apply mod_task_ok; [apply ex_two_ok|vm_compute; split; [discriminate|reflexivity]|done]. }
  apply (@mark_exited_facts Z ex_env ex_env_ok _ 0 1 0 H).
  vm_compute. split; [discriminate|reflexivity].
Qed.

Lemma spawn_oom_loses_slot_witness :
  ~ sched_live (@sched_spawn_process Z ex_env (Some 5) 0x400000 0x7000 ex_reaped 0).1.1.
Proof.
  pose proof (@spawn_oom_loses_slot Z ex_env (Some 5) 0x400000 0x7000 ex_reaped 0 1 ex_reaped_ok) as H.
  specialize (H ltac:(vm_compute; reflexivity) ltac:(vm_compute; discriminate) eq_refl).
  destruct (@sched_spawn_process Z ex_env (Some 5) 0x400000 0x7000 ex_reaped 0) as [[s' e'] r].
  apply H.
Defined.
End Process.
