(* ===== verification/Reach.v ===== *)
(** Reachable scheduler states: every operation of sched.c, syscall/signal.c
    and table.c that changes a task's state, a run queue or the current task,
    as one step relation; the invariant of the states it reaches from
    [sched_init] and what [sched_next] promises in them. *)
From stdpp Require Import gmap.
From S2P Require Import Prelude Ring Sched Process.

Module Reach.
Import Sched Process.

(** ** More of the life cycle keeps the invariant *)
Section Steps.
  Context {E : Type} {PE : ProcEnv E} {PEok : ProcEnvOk E}.

Lemma kill_group_preserves pgid sig is0 s (e : E) sent :
    sched_ok s -> (forall i, i ∈ is0 -> 0 <= i < task_count s) ->
    preserves s (foldl (kill_group pgid sig) (s, e, sent) is0).1.1.
  Proof.
    revert s e sent. induction is0 as [|i l IH]; intros s e sent Hs Hin; [by apply preserves_refl|].
    cbn [foldl]. assert (Hi : 0 <= i < task_count s) by (apply Hin; left).
    destruct (kill_one_task_facts s e i sig Hs Hi) as (Hp & Etc & _).
    unfold kill_group at 2. destruct (sched_get_task i s) as [t|] eqn:Hg.
    2: { apply IH; [done|]. intros j Hj. apply Hin. by right. }
    assert (t = i) as -> by (unfold sched_get_task in Hg; destruct (_ || _); [done|]; destruct (dead _); congruence).
    destruct ((pgid =? 1) || _ || _).
    - destruct (kill_one_task (Some i) sig s e) as [s1 e1]. cbn [fst] in *.
      eapply preserves_trans; [exact Hp|]. apply IH; [apply Hp|]. intros j Hj. rewrite Etc. apply Hin. by right.
    - apply IH; [done|]. intros j Hj. apply Hin. by right.
  Qed.

Lemma kill_one_task_preserves ot sig s (e : E) :
    sched_ok s -> (forall t, ot = Some t -> 0 <= t < task_count s) ->
    preserves s (kill_one_task ot sig s e).1.
  Proof.
    intros Hs Ht. destruct ot as [t|]; [|by apply preserves_refl].
    apply kill_one_task_facts; [done|by apply Ht].
  Qed.

Lemma sys_kill_preserves p sig s (e : E) : sched_ok s -> preserves s (sys_kill p sig s e).1.1.
  Proof.
    intros Hs. unfold sys_kill. destruct (64 <=? sig); [by apply preserves_refl|]. cbv zeta.
    destruct (0 <? i64 p).
    - destruct (match match current_task s with Some c => _ | None => None end with Some c => _ | None => _ end) as [t|] eqn:Ht;
        [|by apply preserves_refl].
      pose proof (kill_one_task_preserves (Some t) (i32 sig) s e Hs) as Hp.
      destruct (kill_one_task (Some t) (i32 sig) s e) as [s1 e1]. apply Hp. intros ? [= <-].
      assert (Hself : current_task s = Some t \/ sched_get_task (i32 p) s = Some t).
      { destruct (current_task s) as [c|]; [|by right]. destruct (_ =? _); [left; congruence|by right]. }
      destruct Hself as [Hc|Hg]; [by apply (ok_cur _ Hs)|].
      unfold sched_get_task in Hg. destruct (Z.ltb_spec (i32 p) 0), (Z.leb_spec (task_count s) (i32 p)); try done.
      cbn [orb] in Hg. destruct (dead _); [done|]. injection Hg as <-. lia.
    - destruct (i64 p =? 0).
      + destruct (current_task s) as [c|] eqn:Hc; [|by apply preserves_refl].
        pose proof (kill_one_task_preserves (Some c) (i32 sig) s e Hs) as Hp.
        destruct (kill_one_task (Some c) (i32 sig) s e) as [s1 e1]. apply Hp. intros ? [= <-]. by apply (ok_cur _ Hs).
      + pose proof (kill_group_preserves (- i64 p) (i32 sig) (zrange (Z.to_nat (sched_task_count s))) s e 0 Hs) as Hp.
        destruct (foldl _ (s, e, 0) _) as [[s1 e1] n]. apply Hp.
        intros i Hi%elem_of_zrange. unfold sched_task_count in Hi. pose proof (ok_tc _ Hs). lia.
  Qed.

Lemma poll_slot_preserves now s (e : E) i :
    sched_ok s -> 0 <= i < task_count s ->
    preserves s (poll_slot now (s, e) i).1 /\ task_count (poll_slot now (s, e) i).1 = task_count s.
  Proof.
    intros Hs Hi. pose proof (ok_tc _ Hs) as Htc. unfold poll_slot.
    destruct (dead (tget s i)).
    { split; [|done]. cbn [fst]. apply mod_task_preserves; [done|lia|done]. }
    assert (Hsig : forall s1 (e1 : E), (if negb (itimer_deadline (tget s i) =? 0) && (itimer_deadline (tget s i) <=? now)
        then signal_deliver_to_task (Some i) SIG_ALRM (mod_task i rearm s) e else (s, e)) = (s1, e1) ->
      preserves s s1 /\ task_count s1 = task_count s).
    { intros s1 e1. destruct (_ && _); [|intros [= <- <-]; split; [by apply preserves_refl|done]].
      assert (Hr : preserves s (mod_task i rearm s)) by (apply mod_task_preserves; [done|lia|done]).
      destruct (kill_one_task_facts (mod_task i rearm s) e i SIG_ALRM (proj1 Hr) Hi) as (Hp & Etc & _).
      unfold signal_deliver_to_task. intros Eq. rewrite Eq in *.
      split; [by eapply preserves_trans|exact Etc]. }
    destruct (if negb _ && _ then _ else _) as [s1 e1] eqn:Eq. destruct (Hsig _ _ eq_refl) as [Hp Etc]. cbn [fst].
    destruct (expired now (tget s1 i)); [|done].
    split; [|rewrite sched_wake_tc; [exact Etc|apply Hp|lia]]. eapply preserves_trans; [exact Hp|].
    apply sched_wake_preserves; [apply Hp|lia].
  Qed.

Lemma poll_timeouts_preserves now s (e : E) : sched_ok s -> preserves s (sched_poll_timeouts now s e).1.
  Proof.
    intros Hs. unfold sched_poll_timeouts.
    assert (Hin : forall i, i ∈ zrange (Z.to_nat (task_count s)) -> 0 <= i < task_count s).
    { intros i Hi%elem_of_zrange. pose proof (ok_tc _ Hs). lia. }
    revert Hin. generalize (zrange (Z.to_nat (task_count s))) as is0. intros is0. revert s e Hs.
    induction is0 as [|i l IH]; intros s e Hs Hin; [by apply preserves_refl|]. cbn [foldl].
    destruct (poll_slot_preserves now s e i Hs ltac:(apply Hin; left)) as [Hp Etc].
    destruct (poll_slot now (s, e) i) as [s1 e1]. cbn [fst] in *.
    eapply preserves_trans; [exact Hp|]. apply IH; [apply Hp|]. intros j Hj. rewrite Etc. apply Hin. by right.
  Qed.

Lemma create_user_task_preserves ent top s (e : E) :
    sched_ok s -> preserves s (sched_create_user_task ent top s e).1.1.
  Proof.
    intros Hs. pose proof (ok_tc _ Hs) as Htc. unfold sched_create_user_task.
    destruct (Z.leb_spec MAX_TASKS (task_count s)) as [|Hlt]; [by apply preserves_refl|]. cbv zeta. cbn [fst].
    set (i := task_count s). set (s1 := mod_task i (user_slot i ent top) s).
    assert (Ex : tget s1 i = user_slot i ent top (tget s i)) by (unfold s1; by rewrite tget_mod_eq by (done || lia)).
    rewrite Ex. set (x := user_slot i ent top (tget s i)).
    assert (Et : task_table s1 = aset (task_table s) i x) by reflexivity.
    assert (Hx : slot_ok i x).
    { split; [reflexivity|]. unfold MLFQ_LEVELS. change (priority x) with 2. change (saved_priority x) with 2. lia. }
    assert (Hun : unqueued s i) by (apply unqueued_beyond; [done|unfold i; lia]).
    refine (placed_preserves s i x _ Hs _ _ Hx _); [simpl; lia|simpl; lia|].
    assert (Et2 : task_table (s1 <| task_count := i + 1 |>) = aset (task_table s) i x) by exact Et.
    assert (Hq : forall l, 0 <= l < MLFQ_LEVELS ->
      q_ok (qget s l) /\ ql s l = filter (fun y => y <> i) (ql s l)).
    { intros l Hl. split; [exact (ok_q _ Hs l Hl)|]. symmetry. by apply filter_ne_id, Hun. }
    rewrite <- enqueue_tc.
    refine (placed_enqueue s _ i x Hs _ Hx eq_refl Et2 _ _ _ _ Hq); [lia|right; split; reflexivity|done..].
  Qed.

(** A spawn that gets its kernel stack keeps everything in order. *)
Lemma spawn_preserves mm ent rsp s (e : E) :
    sched_ok s -> (sched_spawn_process mm ent rsp s e).2 <> None ->
    preserves s (sched_spawn_process mm ent rsp s e).1.1.
  Proof.
    intros Hs Hr. pose proof (sched_spawn_process_spec mm ent rsp s e Hs) as H.
    destruct (sched_spawn_process mm ent rsp s e) as [[s' e'] [i|]]; [apply H|done].
  Qed.
End Steps.

(** ** A failed spawn *)

(** Whatever is written into a slot that waits in no queue, the queues stay sound. *)
Lemma unqueued_mod_ok s i f :
  sched_ok s -> 0 <= i < MAX_TASKS -> unqueued s i -> slot_ok i (f (tget s i)) -> sched_ok (mod_task i f s).
Proof.
  intros Hs Hi Hu Hf. pose proof (ok_len _ Hs) as Hlen.
  assert (Hne : forall u, 0 <= u -> u <> i -> tget (mod_task i f s) u = tget s u) by (intros; apply tget_mod_ne; lia).
  destruct Hs as [H1 H2 H3 H4 H5 H6 H7 H8 H9]. constructor; try done.
  - simpl. by rewrite length_aset.
  - intros l t Hl Hin. destruct (H5 l t Hl Hin) as (Ht & Hr & Hp).
    rewrite Hne; [done|lia|]. intros ->. exact (Hu l Hl Hin).
  - intros j Hj. destruct (decide (j = i)) as [->|Hji]; [|rewrite Hne by lia; by apply H7].
    by rewrite tget_mod_eq by (done || by constructor).
Qed.

Lemma unqueued_mod_live L s i f :
  sched_live_but L s -> 0 <= i -> sched_live_but (fun j => L j \/ j = i) (mod_task i f s).
Proof.
  intros Hl Hi j Hj Hr. destruct (decide (j = i)) as [->|Hji]; [by right; right; right|].
  assert (E : tget (mod_task i f s) j = tget s j) by (apply tget_mod_ne; lia).
  rewrite E in *. destruct (Hl j Hj Hr) as [H|[H|H]]; [by left|by right; left|by right; right; left].
Qed.

(** The slot a spawn that gets no kernel stack leaves READY and in no queue:
    the REAPED one it was about to reuse. (A slot past the table's end stays
    past it.) *)
Definition spawn_loses (s : sched) : gset Z :=
  match first_task (fun t => state t =? TASK_STATE_REAPED) s with
  | Some i => {[i]}
  | None => ∅
  end.

Section Failure.
  Context {E : Type} {PE : ProcEnv E}.

Lemma failed_spawn mm ent rsp s (e : E) L :
    sched_ok s -> (sched_spawn_process mm ent rsp s e).2 = None -> sched_live_but L s ->
    let s' := (sched_spawn_process mm ent rsp s e).1.1 in
    sched_ok s' /\ sched_live_but (fun j => L j \/ j ∈ spawn_loses s) s'.
  Proof.
    intros Hs Hr Hl. pose proof (sched_spawn_process_spec mm ent rsp s e Hs) as H. cbv zeta.
    destruct (sched_spawn_process mm ent rsp s e) as [[s' e'] r]. cbn [fst snd] in *. subst r.
    destruct H as [[_ ->]|(_ & i & Hi & ->)].
    { split; [done|]. intros j Hj Hrj. destruct (Hl j Hj Hrj) as [?|[?|?]]; [by left|by right; left|by right; right; left]. }
    destruct (spawn_index_spec s i Hs Hi) as (Hir & Hun & Hile & _).
    split; [apply unqueued_mod_ok; [done|done|done|apply spawn_slot_ok]|].
    set (f := spawn_slot _ _ _ _ _ _).
    intros j Hj Hrj. destruct (unqueued_mod_live L s i f Hl ltac:(lia) j Hj Hrj) as [?|[?|[?|Eji]]];
      [by left|by right; left|by right; right; left|].
    right; right; right. unfold spawn_loses. unfold spawn_index in Hi.
    destruct (first_task _ s) as [k|]; [injection Hi as ->; set_solver|].
    destruct (MAX_TASKS <=? task_count s); [done|]. injection Hi as Ei. change (0 <= j < task_count s) in Hj. lia.
  Qed.
End Failure.

(** ** The step relation

    One constructor per operation of the kernel that changes the scheduler's
    state; [e] is whatever state the rest of the kernel is in. [step_field]
    is any other write to a task: no code outside these operations writes the
    id, the state or the priorities of a slot. *)
Section Reachable.
  Context {E : Type} {PE : ProcEnv E}.

Inductive kstep : sched -> sched -> Prop :=
| step_next s : kstep s (sched_next s).1
| step_tick s : kstep s (sched_tick s)
| step_add s x : kstep s (sched_add x s)
| step_block s t ch : 0 <= t < task_count s -> kstep s (sched_block (Some t) ch s)
| step_wake s t : 0 <= t < task_count s -> kstep s (sched_wake (Some t) s)
| step_block_and_switch s kind arg u k : kstep s (sched_block_and_switch kind arg u k s)
| step_resume s t : 0 <= t < task_count s -> state (tget s t) = TASK_STATE_RUNNING ->
    kstep s (sched_resume t s)
| step_wake_cond s kind arg : kstep s (sched_wake_cond kind arg s)
| step_wake_kbd s : kstep s (sched_wake_kbd_all s)
| step_wake_select s : kstep s (sched_wake_select_all s)
| step_poll_signals s : kstep s (sched_poll_signals s)
| step_poll_timeouts s now (e : E) : kstep s (sched_poll_timeouts now s e).1
| step_wake_parent s c : kstep s (sched_wake_waiting_parent c s)
| step_boost s t : 0 <= t < task_count s -> kstep s (sched_boost (Some t) s)
| step_requeue s t : 0 <= t < task_count s -> kstep s (sched_requeue (Some t) s)
| step_user_exit s i : kstep s (sched_user_task_exit i s)
| step_force_reap s p : kstep s (sched_force_reap p s)
| step_wait_reap s c : 0 <= c < task_count s -> state (tget s c) = TASK_STATE_ZOMBIE ->
    kstep s (mod_task c (fun x => x <| state := TASK_STATE_REAPED |>) s)
| step_set_rsp s r : kstep s (sched_set_user_task_rsp r s)
| step_mark_exited s t code (e : E) : 0 <= t < task_count s ->
    kstep s (sched_mark_exited (Some t) code s e).1
| step_kill s i (e : E) : kstep s (sched_kill i s e).1
| step_kill_one s t sig (e : E) : 0 <= t < task_count s -> kstep s (kill_one_task (Some t) sig s e).1
| step_sys_kill s p sig (e : E) : kstep s (sys_kill p sig s e).1.1
| step_spawn s mm ent rsp (e : E) : (sched_spawn_process mm ent rsp s e).2 <> None ->
    kstep s (sched_spawn_process mm ent rsp s e).1.1
| step_create_user_task s ent top (e : E) : kstep s (sched_create_user_task ent top s e).1.1
| step_no_current s : kstep s (s <| current_task := None |>)
| step_field s t f : 0 <= t < MAX_TASKS ->
    (forall x, t_id (f x) = t_id x /\ state (f x) = state x /\ priority (f x) = priority x /\
               saved_priority (f x) = saved_priority x) ->
    kstep s (mod_task t f s).

(** The lost slots that are READY still: a lost slot is found again when the
    task in it is killed. *)
Definition still_lost (L : gset Z) (s : sched) : gset Z :=
  filter (fun i => state (tget s i) = TASK_STATE_READY) L.

(** [reachable s L]: the kernel can be in scheduler state [s], and [L] are
    the slots failed spawns have lost. *)
Inductive reachable : sched -> gset Z -> Prop :=
| reach_boot : reachable (sched_init sched_bss) ∅
| reach_step s L s' : reachable s L -> kstep s s' -> reachable s' (still_lost L s')
| reach_failed_spawn s L mm ent rsp (e : E) : reachable s L ->
    (sched_spawn_process mm ent rsp s e).2 = None ->
    reachable (sched_spawn_process mm ent rsp s e).1.1
      (still_lost (L ∪ spawn_loses s) (sched_spawn_process mm ent rsp s e).1.1).
End Reachable.

(** ** Properties *)
Section Invariant.
  Context {E : Type} {PE : ProcEnv E} {PEok : ProcEnvOk E}.

Lemma kill_preserves i s (e : E) : sched_ok s -> preserves s (sched_kill i s e).1.
  Proof.
    intros Hs. destruct (Z.ltb_spec i 0) as [Hi|Hi], (Z.leb_spec (task_count s) i) as [Hj|Hj];
      [..|by apply kill_facts]; unfold sched_kill;
      [rewrite (proj2 (Z.ltb_lt i 0)) by done|rewrite (proj2 (Z.ltb_lt i 0)) by done
      |rewrite (proj2 (Z.leb_le _ i)), orb_true_r by done]; by apply preserves_refl.
  Qed.

Lemma wait_reap_preserves c s :
    sched_ok s -> 0 <= c < task_count s -> state (tget s c) = TASK_STATE_ZOMBIE ->
    preserves s (mod_task c (fun x => x <| state := TASK_STATE_REAPED |>) s).
  Proof.
    intros Hs Hc Hz.
    refine (placed_in s c _ _ Hs Hc _ (placed_set s c (tget s c <| state := TASK_STATE_REAPED |>) Hs _ reaped_not_ready)).
    - apply (ok_slot _ Hs c Hc).
    - apply unqueued_state; [done|]. by rewrite Hz.
  Qed.

Lemma no_current_preserves s : sched_ok s -> preserves s (s <| current_task := None |>).
  Proof. intros Hs. split; [|done]. destruct Hs. by constructor. Qed.

Lemma kstep_preserves s s' : kstep (E := E) s s' -> sched_ok s -> preserves s s'.
  Proof.
    intros Hstep Hs. destruct Hstep.
    - by apply sched_next_preserves.
    - by apply sched_tick_preserves.
    - by apply sched_add_preserves.
    - by apply sched_block_preserves.
    - by apply sched_wake_preserves.
    - by apply sched_block_and_switch_preserves.
    - by apply sched_resume_preserves.
    - by apply wake_loop_preserves.
    - by apply wake_loop_preserves.
    - by apply wake_loop_preserves.
    - by apply wake_loop_preserves.
    - by apply poll_timeouts_preserves.
    - by apply wake_waiting_parent_preserves.
    - by apply sched_boost_preserves.
    - apply sched_requeue_preserves; [done|]. by intros ? [= <-].
    - by apply sched_user_task_exit_preserves.
    - by apply sched_force_reap_preserves.
    - by apply wait_reap_preserves.
    - by apply sched_set_user_task_rsp_preserves.
    - by apply mark_exited_facts.
    - by apply kill_preserves.
    - by apply kill_one_task_facts.
    - by apply sys_kill_preserves.
    - by apply spawn_preserves.
    - by apply create_user_task_preserves.
    - by apply no_current_preserves.
    - by apply mod_task_preserves.
  Qed.

Lemma prune_lost (P : Z -> Prop) L s :
    sched_live_but P s -> (forall j, P j -> j ∈ L) -> sched_live_but (fun j => j ∈ still_lost L s) s.
  Proof.
    intros Hl HP j Hj Hr. destruct (Hl j Hj Hr) as [?|[?|?%HP]]; [by left|by right; left|].
    right; right. by apply elem_of_filter.
  Qed.

Lemma reachable_inv s L : reachable (E := E) s L -> sched_ok s /\ sched_live_but (fun j => j ∈ L) s.
  Proof.
    intros Hr. induction Hr as [|s L s' _ [Hok Hl] Hstep|s L mm ent rsp e _ [Hok Hl] Hf].
    - destruct (sched_init_ok _ sched_bss_sized) as [H0 L0]. split; [exact H0|].
      intros j Hj Hrj. destruct (L0 j Hj Hrj) as [?|[?|[]]]; [by left|by right; left].
    - destruct (kstep_preserves s s' Hstep Hok) as [Hok' Hl']. split; [done|]. by apply (prune_lost _ L _ (Hl' _ Hl)).
    - destruct (failed_spawn mm ent rsp s e _ Hok Hf Hl) as [Hok' Hl']. split; [done|].
      apply (prune_lost _ (L ∪ spawn_loses s) _ Hl'). set_solver.
  Qed.
End Invariant.

Section Theorems.
  Context {E : Type} {PE : ProcEnv E} {PEok : ProcEnvOk E}.

(** C3: In every state the kernel can reach from [sched_init] by any of its
    operations on tasks (scheduling, blocking and waking, signals, timers,
    exits, reaping, spawning, creating), each waiting task is READY, sits
    exactly once in the queue of its current priority, and no READY task other
    than the idle task is missing from the queues, except in the slots that
    spawns without a kernel stack have lost: such a spawn leaves the REAPED
    slot it was about to reuse READY and unqueued. *)
Theorem sched_reachable_ok s L :
    reachable (E := E) s L -> sched_ok s /\ sched_live_but (fun i => i ∈ L) s.
  Proof. apply reachable_inv. Qed.

(** C4: Work conservation: in every reachable state, while some READY task
    other than the idle one is in a slot that no failed spawn has lost,
    [sched_next] picks a READY task, of a priority at least as high. *)
Theorem sched_next_work_conserving s L i :
    reachable (E := E) s L -> i ∉ L ->
    0 <= i < task_count s -> state (tget s i) = TASK_STATE_READY -> idle_task s <> Some i ->
    let r := (sched_next s).2 in
    0 <= r < task_count s /\ state (tget s r) = TASK_STATE_READY /\
    priority (tget s r) <= priority (tget s i).
  Proof.
    intros Hr HL. destruct (reachable_inv s L Hr) as [Hok Hl].
    exact (sched_next_conserves (fun j => j ∈ L) s i Hok Hl HL).
  Qed.
End Theorems.

(** ** A concrete history: two tasks are created, task 1 exits and is reaped,
    and the spawn that would reuse its slot gets no kernel stack *)
Lemma reach_none s s' : reachable (E := Z) (PE := ex_env) s ∅ -> kstep (E := Z) (PE := ex_env) s s' ->
  reachable (E := Z) (PE := ex_env) s' ∅.
Proof.
  intros Hr Hs. pose proof (reach_step s ∅ s' Hr Hs) as H.
  by replace (still_lost ∅ s') with (∅ : gset Z) in H by (unfold still_lost; set_solver).
Qed.

Lemma still_lost_all L s : (forall i, i ∈ L -> state (tget s i) = TASK_STATE_READY) -> still_lost L s = L.
Proof. intros H. unfold still_lost. set_solver. Qed.

Lemma ex_two_reach : reachable (E := Z) (PE := ex_env) ex_two ∅.
Proof. eapply reach_none; [eapply reach_none; [apply reach_boot|apply step_add]|apply step_add]. Qed.

Lemma ex_reaped_reach : reachable (E := Z) (PE := ex_env) ex_reaped ∅.
Proof.
  eapply reach_none; [|apply (@step_force_reap Z ex_env)].
  eapply reach_none; [|apply (@step_mark_exited Z ex_env); vm_compute; split; [discriminate|reflexivity]].
  eapply reach_none; [exact ex_two_reach|]. apply step_field; [vm_compute; split; [discriminate|reflexivity]|done].
Qed.

Definition ex_lost : sched := (@sched_spawn_process Z ex_env (Some 5) 0x400000 0x7000 ex_reaped 0).1.1.

Lemma ex_lost_reach : reachable (E := Z) (PE := ex_env) ex_lost {[1]}.
Proof.
  pose proof (@reach_failed_spawn Z ex_env ex_reaped ∅ (Some 5) 0x400000 0x7000 0 ex_reaped_reach ltac:(vm_compute; reflexivity)) as H.
  fold ex_lost in H.
  assert (El : spawn_loses ex_reaped = {[1]}) by (vm_compute; reflexivity). rewrite El in H.
  assert (Est : state (tget ex_lost 1) = TASK_STATE_READY) by (vm_compute; reflexivity).
  rewrite union_empty_l_L, still_lost_all in H; [exact H|]. by intros i ->%elem_of_singleton.
Qed.

Lemma sched_reachable_ok_witness :
  sched_ok ex_lost /\ sched_live_but (fun i => i ∈ ({[1]} : gset Z)) ex_lost /\ state (tget ex_lost 1) = TASK_STATE_READY.
Proof.
  destruct (@sched_reachable_ok Z ex_env ex_env_ok ex_lost {[1]} ex_lost_reach) as [H1 H2].
  split; [exact H1|]. split; [exact H2|]. vm_compute. reflexivity.
Defined.

(** Slot 1 is lost, yet task 2 runs. *)
Lemma sched_next_work_conserving_witness :
  let r := (sched_next ex_lost).2 in
  0 <= r < task_count ex_lost /\ state (tget ex_lost r) = TASK_STATE_READY /\
  priority (tget ex_lost r) <= priority (tget ex_lost 2).
Proof.
  apply (@sched_next_work_conserving Z ex_env ex_env_ok ex_lost {[1]} 2 ex_lost_reach).
  - intros H%elem_of_singleton. discriminate H.
  - vm_compute. split; [discriminate|reflexivity].
  - vm_compute. reflexivity.
  - vm_compute. discriminate.
Defined.
End Reach.
