(* ===== verification/Pipe.v ===== *)
(** Kernel pipes (src/src/kernel/fs/pipe.c): eight ring buffers with blocking
    readers and writers under the cooperative scheduler. *)
From stdpp Require Import gmap.
From S2P Require Import Prelude Ring Sched Memory Vfs.

Module Pipe.
Import Sched Vfs.

Definition MAX_PIPES : Z := 8.
Definition PIPE_BUFSZ : Z := 32768.
Definition BUF_PAGES : Z := PIPE_BUFSZ / Mm.PAGE_SIZE.

(** The identities of the two operation tables. *)
Definition pipe_read_ops : Z := 1.
Definition pipe_write_ops : Z := 2.

(** [p_buf] is the buffer's address, [p_bytes] the 32 KB it points to. *)
Record pipe_t := PipeT {
  p_id : Z;
  p_buf : Z;
  p_bytes : list Z;
  p_head : Z;
  p_tail : Z;
  p_count : Z;
  p_readers : Z;
  p_writers : Z;
  p_in_use : bool
}.
#[export] Instance eta_pipe : Eta pipe_t := fun p =>
  PipeT (p_id p) (p_buf p) (p_bytes p) (p_head p) (p_tail p) (p_count p) (p_readers p)
    (p_writers p) (p_in_use p).
Definition pipe0 : pipe_t := PipeT 0 0 (replicate (Z.to_nat PIPE_BUFSZ) 0) 0 0 0 0 0 false.
#[export] Instance inhabited_pipe : Inhabited pipe_t := populate pipe0.

(** The static variables of pipe.c; [&pipe_file_pool[i]] is the index [i]. *)
Record pipes := PipesSt {
  p_table : list pipe_t;
  p_files : list file_t;
  p_used : list bool
}.
#[export] Instance eta_pipes : Eta pipes := fun p => PipesSt (p_table p) (p_files p) (p_used p).
Definition pipes_bss : pipes :=
  PipesSt (replicate (Z.to_nat MAX_PIPES) pipe0) (replicate (Z.to_nat (MAX_PIPES * 2)) file0)
    (replicate (Z.to_nat (MAX_PIPES * 2)) false).

(** The state the pipe operations work on. *)
Record pst := Pst { ps : pipes; psched : sched; pmm : Mm.mm }.
#[export] Instance eta_pst : Eta pst := fun s => Pst (ps s) (psched s) (pmm s).

Definition pget (s : pst) (i : Z) : pipe_t := aget (p_table (ps s)) i.
Definition mod_pipe (i : Z) (f : pipe_t -> pipe_t) (s : pst) : pst :=
  s <| ps := (ps s) <| p_table := aset (p_table (ps s)) i (f (pget s i)) |> |>.
Definition on_sched (f : sched -> sched) (s : pst) : pst := s <| psched := f (psched s) |>.

Definition pipe_find (i : Z) (s : pst) : option Z :=
  let i := u32 i in
  if (MAX_PIPES <=? i) || negb (p_in_use (pget s i)) then None else Some i.

Section Pipe.
  (** [paddr_linear_ok] under the current page table, for the allocator, and
      the register contexts a blocking switch saves. *)
  Variable ok : Z -> bool.
  Variables uret saved : kctx_t.

Definition pipe_alloc (s : pst) : pst * option Z :=
    match find_index (fun p => negb (p_in_use p)) (p_table (ps s)) with
    | None => (s, None)
    | Some k =>
        let i := Z.of_nat k in
        let '(m, r) := Mm.pmalloc_contig ok BUF_PAGES (pmm s) in
        match r with
        | None => (mod_pipe i (fun p => p <| p_id := i |> <| p_buf := 0 |>) (s <| pmm := m |>), None)
        | Some b =>
            (mod_pipe i (fun p => p <| p_id := i |> <| p_buf := b |> <| p_head := 0 |> <| p_tail := 0 |>
                                    <| p_count := 0 |> <| p_readers := 0 |> <| p_writers := 0 |>
                                    <| p_in_use := true |>) (s <| pmm := m |>), Some i)
        end
    end.

Definition pipe_free (i : Z) (s : pst) : option pst :=
    m ← Mm.pfree_contig (p_buf (pget s i)) BUF_PAGES (pmm s);
    Some (mod_pipe i (fun p => p <| p_in_use := false |>) (s <| pmm := m |>)).

(** How a pass through the read or write loop ends. *)
Inductive outcome :=
| Ret (v : Z)
| Blocked (total : Z).

Definition errno (n : Z) : Z := 2 ^ 64 - n.
Definition EINTR : Z := errno 4.
Definition EBADF : Z := errno 9.
Definition EAGAIN : Z := errno 11.
Definition EPIPE : Z := errno 32.

Definition nonblock (f : file_t) : bool := negb (Z.land (f_flags f) O_NONBLOCK =? 0).

(** Take [n] bytes out of pipe [i] in at most two copies. *)
Definition take_bytes (i n : Z) (s : pst) : pst * list Z :=
    let p := pget s i in
    let first := Z.min (PIPE_BUFSZ - p_head p) n in
    let data := Ring.slice (p_bytes p) (p_head p) first ++ Ring.slice (p_bytes p) 0 (n - first) in
    (mod_pipe i (fun p => p <| p_head := (p_head p + n) mod PIPE_BUFSZ |>
                            <| p_count := p_count p - n |>) s, data).

(** Put [data] into pipe [i] in at most two copies. *)
Definition put_bytes (i : Z) (data : list Z) (s : pst) : pst :=
    mod_pipe i (fun p =>
      let n := Z.of_nat (length data) in
      let first := Z.min (PIPE_BUFSZ - p_tail p) n in
      let b1 := Ring.blit (p_bytes p) (p_tail p) (take (Z.to_nat first) data) in
      let b2 := if first <? n then Ring.blit b1 0 (drop (Z.to_nat first) data) else b1 in
      p <| p_bytes := b2 |> <| p_tail := (p_tail p + n) mod PIPE_BUFSZ |>
        <| p_count := p_count p + n |>) s.

(** One pass of the read loop from [total] bytes already read: the bytes
    copied out and whether the call returns or blocks. *)
Definition read_loop (i : Z) (f : file_t) (size total : Z) (s : pst) : pst * list Z * outcome :=
    if size <=? total then (s, [], Ret total) else
    let avail := p_count (pget s i) in
    let n := if 0 <? avail then Z.min (size - total) avail else 0 in
    let '(s1, data) :=
      if 0 <? avail then
        let '(s', d) := take_bytes i n s in
        (on_sched sched_wake_select_all
           (on_sched (sched_wake_cond WAIT_PIPE_WR (p_id (pget s' i))) s'), d)
      else (s, []) in
    let total := total + n in
    if total =? size then (s1, data, Ret total)
    else if p_writers (pget s1 i) =? 0 then (s1, data, Ret total)
    else if nonblock f then (s1, data, Ret (if total =? 0 then EAGAIN else total))
    else (on_sched (sched_block_and_switch WAIT_PIPE_RD (p_id (pget s1 i)) uret saved) s1,
          data, Blocked total).

Definition pipe_read_op (f : file_t) (size : Z) (s : pst) : pst * list Z * outcome :=
    match pipe_find (f_private f) s with
    | None => (s, [], Ret EBADF)
    | Some i => if size =? 0 then (s, [], Ret 0) else read_loop i f size 0 s
    end.

(** A pending, unblocked signal of the current task. *)
Definition interrupted (s : sched) : bool :=
    match current_task s with
    | Some t => negb (sig_deliverable (tget s t) =? 0)
    | None => false
    end.

(** After the scheduler switches back to task [t] blocked in a read. *)
Definition read_resume (t i : Z) (f : file_t) (size total : Z) (s : pst) : pst * list Z * outcome :=
    let s := on_sched (sched_resume t) s in
    if interrupted (psched s) then (s, [], Ret (if total =? 0 then EINTR else total))
    else read_loop i f size total s.

Definition write_loop (i : Z) (f : file_t) (src : list Z) (total : Z) (s : pst) : pst * outcome :=
    let size := Z.of_nat (length src) in
    if size <=? total then (s, Ret total) else
    let space := PIPE_BUFSZ - p_count (pget s i) in
    let n := if 0 <? space then Z.min (size - total) space else 0 in
    let s1 :=
      if 0 <? space then
        let s' := put_bytes i (Ring.slice src total n) s in
        on_sched sched_wake_select_all
          (on_sched (sched_wake_cond WAIT_PIPE_RD (p_id (pget s' i))) s')
      else s in
    let total := total + n in
    if total =? size then (s1, Ret total)
    else if p_readers (pget s1 i) =? 0 then (s1, Ret EPIPE)
    else if nonblock f then (s1, Ret (if total =? 0 then EAGAIN else total))
    else (on_sched (sched_block_and_switch WAIT_PIPE_WR (p_id (pget s1 i)) uret saved) s1,
          Blocked total).

Definition pipe_write_op (f : file_t) (src : list Z) (s : pst) : pst * outcome :=
    match pipe_find (f_private f) s with
    | None => (s, Ret EBADF)
    | Some i =>
        if p_readers (pget s i) =? 0 then (s, Ret EPIPE)
        else if (length src =? 0)%nat then (s, Ret 0)
        else write_loop i f src 0 s
    end.

Definition write_resume (t i : Z) (f : file_t) (src : list Z) (total : Z) (s : pst) : pst * outcome :=
    let s := on_sched (sched_resume t) s in
    if interrupted (psched s) then (s, Ret (if total =? 0 then EINTR else total))
    else write_loop i f src total s.

(** Release every file slot that names pipe [i]. *)
Definition release_files (i : Z) (p : pipes) : pipes :=
    p <| p_used := zip_with (fun u f => if u && (f_private f =? i) then false else u)
                     (p_used p) (p_files p) |>.

Definition pipe_close_op (f : file_t) (s : pst) : option (pst * Z) :=
    match pipe_find (f_private f) s with
    | None => Some (s, 0)
    | Some i =>
        let s1 := mod_pipe i (fun p =>
          if f_type f =? 1
          then (if 0 <? p_readers p then p <| p_readers := p_readers p - 1 |> else p)
          else (if 0 <? p_writers p then p <| p_writers := p_writers p - 1 |> else p)) s in
        let p := pget s1 i in
        if (p_readers p =? 0) && (p_writers p =? 0) then
          s2 ← pipe_free i (s1 <| ps := release_files (p_id p) (ps s1) |>);
          Some (s2, 0)
        else
          Some (on_sched (fun sc => sched_wake_select_all
                  (sched_wake_cond WAIT_PIPE_WR (p_id p) (sched_wake_cond WAIT_PIPE_RD (p_id p) sc))) s1, 0)
    end.

Definition pipe_alloc_file (i : Z) (is_read_end : bool) (s : pst) : pst * option Z :=
    match find_index negb (p_used (ps s)) with
    | None => (s, None)
    | Some k =>
        let f := File 0 PIPE_BUFSZ 0 (Some (if is_read_end then pipe_read_ops else pipe_write_ops))
                   (p_id (pget s i)) 1 [] 0 (if is_read_end then 1 else 2) in
        (s <| ps := (ps s) <| p_used := <[k := true]> (p_used (ps s)) |>
                           <| p_files := <[k := f]> (p_files (ps s)) |> |>, Some (Z.of_nat k))
    end.

Definition set_flags (k flags : Z) (s : pst) : pst :=
    s <| ps := (ps s) <| p_files := aset (p_files (ps s)) k
                           ((aget (p_files (ps s)) k) <| f_flags := flags |>) |> |>.

(** [addr k] is [&pipe_file_pool[k]]; the result is the code's return value
    and the two descriptors. *)
Definition pipe_create_fds (addr : Z -> Z) (owner flags : Z) (s : pst) (v : vfs)
      : option (pst * vfs * Z * option (Z * Z)) :=
    match pipe_alloc s with
    | (s1, None) => Some (s1, v, -1, None)
    | (s1, Some i) =>
        let '(s2, rd) := pipe_alloc_file i true s1 in
        let '(s3, wr) := pipe_alloc_file i false s2 in
        match rd, wr with
        | Some r, Some w =>
            let s4 := mod_pipe i (fun p => p <| p_readers := 1 |> <| p_writers := 1 |>)
                        (set_flags w flags (set_flags r flags s3)) in
            let '(v1, rfd) := vfs_fd_alloc owner (addr r) v in
            let '(v2, wfd) := vfs_fd_alloc owner (addr w) v1 in
            if (rfd <? 0) || (wfd <? 0) then
              let v3 := if 0 <=? rfd then vfs_fd_free rfd v2 else v2 in
              let v4 := if 0 <=? wfd then vfs_fd_free wfd v3 else v3 in
              Some (s4, v4, -1, None)
            else Some (s4, v2, 0, Some (rfd, wfd))
        | _, _ =>
            let s4 := match rd with
                      | Some r => s3 <| ps := (ps s3) <| p_used := aset (p_used (ps s3)) r false |> |>
                      | None => s3
                      end in
            s5 ← pipe_free i s4;
            Some (s5, v, -1, None)
        end
    end.
End Pipe.

(** Readiness, as poll and select ask it. *)
Definition pipe_readable (f : file_t) (s : pst) : bool :=
  match pipe_find (f_private f) s with
  | None => false
  | Some i => (0 <? p_count (pget s i)) || (p_writers (pget s i) =? 0)
  end.
Definition pipe_writable (f : file_t) (s : pst) : bool :=
  match pipe_find (f_private f) s with
  | None => false
  | Some i => (p_count (pget s i) <? PIPE_BUFSZ) || (p_readers (pget s i) =? 0)
  end.
Definition pipe_is_pipe (f : option file_t) : bool :=
  match f with
  | None => false
  | Some f => bool_decide (f_ops f = Some pipe_read_ops) || bool_decide (f_ops f = Some pipe_write_ops)
  end.
Definition pipe_readers_gone (f : file_t) (s : pst) : bool :=
  match pipe_find (f_private f) s with None => true | Some i => p_readers (pget s i) =? 0 end.
Definition pipe_writers_gone (f : file_t) (s : pst) : bool :=
  match pipe_find (f_private f) s with None => true | Some i => p_writers (pget s i) =? 0 end.

(** ** The bytes in flight *)
Definition content (p : pipe_t) : list Z := Ring.ring_list PIPE_BUFSZ (p_bytes p) (p_head p) (p_count p).

Definition pipe_ok (p : pipe_t) : Prop :=
  Z.of_nat (length (p_bytes p)) = PIPE_BUFSZ /\ 0 <= p_head p < PIPE_BUFSZ /\
  0 <= p_count p <= PIPE_BUFSZ /\ p_tail p = (p_head p + p_count p) mod PIPE_BUFSZ.

(** What reads and writes on other pipes, and the scheduler, leave alone. *)
Definition same_pipe (i : Z) (s s' : pst) : Prop :=
  p_bytes (pget s' i) = p_bytes (pget s i) /\ p_head (pget s' i) = p_head (pget s i) /\
  p_tail (pget s' i) = p_tail (pget s i) /\ p_count (pget s' i) = p_count (pget s i).

Lemma bufsz_pos : 0 < PIPE_BUFSZ.
Proof. reflexivity. Qed.

Lemma length_content p : pipe_ok p -> Z.of_nat (length (content p)) = p_count p.
Proof. intros (_ & _ & ? & _). unfold content. rewrite Ring.length_ring_list. lia. Qed.

Definition table_ok (s : pst) : Prop := length (p_table (ps s)) = Z.to_nat MAX_PIPES.

Lemma pget_mod s i f : table_ok s -> 0 <= i < MAX_PIPES -> pget (mod_pipe i f s) i = f (pget s i).
Proof. intros Hl Hi. apply (aget_aset_eq (p_table (ps s))). rewrite Hl. lia. Qed.

Lemma pget_mod_ne s i j f : 0 <= i -> 0 <= j -> i <> j -> pget (mod_pipe i f s) j = pget s j.
Proof. intros. by apply (aget_aset_ne (p_table (ps s))). Qed.

Lemma pget_on_sched s g i : pget (on_sched g s) i = pget s i.
Proof. done. Qed.

Lemma take_bytes_spec s i n :
  table_ok s -> 0 <= i < MAX_PIPES -> pipe_ok (pget s i) -> 0 <= n <= p_count (pget s i) ->
  let '(s', data) := take_bytes i n s in
  data = take (Z.to_nat n) (content (pget s i)) /\
  content (pget s' i) = drop (Z.to_nat n) (content (pget s i)) /\ pipe_ok (pget s' i) /\
  table_ok s' /\ p_readers (pget s' i) = p_readers (pget s i) /\
  p_writers (pget s' i) = p_writers (pget s i) /\ p_id (pget s' i) = p_id (pget s i) /\
  p_count (pget s' i) = p_count (pget s i) - n.
Proof.
  intros Hs Hi (Hb & Hh & Hc & Ht) Hn. unfold take_bytes. cbv zeta. pose proof bufsz_pos as HP.
  rewrite !pget_mod by done. split.
  { apply Ring.ring_read; lia. }
  set (p := pget s i) in *. split.
  { unfold content. simpl. apply Ring.ring_drop; lia. }
  split; [|split; [unfold table_ok; simpl; by rewrite length_aset|done]].
  unfold pipe_ok. simpl. split_and!; try done; try lia.
  - apply Z.mod_pos_bound. lia.
  - apply Z.mod_pos_bound. lia.
  - rewrite Ht, Zplus_mod_idemp_l. f_equal. lia.
Qed.

Lemma put_bytes_spec s i data :
  table_ok s -> 0 <= i < MAX_PIPES -> pipe_ok (pget s i) ->
  p_count (pget s i) + Z.of_nat (length data) <= PIPE_BUFSZ ->
  let s' := put_bytes i data s in
  content (pget s' i) = content (pget s i) ++ data /\ pipe_ok (pget s' i) /\ table_ok s' /\
  p_readers (pget s' i) = p_readers (pget s i) /\ p_writers (pget s' i) = p_writers (pget s i) /\
  p_id (pget s' i) = p_id (pget s i) /\
  p_count (pget s' i) = p_count (pget s i) + Z.of_nat (length data).
Proof.
  intros Hs Hi (Hb & Hh & Hc & Ht) Hn. cbv zeta. unfold put_bytes. pose proof bufsz_pos as HP.
  rewrite !pget_mod by done. set (p := pget s i) in *. cbv zeta.
  set (n := Z.of_nat (length data)) in *. set (first := Z.min (PIPE_BUFSZ - p_tail p) n).
  destruct (Ring.ring_write PIPE_BUFSZ (p_bytes p) (p_head p) (p_count p) data) as [Hl Hr]; try done; try lia.
  rewrite <- Ht in Hl, Hr. fold n in Hl, Hr. fold first in Hl, Hr.
  assert (Eb : (if first <? n then Ring.blit (Ring.blit (p_bytes p) (p_tail p) (take (Z.to_nat first) data)) 0
                  (drop (Z.to_nat first) data)
                else Ring.blit (p_bytes p) (p_tail p) (take (Z.to_nat first) data)) =
               Ring.blit (Ring.blit (p_bytes p) (p_tail p) (take (Z.to_nat first) data)) 0 (drop (Z.to_nat first) data)).
  { destruct (Z.ltb_spec first n); [done|]. rewrite (drop_ge data) by lia. done. }
  rewrite Eb. split; [exact Hr|]. split.
  - unfold pipe_ok. simpl. split_and!; [by rewrite Hl|lia..|].
    rewrite Ht, Zplus_mod_idemp_l. f_equal. lia.
  - split; [unfold table_ok; simpl; by rewrite length_aset|done].
Qed.

Section PipeProofs.
  Variables uret saved : kctx_t.

(** One pass of the read loop hands out a prefix of the bytes in flight. *)
Lemma read_loop_spec i f size total s :
    table_ok s -> 0 <= i < MAX_PIPES -> pipe_ok (pget s i) -> 0 <= total ->
    let '(s', data, out) := read_loop uret saved i f size total s in
    content (pget s i) = data ++ content (pget s' i) /\ pipe_ok (pget s' i) /\ table_ok s' /\
    Z.of_nat (length data) = Z.max 0 (Z.min (size - total) (p_count (pget s i))) /\
    match out with
    | Blocked t => t = total + Z.of_nat (length data) /\ content (pget s' i) = [] /\
        p_writers (pget s i) <> 0 /\ nonblock f = false
    | Ret r => r = total + Z.of_nat (length data) \/
        (r = EAGAIN /\ data = [] /\ total = 0 /\ content (pget s' i) = [])
    end.
  Proof.
    intros Hs Hi Hp H0. pose proof (length_content _ Hp) as Hlc. pose proof Hp as (_ & _ & Hc & _).
    unfold read_loop. destruct (Z.leb_spec size total).
    { split_and!; [done|done|done|simpl; lia|left; simpl; lia]. }
    cbv zeta. destruct (Z.ltb_spec 0 (p_count (pget s i))) as [Hpos|Hzero].
    - pose proof (take_bytes_spec s i (Z.min (size - total) (p_count (pget s i))) Hs Hi Hp ltac:(lia)) as Htb.
      set (n := Z.min (size - total) (p_count (pget s i))) in *.
      destruct (take_bytes i n s) as [s1 d]. destruct Htb as (Hd & Hct & Hp1 & Hs1 & _ & Hw & Hid & Hcnt).
      rewrite !pget_on_sched. rewrite !Hw.
      assert (Hlen : Z.of_nat (length d) = n) by (rewrite Hd, length_take; lia).
      assert (Happ : content (pget s i) = d ++ content (pget s1 i)) by (rewrite Hd, Hct; symmetry; apply take_drop).
      destruct (Z.eqb_spec (total + n) size) as [Ets|Ets].
      { split_and!; [done|done|done|lia|left; lia]. }
      assert (Hemp : content (pget s1 i) = []).
      { rewrite Hct. apply drop_ge. lia. }
      destruct (Z.eqb_spec (p_writers (pget s i)) 0) as [|Hwr].
      { split_and!; [done|done|done|lia|left; lia]. }
      destruct (nonblock f) eqn:Hnb.
      { split_and!; [done|done|done|lia|]. destruct (Z.eqb_spec (total + n) 0); [|left; lia].
        exfalso. lia. }
      rewrite ?pget_on_sched. split_and!; try done; lia.
    - assert (Hemp : content (pget s i) = []) by (apply nil_length_inv; lia).
      assert (E0 : p_count (pget s i) = 0) by lia. rewrite Z.add_0_r.
      destruct (Z.eqb_spec total size) as [|Hts]; [lia|].
      destruct (Z.eqb_spec (p_writers (pget s i)) 0) as [|Hwr].
      { split_and!; [done|done|done|simpl; lia|left; simpl; lia]. }
      destruct (nonblock f) eqn:Hnb.
      { split_and!; [done|done|done|simpl; lia|]. destruct (Z.eqb_spec total 0); [by right|left; simpl; lia]. }
      rewrite ?pget_on_sched. split_and!; try done; simpl; lia.
  Qed.

Lemma write_loop_spec i f src total s :
    table_ok s -> 0 <= i < MAX_PIPES -> pipe_ok (pget s i) -> 0 <= total ->
    let '(s', out) := write_loop uret saved i f src total s in
    exists data,
    content (pget s' i) = content (pget s i) ++ data /\ pipe_ok (pget s' i) /\ table_ok s' /\
    data = take (length data) (drop (Z.to_nat total) src) /\
    Z.of_nat (length data) = Z.max 0 (Z.min (Z.of_nat (length src) - total) (PIPE_BUFSZ - p_count (pget s i))) /\
    match out with
    | Blocked t => t = total + Z.of_nat (length data) /\ p_count (pget s' i) = PIPE_BUFSZ /\
        p_readers (pget s i) <> 0
    | Ret r => r = total + Z.of_nat (length data) \/ r = EPIPE \/
        (r = EAGAIN /\ data = [] /\ total = 0)
    end.
  Proof.
    intros Hs Hi Hp H0. pose proof Hp as (_ & _ & Hc & _). unfold write_loop.
    destruct (Z.leb_spec (Z.of_nat (length src)) total).
    { exists []. rewrite app_nil_r. split_and!; try done; simpl; try lia. }
    cbv zeta. destruct (Z.ltb_spec 0 (PIPE_BUFSZ - p_count (pget s i))) as [Hpos|Hzero].
    - set (n := Z.min (Z.of_nat (length src) - total) (PIPE_BUFSZ - p_count (pget s i))) in *.
      set (d := Ring.slice src total n).
      assert (Hlen : Z.of_nat (length d) = n) by (unfold d; rewrite Ring.length_slice; lia).
      pose proof (put_bytes_spec s i d Hs Hi Hp ltac:(lia)) as Hpb. cbv zeta in Hpb.
      set (s1 := put_bytes i d s) in *.
      destruct Hpb as (Hct & Hp1 & Hs1 & Hrd & _ & Hid & Hcnt).
      rewrite ?pget_on_sched. rewrite Hrd.
      assert (Hd : d = take (length d) (drop (Z.to_nat total) src)).
      { unfold d at 1, Ring.slice. f_equal. lia. }
      destruct (Z.eqb_spec (total + n) (Z.of_nat (length src))).
      { exists d. rewrite ?pget_on_sched. split_and!; try done; try lia. }
      destruct (Z.eqb_spec (p_readers (pget s i)) 0).
      { exists d. rewrite ?pget_on_sched. split_and!; try done; try lia. }
      destruct (nonblock f).
      { exists d. rewrite ?pget_on_sched. split_and!; try done; try lia.
        destruct (Z.eqb_spec (total + n) 0); lia. }
      exists d. rewrite ?pget_on_sched. split_and!; try done; try lia.
    - assert (E0 : p_count (pget s i) = PIPE_BUFSZ) by lia. rewrite Z.add_0_r.
      destruct (Z.eqb_spec total (Z.of_nat (length src))); [lia|].
      destruct (Z.eqb_spec (p_readers (pget s i)) 0).
      { exists []. rewrite app_nil_r. split_and!; try done; simpl; try lia. }
      destruct (nonblock f).
      { exists []. rewrite app_nil_r. split_and!; try done; simpl; try lia.
        destruct (Z.eqb_spec total 0); [by right; right|left; lia]. }
      exists []. rewrite app_nil_r, ?pget_on_sched. split_and!; try done; simpl; lia.
  Qed.

(** A read blocks only on an empty pipe that still has a writer, in
    blocking mode; otherwise it returns the bytes it copied (all it asked for,
    or all there were; 0 is end of file), or EAGAIN for an empty non-blocking
    pipe. Symmetrically a write blocks only on a full pipe with a reader. *)
Theorem pipe_blocking i f s size src :
    0 <= i < MAX_PIPES -> table_ok s -> pipe_ok (pget s i) -> 0 < size ->
    (let '(s', data, out) := read_loop uret saved i f size 0 s in
     Z.of_nat (length data) = Z.min size (p_count (pget s i)) /\
     match out with
     | Blocked t => t = Z.of_nat (length data) /\ content (pget s' i) = [] /\
                    p_writers (pget s i) <> 0 /\ nonblock f = false
     | Ret r => r = Z.of_nat (length data) \/ (r = EAGAIN /\ content (pget s i) = [])
     end) /\
    (let '(s', out) := write_loop uret saved i f src 0 s in
     match out with
     | Blocked t => t = PIPE_BUFSZ - p_count (pget s i) /\ p_count (pget s' i) = PIPE_BUFSZ /\
                    p_readers (pget s i) <> 0 /\
                    content (pget s' i) = content (pget s i) ++ take (Z.to_nat t) src
     | Ret r => r = EPIPE \/ r = EAGAIN \/
                (0 <= r <= Z.of_nat (length src) /\
                 content (pget s' i) = content (pget s i) ++ take (Z.to_nat r) src)
     end).
  Proof.
    intros Hi Hs Hp Hsz. split.
    - pose proof (read_loop_spec i f size 0 s Hs Hi Hp ltac:(lia)) as H. pose proof Hp as (_ & _ & Hc & _).
      destruct (read_loop uret saved i f size 0 s) as [[s' data] out].
      destruct H as (Hct & _ & _ & Hlen & Hout). split; [lia|].
      destruct out as [r|t]; [|done]. destruct Hout as [->|(-> & Hd & _ & He)]; [by left|right].
      split; [done|]. by rewrite Hct, Hd, He.
    - pose proof (write_loop_spec i f src 0 s Hs Hi Hp ltac:(lia)) as H. pose proof Hp as (_ & _ & Hc & _).
      destruct (write_loop uret saved i f src 0 s) as [s' out].
      destruct H as (d & Hct & Hp' & _ & Hd & Hlen & Hout). rewrite drop_0 in Hd.
      destruct out as [r|t].
      + destruct Hout as [Er|[Er|(Er & _)]]; [right; right|by left|by right; left].
        split; [lia|]. rewrite Hct, Hd at 1. do 2 f_equal. lia.
      + destruct Hout as (Et & Ecnt & Hrd). pose proof (length_content _ Hp') as Hl'.
        rewrite Hct, length_app in Hl'. pose proof (length_content _ Hp) as Hl.
        split_and!; [lia|done|done|]. rewrite Hct, Hd at 1. do 2 f_equal. lia.
  Qed.
End PipeProofs.

(** ** Histories of a pipe: calls that start, block, resume and return *)

(** A call of [pipe_read_op] or [pipe_write_op]. *)
Inductive call :=
| CRead (f : file_t) (size : Z)
| CWrite (f : file_t) (src : list Z).

(** A call that is blocked: the [total] it will go on from and the bytes it
    has moved through the pipe so far; and one that has returned [dn_ret]. *)
Record waiting := Waiting { wt_call : call; wt_total : Z; wt_moved : list Z }.
Record finished := Finished { dn_call : call; dn_ret : Z; dn_moved : list Z }.

(** The machine with what an observer records: the blocked calls by task,
    all bytes that entered the pipe and that left it, and the calls that have
    returned. *)
Record world := World {
  w_st : pst;
  w_wait : gmap Z waiting;
  w_in : list Z;
  w_out : list Z;
  w_done : list finished
}.

(** Task [t]'s call [c] has moved [d] more bytes and leaves the machine in [s]. *)
Definition settle (t : Z) (c : call) (moved : list Z) (out : outcome) (s : pst) (inb outb : list Z) (w : world) : world :=
  match out with
  | Blocked total => World s (<[t := Waiting c total moved]> (w_wait w)) (w_in w ++ inb) (w_out w ++ outb) (w_done w)
  | Ret r => World s (delete t (w_wait w)) (w_in w ++ inb) (w_out w ++ outb) (w_done w ++ [Finished c r moved])
  end.

Definition settle_read (t : Z) (c : call) (moved : list Z) (res : pst * list Z * outcome) (w : world) : world :=
  let '(s, d, out) := res in settle t c (moved ++ d) out s [] d w.

(** What a write has put in is what pipe [i] holds behind its old content. *)
Definition settle_write (i t : Z) (c : call) (moved : list Z) (res : pst * outcome) (w : world) : world :=
  let '(s, out) := res in
  let d := drop (length (content (pget (w_st w) i))) (content (pget s i)) in
  settle t c (moved ++ d) out s d [] w.

(** The histories of pipe [i] from state [s0]: any number of tasks call
    [pipe_read_op] and [pipe_write_op] on it, a call that has blocked goes on
    with [read_resume] or [write_resume] from where it was, and in between
    anything may happen that leaves the ring of pipe [i] alone. *)
Inductive pipe_hist (i : Z) (s0 : pst) : world -> Prop :=
| hist_nil : pipe_hist i s0 (World s0 ∅ [] [] [])
| hist_read w t f size uret saved :
    pipe_hist i s0 w -> w_wait w !! t = None -> pipe_find (f_private f) (w_st w) = Some i -> 0 <= size ->
    pipe_hist i s0 (settle_read t (CRead f size) [] (pipe_read_op uret saved f size (w_st w)) w)
| hist_read_resume w t f size total moved uret saved :
    pipe_hist i s0 w -> w_wait w !! t = Some (Waiting (CRead f size) total moved) ->
    pipe_hist i s0 (settle_read t (CRead f size) moved (read_resume uret saved t i f size total (w_st w)) w)
| hist_write w t f src uret saved :
    pipe_hist i s0 w -> w_wait w !! t = None -> pipe_find (f_private f) (w_st w) = Some i ->
    pipe_hist i s0 (settle_write i t (CWrite f src) [] (pipe_write_op uret saved f src (w_st w)) w)
| hist_write_resume w t f src total moved uret saved :
    pipe_hist i s0 w -> w_wait w !! t = Some (Waiting (CWrite f src) total moved) ->
    pipe_hist i s0 (settle_write i t (CWrite f src) moved (write_resume uret saved t i f src total (w_st w)) w)
| hist_other w s' :
    pipe_hist i s0 w -> same_pipe i (w_st w) s' -> table_ok s' ->
    pipe_hist i s0 (World s' (w_wait w) (w_in w) (w_out w) (w_done w)).

(** A blocked call goes on behind the bytes it has moved, which for a write
    are the first [total] of its buffer. *)
Definition waiting_ok (x : waiting) : Prop :=
  wt_total x = Z.of_nat (length (wt_moved x)) /\
  match wt_call x with
  | CRead _ size => wt_total x <= size
  | CWrite _ src => wt_moved x = take (length (wt_moved x)) src
  end.

(** A call returns the number of bytes it has moved; EAGAIN or EINTR if that
    is none; a write may also return EPIPE. *)
Definition finished_ok (x : finished) : Prop :=
  match dn_call x with
  | CRead _ size => Z.of_nat (length (dn_moved x)) <= size
  | CWrite _ src => dn_moved x = take (length (dn_moved x)) src
  end /\
  (dn_ret x = Z.of_nat (length (dn_moved x)) \/
   dn_moved x = [] /\ (dn_ret x = EAGAIN \/ dn_ret x = EINTR) \/
   (match dn_call x with CWrite _ _ => True | _ => False end) /\ dn_ret x = EPIPE).

Record hist_ok (i : Z) (s0 : pst) (w : world) : Prop := {
  ho_table : table_ok (w_st w);
  ho_pipe : pipe_ok (pget (w_st w) i);
  ho_stream : content (pget s0 i) ++ w_in w = w_out w ++ content (pget (w_st w) i);
  ho_wait : map_Forall (fun _ x => waiting_ok x) (w_wait w);
  ho_done : Forall finished_ok (w_done w)
}.

Lemma settle_ok i s0 t c moved out s inb outb w :
  hist_ok i s0 w -> table_ok s -> pipe_ok (pget s i) ->
  content (pget (w_st w) i) ++ inb = outb ++ content (pget s i) ->
  match out with
  | Blocked total => waiting_ok (Waiting c total moved)
  | Ret r => finished_ok (Finished c r moved)
  end -> hist_ok i s0 (settle t c moved out s inb outb w).
Proof.
  intros [H1 H2 H3 H4 H5] Hs Hp Hc Ho.
  assert (Hst : content (pget s0 i) ++ w_in w ++ inb = (w_out w ++ outb) ++ content (pget s i)).
  { by rewrite app_assoc, H3, <- !app_assoc, Hc. }
  destruct out as [r|total]; constructor; try done; cbn [settle w_wait w_done].
  - by apply map_Forall_delete.
  - apply Forall_app. split; [done|]. by constructor.
  - by apply map_Forall_insert_2.
Qed.

Lemma read_pass i s0 t f size total moved uret saved s w :
  0 <= i < MAX_PIPES -> hist_ok i s0 w -> table_ok s -> pget s i = pget (w_st w) i ->
  waiting_ok (Waiting (CRead f size) total moved) ->
  hist_ok i s0 (settle_read t (CRead f size) moved (read_loop uret saved i f size total s) w).
Proof.
  intros Hi Hw Hs Eg [Et Hle]. cbn [wt_total wt_moved wt_call] in *. pose proof (ho_pipe _ _ _ Hw) as Hp. rewrite <- Eg in Hp.
  pose proof (read_loop_spec uret saved i f size total s Hs Hi Hp ltac:(lia)) as H.
  destruct (read_loop uret saved i f size total s) as [[s' d] out]. destruct H as (Hc & Hp' & Hs' & Hl & Ho).
  pose proof Hp as (_ & _ & Hcnt & _).
  apply (settle_ok i s0 t _ _ out s' [] d w Hw Hs' Hp'); [by rewrite app_nil_r, <- Eg|].
  destruct out as [r|n]; unfold waiting_ok, finished_ok; cbn [wt_total wt_moved wt_call dn_ret dn_moved dn_call];
    rewrite length_app; [|lia]. split; [lia|].
  destruct Ho as [->|(-> & -> & E0 & _)]; [left; lia|]. right; left.
  split; [|by left]. rewrite app_nil_r. apply nil_length_inv. lia.
Qed.

Lemma write_pass i s0 t f src total moved uret saved s w :
  0 <= i < MAX_PIPES -> hist_ok i s0 w -> table_ok s -> pget s i = pget (w_st w) i ->
  waiting_ok (Waiting (CWrite f src) total moved) ->
  hist_ok i s0 (settle_write i t (CWrite f src) moved (write_loop uret saved i f src total s) w).
Proof.
  intros Hi Hw Hs Eg [Et Hm]. cbn [wt_total wt_moved wt_call] in *. pose proof (ho_pipe _ _ _ Hw) as Hp. rewrite <- Eg in Hp.
  pose proof (write_loop_spec uret saved i f src total s Hs Hi Hp ltac:(lia)) as H.
  destruct (write_loop uret saved i f src total s) as [s' out]. destruct H as (d & Hc & Hp' & Hs' & Hd & _ & Ho).
  unfold settle_write. rewrite <- Eg, Hc, drop_app_length.
  assert (Hmd : moved ++ d = take (length (moved ++ d)) src).
  { assert (E : Z.to_nat total = length moved) by lia. rewrite E in Hd.
    rewrite <- (take_drop (length moved) src), <- Hm, length_app, take_app_add. by rewrite <- Hd. }
  apply (settle_ok i s0 t _ _ out s' d [] w Hw Hs' Hp'); [by rewrite <- Eg, Hc|].
  destruct out as [r|n]; unfold waiting_ok, finished_ok; cbn [wt_total wt_moved wt_call dn_ret dn_moved dn_call].
  - split; [done|]. destruct Ho as [->|[->|(-> & -> & E0)]]; [left; rewrite length_app; lia|by right; right|].
    right; left. split; [|by left]. rewrite app_nil_r. apply nil_length_inv. lia.
  - split; [rewrite length_app; lia|done].
Qed.

(** A resumed call that a signal interrupts returns what it has. *)
Lemma interrupted_ok c total moved :
  waiting_ok (Waiting c total moved) -> finished_ok (Finished c (if total =? 0 then EINTR else total) (moved ++ [])).
Proof.
  intros [Et Hc]. cbn [wt_total wt_moved wt_call] in *. unfold finished_ok. cbn [dn_ret dn_moved dn_call]. rewrite app_nil_r.
  split; [destruct c; [lia|done]|]. destruct (Z.eqb_spec total 0); [right; left|by left].
  split; [apply nil_length_inv; lia|by right].
Qed.

Lemma pipe_hist_ok i s0 w :
  0 <= i < MAX_PIPES -> table_ok s0 -> pipe_ok (pget s0 i) -> pipe_hist i s0 w -> hist_ok i s0 w.
Proof.
  intros Hi Hs0 Hp0 Hh. induction Hh as [|w t f size u k _ IH Hn Hf Hsz|w t f size total moved u k _ IH Hw
    |w t f src u k _ IH Hn Hf|w t f src total moved u k _ IH Hw|w s' _ IH Hsame Ht].
  - constructor; try done. by rewrite app_nil_r.
  - unfold pipe_read_op. rewrite Hf. destruct (Z.eqb_spec size 0) as [->|].
    + apply settle_ok; try apply IH; [apply app_nil_r|]. split; [done|by left].
    + apply read_pass; [done|done|apply IH|done|]. split; [done|exact Hsz].
  - pose proof (ho_wait _ _ _ IH _ _ Hw) as Hok. unfold read_resume. cbv zeta.
    destruct (interrupted _); [|apply read_pass; [done|done|apply IH|done|exact Hok]].
    apply settle_ok; try apply IH; [apply app_nil_r|by apply interrupted_ok].
  - unfold pipe_write_op. rewrite Hf.
    assert (Hret : forall r, r = 0 \/ r = EPIPE -> hist_ok i s0 (settle_write i t (CWrite f src) [] (w_st w, Ret r) w)).
    { intros r Hr. unfold settle_write. rewrite drop_all. apply settle_ok; try apply IH; [apply app_nil_r|].
      split; [done|]. destruct Hr as [->| ->]; [by left|by right; right]. }
    destruct (p_readers _ =? 0); [apply Hret; by right|]. destruct (_ =? 0)%nat; [apply Hret; by left|].
    apply write_pass; [done|done|apply IH|done|done].
  - pose proof (ho_wait _ _ _ IH _ _ Hw) as Hok. unfold write_resume. cbv zeta.
    destruct (interrupted _); [|apply write_pass; [done|done|apply IH|done|exact Hok]].
    unfold settle_write. rewrite pget_on_sched, drop_all.
    apply settle_ok; try apply IH; [apply app_nil_r|by apply interrupted_ok].
  - destruct Hsame as (E1 & E2 & E3 & E4). destruct IH as [H1 H2 H3 H4 H5].
    assert (Ec : content (pget s' i) = content (pget (w_st w) i)) by (unfold content; by rewrite E1, E2, E4).
    constructor; [exact Ht| |by rewrite <- Ec in H3|done|done].
    unfold pipe_ok in *. cbn [w_st]. by rewrite E1, E2, E3, E4.
Qed.

(** C9: A pipe is a faithful byte stream under every interleaving of calls of
    [pipe_read_op] and [pipe_write_op] that block and resume: the bytes that
    left the pipe followed by those still in it are exactly those it held at
    the start followed by those that entered it, in order, across any number
    of wrap-arounds. And no call loses or repeats a byte across its blockings:
    the bytes a write has put in, over all its passes, are the first so many
    of its buffer; a blocked call goes on right behind them; and the count a
    call returns is the number of bytes it has moved (or EAGAIN or EINTR for
    none; a write whose readers are gone returns EPIPE). *)
Theorem pipe_byte_stream i s w :
  0 <= i < MAX_PIPES -> table_ok s -> pipe_ok (pget s i) -> pipe_hist i s w ->
  content (pget s i) ++ w_in w = w_out w ++ content (pget (w_st w) i) /\
  map_Forall (fun _ x => waiting_ok x) (w_wait w) /\ Forall finished_ok (w_done w).
Proof.
  intros Hi Hs Hp Hh. destruct (pipe_hist_ok i s w Hi Hs Hp Hh) as [_ _ ? ? ?]. done.
Qed.

(** ** An open pipe *)
Definition ex_pipe : pst :=
  Pst (pipes_bss <| p_table := <[0%nat := pipe0 <| p_readers := 1 |> <| p_writers := 1 |> <| p_in_use := true |>]>
                                 (replicate (Z.to_nat MAX_PIPES) pipe0) |>)
      (sched_init sched_bss) Mm.mm_bss.

Lemma ex_pipe_ok : table_ok ex_pipe /\ pipe_ok (pget ex_pipe 0).
Proof.
  split; [reflexivity|]. unfold pipe_ok. split_and!; vm_compute; (reflexivity || discriminate).
Qed.

(** A reader of four bytes (task 1) blocks on the empty pipe; three bytes come,
    it takes them and blocks again; one more comes and it returns 4. *)
Definition ex_w0 : world := World (ex_pipe <| psched := ex_running |>) ∅ [] [] [].
Definition ex_w1 : world := settle_read 1 (CRead file0 4) [] (pipe_read_op kctx0 kctx0 file0 4 (w_st ex_w0)) ex_w0.
Definition ex_w2 : world := settle_write 0 2 (CWrite file0 [1; 2; 3]) [] (pipe_write_op kctx0 kctx0 file0 [1; 2; 3] (w_st ex_w1)) ex_w1.
Definition ex_w3 : world := settle_read 1 (CRead file0 4) [] (read_resume kctx0 kctx0 1 0 file0 4 0 (w_st ex_w2)) ex_w2.
Definition ex_w4 : world := settle_write 0 2 (CWrite file0 [9]) [] (pipe_write_op kctx0 kctx0 file0 [9] (w_st ex_w3)) ex_w3.
Definition ex_w5 : world := settle_read 1 (CRead file0 4) [1; 2; 3] (read_resume kctx0 kctx0 1 0 file0 4 3 (w_st ex_w4)) ex_w4.

Lemma ex_pipe_hist : pipe_hist 0 (w_st ex_w0) ex_w5.
Proof.
  apply hist_read_resume; [|vm_compute; reflexivity].
  apply hist_write; [|vm_compute; reflexivity|vm_compute; reflexivity].
  apply hist_read_resume; [|vm_compute; reflexivity].
  apply hist_write; [|vm_compute; reflexivity|vm_compute; reflexivity].
  apply hist_read; [apply hist_nil|vm_compute; reflexivity|vm_compute; reflexivity|vm_compute; discriminate].
Qed.

Lemma pipe_byte_stream_witness :
  w_done ex_w5 = [Finished (CWrite file0 [1; 2; 3]) 3 [1; 2; 3]; Finished (CWrite file0 [9]) 1 [9];
                  Finished (CRead file0 4) 4 [1; 2; 3; 9]] /\
  content (pget (w_st ex_w5) 0) = [].
Proof.
  split; [vm_compute; reflexivity|].
  destruct (pipe_byte_stream 0 (w_st ex_w0) ex_w5) as [H _].
  - vm_compute. split; [discriminate|reflexivity].
  - apply ex_pipe_ok.
  - apply ex_pipe_ok.
  - apply ex_pipe_hist.
  - assert (Ei : w_in ex_w5 = [1; 2; 3; 9]) by (vm_compute; reflexivity).
    assert (Eo : w_out ex_w5 = [1; 2; 3; 9]) by (vm_compute; reflexivity).
    rewrite Ei, Eo in H. change (content (pget (w_st ex_w0) 0)) with (@nil Z) in H.
    symmetry in H. rewrite app_nil_l in H. by apply (app_inv_head [1; 2; 3; 9]); rewrite app_nil_r.
Defined.

Lemma pipe_blocking_witness :
  exists s', read_loop kctx0 kctx0 0 file0 4 0 ex_pipe = (s', [], Blocked 0) /\
  content (pget s' 0) = [].
Proof.
  destruct (pipe_blocking kctx0 kctx0 0 file0 ex_pipe 4 [1]) as [H _].
  - vm_compute. split; [discriminate|reflexivity].
  - apply ex_pipe_ok.
  - apply ex_pipe_ok.
  - reflexivity.
  - assert (F : (read_loop kctx0 kctx0 0 file0 4 0 ex_pipe).2 = Blocked 0 /\
                (read_loop kctx0 kctx0 0 file0 4 0 ex_pipe).1.2 = []) by (split; vm_compute; reflexivity).
    destruct (read_loop kctx0 kctx0 0 file0 4 0 ex_pipe) as [[s' d] o]. simpl in F.
    destruct F as [-> ->]. exists s'. split; [reflexivity|]. apply H.
Defined.
End Pipe.
