(* ===== verification/Ipc.v ===== *)
(** Doorbell channels and the message channels built on them
    (src/src/kernel/ipc/doorbell.c, ipc/ipc.c). *)
From S2P Require Import Prelude Ring Sched.

(** * doorbell.c *)
Module Doorbell.
Import Sched.

Definition DOORBELL_COUNT : Z := 64.
Definition DOORBELL_RING_SIZE : Z := 16.

Record doorbell_channel_t := Chan {
  d_data : Z;
  acl_mask : Z;
  owner_id : Z;
  ring_buf : list Z;
  rpos : Z;
  wpos : Z;
  ring_count : Z;
  waiting_task : Z
}.
#[export] Instance eta_chan : Eta doorbell_channel_t := fun d =>
  Chan (d_data d) (acl_mask d) (owner_id d) (ring_buf d) (rpos d) (wpos d) (ring_count d)
    (waiting_task d).
Definition chan0 : doorbell_channel_t :=
  Chan 0 0 (-1) (replicate (Z.to_nat DOORBELL_RING_SIZE) 0) 0 0 0 (-1).
#[export] Instance inhabited_chan : Inhabited doorbell_channel_t := populate chan0.

(** The array at [DOORBELL_BASE]. *)
Definition doorbells := list doorbell_channel_t.

Definition doorbell_init : doorbells := replicate (Z.to_nat DOORBELL_COUNT) chan0.

Definition dget (ds : doorbells) (c : Z) : doorbell_channel_t := aget ds c.
Definition mod_chan (c : Z) (f : doorbell_channel_t -> doorbell_channel_t) (ds : doorbells) : doorbells :=
  aset ds c (f (dget ds c)).
Definition chan_valid (c : Z) : bool := (0 <=? c) && (c <? DOORBELL_COUNT).

Definition doorbell_acl_set (channel task_id : Z) (allow : bool) (ds : doorbells) : doorbells :=
  if negb (chan_valid channel) then ds
  else if (task_id <? 0) || (64 <=? task_id) then ds
  else mod_chan channel (fun d =>
         d <| acl_mask := if allow then bit_set (acl_mask d) task_id
                          else bit_clr (acl_mask d) task_id |>) ds.

Definition doorbell_notify (channel : Z) (ds : doorbells) (s : sched) : doorbells * sched :=
  if negb (chan_valid channel) then (ds, s) else
  let tid := waiting_task (dget ds channel) in
  if 0 <=? tid then
    let s1 := match sched_get_task tid s with
              | Some t => if state (tget s t) =? TASK_STATE_BLOCKED then sched_wake (Some t) s else s
              | None => s
              end in
    (mod_chan channel (fun d => d <| waiting_task := -1 |>) ds, s1)
  else (ds, s).

(** The ACL applies to senders 0..63 only. *)
Definition may_write (d : doorbell_channel_t) (sender : Z) : bool :=
  if (0 <=? sender) && (sender <? 64) then Z.testbit (acl_mask d) sender else true.

Definition doorbell_write (channel msg sender_id : Z) (ds : doorbells) (s : sched)
    : doorbells * sched * Z :=
  if negb (chan_valid channel) then (ds, s, -1) else
  let d := dget ds channel in
  if negb (may_write d sender_id) then (ds, s, -1)
  else if DOORBELL_RING_SIZE <=? ring_count d then (ds, s, -1)
  else
    let ds1 := mod_chan channel (fun d =>
      d <| ring_buf := aset (ring_buf d) (wpos d) msg |>
        <| wpos := (wpos d + 1) mod DOORBELL_RING_SIZE |>
        <| ring_count := ring_count d + 1 |> <| d_data := msg |>) ds in
    let '(ds2, s2) := doorbell_notify channel ds1 s in
    (ds2, s2, 0).

Definition doorbell_poll (channel : Z) (ds : doorbells) : doorbells * Z :=
  if negb (chan_valid channel) then (ds, 0) else
  let d := dget ds channel in
  if ring_count d =? 0 then (ds, 0)
  else
    (mod_chan channel (fun d =>
       d <| rpos := (rpos d + 1) mod DOORBELL_RING_SIZE |>
         <| ring_count := ring_count d - 1 |> <| d_data := 0 |>) ds,
     aget (ring_buf d) (rpos d)).

(** ** A channel is a bounded FIFO of messages *)
Definition chan_ok (d : doorbell_channel_t) : Prop :=
  Z.of_nat (length (ring_buf d)) = DOORBELL_RING_SIZE /\ 0 <= rpos d < DOORBELL_RING_SIZE /\
  0 <= ring_count d <= DOORBELL_RING_SIZE /\
  wpos d = (rpos d + ring_count d) mod DOORBELL_RING_SIZE.

Definition messages (d : doorbell_channel_t) : list Z :=
  Ring.ring_list DOORBELL_RING_SIZE (ring_buf d) (rpos d) (ring_count d).

Definition dbs_ok (ds : doorbells) : Prop :=
  length ds = Z.to_nat DOORBELL_COUNT /\
  forall c, 0 <= c < DOORBELL_COUNT -> chan_ok (dget ds c).

Lemma dget_mod ds c f : length ds = Z.to_nat DOORBELL_COUNT -> 0 <= c < DOORBELL_COUNT ->
  dget (mod_chan c f ds) c = f (dget ds c).
Proof. intros Hl Hc. apply (aget_aset_eq ds). rewrite Hl. lia. Qed.

Lemma dget_mod_ne ds c k f : 0 <= c -> 0 <= k -> c <> k -> dget (mod_chan c f ds) k = dget ds k.
Proof. intros. by apply (aget_aset_ne ds). Qed.

Lemma chan_valid_true c : 0 <= c < DOORBELL_COUNT -> chan_valid c = true.
Proof. intros Hc. unfold chan_valid. rewrite (proj2 (Z.leb_le _ _)), (proj2 (Z.ltb_lt _ _)) by lia. done. Qed.

Lemma length_messages d : chan_ok d -> Z.of_nat (length (messages d)) = ring_count d.
Proof. intros (_ & _ & ? & _). unfold messages. rewrite Ring.length_ring_list. lia. Qed.

(** Notifying touches only the waiting-task field of the channel. *)
Lemma notify_get c ds s :
  length ds = Z.to_nat DOORBELL_COUNT -> 0 <= c < DOORBELL_COUNT ->
  length (doorbell_notify c ds s).1 = Z.to_nat DOORBELL_COUNT /\
  waiting_task (dget (doorbell_notify c ds s).1 c) <= -1 /\
  (forall k, 0 <= k -> k <> c -> dget (doorbell_notify c ds s).1 k = dget ds k) /\
  exists w, dget (doorbell_notify c ds s).1 c = dget ds c <| waiting_task := w |>.
Proof.
  intros Hl Hc. unfold doorbell_notify. rewrite chan_valid_true by done. cbn [negb].
  destruct (Z.leb_spec 0 (waiting_task (dget ds c))); cbn [fst].
  - split_and!.
    + unfold mod_chan. by rewrite length_aset.
    + rewrite dget_mod by done. simpl. lia.
    + intros k Hk Hne. apply dget_mod_ne; lia.
    + rewrite dget_mod by done. by eexists.
  - split_and!; [done|lia|done|]. exists (waiting_task (dget ds c)). by destruct (dget ds c).
Qed.

(** A doorbell channel is a FIFO of at most 16 messages guarded by its
    access mask: a write is refused, changing nothing, exactly when the
    channel does not exist, the sender (0..63) is not in the mask or the ring
    is full, and otherwise appends; a poll takes the oldest message and
    returns 0 on an empty channel. *)
Theorem doorbell_fifo c msg sender ds s :
  dbs_ok ds ->
  (let '(ds', _, r) := doorbell_write c msg sender ds s in
   (r = -1 /\ ds' = ds /\
      (0 <= c < DOORBELL_COUNT ->
       may_write (dget ds c) sender = false \/ ring_count (dget ds c) = DOORBELL_RING_SIZE)) \/
   (r = 0 /\ 0 <= c < DOORBELL_COUNT /\ may_write (dget ds c) sender = true /\ dbs_ok ds' /\
      messages (dget ds' c) = messages (dget ds c) ++ [msg] /\
      acl_mask (dget ds' c) = acl_mask (dget ds c) /\
      forall k, 0 <= k -> k <> c -> dget ds' k = dget ds k)) /\
  (0 <= c < DOORBELL_COUNT ->
   let '(ds', v) := doorbell_poll c ds in
   dbs_ok ds' /\ (forall k, 0 <= k -> k <> c -> dget ds' k = dget ds k) /\
   match messages (dget ds c) with
   | [] => ds' = ds /\ v = 0
   | m :: rest => v = m /\ messages (dget ds' c) = rest /\ acl_mask (dget ds' c) = acl_mask (dget ds c)
   end).
Proof.
  intros [Hl Hds]. assert (HR : 0 < DOORBELL_RING_SIZE) by reflexivity. split.
  - unfold doorbell_write. destruct (chan_valid c) eqn:Hv; cbn [negb].
    2: { left. split_and!; [done|done|]. intros Hc. by rewrite chan_valid_true in Hv. }
    assert (Hc : 0 <= c < DOORBELL_COUNT).
    { unfold chan_valid in Hv. apply andb_true_iff in Hv as [?%Z.leb_le ?%Z.ltb_lt]. lia. }
    destruct (may_write (dget ds c) sender) eqn:Hm; cbn [negb]; [|by left; split_and!; [done|done|left]].
    pose proof (Hds c Hc) as (Hlen & Hr & Hn & Hw).
    destruct (Z.leb_spec DOORBELL_RING_SIZE (ring_count (dget ds c))).
    { left. split_and!; [done|done|]. intros _. right. lia. }
    cbv zeta. match goal with |- context [mod_chan c ?g ds] => set (f := g) end. set (ds1 := mod_chan c f ds).
    assert (Hl1 : length ds1 = Z.to_nat DOORBELL_COUNT) by (unfold ds1, mod_chan; by rewrite length_aset).
    assert (E1 : dget ds1 c = f (dget ds c)) by (by apply dget_mod).
    destruct (notify_get c ds1 s Hl1 Hc) as (Hl2 & _ & Hother & w & E2).
    destruct (doorbell_notify c ds1 s) as [ds2 s2]. cbn [fst] in *. right.
    assert (Hok : chan_ok (dget ds2 c)).
    { rewrite E2, E1. unfold f, chan_ok. simpl. split_and!; [by rewrite length_aset|lia..|].
      rewrite Hw. by apply Ring.ring_tail_next. }
    split_and!; try done; try lia.
    + split; [done|]. intros k Hk. destruct (decide (k = c)) as [->|Hne]; [done|].
      rewrite Hother by lia. unfold ds1. rewrite dget_mod_ne by lia. by apply Hds.
    + rewrite E2, E1. unfold messages, f. simpl. rewrite Hw. apply Ring.ring_push; lia.
    + by rewrite E2, E1.
    + intros k Hk Hne. rewrite Hother by lia. unfold ds1. apply dget_mod_ne; lia.
  - intros Hc. unfold doorbell_poll. rewrite chan_valid_true by done. cbn [negb].
    pose proof (Hds c Hc) as Hok. pose proof Hok as (Hlen & Hr & Hn & Hw).
    destruct (Z.eqb_spec (ring_count (dget ds c)) 0) as [E0|E0].
    + split; [done|]. split; [done|]. unfold messages. by rewrite E0.
    + unfold messages at 1. rewrite Ring.ring_pop by lia.
      match goal with |- context [mod_chan c ?g ds] => set (f := g) end.
      assert (E1 : dget (mod_chan c f ds) c = f (dget ds c)) by (by apply dget_mod).
      split; [|split; [|split; [done|split; [by rewrite E1|by rewrite E1]]]].
      * split; [unfold mod_chan; by rewrite length_aset|]. intros k Hk.
        destruct (decide (k = c)) as [->|Hne]; [|rewrite dget_mod_ne by lia; by apply Hds].
        rewrite E1. unfold f, chan_ok. simpl. split_and!; [done|apply Z.mod_pos_bound; lia..|lia|lia|].
        rewrite Zplus_mod_idemp_l, Hw. f_equal. lia.
      * intros k Hk Hne. apply dget_mod_ne; lia.
Qed.

Lemma doorbell_init_ok : dbs_ok doorbell_init.
Proof.
  split; [done|]. intros c Hc. unfold dget, doorbell_init. rewrite aget_replicate by lia.
  unfold chan_ok. split_and!; vm_compute; (reflexivity || discriminate).
Qed.

Lemma doorbell_fifo_witness :
  messages (dget (doorbell_write 3 77 100 doorbell_init sched_bss).1.1 3) = [77].
Proof.
  destruct (doorbell_fifo 3 77 100 doorbell_init sched_bss doorbell_init_ok) as [H _].
  assert (F : (doorbell_write 3 77 100 doorbell_init sched_bss).2 = 0) by (vm_compute; reflexivity).
  destruct (doorbell_write 3 77 100 doorbell_init sched_bss) as [[ds' s'] r]. cbn [snd] in F. subst r.
  destruct H as [(H & _)|(_ & _ & _ & _ & H & _)]; [discriminate H|]. cbn [fst]. rewrite H. vm_compute. reflexivity.
Defined.
End Doorbell.

(** * ipc.c *)
Module Ipc.
Import Sched Doorbell.

Definition IPC_MAX_CHANNELS : Z := 16.
Definition IPC_SHM_BASE : Z := 0x70000000.
Definition SHM_SIZE : Z := 0x1000.

Record ipc_channel_t := IpcChan {
  channel_id : Z;
  task_a : Z;
  task_b : Z;
  doorbell_a : Z;
  doorbell_b : Z;
  shm_addr : Z;
  shm_size : Z;
  c_used : bool
}.
#[export] Instance eta_ipcchan : Eta ipc_channel_t := fun c =>
  IpcChan (channel_id c) (task_a c) (task_b c) (doorbell_a c) (doorbell_b c) (shm_addr c)
    (shm_size c) (c_used c).
Definition ipcchan0 : ipc_channel_t := IpcChan 0 (-1) (-1) (-1) (-1) 0 0 false.
#[export] Instance inhabited_ipcchan : Inhabited ipc_channel_t := populate ipcchan0.

(** The static variables, the doorbells, the scheduler the doorbells wake
    tasks in, and the shared pages by address. *)
Record ipc := IpcSt {
  channels : list ipc_channel_t;
  next_doorbell : Z;
  dbs : doorbells;
  isched : sched;
  shm : Z -> list Z
}.
#[export] Instance eta_ipc : Eta ipc := fun i =>
  IpcSt (channels i) (next_doorbell i) (dbs i) (isched i) (shm i).

Definition ipc_init (i : ipc) : ipc :=
  i <| channels := (fun k => ipcchan0 <| channel_id := k |>) <$> zrange (Z.to_nat IPC_MAX_CHANNELS) |>
    <| next_doorbell := 0 |>.

Definition cget (i : ipc) (c : Z) : ipc_channel_t := aget (channels i) c.

Definition ipc_create_channel (a b : Z) (i : ipc) : ipc * Z :=
  match find_index (fun c => negb (c_used c)) (channels i) with
  | None => (i, -1)
  | Some k =>
      let ch := Z.of_nat k in
      let db_a := next_doorbell i in
      let db_b := next_doorbell i + 1 in
      if (DOORBELL_COUNT <=? db_a) || (DOORBELL_COUNT <=? db_b) then (i, -1)
      else
        let ds := doorbell_acl_set db_b a false (doorbell_acl_set db_a b false
                    (doorbell_acl_set db_b b true (doorbell_acl_set db_a a true (dbs i)))) in
        (i <| next_doorbell := next_doorbell i + 2 |> <| dbs := ds |>
           <| channels := aset (channels i) ch
                (IpcChan ch a b db_a db_b (IPC_SHM_BASE + ch * 0x1000) SHM_SIZE true) |>, ch)
  end.

(** [mem_copy(dst, src, len)] into a page. *)
Definition mem_copy (page data : list Z) (len : Z) : list Z :=
  take (Z.to_nat len) data ++ drop (Z.to_nat len) page.

Definition chan_open (c : Z) (i : ipc) : bool :=
  (0 <=? c) && (c <? IPC_MAX_CHANNELS) && c_used (cget i c).

(** [data]: the sender's buffer, at least [len] bytes. *)
Definition ipc_send (c : Z) (data : list Z) (len : Z) (i : ipc) : ipc * Z :=
  if negb (chan_open c i) then (i, -1)
  else if shm_size (cget i c) <? len then (i, -1)
  else
    let ch := cget i c in
    let page := mem_copy (shm i (shm_addr ch)) data len in
    let '(ds, s, _) := doorbell_write (doorbell_a ch) (u64 len) (task_a ch) (dbs i) (isched i) in
    (i <| dbs := ds |> <| isched := s |>
       <| shm := fun a => if a =? shm_addr ch then page else shm i a |>, len).

(** The bytes copied to the receiver and the value returned. *)
Definition ipc_recv (c len : Z) (i : ipc) : ipc * list Z * Z :=
  if negb (chan_open c i) then (i, [], -1) else
  let ch := cget i c in
  let '(ds, msg_len) := doorbell_poll (doorbell_a ch) (dbs i) in
  let i1 := i <| dbs := ds |> in
  if msg_len =? 0 then (i1, [], 0) else
  let n := i32 msg_len in
  let n := if len <? n then len else n in
  let n := if shm_size ch <? n then shm_size ch else n in
  (i1, take (Z.to_nat n) (shm i (shm_addr ch)), n).

Definition ipc_peek (c : Z) (i : ipc) : Z := if negb (chan_open c i) then -1 else 0.

(** An open channel whose doorbell exists and admits its first endpoint. *)
Record channel_ok (c : Z) (i : ipc) : Prop := {
  co_open : chan_open c i = true;
  co_size : shm_size (cget i c) = SHM_SIZE;
  co_db : 0 <= doorbell_a (cget i c) < DOORBELL_COUNT;
  co_acl : may_write (dget (dbs i) (doorbell_a (cget i c))) (task_a (cget i c)) = true;
  co_page : Z.of_nat (length (shm i (shm_addr (cget i c)))) = SHM_SIZE;
  co_dbs : dbs_ok (dbs i)
}.

(** The messages queued on the channel's doorbell. *)
Definition queued (c : Z) (i : ipc) : list Z := messages (dget (dbs i) (doorbell_a (cget i c))).

Lemma ipc_send_effect c data len i :
  channel_ok c i -> 0 <= len <= SHM_SIZE -> len <= Z.of_nat (length data) ->
  let '(i', r) := ipc_send c data len i in
  r = len /\ channels i' = channels i /\
  shm i' (shm_addr (cget i c)) = take (Z.to_nat len) data ++ drop (Z.to_nat len) (shm i (shm_addr (cget i c))) /\
  channel_ok c i' /\
  queued c i' = if ring_count (dget (dbs i) (doorbell_a (cget i c))) =? DOORBELL_RING_SIZE
                then queued c i else queued c i ++ [len].
Proof.
  intros Hco Hlen Hd. destruct Hco as [Ho Hsz Hdb Hacl Hpg Hok]. unfold ipc_send. rewrite Ho. cbn [negb].
  rewrite Hsz. rewrite (proj2 (Z.ltb_ge _ _)) by lia.
  rewrite u64_small by (unfold SHM_SIZE in *; lia).
  pose proof (doorbell_fifo (doorbell_a (cget i c)) len (task_a (cget i c)) (dbs i) (isched i) Hok) as [Hw _].
  destruct (doorbell_write (doorbell_a (cget i c)) len (task_a (cget i c)) (dbs i) (isched i)) as [[ds s] r0] eqn:Ew.
  split; [done|]. split; [done|]. split; [simpl; by rewrite Z.eqb_refl|].
  assert (Hlp : Z.of_nat (length (mem_copy (shm i (shm_addr (cget i c))) data len)) = SHM_SIZE).
  { unfold mem_copy. rewrite length_app, length_take, length_drop. lia. }
  destruct Hw as [(-> & -> & Hwhy)|(-> & _ & _ & Hok' & Hm & Ha & _)].
  - split.
    + constructor; try done. change (Z.of_nat (length (if shm_addr (cget i c) =? shm_addr (cget i c)
        then mem_copy (shm i (shm_addr (cget i c))) data len else shm i (shm_addr (cget i c)))) = SHM_SIZE).
      by rewrite Z.eqb_refl.
    + destruct (Hwhy Hdb) as [H|H]; [congruence|]. rewrite H, Z.eqb_refl. done.
  - split.
    + constructor; try done.
      * change (may_write (dget ds (doorbell_a (cget i c))) (task_a (cget i c)) = true).
        unfold may_write in *. by rewrite Ha.
      * change (Z.of_nat (length (if shm_addr (cget i c) =? shm_addr (cget i c)
          then mem_copy (shm i (shm_addr (cget i c))) data len else shm i (shm_addr (cget i c)))) = SHM_SIZE).
        by rewrite Z.eqb_refl.
    + destruct (Z.eqb_spec (ring_count (dget (dbs i) (doorbell_a (cget i c)))) DOORBELL_RING_SIZE) as [Ef|_];
        [|exact Hm]. exfalso. unfold doorbell_write in Ew.
      rewrite chan_valid_true in Ew by done. cbn [negb] in Ew. rewrite Hacl in Ew. cbn [negb] in Ew.
      rewrite Ef in Ew. discriminate Ew.
Qed.

Lemma ipc_recv_effect c len i m rest :
  channel_ok c i -> queued c i = m :: rest -> 1 <= m <= SHM_SIZE -> m <= len ->
  let '(i', bytes, r) := ipc_recv c len i in
  r = m /\ bytes = take (Z.to_nat m) (shm i (shm_addr (cget i c))) /\ queued c i' = rest.
Proof.
  intros Hco Hq Hm Hl. destruct Hco as [Ho Hsz Hdb Hacl Hpg Hok]. unfold ipc_recv. rewrite Ho. cbn [negb].
  pose proof (doorbell_fifo (doorbell_a (cget i c)) 0 0 (dbs i) (isched i) Hok) as [_ Hp].
  specialize (Hp Hdb). destruct (doorbell_poll (doorbell_a (cget i c)) (dbs i)) as [ds v].
  destruct Hp as (_ & _ & Hmsg). unfold queued in Hq. rewrite Hq in Hmsg.
  destruct Hmsg as (-> & Hrest & _). rewrite (proj2 (Z.eqb_neq _ _)) by lia.
  rewrite i32_small by (unfold SHM_SIZE in *; lia).
  rewrite (proj2 (Z.ltb_ge len m)) by lia. rewrite Hsz, (proj2 (Z.ltb_ge SHM_SIZE m)) by lia.
  split; [done|]. split; [done|]. exact Hrest.
Qed.

(** A message of 1 to 4096 bytes sent on an idle channel is received
    intact; but a channel has one shared page, so a second message sent before
    the first is received replaces its bytes: the first receive then returns
    the first length with the second message's bytes. *)
Theorem ipc_delivery c i d1 l1 d2 l2 len :
  channel_ok c i -> queued c i = [] ->
  1 <= l1 <= SHM_SIZE -> Z.of_nat (length d1) = l1 -> 1 <= l2 <= SHM_SIZE -> Z.of_nat (length d2) = l2 ->
  l1 <= l2 -> l1 <= len ->
  let i1 := (ipc_send c d1 l1 i).1 in
  let i2 := (ipc_send c d2 l2 i1).1 in
  (ipc_recv c len i1).1.2 = d1 /\ (ipc_recv c len i1).2 = l1 /\
  (ipc_send c d2 l2 i1).2 = l2 /\
  (ipc_recv c len i2).2 = l1 /\ (ipc_recv c len i2).1.2 = take (Z.to_nat l1) d2.
Proof.
  intros Hco Hq H1 Hd1 H2 Hd2 Hle Hlen. cbv zeta.
  pose proof (ipc_send_effect c d1 l1 i Hco ltac:(lia) ltac:(lia)) as Hs1.
  destruct (ipc_send c d1 l1 i) as [i1 r1]. cbn [fst].
  destruct Hs1 as (-> & Ech1 & Esh1 & Hco1 & Hq1).
  assert (Ecg1 : cget i1 c = cget i c) by (unfold cget; by rewrite Ech1).
  assert (Hrc : ring_count (dget (dbs i) (doorbell_a (cget i c))) = 0).
  { pose proof (length_messages _ (proj2 (co_dbs c i Hco) _ (co_db c i Hco))) as E.
    unfold queued in Hq. rewrite Hq in E. simpl in E. lia. }
  rewrite Hrc, Hq in Hq1. cbn [Z.eqb DOORBELL_RING_SIZE app] in Hq1.
  pose proof (ipc_recv_effect c len i1 l1 [] Hco1 Hq1 H1 Hlen) as Hr1.
  destruct (ipc_recv c len i1) as [[i1' b1] r1]. destruct Hr1 as (-> & Hb1 & _).
  pose proof (ipc_send_effect c d2 l2 i1 Hco1 ltac:(lia) ltac:(lia)) as Hs2.
  destruct (ipc_send c d2 l2 i1) as [i2 r2]. cbn [fst snd].
  destruct Hs2 as (-> & Ech2 & Esh2 & Hco2 & Hq2).
  assert (Ecg2 : cget i2 c = cget i1 c) by (unfold cget; by rewrite Ech2).
  assert (Hrc1 : ring_count (dget (dbs i1) (doorbell_a (cget i1 c))) = 1).
  { pose proof (length_messages _ (proj2 (co_dbs c i1 Hco1) _ (co_db c i1 Hco1))) as E.
    unfold queued in Hq1. rewrite Hq1 in E. simpl in E. lia. }
  rewrite Hrc1, Hq1 in Hq2. cbn [Z.eqb DOORBELL_RING_SIZE app] in Hq2.
  pose proof (ipc_recv_effect c len i2 l1 [l2] Hco2 Hq2 H1 Hlen) as Hr2.
  destruct (ipc_recv c len i2) as [[i2' b2] r2]. destruct Hr2 as (-> & Hb2 & _).
  split_and!; try done.
  - rewrite Hb1, Ecg1, Esh1. rewrite take_app_le by (rewrite length_take; lia).
    rewrite take_take, Nat.min_id. apply take_ge. lia.
  - cbn [fst snd]. rewrite Hb2, Ecg2, Esh2. rewrite take_app_le by (rewrite length_take; lia).
    rewrite take_take. f_equal. lia.
Qed.

(** ** A first channel between tasks 1 and 2 *)
Definition ipc_bss : ipc :=
  IpcSt (replicate (Z.to_nat IPC_MAX_CHANNELS) ipcchan0) 0 doorbell_init sched_bss
    (fun _ => replicate (Z.to_nat SHM_SIZE) 0).
Definition ex_ipc : ipc := (ipc_create_channel 1 2 (ipc_init ipc_bss)).1.

Lemma acl_set_dbs_ok c t a ds : dbs_ok ds -> dbs_ok (doorbell_acl_set c t a ds).
Proof.
  intros [Hl Hds]. unfold doorbell_acl_set. destruct (chan_valid c) eqn:Hv; cbn [negb]; [|done].
  destruct (_ || _); [done|].
  assert (Hc : 0 <= c < DOORBELL_COUNT).
  { unfold chan_valid in Hv. apply andb_true_iff in Hv as [?%Z.leb_le ?%Z.ltb_lt]. lia. }
  split; [unfold mod_chan; by rewrite length_aset|]. intros k Hk.
  destruct (decide (k = c)) as [->|Hne]; [rewrite dget_mod by done|rewrite dget_mod_ne by lia]; by apply Hds.
Qed.

Lemma ex_ipc_ok : channel_ok 0 ex_ipc.
Proof.
  constructor; try (vm_compute; reflexivity).
  - vm_compute. split; [discriminate|reflexivity].
  - change (dbs ex_ipc) with (doorbell_acl_set 1 1 false (doorbell_acl_set 0 2 false
      (doorbell_acl_set 1 2 true (doorbell_acl_set 0 1 true doorbell_init)))).
    by repeat apply acl_set_dbs_ok; apply doorbell_init_ok.
Qed.

Lemma ipc_delivery_witness :
  let i1 := (ipc_send 0 [10; 11] 2 ex_ipc).1 in
  (ipc_recv 0 64 i1).1.2 = [10; 11] /\
  (ipc_recv 0 64 (ipc_send 0 [20; 21; 22] 3 i1).1).1.2 = [20; 21].
Proof.
  destruct (ipc_delivery 0 ex_ipc [10; 11] 2 [20; 21; 22] 3 64 ex_ipc_ok) as (H1 & _ & _ & _ & H2);
    try reflexivity; try (unfold SHM_SIZE; lia); [].
  split; [exact H1|exact H2].
Defined.

(** Creating a channel between two different tasks gives each of them, and
    not the other, write access to its own doorbell; the new channel's shared
    page is its own. *)
Theorem ipc_channel_acl a b i :
  dbs_ok (dbs i) -> 0 <= next_doorbell i -> 0 <= a < 64 -> 0 <= b < 64 -> a <> b ->
  Z.of_nat (length (channels i)) = IPC_MAX_CHANNELS ->
  let '(i', r) := ipc_create_channel a b i in
  (r = -1 /\ i' = i) \/
  (0 <= r < IPC_MAX_CHANNELS /\ c_used (cget i r) = false /\
   let ch := cget i' r in
   c_used ch = true /\ task_a ch = a /\ task_b ch = b /\ shm_addr ch = IPC_SHM_BASE + r * 0x1000 /\
   may_write (dget (dbs i') (doorbell_a ch)) a = true /\
   may_write (dget (dbs i') (doorbell_a ch)) b = false /\
   may_write (dget (dbs i') (doorbell_b ch)) b = true /\
   may_write (dget (dbs i') (doorbell_b ch)) a = false).
Proof.
  intros Hok Hn Ha Hb Hne Hlen. unfold ipc_create_channel.
  destruct (find_index _ (channels i)) as [k|] eqn:Hf; [|by left].
  destruct (Z.leb_spec DOORBELL_COUNT (next_doorbell i)); [by left|].
  destruct (Z.leb_spec DOORBELL_COUNT (next_doorbell i + 1)); [by left|].
  cbn [orb]. right. apply find_index_Some in Hf as (x & Hx & Hp & _).
  pose proof (lookup_lt_Some _ _ _ Hx) as Hk.
  split; [lia|]. split.
  { unfold cget, aget. rewrite Nat2Z.id, (list_lookup_total_correct _ _ _ Hx). by destruct (c_used x). }
  set (da := next_doorbell i) in *. set (db := next_doorbell i + 1) in *.
  assert (Hda : 0 <= da < DOORBELL_COUNT) by lia. assert (Hdb : 0 <= db < DOORBELL_COUNT) by lia.
  assert (Hdne : da <> db) by lia.
  match goal with |- context [cget ?x (Z.of_nat k)] => assert (Ec : cget x (Z.of_nat k) =
    IpcChan (Z.of_nat k) a b da db (IPC_SHM_BASE + Z.of_nat k * 0x1000) SHM_SIZE true) end.
  { apply (aget_aset_eq (channels i)). lia. }
  cbv zeta. rewrite Ec. cbn [c_used task_a task_b shm_addr doorbell_a doorbell_b].
  split_and!; try done.
  all: assert (Hset : forall c t al ds, 0 <= c < DOORBELL_COUNT -> 0 <= t < 64 ->
    doorbell_acl_set c t al ds = mod_chan c (fun d => d <| acl_mask := if al : bool then bit_set (acl_mask d) t
      else bit_clr (acl_mask d) t |>) ds).
  1, 3, 5, 7: intros c t al ds Hc Ht; unfold doorbell_acl_set; rewrite chan_valid_true by done;
    rewrite (proj2 (Z.ltb_ge t 0)), (proj2 (Z.leb_gt 64 t)) by lia; done.
  all: match goal with |- may_write (dget (dbs ?x) _) _ = _ => change (dbs x) with
    (doorbell_acl_set db a false (doorbell_acl_set da b false
       (doorbell_acl_set db b true (doorbell_acl_set da a true (dbs i))))) end.
  all: assert (L0 : length (dbs i) = Z.to_nat DOORBELL_COUNT) by apply Hok.
  all: rewrite !Hset by done; unfold may_write;
    rewrite (proj2 (Z.leb_le 0 _)), (proj2 (Z.ltb_lt _ 64)) by lia; cbn [andb].
  all: assert (Lm : forall c f ds, length (mod_chan c f ds) = length ds) by (intros; apply length_aset).
  all: repeat first [rewrite dget_mod by (rewrite ?Lm; done) | rewrite dget_mod_ne by lia].
  all: simpl; rewrite ?bit_clr_spec, ?bit_set_spec by lia.
  all: rewrite ?Z.eqb_refl, ?(proj2 (Z.eqb_neq a b)), ?(proj2 (Z.eqb_neq b a)) by congruence.
  all: by rewrite ?orb_true_r, ?andb_false_r, ?andb_true_r.
Qed.

Lemma ipc_channel_acl_witness :
  may_write (dget (dbs ex_ipc) 0) 1 = true /\ may_write (dget (dbs ex_ipc) 0) 2 = false.
Proof.
  pose proof (ipc_channel_acl 1 2 (ipc_init ipc_bss) doorbell_init_ok) as H.
  specialize (H ltac:(discriminate) ltac:(lia) ltac:(lia) ltac:(lia) ltac:(reflexivity)).
  change (ipc_create_channel 1 2 (ipc_init ipc_bss)) with
    (ex_ipc, (ipc_create_channel 1 2 (ipc_init ipc_bss)).2) in H.
  destruct H as [[H _]|(_ & _ & _ & _ & _ & _ & H1 & H2 & _)]; [vm_compute in H; discriminate H|].
  split; [exact H1|exact H2].
Defined.
End Ipc.
