(* ===== verification/Printk.v ===== *)
(** The kernel log (src/src/kernel/core/printk.c): the formatter and the ring
    of the last 64 lines. *)
From S2P Require Import Prelude Ring.

Module Printk.

Definition LOG_ENTRIES : Z := 64.
Definition LOG_ENTRY_LEN : Z := 128.
Definition KERN_WARNING : Z := 4.
Definition KERN_INFO : Z := 6.
Definition KERN_DEBUG : Z := 7.

(** ** fmt_uint *)

(** The digit characters. *)
Definition digit_char (upper : bool) (d : Z) : Z :=
  if d <? 10 then 48 + d else (if upper then 65 else 97) + (d - 10).

(** [tmp]: the digits of [v], least significant first. *)
Fixpoint digits_rev (fuel : nat) (base v : Z) : list Z :=
  match fuel with
  | O => []
  | S f => if v =? 0 then [] else (v mod base) :: digits_rev f base (v / base)
  end.

(** A 64-bit value has at most 64 digits in any base from 2 up. *)
Definition digits (base v : Z) : list Z :=
  if v =? 0 then [0] else rev (digits_rev 64 base v).

(** Append while the cursor is below [cap - 1]. *)
Definition room (cap : Z) (out : list Z) : nat := Z.to_nat (cap - 1 - Z.of_nat (length out)).
Definition put (cap : Z) (out bs : list Z) : list Z := out ++ take (room cap out) bs.

Definition fmt_uint (cap : Z) (out : list Z) (v base : Z) (upper : bool) : list Z :=
  put cap out (digit_char upper <$> digits base v).

(** ** vsnprintf_k *)

(** A variadic argument, as the conversion reads it: a C string (NULL is
    [None]) or an integer register. *)
Inductive karg :=
| AStr (s : option (list Z))
| AInt (v : Z).

Definition lit_null : list Z := [40; 110; 117; 108; 108; 41].
Definition PERCENT : Z := 37.

(** One conversion: the new output and the arguments left. [None]: the
    argument list has no argument of the kind the conversion reads. *)
Definition conv (cap : Z) (c : Z) (out : list Z) (args : list karg) : option (list Z * list karg) :=
  if c =? 115 (* s *) then
    match args with
    | AStr s :: args' => Some (put cap out (default lit_null s), args')
    | _ => None
    end
  else if c =? 99 (* c *) then
    match args with
    | AInt v :: args' => Some (put cap out [u8 v], args')
    | _ => None
    end
  else if c =? 100 (* d *) then
    match args with
    | AInt v :: args' =>
        let v := i32 v in
        if v <? 0 then Some (fmt_uint cap (put cap out [45]) (u64 (i32 (- v))) 10 false, args')
        else Some (fmt_uint cap out (u64 v) 10 false, args')
    | _ => None
    end
  else if c =? 117 (* u *) then
    match args with
    | AInt v :: args' => Some (fmt_uint cap out (u64 v) 10 false, args')
    | _ => None
    end
  else if c =? 120 (* x *) then
    match args with
    | AInt v :: args' => Some (fmt_uint cap out (u64 v) 16 false, args')
    | _ => None
    end
  else if c =? 112 (* p *) then
    match args with
    | AInt v :: args' =>
        let out := if Z.of_nat (length out) + 2 <? cap - 1 then out ++ [48; 120] else out in
        Some (fmt_uint cap out (u64 v) 16 false, args')
    | _ => None
    end
  else if c =? PERCENT then Some (put cap out [PERCENT], args)
  else Some (put cap (put cap out [PERCENT]) [c], args).

(** The format is the bytes before its NUL. [None]: a format that ends in a
    lone '%' makes the loop step over the NUL and read past the string. *)
Fixpoint vfmt (cap : Z) (fmt : list Z) (out : list Z) (args : list karg) : option (list Z) :=
  match fmt with
  | [] => Some out
  | b :: rest =>
      if negb (Z.of_nat (length out) <? cap - 1) then Some out
      else if negb (b =? PERCENT) then vfmt cap rest (out ++ [b]) args
      else
        match rest with
        | [] => None
        | c :: rest' =>
            '(out', args') ← conv cap c out args;
            vfmt cap rest' out' args'
        end
  end.

(** The characters before the NUL; the return value is their number. *)
Definition vsnprintf_k (cap : Z) (fmt : list Z) (args : list karg) : option (list Z) :=
  vfmt cap fmt [] args.

(** ** The log ring *)
Record log := LogSt {
  log_text : list (list Z);
  log_level : list Z;
  log_head : Z;
  log_count : Z;
  g_console_level : Z;
  console : list (list Z)
}.
#[export] Instance eta_log : Eta log := fun l =>
  LogSt (log_text l) (log_level l) (log_head l) (log_count l) (g_console_level l) (console l).

Definition log_bss : log :=
  LogSt (replicate (Z.to_nat LOG_ENTRIES) []) (replicate (Z.to_nat LOG_ENTRIES) 0) 0 0 KERN_INFO [].

Definition printk_set_console_level (level : Z) (l : log) : log := l <| g_console_level := level |>.

Definition printk_init (l : log) : log :=
  l <| log_text := replicate (Z.to_nat LOG_ENTRIES) [] |>
    <| log_level := replicate (Z.to_nat LOG_ENTRIES) KERN_DEBUG |>
    <| log_head := 0 |> <| log_count := 0 |>.

Fixpoint c_str (l : list Z) : list Z :=
  match l with
  | [] => []
  | b :: l' => if b =? 0 then [] else b :: c_str l'
  end.

Definition printk (level : Z) (fmt : list Z) (args : list karg) (l : log) : option log :=
  line ← vsnprintf_k LOG_ENTRY_LEN fmt args;
  let text := take (Z.to_nat (LOG_ENTRY_LEN - 1)) (c_str line) in
  let l1 := l <| log_text := aset (log_text l) (log_head l) text |>
              <| log_level := aset (log_level l) (log_head l) (u8 level) |>
              <| log_head := (log_head l + 1) mod LOG_ENTRIES |>
              <| log_count := if log_count l <? LOG_ENTRIES then log_count l + 1 else log_count l |> in
  Some (if level <=? g_console_level l then l1 <| console := console l1 ++ [c_str line] |> else l1).

(** The "<level>" prefix [printk_dump] emits. *)
Definition level_prefix (lv : Z) : list Z :=
  [60] ++ (if 10 <=? lv then [u8 (48 + lv / 10)] else []) ++ [u8 (48 + lv mod 10); 62].

(** The strings emitted, in order. *)
Definition printk_dump (l : log) : list (list Z) :=
  let start := log_head l - log_count l in
  let start := if start <? 0 then start + LOG_ENTRIES else start in
  concat ((fun i =>
    let idx := (start + i) mod LOG_ENTRIES in
    [level_prefix (aget (log_level l) idx); aget (log_text l) idx; [10]])
    <$> zrange (Z.to_nat (log_count l))).

(** ** Properties *)

(** Reading the digits back. *)
Definition value (base : Z) (ds : list Z) : Z := foldl (fun acc d => acc * base + d) 0 ds.

Lemma value_snoc base ds d : value base (ds ++ [d]) = value base ds * base + d.
Proof. unfold value. by rewrite foldl_app. Qed.

Lemma digits_rev_value fuel base v :
  2 <= base -> 0 <= v < base ^ Z.of_nat fuel ->
  value base (rev (digits_rev fuel base v)) = v /\
  Forall (fun d => 0 <= d < base) (digits_rev fuel base v).
Proof.
  intros Hb. revert v. induction fuel as [|f IH]; intros v Hv; simpl.
  { change (base ^ Z.of_nat 0) with 1 in Hv. split; [unfold value; simpl; lia|constructor]. }
  destruct (Z.eqb_spec v 0) as [->|Hne]; [split; [done|constructor]|].
  assert (Hq : 0 <= v / base < base ^ Z.of_nat f).
  { split; [apply Z.div_pos; lia|]. apply Z.div_lt_upper_bound; [lia|].
    rewrite Nat2Z.inj_succ, Z.pow_succ_r in Hv by lia. lia. }
  destruct (IH _ Hq) as [IHv IHf]. pose proof (Z.mod_pos_bound v base ltac:(lia)).
  simpl. rewrite value_snoc, IHv. split; [|by constructor].
  pose proof (Z_div_mod_eq_full v base). lia.
Qed.

Lemma digits_spec base v :
  2 <= base <= 16 -> 0 <= v < 2 ^ 64 ->
  value base (digits base v) = v /\ Forall (fun d => 0 <= d < base) (digits base v) /\
  digits base v <> [] /\ (v <> 0 -> hd 0 (digits base v) <> 0).
Proof.
  intros Hb Hv. unfold digits. destruct (Z.eqb_spec v 0) as [->|Hne].
  { split_and!; [done|repeat constructor; lia|done|done]. }
  assert (Hv' : 0 <= v < base ^ Z.of_nat 64).
  { split; [lia|]. apply Z.lt_le_trans with (2 ^ 64); [lia|]. apply Z.pow_le_mono_l. lia. }
  destruct (digits_rev_value 64 base v ltac:(lia) Hv') as [H1 H2].
  assert (Hlast : forall fuel w, 0 <= w < base ^ Z.of_nat fuel -> w <> 0 ->
    exists l d, digits_rev fuel base w = l ++ [d] /\ d <> 0).
  { induction fuel as [|f IH]; intros w Hw Hw0.
    { change (base ^ Z.of_nat 0) with 1 in Hw. lia. }
    simpl. rewrite (proj2 (Z.eqb_neq w 0)) by done.
    destruct (Z.eq_dec (w / base) 0) as [E|E].
    - exists [], (w mod base). rewrite E. split; [destruct f; done|].
      rewrite Z.mod_small; [done|]. apply Z.div_small_iff in E; lia.
    - assert (Hq : 0 <= w / base < base ^ Z.of_nat f).
      { split; [apply Z.div_pos; lia|]. apply Z.div_lt_upper_bound; [lia|].
        rewrite Nat2Z.inj_succ, Z.pow_succ_r in Hw by lia. lia. }
      destruct (IH _ Hq E) as (l & d & -> & Hd). by exists (w mod base :: l), d. }
  destruct (Hlast 64%nat v Hv' Hne) as (l & d & El & Hd).
  split_and!; [done|by apply Forall_rev|rewrite El, rev_app_distr; done|].
  intros _. rewrite El, rev_app_distr. done.
Qed.

Lemma length_put cap out bs :
  Z.of_nat (length out) <= cap - 1 -> Z.of_nat (length (put cap out bs)) <= cap - 1.
Proof. intros H. unfold put, room. rewrite length_app, length_take. lia. Qed.

Lemma conv_length cap c out args out' args' :
  Z.of_nat (length out) <= cap - 1 -> conv cap c out args = Some (out', args') ->
  Z.of_nat (length out') <= cap - 1.
Proof.
  intros H. unfold conv, fmt_uint.
  repeat match goal with
  | |- context [if ?b then _ else _] => destruct b eqn:?
  | |- context [match args with _ => _ end] => destruct args as [|[|] ?]
  end; intros Heq; try discriminate Heq; injection Heq as <- <-; repeat apply length_put; try done.
  all: repeat match goal with E : (_ <? _) = true |- _ => apply Z.ltb_lt in E end;
    rewrite ?length_app; simpl; lia.
Qed.

Lemma vfmt_length cap n : forall fmt args acc out,
  (length fmt <= n)%nat -> Z.of_nat (length acc) <= cap - 1 ->
  vfmt cap fmt acc args = Some out -> Z.of_nat (length out) <= cap - 1.
Proof.
  induction n as [|n IH]; intros fmt args acc out Hle H0.
  { destruct fmt; [|simpl in Hle; lia]. by intros [= <-]. }
  destruct fmt as [|b rest]; simpl; [by intros [= <-]|].
  destruct (Z.ltb_spec (Z.of_nat (length acc)) (cap - 1)); cbn [negb]; [|by intros [= <-]].
  destruct (b =? PERCENT); cbn [negb].
  - destruct rest as [|c rest']; [done|].
    destruct (conv cap c acc args) as [[acc' args']|] eqn:Ec; [|done]. simpl.
    apply IH; [simpl in Hle; lia|]. by eapply conv_length.
  - apply IH; [simpl in Hle; lia|]. rewrite length_app. simpl. lia.
Qed.

Lemma vsnprintf_length cap fmt args out :
  1 <= cap -> vsnprintf_k cap fmt args = Some out -> Z.of_nat (length out) <= cap - 1.
Proof. intros Hc. unfold vsnprintf_k. apply (vfmt_length cap (length fmt)); [lia|simpl; lia]. Qed.

(** C11: The formatter never writes past its buffer: whatever the format and the
    arguments, at most [cap - 1] characters precede the NUL. *)
Theorem vsnprintf_bounded cap fmt args out :
  1 <= cap -> vsnprintf_k cap fmt args = Some out -> Z.of_nat (length out) <= cap - 1.
Proof. apply vsnprintf_length. Qed.

Lemma vsnprintf_bounded_witness :
  exists out, vsnprintf_k 8 [37; 117; 32; 37; 120] [AInt 1234; AInt 255] = Some out /\
  out = [49; 50; 51; 52; 32; 102; 102] /\ Z.of_nat (length out) <= 7.
Proof.
  exists [49; 50; 51; 52; 32; 102; 102].
  assert (Eq : vsnprintf_k 8 [37; 117; 32; 37; 120] [AInt 1234; AInt 255] =
              Some [49; 50; 51; 52; 32; 102; 102]) by (vm_compute; reflexivity).
  split; [exact Eq|]. split; [reflexivity|].
  apply (vsnprintf_bounded 8 [37; 117; 32; 37; 120] [AInt 1234; AInt 255]); [lia|exact Eq].
Defined.

(** A digit character back to its value. *)
Definition char_digit (b : Z) : Z := if b <? 58 then b - 48 else b - 97 + 10.

(** Numbers print without loss: with room for them, [%u] and [%x] of any
    64-bit value append characters that read back as that value, with no
    leading zero. *)
Theorem fmt_uint_roundtrip cap out v base :
  base = 10 \/ base = 16 -> 0 <= v < 2 ^ 64 -> Z.of_nat (length out) + 64 < cap ->
  exists cs, fmt_uint cap out v base false = out ++ cs /\
    value base (char_digit <$> cs) = v /\ (v <> 0 -> hd 0 cs <> 48).
Proof.
  intros Hb Hv Hr. assert (Hb' : 2 <= base <= 16) by lia.
  destruct (digits_spec base v Hb' Hv) as (Hval & HF & Hne & Hhd).
  assert (Hlen : (length (digits base v) <= 64)%nat).
  { unfold digits. destruct (v =? 0); [simpl; lia|]. rewrite length_rev.
    assert (Hl : forall f w, (length (digits_rev f base w) <= f)%nat); [|apply Hl].
    induction f as [|f IH]; intros w; simpl; [lia|]. destruct (w =? 0); simpl; [lia|].
    specialize (IH (w / base)). lia. }
  exists (digit_char false <$> digits base v). split_and!.
  - unfold fmt_uint, put. f_equal. apply take_ge. rewrite length_fmap. unfold room. lia.
  - rewrite <- Hval at 2. f_equal. rewrite <- list_fmap_compose. rewrite <- (list_fmap_id (digits base v)) at 2.
    apply list_fmap_ext. intros i d Hd. rewrite Forall_forall in HF.
    assert (Hdr : 0 <= d < base) by (apply HF; by apply list_elem_of_lookup_2 with i).
    unfold char_digit, digit_char. simpl. destruct (Z.ltb_spec d 10).
    + rewrite (proj2 (Z.ltb_lt _ _)) by lia. lia.
    + rewrite (proj2 (Z.ltb_ge _ _)) by lia. lia.
  - intros H0. specialize (Hhd H0). destruct (digits base v) as [|d ds]; [done|]. simpl in *.
    apply Forall_cons in HF as [Hd _]. unfold digit_char. destruct (Z.ltb_spec d 10); lia.
Qed.

Lemma fmt_uint_roundtrip_witness :
  exists cs, fmt_uint 128 [] (2 ^ 64 - 1) 10 false = [] ++ cs /\ value 10 (char_digit <$> cs) = 2 ^ 64 - 1.
Proof.
  destruct (fmt_uint_roundtrip 128 [] (2 ^ 64 - 1) 10) as (cs & H1 & H2 & _); [by left|lia|simpl; lia|].
  exists cs. split; [exact H1|exact H2].
Defined.

(** ** The ring keeps the last 64 lines *)
Definition log_ok (l : log) : Prop :=
  length (log_text l) = Z.to_nat LOG_ENTRIES /\ length (log_level l) = Z.to_nat LOG_ENTRIES /\
  0 <= log_head l < LOG_ENTRIES /\ 0 <= log_count l <= LOG_ENTRIES.

(** The index of the oldest line. *)
Definition log_start (l : log) : Z := (log_head l - log_count l) mod LOG_ENTRIES.

(** The lines held, oldest first, with their levels. *)
Definition log_lines (l : log) : list (Z * list Z) :=
  zip (Ring.ring_list LOG_ENTRIES (log_level l) (log_start l) (log_count l))
      (Ring.ring_list LOG_ENTRIES (log_text l) (log_start l) (log_count l)).

Definition last_n {A} (n : nat) (l : list A) : list A := drop (length l - n) l.

Lemma ring_full_push {A} `{Inhabited A} (buf : list A) head x :
  Z.of_nat (length buf) = LOG_ENTRIES -> 0 <= head < LOG_ENTRIES ->
  Ring.ring_list LOG_ENTRIES (aset buf head x) ((head + 1) mod LOG_ENTRIES) LOG_ENTRIES =
  tail (Ring.ring_list LOG_ENTRIES buf head LOG_ENTRIES) ++ [x].
Proof.
  intros Hl Hh. assert (HL : LOG_ENTRIES = 64) by done.
  rewrite (Ring.ring_pop LOG_ENTRIES buf head LOG_ENTRIES) by lia. cbn [tail].
  pose proof (Ring.ring_push LOG_ENTRIES buf ((head + 1) mod LOG_ENTRIES) (LOG_ENTRIES - 1) x
                ltac:(lia) Hl ltac:(lia)) as Hp.
  replace (LOG_ENTRIES - 1 + 1) with LOG_ENTRIES in Hp by lia. rewrite <- Hp. do 2 f_equal.
  rewrite Zplus_mod_idemp_l. replace (head + 1 + (LOG_ENTRIES - 1)) with (head + 1 * LOG_ENTRIES) by lia.
  rewrite Z_mod_plus_full. symmetry. by apply Z.mod_small.
Qed.

Lemma ring_log_push {A} `{Inhabited A} (buf : list A) head count x :
  Z.of_nat (length buf) = LOG_ENTRIES -> 0 <= head < LOG_ENTRIES -> 0 <= count <= LOG_ENTRIES ->
  let count' := if count <? LOG_ENTRIES then count + 1 else count in
  let head' := (head + 1) mod LOG_ENTRIES in
  Ring.ring_list LOG_ENTRIES (aset buf head x) ((head' - count') mod LOG_ENTRIES) count' =
  last_n 64 (Ring.ring_list LOG_ENTRIES buf ((head - count) mod LOG_ENTRIES) count ++ [x]).
Proof.
  intros Hl Hh Hc. cbv zeta. assert (HL : LOG_ENTRIES = 64) by done.
  assert (Hh' : (head - count + count) mod LOG_ENTRIES = head) by (rewrite Z.sub_add; by apply Z.mod_small).
  destruct (Z.ltb_spec count LOG_ENTRIES) as [Hlt|Hge].
  - replace (((head + 1) mod LOG_ENTRIES - (count + 1)) mod LOG_ENTRIES) with ((head - count) mod LOG_ENTRIES).
    2: { rewrite Zminus_mod_idemp_l. f_equal. lia. }
    pose proof (Ring.ring_push LOG_ENTRIES buf ((head - count) mod LOG_ENTRIES) count x ltac:(lia) Hl ltac:(lia)) as Hp.
    rewrite Zplus_mod_idemp_l, Hh' in Hp. rewrite Hp. unfold last_n.
    rewrite length_app, Ring.length_ring_list. simpl.
    replace (Z.to_nat count + 1 - 64)%nat with 0%nat by lia. by rewrite drop_0.
  - assert (count = LOG_ENTRIES) as -> by lia.
    assert (E1 : ((head + 1) mod LOG_ENTRIES - LOG_ENTRIES) mod LOG_ENTRIES = (head + 1) mod LOG_ENTRIES).
    { replace ((head + 1) mod LOG_ENTRIES - LOG_ENTRIES) with ((head + 1) mod LOG_ENTRIES + (-1) * LOG_ENTRIES) by lia.
      rewrite Z_mod_plus_full, Zmod_mod. done. }
    assert (E2 : (head - LOG_ENTRIES) mod LOG_ENTRIES = head).
    { replace (head - LOG_ENTRIES) with (head + (-1) * LOG_ENTRIES) by lia.
      rewrite Z_mod_plus_full. by apply Z.mod_small. }
    rewrite E1, E2, ring_full_push by done. unfold last_n.
    rewrite length_app, Ring.length_ring_list. rewrite HL. change (Z.to_nat 64) with 64%nat. simpl length.
    replace (64 + 1 - 64)%nat with 1%nat by lia.
    rewrite (Ring.ring_pop 64 buf head 64) by lia. done.
Qed.

Lemma zip_last_n {A B} n (l : list A) (k : list B) :
  length l = length k -> zip (last_n n l) (last_n n k) = last_n n (zip l k).
Proof.
  intros Hl. unfold last_n. rewrite length_zip_with, <- Hl, Nat.min_id.
  generalize (length l - n)%nat as m. clear n. revert k Hl.
  induction l as [|x l IH]; intros [|y k] Hl m; try done; [by destruct m|].
  destruct m as [|m]; [done|]. simpl. apply IH. by injection Hl.
Qed.

(** C10: The log holds the last 64 lines in order: each [printk] whose format is
    well formed appends its level and (truncated) text, the oldest line being
    dropped once 64 are held, and [printk_dump] emits exactly those lines,
    oldest first. *)
Theorem printk_log_last_64 level fmt args l l' line :
  log_ok l -> vsnprintf_k LOG_ENTRY_LEN fmt args = Some line -> printk level fmt args l = Some l' ->
  log_ok l' /\
  log_lines l' = last_n 64 (log_lines l ++ [(u8 level, c_str line)]) /\
  printk_dump l' = concat ((fun e => [level_prefix e.1; e.2; [10]]) <$> log_lines l').
Proof.
  intros (Hlt & Hll & Hh & Hc) Hline. unfold printk. rewrite Hline. simpl. intros [= <-].
  assert (HL : LOG_ENTRIES = 64) by done.
  assert (Htext : take 127 (c_str line) = c_str line).
  { apply take_ge. pose proof (vsnprintf_length LOG_ENTRY_LEN fmt args line ltac:(done) Hline) as Hb.
    change (LOG_ENTRY_LEN - 1) with 127 in Hb.
    assert (Hcs : forall k, (length (c_str k) <= length k)%nat).
    { induction k as [|b k IH]; simpl; [lia|]. destruct (b =? 0); simpl; lia. }
    specialize (Hcs line). lia. }
  set (l1 := LogSt _ _ _ _ _ _).
  assert (Hgoal : log_ok l1 /\ log_lines l1 = last_n 64 (log_lines l ++ [(u8 level, c_str line)])).
  { unfold l1. split.
    - unfold log_ok. simpl. rewrite !length_aset. split_and!; try done.
      + apply Z.mod_pos_bound. lia.
      + apply Z.mod_pos_bound. lia.
      + destruct (_ <? _); lia.
      + destruct (Z.ltb_spec (log_count l) LOG_ENTRIES); lia.
    - unfold log_lines, log_start. simpl.
      rewrite (ring_log_push (log_level l) (log_head l) (log_count l) (u8 level)) by lia.
      rewrite (ring_log_push (log_text l) (log_head l) (log_count l) (take 127 (c_str line))) by lia.
      rewrite zip_last_n by (rewrite !length_app, !Ring.length_ring_list; done).
      rewrite zip_with_app by (by rewrite !Ring.length_ring_list). by rewrite Htext. }
  assert (Hdump : forall k, log_ok k ->
    printk_dump k = concat ((fun e => [level_prefix e.1; e.2; [10]]) <$> log_lines k)).
  { intros k (_ & _ & Hkh & Hkc). unfold printk_dump, log_lines, log_start, Ring.ring_list. f_equal.
    rewrite zip_with_fmap_l, zip_with_fmap_r. rewrite zip_with_diag. rewrite <- list_fmap_compose.
    apply list_fmap_ext. intros n i Hi. cbv zeta. simpl.
    assert (Eq : forall x, ((if log_head k - log_count k <? 0 then log_head k - log_count k + LOG_ENTRIES
                 else log_head k - log_count k) + x) mod LOG_ENTRIES =
                ((log_head k - log_count k) mod LOG_ENTRIES + x) mod LOG_ENTRIES).
    { intros x. rewrite Zplus_mod_idemp_l. destruct (_ <? 0); [|done].
      replace (log_head k - log_count k + LOG_ENTRIES + x)
        with (log_head k - log_count k + x + 1 * LOG_ENTRIES) by lia. apply Z_mod_plus_full. }
    by rewrite Eq. }
  destruct Hgoal as [Hok Hlines].
  destruct (level <=? g_console_level l); (split; [exact Hok|]; split; [exact Hlines|]);
    apply Hdump; exact Hok.
Qed.

Lemma printk_log_last_64_witness :
  exists l', printk 6 [104; 105; 37; 117] [AInt 7] log_bss = Some l' /\ log_lines l' = [(6, [104; 105; 55])].
Proof.
  destruct (printk 6 [104; 105; 37; 117] [AInt 7] log_bss) as [l'|] eqn:Eq.
  - exists l'. split; [reflexivity|].
    assert (Hok : log_ok log_bss) by (split_and!; vm_compute; (reflexivity || discriminate)).
    destruct (printk_log_last_64 6 [104; 105; 37; 117] [AInt 7] log_bss l' [104; 105; 55] Hok) as (_ & -> & _);
      [vm_compute; reflexivity|exact Eq|vm_compute; reflexivity].
  - exfalso. vm_compute in Eq. discriminate Eq.
Defined.

(** A format ending in a lone '%' runs past its terminator. *)
Example lone_percent cap args : 2 <= cap -> vsnprintf_k cap [PERCENT] args = None.
Proof.
  intros H. unfold vsnprintf_k, vfmt. cbn [length].
  by rewrite (proj2 (Z.ltb_lt (Z.of_nat 0) (cap - 1))) by lia.
Qed.
End Printk.
