(* ===== verification/Phys.v ===== *)
(** Physical memory: the bytes behind every pointer of the kernel, which runs
    identity-mapped (include/axion.h, mm/vm.c), and the 64-bit little-endian
    words of page tables and structures. *)
From S2P Require Import Prelude.

Module Phys.

(** Byte address to byte. *)
Abbreviation mem := (Z -> Z).

Definition ld8 (m : mem) (a : Z) : Z := u8 (m a).
Definition st8 (m : mem) (a v : Z) : mem := fun b => if b =? a then u8 v else m b.

(** Words, least significant byte first. *)
Fixpoint ld_le (n : nat) (m : mem) (a : Z) : Z :=
  match n with
  | O => 0
  | S n' => ld8 m a + 256 * ld_le n' m (a + 1)
  end.

Definition ld64 (m : mem) (a : Z) : Z := ld_le 8 m a.
Definition st64 (m : mem) (a v : Z) : mem := fun b =>
  if (a <=? b) && (b <? a + 8) then u8 (v / 256 ^ (b - a)) else m b.

(** [for (i = 0; i < n; i++) p[i] = 0], as one update of the range
    ([zero_loop] below relates it to the loop). *)
Definition zero (m : mem) (p n : Z) : mem := fun b =>
  if (p <=? b) && (b <? p + n) then 0 else m b.

(** Byte copies: between two places of memory, from a buffer held as a list,
    and to one. *)
Definition copy_bytes (m : mem) (dst src n : Z) : mem :=
  foldl (fun m i => st8 m (dst + i) (ld8 m (src + i))) m (zrange (Z.to_nat n)).

(** The same as one update of the range, except when the destination starts
    inside the source and the loop reads bytes it has written ([copy_loop]). *)
Definition copy (m : mem) (dst src n : Z) : mem :=
  if (src <? dst) && (dst <? src + n) then copy_bytes m dst src n
  else fun b => if (dst <=? b) && (b <? dst + n) then m (src + (b - dst)) else m b.

Fixpoint st_bytes (m : mem) (a : Z) (l : list Z) : mem :=
  match l with
  | [] => m
  | b :: l' => st_bytes (st8 m a b) (a + 1) l'
  end.

Definition ld_bytes (m : mem) (a : Z) (n : nat) : list Z := (fun i => ld8 m (a + i)) <$> zrange n.

(** ** Lemmas *)
Lemma ld8_range m a : 0 <= ld8 m a < 256.
Proof. apply (u8_range _). Qed.

Lemma ld8_st8 m a v b : ld8 (st8 m a v) b = if decide (a = b) then u8 v else ld8 m b.
Proof.
  unfold ld8, st8. destruct (decide (a = b)) as [->|Hne].
  - rewrite Z.eqb_refl. unfold u8. by rewrite Zmod_mod.
  - by rewrite (proj2 (Z.eqb_neq b a)) by lia.
Qed.

Lemma ld_le_range n m a : 0 <= ld_le n m a < 256 ^ Z.of_nat n.
Proof.
  revert a. induction n as [|n IH]; intros a; cbn [ld_le]; [change (256 ^ Z.of_nat 0) with 1; lia|].
  specialize (IH (a + 1)). pose proof (ld8_range m a).
  rewrite Nat2Z.inj_succ, Z.pow_succ_r by lia. lia.
Qed.

Lemma ld64_range m a : 0 <= ld64 m a < 2 ^ 64.
Proof. exact (ld_le_range 8 m a). Qed.

Lemma ld_le_ext n m m' a :
  (forall b, a <= b < a + Z.of_nat n -> ld8 m b = ld8 m' b) -> ld_le n m a = ld_le n m' a.
Proof.
  revert a. induction n as [|n IH]; intros a H; cbn [ld_le]; [done|].
  rewrite (H a), (IH (a + 1)); [done| |lia]. intros b Hb. apply H. lia.
Qed.

Lemma ld64_ext m m' a :
  (forall b, a <= b < a + 8 -> ld8 m b = ld8 m' b) -> ld64 m a = ld64 m' a.
Proof. intros H. by apply ld_le_ext. Qed.

Lemma ld8_st64_in m a v b :
  a <= b < a + 8 -> ld8 (st64 m a v) b = u8 (v / 256 ^ (b - a)).
Proof.
  intros H. unfold ld8, st64. rewrite (proj2 (Z.leb_le a b)), (proj2 (Z.ltb_lt b (a + 8))) by lia.
  simpl. unfold u8. by rewrite Zmod_mod.
Qed.

Lemma ld8_st64 m a v b : ~ (a <= b < a + 8) -> ld8 (st64 m a v) b = ld8 m b.
Proof.
  intros H. unfold ld8, st64.
  destruct (Z.leb_spec a b), (Z.ltb_spec b (a + 8)); simpl; try done. lia.
Qed.

Lemma ld_le_digits n m a v :
  0 <= v < 256 ^ Z.of_nat n ->
  (forall i, 0 <= i < Z.of_nat n -> ld8 m (a + i) = u8 (v / 256 ^ i)) -> ld_le n m a = v.
Proof.
  revert a v. induction n as [|n IH]; intros a v Hv H; cbn [ld_le].
  { change (256 ^ Z.of_nat 0) with 1 in Hv. lia. }
  rewrite Nat2Z.inj_succ, Z.pow_succ_r in Hv by lia.
  pose proof (H 0 ltac:(lia)) as H0. rewrite Z.add_0_r, Z.pow_0_r, Z.div_1_r in H0. rewrite H0.
  rewrite (IH (a + 1) (v / 256)).
  - unfold u8. change (2 ^ 8) with 256. pose proof (Z_div_mod_eq_full v 256). lia.
  - split; [apply Z.div_pos; lia|apply Z.div_lt_upper_bound; lia].
  - intros i Hi. rewrite <- Z.add_assoc, (H (1 + i)) by lia. f_equal.
    rewrite Z.div_div by (try lia; apply Z.pow_pos_nonneg; lia). f_equal.
    rewrite Z.pow_add_r by lia. lia.
Qed.

Lemma ld64_st64_eq m a v : 0 <= v < 2 ^ 64 -> ld64 (st64 m a v) a = v.
Proof.
  intros Hv. apply (ld_le_digits 8); [done|]. intros i Hi. rewrite ld8_st64_in by lia. do 3 f_equal. lia.
Qed.

Lemma ld64_st64_ne m a v b : b + 8 <= a \/ a + 8 <= b -> ld64 (st64 m a v) b = ld64 m b.
Proof. intros H. apply ld64_ext. intros c Hc. apply ld8_st64. lia. Qed.

(** An aligned word is either the stored one or disjoint from it. *)
Lemma ld64_st64_aligned m a v b :
  0 <= v < 2 ^ 64 -> a mod 8 = 0 -> b mod 8 = 0 ->
  ld64 (st64 m a v) b = if decide (a = b) then v else ld64 m b.
Proof.
  intros Hv Ha Hb. destruct (decide (a = b)) as [<-|Hne]; [by apply ld64_st64_eq|].
  apply ld64_st64_ne. pose proof (Z_div_mod_eq_full a 8). pose proof (Z_div_mod_eq_full b 8). lia.
Qed.

Lemma ld8_zero m p n b :
  ld8 (zero m p n) b = if decide (p <= b < p + n) then 0 else ld8 m b.
Proof.
  unfold ld8, zero. destruct (Z.leb_spec p b), (Z.ltb_spec b (p + n)); simpl;
    destruct (decide _); done || lia.
Qed.

(** The byte loop has the same effect. *)
Lemma zero_loop m p n b :
  ld8 (foldl (fun m i => st8 m (p + i) 0) m (zrange (Z.to_nat n))) b = ld8 (zero m p n) b.
Proof.
  assert (H : forall k, ld8 (foldl (fun m i => st8 m (p + i) 0) m (zrange k)) b =
    if decide (p <= b < p + Z.of_nat k) then 0 else ld8 m b).
  { induction k as [|k IH].
    { destruct (decide _); [lia|done]. }
    rewrite zrange_S, foldl_app. cbn [foldl]. rewrite ld8_st8, IH.
    destruct (decide (p + Z.of_nat k = b)), (decide (p <= b < p + Z.of_nat k)),
      (decide (p <= b < p + Z.of_nat (S k))); try lia; done. }
  rewrite H, ld8_zero. destruct (decide _), (decide _); done || lia.
Qed.

Lemma ld64_zero_in m p n a : p <= a -> a + 8 <= p + n -> ld64 (zero m p n) a = 0.
Proof.
  intros H1 H2. apply (ld_le_digits 8); [done|]. intros i Hi.
  rewrite ld8_zero, decide_True by lia. by rewrite Z.div_0_l by (apply Z.pow_nonzero; lia).
Qed.

Lemma ld64_zero_out m p n a :
  a + 8 <= p \/ p + n <= a -> ld64 (zero m p n) a = ld64 m a.
Proof.
  intros H. apply ld64_ext. intros b Hb. rewrite ld8_zero. by rewrite decide_False by lia.
Qed.

Lemma ld8_st_bytes m a l b :
  Forall (fun x => 0 <= x < 256) l ->
  ld8 (st_bytes m a l) b =
  if decide (a <= b < a + Z.of_nat (length l)) then aget l (b - a) else ld8 m b.
Proof.
  revert m a. induction l as [|x l IH]; intros m a HF; cbn [st_bytes].
  { destruct (decide _) as [H|]; [simpl in H; lia|done]. }
  apply Forall_cons in HF as [Hx HF]. rewrite IH, ld8_st8 by done. cbn [length].
  destruct (decide (a + 1 <= b < a + 1 + Z.of_nat (length l))) as [H1|H1].
  - rewrite decide_True by lia. unfold aget.
    replace (Z.to_nat (b - a)) with (S (Z.to_nat (b - (a + 1)))) by lia. done.
  - destruct (decide (a = b)) as [->|Hne].
    + rewrite decide_True by lia. unfold aget. rewrite Z.sub_diag. by apply u8_small.
    + by rewrite decide_False by lia.
Qed.

Lemma ld8_st_bytes_out m a l b :
  ~ (a <= b < a + Z.of_nat (length l)) -> ld8 (st_bytes m a l) b = ld8 m b.
Proof.
  revert m a. induction l as [|x l IH]; intros m a H; cbn [st_bytes length] in *; [done|].
  rewrite IH by lia. rewrite ld8_st8, decide_False by lia. done.
Qed.

Lemma ld8_copy_bytes m dst src n b :
  dst <= src \/ src + n <= dst ->
  ld8 (copy_bytes m dst src n) b =
  if decide (dst <= b < dst + n) then ld8 m (src + (b - dst)) else ld8 m b.
Proof.
  intros Hd.
  assert (Hgen : forall k, (k <= Z.to_nat n)%nat -> forall b,
    ld8 (foldl (fun m i => st8 m (dst + i) (ld8 m (src + i))) m (zrange k)) b =
    if decide (dst <= b < dst + Z.of_nat k) then ld8 m (src + (b - dst)) else ld8 m b).
  { induction k as [|k IH]; intros Hk c.
    { destruct (decide _); [lia|done]. }
    rewrite zrange_S, foldl_app. cbn [foldl]. rewrite ld8_st8, !IH by lia.
    destruct (decide (dst + Z.of_nat k = c)) as [<-|Hne].
    - rewrite (decide_True (P := dst <= dst + Z.of_nat k < dst + Z.of_nat (S k))) by lia.
      rewrite decide_False by lia. rewrite u8_small by apply ld8_range. f_equal. lia.
    - destruct (decide (dst <= c < dst + Z.of_nat k)), (decide (dst <= c < dst + Z.of_nat (S k)));
        try lia; done. }
  unfold copy_bytes. rewrite Hgen by lia. destruct (decide _), (decide _); done || lia.
Qed.

(** [copy] is the byte loop in every case. *)
Lemma copy_loop m dst src n b : ld8 (copy m dst src n) b = ld8 (copy_bytes m dst src n) b.
Proof.
  unfold copy. destruct (Z.ltb_spec src dst), (Z.ltb_spec dst (src + n)); simpl; try done;
    (rewrite ld8_copy_bytes by lia; unfold ld8;
     destruct (Z.leb_spec dst b), (Z.ltb_spec b (dst + n)); simpl; destruct (decide _); done || lia).
Qed.

Lemma ld8_copy m dst src n b :
  dst + n <= src \/ src + n <= dst -> 0 <= n ->
  ld8 (copy m dst src n) b =
  if decide (dst <= b < dst + n) then ld8 m (src + (b - dst)) else ld8 m b.
Proof. intros Hd Hn. rewrite copy_loop. apply ld8_copy_bytes. lia. Qed.

Lemma length_ld_bytes m a n : length (ld_bytes m a n) = n.
Proof. unfold ld_bytes. by rewrite length_fmap, length_zrange. Qed.

Lemma ld_bytes_range m a n : Forall (fun x => 0 <= x < 256) (ld_bytes m a n).
Proof.
  apply Forall_forall. intros x (i & -> & _)%list_elem_of_fmap. apply ld8_range.
Qed.

Lemma ld_bytes_ext m m' a n :
  (forall b, a <= b < a + Z.of_nat n -> ld8 m b = ld8 m' b) -> ld_bytes m a n = ld_bytes m' a n.
Proof.
  intros H. unfold ld_bytes. apply list_fmap_ext. intros k i Hi.
  apply list_elem_of_lookup_2, elem_of_zrange in Hi. apply H. lia.
Qed.

Lemma aget_ld_bytes m a n i : 0 <= i < Z.of_nat n -> aget (ld_bytes m a n) i = ld8 m (a + i).
Proof.
  intros Hi. unfold ld_bytes. rewrite aget_fmap by (rewrite length_zrange; lia).
  unfold aget. rewrite (list_lookup_total_correct _ _ (Z.of_nat (Z.to_nat i))).
  - do 2 f_equal. lia.
  - rewrite lookup_zrange by lia. done.
Qed.

#[global] Arguments ld8 : simpl never.
#[global] Arguments st8 : simpl never.
#[global] Arguments ld64 : simpl never.
#[global] Arguments st64 : simpl never.
#[global] Arguments zero : simpl never.
#[global] Arguments copy : simpl never.
End Phys.
