(* ===== verification/Vm.v ===== *)
(** Per-task page tables (src/src/kernel/mm/vm.c): four-level tables held in
    physical memory, built over the page allocator. *)
From S2P Require Import Prelude Memory Phys.

Module Vm.
Import Phys.

(** ** Constants (mm/vm.h) *)
Definition PTE_PRESENT : Z := 0x1.
Definition PTE_WRITE : Z := 0x2.
Definition PTE_USER : Z := 0x4.
Definition PTE_PCD : Z := 0x10.
Definition PTE_HUGE : Z := 0x80.
Definition PTE_NX : Z := 2 ^ 63.
Definition PTE_ADDR_MSK : Z := 0x000FFFFFFFFFF000.
Definition VM_READ : Z := 0x1.
Definition VM_WRITE : Z := 0x2.
Definition VM_EXEC : Z := 0x4.
Definition VM_USER : Z := 0x8.
Definition PAGE_SIZE : Z := Mm.PAGE_SIZE.

(** The machine state the functions below work on: physical memory, the page
    allocator, the CR3 register and signal.c's restorer page (0 for NULL). *)
Record vmst := VmSt { pmem : mem; pmm : Mm.mm; cr3 : Z; sig_stub_page : Z }.
#[export] Instance eta_vmst : Eta vmst := fun s =>
  VmSt (pmem s) (pmm s) (cr3 s) (sig_stub_page s).

(** [e & FLAG] for a single-bit flag. *)
Definition present (e : Z) : bool := Z.testbit e 0.
Definition writable (e : Z) : bool := Z.testbit e 1.
Definition user (e : Z) : bool := Z.testbit e 2.
Definition huge (e : Z) : bool := Z.testbit e 7.
Definition nx (e : Z) : bool := Z.testbit e 63.

Definition P_ADDR (e : Z) : Z := Z.land e PTE_ADDR_MSK.
Definition IDX4 (v : Z) : Z := Z.land (Z.shiftr v 39) 0x1FF.
Definition IDX3 (v : Z) : Z := Z.land (Z.shiftr v 30) 0x1FF.
Definition IDX2 (v : Z) : Z := Z.land (Z.shiftr v 21) 0x1FF.
Definition IDX1 (v : Z) : Z := Z.land (Z.shiftr v 12) 0x1FF.

Definition pte_flags (flags : Z) : Z :=
  let p := PTE_PRESENT in
  let p := if negb (Z.land flags VM_WRITE =? 0) then Z.lor p PTE_WRITE else p in
  let p := if negb (Z.land flags VM_USER =? 0) then Z.lor p PTE_USER else p in
  if Z.land flags VM_EXEC =? 0 then Z.lor p PTE_NX else p.

(** The word at index [i] of the table at [t]. *)
Definition slot (t i : Z) : Z := t + 8 * i.
Definition entry (s : vmst) (t i : Z) : Z := ld64 (pmem s) (slot t i).
Definition set_word (a v : Z) (s : vmst) : vmst := s <| pmem := st64 (pmem s) a v |>.

(** The context structure: its two words. *)
Definition pml4_phys (s : vmst) (ctx : Z) : Z := ld64 (pmem s) ctx.
Definition brk (s : vmst) (ctx : Z) : Z := ld64 (pmem s) (ctx + 8).

(** [pmalloc] tests its candidates against the page table in force. *)
Definition pmalloc (s : vmst) : vmst * option Z :=
  let '(m, r) := Mm.pmalloc (Mm.paddr_linear_ok (ld64 (pmem s)) (cr3 s)) (pmm s) in
  (s <| pmm := m |>, r).

Definition vm_zero (p n : Z) (s : vmst) : vmst := s <| pmem := zero (pmem s) p n |>.

Definition alloc_table (s : vmst) : vmst * option Z :=
  let '(s1, r) := pmalloc s in
  match r with
  | None => (s1, None)
  | Some p => (vm_zero p PAGE_SIZE s1, Some p)
  end.

Definition vm_alloc_page (s : vmst) : vmst * option Z :=
  let '(s1, r) := pmalloc s in
  match r with
  | None => (s1, None)
  | Some p => (vm_zero p PAGE_SIZE s1, Some p)
  end.

Definition vm_copy (dst src n : Z) (s : vmst) : vmst :=
  s <| pmem := copy (pmem s) dst src n |>.

(** ** vm_translate *)
Definition vm_translate (s : vmst) (ctx vaddr : Z) : Z :=
  let e4 := entry s (pml4_phys s ctx) (IDX4 vaddr) in
  if negb (present e4) then 0 else
  let e3 := entry s (P_ADDR e4) (IDX3 vaddr) in
  if negb (present e3) then 0 else
  if huge e3 then u64 (P_ADDR e3 + Z.land vaddr 0x3FFFFFFF) else
  let e2 := entry s (P_ADDR e3) (IDX2 vaddr) in
  if negb (present e2) then 0 else
  if huge e2 then u64 (P_ADDR e2 + Z.land vaddr 0x1FFFFF) else
  let e1 := entry s (P_ADDR e2) (IDX1 vaddr) in
  if negb (present e1) then 0 else
  u64 (P_ADDR e1 + Z.land vaddr 0xFFF).

(** ** vm_map_page *)

(** Level 4: allocate the missing PDPT, or add U/S to the entry. *)
Definition ensure_pdpt (sl : Z) (s : vmst) : vmst * bool :=
  let e := ld64 (pmem s) sl in
  if negb (present e) then
    match alloc_table s with
    | (s1, None) => (s1, false)
    | (s1, Some t) => (set_word sl (Z.lor t (PTE_PRESENT + PTE_WRITE + PTE_USER)) s1, true)
    end
  else (set_word sl (Z.lor e PTE_USER) s, true).

(** Fill a fresh table with the 512 pieces of the huge page at [base]. *)
Definition split_fill (t base shift extra : Z) (s : vmst) : vmst :=
  foldl (fun s j =>
    set_word (slot t j) (Z.lor (u64 (base + Z.shiftl j shift)) (PTE_PRESENT + PTE_WRITE + extra)) s)
    s (zrange 512).

(** Levels 3 and 2: split a huge page into pieces of [2^shift] bytes, allocate
    the missing table, or add U/S. *)
Definition ensure_table (shift extra sl : Z) (s : vmst) : vmst * bool :=
  let e := ld64 (pmem s) sl in
  if huge e then
    match alloc_table s with
    | (s1, None) => (s1, false)
    | (s1, Some t) =>
        let base := P_ADDR (ld64 (pmem s1) sl) in
        let s2 := split_fill t base shift extra s1 in
        (set_word sl (Z.lor t (PTE_PRESENT + PTE_WRITE + PTE_USER)) s2, true)
    end
  else if negb (present e) then
    match alloc_table s with
    | (s1, None) => (s1, false)
    | (s1, Some t) => (set_word sl (Z.lor t (PTE_PRESENT + PTE_WRITE + PTE_USER)) s1, true)
    end
  else (set_word sl (Z.lor e PTE_USER) s, true).

Definition vm_map_page (ctx vaddr phys flags : Z) (s : vmst) : vmst * Z :=
  if ctx =? 0 then (s, -1) else
  if negb (Z.land vaddr 0xFFF =? 0) then (s, -1) else
  let sl4 := slot (pml4_phys s ctx) (IDX4 vaddr) in
  let '(s1, ok) := ensure_pdpt sl4 s in
  if negb ok then (s1, -1) else
  let sl3 := slot (P_ADDR (ld64 (pmem s1) sl4)) (IDX3 vaddr) in
  let '(s2, ok) := ensure_table 21 PTE_HUGE sl3 s1 in
  if negb ok then (s2, -1) else
  let sl2 := slot (P_ADDR (ld64 (pmem s2) sl3)) (IDX2 vaddr) in
  let '(s3, ok) := ensure_table 12 0 sl2 s2 in
  if negb ok then (s3, -1) else
  let sl1 := slot (P_ADDR (ld64 (pmem s3) sl2)) (IDX1 vaddr) in
  (set_word sl1 (Z.lor (Z.land phys PTE_ADDR_MSK) (pte_flags flags)) s3, 0).

(** ** vm_create, vm_destroy, vm_switch *)
Definition SIG_STUB_ADDR : Z := 0x600000000000.

(** Returns 0 for NULL. *)
Definition vm_create (s : vmst) : vmst * Z :=
  match alloc_table s with
  | (s, None) => (s, 0)
  | (s, Some pml4) =>
    match alloc_table s with
    | (s, None) => (s, 0)
    | (s, Some pdpt0) =>
      let s := set_word (slot pml4 0) (Z.lor pdpt0 (PTE_PRESENT + PTE_WRITE)) s in
      let s := set_word (slot pdpt0 0) (0x00000000 + PTE_PRESENT + PTE_WRITE + PTE_HUGE) s in
      let s := set_word (slot pdpt0 1) (0x40000000 + PTE_PRESENT + PTE_WRITE + PTE_HUGE) s in
      let s := set_word (slot pdpt0 3)
                 (0xC0000000 + PTE_PRESENT + PTE_WRITE + PTE_HUGE + PTE_PCD) s in
      match pmalloc s with
      | (s, None) => (s, 0)
      | (s, Some ctx) =>
        let s := set_word ctx pml4 s in
        let s := set_word (ctx + 8) 0 s in
        if negb (sig_stub_page s =? 0) then
          let '(s, _) := vm_map_page ctx SIG_STUB_ADDR (sig_stub_page s)
                           (VM_USER + VM_READ + VM_WRITE + VM_EXEC) s in
          (s, ctx)
        else (s, ctx)
      end
    end
  end.

Definition vm_destroy (ctx : Z) (s : vmst) : vmst := s.

Definition vm_switch (ctx : Z) (s : vmst) : vmst :=
  if ctx =? 0 then s else s <| cr3 := pml4_phys s ctx |>.

Definition vm_current_cr3 (s : vmst) : Z := cr3 s.

(** ** Copies between the kernel and a user address space *)

(** The chunk of at most [n] bytes at [va] that stays in one page. *)
Definition chunk (va n : Z) : Z := Z.min (PAGE_SIZE - Z.land va 0xFFF) n.

(** A chunk has at least one byte, so [fuel] at least the length is enough. *)
Fixpoint copy_to_loop (fuel : nat) (ctx va : Z) (src : list Z) (s : vmst) : vmst * Z :=
  match fuel, src with
  | _, [] => (s, 0)
  | O, _ => (s, -1)
  | S f, _ =>
      let va := u64 va in
      let phys := vm_translate s ctx va in
      if phys =? 0 then (s, -1)
      else
        let n := Z.to_nat (chunk va (Z.of_nat (length src))) in
        copy_to_loop f ctx (va + Z.of_nat n) (drop n src)
          (s <| pmem := st_bytes (pmem s) phys (take n src) |>)
  end.

Definition vm_copy_to_user (ctx vaddr : Z) (src : list Z) (s : vmst) : vmst * Z :=
  if ctx =? 0 then (s, -1) else copy_to_loop (length src) ctx vaddr src s.

(** The bytes read, or [None] for -1 (what was read before it is dropped). *)
Fixpoint copy_from_loop (fuel : nat) (ctx va len : Z) (s : vmst) : option (list Z) :=
  if len <=? 0 then Some [] else
  match fuel with
  | O => None
  | S f =>
      let va := u64 va in
      let phys := vm_translate s ctx va in
      if phys =? 0 then None
      else
        let n := chunk va len in
        l ← copy_from_loop f ctx (va + n) (len - n) s;
        Some (ld_bytes (pmem s) phys (Z.to_nat n) ++ l)
  end.

Definition vm_copy_from_user (ctx vaddr len : Z) (s : vmst) : option (list Z) :=
  if ctx =? 0 then None else copy_from_loop (Z.to_nat len) ctx vaddr len s.

(** ** vm_map, vm_range_present, vm_unmap *)
Fixpoint vm_map_loop (n : nat) (ctx a flags : Z) (s : vmst) : vmst * Z :=
  match n with
  | O => (s, 0)
  | S n' =>
      match vm_alloc_page s with
      | (s1, None) => (s1, -1)
      | (s1, Some page) =>
          let '(s2, r) := vm_map_page ctx a page flags s1 in
          if r <? 0 then (s2, -1) else vm_map_loop n' ctx (a + PAGE_SIZE) flags s2
      end
  end.

(** [x & ~0xFFF] *)
Definition page_down (x : Z) : Z := Z.land x (Z.lnot 0xFFF).

Definition vm_map (ctx vaddr size flags : Z) (s : vmst) : vmst * Z :=
  if ctx =? 0 then (s, -1) else
  if size =? 0 then (s, 0) else
  let start := page_down vaddr in
  let en := page_down (u64 (vaddr + size + 0xFFF)) in
  vm_map_loop (Z.to_nat ((en - start) / PAGE_SIZE)) ctx start flags s.

Definition vm_range_present (ctx vaddr npages : Z) (s : vmst) : bool :=
  if ctx =? 0 then true
  else existsb (fun i => negb (vm_translate s ctx (u64 (vaddr + u64 (i * PAGE_SIZE))) =? 0))
         (zrange (Z.to_nat npages)).

(** One page of [vm_unmap]; [None] when [pfree] leaves its bitmap. *)
Definition unmap_page (ctx a : Z) (s : vmst) : option vmst :=
  let e4 := entry s (pml4_phys s ctx) (IDX4 a) in
  if negb (present e4) then Some s else
  let e3 := entry s (P_ADDR e4) (IDX3 a) in
  if negb (present e3) || huge e3 then Some s else
  let e2 := entry s (P_ADDR e3) (IDX2 a) in
  if negb (present e2) || huge e2 then Some s else
  let e1 := entry s (P_ADDR e2) (IDX1 a) in
  if negb (present e1) then Some s else
  if negb (user e1) || huge e1 then Some s else
  m ← Mm.pfree (P_ADDR e1) (pmm s);
  Some (set_word (slot (P_ADDR e2) (IDX1 a)) 0 (s <| pmm := m |>)).

Fixpoint vm_unmap_loop (n : nat) (ctx a : Z) (s : vmst) : option vmst :=
  match n with
  | O => Some s
  | S n' => s1 ← unmap_page ctx a s; vm_unmap_loop n' ctx (a + PAGE_SIZE) s1
  end.

(** [None] also when the end lies in the last page of the 64-bit space: the
    loop variable then wraps to 0 and the loop never ends. *)
Definition vm_unmap (ctx vaddr len : Z) (s : vmst) : option (vmst * Z) :=
  if ctx =? 0 then Some (s, -1) else
  if negb (Z.land vaddr 0xFFF =? 0) then Some (s, -1) else
  let en := u64 (vaddr + len) in
  if (vaddr <? en) && (2 ^ 64 - PAGE_SIZE <? en) then None else
  s1 ← vm_unmap_loop (Z.to_nat ((en - vaddr + (PAGE_SIZE - 1)) / PAGE_SIZE)) ctx vaddr s;
  Some (s1, 0).

(** ** vm_fork *)
Definition vm_flags_from_pte (pte : Z) : Z :=
  let f := Z.lor VM_USER VM_READ in
  let f := if writable pte then Z.lor f VM_WRITE else f in
  if negb (nx pte) then Z.lor f VM_EXEC else f.

(** A [for] loop whose body may return from the function. *)
Fixpoint for_each (l : list Z) (body : Z -> vmst -> vmst * bool) (s : vmst) : vmst * bool :=
  match l with
  | [] => (s, true)
  | i :: l' => let '(s1, ok) := body i s in if ok : bool then for_each l' body s1 else (s1, false)
  end.

Definition fork_vaddr (i4 i3 i2 i1 : Z) : Z :=
  Z.lor (Z.lor (Z.lor (Z.shiftl i4 39) (Z.shiftl i3 30)) (Z.shiftl i2 21)) (Z.shiftl i1 12).

Definition fork_page (child ppt i4 i3 i2 i1 : Z) (s : vmst) : vmst * bool :=
  let e1 := entry s ppt i1 in
  if negb (present e1) then (s, true) else
  if negb (user e1) then (s, true) else
  match vm_alloc_page s with
  | (s1, None) => (s1, false)
  | (s1, Some np) =>
      let s2 := vm_copy np (P_ADDR e1) PAGE_SIZE s1 in
      let '(s3, r) := vm_map_page child (fork_vaddr i4 i3 i2 i1) np (vm_flags_from_pte e1) s2 in
      (s3, negb (r <? 0))
  end.

Definition fork_pt (child ppd i4 i3 i2 : Z) (s : vmst) : vmst * bool :=
  let e2 := entry s ppd i2 in
  if negb (present e2) || huge e2 then (s, true)
  else for_each (zrange 512) (fork_page child (P_ADDR e2) i4 i3 i2) s.

Definition fork_pd (child ppdpt i4 i3 : Z) (s : vmst) : vmst * bool :=
  let e3 := entry s ppdpt i3 in
  if negb (present e3) || huge e3 then (s, true)
  else for_each (zrange 512) (fork_pt child (P_ADDR e3) i4 i3) s.

Definition fork_pdpt (child pp4 i4 : Z) (s : vmst) : vmst * bool :=
  let e4 := entry s pp4 i4 in
  if negb (present e4) || huge e4 then (s, true)
  else for_each (zrange 512) (fork_pd child (P_ADDR e4) i4) s.

(** Returns 0 for NULL. *)
Definition vm_fork (parent : Z) (s : vmst) : vmst * Z :=
  if parent =? 0 then (s, 0) else
  let '(s1, child) := vm_create s in
  if child =? 0 then (s1, 0) else
  let '(s2, ok) := for_each (zrange 512) (fork_pdpt child (pml4_phys s1 parent)) s1 in
  if negb ok then (s2, 0)
  else (set_word (child + 8) (brk s2 parent) s2, child).

(** * Lemmas *)

(** ** Bits *)
Lemma land_ones_mod v k n : 0 <= k -> 0 <= n -> Z.land (Z.shiftr v k) (Z.ones n) = (v / 2 ^ k) mod 2 ^ n.
Proof. intros. rewrite Z.land_ones, Z.shiftr_div_pow2 by done. done. Qed.

Lemma P_ADDR_eq e : P_ADDR e = ((e / 4096) mod 2 ^ 40) * 4096.
Proof.
  unfold P_ADDR, PTE_ADDR_MSK. change 4503599627366400 with (Z.shiftl (Z.ones 40) 12).
  assert (E : (e / 4096) mod 2 ^ 40 = Z.land (Z.shiftr e 12) (Z.ones 40))
    by (rewrite land_ones_mod by lia; done).
  rewrite E. change 4096 with (2 ^ 12). rewrite <- Z.shiftl_mul_pow2 by lia.
  rewrite Z.shiftl_land. apply Z.bits_inj'. intros i Hi. rewrite !Z.land_spec.
  destruct (Z_lt_le_dec i 12).
  - by rewrite !(Z.shiftl_spec_low _ 12 i), !andb_false_r by done.
  - rewrite !Z.shiftl_spec, Z.shiftr_spec by lia. do 2 f_equal. lia.
Qed.

(** A page frame address. *)
Definition aligned (t : Z) : Prop := t mod 4096 = 0 /\ 0 <= t < 2 ^ 52.

Lemma P_ADDR_aligned e : aligned (P_ADDR e).
Proof.
  rewrite P_ADDR_eq. pose proof (Z.mod_pos_bound (e / 4096) (2 ^ 40) ltac:(lia)).
  split; [apply Z_mod_mult|lia].
Qed.

Lemma P_ADDR_id t : aligned t -> P_ADDR t = t.
Proof.
  intros [H1 H2]. rewrite P_ADDR_eq. pose proof (Z_div_mod_eq_full t 4096).
  rewrite Z.mod_small; [lia|]. split; [apply Z.div_pos; lia|apply Z.div_lt_upper_bound; lia].
Qed.

Lemma aligned_bits t i : aligned t -> 0 <= i < 12 \/ 52 <= i -> Z.testbit t i = false.
Proof.
  intros [H1 H2] Hi. destruct Hi as [Hi|Hi]; [|by apply (testbit_high t 52)].
  apply Z.mod_divide in H1 as [k ->]; [|lia].
  change 4096 with (2 ^ 12). apply Z.mul_pow2_bits_low. lia.
Qed.

(** A leaf or table entry: a frame and flag bits outside the address mask. *)
Definition flags_ok (f : Z) : Prop := 0 <= f < 2 ^ 64 /\ Z.land f PTE_ADDR_MSK = 0.

Lemma P_ADDR_lor t f : aligned t -> flags_ok f -> P_ADDR (Z.lor t f) = t.
Proof.
  intros Ht [_ Hf]. unfold P_ADDR. rewrite Z.land_lor_distr_l, Hf, Z.lor_0_r. by apply P_ADDR_id.
Qed.

Lemma P_ADDR_lor_r e f : flags_ok f -> P_ADDR (Z.lor e f) = P_ADDR e.
Proof. intros [_ Hf]. unfold P_ADDR. by rewrite Z.land_lor_distr_l, Hf, Z.lor_0_r. Qed.

Lemma lor_bit t f i : aligned t -> 0 <= i < 12 \/ 52 <= i -> Z.testbit (Z.lor t f) i = Z.testbit f i.
Proof. intros Ht Hi. rewrite Z.lor_spec, aligned_bits by done. done. Qed.

Lemma lor_range a b n : 0 <= n -> 0 <= a < 2 ^ n -> 0 <= b < 2 ^ n -> 0 <= Z.lor a b < 2 ^ n.
Proof.
  intros Hn Ha Hb. assert (0 <= Z.lor a b) by (apply Z.lor_nonneg; lia). split; [done|].
  apply testbit_range; [done..|]. intros i Hi.
  by rewrite Z.lor_spec, !(testbit_high _ n) by done.
Qed.

Lemma entry_range t f : aligned t -> flags_ok f -> 0 <= Z.lor t f < 2 ^ 64.
Proof. intros [_ Ht] [Hf _]. apply lor_range; lia. Qed.

Lemma flags_ok_low f : 0 <= f < 4096 -> flags_ok f.
Proof.
  intros Hf. split; [lia|]. change (P_ADDR f = 0). rewrite P_ADDR_eq, Z.div_small by lia. done.
Qed.

(** The index of [va] at level [l] and the bytes an entry there spans. *)
Definition shift (l : nat) : Z := 12 + 9 * (Z.of_nat l - 1).
Definition idx (l : nat) (va : Z) : Z := (va / 2 ^ shift l) mod 512.

Lemma idx_range l va : 0 <= idx l va < 512.
Proof. apply Z.mod_pos_bound. lia. Qed.

Lemma IDX_eqs va :
  IDX4 va = idx 4 va /\ IDX3 va = idx 3 va /\ IDX2 va = idx 2 va /\ IDX1 va = idx 1 va.
Proof.
  unfold IDX4, IDX3, IDX2, IDX1, idx. change 0x1FF with (Z.ones 9). rewrite !land_ones_mod by lia. done.
Qed.

Lemma land_offsets va :
  Z.land va 0x3FFFFFFF = va mod 2 ^ shift 3 /\ Z.land va 0x1FFFFF = va mod 2 ^ shift 2 /\
  Z.land va 0xFFF = va mod 2 ^ shift 1.
Proof.
  change 0x3FFFFFFF with (Z.ones 30). change 0x1FFFFF with (Z.ones 21). change 0xFFF with (Z.ones 12).
  rewrite !Z.land_ones by lia. done.
Qed.

(** ** Translation by levels *)

(** The permissions a leaf grants: U/S, W, execute. *)
Definition perms (e : Z) : bool * bool * bool := (user e, writable e, negb (nx e)).

(** The entry at level [l] ends the walk: a 4 KB leaf, or a huge page. *)
Definition is_leaf (l : nat) (e : Z) : bool :=
  match l with
  | 1%nat => true
  | 2%nat | 3%nat => huge e
  | _ => false
  end.

(** Physical address and permissions of [va] below the level-[l] table [t]. *)
Fixpoint walk (s : vmst) (l : nat) (t va : Z) : option (Z * (bool * bool * bool)) :=
  match l with
  | O => None
  | S l' =>
      let e := entry s t (idx l va) in
      if negb (present e) then None
      else if is_leaf l e then Some (P_ADDR e + va mod 2 ^ shift l, perms e)
      else walk s l' (P_ADDR e) va
  end.

Definition lookup_va (s : vmst) (ctx va : Z) : option (Z * (bool * bool * bool)) :=
  walk s 4 (pml4_phys s ctx) va.

Lemma walk_S s l t va :
  walk s (S l) t va =
  let e := entry s t (idx (S l) va) in
  if negb (present e) then None
  else if is_leaf (S l) e then Some (P_ADDR e + va mod 2 ^ shift (S l), perms e)
  else walk s l (P_ADDR e) va.
Proof. done. Qed.

Lemma leaf_addr_u64 e va n : 0 <= n <= 30 -> u64 (P_ADDR e + va mod 2 ^ n) = P_ADDR e + va mod 2 ^ n.
Proof.
  intros Hn. apply u64_small. destruct (P_ADDR_aligned e) as [_ He].
  pose proof (Z.mod_pos_bound va (2 ^ n) ltac:(lia)).
  assert (2 ^ n <= 2 ^ 30) by (apply Z.pow_le_mono_r; lia). lia.
Qed.

(** [vm_translate] is the address of the walk, 0 when there is none. *)
Lemma vm_translate_walk s ctx va :
  vm_translate s ctx va = match lookup_va s ctx va with Some (pa, _) => pa | None => 0 end.
Proof.
  unfold vm_translate, lookup_va. destruct (IDX_eqs va) as (-> & -> & -> & ->).
  destruct (land_offsets va) as (-> & -> & ->). rewrite !leaf_addr_u64 by done.
  rewrite walk_S. cbv zeta. change (is_leaf 4 _) with false.
  destruct (present (entry s (pml4_phys s ctx) (idx 4 va))); cbn [negb]; [|done].
  rewrite walk_S. cbv zeta. cbn [is_leaf].
  destruct (present (entry s (P_ADDR _) (idx 3 va))); cbn [negb]; [|done].
  destruct (huge (entry s (P_ADDR _) (idx 3 va))); [done|].
  rewrite walk_S. cbv zeta. cbn [is_leaf].
  destruct (present (entry s (P_ADDR _) (idx 2 va))); cbn [negb]; [|done].
  destruct (huge (entry s (P_ADDR _) (idx 2 va))); [done|].
  rewrite walk_S. cbv zeta. cbn [is_leaf].
  by destruct (present (entry s (P_ADDR _) (idx 1 va))).
Qed.

(** ** The invariant

    [T] labels each page owned by the page tables: (context, level, prefix) for
    a table covering the virtual addresses with that prefix, level 5 for the
    page of the context structure itself. A label is a function of the page,
    so no page serves two places of a tree or two trees. *)
Abbreviation labels := (gmap Z (Z * nat * Z)).

Definition page_of (i : Z) : Z := Mm.HEAP_BASE + i * PAGE_SIZE.

(** A page of the hot zone taken from the allocator. *)
Definition taken (s : vmst) (t : Z) : Prop :=
  exists i, 0 <= i < Mm.HOT_ZONE_PAGES /\ t = page_of i /\ Mm.page_used (pmm s) i = true.

(** A frame the user may own: neither a table nor a free page. *)
Definition frame_ok (T : labels) (s : vmst) (f : Z) : Prop :=
  T !! f = None /\
  forall i, 0 <= i < Mm.HOT_ZONE_PAGES -> f = page_of i -> Mm.page_used (pmm s) i = true.

(** A huge page is aligned, supervisor, writable and executable. *)
Definition huge_ok (l : nat) (e : Z) : Prop :=
  present e = true /\ P_ADDR e mod 2 ^ shift l = 0 /\
  user e = false /\ writable e = true /\ nx e = false.

Definition entry_ok (T : labels) (s : vmst) (c : Z) (l : nat) (p i e : Z) : Prop :=
  match l with
  | 1%nat => present e = true -> user e = true -> frame_ok T s (P_ADDR e)
  | S l' => if is_leaf l e then huge_ok l e
            else huge e = false /\ (present e = true -> T !! P_ADDR e = Some (c, l', p * 512 + i))
  | O => True
  end.

Record vm_ok (T : labels) (s : vmst) : Prop := {
  vo_mm : Mm.mm_ok (pmm s);
  vo_taken : forall t lab, T !! t = Some lab -> taken s t;
  vo_level : forall t c l p, T !! t = Some (c, l, p) -> (1 <= l <= 5)%nat;
  vo_ctx : forall c, T !! c = Some (c, 5%nat, 0) -> T !! pml4_phys s c = Some (c, 4%nat, 0);
  vo_entry : forall t c l p i, T !! t = Some (c, l, p) -> (1 <= l <= 4)%nat -> 0 <= i < 512 ->
    entry_ok T s c l p i (entry s t i);
  vo_owner : forall t c l p, T !! t = Some (c, l, p) -> T !! c = Some (c, 5%nat, 0)
}.

Definition is_ctx (T : labels) (c : Z) : Prop := T !! c = Some (c, 5%nat, 0).

Lemma taken_aligned s t : taken s t -> aligned t /\ Mm.HEAP_BASE <= t < 2 ^ 31.
Proof.
  intros (i & Hi & -> & _). unfold aligned, page_of, PAGE_SIZE.
  assert (Mm.HOT_ZONE_PAGES = 262144) as E by reflexivity. rewrite E in Hi.
  change Mm.HEAP_BASE with (2048 * 4096). change Mm.PAGE_SIZE with 4096.
  split; [|lia]. split; [|lia]. rewrite <- Z.mul_add_distr_r. apply Z_mod_mult.
Qed.

Lemma label_aligned T s t lab : vm_ok T s -> T !! t = Some lab -> aligned t.
Proof. intros Hs Ht. by destruct (taken_aligned s t (vo_taken _ _ Hs _ _ Ht)). Qed.

Lemma label_pos T s t lab : vm_ok T s -> T !! t = Some lab -> 0 < t.
Proof.
  intros Hs Ht. destruct (taken_aligned s t (vo_taken _ _ Hs _ _ Ht)) as [_ H].
  change Mm.HEAP_BASE with 8388608 in H. lia.
Qed.

(** ** Writing one entry *)
Lemma slot_inj t i t' i' :
  aligned t -> aligned t' -> 0 <= i < 512 -> 0 <= i' < 512 -> slot t i = slot t' i' -> t = t' /\ i = i'.
Proof.
  unfold slot. intros [Ht _] [Ht' _] Hi Hi' E.
  pose proof (Z_div_mod_eq_full t 4096). pose proof (Z_div_mod_eq_full t' 4096). lia.
Qed.

Lemma slot_mod8 t i : aligned t -> slot t i mod 8 = 0.
Proof.
  intros [Ht _]. unfold slot. apply Z.mod_divide in Ht as [k ->]; [|lia].
  replace (k * 4096 + 8 * i) with ((k * 512 + i) * 8) by lia. apply Z_mod_mult.
Qed.

Lemma entry_set s t i t' i' v :
  aligned t -> aligned t' -> 0 <= i < 512 -> 0 <= i' < 512 -> 0 <= v < 2 ^ 64 ->
  entry (set_word (slot t i) v s) t' i' =
  if decide (t = t' /\ i = i') then v else entry s t' i'.
Proof.
  intros Ht Ht' Hi Hi' Hv. unfold entry, set_word. cbn [pmem].
  change (pmem (s <| pmem := _ |>)) with (st64 (pmem s) (slot t i) v).
  rewrite ld64_st64_aligned by (done || by apply slot_mod8).
  destruct (decide (slot t i = slot t' i')) as [E|E].
  - rewrite decide_True; [done|]. by apply slot_inj.
  - rewrite decide_False; [done|]. intros [-> ->]. done.
Qed.

#[local] Opaque Mm.HOT_ZONE_PAGES Mm.HEAP_BASE Mm.page_used zero.

(** ** Steps that leave the tables alone *)
Definition keeps (T : labels) (s s' : vmst) : Prop :=
  forall t lab i, T !! t = Some lab -> 0 <= i < 512 -> entry s' t i = entry s t i.

Lemma keeps_refl T s : keeps T s s.
Proof. by intros ?. Qed.

Lemma keeps_trans T s1 s2 s3 : keeps T s1 s2 -> keeps T s2 s3 -> keeps T s1 s3.
Proof. intros H1 H2 t lab i Ht Hi. by rewrite (H2 t lab), (H1 t lab). Qed.

Lemma pml4_entry s c : pml4_phys s c = entry s c 0.
Proof. unfold pml4_phys, entry, slot. f_equal. lia. Qed.

Lemma taken_extends s s' t : Mm.extends (pmm s) (pmm s') -> taken s t -> taken s' t.
Proof. intros [H _] (i & Hi & -> & Hu). exists i. auto. Qed.

Lemma frame_ok_extends T s s' f : Mm.extends (pmm s) (pmm s') -> frame_ok T s f -> frame_ok T s' f.
Proof. intros [H _] [HT Hf]. split; [done|]. intros i Hi E. auto. Qed.

Lemma entry_ok_extends T s s' c l p i e :
  Mm.extends (pmm s) (pmm s') -> entry_ok T s c l p i e -> entry_ok T s' c l p i e.
Proof.
  intros Hex. destruct l as [|[|l]]; [done| |done]. intros H Hp Hu.
  apply (frame_ok_extends _ _ _ _ Hex). by apply H.
Qed.

Lemma vm_ok_keeps T s s' :
  vm_ok T s -> Mm.mm_ok (pmm s') -> Mm.extends (pmm s) (pmm s') -> keeps T s s' -> vm_ok T s'.
Proof.
  intros Hs Hmm Hex Hk. split; [done| | | | |].
  - intros t lab Ht. apply (taken_extends s); [done|]. by apply (vo_taken T s Hs t lab).
  - apply (vo_level T s Hs).
  - intros c Hc. rewrite pml4_entry, (Hk c _ 0 Hc) by lia. rewrite <- pml4_entry. by apply (vo_ctx T s Hs).
  - intros t c l p i Ht Hl Hi. rewrite (Hk t _ i Ht Hi). apply (entry_ok_extends _ _ _ _ _ _ _ _ Hex).
    by apply (vo_entry T s Hs t).
  - apply (vo_owner T s Hs).
Qed.

Lemma entry_ext s s' t i :
  (forall b, slot t i <= b < slot t i + 8 -> ld8 (pmem s') b = ld8 (pmem s) b) ->
  entry s' t i = entry s t i.
Proof. intros H. by apply ld64_ext. Qed.

(** Two frames are the same or do not overlap. *)
Lemma aligned_disjoint t t' : aligned t -> aligned t' -> t <> t' -> t + 4096 <= t' \/ t' + 4096 <= t.
Proof.
  intros [H1 _] [H2 _] Hne.
  pose proof (Z_div_mod_eq_full t 4096). pose proof (Z_div_mod_eq_full t' 4096). lia.
Qed.

(** Memory outside page [p] is unchanged. *)
Definition outside (p : Z) (s s' : vmst) : Prop :=
  forall b, ~ (p <= b < p + 4096) -> ld8 (pmem s') b = ld8 (pmem s) b.

Lemma outside_entry p s s' t i :
  outside p s s' -> aligned p -> aligned t -> t <> p -> 0 <= i < 512 -> entry s' t i = entry s t i.
Proof.
  intros Ho Hp Ht Hne Hi. apply entry_ext. intros b Hb. apply Ho. unfold slot in Hb.
  destruct (aligned_disjoint t p Ht Hp Hne); lia.
Qed.

Lemma outside_keeps T s0 p s s' :
  vm_ok T s0 -> outside p s s' -> aligned p -> T !! p = None -> keeps T s s'.
Proof.
  intros Hs Ho Hp HT t lab i Ht Hi. apply (outside_entry p); [done|done| | |done].
  - by eapply label_aligned.
  - intros ->. congruence.
Qed.

(** What a fresh page is. *)
Record fresh_page (T : labels) (s s1 : vmst) (p : Z) : Prop := {
  fp_label : T !! p = None;
  fp_taken : taken s1 p;
  fp_free : forall i, 0 <= i < Mm.HOT_ZONE_PAGES -> p = page_of i -> Mm.page_used (pmm s) i = false;
  fp_zero : forall b, p <= b < p + 4096 -> ld8 (pmem s1) b = 0;
  fp_outside : outside p s s1
}.

Lemma page_of_inj i j : page_of i = page_of j -> i = j.
Proof. unfold page_of, PAGE_SIZE. change Mm.PAGE_SIZE with 4096. lia. Qed.

(** A page handed out by the allocator, its bytes as they were. *)
Record raw_page (T : labels) (s s1 : vmst) (p : Z) : Prop := {
  rp_label : T !! p = None;
  rp_taken : taken s1 p;
  rp_free : forall i, 0 <= i < Mm.HOT_ZONE_PAGES -> p = page_of i -> Mm.page_used (pmm s) i = false
}.

Lemma pmalloc_spec T s s1 r :
  vm_ok T s -> pmalloc s = (s1, r) ->
  vm_ok T s1 /\ pmem s1 = pmem s /\ Mm.extends (pmm s) (pmm s1) /\
  cr3 s1 = cr3 s /\ sig_stub_page s1 = sig_stub_page s /\
  match r with None => True | Some p => raw_page T s s1 p end.
Proof.
  intros Hs. unfold pmalloc. set (ok := Mm.paddr_linear_ok _ _). clearbody ok.
  pose proof (Mm.pmalloc_post ok (pmm s) (vo_mm _ _ Hs)) as (Hmm & Hex & Hr).
  destruct (Mm.pmalloc ok (pmm s)) as [m r'] eqn:E; cbn [fst snd] in *. intros [= <- <-].
  assert (Hk : keeps T s (s <| pmm := m |>)) by (by intros ?).
  refine (conj _ (conj eq_refl (conj Hex (conj eq_refl (conj eq_refl _))))).
  { exact (vm_ok_keeps T s (s <| pmm := m |>) Hs Hmm Hex Hk). }
  destruct r' as [p|]; [|exact I]. destruct (Hr p eq_refl) as (_ & i & Hi & Hp & Hf & Hu).
  assert (Hpi : p = page_of i) by exact Hp. split.
  - destruct (T !! p) as [lab|] eqn:El; [|done]. exfalso.
    destruct (vo_taken _ _ Hs _ _ El) as (j & Hj & Hpj & Huj).
    rewrite Hpi in Hpj. apply page_of_inj in Hpj. congruence.
  - exists i. exact (conj Hi (conj Hpi Hu)).
  - intros j Hj Hpj. rewrite Hpi in Hpj. apply page_of_inj in Hpj. subst j. exact Hf.
Qed.

Lemma alloc_table_spec T s s1 r :
  vm_ok T s -> alloc_table s = (s1, r) ->
  vm_ok T s1 /\ keeps T s s1 /\ Mm.extends (pmm s) (pmm s1) /\
  cr3 s1 = cr3 s /\ sig_stub_page s1 = sig_stub_page s /\
  match r with
  | None => pmem s1 = pmem s
  | Some p => fresh_page T s s1 p
  end.
Proof.
  intros Hs. unfold alloc_table. destruct (pmalloc s) as [s0 r0] eqn:E.
  destruct (pmalloc_spec T s s0 r0 Hs E) as (Hs0 & Hm & Hex & Hc & Hst & Hr).
  assert (Hk0 : keeps T s s0) by (intros t lab i _ _; unfold entry; by rewrite Hm).
  destruct r0 as [p|]; intros [= <- <-]; [|by split_and!].
  destruct Hr as [HT Htk Hfree]. destruct (taken_aligned _ _ Htk) as [Hal _].
  assert (Hz : forall b, ld8 (pmem (vm_zero p PAGE_SIZE s0)) b =
    if decide (p <= b < p + 4096) then 0 else ld8 (pmem s) b).
  { intros b. change (pmem (vm_zero p PAGE_SIZE s0)) with (zero (pmem s0) p 4096). by rewrite ld8_zero, Hm. }
  set (s1' := vm_zero p PAGE_SIZE s0) in *.
  assert (E1 : pmm s1' = pmm s0 /\ cr3 s1' = cr3 s0 /\ sig_stub_page s1' = sig_stub_page s0) by done.
  destruct E1 as (E1 & E2 & E3). clearbody s1'.
  assert (Ho : outside p s s1') by (intros b Hb; rewrite Hz; by rewrite decide_False by done).
  pose proof (outside_keeps T s p s s1' Hs Ho Hal HT) as Hk.
  rewrite <- E1 in Hex. assert (Hmm : Mm.mm_ok (pmm s1')) by (rewrite E1; exact (vo_mm _ _ Hs0)).
  refine (conj _ (conj Hk (conj Hex (conj (eq_trans E2 Hc) (conj (eq_trans E3 Hst) _))))).
  - exact (vm_ok_keeps T s s1' Hs Hmm Hex Hk).
  - split; [exact HT| |exact Hfree| |exact Ho].
    + unfold taken. rewrite E1. exact Htk.
    + intros b Hb. rewrite Hz. by rewrite decide_True by done.
Qed.

Lemma fresh_entry T s s1 p i : fresh_page T s s1 p -> 0 <= i < 512 -> entry s1 p i = 0.
Proof.
  intros Hf Hi. apply (ld_le_digits 8); [done|]. intros k Hk. unfold slot.
  rewrite (fp_zero _ _ _ _ Hf) by lia. by rewrite Z.div_0_l by (apply Z.pow_nonzero; lia).
Qed.

(** ** One entry of one table changes *)
Lemma child_label T s t c l p i :
  vm_ok T s -> T !! t = Some (c, S l, p) -> (S l <= 4)%nat -> 0 <= i < 512 ->
  present (entry s t i) = true -> is_leaf (S l) (entry s t i) = false ->
  T !! P_ADDR (entry s t i) = Some (c, l, p * 512 + i).
Proof.
  intros Hs Ht Hl Hi Hp Hlf. pose proof (vo_entry _ _ Hs t c (S l) p i Ht ltac:(lia) Hi) as He.
  destruct l as [|l]; [done|]. unfold entry_ok in He. rewrite Hlf in He. destruct He as [_ He]. by apply He.
Qed.

(** Every other entry of every table is as before. *)
Definition only_entry (T : labels) (t i : Z) (s s' : vmst) : Prop :=
  forall t' lab i', T !! t' = Some lab -> 0 <= i' < 512 -> ~ (t' = t /\ i' = i) ->
    entry s' t' i' = entry s t' i'.

Lemma walk_update T s s' t c l p i :
  vm_ok T s -> T !! t = Some (c, l, p) -> only_entry T t i s s' ->
  (forall va, idx l va = i -> walk s' l t va = walk s l t va) ->
  forall l' t' c' p' va, T !! t' = Some (c', l', p') -> (l' <= 4)%nat ->
    walk s' l' t' va = walk s l' t' va.
Proof.
  intros Hs Ht Ho Hloc. induction l' as [|l' IH]; intros t' c' p' va Ht' Hl'; [done|].
  destruct (decide (t' = t /\ idx (S l') va = i)) as [[-> Hi]|Hne].
  { rewrite Ht in Ht'. injection Ht' as -> -> ->. by apply Hloc. }
  rewrite !walk_S. cbv zeta. rewrite (Ho t' _ _ Ht' (idx_range _ _) Hne).
  destruct (present _) eqn:Ep; cbn [negb]; [|done].
  destruct (is_leaf _ _) eqn:El; [done|]. eapply IH; [|lia].
  apply (child_label T s t' c' l' p'); [done|done|lia|apply idx_range|done|done].
Qed.

(** Tables of lower levels do not see the change. *)
Lemma walk_lower T s s' t c l p i :
  vm_ok T s -> T !! t = Some (c, l, p) -> only_entry T t i s s' ->
  forall l' t' c' p' va, T !! t' = Some (c', l', p') -> (l' < l)%nat -> (l' <= 4)%nat ->
    walk s' l' t' va = walk s l' t' va.
Proof.
  intros Hs Ht Ho. induction l' as [|l' IH]; intros t' c' p' va Ht' Hlt Hl'; [done|].
  assert (Hne : t' <> t) by (intros ->; rewrite Ht in Ht'; injection Ht' as _ E _; lia).
  rewrite !walk_S. cbv zeta. rewrite (Ho t' _ _ Ht' (idx_range _ _)) by (intros [? _]; done).
  destruct (present _) eqn:Ep; cbn [negb]; [|done].
  destruct (is_leaf _ _) eqn:El; [done|]. eapply IH; [|lia|lia].
  apply (child_label T s t' c' l' p'); [done|done|lia|apply idx_range|done|done].
Qed.

(** A walk over unchanged tables. *)
Lemma walk_tables T s s' :
  vm_ok T s ->
  (forall t c l p i, T !! t = Some (c, l, p) -> (l <= 4)%nat -> 0 <= i < 512 -> entry s' t i = entry s t i) ->
  forall l t c p va, T !! t = Some (c, l, p) -> (l <= 4)%nat -> walk s' l t va = walk s l t va.
Proof.
  intros Hs Hk. induction l as [|l IH]; intros t c p va Ht Hl; [done|].
  rewrite !walk_S. cbv zeta. rewrite (Hk t _ _ _ _ Ht Hl (idx_range _ _)).
  destruct (present _) eqn:Ep; cbn [negb]; [|done].
  destruct (is_leaf _ _) eqn:El; [done|]. eapply IH; [|lia].
  apply (child_label T s t c l p); [done|done|lia|apply idx_range|done|done].
Qed.

Lemma walk_keeps T s s' :
  vm_ok T s -> keeps T s s' -> forall l t c p va, T !! t = Some (c, l, p) -> (l <= 4)%nat ->
  walk s' l t va = walk s l t va.
Proof. intros Hs Hk. apply (walk_tables T s s' Hs). intros t c l p i Ht _. by apply (Hk t _ i Ht). Qed.

(** ** Adding a table *)
Lemma frame_ok_insert T s t lab f : frame_ok T s f -> f <> t -> frame_ok (<[t := lab]> T) s f.
Proof. intros [H1 H2] Hne. split; [|done]. by rewrite lookup_insert_ne. Qed.

Lemma entry_ok_insert T s t lab c l p i e :
  T !! t = None -> entry_ok T s c l p i e ->
  (l = 1%nat -> present e = true -> user e = true -> P_ADDR e <> t) ->
  entry_ok (<[t := lab]> T) s c l p i e.
Proof.
  intros HT He Hne. destruct l as [|[|l]]; [done| |].
  - intros Hp Hu. apply frame_ok_insert; [by apply He|by apply Hne].
  - unfold entry_ok in *. destruct (is_leaf _ _); [done|]. destruct He as [Hh He]. split; [done|].
    intros Hp. specialize (He Hp). rewrite lookup_insert_ne; [done|]. intros ->. congruence.
Qed.

(** No user page maps frame [f]. *)
Definition no_user_frame (T : labels) (s : vmst) (f : Z) : Prop :=
  forall t c p i, T !! t = Some (c, 1%nat, p) -> 0 <= i < 512 ->
    present (entry s t i) = true -> user (entry s t i) = true -> P_ADDR (entry s t i) <> f.

Lemma raw_no_user T s s1 p :
  vm_ok T s -> raw_page T s s1 p -> keeps T s s1 -> no_user_frame T s1 p.
Proof.
  intros Hs [_ (k & Hk' & Hpk & _) Hfree] Hk t c q i Ht Hi Hp Hu E. rewrite (Hk t _ i Ht Hi) in Hp, Hu, E.
  destruct (vo_entry _ _ Hs t c 1%nat q i Ht ltac:(lia) Hi Hp Hu) as [_ Hused].
  rewrite E in Hused. pose proof (Hused k Hk' Hpk) as E1.
  pose proof (Hfree k Hk' Hpk) as E2. rewrite E1 in E2. discriminate E2.
Qed.

Lemma fresh_raw T s s1 p : fresh_page T s s1 p -> raw_page T s s1 p.
Proof. intros [H1 H2 H3 _ _]. by split. Qed.

Lemma fresh_no_user T s s1 p :
  vm_ok T s -> fresh_page T s s1 p -> keeps T s s1 -> no_user_frame T s1 p.
Proof. intros Hs Hf. by apply raw_no_user, fresh_raw. Qed.

Definition LINK : Z := PTE_PRESENT + PTE_WRITE + PTE_USER.

Lemma flags_bits f : flags_ok f -> forall t, aligned t -> forall i, 0 <= i < 12 \/ 52 <= i ->
  Z.testbit (Z.lor t f) i = Z.testbit f i.
Proof. intros _ t Ht i Hi. by apply lor_bit. Qed.

Lemma link_entry t : aligned t ->
  0 <= Z.lor t LINK < 2 ^ 64 /\ P_ADDR (Z.lor t LINK) = t /\ present (Z.lor t LINK) = true /\
  user (Z.lor t LINK) = true /\ huge (Z.lor t LINK) = false.
Proof.
  intros Ht. assert (Hf : flags_ok LINK) by (apply flags_ok_low; vm_compute; split; [discriminate|done]).
  split; [by apply entry_range|]. split; [by apply P_ADDR_lor|].
  unfold present, user, huge. rewrite !lor_bit by (done || lia). done.
Qed.

Lemma is_leaf_link l t : aligned t -> is_leaf (S (S l)) (Z.lor t LINK) = false.
Proof. intros Ht. destruct (link_entry t Ht) as (_ & _ & _ & _ & Hh). by destruct l as [|[|[|]]]. Qed.

Lemma vm_ok_link T s t c l p i tn :
  vm_ok T s -> T !! t = Some (c, S (S l), p) -> (S (S l) <= 4)%nat -> 0 <= i < 512 ->
  T !! tn = None -> taken s tn -> no_user_frame T s tn ->
  let lab := (c, S l, p * 512 + i) in
  (forall j, 0 <= j < 512 -> entry_ok (<[tn := lab]> T) s c (S l) (p * 512 + i) j (entry s tn j)) ->
  vm_ok (<[tn := lab]> T) (set_word (slot t i) (Z.lor tn LINK) s).
Proof.
  intros Hs Ht Hl Hi HT Htk Hnu lab Hent.
  destruct (taken_aligned s tn Htk) as [Htn _].
  destruct (link_entry tn Htn) as (Hrng & Haddr & Hpr & _ & _).
  pose proof (label_aligned _ _ _ _ Hs Ht) as Hta.
  assert (Hne : t <> tn) by (intros ->; congruence).
  assert (Hset : forall t' i', aligned t' -> 0 <= i' < 512 ->
    entry (set_word (slot t i) (Z.lor tn LINK) s) t' i' =
    if decide (t = t' /\ i = i') then Z.lor tn LINK else entry s t' i').
  { intros t' i' Ht' Hi'. by apply entry_set. }
  set (s' := set_word _ _ s) in *. assert (Emm : pmm s' = pmm s) by done. clearbody s'.
  assert (Htk' : forall x, taken s x -> taken s' x) by (intros x; unfold taken; by rewrite Emm).
  assert (Hok' : forall T' c' l' p' j e, entry_ok T' s c' l' p' j e -> entry_ok T' s' c' l' p' j e).
  { intros T' c' l' p' j e. destruct l' as [|[|]]; unfold entry_ok, frame_ok; by rewrite ?Emm. }
  split.
  - rewrite Emm. apply (vo_mm _ _ Hs).
  - intros x lx Hx. apply Htk'. apply lookup_insert_Some in Hx as [[<- _]|[_ Hx]]; [done|].
    by apply (vo_taken _ _ Hs _ _ Hx).
  - intros x c' l' p' Hx. apply lookup_insert_Some in Hx as [[<- [= <- <- <-]]|[_ Hx]]; [lia|].
    by apply (vo_level _ _ Hs _ _ _ _ Hx).
  - intros c' Hc. apply lookup_insert_Some in Hc as [[_ E]|[Hnc Hc]].
    { unfold lab in E. injection E as _ E _. lia. }
    rewrite pml4_entry, Hset by (lia || by eapply label_aligned).
    rewrite decide_False. 2: { intros [-> _]. rewrite Hc in Ht. injection Ht as _ E _. lia. }
    rewrite <- pml4_entry. rewrite lookup_insert_ne; [by apply (vo_ctx _ _ Hs)|].
    intros E. pose proof (vo_ctx _ _ Hs c' Hc) as Hr. rewrite <- E in Hr. congruence.
  - intros x c' l' p' j Hx Hl' Hj. apply Hok'.
    apply lookup_insert_Some in Hx as [[<- E]|[Hnx Hx]].
    + injection E as <- <- <-. rewrite Hset by done. rewrite decide_False by naive_solver. by apply Hent.
    + rewrite Hset by (done || by eapply label_aligned).
      destruct (decide (t = x /\ i = j)) as [[<- <-]|Hnij].
      * rewrite Ht in Hx. injection Hx as <- <- <-. unfold entry_ok.
        rewrite is_leaf_link by done. split; [by destruct (link_entry tn Htn) as (_ & _ & _ & _ & ?)|].
        intros _. rewrite Haddr. apply lookup_insert_eq.
      * apply entry_ok_insert; [done|by apply (vo_entry _ _ Hs)|]. intros -> Hp Hu.
        by apply (Hnu x c' p' j).
  - intros x c' l' p' Hx.
    assert (Hc' : T !! c' = Some (c', 5%nat, 0)).
    { apply lookup_insert_Some in Hx as [[<- [= <- <- <-]]|[_ Hx]]; [apply (vo_owner _ _ Hs _ _ _ _ Ht)|].
      apply (vo_owner _ _ Hs _ _ _ _ Hx). }
    rewrite lookup_insert_ne; [done|congruence].
Qed.

(** ** Steps that may add tables *)

(** Byte [b] lies in no table and in no free page. *)
Definition untouched (T : labels) (s : vmst) (b : Z) : Prop :=
  (forall t lab, T !! t = Some lab -> ~ (t <= b < t + 4096)) /\
  (forall k, 0 <= k < Mm.HOT_ZONE_PAGES -> Mm.page_used (pmm s) k = false ->
     ~ (page_of k <= b < page_of k + 4096)).

Record vm_step (T : labels) (s : vmst) (T' : labels) (s' : vmst) : Prop := {
  vs_ok : vm_ok T' s';
  vs_sub : T ⊆ T';
  vs_new : forall x lab, T' !! x = Some lab -> T !! x = None ->
    exists k, 0 <= k < Mm.HOT_ZONE_PAGES /\ x = page_of k /\ Mm.page_used (pmm s) k = false;
  vs_mm : Mm.extends (pmm s) (pmm s');
  vs_cr3 : cr3 s' = cr3 s;
  vs_stub : sig_stub_page s' = sig_stub_page s;
  vs_ctx : forall c i, is_ctx T c -> 0 <= i < 512 -> entry s' c i = entry s c i;
  vs_mem : forall b, untouched T s b -> ld8 (pmem s') b = ld8 (pmem s) b
}.

Lemma vm_step_refl T s : vm_ok T s -> vm_step T s T s.
Proof. intros Hs. split; try done; try congruence; apply Mm.extends_refl. Qed.

Lemma vm_step_trans T1 s1 T2 s2 T3 s3 :
  vm_step T1 s1 T2 s2 -> vm_step T2 s2 T3 s3 -> vm_step T1 s1 T3 s3.
Proof.
  intros [A1 A2 A3 A4 A5 A6 A7 A8] [B1 B2 B3 B4 B5 B6 B7 B8]. split.
  - exact B1.
  - by etrans.
  - intros x lab Hx Hn. destruct (T2 !! x) as [lab2|] eqn:E2; [by eapply A3|].
    destruct (B3 x lab Hx E2) as (k & Hk & Ex & Hf). exists k. split; [exact Hk|]. split; [exact Ex|].
    destruct (Mm.page_used (pmm s1) k) eqn:Eu; [|done].
    destruct A4 as [A4 _]. rewrite (A4 k Hk Eu) in Hf. discriminate Hf.
  - by eapply Mm.extends_trans.
  - congruence.
  - congruence.
  - intros c i Hc Hi. rewrite (B7 c i); [by apply A7| |done]. unfold is_ctx in *. by eapply lookup_weaken.
  - intros b Hb. rewrite B8; [by apply A8|]. destruct Hb as [Hb1 Hb2]. split.
    + intros t lab Ht. destruct (T1 !! t) as [lab1|] eqn:E1; [by apply (Hb1 t lab1)|].
      destruct (A3 t lab Ht E1) as (k & Hk & -> & Hf). by apply Hb2.
    + intros k Hk Hf. apply Hb2; [done|]. destruct (Mm.page_used (pmm s1) k) eqn:Eu; [|done].
      destruct A4 as [A4 _]. by rewrite (A4 k Hk Eu) in Hf.
Qed.

Lemma vm_step_frame_ok T s T' s' f : vm_step T s T' s' -> frame_ok T s f -> frame_ok T' s' f.
Proof.
  intros [A1 A2 A3 A4 _ _ _ _] [Hf1 Hf2]. split.
  - destruct (T' !! f) as [lab|] eqn:E; [|done]. destruct (A3 f lab E Hf1) as (k & Hk & Ef & Hfree).
    rewrite (Hf2 k Hk Ef) in Hfree. discriminate Hfree.
  - intros i Hi E. destruct A4 as [A4 _]. apply A4; [done|]. by apply Hf2.
Qed.

Lemma vm_step_pml4 T s T' s' c : vm_step T s T' s' -> is_ctx T c -> pml4_phys s' c = pml4_phys s c.
Proof. intros H Hc. rewrite !pml4_entry. apply (vs_ctx _ _ _ _ H); [done|lia]. Qed.

(** Every translation through the tables of [T] is unchanged. *)
Definition same_walks (T : labels) (s s' : vmst) : Prop :=
  forall l t c p va, T !! t = Some (c, l, p) -> (l <= 4)%nat -> walk s' l t va = walk s l t va.

Lemma same_walks_trans T T' s1 s2 s3 :
  T ⊆ T' -> same_walks T s1 s2 -> same_walks T' s2 s3 -> same_walks T s1 s3.
Proof.
  intros Hsub H1 H2 l t c p va Ht Hl. rewrite (H2 l t c p va); [|by eapply lookup_weaken|done].
  by apply (H1 l t c p).
Qed.

(** The entry [(t, i)] leads to the level-[l] table of its prefix. *)
Definition linked (T : labels) (s : vmst) (t i c : Z) (l : nat) (q : Z) : Prop :=
  let e := entry s t i in
  present e = true /\ user e = true /\ is_leaf (S l) e = false /\ T !! P_ADDR e = Some (c, l, q).

(** The step made by one [ensure] of the walk down. *)
Definition ensured (T : labels) (s : vmst) (t i c : Z) (l : nat) (q : Z) (r : vmst * bool) : Prop :=
  exists T', vm_step T s T' r.1 /\ same_walks T s r.1 /\ only_entry T t i s r.1 /\
    (r.2 = true -> linked T' r.1 t i c l q).

(** The new table [tn] is filled by [s2] and linked at [(t, i)]. *)
Lemma link_step T s s1 s2 t c l p i tn :
  vm_ok T s -> T !! t = Some (c, S (S l), p) -> (S (S l) <= 4)%nat -> 0 <= i < 512 ->
  alloc_table s = (s1, Some tn) ->
  outside tn s1 s2 -> pmm s2 = pmm s1 -> cr3 s2 = cr3 s1 -> sig_stub_page s2 = sig_stub_page s1 ->
  let lab := (c, S l, p * 512 + i) in
  let s3 := set_word (slot t i) (Z.lor tn LINK) s2 in
  (forall j, 0 <= j < 512 -> entry_ok (<[tn := lab]> T) s c (S l) (p * 512 + i) j (entry s2 tn j)) ->
  (forall j, 0 <= j < 512 -> entry s3 tn j = entry s2 tn j) ->
  (forall va, idx (S (S l)) va = i -> walk s3 (S l) tn va = walk s (S (S l)) t va) ->
  ensured T s t i c (S l) (p * 512 + i) (s3, true).
Proof.
  intros Hs Ht Hl Hi Halloc Ho2 Emm Ecr Estub lab s3 Hent Hkeep Hwalk.
  destruct (alloc_table_spec T s s1 _ Hs Halloc) as (Hs1 & Hk1 & Hex & Ecr1 & Estub1 & Hf).
  pose proof (fp_taken _ _ _ _ Hf) as Htk. destruct (taken_aligned _ _ Htk) as [Htn _].
  destruct (link_entry tn Htn) as (Hrng & Haddr & Hpr & Hus & _).
  pose proof (fp_label _ _ _ _ Hf) as HT.
  pose proof (label_aligned _ _ _ _ Hs Ht) as Hta.
  assert (Hne : t <> tn) by (intros ->; congruence).
  assert (Hk2 : keeps T s1 s2) by exact (outside_keeps T s tn s1 s2 Hs Ho2 Htn HT).
  assert (Hex2 : Mm.extends (pmm s1) (pmm s2)) by (rewrite Emm; apply Mm.extends_refl).
  assert (Hs2 : vm_ok T s2).
  { apply (vm_ok_keeps T s1); [done| |done|done]. rewrite Emm. apply (vo_mm _ _ Hs1). }
  assert (Hk12 : keeps T s s2) by by eapply keeps_trans.
  assert (Hnu : no_user_frame T s2 tn).
  { pose proof (fresh_no_user T s s1 tn Hs Hf Hk1) as Hnu. intros x c' q j Hx Hj.
    rewrite (Hk2 x _ j Hx Hj). by apply (Hnu x c' q j). }
  assert (Htk2 : taken s2 tn) by (apply (taken_extends s1); done).
  assert (Hs3 : vm_ok (<[tn := lab]> T) s3).
  { apply (vm_ok_link T s2 t c l p i tn); try done.
    intros j Hj. apply (entry_ok_extends _ s); [by eapply Mm.extends_trans|]. by apply Hent. }
  assert (Hset : forall t' i', aligned t' -> 0 <= i' < 512 ->
    entry s3 t' i' = if decide (t = t' /\ i = i') then Z.lor tn LINK else entry s2 t' i').
  { intros t' i' Ht' Hi'. by apply entry_set. }
  assert (Hmem : forall b, ~ (tn <= b < tn + 4096) -> ~ (t <= b < t + 4096) ->
    ld8 (pmem s3) b = ld8 (pmem s) b).
  { intros b Hb1 Hb2. change (pmem s3) with (st64 (pmem s2) (slot t i) (Z.lor tn LINK)).
    rewrite ld8_st64 by (unfold slot; lia). rewrite Ho2 by done. by apply (fp_outside _ _ _ _ Hf). }
  assert (E3 : pmm s3 = pmm s2 /\ cr3 s3 = cr3 s2 /\ sig_stub_page s3 = sig_stub_page s2) by done.
  destruct E3 as (E3a & E3b & E3c).
  assert (Hoe : only_entry T t i s s3).
  { intros t' lab' i' Ht' Hi' Hnti. rewrite Hset by (done || exact (label_aligned _ _ _ _ Hs Ht')).
    rewrite decide_False by (intros [-> ->]; by apply Hnti). by apply (Hk12 t' lab'). }
  assert (Elink : entry s3 t i = Z.lor tn LINK).
  { rewrite Hset by done. by rewrite decide_True by done. }
  clearbody s3. exists (<[tn := lab]> T). cbn [fst snd]. split; [|split; [|split]].
  - split.
    + exact Hs3.
    + by apply insert_subseteq.
    + intros x lx Hx Hn. apply lookup_insert_Some in Hx as [[<- _]|[_ Hx]]; [|congruence].
      destruct Htk as (k & Hk' & Ek & _). exists k. split; [done|]. split; [done|].
      by apply (fp_free _ _ _ _ Hf).
    + rewrite E3a, Emm. exact Hex.
    + congruence.
    + congruence.
    + intros c' j Hc Hj. rewrite Hset by (done || exact (label_aligned _ _ _ _ Hs Hc)).
      rewrite decide_False. 2: { intros [-> _]. unfold is_ctx in Hc. rewrite Ht in Hc. injection Hc as _ E _. lia. }
      by apply (Hk12 c' _ j Hc).
    + intros b [Hb1 Hb2]. apply Hmem; [|by apply (Hb1 t _ Ht)].
      destruct Htk as (k & Hk' & Ek & _). rewrite Ek. apply Hb2; [done|]. by apply (fp_free _ _ _ _ Hf).
  - intros l' t' c' p' va Ht' Hl'. refine (walk_update T s s3 t c (S (S l)) p i Hs Ht Hoe _ l' t' c' p' va Ht' Hl').
    intros va' Hva'. rewrite walk_S. cbv zeta. rewrite Hva', Elink, Hpr, is_leaf_link by done.
    cbn [negb]. rewrite Haddr. by apply Hwalk.
  - exact Hoe.
  - intros _. unfold linked. rewrite Elink. split; [done|]. split; [done|].
    split; [by apply is_leaf_link|]. rewrite Haddr. apply lookup_insert_eq.
Qed.

(** The linked table is fresh and empty. *)
Lemma link_fresh T s s1 t c l p i tn :
  vm_ok T s -> T !! t = Some (c, S (S l), p) -> (S (S l) <= 4)%nat -> 0 <= i < 512 ->
  alloc_table s = (s1, Some tn) -> present (entry s t i) = false ->
  ensured T s t i c (S l) (p * 512 + i) (set_word (slot t i) (Z.lor tn LINK) s1, true).
Proof.
  intros Hs Ht Hl Hi Halloc Habs.
  destruct (alloc_table_spec T s s1 _ Hs Halloc) as (_ & _ & _ & _ & _ & Hf).
  destruct (taken_aligned _ _ (fp_taken _ _ _ _ Hf)) as [Htn _].
  pose proof (label_aligned _ _ _ _ Hs Ht) as Hta.
  assert (Hne : t <> tn) by (intros ->; pose proof (fp_label _ _ _ _ Hf); congruence).
  assert (Hz : forall j, 0 <= j < 512 -> entry s1 tn j = 0) by (intros j Hj; by apply (fresh_entry T s)).
  assert (Hk : forall j, 0 <= j < 512 ->
    entry (set_word (slot t i) (Z.lor tn LINK) s1) tn j = entry s1 tn j).
  { intros j Hj. rewrite entry_set by (done || by destruct (link_entry tn Htn)).
    by rewrite decide_False by (intros [? _]; done). }
  apply (link_step T s s1 s1); try done.
  - intros j Hj. rewrite Hz by done. destruct l as [|[|[|l]]]; [done..|lia].
  - intros va Hva. rewrite !walk_S. cbv zeta. rewrite Hva, Habs, Hk, Hz by (done || apply idx_range). done.
Qed.

(** Adding U/S to an entry that points to a table. *)
Lemma bump_entry e : 0 <= e < 2 ^ 64 ->
  let e' := Z.lor e PTE_USER in
  0 <= e' < 2 ^ 64 /\ P_ADDR e' = P_ADDR e /\ present e' = present e /\ huge e' = huge e /\ user e' = true.
Proof.
  intros He e'. split; [by apply lor_range|]. split; [by apply P_ADDR_lor_r, flags_ok_low|].
  unfold present, huge, user, e'. rewrite !Z.lor_spec. change (Z.testbit PTE_USER 0) with false.
  change (Z.testbit PTE_USER 7) with false. change (Z.testbit PTE_USER 2) with true.
  by rewrite !orb_false_r, orb_true_r.
Qed.

Lemma bump_step T s t c l p i :
  vm_ok T s -> T !! t = Some (c, S (S l), p) -> (S (S l) <= 4)%nat -> 0 <= i < 512 ->
  present (entry s t i) = true -> is_leaf (S (S l)) (entry s t i) = false ->
  ensured T s t i c (S l) (p * 512 + i) (set_word (slot t i) (Z.lor (entry s t i) PTE_USER) s, true).
Proof.
  intros Hs Ht Hl Hi Hp Hlf.
  destruct (bump_entry (entry s t i) (ld64_range _ _)) as (Hr & Ha & Hpr & Hh & Hu).
  pose proof (label_aligned _ _ _ _ Hs Ht) as Hta.
  assert (Hlf' : is_leaf (S (S l)) (Z.lor (entry s t i) PTE_USER) = false).
  { destruct l as [|[|[|]]]; cbn [is_leaf] in *; congruence. }
  pose proof (child_label T s t c (S l) p i Hs Ht Hl Hi Hp Hlf) as Hch.
  set (e' := Z.lor (entry s t i) PTE_USER) in *.
  assert (Hset : forall t' i', aligned t' -> 0 <= i' < 512 ->
    entry (set_word (slot t i) e' s) t' i' = if decide (t = t' /\ i = i') then e' else entry s t' i').
  { intros t' i' Ht' Hi'. by apply entry_set. }
  assert (Hmem : forall b, ~ (t <= b < t + 4096) ->
    ld8 (pmem (set_word (slot t i) e' s)) b = ld8 (pmem s) b).
  { intros b Hb. apply ld8_st64. unfold slot. lia. }
  set (s' := set_word (slot t i) e' s) in *.
  assert (E : pmm s' = pmm s /\ cr3 s' = cr3 s /\ sig_stub_page s' = sig_stub_page s) by done.
  destruct E as (Emm & Ecr & Est). clearbody s'.
  assert (Hoe : only_entry T t i s s').
  { intros t' lab' i' Ht' Hi' Hnti. rewrite Hset by (done || exact (label_aligned _ _ _ _ Hs Ht')).
    rewrite decide_False by (intros [-> ->]; by apply Hnti). done. }
  assert (Eti : entry s' t i = e') by (rewrite Hset by done; by rewrite decide_True by done).
  assert (Hctx : forall c' j, is_ctx T c' -> 0 <= j < 512 -> entry s' c' j = entry s c' j).
  { intros c' j Hc Hj. apply (Hoe c' _ j Hc Hj). intros [-> _]. unfold is_ctx in Hc.
    rewrite Ht in Hc. injection Hc as _ E _. lia. }
  exists T. cbn [fst snd]. split; [|split; [|split]].
  - split; try done.
    + split.
      * rewrite Emm. apply (vo_mm _ _ Hs).
      * intros x lab Hx. unfold taken. rewrite Emm. by apply (vo_taken _ _ Hs x lab).
      * apply (vo_level _ _ Hs).
      * intros c' Hc. rewrite pml4_entry, Hctx by (done || lia). rewrite <- pml4_entry. by apply (vo_ctx _ _ Hs).
      * intros x c' l' p' j Hx Hl' Hj.
        assert (Hex : Mm.extends (pmm s) (pmm s')) by (rewrite Emm; apply Mm.extends_refl).
        apply (entry_ok_extends T s s' _ _ _ _ _ Hex).
        destruct (decide (x = t /\ j = i)) as [[-> ->]|Hn].
        -- rewrite Eti. rewrite Ht in Hx. injection Hx as <- <- <-. unfold entry_ok.
           rewrite Hlf', Ha, Hh. split; [|done].
           pose proof (vo_entry _ _ Hs t c _ p i Ht ltac:(lia) Hi) as Hok. unfold entry_ok in Hok.
           rewrite Hlf in Hok. by destruct Hok.
        -- rewrite (Hoe x _ j Hx Hj Hn). by apply (vo_entry _ _ Hs x c' l' p' j).
      * apply (vo_owner _ _ Hs).
    + congruence.
    + rewrite Emm. apply Mm.extends_refl.
    + intros b [Hb _]. apply Hmem. exact (Hb t _ Ht).
  - intros l' t' c' p' va Ht' Hl'.
    refine (walk_update T s s' t c (S (S l)) p i Hs Ht Hoe _ l' t' c' p' va Ht' Hl').
    intros va' Hva'. rewrite !(walk_S _ (S l)). cbv zeta. rewrite Hva', Eti, Hpr, Hp, Hlf, Hlf', Ha.
    cbn [negb]. by apply (walk_lower T s s' t c (S (S l)) p i Hs Ht Hoe (S l) _ c (p * 512 + i)); [|lia..].
  - exact Hoe.
  - intros _. unfold linked. rewrite Eti, Ha, Hpr. done.
Qed.

(** ** Splitting a huge page *)
Lemma fill_spec (v : Z -> Z) tn s k :
  aligned tn -> (k <= 512)%nat -> (forall j, 0 <= j < 512 -> 0 <= v j < 2 ^ 64) ->
  let s' := foldl (fun s j => set_word (slot tn j) (v j) s) s (zrange k) in
  (forall j, 0 <= j < 512 -> entry s' tn j = if decide (j < Z.of_nat k) then v j else entry s tn j) /\
  outside tn s s' /\ pmm s' = pmm s /\ cr3 s' = cr3 s /\ sig_stub_page s' = sig_stub_page s.
Proof.
  intros Htn Hk Hv. induction k as [|k IH]; cbv zeta.
  { split; [|by split_and!]. intros j Hj. by rewrite decide_False by lia. }
  rewrite zrange_S, foldl_app. cbn [foldl]. destruct IH as (H1 & H2 & H3 & H4 & H5); [lia|].
  set (s1 := foldl _ s (zrange k)) in *. clearbody s1. split.
  - intros j Hj. rewrite entry_set by (done || lia || by apply Hv; lia).
    destruct (decide (tn = tn /\ Z.of_nat k = j)) as [[_ <-]|Hn].
    + by rewrite decide_True by lia.
    + rewrite H1 by done. destruct (decide (j < Z.of_nat k)), (decide (j < Z.of_nat (S k)));
        try done; lia.
  - split; [|done]. intros b Hb. rewrite <- H2 by done. apply ld8_st64. unfold slot. lia.
Qed.

(** The flag bits of the pieces of a huge page at level [S l]. *)
Definition piece_extra (l : nat) : Z := if (l =? 1)%nat then PTE_HUGE else 0.
Definition piece (l : nat) (base j : Z) : Z :=
  Z.lor (u64 (base + Z.shiftl j (shift (S l)))) (PTE_PRESENT + PTE_WRITE + piece_extra l).

Lemma piece_spec l base j :
  (l <= 1)%nat -> aligned base -> base mod 2 ^ shift (S (S l)) = 0 -> 0 <= j < 512 ->
  let e := piece l base j in
  0 <= e < 2 ^ 64 /\ P_ADDR e = base + j * 2 ^ shift (S l) /\ present e = true /\
  perms e = (false, true, true) /\ is_leaf (S l) e = true /\ P_ADDR e mod 2 ^ shift (S l) = 0.
Proof.
  intros Hl Hb Hm Hj. unfold piece, piece_extra, perms, present, user, writable, nx.
  assert (Hsh : shift (S l) = 12 + 9 * Z.of_nat l) by (unfold shift; lia).
  assert (Hsh2 : shift (S (S l)) = shift (S l) + 9) by (unfold shift; lia).
  rewrite Hsh2, Z.pow_add_r in Hm by lia. set (w := 2 ^ shift (S l)) in *.
  assert (Hw : w = 4096 \/ w = 2097152) by (unfold w; rewrite Hsh; destruct l as [|[|]]; [by left|by right|lia]).
  change (2 ^ 9) with 512 in Hm. rewrite Z.shiftl_mul_pow2 by lia. fold w.
  apply Z.mod_divide in Hm as [q Hq]; [|lia].
  assert (Hr : 0 <= base + j * w < 2 ^ 52).
  { destruct Hb as [_ Hb]. destruct Hw as [-> | ->]; lia. }
  rewrite u64_small by lia.
  assert (Hal : aligned (base + j * w)).
  { split; [|done]. subst base. replace (q * (w * 512) + j * w) with ((q * 512 + j) * w) by lia.
    destruct Hw as [-> | ->]; [apply Z_mod_mult|].
    change 2097152 with (512 * 4096). rewrite Z.mul_assoc. apply Z_mod_mult. }
  set (f := PTE_PRESENT + PTE_WRITE + _).
  assert (Hf : flags_ok f).
  { apply flags_ok_low. unfold f. destruct (l =? 1)%nat; vm_compute; split; done || discriminate. }
  split; [by apply entry_range|]. rewrite P_ADDR_lor by done. rewrite !lor_bit by (done || lia).
  assert (Eb : Z.testbit f 0 = true /\ Z.testbit f 2 = false /\ Z.testbit f 1 = true /\ Z.testbit f 63 = false).
  { unfold f. by destruct (l =? 1)%nat. }
  destruct Eb as (-> & -> & -> & ->). split; [done|]. split; [done|]. split; [done|]. split.
  - destruct l as [|[|]]; [done| |lia]. unfold is_leaf, huge. rewrite lor_bit by (done || lia). done.
  - subst base. replace (q * (w * 512) + j * w) with ((q * 512 + j) * w) by lia. apply Z_mod_mult.
Qed.

Lemma mod_split va l : va mod 2 ^ shift (S (S l)) = idx (S l) va * 2 ^ shift (S l) + va mod 2 ^ shift (S l).
Proof.
  assert (Hsh2 : shift (S (S l)) = shift (S l) + 9) by (unfold shift; lia).
  rewrite Hsh2, Z.pow_add_r by (unfold shift; lia). change (2 ^ 9) with 512.
  rewrite Z.rem_mul_r by (try lia; apply Z.pow_nonzero; unfold shift; lia). unfold idx. lia.
Qed.

Lemma link_split T s s1 t c l p i tn :
  vm_ok T s -> T !! t = Some (c, S (S l), p) -> (l <= 1)%nat -> 0 <= i < 512 ->
  alloc_table s = (s1, Some tn) -> huge (entry s t i) = true ->
  ensured T s t i c (S l) (p * 512 + i)
    (set_word (slot t i) (Z.lor tn LINK)
       (split_fill tn (P_ADDR (ld64 (pmem s1) (slot t i))) (shift (S l)) (piece_extra l) s1), true).
Proof.
  intros Hs Ht Hl Hi Halloc Hh.
  destruct (alloc_table_spec T s s1 _ Hs Halloc) as (_ & Hk1 & _ & _ & _ & Hf).
  destruct (taken_aligned _ _ (fp_taken _ _ _ _ Hf)) as [Htn _].
  pose proof (label_aligned _ _ _ _ Hs Ht) as Hta.
  assert (Hne : t <> tn) by (intros ->; pose proof (fp_label _ _ _ _ Hf); congruence).
  change (ld64 (pmem s1) (slot t i)) with (entry s1 t i). rewrite (Hk1 t _ i Ht Hi).
  set (e := entry s t i) in *.
  assert (He : is_leaf (S (S l)) e = true) by (destruct l as [|[|]]; [done|done|lia]).
  pose proof (vo_entry _ _ Hs t c _ p i Ht ltac:(lia) Hi) as Hok. fold e in Hok.
  unfold entry_ok in Hok. rewrite He in Hok. destruct Hok as (Hp & Hmod & Hu & Hw & Hn).
  pose proof (P_ADDR_aligned e) as Hbase.
  assert (Hpiece : forall j, 0 <= j < 512 -> 0 <= piece l (P_ADDR e) j < 2 ^ 64).
  { intros j Hj. by destruct (piece_spec l (P_ADDR e) j Hl Hbase Hmod Hj). }
  unfold split_fill.
  destruct (fill_spec (piece l (P_ADDR e)) tn s1 512 Htn ltac:(lia) Hpiece) as (H1 & H2 & H3 & H4 & H5).
  change (foldl _ s1 (zrange 512)) with
    (foldl (fun s j => set_word (slot tn j) (piece l (P_ADDR e) j) s) s1 (zrange 512)).
  set (s2 := foldl _ s1 (zrange 512)) in *. clearbody s2.
  assert (H1' : forall j, 0 <= j < 512 -> entry s2 tn j = piece l (P_ADDR e) j).
  { intros j Hj. rewrite H1 by done. by rewrite decide_True by lia. }
  assert (Hk : forall j, 0 <= j < 512 ->
    entry (set_word (slot t i) (Z.lor tn LINK) s2) tn j = entry s2 tn j).
  { intros j Hj. rewrite entry_set by (done || by destruct (link_entry tn Htn)).
    by rewrite decide_False by (intros [? _]; done). }
  apply (link_step T s s1 s2); try done; [lia|..].
  - intros j Hj. rewrite H1' by done.
    destruct (piece_spec l (P_ADDR e) j Hl Hbase Hmod Hj) as (_ & Ha & Hpp & Hperm & Hleaf & Hmj).
    unfold perms in Hperm. injection Hperm as Hpu Hpw Hpn.
    destruct l as [|[|]]; [|  |lia].
    + intros _ Hpu'. congruence.
    + unfold entry_ok. rewrite Hleaf. unfold huge_ok. split_and!; try done. by apply negb_true_iff in Hpn.
  - intros va Hva. pose proof (idx_range (S l) va) as Hj.
    destruct (piece_spec l (P_ADDR e) _ Hl Hbase Hmod Hj) as (_ & Ha & Hpp & Hperm & Hleaf & _).
    rewrite !walk_S. cbv zeta. rewrite Hva, Hk, H1' by done. fold e.
    rewrite Hpp, Hp, Hleaf, He, Ha, Hperm, mod_split. cbn [negb]. unfold perms.
    rewrite Hu, Hw, Hn. cbn [negb]. f_equal. f_equal. lia.
Qed.

(** ** The two [ensure]s *)
Lemma alloc_fail_step T s s1 :
  vm_ok T s -> alloc_table s = (s1, None) -> vm_step T s T s1 /\ same_walks T s s1 /\ keeps T s s1.
Proof.
  intros Hs Ha. destruct (alloc_table_spec T s s1 _ Hs Ha) as (H1 & H2 & H3 & H4 & H5 & H6).
  split; [|split; [|exact H2]].
  - split; try done; [congruence| |].
    + intros c i Hc Hi. by apply (H2 c _ i Hc).
    + intros b _. by rewrite H6.
  - intros l t c p va Ht Hl. by apply (walk_keeps T s s1 Hs H2 l t c p).
Qed.

Lemma ensured_fail T s s1 t i c l q :
  vm_ok T s -> alloc_table s = (s1, None) -> ensured T s t i c l q (s1, false).
Proof.
  intros Hs Ha. destruct (alloc_fail_step T s s1 Hs Ha) as (H1 & H2 & H3).
  exists T. split; [exact H1|]. split; [exact H2|]. split; [|done].
  intros t' lab i' Ht Hi _. by apply (H3 t' lab).
Qed.

Lemma ensure_pdpt_spec T s t c p i :
  vm_ok T s -> T !! t = Some (c, 4%nat, p) -> 0 <= i < 512 ->
  ensured T s t i c 3 (p * 512 + i) (ensure_pdpt (slot t i) s).
Proof.
  intros Hs Ht Hi. unfold ensure_pdpt. change (ld64 (pmem s) (slot t i)) with (entry s t i).
  destruct (present (entry s t i)) eqn:Hp; cbn [negb].
  - by apply bump_step; [..|lia| | |].
  - destruct (alloc_table s) as [s1 [tn|]] eqn:Ha; [|by apply ensured_fail].
    by apply link_fresh; [..|lia| | |].
Qed.

Lemma ensure_table_spec T s t c l p i :
  vm_ok T s -> T !! t = Some (c, S (S l), p) -> (l <= 1)%nat -> 0 <= i < 512 ->
  ensured T s t i c (S l) (p * 512 + i) (ensure_table (shift (S l)) (piece_extra l) (slot t i) s).
Proof.
  intros Hs Ht Hl Hi. unfold ensure_table. change (ld64 (pmem s) (slot t i)) with (entry s t i).
  destruct (huge (entry s t i)) eqn:Hh.
  { destruct (alloc_table s) as [s1 [tn|]] eqn:Ha; [|by apply ensured_fail].
    by apply link_split. }
  assert (Hlf : is_leaf (S (S l)) (entry s t i) = false) by (destruct l as [|[|]]; [done|done|lia]).
  destruct (present (entry s t i)) eqn:Hp; cbn [negb].
  - by apply bump_step; [..|lia| | |].
  - destruct (alloc_table s) as [s1 [tn|]] eqn:Ha; [|by apply ensured_fail].
    by apply link_fresh; [..|lia| | |].
Qed.

(** ** Writing a leaf *)

(** The page number of a (48-bit) virtual address. *)
Definition vpn (va : Z) : Z := (va / 4096) mod 512 ^ 4.

(** The page number below a level-[l] table with prefix [p]. *)
Definition vpn_below (l : nat) (p va : Z) : Z := p * 512 ^ Z.of_nat l + (va / 4096) mod 512 ^ Z.of_nat l.

Lemma vpn_below_step l p va : vpn_below l (p * 512 + idx (S l) va) va = vpn_below (S l) p va.
Proof.
  unfold vpn_below. rewrite Nat2Z.inj_succ, Z.pow_succ_r by lia.
  rewrite (Z.mul_comm 512 (512 ^ Z.of_nat l)).
  rewrite (Z.rem_mul_r (va / 4096) (512 ^ Z.of_nat l) 512) by (try lia; apply Z.pow_nonzero; lia).
  assert (E : idx (S l) va = (va / 4096 / 512 ^ Z.of_nat l) mod 512).
  { unfold idx. f_equal. rewrite Z.div_div by (try lia; apply Z.pow_pos_nonneg; lia).
    f_equal. unfold shift. replace (12 + 9 * (Z.of_nat (S l) - 1)) with (12 + 9 * Z.of_nat l) by lia.
    rewrite Z.pow_add_r, Z.pow_mul_r by lia. done. }
  rewrite E. lia.
Qed.

Lemma leaf_step T s t c p i v :
  vm_ok T s -> T !! t = Some (c, 1%nat, p) -> 0 <= i < 512 -> 0 <= v < 2 ^ 64 ->
  (present v = true -> user v = true -> frame_ok T s (P_ADDR v)) ->
  let s' := set_word (slot t i) v s in
  vm_step T s T s' /\ only_entry T t i s s' /\ entry s' t i = v /\
  forall l' t' c' p' va, T !! t' = Some (c', l', p') -> (l' <= 4)%nat ->
    (c' = c -> vpn_below l' p' va <> p * 512 + i) -> walk s' l' t' va = walk s l' t' va.
Proof.
  intros Hs Ht Hi Hv Hf s'.
  pose proof (label_aligned _ _ _ _ Hs Ht) as Hta.
  assert (Hset : forall t' i', aligned t' -> 0 <= i' < 512 ->
    entry s' t' i' = if decide (t = t' /\ i = i') then v else entry s t' i').
  { intros t' i' Ht' Hi'. by apply entry_set. }
  assert (Hmem : forall b, ~ (t <= b < t + 4096) -> ld8 (pmem s') b = ld8 (pmem s) b).
  { intros b Hb. apply ld8_st64. unfold slot. lia. }
  assert (E : pmm s' = pmm s /\ cr3 s' = cr3 s /\ sig_stub_page s' = sig_stub_page s) by done.
  destruct E as (Emm & Ecr & Est). clearbody s'.
  assert (Hoe : only_entry T t i s s').
  { intros t' lab' i' Ht' Hi' Hnti. rewrite Hset by (done || exact (label_aligned _ _ _ _ Hs Ht')).
    rewrite decide_False by (intros [-> ->]; by apply Hnti). done. }
  assert (Eti : entry s' t i = v) by (rewrite Hset by done; by rewrite decide_True by done).
  assert (Hctx : forall c' j, is_ctx T c' -> 0 <= j < 512 -> entry s' c' j = entry s c' j).
  { intros c' j Hc Hj. apply (Hoe c' _ j Hc Hj). intros [-> _]. unfold is_ctx in Hc.
    rewrite Ht in Hc. injection Hc as _ E _. lia. }
  assert (Hex : Mm.extends (pmm s) (pmm s')) by (rewrite Emm; apply Mm.extends_refl).
  split; [|split; [exact Hoe|split; [exact Eti|]]].
  - split; try done; [|congruence|].
    + split.
      * rewrite Emm. apply (vo_mm _ _ Hs).
      * intros x lab Hx. unfold taken. rewrite Emm. by apply (vo_taken _ _ Hs x lab).
      * apply (vo_level _ _ Hs).
      * intros c' Hc. rewrite pml4_entry, Hctx by (done || lia). rewrite <- pml4_entry. by apply (vo_ctx _ _ Hs).
      * intros x c' l' p' j Hx Hl' Hj. apply (entry_ok_extends T s s' _ _ _ _ _ Hex).
        destruct (decide (x = t /\ j = i)) as [[-> ->]|Hn].
        -- rewrite Eti. rewrite Ht in Hx. by injection Hx as <- <- <-.
        -- rewrite (Hoe x _ j Hx Hj Hn). by apply (vo_entry _ _ Hs x c' l' p' j).
      * apply (vo_owner _ _ Hs).
    + intros b [Hb _]. apply Hmem. exact (Hb t _ Ht).
  - induction l' as [|l' IH]; intros t' c' p' va Ht' Hl' Hne; [done|].
    assert (Hnt : ~ (t' = t /\ idx (S l') va = i)).
    { intros [-> Hidx]. rewrite Ht in Ht'. injection Ht' as <- <- <-. apply (Hne eq_refl).
      rewrite <- vpn_below_step, Hidx. unfold vpn_below. change (512 ^ Z.of_nat 0) with 1.
      rewrite Z.mod_1_r. lia. }
    rewrite !walk_S. cbv zeta. rewrite (Hoe t' _ _ Ht' (idx_range _ _) Hnt).
    destruct (present (entry s t' _)) eqn:Ep; cbn [negb]; [|done].
    destruct (is_leaf _ _) eqn:El; [done|].
    apply (IH _ c' (p' * 512 + idx (S l') va)); [|lia|by rewrite vpn_below_step].
    apply (child_label T s t' c' l' p'); [done|done|lia|apply idx_range|done|done].
Qed.

(** ** vm_map_page *)
Lemma linked_mono T s t i c l q T' s' t' i' lab' :
  linked T s t i c l q -> T !! t = Some lab' -> 0 <= i < 512 -> t <> t' ->
  T ⊆ T' -> only_entry T t' i' s s' -> linked T' s' t i c l q.
Proof.
  intros (H1 & H2 & H3 & H4) Ht Hi Hne Hsub Hoe. unfold linked.
  rewrite (Hoe t _ i Ht Hi) by (intros [? _]; done). split_and!; [done..|]. by eapply lookup_weaken.
Qed.

Lemma walk_linked T s t c l q va :
  linked T s t (idx (S l) va) c l q -> walk s (S l) t va = walk s l (P_ADDR (entry s t (idx (S l) va))) va.
Proof. intros (H1 & _ & H3 & _). rewrite walk_S. cbv zeta. by rewrite H1, H3. Qed.

(** Every table entry above the leaf of [va] has U/S set. *)
Definition user_path (s : vmst) (ctx va : Z) : Prop :=
  let e4 := entry s (pml4_phys s ctx) (idx 4 va) in
  let e3 := entry s (P_ADDR e4) (idx 3 va) in
  let e2 := entry s (P_ADDR e3) (idx 2 va) in
  user e4 = true /\ user e3 = true /\ user e2 = true.

Lemma vpn_idx va va' : vpn va = vpn va' -> forall l, (1 <= l <= 4)%nat -> idx l va = idx l va'.
Proof.
  intros E l Hl.
  assert (H : forall v, idx l v = (vpn v / 512 ^ (Z.of_nat l - 1)) mod 512).
  { intros v. unfold idx, vpn, shift.
    rewrite Z.pow_add_r, Z.pow_mul_r, <- Z.div_div by lia. change (2 ^ 12) with 4096. change (2 ^ 9) with 512.
    destruct l as [|[|[|[|[|]]]]]; try lia; cbn [Z.of_nat Pos.of_succ_nat Pos.succ Z.sub];
      generalize (v / 4096) as x; intros x; Z.to_euclidean_division_equations; lia. }
  by rewrite !H, E.
Qed.

Lemma vpn_root va : vpn_below 4 0 va = vpn va.
Proof. unfold vpn_below, vpn. change (Z.of_nat 4) with 4. lia. Qed.

Lemma pte_flags_spec fl :
  flags_ok (pte_flags fl) /\ Z.testbit (pte_flags fl) 0 = true /\
  Z.testbit (pte_flags fl) 2 = Z.testbit fl 3 /\ Z.testbit (pte_flags fl) 1 = Z.testbit fl 1 /\
  Z.testbit (pte_flags fl) 63 = negb (Z.testbit fl 2).
Proof.
  assert (Hb : forall k, 0 <= k -> (Z.land fl (2 ^ k) =? 0) = negb (Z.testbit fl k)).
  { intros k Hk. destruct (Z.testbit fl k) eqn:E.
    - apply Z.eqb_neq. intros H. assert (H' : Z.testbit (Z.land fl (2 ^ k)) k = false) by (rewrite H; apply Z.bits_0).
      rewrite Z.land_spec, E, Z.pow2_bits_true in H' by done. discriminate H'.
    - apply Z.eqb_eq. apply Z.bits_inj'. intros j Hj. rewrite Z.land_spec, Z.bits_0, Z.pow2_bits_eqb by done.
      destruct (Z.eqb_spec k j) as [<-|]; [by rewrite E|by rewrite andb_false_r]. }
  unfold pte_flags, flags_ok. change VM_WRITE with (2 ^ 1). change VM_USER with (2 ^ 3). change VM_EXEC with (2 ^ 2).
  rewrite !Hb by lia.
  destruct (Z.testbit fl 1), (Z.testbit fl 2), (Z.testbit fl 3); vm_compute; split_and!; done || discriminate.
Qed.

Lemma lookup_same T s T' s' c va :
  vm_ok T s -> vm_step T s T' s' -> same_walks T s s' -> is_ctx T c ->
  lookup_va s' c va = lookup_va s c va.
Proof.
  intros Hs Hst Hw Hc. unfold lookup_va. rewrite (vm_step_pml4 _ _ _ _ _ Hst Hc).
  apply (Hw 4%nat _ c 0); [by apply (vo_ctx _ _ Hs)|lia].
Qed.

(** The tables of other contexts are unchanged. *)
Definition others_keep (T : labels) (ctx : Z) (s s' : vmst) : Prop :=
  forall t c l p i, T !! t = Some (c, l, p) -> c <> ctx -> 0 <= i < 512 -> entry s' t i = entry s t i.

Lemma only_others T t i c l p s s' :
  T !! t = Some (c, l, p) -> only_entry T t i s s' -> others_keep T c s s'.
Proof.
  intros Ht Ho t' c' l' p' j Ht' Hne Hj. apply (Ho t' _ j Ht' Hj). intros [-> _]. congruence.
Qed.

Lemma others_trans T T' c s1 s2 s3 :
  T ⊆ T' -> others_keep T c s1 s2 -> others_keep T' c s2 s3 -> others_keep T c s1 s3.
Proof.
  intros Hsub H1 H2 t c' l p i Ht Hne Hi. rewrite (H2 t c' l p i); [by apply (H1 t c' l p)| |done..].
  by eapply lookup_weaken.
Qed.

(** The three descents: the level-1 table of [vaddr], linked from the root. *)
Lemma descend T s ctx vaddr :
  vm_ok T s -> is_ctx T ctx ->
  let sl4 := slot (pml4_phys s ctx) (IDX4 vaddr) in
  let '(s1, ok1) := ensure_pdpt sl4 s in
  let sl3 := slot (P_ADDR (ld64 (pmem s1) sl4)) (IDX3 vaddr) in
  let '(s2, ok2) := if ok1 : bool then ensure_table 21 PTE_HUGE sl3 s1 else (s1, false) in
  let sl2 := slot (P_ADDR (ld64 (pmem s2) sl3)) (IDX2 vaddr) in
  let '(s3, ok3) := if ok2 : bool then ensure_table 12 0 sl2 s2 else (s2, false) in
  exists T3, vm_step T s T3 s3 /\ same_walks T s s3 /\ others_keep T ctx s s3 /\
    (ok3 = true ->
     let t4 := pml4_phys s ctx in
     let t3 := P_ADDR (entry s3 t4 (idx 4 vaddr)) in
     let t2 := P_ADDR (entry s3 t3 (idx 3 vaddr)) in
     let q3 := 0 * 512 + idx 4 vaddr in
     let q2 := q3 * 512 + idx 3 vaddr in
     let q1 := q2 * 512 + idx 2 vaddr in
     linked T3 s3 t4 (idx 4 vaddr) ctx 3 q3 /\ linked T3 s3 t3 (idx 3 vaddr) ctx 2 q2 /\
     linked T3 s3 t2 (idx 2 vaddr) ctx 1 q1 /\ sl2 = slot t2 (idx 2 vaddr) /\ T3 !! t4 = Some (ctx, 4%nat, 0)).
Proof.
  intros Hs Hc. cbv zeta. destruct (IDX_eqs vaddr) as (-> & -> & -> & _).
  pose proof (vo_ctx _ _ Hs ctx Hc) as Hroot. set (t4 := pml4_phys s ctx) in *. clearbody t4.
  pose proof (idx_range 4 vaddr) as Hi4. pose proof (idx_range 3 vaddr) as Hi3.
  pose proof (idx_range 2 vaddr) as Hi2.
  pose proof (ensure_pdpt_spec T s t4 ctx 0 _ Hs Hroot Hi4) as R1.
  destruct (ensure_pdpt _ s) as [s1 ok1]. destruct R1 as (T1 & V1 & W1 & O1 & L1). cbn [fst snd] in *.
  pose proof (only_others _ _ _ _ _ _ _ _ Hroot O1) as X1.
  destruct ok1; [|by exists T1]. specialize (L1 eq_refl).
  change (ld64 (pmem s1) (slot t4 (idx 4 vaddr))) with (entry s1 t4 (idx 4 vaddr)).
  set (i4 := idx 4 vaddr) in *. set (i3 := idx 3 vaddr) in *. set (i2 := idx 2 vaddr) in *.
  clearbody i4 i3 i2.
  destruct L1 as (La & Lb & Lc & L1). set (t3 := P_ADDR (entry s1 t4 i4)) in *.
  pose proof (ensure_table_spec T1 s1 t3 ctx 1 _ i3 (vs_ok _ _ _ _ V1) L1 ltac:(lia) Hi3) as R2.
  change (shift 2) with 21 in R2. change (piece_extra 1) with PTE_HUGE in R2.
  destruct (ensure_table 21 PTE_HUGE (slot t3 i3) s1) as [s2 ok2].
  destruct R2 as (T2 & V2 & W2 & O2 & L2). cbn [fst snd] in *.
  pose proof (vm_step_trans _ _ _ _ _ _ V1 V2) as V12.
  pose proof (same_walks_trans T T1 s s1 s2 (vs_sub _ _ _ _ V1) W1 W2) as W12.
  pose proof (others_trans _ _ _ _ _ _ (vs_sub _ _ _ _ V1) X1 (only_others _ _ _ _ _ _ _ _ L1 O2)) as X2.
  destruct ok2; [|by exists T2]. specialize (L2 eq_refl).
  assert (Hne43 : t4 <> t3).
  { intros E. pose proof (lookup_weaken _ _ _ _ Hroot (vs_sub _ _ _ _ V1)) as H. rewrite E, L1 in H. discriminate H. }
  pose proof (lookup_weaken _ _ _ _ Hroot (vs_sub _ _ _ _ V1)) as Hroot1.
  assert (K4 : linked T2 s2 t4 i4 ctx 3 (0 * 512 + i4)).
  { apply (linked_mono T1 s1 t4 i4 ctx 3 _ T2 s2 t3 i3 _ (conj La (conj Lb (conj Lc L1))) Hroot1 Hi4 Hne43
             (vs_sub _ _ _ _ V2) O2). }
  assert (E3 : P_ADDR (entry s2 t4 i4) = t3).
  { unfold t3. f_equal. apply (O2 t4 _ i4 Hroot1 Hi4). by intros [? _]. }
  change (ld64 (pmem s2) (slot t3 i3)) with (entry s2 t3 i3).
  clearbody t3. destruct L2 as (Ma & Mb & Mc & L2). set (t2 := P_ADDR (entry s2 t3 i3)) in *.
  pose proof (ensure_table_spec T2 s2 t2 ctx 0 _ i2 (vs_ok _ _ _ _ V2) L2 ltac:(lia) Hi2) as R3.
  change (shift 1) with 12 in R3. change (piece_extra 0) with 0 in R3.
  destruct (ensure_table 12 0 (slot t2 i2) s2) as [s3 ok3].
  destruct R3 as (T3 & V3 & W3 & O3 & L3). cbn [fst snd] in *.
  pose proof (vm_step_trans _ _ _ _ _ _ V12 V3) as V123.
  pose proof (same_walks_trans T T2 s s2 s3 (vs_sub _ _ _ _ V12) W12 W3) as W123.
  exists T3. split; [exact V123|]. split; [exact W123|].
  split; [exact (others_trans _ _ _ _ _ _ (vs_sub _ _ _ _ V12) X2 (only_others _ _ _ _ _ _ _ _ L2 O3))|].
  intros ->. specialize (L3 eq_refl).
  pose proof (lookup_weaken _ _ _ _ Hroot1 (vs_sub _ _ _ _ V2)) as Hroot2.
  pose proof (lookup_weaken _ _ _ _ L1 (vs_sub _ _ _ _ V2)) as L1'.
  assert (Hne42 : t4 <> t2) by (intros E; rewrite E, L2 in Hroot2; discriminate Hroot2).
  assert (Hne32 : t3 <> t2) by (intros E; rewrite E, L2 in L1'; discriminate L1').
  assert (E3' : P_ADDR (entry s3 t4 i4) = t3).
  { rewrite (O3 t4 _ i4 Hroot2 Hi4) by (by intros [? _]). exact E3. }
  assert (E2' : P_ADDR (entry s3 t3 i3) = t2).
  { unfold t2. f_equal. apply (O3 t3 _ i3 L1' Hi3). by intros [? _]. }
  rewrite E3', E2'. split; [|split; [|split; [|split]]].
  - exact (linked_mono T2 s2 t4 i4 ctx 3 _ T3 s3 t2 i2 _ K4 Hroot2 Hi4 Hne42 (vs_sub _ _ _ _ V3) O3).
  - exact (linked_mono T2 s2 t3 i3 ctx 2 _ T3 s3 t2 i2 _ (conj Ma (conj Mb (conj Mc L2))) L1' Hi3 Hne32
             (vs_sub _ _ _ _ V3) O3).
  - exact L3.
  - done.
  - exact (lookup_weaken _ _ _ _ Hroot2 (vs_sub _ _ _ _ V3)).
Qed.

(** What [vm_map_page] guarantees. *)
Definition map_post (T : labels) (s : vmst) (ctx vaddr phys flags : Z) (s' : vmst) (r : Z) : Prop :=
  exists T', vm_step T s T' s' /\ (r = 0 \/ r = -1) /\ others_keep T ctx s s' /\
    (forall c va, is_ctx T c -> (r = 0 -> c = ctx -> vpn va <> vpn vaddr) ->
       lookup_va s' c va = lookup_va s c va) /\
    (r = 0 -> forall va, vpn va = vpn vaddr ->
       lookup_va s' ctx va =
         Some (P_ADDR phys + va mod 4096, (Z.testbit flags 3, Z.testbit flags 1, Z.testbit flags 2)) /\
       user_path s' ctx va).

Lemma map_fail_post T s ctx vaddr phys flags T' s' :
  vm_ok T s -> vm_step T s T' s' -> same_walks T s s' -> others_keep T ctx s s' ->
  map_post T s ctx vaddr phys flags s' (-1).
Proof.
  intros Hs Hst Hw Ho. exists T'. split; [exact Hst|]. split; [by right|]. split; [exact Ho|]. split; [|done].
  intros c va Hc _. by apply (lookup_same T s T' s').
Qed.

Lemma vm_map_page_spec T s ctx vaddr phys flags :
  vm_ok T s -> is_ctx T ctx ->
  (Z.testbit flags 3 = true -> frame_ok T s (P_ADDR phys)) ->
  map_post T s ctx vaddr phys flags (vm_map_page ctx vaddr phys flags s).1
    (vm_map_page ctx vaddr phys flags s).2.
Proof.
  intros Hs Hc Hfr. unfold vm_map_page.
  assert (Hw0 : same_walks T s s) by (by intros ?).
  pose proof (vm_step_refl T s Hs) as Hst0.
  destruct (Z.eqb_spec ctx 0) as [->|_]; [by apply (map_fail_post T s _ _ _ _ T)|].
  destruct (negb (Z.land vaddr 0xFFF =? 0)); [by apply (map_fail_post T s _ _ _ _ T)|].
  pose proof (descend T s ctx vaddr Hs Hc) as D. cbv zeta in *.
  destruct (ensure_pdpt _ s) as [s1 ok1].
  destruct ok1; cbn [negb]; [|destruct D as (T3 & V & W & X & _); by apply (map_fail_post T s _ _ _ _ T3)].
  destruct (ensure_table 21 _ _ s1) as [s2 ok2].
  destruct ok2; cbn [negb]; [|destruct D as (T3 & V & W & X & _); by apply (map_fail_post T s _ _ _ _ T3)].
  destruct (ensure_table 12 _ _ s2) as [s3 ok3]. destruct D as (T3 & V & W & X & K).
  destruct ok3; cbn [negb]; [|by apply (map_fail_post T s _ _ _ _ T3)].
  destruct (K eq_refl) as (K4 & K3 & K2 & Esl & Hroot). clear K. rewrite Esl.
  assert (E1 : IDX1 vaddr = idx 1 vaddr) by (by destruct (IDX_eqs vaddr) as (_ & _ & _ & ->)).
  rewrite E1. set (t4 := pml4_phys s ctx) in *.
  set (t3 := P_ADDR (entry s3 t4 (idx 4 vaddr))) in *. set (t2 := P_ADDR (entry s3 t3 (idx 3 vaddr))) in *.
  change (ld64 (pmem s3) (slot t2 (idx 2 vaddr))) with (entry s3 t2 (idx 2 vaddr)).
  set (t1 := P_ADDR (entry s3 t2 (idx 2 vaddr))) in *.
  pose proof K4 as (_ & U4 & _ & L3). pose proof K3 as (_ & U3 & _ & L2). pose proof K2 as (_ & U2 & _ & L1).
  fold t3 in L3. fold t2 in L2. fold t1 in L1.
  set (v := Z.lor (Z.land phys PTE_ADDR_MSK) (pte_flags flags)).
  destruct (pte_flags_spec flags) as (Hfok & Hf0 & Hf2 & Hf1 & Hf63).
  pose proof (P_ADDR_aligned phys) as Hpal.
  assert (Hv : 0 <= v < 2 ^ 64) by exact (entry_range (P_ADDR phys) _ Hpal Hfok).
  assert (Hva : P_ADDR v = P_ADDR phys) by exact (P_ADDR_lor (P_ADDR phys) _ Hpal Hfok).
  assert (Hvp : present v = true) by (unfold present, v; rewrite (lor_bit (P_ADDR phys)) by (done || lia); done).
  assert (Hvperm : perms v = (Z.testbit flags 3, Z.testbit flags 1, Z.testbit flags 2)).
  { unfold perms, user, writable, nx, v. rewrite !(lor_bit (P_ADDR phys)) by (done || lia).
    by rewrite Hf2, Hf1, Hf63, negb_involutive. }
  assert (Hfr3 : present v = true -> user v = true -> frame_ok T3 s3 (P_ADDR v)).
  { intros _ Hu. rewrite Hva. apply (vm_step_frame_ok T s T3 s3 _ V). apply Hfr.
    pose proof (f_equal (fun x => x.1.1) Hvperm) as E. change (user v = Z.testbit flags 3) in E. by rewrite <- E. }
  clearbody v.
  destruct (leaf_step T3 s3 t1 ctx _ (idx 1 vaddr) v (vs_ok _ _ _ _ V) L1 (idx_range _ _) Hv Hfr3)
    as (V4 & O4 & Eleaf & W4).
  set (s4 := set_word (slot t1 (idx 1 vaddr)) v s3) in *. clearbody s4.
  assert (Evpn : forall q, (((0 * 512 + idx 4 q) * 512 + idx 3 q) * 512 + idx 2 q) * 512 + idx 1 q = vpn q).
  { intros q. rewrite <- vpn_root, <- !vpn_below_step. unfold vpn_below. change (512 ^ Z.of_nat 0) with 1.
    rewrite Z.mod_1_r. lia. }
  pose proof (vm_step_trans _ _ _ _ _ _ V V4) as VF.
  exists T3. cbn [fst snd]. split; [exact VF|]. split; [by left|].
  split; [exact (others_trans _ _ _ _ _ _ (vs_sub _ _ _ _ V) X (only_others _ _ _ _ _ _ _ _ L1 O4))|]. split.
  - intros c va Hcc Hne. unfold lookup_va. rewrite (vm_step_pml4 _ _ _ _ _ VF Hcc).
    pose proof (vo_ctx _ _ Hs c Hcc) as Hrc.
    pose proof (lookup_weaken _ _ _ _ Hrc (vs_sub _ _ _ _ V)) as Hrc3.
    rewrite (W4 4%nat _ c 0 va Hrc3) by (try lia; intros Ec; rewrite vpn_root, Evpn; by apply Hne).
    by apply (W 4%nat _ c 0).
  - intros _ va Hvpn.
    pose proof (vpn_idx va vaddr Hvpn) as Hidx.
    unfold user_path, lookup_va. rewrite (vm_step_pml4 _ _ _ _ _ VF Hc). fold t4.
    rewrite !(Hidx 4%nat), !(Hidx 3%nat), !(Hidx 2%nat) by lia.
    assert (N : forall t l q, T3 !! t = Some (ctx, S (S l), q) -> t <> t1).
    { intros t l q Ht ->. rewrite L1 in Ht. discriminate Ht. }
    assert (M : forall t i l q q', linked T3 s3 t i ctx (S l) q -> T3 !! t = Some (ctx, S (S l), q') ->
      0 <= i < 512 -> linked T3 s4 t i ctx (S l) q /\ entry s4 t i = entry s3 t i).
    { intros t i l q q' HL Ht Hi. split.
      - apply (linked_mono T3 s3 t i ctx (S l) q T3 s4 t1 (idx 1 vaddr) _ HL Ht Hi); [by eapply N|done|exact O4].
      - apply (O4 t _ i Ht Hi). intros [-> _]. by apply (N t1 l q'). }
    destruct (M _ _ _ _ _ K4 Hroot (idx_range _ _)) as [K4' E4].
    destruct (M _ _ _ _ _ K3 L3 (idx_range _ _)) as [K3' E3].
    destruct (M _ _ _ _ _ K2 L2 (idx_range _ _)) as [K2' E2].
    rewrite E4. fold t3. rewrite E3. fold t2. rewrite E2. split; [|done].
    rewrite <- (Hidx 4%nat) in K4' by lia. rewrite (walk_linked _ _ _ _ _ _ _ K4').
    rewrite (Hidx 4%nat), E4 by lia. fold t3.
    rewrite <- (Hidx 3%nat) in K3' by lia. rewrite (walk_linked _ _ _ _ _ _ _ K3').
    rewrite (Hidx 3%nat), E3 by lia. fold t2.
    rewrite <- (Hidx 2%nat) in K2' by lia. rewrite (walk_linked _ _ _ _ _ _ _ K2').
    rewrite (Hidx 2%nat), E2 by lia. fold t1.
    rewrite walk_S. cbv zeta. rewrite (Hidx 1%nat), Eleaf, Hvp, Hva, Hvperm by lia. done.
Qed.

(** ** A new address space *)
Definition BASE : Z := PTE_PRESENT + PTE_WRITE.

(** The kernel's three identity-mapped gigabytes. *)
Definition kernel_gb (j : Z) : bool := (j =? 0) || (j =? 1) || (j =? 3).
Definition base_entry (j : Z) : Z :=
  if j =? 0 then 0x00000000 + BASE + PTE_HUGE
  else if j =? 1 then 0x40000000 + BASE + PTE_HUGE
  else if j =? 3 then 0xC0000000 + BASE + PTE_HUGE + PTE_PCD
  else 0.

(** The tables of a new context, seen in state [s]. *)
Record base_tables (s : vmst) (c p4 p3 : Z) : Prop := {
  bt_root : pml4_phys s c = p4;
  bt_p4 : forall j, 0 <= j < 512 -> entry s p4 j = if j =? 0 then Z.lor p3 BASE else 0;
  bt_p3 : forall j, 0 <= j < 512 -> entry s p3 j = base_entry j
}.

Lemma base_entry_spec j : 0 <= j < 512 ->
  present (base_entry j) = kernel_gb j /\ huge (base_entry j) = kernel_gb j /\
  (kernel_gb j = true -> P_ADDR (base_entry j) = j * 2 ^ 30 /\ perms (base_entry j) = (false, true, true)).
Proof.
  intros Hj. unfold base_entry, kernel_gb.
  destruct (Z.eqb_spec j 0) as [->|]; [by vm_compute|].
  destruct (Z.eqb_spec j 1) as [->|]; [by vm_compute|].
  destruct (Z.eqb_spec j 3) as [->|]; [by vm_compute|]. done.
Qed.

Lemma base_link t : aligned t ->
  0 <= Z.lor t BASE < 2 ^ 64 /\ P_ADDR (Z.lor t BASE) = t /\ present (Z.lor t BASE) = true.
Proof.
  intros Ht. assert (Hf : flags_ok BASE) by (apply flags_ok_low; vm_compute; split; [discriminate|done]).
  split; [by apply entry_range|]. split; [by apply P_ADDR_lor|].
  unfold present. by rewrite lor_bit by (done || lia).
Qed.

(** Is [va] in the kernel's identity map? *)
Definition kernel_va (va : Z) : bool := (va <? 0x80000000) || ((0xC0000000 <=? va) && (va <? 0x100000000)).

Lemma base_lookup s c p4 p3 va :
  base_tables s c p4 p3 -> aligned p3 -> 0 <= va < 2 ^ 48 ->
  lookup_va s c va = if kernel_va va then Some (va, (false, true, true)) else None.
Proof.
  intros [Hr H4 H3] Hp3 Hva. unfold lookup_va. rewrite Hr, walk_S. cbv zeta.
  rewrite H4 by apply idx_range. destruct (base_link p3 Hp3) as (_ & Ha & Hp).
  unfold kernel_va, idx. change (shift 4) with 39.
  rewrite (Z.mod_small (va / 2 ^ 39)) by (split; [apply Z.div_pos; lia|apply Z.div_lt_upper_bound; lia]).
  destruct (Z.eqb_spec (va / 2 ^ 39) 0) as [E|E].
  - rewrite Hp, Ha. change (is_leaf 4 _) with false. cbn [negb]. cbv iota. rewrite walk_S. cbv zeta.
    apply Z.div_small_iff in E; [|lia]. destruct E as [E|E]; [|lia].
    rewrite H3 by apply idx_range.
    destruct (base_entry_spec _ (idx_range 3 va)) as (-> & Hh & Hk).
    unfold is_leaf. rewrite Hh. unfold idx in *. change (shift 3) with 30 in *.
    assert (Hj : 0 <= va / 2 ^ 30 < 512) by (split; [apply Z.div_pos; lia|apply Z.div_lt_upper_bound; lia]).
    rewrite (Z.mod_small (va / 2 ^ 30)) in * by done.
    pose proof (Z_div_mod_eq_full va (2 ^ 30)) as Edm. pose proof (Z.mod_pos_bound va (2 ^ 30) ltac:(lia)) as Hm.
    set (j := va / 2 ^ 30) in *.
    assert (Ek : kernel_gb j = (va <? 2147483648) || (3221225472 <=? va) && (va <? 4294967296)).
    { apply eq_bool_prop_intro. unfold kernel_gb.
      destruct (Z.eqb_spec j 0), (Z.eqb_spec j 1), (Z.eqb_spec j 3), (Z.ltb_spec va 2147483648),
        (Z.leb_spec 3221225472 va), (Z.ltb_spec va 4294967296); simpl; try done; lia. }
    rewrite <- Ek. destruct (kernel_gb j) eqn:Ekj; cbn [negb]; [|done].
    destruct (Hk eq_refl) as [-> ->]. do 2 f_equal. lia.
  - rewrite (proj2 (Z.ltb_ge va 2147483648)). 2: { apply Z.nlt_ge. intros H. apply E. apply Z.div_small. lia. }
    rewrite (proj2 (Z.ltb_ge va 4294967296)). 2: { apply Z.nlt_ge. intros H. apply E. apply Z.div_small. lia. }
    by rewrite andb_false_r.
Qed.

(** Adding the labels of a new context. *)
Lemma vm_ok_base T s c p4 p3 :
  vm_ok T s -> base_tables s c p4 p3 ->
  T !! c = None -> T !! p4 = None -> T !! p3 = None -> c <> p4 -> c <> p3 -> p4 <> p3 ->
  taken s c -> taken s p4 -> taken s p3 ->
  no_user_frame T s c -> no_user_frame T s p4 -> no_user_frame T s p3 ->
  vm_ok (<[c := (c, 5%nat, 0)]> (<[p4 := (c, 4%nat, 0)]> (<[p3 := (c, 3%nat, 0)]> T))) s.
Proof.
  intros Hs [Br B4 B3] Tc T4 T3 Nc4 Nc3 N43 Kc K4 K3 Uc U4 U3.
  destruct (taken_aligned _ _ K3) as [A3 _]. destruct (base_link p3 A3) as (_ & Ha & Hp).
  set (T' := <[c := _]> _).
  assert (HT' : forall x lab, T' !! x = Some lab ->
    (x = c /\ lab = (c, 5%nat, 0)) \/ (x = p4 /\ lab = (c, 4%nat, 0)) \/ (x = p3 /\ lab = (c, 3%nat, 0)) \/
    (x <> c /\ x <> p4 /\ x <> p3 /\ T !! x = Some lab)).
  { intros x lab H. unfold T' in H. repeat apply lookup_insert_Some in H as [[<- <-]|[? H]]; auto 10. }
  assert (Hl4 : T' !! p4 = Some (c, 4%nat, 0)).
  { unfold T'. rewrite lookup_insert_ne by done. apply lookup_insert_eq. }
  assert (Hl3 : T' !! p3 = Some (c, 3%nat, 0)).
  { unfold T'. rewrite !lookup_insert_ne by done. apply lookup_insert_eq. }
  assert (Hlc : T' !! c = Some (c, 5%nat, 0)) by apply lookup_insert_eq.
  assert (Hold : forall x lab, T !! x = Some lab -> T' !! x = Some lab).
  { intros x lab Hx. unfold T'. rewrite !lookup_insert_ne; congruence. }
  assert (Hnone : forall f, T !! f = None -> f <> c -> f <> p4 -> f <> p3 -> T' !! f = None).
  { intros f Hf ? ? ?. unfold T'. by rewrite !lookup_insert_ne. }
  clearbody T'. split.
  - apply (vo_mm _ _ Hs).
  - intros x lab [[-> _]|[[-> _]|[[-> _]|(_ & _ & _ & Hx)]]]%HT'; try done. by apply (vo_taken _ _ Hs _ _ Hx).
  - intros x c' l p [[_ [= _ -> _]]|[[_ [= _ -> _]]|[[_ [= _ -> _]]|(_ & _ & _ & Hx)]]]%HT'; try lia.
    by apply (vo_level _ _ Hs _ _ _ _ Hx).
  - intros c' [[-> _]|[[_ [=]]|[[_ [=]]|(_ & _ & _ & Hx)]]]%HT'; [by rewrite Br|].
    by apply Hold, (vo_ctx _ _ Hs).
  - intros x c' l p j [[_ [= -> -> ->]]|[[-> [= -> -> ->]]|[[-> [= -> -> ->]]|(_ & _ & _ & Hx)]]]%HT' Hl Hj; [lia| | |].
    + rewrite B4 by done. unfold entry_ok. cbn [is_leaf]. destruct (Z.eqb_spec j 0) as [->|]; [|done].
      split; [|intros _; by rewrite Ha]. destruct (link_entry p3 A3) as (_ & _ & _ & _ & Hh).
      unfold huge. by rewrite lor_bit by (done || lia).
    + rewrite B3 by done. destruct (base_entry_spec j Hj) as (Hpr & Hh & Hk).
      unfold entry_ok. cbn [is_leaf]. rewrite Hh, Hpr. destruct (kernel_gb j); [|by split].
      destruct (Hk eq_refl) as [Hka Hkp]. unfold perms in Hkp.
      split; [done|]. rewrite Hka. change (shift 3) with 30. split; [apply Z_mod_mult|].
      destruct (user _), (writable _), (nx _); done.
    + pose proof (vo_entry _ _ Hs x c' l p j Hx Hl Hj) as He.
      destruct l as [|[|l]]; [lia| |].
      * intros Hpj Huj. destruct (He Hpj Huj) as [Hf1 Hf2]. split; [|done].
        apply Hnone; [done|by apply (Uc x c' p j)|by apply (U4 x c' p j)|by apply (U3 x c' p j)].
      * unfold entry_ok in *. destruct (is_leaf _ _); [done|]. destruct He as [Hh He].
        split; [done|]. intros Hpj. by apply Hold, He.
  - intros x c' l p [[_ [= <- _ _]]|[[_ [= <- _ _]]|[[_ [= <- _ _]]|(_ & _ & _ & Hx)]]]%HT'; try done.
    by apply Hold, (vo_owner _ _ Hs _ _ _ _ Hx).
Qed.

(** The four entries [vm_create] writes. *)
Definition create_writes (p4 p3 : Z) (s : vmst) : vmst :=
  let s := set_word (slot p4 0) (Z.lor p3 (PTE_PRESENT + PTE_WRITE)) s in
  let s := set_word (slot p3 0) (0x00000000 + PTE_PRESENT + PTE_WRITE + PTE_HUGE) s in
  let s := set_word (slot p3 1) (0x40000000 + PTE_PRESENT + PTE_WRITE + PTE_HUGE) s in
  set_word (slot p3 3) (0xC0000000 + PTE_PRESENT + PTE_WRITE + PTE_HUGE + PTE_PCD) s.

Lemma create_writes_spec p4 p3 s :
  aligned p4 -> aligned p3 -> p4 <> p3 ->
  (forall j, 0 <= j < 512 -> entry s p4 j = 0) -> (forall j, 0 <= j < 512 -> entry s p3 j = 0) ->
  let s' := create_writes p4 p3 s in
  pmm s' = pmm s /\ cr3 s' = cr3 s /\ sig_stub_page s' = sig_stub_page s /\
  (forall b, ~ (p4 <= b < p4 + 4096) -> ~ (p3 <= b < p3 + 4096) -> ld8 (pmem s') b = ld8 (pmem s) b) /\
  (forall j, 0 <= j < 512 -> entry s' p4 j = if j =? 0 then Z.lor p3 BASE else 0) /\
  (forall j, 0 <= j < 512 -> entry s' p3 j = base_entry j).
Proof.
  intros A4 A3 Hne H4 H3 s'. destruct (base_link p3 A3) as (Hr & _ & _).
  split; [done|]. split; [done|]. split; [done|]. split; [|split].
  - intros b Hb4 Hb3. unfold s', create_writes, set_word. cbn [pmem update].
    rewrite !ld8_st64 by (unfold slot; lia). done.
  - intros j Hj. unfold s', create_writes.
    rewrite !(entry_set _ p3) by (done || lia). rewrite !(decide_False (P := p3 = p4 /\ _)) by naive_solver.
    rewrite entry_set by (done || lia). destruct (Z.eqb_spec j 0) as [->|Hj0].
    + by rewrite decide_True by done.
    + rewrite decide_False by (intros [_ ?]; lia). by apply H4.
  - intros j Hj. unfold s', create_writes. rewrite !(entry_set _ p3) by (done || lia).
    rewrite (entry_set _ p4) by (done || lia). rewrite (decide_False (P := p4 = p3 /\ _)) by naive_solver.
    rewrite H3 by done. unfold base_entry.
    destruct (Z.eqb_spec j 0) as [->|]; [by repeat case_decide; naive_solver|].
    destruct (Z.eqb_spec j 1) as [->|]; [by repeat case_decide; naive_solver|].
    destruct (Z.eqb_spec j 3) as [->|]; [by repeat case_decide; naive_solver|].
    by repeat case_decide; naive_solver.
Qed.

(** signal.c's restorer page: a page it holds, or NULL. *)
Definition stub_ok (T : labels) (s : vmst) : Prop :=
  sig_stub_page s <> 0 -> frame_ok T s (P_ADDR (sig_stub_page s)).

(** A fresh context: new, with an empty break and the kernel's identity map;
    the stub page is left out of the description. *)
Definition new_space (T : labels) (s : vmst) (T' : labels) (s' : vmst) (ctx : Z) : Prop :=
  is_ctx T' ctx /\ T !! ctx = None /\ ~ taken s ctx /\ brk s' ctx = 0 /\
  forall va, 0 <= va < 2 ^ 48 -> vpn va <> vpn SIG_STUB_ADDR ->
    lookup_va s' ctx va = if kernel_va va then Some (va, (false, true, true)) else None.

Definition create_post (T : labels) (s s' : vmst) (ctx : Z) : Prop :=
  exists T', vm_step T s T' s' /\ keeps T s s' /\
    (forall c va, is_ctx T c -> lookup_va s' c va = lookup_va s c va) /\
    (ctx <> 0 -> new_space T s T' s' ctx).

Lemma create_fail_post T s s' :
  vm_ok T s -> vm_step T s T s' -> keeps T s s' -> create_post T s s' 0.
Proof.
  intros Hs Hst Hk. exists T. split; [done|]. split; [done|]. split; [|done].
  intros c va Hc. unfold lookup_va. rewrite (vm_step_pml4 _ _ _ _ _ Hst Hc).
  apply (walk_keeps T s s' Hs Hk 4 _ c 0); [by apply (vo_ctx _ _ Hs)|lia].
Qed.

(** A step that touches no table of [T]. *)
Lemma keeps_step T s s' :
  vm_ok T s -> keeps T s s' -> vm_ok T s' -> Mm.extends (pmm s) (pmm s') -> cr3 s' = cr3 s ->
  sig_stub_page s' = sig_stub_page s ->
  (forall b, untouched T s b -> ld8 (pmem s') b = ld8 (pmem s) b) ->
  vm_step T s T s'.
Proof.
  intros Hs Hk Hs' Hex Hc Hst Hm. split; try done; [congruence|].
  intros c i Hcc Hi. by apply (Hk c _ i Hcc).
Qed.

Lemma alloc_step T s s1 r :
  vm_ok T s -> alloc_table s = (s1, r) -> vm_step T s T s1 /\ keeps T s s1.
Proof.
  intros Hs Ha. destruct (alloc_table_spec T s s1 r Hs Ha) as (H1 & H2 & H3 & H4 & H5 & H6).
  split; [|exact H2]. apply keeps_step; try done. intros b [_ Hb]. destruct r as [p|]; [|by rewrite H6].
  apply (fp_outside _ _ _ _ H6). destruct (fp_taken _ _ _ _ H6) as (k & Hk & -> & _).
  apply Hb; [done|]. by apply (fp_free _ _ _ _ H6).
Qed.

Lemma pmalloc_step T s s1 r :
  vm_ok T s -> pmalloc s = (s1, r) -> vm_step T s T s1 /\ keeps T s s1.
Proof.
  intros Hs Ha. destruct (pmalloc_spec T s s1 r Hs Ha) as (H1 & H2 & H3 & H4 & H5 & _).
  assert (Hk : keeps T s s1) by (intros t lab i _ _; unfold entry; by rewrite H2).
  split; [|exact Hk]. apply keeps_step; try done. intros b _. by rewrite H2.
Qed.

(** A page taken by the allocator between two states. *)
Definition newly (s s' : vmst) (p : Z) : Prop := taken s' p /\ ~ taken s p.

Lemma raw_newly T s s1 p : raw_page T s s1 p -> newly s s1 p.
Proof.
  intros [_ Ht Hf]. split; [done|]. intros (k & Hk & E & Hu). by rewrite (Hf k Hk E) in Hu.
Qed.

(** Writes confined to pages that were free in [s] are a step from [s]. *)
Lemma confined_step T s s1 s2 :
  vm_ok T s -> vm_step T s T s1 -> keeps T s s1 ->
  pmm s2 = pmm s1 -> cr3 s2 = cr3 s1 -> sig_stub_page s2 = sig_stub_page s1 ->
  (forall b, untouched T s b \/ (exists t lab, T !! t = Some lab /\ t <= b < t + 4096) ->
     ld8 (pmem s2) b = ld8 (pmem s1) b) ->
  vm_step T s T s2 /\ keeps T s s2.
Proof.
  intros Hs Hst Hk Em Ec Est Hm.
  assert (Hk2 : keeps T s s2).
  { intros t lab i Ht Hi. rewrite <- (Hk t lab i Ht Hi). apply entry_ext. intros b Hb. apply Hm.
    right. exists t, lab. split; [done|]. unfold slot in Hb. lia. }
  assert (Hex : Mm.extends (pmm s) (pmm s2)) by (rewrite Em; apply (vs_mm _ _ _ _ Hst)).
  split; [|done]. apply keeps_step; try done.
  - apply (vm_ok_keeps T s); try done. rewrite Em. apply (vo_mm _ _ (vs_ok _ _ _ _ Hst)).
  - rewrite Ec. apply (vs_cr3 _ _ _ _ Hst).
  - rewrite Est. apply (vs_stub _ _ _ _ Hst).
  - intros b Hb. rewrite (Hm b (or_introl Hb)). by apply (vs_mem _ _ _ _ Hst).
Qed.

Lemma newly_untouched T s s' p b :
  vm_ok T s -> newly s s' p ->
  untouched T s b \/ (exists t lab, T !! t = Some lab /\ t <= b < t + 4096) -> ~ (p <= b < p + 4096).
Proof.
  intros Hs [Hn Ho] Hb. destruct (taken_aligned _ _ Hn) as [Ap _]. destruct Hb as [[_ Hb]|(t & lab & Ht & Hb)].
  - destruct Hn as (k & Hk & -> & Hu). apply Hb; [done|].
    destruct (Mm.page_used (pmm s) k) eqn:E; [|done]. exfalso. apply Ho. by exists k.
  - pose proof (label_aligned _ _ _ _ Hs Ht) as At.
    destruct (decide (t = p)) as [->|Hne]; [by destruct (Ho (vo_taken _ _ Hs _ _ Ht))|].
    destruct (aligned_disjoint t p At Ap Hne); lia.
Qed.

Lemma newly_mono s0 s1 s2 p : newly s1 s2 p -> Mm.extends (pmm s0) (pmm s1) -> newly s0 s2 p.
Proof. intros [H1 H2] Hex. split; [done|]. intros H. apply H2. by apply (taken_extends s0). Qed.

Lemma newly_later s0 s1 s2 p : newly s0 s1 p -> Mm.extends (pmm s1) (pmm s2) -> newly s0 s2 p.
Proof. intros [H1 H2] Hex. split; [|done]. by apply (taken_extends s1). Qed.

Lemma newly_label T s s' p : vm_ok T s -> newly s s' p -> T !! p = None.
Proof.
  intros Hs [_ Hn]. destruct (T !! p) as [lab|] eqn:E; [|done]. destruct Hn. by apply (vo_taken _ _ Hs p lab).
Qed.

Lemma newly_raw T s s' p : vm_ok T s -> newly s s' p -> raw_page T s s' p.
Proof.
  intros Hs Hn. split; [by eapply newly_label|by destruct Hn|].
  intros i Hi E. destruct (Mm.page_used (pmm s) i) eqn:Eu; [|done]. destruct Hn as [_ Hn].
  destruct Hn. by exists i.
Qed.

(** The context built by [vm_create] before the stub page is mapped. *)
Lemma create_base T s s1 s2 s3 p4 p3 c :
  vm_ok T s -> alloc_table s = (s1, Some p4) -> alloc_table s1 = (s2, Some p3) ->
  pmalloc (create_writes p4 p3 s2) = (s3, Some c) ->
  let s4 := set_word (c + 8) 0 (set_word c p4 s3) in
  exists T', vm_step T s T' s4 /\ keeps T s s4 /\ T' !! c = Some (c, 5%nat, 0) /\
    newly s s4 c /\ brk s4 c = 0 /\ base_tables s4 c p4 p3 /\ aligned p3.
Proof.
  intros Hs A1 A2 A3 s4.
  destruct (alloc_step T s s1 _ Hs A1) as [S1 K1].
  destruct (alloc_step T s1 s2 _ (vs_ok _ _ _ _ S1) A2) as [S2 K2].
  pose proof (alloc_table_spec T s s1 _ Hs A1) as (_ & _ & X1 & _ & _ & F4).
  pose proof (alloc_table_spec T s1 s2 _ (vs_ok _ _ _ _ S1) A2) as (_ & _ & X2 & _ & _ & F3).
  pose proof (raw_newly T s s1 p4 (fresh_raw _ _ _ _ F4)) as N4.
  pose proof (raw_newly T s1 s2 p3 (fresh_raw _ _ _ _ F3)) as N3.
  destruct (taken_aligned _ _ (fp_taken _ _ _ _ F4)) as [Al4 _].
  destruct (taken_aligned _ _ (fp_taken _ _ _ _ F3)) as [Al3 _].
  assert (Hne43 : p4 <> p3) by (intros ->; by destruct N3 as [_ []]; destruct N4).
  destruct (create_writes_spec p4 p3 s2 Al4 Al3 Hne43) as (E1 & E2 & E3 & Em & E4 & E5).
  { intros j Hj. rewrite (outside_entry p3 s1 s2) by (done || apply (fp_outside _ _ _ _ F3)).
    by apply (fresh_entry T s). }
  { intros j Hj. by apply (fresh_entry T s1). }
  set (s2' := create_writes p4 p3 s2) in *. clearbody s2'.
  pose proof (vm_step_trans _ _ _ _ _ _ S1 S2) as S12.
  pose proof (keeps_trans _ _ _ _ K1 K2) as K12.
  assert (N4' : newly s s2 p4) by by eapply newly_later.
  assert (N3' : newly s s2 p3) by by eapply newly_mono.
  destruct (confined_step T s s2 s2' Hs S12 K12 E1 E2 E3) as [S3 K3].
  { intros b Hb. apply Em; [by apply (newly_untouched T s s2)|by apply (newly_untouched T s s2)]. }
  destruct (pmalloc_step T s2' s3 _ (vs_ok _ _ _ _ S3) A3) as [S4 K4].
  destruct (pmalloc_spec T s2' s3 _ (vs_ok _ _ _ _ S3) A3) as (_ & Em3 & X3 & _ & _ & Rc).
  pose proof (raw_newly T s2' s3 c Rc) as Nc.
  pose proof (vm_step_trans _ _ _ _ _ _ S3 S4) as S34.
  pose proof (keeps_trans _ _ _ _ K3 K4) as K34.
  assert (Nc' : newly s s3 c) by (eapply newly_mono; [done|apply (vs_mm _ _ _ _ S3)]).
  rewrite <- E1 in X2. assert (X23 : Mm.extends (pmm s2) (pmm s3)) by (by rewrite <- E1).
  pose proof (newly_later _ _ _ _ N4' X23) as N4''. pose proof (newly_later _ _ _ _ N3' X23) as N3''.
  destruct (taken_aligned _ _ (proj1 Nc')) as [Alc _].
  assert (Hnc : forall p, newly s s2 p -> c <> p).
  { intros p Hp ->. destruct Nc as [_ Nc]. apply Nc. destruct Hp as [Hp _]. unfold taken. by rewrite E1. }
  pose proof (Hnc p4 N4') as Hc4. pose proof (Hnc p3 N3') as Hc3.
  assert (H4r : 0 <= p4 < 2 ^ 64) by (destruct Al4; lia).
  assert (Em4 : forall b, ~ (c <= b < c + 4096) -> ld8 (pmem s4) b = ld8 (pmem s3) b).
  { intros b Hb. unfold s4, set_word. cbn [pmem update]. rewrite !ld8_st64 by lia. done. }
  assert (Eb : brk s4 c = 0) by (apply ld64_st64_eq; lia).
  assert (Er : pml4_phys s4 c = p4).
  { unfold pml4_phys, s4, set_word. cbn [pmem update]. rewrite ld64_st64_ne by lia. by apply ld64_st64_eq. }
  assert (E6 : pmm s4 = pmm s3 /\ cr3 s4 = cr3 s3 /\ sig_stub_page s4 = sig_stub_page s3) by done.
  destruct E6 as (E6 & E7 & E8). clearbody s4.
  destruct (confined_step T s s3 s4 Hs S34 K34 E6 E7 E8) as [S5 K5].
  { intros b Hb. apply Em4. by apply (newly_untouched T s s3). }
  assert (Hent : forall p j, aligned p -> c <> p -> 0 <= j < 512 -> entry s4 p j = entry s2' p j).
  { intros p j Hp Hcp Hj. transitivity (entry s3 p j); [|unfold entry; by rewrite Em3].
    apply (outside_entry c); done || congruence. }
  assert (Hbt : base_tables s4 c p4 p3).
  { split; [done|intros j Hj; rewrite Hent by done; by apply E4|intros j Hj; rewrite Hent by done; by apply E5]. }
  assert (X34 : Mm.extends (pmm s3) (pmm s4)) by (rewrite E6; apply Mm.extends_refl).
  pose proof (newly_later _ _ _ _ N4'' X34) as M4. pose proof (newly_later _ _ _ _ N3'' X34) as M3.
  pose proof (newly_later _ _ _ _ Nc' X34) as Mc.
  assert (Hnu : forall p, newly s s4 p -> no_user_frame T s4 p).
  { intros p Hp. apply (raw_no_user T s); [done| |done]. by apply newly_raw. }
  exists (<[c := (c, 5%nat, 0)]> (<[p4 := (c, 4%nat, 0)]> (<[p3 := (c, 3%nat, 0)]> T))).
  split; [|split; [done|split; [apply lookup_insert_eq|by split_and!]]].
  assert (Lc : T !! c = None) by by apply (newly_label T s s4).
  assert (L4 : T !! p4 = None) by by apply (newly_label T s s4).
  assert (L3 : T !! p3 = None) by by apply (newly_label T s s4).
  destruct S5 as [B1 B2 B3 B4 B5 B6 B7 B8]. split; try done.
  - apply vm_ok_base with (p4 := p4) (p3 := p3); try done; try (by apply Hnu); by destruct Mc, M4, M3.
  - apply map_subseteq_spec. intros x lab Hx. rewrite !lookup_insert_ne; congruence.
  - intros x lab Hx Hn.
    assert (Hx' : newly s s4 x).
    { apply lookup_insert_Some in Hx as [[<- _]|[_ Hx]]; [done|].
      apply lookup_insert_Some in Hx as [[<- _]|[_ Hx]]; [done|].
      apply lookup_insert_Some in Hx as [[<- _]|[_ Hx]]; [done|congruence]. }
    destruct (newly_raw T s s4 x Hs Hx') as [_ (k & Hk & -> & _) Hf]. exists k. split; [done|]. split; [done|].
    by apply Hf.
Qed.

Lemma brk_entry s c : brk s c = entry s c 1.
Proof. done. Qed.

Lemma vm_create_spec T s :
  vm_ok T s -> stub_ok T s -> create_post T s (vm_create s).1 (vm_create s).2.
Proof.
  intros Hs Hstub. unfold vm_create.
  destruct (alloc_table s) as [s1 [p4|]] eqn:A1.
  2: { destruct (alloc_step T s s1 _ Hs A1). by apply create_fail_post. }
  destruct (alloc_step T s s1 _ Hs A1) as [S1 K1].
  destruct (alloc_table s1) as [s2 [p3|]] eqn:A2.
  2: { destruct (alloc_step T s1 s2 _ (vs_ok _ _ _ _ S1) A2) as [S2 K2]. apply create_fail_post; [done| |].
       - by eapply vm_step_trans.
       - by eapply keeps_trans. }
  destruct (alloc_step T s1 s2 _ (vs_ok _ _ _ _ S1) A2) as [S2 K2].
  pose proof (vm_step_trans _ _ _ _ _ _ S1 S2) as S12. pose proof (keeps_trans _ _ _ _ K1 K2) as K12.
  change (set_word (slot p3 3) _ _) with (create_writes p4 p3 s2). cbv zeta.
  destruct (pmalloc (create_writes p4 p3 s2)) as [s3 [c|]] eqn:A3.
  - destruct (create_base T s s1 s2 s3 p4 p3 c Hs A1 A2 A3) as (T' & V & K & Hc & Hn & Hb & Hbt & Al3).
    set (s4 := set_word (c + 8) 0 (set_word c p4 s3)) in *. clearbody s4.
    pose proof (newly_label T s s4 c Hs Hn) as Hnl.
    assert (Hold : forall c' va, is_ctx T c' -> lookup_va s4 c' va = lookup_va s c' va).
    { intros c' va Hc'. unfold lookup_va. rewrite (vm_step_pml4 _ _ _ _ _ V Hc').
      apply (walk_keeps T s s4 Hs K 4 _ c' 0); [by apply (vo_ctx _ _ Hs)|lia]. }
    destruct (Z.eqb_spec (sig_stub_page s4) 0) as [E0|E0]; cbn [negb].
    + exists T'. cbn [fst snd]. split; [exact V|]. split; [exact K|]. split; [exact Hold|]. intros _.
      split; [exact Hc|]. split; [exact Hnl|]. split; [by destruct Hn|]. split; [exact Hb|].
      intros va Hva _. by apply (base_lookup s4 c p4 p3).
    + set (fl := VM_USER + VM_READ + VM_WRITE + VM_EXEC).
      pose proof (vm_map_page_spec T' s4 c SIG_STUB_ADDR (sig_stub_page s4) fl (vs_ok _ _ _ _ V) Hc) as M.
      destruct (vm_map_page c SIG_STUB_ADDR (sig_stub_page s4) fl s4) as [s5 r]. cbn [fst snd] in *.
      destruct M as (T2 & V2 & _ & Hoth & Hsame & _).
      { intros _. apply (vm_step_frame_ok T s T' s4 _ V). rewrite (vs_stub _ _ _ _ V) in *. by apply Hstub. }
      exists T2. cbn [fst snd]. split; [by eapply vm_step_trans|]. split; [|split].
      * intros t [[c' l'] p'] i Ht Hi. rewrite (Hoth t c' l' p' i).
        -- by apply (K t _ i Ht).
        -- exact (lookup_weaken _ _ _ _ Ht (vs_sub _ _ _ _ V)).
        -- intros ->. pose proof (vo_owner _ _ Hs _ _ _ _ Ht). congruence.
        -- done.
      * intros c' va Hc'. rewrite Hsame; [by apply Hold| |].
        -- exact (lookup_weaken _ _ _ _ Hc' (vs_sub _ _ _ _ V)).
        -- intros _ ->. unfold is_ctx in Hc'. congruence.
      * intros _. split; [exact (lookup_weaken _ _ _ _ Hc (vs_sub _ _ _ _ V2))|]. split; [exact Hnl|].
        split; [by destruct Hn|]. split.
        -- rewrite !brk_entry in *. rewrite (vs_ctx _ _ _ _ V2 c 1 Hc) by lia. exact Hb.
        -- intros va Hva Hne. rewrite Hsame by (done || intros _ _; done). by apply (base_lookup s4 c p4 p3).
  - destruct (create_writes_spec p4 p3 s2) as (E1 & E2 & E3 & Em & _ & _).
    { pose proof (alloc_table_spec T s s1 _ Hs A1) as (_ & _ & _ & _ & _ & F4).
      by destruct (taken_aligned _ _ (fp_taken _ _ _ _ F4)). }
    all: pose proof (alloc_table_spec T s s1 _ Hs A1) as (_ & _ & _ & _ & _ & F4);
      pose proof (alloc_table_spec T s1 s2 _ (vs_ok _ _ _ _ S1) A2) as (_ & _ & _ & _ & _ & F3);
      destruct (taken_aligned _ _ (fp_taken _ _ _ _ F3)) as [Al3 _];
      pose proof (raw_newly T s s1 p4 (fresh_raw _ _ _ _ F4)) as N4;
      pose proof (raw_newly T s1 s2 p3 (fresh_raw _ _ _ _ F3)) as N3.
    + exact Al3.
    + intros ->. by destruct N3 as [_ []]; destruct N4.
    + intros j Hj. rewrite (outside_entry p3 s1 s2); try done.
      * by apply (fresh_entry T s).
      * apply (fp_outside _ _ _ _ F3).
      * by destruct (taken_aligned _ _ (fp_taken _ _ _ _ F4)).
      * intros ->. by destruct N3 as [_ []]; destruct N4.
    + intros j Hj. by apply (fresh_entry T s1).
    + set (s2' := create_writes p4 p3 s2) in *. clearbody s2'.
      destruct (confined_step T s s2 s2' Hs S12 K12 E1 E2 E3) as [S3 K3].
      { intros b Hb. apply Em; apply (newly_untouched T s s2); try done.
        - eapply newly_later; [done|apply (vs_mm _ _ _ _ S2)].
        - eapply newly_mono; [done|apply (vs_mm _ _ _ _ S1)]. }
      destruct (pmalloc_step T s2' s3 _ (vs_ok _ _ _ _ S3) A3) as [S4 K4].
      apply create_fail_post; [done|by eapply vm_step_trans|by eapply keeps_trans].
Qed.
End Vm.
