(* ===== verification/VmSpace.v ===== *)
(** Whole address spaces over the page tables of Vm: mapping ranges, copying
    between kernel and user memory, and fork. *)
From S2P Require Import Prelude Memory Phys Vm.

Module VmSpace.
Import Phys Vm.

#[local] Opaque Mm.HOT_ZONE_PAGES Mm.HEAP_BASE Mm.page_used zero.

(** ** Frames *)
Lemma untouched_frame T s f b :
  vm_ok T s -> T !! f = None -> taken s f -> f <= b < f + 4096 -> untouched T s b.
Proof.
  intros Hs HT Ht Hb. destruct (taken_aligned _ _ Ht) as [Hf _]. destruct Ht as (i & Hi & -> & Hu). split.
  - intros t lab Hl Hbt. pose proof (label_aligned _ _ _ _ Hs Hl) as Ha.
    destruct (decide (t = page_of i)) as [->|Hne]; [congruence|].
    destruct (aligned_disjoint t _ Ha Hf Hne); lia.
  - intros k Hk Hfree Hbk.
    assert (Hne : page_of k <> page_of i) by (intros E; apply page_of_inj in E; congruence).
    unfold page_of, PAGE_SIZE in *. change Mm.PAGE_SIZE with 4096 in *. lia.
Qed.

(** A frame taken since [s0] that no table uses; its bytes are [bs]. *)
Record new_frame (s0 : vmst) (T : labels) (s : vmst) (f : Z) (bs : Z -> Z) : Prop := {
  nf_new : newly s0 s f;
  nf_label : T !! f = None;
  nf_bytes : forall k, 0 <= k < 4096 -> ld8 (pmem s) (f + k) = bs k
}.

Lemma new_frame_step s0 T s T' s' f bs :
  vm_ok T s -> vm_step T s T' s' -> new_frame s0 T s f bs -> new_frame s0 T' s' f bs.
Proof.
  intros Hs Hst [Hn Hl Hb]. split.
  - eapply newly_later; [done|apply (vs_mm _ _ _ _ Hst)].
  - destruct Hn as [(i & Hi & -> & Hu) _].
    assert (Hf : frame_ok T s (page_of i)).
    { split; [done|]. intros k Hk E. apply page_of_inj in E. by subst k. }
    by destruct (vm_step_frame_ok _ _ _ _ _ Hst Hf).
  - intros k Hk. rewrite (vs_mem _ _ _ _ Hst); [by apply Hb|].
    apply (untouched_frame T s f); [done..|by destruct Hn|lia].
Qed.

Lemma newly_frame_ok T s0 s f : T !! f = None -> newly s0 s f -> frame_ok T s f.
Proof.
  intros HT [(i & Hi & -> & Hu) _]. split; [done|]. intros k Hk E. apply page_of_inj in E. by subst k.
Qed.

Lemma alloc_page_table s : vm_alloc_page s = alloc_table s.
Proof. unfold vm_alloc_page, alloc_table. reflexivity. Qed.

Lemma alloc_page_frame T s s1 f :
  vm_ok T s -> vm_alloc_page s = (s1, Some f) ->
  vm_step T s T s1 /\ keeps T s s1 /\ new_frame s T s1 f (fun _ => 0).
Proof.
  intros Hs Ha. rewrite alloc_page_table in Ha.
  destruct (alloc_step T s s1 _ Hs Ha) as [S1 K1].
  destruct (alloc_table_spec T s s1 _ Hs Ha) as (_ & _ & _ & _ & _ & F).
  split; [exact S1|]. split; [exact K1|]. split.
  - apply (raw_newly T). by apply fresh_raw.
  - apply (fp_label _ _ _ _ F).
  - intros k Hk. apply (fp_zero _ _ _ _ F). lia.
Qed.

Lemma keeps_lookup T s T' s' c va :
  vm_ok T s -> vm_step T s T' s' -> keeps T s s' -> is_ctx T c -> lookup_va s' c va = lookup_va s c va.
Proof.
  intros Hs Hst Hk Hc. unfold lookup_va. rewrite (vm_step_pml4 _ _ _ _ _ Hst Hc).
  apply (walk_keeps T s s' Hs Hk 4 _ c 0); [by apply (vo_ctx _ _ Hs)|lia].
Qed.

Lemma step_ctx T s T' s' c : vm_step T s T' s' -> is_ctx T c -> is_ctx T' c.
Proof. intros Hst Hc. exact (lookup_weaken _ _ _ _ Hc (vs_sub _ _ _ _ Hst)). Qed.

Definition flag_perms (flags : Z) : bool * bool * bool :=
  (Z.testbit flags 3, Z.testbit flags 1, Z.testbit flags 2).

Lemma page_aligned_land a : a mod 4096 = 0 -> (Z.land a 0xFFF =? 0) = true.
Proof. intros H. change 0xFFF with (Z.ones 12). rewrite Z.land_ones by lia. change (2 ^ 12) with 4096. by rewrite H. Qed.

(** ** vm_map *)

(** The pages [a], [a + 4096], ... are mapped to fresh zeroed frames. *)
Definition mapped_run (s0 : vmst) (T : labels) (s : vmst) (ctx a flags : Z) (fs : list Z) : Prop :=
  NoDup fs /\ Forall (fun f => new_frame s0 T s f (fun _ => 0)) fs /\
  forall i f, fs !! i = Some f -> forall va, vpn va = vpn (a + Z.of_nat i * 4096) ->
    lookup_va s ctx va = Some (f + va mod 4096, flag_perms flags).

(** [va] is in none of the [n] pages from [a]. *)
Definition off_run (a : Z) (n : nat) (va : Z) : Prop :=
  forall i, (i < n)%nat -> vpn va <> vpn (a + Z.of_nat i * 4096).

Lemma vpn_small va : 0 <= va < 2 ^ 48 -> vpn va = va / 4096.
Proof.
  intros H. unfold vpn. apply Z.mod_small. split; [apply Z.div_pos; lia|].
  apply Z.div_lt_upper_bound; [lia|]. change (512 ^ 4) with (2 ^ 36). lia.
Qed.

Lemma vm_map_loop_spec n T s ctx a flags :
  vm_ok T s -> is_ctx T ctx -> a mod 4096 = 0 -> 0 <= a -> a + Z.of_nat n * 4096 <= 2 ^ 48 ->
  let '(s', r) := vm_map_loop n ctx a flags s in
  exists T', vm_step T s T' s' /\ (r = 0 \/ r = -1) /\
    (forall c va, is_ctx T c -> (c = ctx -> off_run a n va) -> lookup_va s' c va = lookup_va s c va) /\
    (r = 0 -> exists fs, length fs = n /\ mapped_run s T' s' ctx a flags fs).
Proof.
  revert T s a. induction n as [|n IH]; intros T s a Hs Hc Ha Ha0 Hend; cbn [vm_map_loop].
  { exists T. split; [by apply vm_step_refl|]. split; [by left|]. split; [done|]. intros _. exists [].
    split; [done|]. split; [constructor|]. split; [constructor|]. done. }
  destruct (vm_alloc_page s) as [s1 [f|]] eqn:A.
  2: { rewrite alloc_page_table in A. destruct (alloc_step T s s1 _ Hs A) as [S1 K1].
       exists T. split; [done|]. split; [by right|]. split; [|done]. intros c va Hcc _.
       by apply (keeps_lookup T s T s1). }
  destruct (alloc_page_frame T s s1 f Hs A) as (S1 & K1 & F).
  pose proof (vs_ok _ _ _ _ S1) as Hs1. pose proof (step_ctx _ _ _ _ _ S1 Hc) as Hc1.
  destruct (taken_aligned _ _ (proj1 (nf_new _ _ _ _ _ F))) as [Af _].
  assert (Hfr : frame_ok T s1 (P_ADDR f)).
  { rewrite (P_ADDR_id f Af). apply (newly_frame_ok T s); [apply (nf_label _ _ _ _ _ F)|apply (nf_new _ _ _ _ _ F)]. }
  pose proof (vm_map_page_spec T s1 ctx a f flags Hs1 Hc1 (fun _ => Hfr)) as M.
  destruct (vm_map_page ctx a f flags s1) as [s2 r]. cbn [fst snd] in M.
  destruct M as (T2 & S2 & Hr & _ & Hsame & Hmap).
  pose proof (vm_step_trans _ _ _ _ _ _ S1 S2) as S12.
  assert (Hlk : forall c va, is_ctx T c -> (r = 0 -> c = ctx -> vpn va <> vpn a) ->
    lookup_va s2 c va = lookup_va s c va).
  { intros c va Hcc Hne. rewrite Hsame; [|by eapply step_ctx|done]. by apply (keeps_lookup T s T s1). }
  destruct Hr as [-> | ->]; cbn [Z.ltb Z.compare].
  2: { exists T2. split; [done|]. split; [by right|]. split; [|done]. intros c va Hcc _. by apply Hlk. }
  pose proof (vs_ok _ _ _ _ S2) as Hs2. pose proof (step_ctx _ _ _ _ _ S2 Hc1) as Hc2.
  change PAGE_SIZE with 4096.
  specialize (IH T2 s2 (a + 4096) Hs2 Hc2 ltac:(by rewrite <- Zplus_mod_idemp_l, Ha) ltac:(lia) ltac:(lia)).
  destruct (vm_map_loop n ctx (a + 4096) flags s2) as [s3 r3].
  destruct IH as (T3 & S3 & Hr3 & Hsame3 & Hrun).
  exists T3. split; [by eapply vm_step_trans|]. split; [exact Hr3|]. split.
  - intros c va Hcc Hoff. rewrite Hsame3; [|by eapply step_ctx|].
    + apply Hlk; [done|]. intros _ Ec. specialize (Hoff Ec 0%nat ltac:(lia)).
      by rewrite Z.mul_0_l, Z.add_0_r in Hoff.
    + intros Ec i Hi. specialize (Hoff Ec (S i) ltac:(lia)).
      by replace (a + Z.of_nat (S i) * 4096) with (a + 4096 + Z.of_nat i * 4096) in Hoff by lia.
  - intros E3. destruct (Hrun E3) as (fs & Hlen & Hnd & HF & Hlook).
    pose proof (new_frame_step _ _ _ _ _ _ _ Hs1 S2 F) as F2.
    exists (f :: fs). split; [by cbn; f_equal|]. split; [|split].
    + constructor; [|done]. intros Hin. rewrite Forall_forall in HF. destruct (HF f Hin) as [[_ Hn] _ _].
      apply Hn. by destruct F2 as [[H _] _ _].
    + constructor; [by apply (new_frame_step _ T2 s2)|]. eapply Forall_impl; [exact HF|].
      intros g [Hg1 Hg2 Hg3]. split; [|done..]. eapply newly_mono; [done|]. apply (vs_mm _ _ _ _ S12).
    + intros [|i] g Hg va Hva; cbn in Hg.
      * injection Hg as <-. rewrite Z.mul_0_l, Z.add_0_r in Hva. rewrite Hsame3; [|done|].
        -- destruct (Hmap eq_refl va Hva) as [-> _]. by rewrite (P_ADDR_id f Af).
        -- intros _ i Hi. rewrite Hva, !vpn_small by lia.
           replace (a + 4096 + Z.of_nat i * 4096) with (a + (1 + Z.of_nat i) * 4096) by lia.
           rewrite Z_div_plus_full by lia. lia.
      * apply (Hlook i g Hg). rewrite Hva. f_equal. lia.
Qed.

Lemma page_down_eq x : page_down x = x / 4096 * 4096.
Proof.
  unfold page_down. change 0xFFF with (Z.ones 12). rewrite <- Z.ldiff_land, Z.ldiff_ones_r by lia.
  rewrite Z.shiftl_mul_pow2, Z.shiftr_div_pow2 by lia. done.
Qed.

(** ** One page at a time *)
Lemma page_div va k : 0 <= k -> va mod 4096 + k < 4096 -> (va + k) / 4096 = va / 4096.
Proof.
  intros Hk H. pose proof (Z_div_mod_eq_full va 4096). pose proof (Z.mod_pos_bound va 4096 ltac:(lia)).
  symmetry. apply Z.div_unique with (va mod 4096 + k); lia.
Qed.

Lemma shift_split l : (1 <= l)%nat -> 2 ^ shift l = 4096 * 2 ^ (9 * (Z.of_nat l - 1)).
Proof. intros Hl. unfold shift. rewrite Z.pow_add_r by lia. done. Qed.

Lemma page_idx l va k : (1 <= l)%nat -> 0 <= k -> va mod 4096 + k < 4096 -> idx l (va + k) = idx l va.
Proof.
  intros Hl Hk H. unfold idx. rewrite shift_split by done.
  rewrite <- !Z.div_div by (try lia; apply Z.pow_pos_nonneg; lia). by rewrite page_div.
Qed.

Lemma page_mod l va k : (1 <= l)%nat -> 0 <= k -> va mod 4096 + k < 4096 ->
  (va + k) mod 2 ^ shift l = va mod 2 ^ shift l + k.
Proof.
  intros Hl Hk H. rewrite shift_split by done.
  set (w := 2 ^ (9 * (Z.of_nat l - 1))). assert (Hw : 0 < w) by (apply Z.pow_pos_nonneg; lia).
  rewrite !Z.rem_mul_r by lia. rewrite page_div by done.
  pose proof (Z_div_mod_eq_full va 4096). pose proof (Z_div_mod_eq_full (va + k) 4096) as E.
  rewrite page_div in E by done. lia.
Qed.

Lemma lookup_in_page s ctx va k :
  0 <= k -> va mod 4096 + k < 4096 ->
  lookup_va s ctx (va + k) =
  match lookup_va s ctx va with Some (pa, pm) => Some (pa + k, pm) | None => None end.
Proof.
  intros Hk H. unfold lookup_va. generalize (pml4_phys s ctx) as t. generalize 4%nat as l.
  induction l as [|l IH]; intros t; [done|]. rewrite !walk_S. cbv zeta.
  rewrite page_idx by (done || lia). destruct (present _); cbn [negb]; [|done].
  destruct (is_leaf _ _); [|apply IH]. rewrite page_mod by (done || lia). do 2 f_equal. lia.
Qed.

Lemma translate_in_page s ctx va k :
  0 <= k -> va mod 4096 + k < 4096 -> vm_translate s ctx va <> 0 ->
  vm_translate s ctx (va + k) = vm_translate s ctx va + k.
Proof.
  intros Hk H. rewrite !vm_translate_walk, lookup_in_page by done.
  by destruct (lookup_va s ctx va) as [[pa pm]|].
Qed.

Lemma chunk_bounds va n : 0 < n ->
  let c := chunk va n in 0 < c <= n /\ va mod 4096 + c <= 4096.
Proof.
  intros Hn. unfold chunk. change 0xFFF with (Z.ones 12). rewrite Z.land_ones by lia.
  change (2 ^ 12) with 4096. change PAGE_SIZE with 4096.
  pose proof (Z.mod_pos_bound va 4096 ltac:(lia)). cbv zeta. lia.
Qed.

Lemma u64_in_page x k : 0 <= k -> u64 x mod 4096 + k < 4096 -> u64 (x + k) = u64 x + k.
Proof.
  intros Hk H. rewrite <- u64_add_l. apply u64_small. pose proof (u64_range x).
  assert (E : u64 x = u64 x / 4096 * 4096 + u64 x mod 4096) by (pose proof (Z_div_mod_eq_full (u64 x) 4096); lia).
  assert (u64 x / 4096 < 2 ^ 52) by (apply Z.div_lt_upper_bound; lia). lia.
Qed.

(** ** Copies *)

(** Where byte [b] of the user buffer at [vaddr] lives. *)
Definition tr (s : vmst) (ctx vaddr b : Z) : Z := vm_translate s ctx (u64 (vaddr + b)).

(** A user buffer of [len] bytes: mapped, off the page tables, no byte twice. *)
Record user_buffer (T : labels) (s : vmst) (ctx vaddr len : Z) : Prop := {
  ub_mapped : forall b, 0 <= b < len -> tr s ctx vaddr b <> 0;
  ub_clear : forall b t lab, 0 <= b < len -> T !! t = Some lab -> ~ (t <= tr s ctx vaddr b < t + 4096);
  ub_inj : forall b b', 0 <= b < len -> 0 <= b' < len -> tr s ctx vaddr b = tr s ctx vaddr b' -> b = b'
}.

Lemma tr_u64 s ctx vaddr n b : tr s ctx (u64 vaddr + n) b = tr s ctx vaddr (n + b).
Proof. unfold tr. rewrite <- Z.add_assoc, u64_add_l. done. Qed.

Lemma tr_chunk s ctx vaddr k :
  0 <= k -> u64 vaddr mod 4096 + k < 4096 -> tr s ctx vaddr 0 <> 0 ->
  tr s ctx vaddr k = tr s ctx vaddr 0 + k.
Proof.
  unfold tr. rewrite Z.add_0_r. intros Hk H Hne. rewrite u64_in_page by done. by apply translate_in_page.
Qed.

(** Two states with the same memory in the tables of [T]. *)
Lemma keeps_ok T s s' :
  vm_ok T s -> keeps T s s' -> pmm s' = pmm s -> vm_ok T s'.
Proof.
  intros Hs Hk E. apply (vm_ok_keeps T s); try done; rewrite E; [apply (vo_mm _ _ Hs)|apply Mm.extends_refl].
Qed.

Lemma keeps_translate T s s' c va :
  vm_ok T s -> keeps T s s' -> is_ctx T c -> vm_translate s' c va = vm_translate s c va.
Proof.
  intros Hs Hk Hc. rewrite !vm_translate_walk. unfold lookup_va.
  rewrite !pml4_entry, (Hk c _ 0 Hc) by lia. rewrite <- pml4_entry.
  rewrite (walk_keeps T s s' Hs Hk 4 _ c 0); [done|by apply (vo_ctx _ _ Hs)|lia].
Qed.

Lemma clear_keeps T s s' :
  (forall a, ld8 (pmem s') a <> ld8 (pmem s) a -> forall t lab, T !! t = Some lab -> ~ (t <= a < t + 4096)) ->
  keeps T s s'.
Proof.
  intros H t lab i Ht Hi. apply entry_ext. intros b Hb. unfold slot in Hb.
  destruct (Z.eq_dec (ld8 (pmem s') b) (ld8 (pmem s) b)) as [|Hne]; [done|].
  destruct (H b Hne t lab Ht). lia.
Qed.

Definition copied_to (T : labels) (s : vmst) (ctx vaddr : Z) (src : list Z) (s' : vmst) : Prop :=
  pmm s' = pmm s /\ cr3 s' = cr3 s /\ sig_stub_page s' = sig_stub_page s /\ keeps T s s' /\
  (forall b, 0 <= b < Z.of_nat (length src) -> ld8 (pmem s') (tr s ctx vaddr b) = aget src b) /\
  (forall a, (forall b, 0 <= b < Z.of_nat (length src) -> a <> tr s ctx vaddr b) ->
     ld8 (pmem s') a = ld8 (pmem s) a).

Lemma aget_drop {A} `{Inhabited A} (l : list A) n b : 0 <= b -> aget (drop n l) b = aget l (Z.of_nat n + b).
Proof. intros Hb. unfold aget. rewrite lookup_total_drop. f_equal. lia. Qed.

Lemma aget_take {A} `{Inhabited A} (l : list A) n b : 0 <= b < Z.of_nat n -> aget (take n l) b = aget l b.
Proof.
  intros Hb. unfold aget. rewrite !list_lookup_total_alt, lookup_take by lia.
  by rewrite decide_True by lia.
Qed.

Lemma copy_to_loop_spec T ctx fuel : forall va src s,
  vm_ok T s -> is_ctx T ctx -> user_buffer T s ctx va (Z.of_nat (length src)) ->
  (length src <= fuel)%nat -> Forall (fun x => 0 <= x < 256) src ->
  (copy_to_loop fuel ctx va src s).2 = 0 /\
  copied_to T s ctx va src (copy_to_loop fuel ctx va src s).1.
Proof.
  induction fuel as [|f IH]; intros va src s Hs Hc Hub Hlen Hbytes.
  { destruct src; [|simpl in Hlen; lia]. split; [done|]. split_and!; try done. simpl. lia. }
  destruct src as [|x src'] eqn:Esrc.
  { split; [done|]. split_and!; try done. simpl. lia. }
  rewrite <- Esrc in *. assert (Hpos : 0 < Z.of_nat (length src)) by (rewrite Esrc; simpl; lia).
  assert (Eloop : copy_to_loop (S f) ctx va src s =
    let va := u64 va in
    let phys := vm_translate s ctx va in
    if phys =? 0 then (s, -1) else
    let n := Z.to_nat (chunk va (Z.of_nat (length src))) in
    copy_to_loop f ctx (va + Z.of_nat n) (drop n src)
      (s <| pmem := st_bytes (pmem s) phys (take n src) |>)) by (rewrite Esrc; done).
  rewrite Eloop. clear Eloop x src' Esrc. cbv zeta.
  set (len := Z.of_nat (length src)) in *. set (c := chunk (u64 va) len).
  destruct (chunk_bounds (u64 va) len Hpos) as [Hc1 Hc2]. fold c in Hc1, Hc2.
  assert (E0 : vm_translate s ctx (u64 va) = tr s ctx va 0) by (unfold tr; by rewrite Z.add_0_r).
  rewrite E0. set (phys := tr s ctx va 0). pose proof (ub_mapped _ _ _ _ _ Hub 0 ltac:(lia)) as Hp. fold phys in Hp.
  rewrite (proj2 (Z.eqb_neq _ _) Hp).
  assert (Htr : forall k, 0 <= k < c -> tr s ctx va k = phys + k).
  { intros k Hk. apply tr_chunk; [lia|lia|exact Hp]. }
  set (n := Z.to_nat c). assert (En : Z.of_nat n = c) by (unfold n; lia). rewrite En.
  set (s1 := s <| pmem := _ |>).
  assert (Hm1 : forall a, ld8 (pmem s1) a =
    if decide (phys <= a < phys + c) then aget src (a - phys) else ld8 (pmem s) a).
  { intros a. change (pmem s1) with (st_bytes (pmem s) phys (take n src)).
    rewrite ld8_st_bytes by (by apply Forall_take). rewrite length_take.
    replace (Z.of_nat (n `min` length src)) with c by (unfold len in *; lia).
    destruct (decide _); [|done]. apply aget_take. lia. }
  assert (E1 : pmm s1 = pmm s /\ cr3 s1 = cr3 s /\ sig_stub_page s1 = sig_stub_page s) by done.
  destruct E1 as (E1 & E2 & E3). clearbody s1.
  assert (Hk1 : keeps T s s1).
  { apply clear_keeps. intros a Hne. rewrite Hm1 in Hne. destruct (decide _) as [Ha|]; [|done].
    intros t lab Ht. replace a with (tr s ctx va (a - phys)) by (rewrite Htr by lia; lia).
    apply (ub_clear _ _ _ _ _ Hub _ _ lab); [lia|done]. }
  assert (Hs1 : vm_ok T s1) by by apply (keeps_ok T s).
  assert (Htr1 : forall b, tr s1 ctx (u64 va + c) b = tr s ctx va (c + b)).
  { intros b. rewrite tr_u64. unfold tr. by apply (keeps_translate T). }
  assert (Hl2 : Z.of_nat (length (drop n src)) = len - c) by (rewrite length_drop; unfold len in *; lia).
  destruct (IH (u64 va + c) (drop n src) s1 Hs1 Hc) as [Hr (F1 & F2 & F3 & Fk & Fb & Fo)].
  { rewrite Hl2. split.
    - intros b Hb. rewrite Htr1. apply (ub_mapped _ _ _ _ _ Hub). lia.
    - intros b t lab Hb. rewrite Htr1. apply (ub_clear _ _ _ _ _ Hub). lia.
    - intros b b' Hb Hb'. rewrite !Htr1. intros E. apply (ub_inj _ _ _ _ _ Hub) in E; lia. }
  { rewrite length_drop. lia. }
  { by apply Forall_drop. }
  split; [exact Hr|]. split; [congruence|]. split; [congruence|]. split; [congruence|].
  split; [by eapply keeps_trans|]. rewrite Hl2 in Fb, Fo. split.
  - intros b Hb. destruct (Z_lt_le_dec b c) as [Hlt|Hge].
    + rewrite Fo.
      * rewrite Htr, Hm1 by lia. rewrite decide_True by lia. f_equal. lia.
      * intros b' Hb'. rewrite Htr1. intros E. apply (ub_inj _ _ _ _ _ Hub) in E; lia.
    + specialize (Fb (b - c) ltac:(lia)). rewrite Htr1 in Fb. replace (c + (b - c)) with b in Fb by lia.
      rewrite Fb, aget_drop by lia. f_equal. lia.
  - intros a Ha. rewrite Fo.
    + rewrite Hm1. rewrite decide_False; [done|]. intros Hin.
      apply (Ha (a - phys)); [lia|]. rewrite Htr by lia. lia.
    + intros b Hb. rewrite Htr1. apply Ha. lia.
Qed.

Lemma copy_from_loop_spec ctx s fuel : forall va len,
  0 <= len -> (Z.to_nat len <= fuel)%nat -> (forall b, 0 <= b < len -> tr s ctx va b <> 0) ->
  copy_from_loop fuel ctx va len s = Some ((fun b => ld8 (pmem s) (tr s ctx va b)) <$> zrange (Z.to_nat len)).
Proof.
  induction fuel as [|f IH]; intros va len Hl Hf Hm.
  { assert (len = 0) as -> by lia. done. }
  cbn [copy_from_loop]. destruct (Z.leb_spec len 0) as [H0|Hpos].
  { assert (len = 0) as -> by lia. done. }
  destruct (chunk_bounds (u64 va) len Hpos) as [Hc1 Hc2]. cbv zeta. set (c := chunk (u64 va) len) in *.
  assert (E0 : vm_translate s ctx (u64 va) = tr s ctx va 0) by (unfold tr; by rewrite Z.add_0_r).
  rewrite E0. rewrite (proj2 (Z.eqb_neq _ _) (Hm 0 ltac:(lia))).
  rewrite (IH (u64 va + c) (len - c)); [|lia|lia|].
  2: { intros b Hb. rewrite tr_u64. apply Hm. lia. }
  cbn [mbind option_bind]. f_equal.
  replace (Z.to_nat len) with (Z.to_nat c + Z.to_nat (len - c))%nat by lia.
  unfold ld_bytes, zrange. rewrite seq_app, !fmap_app, <- !list_fmap_compose. f_equal.
  - apply list_fmap_ext. intros i k Hk. apply list_elem_of_lookup_2, elem_of_seq in Hk. unfold compose.
    rewrite (tr_chunk s ctx va (Z.of_nat k)); [done|lia|lia|]. apply Hm. lia.
  - apply list_eq. intros i. rewrite !list_lookup_fmap.
    destruct (decide (i < Z.to_nat (len - c))%nat) as [Hi|Hi].
    + rewrite !lookup_seq_lt by done. cbn [fmap option_fmap option_map]. unfold compose. rewrite tr_u64.
      assert (E : c + Z.of_nat (0 + i) = Z.of_nat (0 + Z.to_nat c + i)) by lia. rewrite E. reflexivity.
    + rewrite !lookup_seq_ge by lia. done.
Qed.

(** ** vm_fork *)

(** A frame the user holds is out of reach of every step. *)
Lemma frame_untouched T s f b :
  vm_ok T s -> aligned f -> frame_ok T s f -> f <= b < f + 4096 -> untouched T s b.
Proof.
  intros Hs Af [HT Hu] Hb. split.
  - intros t lab Hl Hbt. pose proof (label_aligned _ _ _ _ Hs Hl) as Ha.
    destruct (decide (t = f)) as [->|Hne]; [congruence|]. destruct (aligned_disjoint t f Ha Af Hne); lia.
  - intros k Hk Hfree Hbk.
    assert (Hak : (page_of k) mod 4096 = 0).
    { unfold page_of, PAGE_SIZE. change Mm.HEAP_BASE with (2048 * 4096). change Mm.PAGE_SIZE with 4096.
      rewrite <- Z.mul_add_distr_r. apply Z_mod_mult. }
    destruct Af as [Af _]. pose proof (Z_div_mod_eq_full (page_of k) 4096). pose proof (Z_div_mod_eq_full f 4096).
    assert (E : f = page_of k) by lia. specialize (Hu k Hk E). congruence.
Qed.

(** The user page of [ctx] at page number [n]: its frame, W and X. *)
Definition user_leaf (s : vmst) (ctx n : Z) : option (Z * bool * bool) :=
  match lookup_va s ctx (n * 4096) with
  | Some (pa, (true, w, x)) => Some (pa, w, x)
  | _ => None
  end.

Lemma lor_add a b k : 0 <= k -> 0 <= a -> 0 <= b < 2 ^ k -> Z.lor (Z.shiftl a k) b = a * 2 ^ k + b.
Proof.
  intros Hk Ha Hb. rewrite <- Z.shiftl_mul_pow2 by done. rewrite Z.add_nocarry_lor; [done|].
  apply Z.bits_inj'. intros i Hi. rewrite Z.land_spec, Z.bits_0.
  destruct (Z_lt_le_dec i k).
  - by rewrite Z.shiftl_spec_low.
  - by rewrite (testbit_high b k), andb_false_r by done.
Qed.

Lemma fork_vaddr_eq i4 i3 i2 i1 :
  0 <= i4 < 512 -> 0 <= i3 < 512 -> 0 <= i2 < 512 -> 0 <= i1 < 512 ->
  fork_vaddr i4 i3 i2 i1 = (((i4 * 512 + i3) * 512 + i2) * 512 + i1) * 4096.
Proof.
  intros H4 H3 H2 H1. unfold fork_vaddr. rewrite <- !Z.lor_assoc.
  rewrite (Z.shiftl_mul_pow2 i1) by lia. rewrite (lor_add i2) by lia.
  rewrite (lor_add i3) by lia. rewrite (lor_add i4) by lia. lia.
Qed.

Lemma vpn_page n : 0 <= n < 512 ^ 4 -> vpn (n * 4096) = n.
Proof. intros H. unfold vpn. rewrite Z.div_mul by lia. by apply Z.mod_small. Qed.

Lemma flags_from_pte_spec e :
  flag_perms (vm_flags_from_pte e) = (true, writable e, negb (nx e)).
Proof. unfold flag_perms, vm_flags_from_pte. by destruct (writable e), (nx e). Qed.

Section Fork.
  (** The call: state [s0] with labels [T0], the parent, and the state after
      [vm_create] returned [child]. *)
  Context (T0 : labels) (s0 : vmst) (parent : Z) (T1 : labels) (s1 : vmst) (child : Z).
  Hypothesis (Hs0 : vm_ok T0 s0) (Hp : is_ctx T0 parent).
  Hypothesis (Hst : vm_step T0 s0 T1 s1) (Hk01 : keeps T0 s0 s1).
  Hypothesis (Hc1 : is_ctx T1 child) (Hc0 : T0 !! child = None).

Lemma parent_child : parent <> child.
Proof. intros E. unfold is_ctx in Hp. congruence. Qed.

(** The pages copied so far: page number to frame. *)
Definition copied (F : gmap Z Z) (N : Z) (T : labels) (s : vmst) : Prop :=
  (forall n f, F !! n = Some f -> 0 <= n < N /\ exists pa w x, user_leaf s0 parent n = Some (pa, w, x) /\
     new_frame s0 T s f (fun k => ld8 (pmem s0) (pa + k)) /\
     forall va, vpn va = n -> lookup_va s child va = Some (f + va mod 4096, (true, w, x))) /\
  (forall n r, 0 <= n < N -> user_leaf s0 parent n = Some r -> is_Some (F !! n)) /\
  (forall n n' f, F !! n = Some f -> F !! n' = Some f -> n = n') /\
  (forall va, F !! vpn va = None -> lookup_va s child va = lookup_va s1 child va).

(** Every page below number [N] has been dealt with. *)
Definition forked (N : Z) (T : labels) (s : vmst) : Prop :=
  vm_step T1 s1 T s /\ others_keep T1 child s1 s /\
  (forall c va, is_ctx T1 c -> c <> child -> lookup_va s c va = lookup_va s1 c va) /\
  exists F, copied F N T s.

(** What a piece of the loop establishes. *)
Definition good (N : Z) (r : vmst * bool) : Prop :=
  exists T, vm_step T1 s1 T r.1 /\
    (forall c va, is_ctx T1 c -> c <> child -> lookup_va r.1 c va = lookup_va s1 c va) /\
    (r.2 = true -> forked N T r.1).

Lemma forked_good N T s : forked N T s -> good N (s, true).
Proof.
  intros H. exists T. pose proof H as (H1 & _ & H3 & _). split; [exact H1|]. split; [exact H3|]. intros _. exact H.
Qed.

Lemma forked_skip N N' T s :
  N <= N' -> forked N T s -> (forall n, N <= n < N' -> user_leaf s0 parent n = None) -> forked N' T s.
Proof.
  intros HN (H1 & H2 & H3 & F & F1 & F2 & F3 & F4) Hno. split; [done|]. split; [done|]. split; [done|].
  exists F. split; [|split; [|done]].
  - intros n f Hn. destruct (F1 n f Hn) as [Hr Hx]. split; [lia|done].
  - intros n r Hn Hr. destruct (Z_lt_le_dec n N); [apply (F2 n r); [lia|done]|]. rewrite Hno in Hr by lia. done.
Qed.

(** The parent's tables are still those of [s0]. *)
Lemma parent_entry N T s t l p i :
  forked N T s -> T0 !! t = Some (parent, l, p) -> 0 <= i < 512 -> entry s t i = entry s0 t i.
Proof.
  intros (_ & Ho & _) Ht Hi. rewrite <- (Hk01 t _ i Ht Hi).
  exact (Ho t parent l p i (lookup_weaken _ _ _ _ Ht (vs_sub _ _ _ _ Hst)) parent_child Hi).
Qed.

Lemma for_each_good (body : Z -> vmst -> vmst * bool) (N : Z -> Z) :
  (forall i T s, 0 <= i < 512 -> forked (N i) T s -> good (N (i + 1)) (body i s)) ->
  forall T s, forked (N 0) T s -> good (N 512) (for_each (zrange 512) body s).
Proof.
  intros Hbody.
  assert (Hgen : forall k j T s, (k + j = 512)%nat -> forked (N (Z.of_nat j)) T s ->
    good (N 512) (for_each (Z.of_nat <$> seq j k) body s)).
  { induction k as [|k IH]; intros j T s Hkj Hf.
    - cbn. apply (forked_good _ T). by replace 512 with (Z.of_nat j) by lia.
    - cbn [seq fmap list_fmap for_each]. specialize (Hbody (Z.of_nat j) T s ltac:(lia) Hf).
      destruct (body (Z.of_nat j) s) as [s' [|]]; destruct Hbody as (T' & B1 & B2 & B3); cbn [fst snd] in *.
      + apply (IH (S j) T'); [lia|]. rewrite Nat2Z.inj_succ. by apply B3.
      + exists T'. by split. }
  intros T s Hf. by apply (Hgen 512%nat 0%nat T).
Qed.

(** Table [t] of the parent holds the pages with prefix [p]. *)
Definition covers (l : nat) (t p : Z) : Prop :=
  T0 !! t = Some (parent, l, p) /\ (l <= 4)%nat /\ 0 <= p /\
  forall n, p * 512 ^ Z.of_nat l <= n < (p + 1) * 512 ^ Z.of_nat l ->
    lookup_va s0 parent (n * 4096) = walk s0 l t (n * 4096).

Lemma covers_idx l p i n :
  0 <= i < 512 -> (p * 512 + i) * 512 ^ Z.of_nat l <= n < (p * 512 + i + 1) * 512 ^ Z.of_nat l ->
  idx (S l) (n * 4096) = i /\ p * 512 ^ Z.of_nat (S l) <= n < (p + 1) * 512 ^ Z.of_nat (S l).
Proof.
  intros Hi Hn. set (w := 512 ^ Z.of_nat l) in *. assert (Hw : 0 < w) by (apply Z.pow_pos_nonneg; lia).
  assert (Ew : 512 ^ Z.of_nat (S l) = 512 * w) by (rewrite Nat2Z.inj_succ, Z.pow_succ_r by lia; done).
  rewrite Ew. split; [|nia]. unfold idx. rewrite shift_split by lia.
  replace (9 * (Z.of_nat (S l) - 1)) with (9 * Z.of_nat l) by lia. rewrite Z.pow_mul_r by lia.
  change (2 ^ 9) with 512. fold w. rewrite <- Z.div_div by lia. rewrite Z.div_mul by lia.
  assert (E : n / w = p * 512 + i) by (symmetry; apply Z.div_unique with (n - (p * 512 + i) * w); lia).
  rewrite E. rewrite Z.add_comm, Z_mod_plus_full. by apply Z.mod_small.
Qed.

(** One of the three upper loops: skip the entry, or run [inner] below it. *)
Lemma level_good l t p i (inner : Z -> vmst -> vmst * bool) (NN : Z -> Z) :
  (1 <= l)%nat -> covers (S l) t p -> 0 <= i < 512 ->
  (forall j, NN j = ((p * 512 + i) * 512 + j) * 512 ^ (Z.of_nat l - 1)) ->
  (covers l (P_ADDR (entry s0 t i)) (p * 512 + i) ->
   forall j T s, 0 <= j < 512 -> forked (NN j) T s -> good (NN (j + 1)) (inner j s)) ->
  forall T s, forked ((p * 512 + i) * 512 ^ Z.of_nat l) T s ->
    good ((p * 512 + i + 1) * 512 ^ Z.of_nat l)
      (if negb (present (entry s t i)) || huge (entry s t i) then (s, true)
       else for_each (zrange 512) inner s).
Proof.
  intros Hl (Ht & Hl4 & Hp0 & Hcov) Hi HNN Hinner T s Hf.
  rewrite (parent_entry _ _ _ _ _ _ i Hf Ht Hi). set (e := entry s0 t i) in *.
  assert (Hwalk : forall n, (p * 512 + i) * 512 ^ Z.of_nat l <= n < (p * 512 + i + 1) * 512 ^ Z.of_nat l ->
    lookup_va s0 parent (n * 4096) = if negb (present e) then None
      else if is_leaf (S l) e then Some (P_ADDR e + (n * 4096) mod 2 ^ shift (S l), perms e)
      else walk s0 l (P_ADDR e) (n * 4096)).
  { intros n Hn. destruct (covers_idx l p i n Hi Hn) as [Ei Hn']. rewrite (Hcov n Hn'), walk_S. cbv zeta.
    by rewrite Ei. }
  pose proof (vo_entry _ _ Hs0 t parent (S l) p i Ht ltac:(lia) Hi) as Hok. fold e in Hok.
  assert (HokS : if is_leaf (S l) e then huge_ok (S l) e
    else huge e = false /\ (present e = true -> T0 !! P_ADDR e = Some (parent, l, p * 512 + i))).
  { destruct l as [|l']; [lia|]. exact Hok. }
  destruct (negb (present e) || huge e) eqn:Eskip.
  - apply (forked_good _ T). apply (forked_skip ((p * 512 + i) * 512 ^ Z.of_nat l) _ T s); [nia|done|].
    intros n Hn. unfold user_leaf. rewrite (Hwalk n Hn).
    destruct (present e) eqn:Ep; cbn [negb orb] in *; [|done].
    destruct (is_leaf (S l) e); [|destruct HokS; congruence].
    destruct HokS as (_ & _ & Hu & _). unfold perms. by rewrite Hu.
  - apply orb_false_iff in Eskip as [Ep Eh]. apply negb_false_iff in Ep.
    destruct (is_leaf (S l) e) eqn:El.
    { exfalso. destruct l as [|[|[|]]]; cbn [is_leaf] in El; try lia; try congruence. }
    destruct HokS as [_ Hch]. specialize (Hch Ep).
    assert (Hcov' : covers l (P_ADDR e) (p * 512 + i)).
    { split; [done|]. split; [lia|]. split; [lia|]. intros n Hn. rewrite (Hwalk n Hn). by rewrite Ep. }
    assert (Ew : 512 ^ Z.of_nat l = 512 * 512 ^ (Z.of_nat l - 1)).
    { rewrite <- Z.pow_succ_r by lia. f_equal. lia. }
    replace ((p * 512 + i + 1) * 512 ^ Z.of_nat l) with (NN 512) by (rewrite HNN, Ew; lia).
    apply (for_each_good inner NN (Hinner Hcov') T).
    by replace (NN 0) with ((p * 512 + i) * 512 ^ Z.of_nat l) by (rewrite HNN, Ew; lia).
Qed.

Lemma page_leaf t p i :
  covers 1 t p -> 0 <= i < 512 ->
  user_leaf s0 parent (p * 512 + i) =
  (let e := entry s0 t i in
   if present e && user e then Some (P_ADDR e, writable e, negb (nx e)) else None).
Proof.
  intros (Ht & _ & Hp0 & Hcov) Hi. unfold user_leaf.
  destruct (covers_idx 0 p i (p * 512 + i) Hi) as [Ei Hn].
  { change (512 ^ Z.of_nat 0) with 1. lia. }
  rewrite (Hcov _ Hn), walk_S. cbv zeta. rewrite Ei. set (e := entry s0 t i).
  destruct (present e); cbn [negb andb]; [|done]. cbn [is_leaf]. unfold perms.
  change (2 ^ shift 1) with 4096. rewrite Z_mod_mult, Z.add_0_r. by destruct (user e).
Qed.

(** Copying a user page into a fresh frame. *)
Lemma copy_frame N T s sa np f :
  forked N T s -> vm_alloc_page s = (sa, Some np) -> aligned f -> frame_ok T0 s0 f ->
  let sb := vm_copy np f PAGE_SIZE sa in
  vm_step T s T sb /\ keeps T s sb /\ newly s sb np /\
  new_frame s0 T sb np (fun k => ld8 (pmem s0) (f + k)).
Proof.
  intros Hf Ha Af Hfr sb. destruct Hf as (V & _).
  pose proof (vm_step_trans _ _ _ _ _ _ Hst V) as V0. pose proof (vs_ok _ _ _ _ V0) as Hs.
  destruct (alloc_page_frame T s sa np Hs Ha) as (Sa & Ka & [Nn Nl _]).
  pose proof (vm_step_trans _ _ _ _ _ _ V0 Sa) as V0a.
  destruct (taken_aligned _ _ (proj1 Nn)) as [An _].
  assert (Hne : f <> np).
  { intros ->. pose proof (vm_step_frame_ok _ _ _ _ _ V0 Hfr) as [_ Hu]. destruct Nn as [(k & Hk & E & _) Hn].
    apply Hn. exists k. auto. }
  assert (Hmem : forall b, ld8 (pmem sb) b =
    if decide (np <= b < np + 4096) then ld8 (pmem sa) (f + (b - np)) else ld8 (pmem sa) b).
  { intros b. change (pmem sb) with (copy (pmem sa) np f 4096). rewrite ld8_copy; [done| |done].
    destruct (aligned_disjoint f np Af An Hne); lia. }
  assert (E : pmm sb = pmm sa /\ cr3 sb = cr3 sa /\ sig_stub_page sb = sig_stub_page sa) by done.
  destruct E as (E1 & E2 & E3). clearbody sb.
  destruct (confined_step T s sa sb Hs Sa Ka E1 E2 E3) as [Sb Kb].
  { intros b Hb. rewrite Hmem. rewrite decide_False; [done|].
    apply (newly_untouched T s sa np b Hs); [|done]. exact Nn. }
  assert (Nb : newly s sb np).
  { destruct Nn as [N1 N2]. split; [|done]. unfold taken. by rewrite E1. }
  split; [exact Sb|]. split; [exact Kb|]. split; [exact Nb|]. split; [|exact Nl|].
  - eapply newly_mono; [exact Nb|]. apply (vs_mm _ _ _ _ V0).
  - intros k Hk. rewrite Hmem, decide_True by lia. replace (f + (np + k - np)) with (f + k) by lia.
    apply (vs_mem _ _ _ _ V0a). apply (frame_untouched T0 s0 f); try done. lia.
Qed.

Lemma fork_page_good ppt i4 i3 i2 i :
  0 <= i4 < 512 -> 0 <= i3 < 512 -> 0 <= i2 < 512 -> 0 <= i < 512 ->
  let p := (i4 * 512 + i3) * 512 + i2 in
  covers 1 ppt p -> forall T s, forked (p * 512 + i) T s ->
  good (p * 512 + i + 1) (fork_page child ppt i4 i3 i2 i s).
Proof.
  intros H4 H3 H2 Hi p Hcov T s Hf. unfold fork_page.
  pose proof (page_leaf ppt p i Hcov Hi) as Hleaf. destruct Hcov as (Ht & _ & Hp0 & _).
  rewrite (parent_entry _ _ _ _ _ _ i Hf Ht Hi). set (e := entry s0 ppt i) in *. cbv zeta in Hleaf.
  set (n := p * 512 + i) in *.
  assert (Hskip : user_leaf s0 parent n = None -> good (n + 1) (s, true)).
  { intros Hno. apply (forked_good _ T). apply (forked_skip n _ T s); [lia|done|].
    intros n' Hn'. by replace n' with n by lia. }
  destruct (present e) eqn:Ep; cbn [negb andb] in *; [|by apply Hskip].
  destruct (user e) eqn:Eu; cbn [negb] in *; [|by apply Hskip]. clear Hskip.
  pose proof (vo_entry _ _ Hs0 ppt parent 1%nat p i Ht ltac:(lia) Hi Ep Eu) as Hfr. fold e in Hfr.
  pose proof Hf as (V & Hoth & Hsame & F & F1 & F2 & F3 & F4).
  pose proof (vs_ok _ _ _ _ V) as Hs.
  destruct (vm_alloc_page s) as [sa [np|]] eqn:A.
  2: { rewrite alloc_page_table in A. destruct (alloc_step T s sa _ Hs A) as [Sa Ka].
       exists T. cbn [fst snd]. split; [by eapply vm_step_trans|]. split; [|done].
       intros c va Hc Hne. rewrite (keeps_lookup T s T sa) by (done || exact (step_ctx _ _ _ _ _ V Hc)). by apply Hsame. }
  destruct (copy_frame _ T s sa np (P_ADDR e) Hf A (P_ADDR_aligned e) Hfr) as (Sb & Kb & Nb & NF).
  set (sb := vm_copy np (P_ADDR e) PAGE_SIZE sa) in *. clearbody sb.
  pose proof (vs_ok _ _ _ _ Sb) as Hsb. pose proof (step_ctx _ _ _ _ _ V Hc1) as Hcc.
  destruct (taken_aligned _ _ (proj1 Nb)) as [An _].
  assert (Hnf : frame_ok T sb (P_ADDR np)).
  { rewrite (P_ADDR_id np An). apply (newly_frame_ok T s0); [apply (nf_label _ _ _ _ _ NF)|apply (nf_new _ _ _ _ _ NF)]. }
  pose proof (vm_map_page_spec T sb child (fork_vaddr i4 i3 i2 i) np (vm_flags_from_pte e) Hsb Hcc (fun _ => Hnf)) as M.
  rewrite fork_vaddr_eq in * by done. fold p n in M. fold p n.
  destruct (vm_map_page child (n * 4096) np (vm_flags_from_pte e) sb) as [s3 r]. cbn [fst snd] in M.
  destruct M as (T2 & S2 & Hr & Ho & Hsm & Hmap).
  pose proof (vm_step_trans _ _ _ _ _ _ V Sb) as V1. pose proof (vm_step_trans _ _ _ _ _ _ V1 S2) as V2.
  assert (Hlk : forall c va, is_ctx T1 c -> c <> child -> lookup_va s3 c va = lookup_va s1 c va).
  { intros c va Hc Hne. rewrite Hsm; [|exact (step_ctx _ _ _ _ _ V Hc)|done].
    rewrite (keeps_lookup T s T sb) by (done || exact (step_ctx _ _ _ _ _ V Hc)). by apply Hsame. }
  exists T2. cbn [fst snd]. split; [exact V2|]. split; [exact Hlk|]. intros Hok.
  destruct Hr as [-> | ->]; [|discriminate Hok].
  assert (Hn : 0 <= n < 512 ^ 4) by (unfold n, p; lia).
  rewrite (vpn_page n Hn) in *. specialize (Hmap eq_refl).
  assert (Hch : forall va, vpn va <> n -> lookup_va s3 child va = lookup_va s child va).
  { intros va Hne. rewrite Hsm by (done || intros _ _; exact Hne). by apply (keeps_lookup T s T sb). }
  split; [exact V2|]. split; [|split; [exact Hlk|]].
  { apply (others_trans _ T child _ sb); [apply (vs_sub _ _ _ _ V)| |exact Ho].
    intros t c l q j Htl Hne Hj. pose proof (lookup_weaken _ _ _ _ Htl (vs_sub _ _ _ _ V)) as Htl'.
    rewrite (Kb t _ j Htl' Hj). by apply (Hoth t c l q). }
  assert (Hnew : forall m f, F !! m = Some f -> f <> np).
  { intros m f Hm ->. destruct (F1 m np Hm) as [_ (pa & w & x & _ & [[Hk _] _ _] & _)]. by destruct Nb. }
  exists (<[n := np]> F). split; [|split; [|split]].
  - intros m f Hm. apply lookup_insert_Some in Hm as [[<- <-]|[Hne Hm]].
    + split; [lia|]. exists (P_ADDR e), (writable e), (negb (nx e)). split; [exact Hleaf|].
      split; [by apply (new_frame_step s0 T sb)|]. intros va Hva. destruct (Hmap va Hva) as [-> _].
      rewrite (P_ADDR_id np An). f_equal. f_equal. apply flags_from_pte_spec.
    + destruct (F1 m f Hm) as [Hm1 (pa & w & x & Hul & Hfr' & Hl)]. split; [lia|]. exists pa, w, x.
      split; [exact Hul|]. split.
      * apply (new_frame_step s0 T sb); [done..|]. by apply (new_frame_step s0 T s).
      * intros va Hva. rewrite Hch by congruence. by apply Hl.
  - intros m r Hm Hul. destruct (decide (n = m)) as [<-|Hne]; [rewrite lookup_insert_eq; by eexists|].
    rewrite lookup_insert_ne by done. apply (F2 m r); [lia|done].
  - intros m m' f Hm Hm'. apply lookup_insert_Some in Hm as [[<- <-]|[Hne Hm]];
      apply lookup_insert_Some in Hm' as [[<- E]|[Hne' Hm']]; try done.
    + by destruct (Hnew _ _ Hm').
    + subst f. by destruct (Hnew _ _ Hm).
    + by apply (F3 m m' f).
  - intros va Hva. apply lookup_insert_None in Hva as [Hva Hne]. rewrite Hch by congruence. by apply F4.
Qed.

Lemma fork_pt_good ppd i4 i3 i :
  0 <= i4 < 512 -> 0 <= i3 < 512 -> 0 <= i < 512 ->
  let p := i4 * 512 + i3 in
  covers 2 ppd p -> forall T s, forked ((p * 512 + i) * 512) T s ->
  good ((p * 512 + i + 1) * 512) (fork_pt child ppd i4 i3 i s).
Proof.
  intros H4 H3 Hi p Hcov T s Hf. unfold fork_pt. pose proof Hcov as (Ht & _).
  pose proof (parent_entry _ _ _ _ _ _ i Hf Ht Hi) as E.
  pose proof (level_good 1 ppd p i (fork_page child (P_ADDR (entry s ppd i)) i4 i3 i)
    (fun j => (p * 512 + i) * 512 + j) ltac:(lia) Hcov Hi ltac:(intros j; change (Z.of_nat 1 - 1) with 0; lia)) as G.
  change (512 ^ Z.of_nat 1) with 512 in G. apply (G) with (T := T); [|exact Hf].
  intros Hc j T' s' Hj Hf'. rewrite E. rewrite Z.add_assoc. by apply fork_page_good with (T := T').
Qed.

Lemma fork_pd_good ppdpt i4 i :
  0 <= i4 < 512 -> 0 <= i < 512 -> covers 3 ppdpt i4 ->
  forall T s, forked ((i4 * 512 + i) * 512 ^ 2) T s ->
  good ((i4 * 512 + i + 1) * 512 ^ 2) (fork_pd child ppdpt i4 i s).
Proof.
  intros H4 Hi Hcov T s Hf. unfold fork_pd. pose proof Hcov as (Ht & _).
  pose proof (parent_entry _ _ _ _ _ _ i Hf Ht Hi) as E.
  pose proof (level_good 2 ppdpt i4 i (fork_pt child (P_ADDR (entry s ppdpt i)) i4 i)
    (fun j => ((i4 * 512 + i) * 512 + j) * 512) ltac:(lia) Hcov Hi
    ltac:(intros j; change (Z.of_nat 2 - 1) with 1; lia)) as G.
  change (512 ^ Z.of_nat 2) with (512 ^ 2) in G. apply G with (T := T); [|exact Hf].
  intros Hc j T' s' Hj Hf'. rewrite E. rewrite Z.add_assoc. by apply fork_pt_good with (T := T').
Qed.

Lemma fork_pdpt_good i :
  0 <= i < 512 -> forall T s, forked (i * 512 ^ 3) T s ->
  good ((i + 1) * 512 ^ 3) (fork_pdpt child (pml4_phys s0 parent) i s).
Proof.
  intros Hi T s Hf. unfold fork_pdpt. pose proof (vo_ctx _ _ Hs0 parent Hp) as Hroot.
  set (root := pml4_phys s0 parent) in *.
  assert (Hcov : covers 4 root 0).
  { split; [done|]. split; [lia|]. split; [lia|]. done. }
  pose proof (parent_entry _ _ _ _ _ _ i Hf Hroot Hi) as E.
  pose proof (level_good 3 root 0 i (fork_pd child (P_ADDR (entry s root i)) i)
    (fun j => (i * 512 + j) * 512 ^ 2) ltac:(lia) Hcov Hi
    ltac:(intros j; change (Z.of_nat 3 - 1) with 2; lia)) as G.
  change (0 * 512 + i) with i in G. change (512 ^ Z.of_nat 3) with (512 ^ 3) in G.
  apply G with (T := T); [|exact Hf].
  intros Hc j T' s' Hj Hf'. rewrite E. rewrite Z.add_assoc. by apply fork_pd_good with (T := T').
Qed.

(** The four nested loops copy every user page. *)
Lemma fork_loop_good :
  good (512 ^ 4) (for_each (zrange 512) (fork_pdpt child (pml4_phys s0 parent)) s1).
Proof.
  apply (for_each_good _ (fun i => i * 512 ^ 3)) with (T := T1).
  - intros i T s Hi Hf. by apply fork_pdpt_good with (T := T).
  - split; [apply vm_step_refl; apply (vs_ok _ _ _ _ Hst)|]. split; [by intros ?|]. split; [done|].
    exists ∅. split; [|split; [|split]]; try done. intros n r Hn. lia.
Qed.
End Fork.

(** Setting the break writes only the context's own page. *)
Lemma set_brk_ok T s c v :
  vm_ok T s -> is_ctx T c -> 0 <= v < 2 ^ 64 ->
  let s' := set_word (c + 8) v s in
  vm_ok T s' /\ (forall c' va, is_ctx T c' -> lookup_va s' c' va = lookup_va s c' va) /\ brk s' c = v /\
  (forall b, ~ (c <= b < c + 4096) -> ld8 (pmem s') b = ld8 (pmem s) b).
Proof.
  intros Hs Hc Hv s'. pose proof (label_aligned _ _ _ _ Hs Hc) as Ac.
  assert (Hsl : c + 8 = slot c 1) by (unfold slot; lia).
  assert (Hset : forall t i, aligned t -> 0 <= i < 512 ->
    entry s' t i = if decide (c = t /\ 1 = i) then v else entry s t i).
  { intros t i At Hi. unfold s'. rewrite Hsl. apply entry_set; done || lia. }
  assert (Hm : forall b, ~ (c <= b < c + 4096) -> ld8 (pmem s') b = ld8 (pmem s) b).
  { intros b Hb. apply ld8_st64. lia. }
  assert (E : pmm s' = pmm s) by done. clearbody s'.
  assert (Hk : forall t c' l p i, T !! t = Some (c', l, p) -> (l <= 4)%nat -> 0 <= i < 512 ->
    entry s' t i = entry s t i).
  { intros t c' l p i Ht Hl Hi. rewrite Hset by (done || exact (label_aligned _ _ _ _ Hs Ht)).
    rewrite decide_False; [done|]. intros [-> _]. unfold is_ctx in Hc. rewrite Hc in Ht. injection Ht as _ <- _. lia. }
  assert (Hk0 : forall c', is_ctx T c' -> pml4_phys s' c' = pml4_phys s c').
  { intros c' Hc'. rewrite !pml4_entry, Hset by (lia || exact (label_aligned _ _ _ _ Hs Hc')).
    rewrite decide_False; [done|]. intros [_ ?]. lia. }
  assert (Hex : Mm.extends (pmm s) (pmm s')) by (rewrite E; apply Mm.extends_refl).
  split; [|split; [|split]].
  - split; [rewrite E; apply (vo_mm _ _ Hs)| |apply (vo_level _ _ Hs)| | |apply (vo_owner _ _ Hs)].
    + intros t lab Ht. apply (taken_extends s s' t Hex). apply (vo_taken _ _ Hs t lab Ht).
    + intros c' Hc'. rewrite (Hk0 c' Hc'). by apply (vo_ctx _ _ Hs).
    + intros t c' l p i Ht Hl Hi. rewrite (Hk t c' l p i Ht ltac:(lia) Hi).
      apply (entry_ok_extends T s s' _ _ _ _ _ Hex). by apply (vo_entry _ _ Hs t c' l p i).
  - intros c' va Hc'. unfold lookup_va. rewrite (Hk0 c' Hc'). pose proof (vo_ctx _ _ Hs c' Hc') as Hroot.
    by apply (walk_tables T s s' Hs Hk 4 _ c' 0); [|lia].
  - rewrite brk_entry, Hset by (done || lia). by rewrite decide_True by done.
  - exact Hm.
Qed.

Lemma new_frame_brk v0 T v ctx b f bs : vm_ok T v -> is_ctx T ctx -> 0 <= b < 2 ^ 64 -> new_frame v0 T v f bs ->
  new_frame v0 T (set_word (ctx + 8) b v) f bs.
Proof.
  intros Hv Hc Hb [Hn Hl Hbs]. destruct (set_brk_ok T v ctx b Hv Hc Hb) as (_ & _ & _ & Hm). split; [exact Hn|done|].
  intros k Hk. rewrite Hm; [by apply Hbs|]. destruct (taken_aligned _ _ (proj1 Hn)) as [Af _]. pose proof (label_aligned _ _ _ _ Hv Hc) as Ac.
  assert (Hne : f <> ctx) by (intros ->; unfold is_ctx in Hc; congruence). destruct (aligned_disjoint f ctx Af Ac Hne); lia.
Qed.

(** ** Properties *)

(** C12: Mapping a page is exact. On success every address of that page, and of
    no other, translates to the frame with the permissions asked for, and the
    tables above it let user mode through; every other translation, in this
    and in every other address space, is unchanged (huge pages are split, not
    lost), with the same user/write/execute permissions. On failure no
    translation changes. The tables stay well formed in every case, and only
    tables and free pages are written. *)
Theorem vm_map_page_exact T s ctx vaddr phys flags :
  vm_ok T s -> is_ctx T ctx -> (Z.testbit flags 3 = true -> frame_ok T s (P_ADDR phys)) ->
  let '(s', r) := vm_map_page ctx vaddr phys flags s in
  exists T', vm_step T s T' s' /\ (r = 0 \/ r = -1) /\
    (forall c va, is_ctx T c -> (r = 0 -> c = ctx -> vpn va <> vpn vaddr) ->
       lookup_va s' c va = lookup_va s c va) /\
    (r = 0 -> forall va, vpn va = vpn vaddr ->
       lookup_va s' ctx va =
         Some (P_ADDR phys + va mod 4096, (Z.testbit flags 3, Z.testbit flags 1, Z.testbit flags 2)) /\
       user_path s' ctx va).
Proof.
  intros Hs Hc Hf. pose proof (vm_map_page_spec T s ctx vaddr phys flags Hs Hc Hf) as M.
  destruct (vm_map_page ctx vaddr phys flags s) as [s' r]. cbn [fst snd] in M.
  destruct M as (T' & H1 & H2 & _ & H3 & H4). exists T'. by split_and!.
Qed.

(** A new address space holds exactly the kernel's identity map (the first
    2 GB and the 4th GB, supervisor only) and the signal restorer page, an
    empty break, and tables of its own; no other address space changes. *)
Theorem vm_create_fresh T s :
  vm_ok T s -> stub_ok T s ->
  let '(s', ctx) := vm_create s in
  exists T', vm_step T s T' s' /\
    (forall c va, is_ctx T c -> lookup_va s' c va = lookup_va s c va) /\
    (ctx <> 0 -> new_space T s T' s' ctx).
Proof.
  intros Hs Hst. pose proof (vm_create_spec T s Hs Hst) as C. destruct (vm_create s) as [s' ctx].
  destruct C as (T' & H1 & _ & H2 & H3). by exists T'.
Qed.

(** Mapping a range backs each of its pages with a zeroed frame of its own,
    taken from the allocator by the call and used by no table; nothing outside
    the range changes in any address space. *)
Theorem vm_map_range T s ctx vaddr size flags :
  vm_ok T s -> is_ctx T ctx -> 0 <= vaddr -> 0 < size -> vaddr + size + 0xFFF <= 2 ^ 48 ->
  let start := page_down vaddr in
  let n := Z.to_nat ((page_down (vaddr + size + 0xFFF) - start) / 4096) in
  let '(s', r) := vm_map ctx vaddr size flags s in
  exists T', vm_step T s T' s' /\ (r = 0 \/ r = -1) /\
    (forall c va, is_ctx T c -> (c = ctx -> off_run start n va) -> lookup_va s' c va = lookup_va s c va) /\
    (r = 0 -> exists fs, length fs = n /\ mapped_run s T' s' ctx start flags fs).
Proof.
  intros Hs Hc Hv Hsz Hend start n. unfold vm_map.
  rewrite (proj2 (Z.eqb_neq ctx 0)) by (pose proof (label_pos _ _ _ _ Hs Hc); lia).
  rewrite (proj2 (Z.eqb_neq size 0)) by lia. rewrite u64_small by lia. change PAGE_SIZE with 4096.
  fold start n. unfold start in *. rewrite page_down_eq in *.
  pose proof (Z_div_mod_eq_full vaddr 4096). pose proof (Z.mod_pos_bound vaddr 4096 ltac:(lia)).
  pose proof (Z_div_mod_eq_full (vaddr + size + 0xFFF) 4096).
  pose proof (Z.mod_pos_bound (vaddr + size + 0xFFF) 4096 ltac:(lia)).
  apply vm_map_loop_spec; [done|done|apply Z_mod_mult|lia|].
  unfold n. rewrite !page_down_eq. rewrite <- Z.mul_sub_distr_r, Z.div_mul by lia. lia.
Qed.

(** C14: Copying in and out agree. A copy into a mapped user buffer (off the
    page tables, no two of its addresses naming one byte) succeeds, writes
    exactly that buffer's bytes in physical memory, across page and huge-page
    boundaries, changes no translation, and copying the buffer out returns the
    bytes copied in. *)
Theorem vm_copy_roundtrip T s ctx vaddr src :
  vm_ok T s -> is_ctx T ctx -> user_buffer T s ctx vaddr (Z.of_nat (length src)) ->
  Forall (fun x => 0 <= x < 256) src ->
  let '(s', r) := vm_copy_to_user ctx vaddr src s in
  r = 0 /\ vm_ok T s' /\ (forall c va, is_ctx T c -> vm_translate s' c va = vm_translate s c va) /\
  (forall a, (forall b, 0 <= b < Z.of_nat (length src) -> a <> tr s ctx vaddr b) ->
     ld8 (pmem s') a = ld8 (pmem s) a) /\
  vm_copy_from_user ctx vaddr (Z.of_nat (length src)) s' = Some src.
Proof.
  intros Hs Hc Hub Hb. unfold vm_copy_to_user, vm_copy_from_user.
  rewrite (proj2 (Z.eqb_neq ctx 0)) by (pose proof (label_pos _ _ _ _ Hs Hc); lia).
  destruct (copy_to_loop_spec T ctx (length src) vaddr src s Hs Hc Hub ltac:(lia) Hb)
    as [Hr (E1 & _ & _ & Hk & Hin & Hout)].
  destruct (copy_to_loop _ ctx vaddr src s) as [s' r]. cbn [fst snd] in *.
  assert (Htr : forall c va, is_ctx T c -> vm_translate s' c va = vm_translate s c va).
  { intros c va Hcc. by apply (keeps_translate T). }
  split; [exact Hr|]. split; [by apply (keeps_ok T s)|]. split; [exact Htr|]. split; [exact Hout|].
  rewrite copy_from_loop_spec; [|lia|lia|].
  2: { intros b Hb'. unfold tr. rewrite Htr by done. by apply (ub_mapped _ _ _ _ _ Hub). }
  f_equal. apply list_eq_same_length with (length src); [done|by rewrite length_fmap, length_zrange, Nat2Z.id|].
  intros i x y Hi Hx Hy. rewrite list_lookup_fmap, lookup_zrange in Hx by lia. injection Hx as <-.
  unfold tr. rewrite Htr by done. fold (tr s ctx vaddr (Z.of_nat i)). rewrite Hin by lia.
  unfold aget. rewrite Nat2Z.id. by apply list_lookup_total_correct.
Qed.

(** C13: Fork copies the address space. The child's user pages are exactly the
    parent's, with the same permissions, each backed by a frame of its own
    taken by the call and holding the parent's bytes; elsewhere (the restorer
    page apart) the child has only the kernel's identity map. The parent and
    every other address space are unchanged, also when the fork fails. *)
Theorem vm_fork_copies T s parent :
  vm_ok T s -> stub_ok T s -> is_ctx T parent ->
  let '(s', child) := vm_fork parent s in
  exists T', vm_step T s T' s' /\
    (forall c va, is_ctx T c -> lookup_va s' c va = lookup_va s c va) /\
    (child <> 0 -> is_ctx T' child /\ T !! child = None /\ brk s' child = brk s parent /\
     exists F : gmap Z Z,
       (forall n, is_Some (F !! n) <-> 0 <= n < 512 ^ 4 /\ is_Some (user_leaf s parent n)) /\
       (forall n n' f, F !! n = Some f -> F !! n' = Some f -> n = n') /\
       (forall n f, F !! n = Some f -> exists pa w x, user_leaf s parent n = Some (pa, w, x) /\
          new_frame s T' s' f (fun k => ld8 (pmem s) (pa + k)) /\
          forall va, vpn va = n -> lookup_va s' child va = Some (f + va mod 4096, (true, w, x))) /\
       (forall va, 0 <= va < 2 ^ 48 -> F !! vpn va = None -> vpn va <> vpn SIG_STUB_ADDR ->
          lookup_va s' child va = if kernel_va va then Some (va, (false, true, true)) else None)).
Proof.
  intros Hs Hstub Hp. unfold vm_fork.
  rewrite (proj2 (Z.eqb_neq parent 0)) by (pose proof (label_pos _ _ _ _ Hs Hp); lia).
  pose proof (vm_create_spec T s Hs Hstub) as C. destruct (vm_create s) as [s1 child].
  cbn [fst snd] in C. destruct C as (T1 & V1 & K1 & L1 & New).
  destruct (Z.eqb_spec child 0) as [->|Hch]; [by exists T1|].
  destruct (New Hch) as (Hc1 & Hc0 & Hntk & _ & Hbase).
  pose proof (fork_loop_good T s parent T1 s1 child Hs Hp V1 K1 Hc1 Hc0) as G.
  rewrite (vm_step_pml4 _ _ _ _ _ V1 Hp). destruct (for_each _ _ s1) as [s2 ok].
  destruct G as (T2 & V2 & L2 & Hok). cbn [fst snd] in *.
  pose proof (vm_step_trans _ _ _ _ _ _ V1 V2) as V12.
  assert (Hpne : forall c, is_ctx T c -> c <> child) by (intros c Hc ->; unfold is_ctx in Hc; congruence).
  assert (L12 : forall c va, is_ctx T c -> lookup_va s2 c va = lookup_va s c va).
  { intros c va Hc. rewrite L2; [by apply L1|exact (step_ctx _ _ _ _ _ V1 Hc)|by apply Hpne]. }
  destruct ok; cbn [negb]; [|by exists T2]. specialize (Hok eq_refl).
  pose proof (step_ctx _ _ _ _ _ V2 Hc1) as Hc2.
  assert (Hbr : brk s2 parent = brk s parent) by (rewrite !brk_entry; apply (vs_ctx _ _ _ _ V12 parent 1 Hp); lia).
  destruct (set_brk_ok T2 s2 child (brk s2 parent) (vs_ok _ _ _ _ V12) Hc2 (ld64_range _ _)) as (O3 & L3 & B3 & M3).
  set (s3 := set_word (child + 8) _ s2) in *.
  assert (E : pmm s3 = pmm s2 /\ cr3 s3 = cr3 s2 /\ sig_stub_page s3 = sig_stub_page s2) by done.
  destruct E as (E1 & E2 & E3). clearbody s3.
  assert (Hchild : newly s s2 child).
  { split; [apply (vo_taken _ _ (vs_ok _ _ _ _ V12) _ _ Hc2)|done]. }
  assert (V3 : vm_step T s T2 s3).
  { destruct V12 as [A1 A2 A3 A4 A5 A6 A7 A8]. split; [exact O3|exact A2|exact A3|by rewrite E1|congruence|congruence| |].
    - intros c i Hc Hi. rewrite <- (A7 c i Hc Hi). apply (outside_entry child); [exact M3| | | |done].
      + by apply (label_aligned _ _ _ _ A1 Hc2).
      + by apply (label_aligned _ _ _ _ Hs Hc).
      + by apply Hpne.
    - intros b Hb. rewrite M3; [by apply A8|]. apply (newly_untouched T s s2); [done|done|by left]. }
  exists T2. split; [exact V3|]. split.
  { intros c va Hc. rewrite L3 by exact (step_ctx _ _ _ _ _ V12 Hc). by apply L12. }
  intros _. split; [exact Hc2|]. split; [exact Hc0|]. split; [congruence|].
  destruct Hok as (_ & _ & _ & F & F1 & F2 & F3 & F4). exists F. split; [|split; [exact F3|split]].
  - intros n. split.
    + intros [f Hf]. destruct (F1 n f Hf) as [Hn (pa & w & x & Hu & _)]. split; [done|by eexists].
    + intros [Hn [r Hr]]. by apply (F2 n r).
  - intros n f Hf. destruct (F1 n f Hf) as [_ (pa & w & x & Hu & [Nn Nl Nb] & Hl)]. exists pa, w, x.
    split; [exact Hu|]. split; [|intros va Hva; rewrite L3 by done; by apply Hl].
    split; [|exact Nl|].
    + destruct Nn as [N1 N2]. split; [|exact N2]. unfold taken. by rewrite E1.
    + intros k Hk. rewrite M3; [by apply Nb|].
      destruct (taken_aligned _ _ (proj1 Nn)) as [Af _]. pose proof (label_aligned _ _ _ _ O3 Hc2) as Ac.
      assert (Hne : f <> child) by (intros ->; unfold is_ctx in Hc2; congruence).
      destruct (aligned_disjoint f child Af Ac Hne); lia.
  - intros va Hva Hf Hst. rewrite L3, F4 by done. by apply Hbase.
Qed.

(** ** Witnesses: the boot tables, one context, one user page *)
Definition boot_mem : mem := st64 (st64 (fun _ => 0) 0x1000 (0x2000 + BASE)) 0x2000 (0 + BASE + PTE_HUGE).
Definition boot : vmst := VmSt boot_mem Mm.mm_bss 0x1000 0.
Definition ex_create : vmst * Z := vm_create boot.
Definition ex_ctx : Z := ex_create.2.
Definition ex_user : vmst := (vm_map_page ex_ctx 0xFFFFFFFFF000 0x100000 15 ex_create.1).1.

Lemma boot_ok : vm_ok ∅ boot /\ stub_ok ∅ boot.
Proof.
  split; [|intros H; by destruct H]. split; [exact Mm.mm_bss_ok|..].
  - intros t lab Ht. by rewrite lookup_empty in Ht.
  - intros t c l p Ht. by rewrite lookup_empty in Ht.
  - intros c Hc. by rewrite lookup_empty in Hc.
  - intros t c l p i Ht. by rewrite lookup_empty in Ht.
  - intros t c l p Ht. by rewrite lookup_empty in Ht.
Qed.

Lemma ex_create_ok : exists T, vm_ok T ex_create.1 /\ is_ctx T ex_ctx.
Proof.
  destruct boot_ok as [H1 H2]. destruct (vm_create_spec ∅ boot H1 H2) as (T & V & _ & _ & N).
  exists T. split; [exact (vs_ok _ _ _ _ V)|]. apply N.
  assert (E : negb ((vm_create boot).2 =? 0) = true) by (vm_compute; reflexivity).
  by apply negb_true_iff, Z.eqb_neq in E.
Qed.

Lemma low_frame_ok T s f : vm_ok T s -> f < 2048 * 4096 -> frame_ok T s f.
Proof.
  intros Hs Hf. split.
  - destruct (T !! f) as [lab|] eqn:E; [|done].
    destruct (taken_aligned _ _ (vo_taken _ _ Hs _ _ E)) as [_ H]. change Mm.HEAP_BASE with (2048 * 4096) in H. lia.
  - intros i Hi E. exfalso. unfold page_of in E. change Mm.HEAP_BASE with (2048 * 4096) in E.
    change PAGE_SIZE with 4096 in E. lia.
Qed.

Lemma ex_user_ok : exists T, vm_ok T ex_user /\ is_ctx T ex_ctx.
Proof.
  destruct ex_create_ok as (T & H1 & H2).
  destruct (vm_map_page_spec T ex_create.1 ex_ctx 0xFFFFFFFFF000 0x100000 15 H1 H2) as (T' & V & _).
  - intros _. apply low_frame_ok; [exact H1|by vm_compute].
  - exists T'. split; [exact (vs_ok _ _ _ _ V)|exact (step_ctx _ _ _ _ _ V H2)].
Qed.

#[local] Opaque ex_user ex_create.

Lemma vm_map_page_exact_witness :
  let '(s', r) := vm_map_page ex_ctx 0x400000 0x100000 15 ex_create.1 in
  r = 0 /\ lookup_va s' ex_ctx 0x400123 = Some (0x100123, (true, true, true)).
Proof.
  destruct ex_create_ok as (T & H1 & H2).
  assert (Hf : frame_ok T ex_create.1 (P_ADDR 0x100000)) by (apply low_frame_ok; [exact H1|by vm_compute]).
  pose proof (vm_map_page_exact T ex_create.1 ex_ctx 0x400000 0x100000 15 H1 H2 (fun _ => Hf)) as H.
  assert (E : ((vm_map_page ex_ctx 0x400000 0x100000 15 ex_create.1).2 =? 0) = true) by (vm_compute; reflexivity).
  destruct (vm_map_page ex_ctx 0x400000 0x100000 15 ex_create.1) as [s' r]. cbn [snd] in E.
  apply Z.eqb_eq in E. destruct H as (T' & _ & _ & _ & H). split; [exact E|].
  destruct (H E 0x400123 eq_refl) as [-> _]. vm_compute. reflexivity.
Defined.

Lemma vm_create_fresh_witness :
  let '(s', ctx) := vm_create boot in
  ctx <> 0 /\ lookup_va s' ctx 0x800123 = Some (0x800123, (false, true, true)) /\
  lookup_va s' ctx 0x80000000 = None.
Proof.
  destruct boot_ok as [H1 H2]. pose proof (vm_create_fresh ∅ boot H1 H2) as H.
  assert (E : negb ((vm_create boot).2 =? 0) = true) by (vm_compute; reflexivity).
  destruct (vm_create boot) as [s' ctx]. cbn [snd] in E. apply negb_true_iff, Z.eqb_neq in E.
  destruct H as (T' & _ & _ & H). destruct (H E) as (_ & _ & _ & _ & Hl). split; [exact E|].
  split; (rewrite Hl; [reflexivity|lia|by vm_compute]).
Defined.

Lemma vm_map_range_witness :
  let '(s', r) := vm_map ex_ctx 0x400123 0x1800 15 ex_create.1 in
  r = 0 /\ exists f g, f <> g /\ lookup_va s' ex_ctx 0x400123 = Some (f + 0x123, (true, true, true)) /\
    lookup_va s' ex_ctx 0x401000 = Some (g + 0, (true, true, true)).
Proof.
  destruct ex_create_ok as (T & H1 & H2).
  pose proof (vm_map_range T ex_create.1 ex_ctx 0x400123 0x1800 15 H1 H2 ltac:(lia) ltac:(lia) ltac:(lia)) as H.
  assert (E : ((vm_map ex_ctx 0x400123 0x1800 15 ex_create.1).2 =? 0) = true) by (vm_compute; reflexivity).
  cbv zeta in H. destruct (vm_map ex_ctx 0x400123 0x1800 15 ex_create.1) as [s' r]. cbn [snd] in E.
  apply Z.eqb_eq in E. destruct H as (T' & _ & _ & _ & H). destruct (H E) as (fs & Hlen & Hnd & _ & Hl).
  split; [exact E|].
  change (length fs = 2%nat) in Hlen. destruct fs as [|f [|g fs]]; [discriminate Hlen|discriminate Hlen|].
  exists f, g. split; [intros ->; by apply NoDup_cons in Hnd as [Hnd _]; apply Hnd; left|]. split.
  - exact (Hl 0%nat f eq_refl 0x400123 eq_refl).
  - exact (Hl 1%nat g eq_refl 0x401000 eq_refl).
Defined.

Lemma vm_copy_roundtrip_witness :
  let '(s', r) := vm_copy_to_user ex_ctx 0xFFFFFFFFFFFE [1; 2] ex_user in
  r = 0 /\ vm_copy_from_user ex_ctx 0xFFFFFFFFFFFE 2 s' = Some [1; 2].
Proof.
  destruct ex_user_ok as (T & H1 & H2).
  assert (Htr : forall b, 0 <= b < 2 -> tr ex_user ex_ctx 0xFFFFFFFFFFFE b = 0x100ffe + b).
  { assert (E0 : tr ex_user ex_ctx 0xFFFFFFFFFFFE 0 = 0x100ffe) by (vm_compute; reflexivity).
    assert (E1 : tr ex_user ex_ctx 0xFFFFFFFFFFFE 1 = 0x100fff) by (vm_compute; reflexivity).
    intros b Hb. assert (b = 0 \/ b = 1) as [-> | ->] by lia; [exact E0|exact E1]. }
  assert (Hub : user_buffer T ex_user ex_ctx 0xFFFFFFFFFFFE (Z.of_nat (length [1; 2]))).
  { change (Z.of_nat (length [1; 2])) with 2. split.
    - intros b Hb. rewrite (Htr b Hb). lia.
    - intros b t lab Hb Ht. rewrite (Htr b Hb).
      destruct (taken_aligned _ _ (vo_taken _ _ H1 _ _ Ht)) as [_ H]. change Mm.HEAP_BASE with (2048 * 4096) in H. lia.
    - intros b b' Hb Hb'. rewrite (Htr b Hb), (Htr b' Hb'). lia. }
  pose proof (vm_copy_roundtrip T ex_user ex_ctx 0xFFFFFFFFFFFE [1; 2] H1 H2 Hub ltac:(repeat constructor; lia)) as H.
  destruct (vm_copy_to_user ex_ctx 0xFFFFFFFFFFFE [1; 2] ex_user) as [s' r].
  destruct H as (Hr & _ & _ & _ & Hb). split; [exact Hr|exact Hb].
Defined.

Lemma vm_fork_copies_witness :
  let '(s', child) := vm_fork ex_ctx ex_user in
  child <> 0 /\ exists f, lookup_va s' child 0xFFFFFFFFF123 = Some (f + 0x123, (true, true, true)) /\
    f <> 0x100000 /\ ld8 (pmem s') (f + 5) = ld8 (pmem ex_user) 0x100005.
Proof.
  destruct ex_user_ok as (T & H1 & H2).
  assert (Hst : stub_ok T ex_user) by (intros H; exfalso; apply H; vm_compute; reflexivity).
  pose proof (vm_fork_copies T ex_user ex_ctx H1 Hst H2) as H.
  assert (E : negb ((vm_fork ex_ctx ex_user).2 =? 0) = true) by (vm_compute; reflexivity).
  destruct (vm_fork ex_ctx ex_user) as [s' child]. cbn [snd] in E. apply negb_true_iff, Z.eqb_neq in E.
  destruct H as (T' & _ & _ & H). destruct (H E) as (_ & _ & _ & F & F1 & _ & F3 & _). split; [exact E|].
  assert (Hul : user_leaf ex_user ex_ctx 0xFFFFFFFFF = Some (0x100000, true, true)) by (vm_compute; reflexivity).
  assert (HF : is_Some (F !! 0xFFFFFFFFF)).
  { apply (proj2 (F1 0xFFFFFFFFF)). split; [lia|]. rewrite Hul. exact (mk_is_Some _ _ eq_refl). }
  destruct HF as [f Hf]. destruct (F3 0xFFFFFFFFF f Hf) as (pa & w & x & Hu & [Hn _ Hb] & Hl).
  rewrite Hul in Hu. injection Hu as <- <- <-. exists f. split; [|split].
  - exact (Hl 0xFFFFFFFFF123 eq_refl).
  - intros ->. destruct (taken_aligned _ _ (proj1 Hn)) as [_ Hlow].
    change Mm.HEAP_BASE with (2048 * 4096) in Hlow. lia.
  - exact (Hb 5 ltac:(lia)).
Defined.

(** ** Two behaviours the properties leave out *)

(** The restorer page is one frame mapped into every context; unmapping it in
    one context gives that frame back to the allocator. *)
Definition stub_boot : vmst :=
  let '(s, r) := vm_alloc_page boot in s <| sig_stub_page := default 0 r |>.

Example unmap_frees_stub :
  (let '(s1, c1) := vm_create stub_boot in
   let '(s2, c2) := vm_create s1 in
   match vm_unmap c1 SIG_STUB_ADDR 4096 s2 with
   | Some (s3, r) => (r, vm_translate s3 c2 SIG_STUB_ADDR =? sig_stub_page s3,
                      Mm.page_used (pmm s3) ((sig_stub_page s3 - Mm.HEAP_BASE) / 4096))
   | None => (-1, false, true)
   end) = (0, true, false).
Proof. vm_compute. reflexivity. Qed.

(** Splitting the 4th gigabyte drops its cache-disable bit. *)
Example split_drops_pcd :
  let s := (vm_map_page ex_ctx 0xC0000000 0x100000 15 ex_create.1).1 in
  let e3 := entry s (P_ADDR (entry s (pml4_phys s ex_ctx) 0)) 3 in
  Z.land (entry s (P_ADDR e3) (IDX2 0xFEE00000)) PTE_PCD = 0.
Proof. vm_compute. reflexivity. Qed.
End VmSpace.
