(* ===== verification/Shm.v ===== *)
(** Shared memory segments (src/src/kernel/syscall/shm.c): a table of eight
    segments of physical pages that processes map into their address spaces. *)
From S2P Require Import Prelude Memory Phys Vm VmSpace.

Module Shm.
Import Phys Vm VmSpace.

Definition SHM_MAX_SEGS : Z := 8.
Definition SHM_ATTACH_BASE : Z := 0x6000000000.
Definition SHM_RDONLY : Z := 0x1000.
Definition SHM_PTE_ADDR_MSK : Z := 0x000FFFFFFFFFF000.
Definition ERR : Z := 2 ^ 64 - 1.

Record shm_seg_t := Seg { key : Z; size : Z; phys : Z; ref : Z; used : bool }.
#[export] Instance eta_seg : Eta shm_seg_t := fun s => Seg (key s) (size s) (phys s) (ref s) (used s).
Definition seg0 : shm_seg_t := Seg 0 0 0 0 false.
#[export] Instance inhabited_seg : Inhabited shm_seg_t := populate seg0.

(** The table and its lock, with the memory and the page tables. *)
Record shm := ShmSt { shm_segs : list shm_seg_t; shm_table_lock : bool; vm : vmst }.
#[export] Instance eta_shm : Eta shm := fun s => ShmSt (shm_segs s) (shm_table_lock s) (vm s).
Definition shm_bss (v : vmst) : shm := ShmSt (replicate (Z.to_nat SHM_MAX_SEGS) seg0) false v.

Definition seg (s : shm) (i : Z) : shm_seg_t := aget (shm_segs s) i.
Definition set_seg (i : Z) (x : shm_seg_t) (s : shm) : shm := s <| shm_segs := aset (shm_segs s) i x |>.

(** [None]: the spin on a lock that is held never ends. *)
Definition shm_lock (s : shm) : option shm := if shm_table_lock s then None else Some (s <| shm_table_lock := true |>).
Definition shm_unlock (s : shm) : shm := s <| shm_table_lock := false |>.

Definition shm_zero (p n : Z) (v : vmst) : vmst := v <| pmem := zero (pmem v) p n |>.

(** ** Walks of the page tables *)

(** The slot of the leaf of [vaddr], if the tables reach one through no huge page. *)
Definition leaf_slot (v : vmst) (mm vaddr : Z) : option Z :=
  let e4 := entry v (pml4_phys v mm) (IDX4 vaddr) in
  if negb (present e4) then None else
  let e3 := entry v (Z.land e4 SHM_PTE_ADDR_MSK) (IDX3 vaddr) in
  if negb (present e3) || huge e3 then None else
  let e2 := entry v (Z.land e3 SHM_PTE_ADDR_MSK) (IDX2 vaddr) in
  if negb (present e2) || huge e2 then None else
  let e1 := entry v (Z.land e2 SHM_PTE_ADDR_MSK) (IDX1 vaddr) in
  if negb (present e1) then None else Some (slot (Z.land e2 SHM_PTE_ADDR_MSK) (IDX1 vaddr)).

Definition shm_translate (v : vmst) (mm vaddr : Z) : Z :=
  match leaf_slot v mm vaddr with
  | Some sl => Z.land (ld64 (pmem v) sl) SHM_PTE_ADDR_MSK
  | None => 0
  end.

Definition shm_unmap_page (mm vaddr : Z) (v : vmst) : vmst * Z :=
  match leaf_slot v mm vaddr with
  | Some sl => (set_word sl 0 v, 0)
  | None => (v, -1)
  end.

(** ** shmget *)

(** Gives back [n] pages from [first] on; [None] when [pfree] leaves its bitmap. *)
Definition free_pages (first n : Z) (v : vmst) : option vmst :=
  m ← Mm.pfree_run (Z.to_nat n) first (pmm v); Some (v <| pmm := m |>).

(** The [n] allocations left; [i] of them are done and [first] was the first.
    On failure what is taken for the pages allocated is given back. *)
Fixpoint alloc_pages (n : nat) (i first : Z) (v : vmst) : option (vmst * option Z) :=
  match n with
  | O => Some (v, Some first)
  | S n' =>
      match pmalloc v with
      | (v1, None) => v2 ← free_pages first i v1; Some (v2, None)
      | (v1, Some p) => alloc_pages n' (i + 1) (if i =? 0 then p else first) v1
      end
  end.

Definition zero_pages (first n : Z) (v : vmst) : vmst :=
  foldl (fun v i => shm_zero (u64 (first + i * PAGE_SIZE)) PAGE_SIZE v) v (zrange (Z.to_nat n)).

Definition find_key (k : Z) (s : shm) : option Z :=
  if k =? 0 then None else Z.of_nat <$> find_index (fun x => used x && (key x =? k)) (shm_segs s).
Definition find_slot (s : shm) : option Z := Z.of_nat <$> find_index (fun x => negb (used x)) (shm_segs s).

(** The results are 64-bit words; [ERR] is -1. The flags are not looked at. *)
Definition sys_shmget (k sz flags : Z) (s : shm) : option (shm * Z) :=
  if sz =? 0 then Some (s, ERR) else
  s1 ← shm_lock s;
  match find_key k s1 with
  | Some i => Some (shm_unlock s1, i)
  | None =>
      match find_slot s1 with
      | None => Some (shm_unlock s1, ERR)
      | Some sl =>
          let pages := u64 (sz + PAGE_SIZE - 1) / PAGE_SIZE in
          '(v, r) ← alloc_pages (Z.to_nat pages) 0 0 (vm s1);
          match r with
          | None => Some (shm_unlock (s1 <| vm := v |>), ERR)
          | Some first =>
              let s2 := set_seg sl (Seg k (u64 (pages * PAGE_SIZE)) first 0 true) (s1 <| vm := zero_pages first pages v |>) in
              Some (shm_unlock s2, sl)
          end
      end
  end.

(** ** shmat *)
Definition attach_flags (flags : Z) : Z :=
  if negb (Z.land flags SHM_RDONLY =? 0) then Z.lor VM_USER VM_READ else Z.lor (Z.lor VM_USER VM_READ) VM_WRITE.

Fixpoint map_pages (ks : list Z) (mm vaddr p f : Z) (v : vmst) : vmst * bool :=
  match ks with
  | [] => (v, true)
  | i :: ks' =>
      let '(v1, r) := vm_map_page mm (u64 (vaddr + i * PAGE_SIZE)) (u64 (p + i * PAGE_SIZE)) f v in
      if r <? 0 then (v1, false) else map_pages ks' mm vaddr p f v1
  end.

(** [mm] is the context of the current task, 0 when there is none. *)
Definition sys_shmat (id addr flags mm : Z) (s : shm) : option (shm * Z) :=
  if SHM_MAX_SEGS <=? id then Some (s, ERR) else
  if mm =? 0 then Some (s, ERR) else
  s1 ← shm_lock s;
  let x := seg s1 id in
  if negb (used x) then Some (shm_unlock s1, ERR) else
  let vaddr := if addr =? 0 then SHM_ATTACH_BASE + id * PAGE_SIZE else Z.land addr (Z.lnot 0xFFF) in
  let '(v, ok) := map_pages (zrange (Z.to_nat (size x / PAGE_SIZE))) mm vaddr (phys x) (attach_flags flags) (vm s1) in
  let s2 := s1 <| vm := v |> in
  if (ok : bool) then Some (shm_unlock (set_seg id (x <| ref := u64 (ref x + 1) |>) s2), vaddr)
  else Some (shm_unlock s2, ERR).

(** ** shmdt *)
Definition in_seg (p : Z) (x : shm_seg_t) : bool := used x && (phys x <=? p) && (p <? u64 (phys x + size x)).

Definition unmap_pages (n mm base : Z) (v : vmst) : vmst :=
  foldl (fun v p => (shm_unmap_page mm (u64 (base + p * PAGE_SIZE)) v).1) v (zrange (Z.to_nat n)).

Definition sys_shmdt (addr mm : Z) (s : shm) : option (shm * Z) :=
  if mm =? 0 then Some (s, ERR) else
  let p := shm_translate (vm s) mm (Z.land addr (Z.lnot 0xFFF)) in
  if p =? 0 then Some (s, ERR) else
  s1 ← shm_lock s;
  match find_index (in_seg p) (shm_segs s1) with
  | Some n =>
      let i := Z.of_nat n in
      let x := seg s1 i in
      let v := unmap_pages (size x / PAGE_SIZE) mm (SHM_ATTACH_BASE + i * PAGE_SIZE) (vm s1) in
      Some (shm_unlock (set_seg i (if 0 <? ref x then x <| ref := ref x - 1 |> else x) (s1 <| vm := v |>)), 0)
  | None => Some (shm_unlock s1, ERR)
  end.

(** ** shmctl *)
Definition sys_shmctl (id cmd : Z) (s : shm) : option (shm * Z) :=
  if SHM_MAX_SEGS <=? id then Some (s, ERR) else
  s1 ← shm_lock s;
  let x := seg s1 id in
  if negb (used x) then Some (shm_unlock s1, ERR) else
  if cmd =? 0 then
    v ← free_pages (phys x) (size x / PAGE_SIZE) (vm s1);
    Some (shm_unlock (set_seg id seg0 (s1 <| vm := v |>)), 0)
  else Some (shm_unlock s1, ERR).

(** ** The table *)
#[local] Opaque Mm.HOT_ZONE_PAGES Mm.HEAP_BASE Mm.page_used zero.

(** A page of the allocator that no table uses. *)
Definition owned (T : labels) (v : vmst) (f : Z) : Prop := T !! f = None /\ taken v f.

(** Every segment of one page has a page of its own kind. *)
Record shm_ok (T : labels) (s : shm) : Prop := {
  so_len : length (shm_segs s) = Z.to_nat SHM_MAX_SEGS;
  so_lock : shm_table_lock s = false;
  so_vm : vm_ok T (vm s);
  so_page i : 0 <= i < SHM_MAX_SEGS -> used (seg s i) = true -> size (seg s i) = 4096 -> owned T (vm s) (phys (seg s i))
}.

Lemma owned_frame T v f : owned T v f -> frame_ok T v f.
Proof. intros [HT (i & Hi & -> & Hu)]. split; [done|]. intros j Hj E. apply page_of_inj in E. by subst. Qed.

Lemma owned_step T v T' v' f : vm_step T v T' v' -> owned T v f -> owned T' v' f.
Proof.
  intros Hst Ho. split; [|by eapply taken_extends; [apply (vs_mm _ _ _ _ Hst)|apply Ho]].
  by destruct (vm_step_frame_ok _ _ _ _ _ Hst (owned_frame _ _ _ Ho)).
Qed.

Lemma lock_unlock s : shm_table_lock s = false -> shm_unlock (s <| shm_table_lock := true |>) = s.
Proof. destruct s. cbn. by intros ->. Qed.

Lemma seg_set s i j x : length (shm_segs s) = Z.to_nat SHM_MAX_SEGS -> 0 <= i < SHM_MAX_SEGS -> 0 <= j ->
  seg (set_seg i x s) j = if decide (i = j) then x else seg s j.
Proof. intros Hl Hi Hj. unfold seg, set_seg. cbn. rewrite aget_aset by (unfold SHM_MAX_SEGS in *; lia). done. Qed.

Lemma shm_slot_free s i : length (shm_segs s) = Z.to_nat SHM_MAX_SEGS -> find_slot s = Some i -> 0 <= i < SHM_MAX_SEGS /\ used (seg s i) = false.
Proof.
  intros Hl. unfold find_slot. intros (n & Hn & ->)%fmap_Some. apply find_index_Some in Hn as (x & Hx & Hu & _).
  pose proof (lookup_lt_Some _ _ _ Hx). unfold SHM_MAX_SEGS in *. split; [lia|]. unfold seg. rewrite (aget_lookup _ _ _ Hx).
  by apply negb_true_iff.
Qed.

(** A new segment is found again by its key. *)
Lemma find_key_new k i x s : length (shm_segs s) = Z.to_nat SHM_MAX_SEGS -> 0 <= i < SHM_MAX_SEGS -> k <> 0 -> key x = k -> used x = true ->
  find_key k s = None -> find_key k (set_seg i x s) = Some i.
Proof.
  intros Hl Hi Hk Hkx Hu. unfold find_key. rewrite (proj2 (Z.eqb_neq k 0)) by done. intros Hn%fmap_None%find_index_None.
  assert (E : find_index (fun x => used x && (key x =? k)) (shm_segs (set_seg i x s)) = Some (Z.to_nat i)).
  { apply find_index_Some. exists x. unfold set_seg, aset. cbn. unfold SHM_MAX_SEGS in *. split_and!.
    - rewrite list_lookup_insert_eq by lia. done.
    - by rewrite Hu, Hkx, Z.eqb_refl.
    - intros j y Hj Hy. rewrite list_lookup_insert_ne in Hy by lia. rewrite Forall_lookup in Hn. by apply (Hn j). }
  rewrite E. cbn. f_equal. lia.
Qed.

(** ** Getting a segment of one page *)
Lemma one_page sz : 0 < sz <= 4096 -> u64 (sz + PAGE_SIZE - 1) / PAGE_SIZE = 1.
Proof.
  intros Hs. change PAGE_SIZE with 4096. rewrite u64_small by lia. symmetry. apply (Z.div_unique _ _ _ (sz - 1)); lia.
Qed.

Lemma taken_u64 v f : taken v f -> u64 f = f.
Proof. intros Ht. destruct (taken_aligned v f Ht) as [_ H]. change Mm.HEAP_BASE with 8388608 in H. apply u64_small. lia. Qed.

Record new_seg (T : labels) (s s' : shm) (k id : Z) : Prop := {
  ns_id : 0 <= id < SHM_MAX_SEGS;
  ns_ok : shm_ok T s';
  ns_step : vm_step T (vm s) T (vm s');
  ns_key : k <> 0 -> find_key k s' = Some id;
  ns_other c w : is_ctx T c -> lookup_va (vm s') c w = lookup_va (vm s) c w;
  ns_seg : exists f, seg s' id = Seg k 4096 f 0 true /\ new_frame (vm s) T (vm s') f (fun _ => 0)
}.

Lemma shmget_new T s k sz fl s' id : shm_ok T s -> 0 < sz <= 4096 -> find_key k s = None ->
  sys_shmget k sz fl s = Some (s', id) -> id <> ERR -> new_seg T s s' k id.
Proof.
  intros Hok Hsz Hk. unfold sys_shmget. rewrite (proj2 (Z.eqb_neq sz 0)) by lia. unfold shm_lock. rewrite (so_lock _ _ Hok). cbn [mbind option_bind].
  set (s1 := s <| shm_table_lock := true |>). change (find_key k s1) with (find_key k s). rewrite Hk. change (find_slot s1) with (find_slot s).
  destruct (find_slot s) as [i|] eqn:Ei; [|intros [= _ <-]; done]. destruct (shm_slot_free s i (so_len _ _ Hok) Ei) as [Hi Hu].
  rewrite one_page by done. change (Z.to_nat 1) with 1%nat. cbn [alloc_pages]. change (vm s1) with (vm s).
  destruct (pmalloc (vm s)) as [v [f|]] eqn:Ep; [|by intros [= _ <-]]. cbn [Z.eqb mbind option_bind].
  intros [= <- <-] _. change (u64 (1 * PAGE_SIZE)) with 4096. change (zero_pages f 1 v) with (shm_zero (u64 (f + 0)) PAGE_SIZE v).
  assert (Ea : vm_alloc_page (vm s) = (shm_zero f PAGE_SIZE v, Some f)) by (unfold vm_alloc_page; by rewrite Ep).
  destruct (alloc_page_frame T (vm s) _ _ (so_vm _ _ Hok) Ea) as (Hst & Hkp & Hf). rewrite Z.add_0_r, (taken_u64 _ _ (proj1 (nf_new _ _ _ _ _ Hf))).
  set (v' := shm_zero f PAGE_SIZE v) in *. set (x := Seg k 4096 f 0 true). cbn [set_seg].
  set (s2 := s1 <| vm := v' |>).
  assert (Hseg : forall j, 0 <= j -> seg (shm_unlock (set_seg i x s2)) j = if decide (i = j) then x else seg s j).
  { intros j Hj. exact (seg_set s2 i j x (so_len T s Hok) Hi Hj). }
  split; [done| |exact Hst| | |].
  - split; [cbn; rewrite length_aset; apply (so_len _ _ Hok)|done|apply (vs_ok _ _ _ _ Hst)|].
    intros j Hj. rewrite Hseg by lia. change (vm (shm_unlock _)) with v'. case_decide as E.
    + intros _ _. cbn. split; [apply (nf_label _ _ _ _ _ Hf)|apply (nf_new _ _ _ _ _ Hf)].
    + intros H1 H2. eapply owned_step; [exact Hst|]. by apply (so_page _ _ Hok).
  - intros Hk0. exact (find_key_new k i x s2 (so_len T s Hok) Hi Hk0 eq_refl eq_refl Hk).
  - intros c w Hc. by apply (keeps_lookup T (vm s) T v'); [apply (so_vm _ _ Hok)|..].
  - exists f. split; [rewrite Hseg by lia; by rewrite decide_True|exact Hf].
Qed.

(** ** Attaching a segment of one page *)
Record attached (T : labels) (s : shm) (id fl mm : Z) (T' : labels) (s' : shm) (va : Z) : Prop := {
  at_ok : shm_ok T' s';
  at_step : vm_step T (vm s) T' (vm s');
  at_va : va = SHM_ATTACH_BASE + id * 4096;
  at_seg : seg s' id = seg s id <| ref := u64 (ref (seg s id) + 1) |>;
  at_keys k : find_key k s' = find_key k s;
  at_page b : 0 <= b < 4096 -> exists p, lookup_va (vm s') mm (va + b) = Some (phys (seg s id) + b, p);
  at_other c w : is_ctx T c -> (c = mm -> vpn w <> vpn va) -> lookup_va (vm s') c w = lookup_va (vm s) c w
}.

Lemma attach_user fl : Z.testbit (attach_flags fl) 3 = true.
Proof. unfold attach_flags. by case_match. Qed.

Lemma shmat_one T s id fl mm s' va : shm_ok T s -> is_ctx T mm -> 0 <= id < SHM_MAX_SEGS -> used (seg s id) = true -> size (seg s id) = 4096 ->
  sys_shmat id 0 fl mm s = Some (s', va) -> va <> ERR -> exists T', attached T s id fl mm T' s' va.
Proof.
  intros Hok Hc Hid Hu Hsz. unfold sys_shmat. rewrite (proj2 (Z.leb_gt _ _)) by lia.
  rewrite (proj2 (Z.eqb_neq mm 0)) by (pose proof (label_pos _ _ _ _ (so_vm _ _ Hok) Hc); lia).
  unfold shm_lock. rewrite (so_lock _ _ Hok). cbn [mbind option_bind]. set (s1 := s <| shm_table_lock := true |>).
  change (seg s1 id) with (seg s id). rewrite Hu, Hsz. cbn [negb]. change (Z.to_nat (4096 / PAGE_SIZE)) with 1%nat. change (zrange 1) with [0].
  cbn [map_pages Z.eqb]. pose proof (so_page _ _ Hok id Hid Hu Hsz) as Ho. set (x := seg s id) in *. set (f := phys x) in *.
  unfold SHM_MAX_SEGS in Hid. change PAGE_SIZE with 4096. rewrite !Z.add_0_r, (taken_u64 _ _ (proj2 Ho)), u64_small by (unfold SHM_ATTACH_BASE; lia).
  change (vm s1) with (vm s). set (w := SHM_ATTACH_BASE + id * 4096).
  assert (Ef : P_ADDR f = f) by (apply P_ADDR_id, (taken_aligned (vm s)), Ho).
  pose proof (vm_map_page_spec T (vm s) mm w f (attach_flags fl) (so_vm _ _ Hok) Hc) as M. rewrite Ef in M. specialize (M ltac:(intros _; by apply owned_frame)).
  destruct (vm_map_page mm w f (attach_flags fl) (vm s)) as [v r]. cbn [fst snd] in M. destruct M as (T' & Hst & Hr & _ & Hother & Hpage).
  destruct Hr as [->| ->]; [|by intros [= _ <-]]. cbn [Z.ltb Z.compare]. intros [= <- <-] _. exists T'. specialize (Hpage eq_refl).
  assert (Hw : w mod 4096 = 0) by (unfold w; change SHM_ATTACH_BASE with (100663296 * 4096); rewrite <- Z.mul_add_distr_r; apply Z_mod_mult).
  set (y := x <| ref := u64 (ref x + 1) |>).
  set (s2 := s1 <| vm := v |>).
  assert (Hseg : forall j, 0 <= j -> seg (shm_unlock (set_seg id y s2)) j = if decide (id = j) then y else seg s j).
  { intros j Hj. exact (seg_set s2 id j y (so_len T s Hok) Hid Hj). }
  split.
  - split; [cbn; rewrite length_aset; apply (so_len _ _ Hok)|done|apply (vs_ok _ _ _ _ Hst)|].
    intros j Hj. rewrite Hseg by lia. intros H1 H2. eapply owned_step; [exact Hst|]. case_decide; [exact Ho|by apply (so_page _ _ Hok)].
  - exact Hst.
  - done.
  - rewrite Hseg by lia. by rewrite decide_True.
  - intros k. unfold find_key. cbn. case_match; [done|]. f_equal. unfold aset. apply (find_index_insert _ _ _ x); [|done].
    unfold x, seg, aget. apply list_lookup_lookup_total_lt. rewrite (so_len _ _ Hok). unfold SHM_MAX_SEGS. lia.
  - intros b Hb. eexists. change (vm (shm_unlock _)) with v.
    assert (Ev : vpn (w + b) = vpn w) by (unfold vpn; by rewrite (page_div w b) by lia).
    rewrite (proj1 (Hpage (w + b) Ev)), Ef. do 3 f_equal. rewrite <- Zplus_mod_idemp_l, Hw. apply Z.mod_small. lia.
  - intros c u Hcc Hne. change (vm (shm_unlock _)) with v. apply Hother; [done|]. intros _. exact Hne.
Qed.

(** ** Reading and writing through an attachment *)

(** The page of [mm] at [w] is the page [f] of memory. *)
Definition window (v : vmst) (mm w f : Z) : Prop := forall b, 0 <= b < 4096 -> exists p, lookup_va v mm (w + b) = Some (f + b, p).

Lemma window_tr v mm w f off b : 0 <= w < 2 ^ 63 -> window v mm w f -> 0 <= off + b < 4096 -> tr v mm (w + off) b = f + (off + b).
Proof.
  intros Hw Hf Hb. unfold tr. rewrite u64_small, <- Z.add_assoc by lia. rewrite vm_translate_walk.
  by destruct (Hf (off + b) Hb) as [p ->].
Qed.

Lemma window_buffer T v mm w f off n : 0 <= w < 2 ^ 63 -> vm_ok T v -> owned T v f -> window v mm w f -> 0 <= off -> off + n <= 4096 ->
  user_buffer T v mm (w + off) n.
Proof.
  intros Hw Hv Ho Hf H0 Hn. destruct (taken_aligned v f (proj2 Ho)) as [Ha Hr]. change Mm.HEAP_BASE with 8388608 in Hr. split.
  - intros b Hb. rewrite (window_tr v mm w f) by (done || lia). lia.
  - intros b t lab Hb Ht. rewrite (window_tr v mm w f) by (done || lia).
    assert (Hne : t <> f) by (intros ->; destruct Ho; congruence).
    destruct (aligned_disjoint t f (label_aligned _ _ _ _ Hv Ht) Ha Hne); lia.
  - intros b b' Hb Hb'. rewrite !(window_tr v mm w f) by (done || lia). lia.
Qed.

Lemma window_read v mm w f off n : 0 <= w < 2 ^ 63 -> 0 < mm -> window v mm w f -> 0 < f -> 0 <= off -> 0 <= n -> off + n <= 4096 ->
  vm_copy_from_user mm (w + off) n v = Some ((fun b => ld8 (pmem v) (f + (off + b))) <$> zrange (Z.to_nat n)).
Proof.
  intros Hw Hm Hf Hp H0 Hn He. unfold vm_copy_from_user. rewrite (proj2 (Z.eqb_neq mm 0)) by lia. rewrite copy_from_loop_spec; [|lia..|].
  - f_equal. apply list_fmap_ext. intros i b Hb%list_elem_of_lookup_2%elem_of_zrange. f_equal. apply window_tr; [done..|lia].
  - intros b Hb. rewrite (window_tr v mm w f) by (done || lia). lia.
Qed.

Lemma shared_write T v a b w f off src : 0 <= w < 2 ^ 63 -> vm_ok T v -> is_ctx T a -> is_ctx T b -> owned T v f -> window v a w f -> window v b w f ->
  0 <= off -> off + Z.of_nat (length src) <= 4096 -> Forall (fun x => 0 <= x < 256) src ->
  let '(v', r) := vm_copy_to_user a (w + off) src v in
  r = 0 /\ vm_copy_from_user b (w + off) (Z.of_nat (length src)) v' = Some src.
Proof.
  intros Hw Hv Ha Hb Ho Fa Fb H0 Hn Hsrc. pose proof (label_pos _ _ _ _ Hv Ha). pose proof (label_pos _ _ _ _ Hv Hb).
  unfold vm_copy_to_user. rewrite (proj2 (Z.eqb_neq a 0)) by lia.
  destruct (copy_to_loop_spec T a (length src) (w + off) src v Hv Ha) as [Hr (_ & _ & _ & Hk & Hin & _)]; [by eapply window_buffer|lia|done|].
  destruct (copy_to_loop _ a _ src v) as [v' r]. cbn [fst snd] in *. split; [done|].
  assert (Fb' : window v' b w f).
  { intros x Hx. destruct (Fb x Hx) as [p Hp]. exists p. rewrite <- Hp. unfold lookup_va. rewrite !pml4_entry, (Hk b _ 0 Hb) by lia.
    rewrite <- pml4_entry. apply (walk_keeps T v v' Hv Hk 4 _ b 0); [by apply (vo_ctx _ _ Hv)|lia]. }
  destruct (taken_aligned v f (proj2 Ho)) as [_ Hr']. change Mm.HEAP_BASE with 8388608 in Hr'.
  rewrite (window_read v' b w f) by (done || lia). f_equal. rewrite Nat2Z.id. apply list_eq. intros i. rewrite list_lookup_fmap.
  destruct (decide (i < length src)%nat) as [Hi|Hi].
  - rewrite lookup_zrange by done. cbn. rewrite <- (window_tr v a w f) by (done || lia). rewrite Hin by lia. unfold aget. rewrite Nat2Z.id.
    symmetry. apply list_lookup_lookup_total_lt. done.
  - rewrite !lookup_ge_None_2; [done|lia|rewrite length_zrange; lia].
Qed.

(** C26: A segment of at most a page is shared. After one process gets it with a
    key not in use and two attach it, both see it at the same address, it is
    zero throughout, what the one writes through its page tables the other
    reads through its own, and asking for the key again gives the segment.
    Outside that page no translation has changed. *)
Theorem shm_shared_page T s k sz fl id s1 a fa va s2 b fb vb s3 :
  shm_ok T s -> is_ctx T a -> is_ctx T b -> a <> b -> 0 < sz <= 4096 -> find_key k s = None ->
  sys_shmget k sz fl s = Some (s1, id) -> id <> ERR ->
  sys_shmat id 0 fa a s1 = Some (s2, va) -> va <> ERR ->
  sys_shmat id 0 fb b s2 = Some (s3, vb) -> vb <> ERR ->
  va = vb /\ vm_copy_from_user b va 4096 (vm s3) = Some (replicate 4096 0) /\
  (forall off src, 0 <= off -> off + Z.of_nat (length src) <= 4096 -> Forall (fun x => 0 <= x < 256) src ->
    let '(v, r) := vm_copy_to_user a (va + off) src (vm s3) in
    r = 0 /\ vm_copy_from_user b (vb + off) (Z.of_nat (length src)) v = Some src) /\
  (forall sz' fl', k <> 0 -> sz' <> 0 -> sys_shmget k sz' fl' s3 = Some (s3, id)) /\
  (forall c w, is_ctx T c -> vpn w <> vpn va -> lookup_va (vm s3) c w = lookup_va (vm s) c w).
Proof.
  intros Hok Ha Hb Hab Hsz Hk Eg Hid Ea Hva Eb Hvb.
  destruct (shmget_new T s k sz fl s1 id Hok Hsz Hk Eg Hid) as [Hi Ok1 St1 Key1 Ot1 (f & Sg & Nf)].
  pose proof (step_ctx _ _ _ _ a St1 Ha) as Ha1. pose proof (step_ctx _ _ _ _ b St1 Hb) as Hb1.
  destruct (shmat_one T s1 id fa a s2 va Ok1 Ha1 Hi) as (T2 & [Ok2 St2 -> Sg2 Key2 Pg2 Ot2]); [by rewrite Sg..|done|done|].
  pose proof (step_ctx _ _ _ _ a St2 Ha1) as Ha2. pose proof (step_ctx _ _ _ _ b St2 Hb1) as Hb2. rewrite Sg in *. cbn in Sg2.
  destruct (shmat_one T2 s2 id fb b s3 vb Ok2 Hb2 Hi) as (T3 & [Ok3 St3 -> Sg3 Key3 Pg3 Ot3]); [by rewrite Sg2..|done|done|].
  rewrite Sg2 in *. cbn [phys] in *. change (phys (_ <| ref := _ |>)) with f in *. set (w := SHM_ATTACH_BASE + id * 4096) in *. unfold SHM_MAX_SEGS in Hi.
  assert (Hw : 0 <= w < 2 ^ 63) by (unfold w, SHM_ATTACH_BASE; lia).
  assert (Fb : window (vm s3) b w f) by exact Pg3.
  assert (Fa : window (vm s3) a w f).
  { intros x Hx. destruct (Pg2 x Hx) as [p Hp]. exists p. rewrite <- Hp. by apply Ot3. }
  assert (Of : owned T (vm s1) f) by (split; [apply (nf_label _ _ _ _ _ Nf)|apply (nf_new _ _ _ _ _ Nf)]).
  assert (Of3 : owned T3 (vm s3) f) by (do 2 (eapply owned_step; [eassumption|]); done).
  destruct (taken_aligned _ f (proj2 Of3)) as [_ Hf]. change Mm.HEAP_BASE with 8388608 in Hf.
  pose proof (step_ctx _ _ _ _ a St3 Ha2) as Ha3. pose proof (step_ctx _ _ _ _ b St3 Hb2) as Hb3.
  split_and!; [done| | | |].
  - rewrite <- (Z.add_0_r w). rewrite (window_read (vm s3) b w f) by (done || lia || by eapply label_pos; [exact (so_vm _ _ Ok3)|]).
    f_equal. change (Z.to_nat 4096) with 4096%nat. pose proof (new_frame_step _ _ _ _ _ _ _ (so_vm _ _ Ok1) St2 Nf) as N2.
    pose proof (nf_bytes _ _ _ _ _ (new_frame_step _ _ _ _ _ _ _ (so_vm _ _ Ok2) St3 N2)) as Hz.
    rewrite (const_fmap _ _ 0); [by rewrite length_zrange|].
    intros i x Hx%list_elem_of_lookup_2%elem_of_zrange. cbn. apply Hz. lia.
  - intros off src H0 Hn Hsrc. by apply (shared_write T3 (vm s3) a b w f); [|apply (so_vm _ _ Ok3)|..].
  - intros sz' fl' Hk0 Hs'. unfold sys_shmget. rewrite (proj2 (Z.eqb_neq sz' 0)) by done. unfold shm_lock. rewrite (so_lock _ _ Ok3). cbn [mbind option_bind].
    change (find_key k (s3 <| shm_table_lock := true |>)) with (find_key k s3). rewrite Key3, Key2, Key1 by done. by rewrite (lock_unlock s3) by apply (so_lock _ _ Ok3).
  - intros c u Hc Hu. pose proof (step_ctx _ _ _ _ c St1 Hc) as Hc1. pose proof (step_ctx _ _ _ _ c St2 Hc1) as Hc2.
    rewrite Ot3, Ot2, Ot1 by done. done.
Qed.

(** ** Witness: two contexts over the boot tables *)
Definition ex_two : vmst * Z := vm_create ex_create.1.
Definition ex_shm : shm := shm_bss ex_two.1.

Lemma ex_shm_ok : exists T, shm_ok T ex_shm /\ is_ctx T ex_ctx /\ is_ctx T ex_two.2.
Proof.
  destruct ex_create_ok as (T & H1 & H2). destruct (vm_create_spec T ex_create.1 H1) as (T' & V & _ & _ & N).
  { intros H. assert (E : (sig_stub_page ex_create.1 =? 0) = true) by (vm_compute; reflexivity). apply Z.eqb_eq in E. destruct (H E). }
  exists T'. split_and!.
  - split; [done|done|exact (vs_ok _ _ _ _ V)|]. intros i Hi Hu. unfold ex_shm, seg, shm_bss in Hu. cbn [shm_segs] in Hu.
    rewrite aget_replicate in Hu by (unfold SHM_MAX_SEGS in *; lia). done.
  - exact (step_ctx _ _ _ _ _ V H2).
  - apply N. assert (E : ((vm_create ex_create.1).2 =? 0) = false) by (vm_compute; reflexivity). apply Z.eqb_neq in E. exact E.
Qed.

(** Getting the segment and attaching it in both contexts. *)
Definition ex_get : option (shm * Z) := sys_shmget 42 100 0 ex_shm.
Definition ex_att (m : Z) (r : option (shm * Z)) : option (shm * Z) := '(s, _) ← r; sys_shmat 0 0 0 m s.

Lemma ex_runs : snd <$> ex_get = Some 0 /\ snd <$> ex_att ex_ctx ex_get = Some 0x6000000000 /\
  snd <$> ex_att ex_two.2 (ex_att ex_ctx ex_get) = Some 0x6000000000 /\ (ex_ctx =? ex_two.2) = false.
Proof. vm_compute. done. Qed.
#[local] Opaque ex_shm ex_two ex_create.

Lemma shm_shared_page_witness :
  exists s3, ex_att ex_two.2 (ex_att ex_ctx ex_get) = Some (s3, 0x6000000000) /\
    let '(v, r) := vm_copy_to_user ex_ctx (0x6000000000 + 10) [7; 8] (vm s3) in
    r = 0 /\ vm_copy_from_user ex_two.2 (0x6000000000 + 10) 2 v = Some [7; 8].
Proof.
  destruct ex_shm_ok as (T & Hok & Ha & Hb). destruct ex_runs as (Eg & Ea & Eb & Hne). apply Z.eqb_neq in Hne.
  unfold ex_att in *. destruct ex_get as [[s1 id]|] eqn:E1; [|discriminate Eg]. injection Eg as ->. cbn [mbind option_bind] in *.
  destruct (sys_shmat 0 0 0 ex_ctx s1) as [[s2 va]|] eqn:E2; [|discriminate Ea]. injection Ea as ->. cbn [mbind option_bind] in *.
  destruct (sys_shmat 0 0 0 ex_two.2 s2) as [[s3 vb]|] eqn:E3; [|discriminate Eb]. injection Eb as ->.
  destruct (shm_shared_page T ex_shm 42 100 0 0 s1 ex_ctx 0 0x6000000000 s2 ex_two.2 0 0x6000000000 s3 Hok Ha Hb Hne) as (_ & _ & H & _);
    [lia|vm_compute; reflexivity|exact E1|done|exact E2|done|exact E3|done|].
  exists s3. split; [reflexivity|]. apply (H 10 [7; 8]); [lia|cbn; lia|repeat constructor; lia].
Defined.

(** ** Where the sharing breaks *)

(** A segment of two pages when the allocator does not give neighbours: three
    pages are taken and the outer two given back, so the segment gets these,
    and the page behind its first, which somebody else holds, is cleared. *)
Definition split_heap : option (vmst * Z) :=
  match pmalloc ex_create.1 with
  | (v1, Some p0) =>
      match pmalloc v1 with
      | (v2, Some p1) =>
          match pmalloc v2 with
          | (v3, Some p2) =>
              m ← Mm.pfree p0 (pmm v3); m ← Mm.pfree p2 m;
              Some (set_word p1 7 (v3 <| pmm := m |>), p1)
          | _ => None
          end
      | _ => None
      end
  | _ => None
  end.

Example shm_clears_foreign_page :
  exists v p s, split_heap = Some (v, p) /\ ld64 (pmem v) p = 7 /\ Mm.page_used (pmm v) ((p - Mm.HEAP_BASE) / 4096) = true /\
    sys_shmget 1 8192 0 (shm_bss v) = Some (s, 0) /\ ld64 (pmem (vm s)) p = 0.
Proof.
  assert (E : (match split_heap with
    | Some (v, p) => match sys_shmget 1 8192 0 (shm_bss v) with
        | Some (s, i) => (ld64 (pmem v) p =? 7) && Mm.page_used (pmm v) ((p - Mm.HEAP_BASE) / 4096) && (i =? 0) && (ld64 (pmem (vm s)) p =? 0)
        | None => false end
    | None => false end) = true) by (vm_compute; reflexivity).
  destruct split_heap as [[v p]|]; [|discriminate E]. destruct (sys_shmget 1 8192 0 (shm_bss v)) as [[s i]|] eqn:Es; [|discriminate E].
  rewrite !andb_true_iff in E. destruct E as [[[E1%Z.eqb_eq E2] E3%Z.eqb_eq] E4%Z.eqb_eq]. subst i. by exists v, p, s.
Qed.

(** Detaching what was attached at an address of the caller's choice reports
    success and leaves it mapped: the walk clears the default place. *)
Example shm_detach_elsewhere :
  (r ← ex_get; '(s, a) ← sys_shmat 0 0x7000000000 0 ex_ctx r.1; '(s', d) ← sys_shmdt 0x7000000000 ex_ctx s;
   Some (a, d, ref (seg s' 0), vm_translate (vm s') ex_ctx 0x7000000000 =? phys (seg s' 0))) = Some (0x7000000000, 0, 0, true).
Proof. vm_compute. reflexivity. Qed.

(** Removing a segment frees its page although a process still maps it. *)
Example shm_remove_attached :
  ('(s, a) ← ex_att ex_ctx ex_get; '(s', r) ← sys_shmctl 0 0 s;
   let p := vm_translate (vm s') ex_ctx a in Some (r, p =? phys (seg s 0), Mm.page_used (pmm (vm s')) ((p - Mm.HEAP_BASE) / 4096))) =
  Some (0, true, false).
Proof. vm_compute. reflexivity. Qed.

(** A size within a page of 2^64 wraps to no pages and succeeds. *)
Example shm_wrapped_size : ('(s, r) ← sys_shmget 5 (2 ^ 64 - 1) 0 ex_shm; Some (r, size (seg s 0), phys (seg s 0))) = Some (0, 0, 0).
Proof. vm_compute. reflexivity. Qed.
End Shm.
