(* ===== verification/Elf.v ===== *)
(** The ELF loader (src/src/kernel/elf/loader.c, interp.c): an image held in a
    kernel buffer is mapped into a fresh address space, with its interpreter,
    a stack and a break; then the initial stack of the program is written. *)
From S2P Require Import Prelude Memory Phys Vm Vfs.

Module Elf.
Import Phys Vm.

(** ** Headers

    The fields are read from memory when the code reads them. *)
Definition ELFCLASS64 : Z := 2.
Definition ELFDATA2LSB : Z := 1.
Definition ET_EXEC : Z := 2.
Definition ET_DYN : Z := 3.
Definition PT_LOAD : Z := 1.
Definition PT_INTERP : Z := 3.
Definition PT_PHDR : Z := 6.
Definition PF_X : Z := 1.
Definition PF_W : Z := 2.
Definition PF_R : Z := 4.

Definition ld16 (m : mem) (a : Z) : Z := ld_le 2 m a.
Definition ld32 (m : mem) (a : Z) : Z := ld_le 4 m a.
Definition ldw (m : mem) (a : Z) : Z := ld64 m a.

(** [elf64_ehdr_t] at [d]. *)
Definition e_ident (m : mem) (d i : Z) : Z := ld8 m (d + i).
Definition e_type (m : mem) (d : Z) : Z := ld16 m (d + 16).
Definition e_entry (m : mem) (d : Z) : Z := ldw m (d + 24).
Definition e_phoff (m : mem) (d : Z) : Z := ldw m (d + 32).
Definition e_phentsize (m : mem) (d : Z) : Z := ld16 m (d + 54).
Definition e_phnum (m : mem) (d : Z) : Z := ld16 m (d + 56).

(** [elf64_phdr_t] at [ph]. *)
Definition p_type (m : mem) (ph : Z) : Z := ld32 m ph.
Definition p_flags (m : mem) (ph : Z) : Z := ld32 m (ph + 4).
Definition p_offset (m : mem) (ph : Z) : Z := ldw m (ph + 8).
Definition p_vaddr (m : mem) (ph : Z) : Z := ldw m (ph + 16).
Definition p_filesz (m : mem) (ph : Z) : Z := ldw m (ph + 32).
Definition p_memsz (m : mem) (ph : Z) : Z := ldw m (ph + 40).

(** Header [i]; the product is an [int]. *)
Definition phdr_at (m : mem) (d i : Z) : Z := u64 (d + e_phoff m d + i32 (i * e_phentsize m d)).

Definition magic_ok (m : mem) (d : Z) : bool :=
  (e_ident m d 0 =? 0x7F) && (e_ident m d 1 =? 69) && (e_ident m d 2 =? 76) && (e_ident m d 3 =? 70).
Definition type_ok (m : mem) (d : Z) : bool := (e_type m d =? ET_EXEC) || (e_type m d =? ET_DYN).

(** ** Segments *)
Definition copy_bytes (dst src n : Z) (v : vmst) : vmst := v <| pmem := copy (pmem v) dst src n |>.

Definition seg_flags (f : Z) : Z :=
  let r := VM_USER in
  let r := if negb (Z.land f PF_X =? 0) then Z.lor r VM_EXEC else r in
  let r := if negb (Z.land f PF_W =? 0) then Z.lor r VM_WRITE else r in
  if negb (Z.land f PF_R =? 0) then Z.lor r VM_READ else r.

(** One page of a segment: a fresh page, the bytes of the file that fall into
    it ([src] is [data + offset]), and the mapping. *)
Definition load_page (src vaddr filesz flags ctx a : Z) (v : vmst) : vmst * bool :=
  match vm_alloc_page v with
  | (v1, None) => (v1, false)
  | (v1, Some page) =>
      let lo := if vaddr <? a then a else vaddr in
      let hi := if u64 (a + PAGE_SIZE) <? u64 (vaddr + filesz) then u64 (a + PAGE_SIZE) else u64 (vaddr + filesz) in
      let v2 := if lo <? hi then copy_bytes (u64 (page + (lo - a))) (u64 (src + (lo - vaddr))) (hi - lo) v1 else v1 in
      let '(v3, r) := vm_map_page ctx a page flags v2 in (v3, negb (r <? 0))
  end.

Fixpoint load_pages (n : nat) (src vaddr filesz flags ctx a : Z) (v : vmst) : vmst * bool :=
  match n with
  | O => (v, true)
  | S n' =>
      let '(v1, ok) := load_page src vaddr filesz flags ctx a v in
      if ok : bool then load_pages n' src vaddr filesz flags ctx (a + PAGE_SIZE) v1 else (v1, false)
  end.

(** Both ends of the loop are multiples of the page size, so its variable
    does not wrap. *)
Definition map_load_segment (data ph ctx bias : Z) (v : vmst) : vmst * Z :=
  let vaddr := u64 (p_vaddr (pmem v) ph + bias) in
  let offset := p_offset (pmem v) ph in
  let filesz := p_filesz (pmem v) ph in
  let memsz := p_memsz (pmem v) ph in
  if memsz =? 0 then (v, 0) else
  let flags := seg_flags (p_flags (pmem v) ph) in
  let seg_start := page_down vaddr in
  let seg_end := page_down (u64 (vaddr + memsz + 0xFFF)) in
  let '(v1, ok) := load_pages (Z.to_nat ((seg_end - seg_start) / PAGE_SIZE)) (u64 (data + offset)) vaddr filesz flags ctx seg_start v in
  (v1, if ok : bool then 0 else -1).

(** ** elf_map_program

    A [for] loop over a 16-bit counter: [2^16] rounds are enough. *)
Fixpoint map_loads (fuel : nat) (i data ctx bias : Z) (v : vmst) : vmst * Z :=
  match fuel with
  | O => (v, 0)
  | S f =>
      if i <? e_phnum (pmem v) data then
        let ph := phdr_at (pmem v) data i in
        if p_type (pmem v) ph =? PT_LOAD then
          let '(v1, r) := map_load_segment data ph ctx bias v in
          if r <? 0 then (v1, -1) else map_loads f (i + 1) data ctx bias v1
        else map_loads f (i + 1) data ctx bias v
      else (v, 0)
  end.

(** The result, and the entry point written when it is 0. *)
Definition elf_map_program (data ctx base : Z) (v : vmst) : vmst * option Z :=
  if (data =? 0) || (ctx =? 0) then (v, None) else
  if negb (magic_ok (pmem v) data) then (v, None) else
  if negb (type_ok (pmem v) data) then (v, None) else
  let bias := if e_type (pmem v) data =? ET_DYN then base else 0 in
  let '(v1, r) := map_loads (Z.to_nat (2 ^ 16)) 0 data ctx bias v in
  if r <? 0 then (v1, None) else (v1, Some (u64 (e_entry (pmem v1) data + bias))).

(** ** The load context *)
Record elf_context_t := ElfCtx {
  entry : Z;
  main_entry : Z;
  stack_top : Z;
  base : Z;
  brk_start : Z;
  brk_end : Z;
  phdr_count : Z;
  phdr_entsize : Z;
  phdr_addr : Z;
  interp_base : Z;
  vmctx : Z;
  interp_path : list Z
}.
#[export] Instance eta_ctx : Eta elf_context_t := fun c =>
  ElfCtx (entry c) (main_entry c) (stack_top c) (base c) (brk_start c) (brk_end c) (phdr_count c) (phdr_entsize c)
    (phdr_addr c) (interp_base c) (vmctx c) (interp_path c).

Definition USER_STACK_SIZE : Z := 4 * 1024 * 1024.
Definition USER_STACK_TOP : Z := 0x8000000000.
Definition LOAD_BASE : Z := 0x4000000000.
Definition INTERP_BASE : Z := 0x7F0000000000.

(** At most [n] bytes up to a NUL. *)
Fixpoint read_str (n : nat) (m : mem) (a : Z) : list Z :=
  match n with
  | O => []
  | S n' => if ld8 m a =? 0 then [] else ld8 m a :: read_str n' m (a + 1)
  end.

Section Loader.
  (** The files: an interface with [vfs_open] for reading, over the operation
      tables of the file layer. *)
  Context {E : Type} {FO : Vfs.FileOps E} (vfs_open : list Z -> E -> E * option Z).

(** Memory, the files, and the static variables of interp.c. *)
Record loader := Loader { lvm : vmst; lfs : E; s_interp_path : option (list Z); s_interp_base : Z }.

Definition on_vm (f : vmst -> vmst) (s : loader) : loader := Loader (f (lvm s)) (lfs s) (s_interp_path s) (s_interp_base s).
Definition set_fs (e : E) (s : loader) : loader := Loader (lvm s) e (s_interp_path s) (s_interp_base s).

Definition pmalloc_contig (n : Z) (v : vmst) : vmst * option Z :=
  let '(m, r) := Mm.pmalloc_contig (Mm.paddr_linear_ok (ld64 (pmem v)) (cr3 v)) (i32 n) (pmm v) in
  (v <| pmm := m |>, r).

Definition MAX_FILE : Z := 16 * 1024 * 1024.

(** [vfs_read] into the buffer [buf]. *)
Definition read_into (f buf n : Z) (s : loader) : loader * Z :=
  let '(e, (r, bytes)) := Vfs.vfs_read (Some f) n (lfs s) in
  (on_vm (fun v => v <| pmem := st_bytes (pmem v) buf bytes |>) (set_fs e s), r).

Definition close (f : Z) (s : loader) : loader := set_fs (Vfs.vfs_close (Some f) (lfs s)).1 s.

Definition read_whole_file (path : list Z) (s : loader) : loader * option Z :=
  match vfs_open path (lfs s) with
  | (e, None) => (set_fs e s, None)
  | (e, Some f) =>
      let s := set_fs e s in
      let fsize := u64 (Vfs.f_size (Vfs.file_at e f)) in
      if (fsize =? 0) || (MAX_FILE <? fsize) then (close f s, None) else
      match pmalloc_contig ((fsize + 0xFFF) / 0x1000) (lvm s) with
      | (v, None) => (close f (on_vm (fun _ => v) s), None)
      | (v, Some buf) =>
          let '(s1, r) := read_into f buf fsize (on_vm (fun _ => v) s) in
          if r =? fsize then (close f s1, Some buf) else (close f s1, None)
      end
  end.

Definition elf_load_interp (ctx : Z) (path : list Z) (s : loader) : loader * option Z :=
  if ctx =? 0 then (s, None) else
  match read_whole_file path s with
  | (s1, None) => (s1, None)
  | (s1, Some data) =>
      match elf_map_program data ctx INTERP_BASE (lvm s1) with
      | (v, None) => (on_vm (fun _ => v) s1, None)
      | (v, Some e) => (Loader v (lfs s1) (Some path) INTERP_BASE, Some e)
      end
  end.

(** ** elf_load_from_mem *)

(** One program header; [mx] is [max_vaddr]. *)
Definition load_phdr (data ph bias mx : Z) (v : vmst) (c : elf_context_t) : vmst * elf_context_t * Z * bool :=
  let t := p_type (pmem v) ph in
  if t =? PT_LOAD then
    let '(v1, r) := map_load_segment data ph (vmctx c) bias v in
    if r <? 0 then (v1, c, mx, false) else
    let en := u64 (p_vaddr (pmem v1) ph + bias + p_memsz (pmem v1) ph) in
    (v1, c, if mx <? en then en else mx, true)
  else if t =? PT_INTERP then (v, c <| interp_path := read_str 63 (pmem v) (u64 (data + p_offset (pmem v) ph)) |>, mx, true)
  else if t =? PT_PHDR then (v, c <| phdr_addr := u64 (p_vaddr (pmem v) ph + bias) |>, mx, true)
  else (v, c, mx, true).

Fixpoint load_phdrs (fuel : nat) (i data bias mx : Z) (v : vmst) (c : elf_context_t) : vmst * elf_context_t * Z * bool :=
  match fuel with
  | O => (v, c, mx, true)
  | S f =>
      if i <? e_phnum (pmem v) data then
        let '(v1, c1, mx1, ok) := load_phdr data (phdr_at (pmem v) data i) bias mx v c in
        if ok : bool then load_phdrs f (i + 1) data bias mx1 v1 c1 else (v1, c1, mx1, false)
      else (v, c, mx, true)
  end.

Definition header_ok (m : mem) (d : Z) : bool :=
  magic_ok m d && (e_ident m d 4 =? ELFCLASS64) && (e_ident m d 5 =? ELFDATA2LSB) && type_ok m d.

Definition first_context (v : vmst) (data ctx : Z) (c : elf_context_t) : elf_context_t :=
  ElfCtx (entry c) (u64 (e_entry (pmem v) data + (if e_type (pmem v) data =? ET_DYN then LOAD_BASE else 0))) (stack_top c) LOAD_BASE 0 0
    (e_phnum (pmem v) data) (e_phentsize (pmem v) data) 0 0 ctx [].

(** Steps 7 to 9: the entry point, the stack and the break. *)
Definition load_rest (data bias mx : Z) (s : loader) (c : elf_context_t) : loader * elf_context_t * Z :=
  let c := c <| entry := u64 (e_entry (pmem (lvm s)) data + bias) |> in
  let '(s1, c1, ok) :=
    match interp_path c with
    | [] => (s, c, true)
    | p => match elf_load_interp (vmctx c) p s with
           | (s1, Some e) => (s1, c <| entry := e |> <| interp_base := s_interp_base s1 |>, true)
           | (s1, None) => (s1, c, false)
           end
    end in
  if negb ok then (s1, c1, -1) else
  let '(v2, r) := vm_map (vmctx c1) (USER_STACK_TOP - USER_STACK_SIZE) USER_STACK_SIZE (VM_READ + VM_WRITE + VM_USER) (lvm s1) in
  let s2 := on_vm (fun _ => v2) s1 in
  if r <? 0 then (s2, c1, -1) else
  let b := page_down (u64 (mx + 0xFFF)) in
  let b := if b =? 0 then 0x600000 else b in
  (on_vm (set_word (vmctx c1 + 8) b) s2, c1 <| stack_top := USER_STACK_TOP |> <| brk_start := b |> <| brk_end := b |>, 0).

Definition elf_load_from_mem (data : Z) (c : elf_context_t) (s : loader) : loader * elf_context_t * Z :=
  if data =? 0 then (s, c, -1) else
  if negb (header_ok (pmem (lvm s)) data) then (s, c, -1) else
  let '(v, ctx) := vm_create (lvm s) in
  let s := on_vm (fun _ => v) s in
  if ctx =? 0 then (s, c, -1) else
  let c := first_context v data ctx c in
  let bias := if e_type (pmem v) data =? ET_DYN then base c else 0 in
  let '(v, c, mx, ok) := load_phdrs (Z.to_nat (2 ^ 16)) 0 data bias 0 v c in
  let s := on_vm (fun _ => v) s in
  if negb ok then (s, c, -1) else load_rest data bias mx s c.

(** The default places of the linker: "/lib/ld-linux-x86-64.so.2" and the same
    under /lib64. *)
Definition interp_candidates : list (list Z) :=
  let name := [108; 100; 45; 108; 105; 110; 117; 120; 45; 120; 56; 54; 45; 54; 52; 46; 115; 111; 46; 50] in
  [[47; 108; 105; 98; 47] ++ name; [47; 108; 105; 98; 54; 52; 47] ++ name].

Fixpoint try_candidates (l : list (list Z)) (s : loader) : loader * Z :=
  match l with
  | [] => (s, 0)
  | p :: l' => match vfs_open p (lfs s) with
               | (e, Some f) => (close f (set_fs e s), 1)
               | (e, None) => try_candidates l' (set_fs e s)
               end
  end.
Definition elf_interp_available (s : loader) : loader * Z := try_candidates interp_candidates s.

(** The file is not closed and the buffer not given back. *)
Definition elf_load (path : list Z) (c : elf_context_t) (s : loader) : loader * elf_context_t * Z :=
  match vfs_open path (lfs s) with
  | (e, None) => (set_fs e s, c, -1)
  | (e, Some f) =>
      let s := set_fs e s in
      let fsize := u64 (Vfs.f_size (Vfs.file_at e f)) in
      if (fsize =? 0) || (MAX_FILE <? fsize) then (s, c, -1) else
      match pmalloc_contig ((fsize + 0xFFF) / 0x1000) (lvm s) with
      | (v, None) => (on_vm (fun _ => v) s, c, -1)
      | (v, Some buf) =>
          let '(s1, r) := read_into f buf fsize (on_vm (fun _ => v) s) in
          if r =? fsize then elf_load_from_mem buf c s1 else (s1, c, -1)
      end
  end.

Definition elf_unload (c : elf_context_t) (s : loader) : loader := s.
End Loader.

(** ** The initial stack *)
Definition le64 (x : Z) : list Z := (fun i => u8 (x / 256 ^ i)) <$> zrange 8.

Definition push_bytes (ctx sp : Z) (l : list Z) (v : vmst) : vmst * option Z :=
  let '(v1, r) := vm_copy_to_user ctx sp l v in (v1, if r <? 0 then None else Some sp).

Definition push_u64 (ctx sp x : Z) (v : vmst) : vmst * option Z := push_bytes ctx (u64 (sp - 8)) (le64 x) v.

(** The new stack pointer is the address of the string. *)
Definition push_str (ctx sp : Z) (s : list Z) (v : vmst) : vmst * option Z :=
  push_bytes ctx (u64 (sp - (Z.of_nat (length s) + 1))) (s ++ [0]) v.

(** The addresses of the strings, in order, and the stack pointer. *)
Fixpoint push_strs (ctx sp : Z) (l : list (list Z)) (v : vmst) : vmst * option (Z * list Z) :=
  match l with
  | [] => (v, Some (sp, []))
  | s :: l' =>
      match push_str ctx sp s v with
      | (v1, None) => (v1, None)
      | (v1, Some sp1) =>
          match push_strs ctx sp1 l' v1 with
          | (v2, None) => (v2, None)
          | (v2, Some (sp2, ps)) => (v2, Some (sp2, sp1 :: ps))
          end
      end
  end.

(** In the order of the list, so that the first ends up highest. *)
Fixpoint push_words (ctx sp : Z) (l : list Z) (v : vmst) : vmst * option Z :=
  match l with
  | [] => (v, Some sp)
  | x :: l' => match push_u64 ctx sp x v with
               | (v1, None) => (v1, None)
               | (v1, Some sp1) => push_words ctx sp1 l' v1
               end
  end.

Definition MAX_UV_STR : Z := 64.

Definition AT_PHDR : Z := 3.
Definition AT_PHENT : Z := 4.
Definition AT_PHNUM : Z := 5.
Definition AT_PAGESZ : Z := 6.
Definition AT_BASE : Z := 7.
Definition AT_FLAGS : Z := 8.
Definition AT_ENTRY : Z := 9.
Definition AT_UID : Z := 11.
Definition AT_EUID : Z := 12.
Definition AT_GID : Z := 13.
Definition AT_EGID : Z := 14.
Definition AT_PLATFORM : Z := 15.
Definition AT_CLKTCK : Z := 17.
Definition AT_SECURE : Z := 23.
Definition AT_RANDOM : Z := 25.
Definition AT_EXECFN : Z := 31.
Definition AT_SYSINFO_EHDR : Z := 33.

(** "x86_64" *)
Definition platform : list Z := [120; 56; 54; 95; 54; 52].

(** Sixteen bytes from the time-stamp counter [t]. *)
Definition random_bytes (t : Z) : list Z :=
  (fun i => u8 (Z.lxor (Z.shiftr t (Z.land i 7 * 8)) (0xA5 * i + 0x39))) <$> zrange 16.

(** The entries in the order they are collected. *)
Definition auxv (c : elf_context_t) (uid gid plat rnd execfn : Z) : list (Z * Z) :=
  [(AT_SYSINFO_EHDR, 0); (AT_PHDR, phdr_addr c); (AT_PHENT, phdr_entsize c); (AT_PHNUM, phdr_count c); (AT_PAGESZ, PAGE_SIZE)] ++
  (if interp_base c =? 0 then [] else [(AT_BASE, interp_base c)]) ++
  [(AT_FLAGS, 0); (AT_ENTRY, main_entry c); (AT_UID, uid); (AT_EUID, uid); (AT_GID, gid); (AT_EGID, gid); (AT_PLATFORM, plat);
   (AT_CLKTCK, 100); (AT_SECURE, 0); (AT_RANDOM, rnd); (AT_EXECFN, execfn)].

Definition aux_words (l : list (Z * Z)) : list Z := concat ((fun p => [p.1; p.2]) <$> l).

(** The current task, as far as its identity is used. *)
Record task_ids := TaskIds { t_mm : Z; t_uid : Z; t_gid : Z }.
Definition ids (cur : option task_ids) (def : Z * Z) : Z * Z :=
  match cur with Some t => if negb (t_mm t =? 0) then (t_uid t, t_gid t) else def | None => def end.

(** The address with its low four bits clear. *)
Definition align16 (x : Z) : Z := Z.land x (Z.lnot 0xF).

(** [argv] holds the [argc] argument strings, [envp] those before the closing
    NULL. The words are pushed from the highest down: [rev] of what lies in
    memory afterwards. *)
Definition elf_build_user_stack (t : Z) (cur : option task_ids) (def : Z * Z) (c : elf_context_t) (argv envp : list (list Z)) (v : vmst) :
    vmst * option Z :=
  if vmctx c =? 0 then (v, None) else
  let ctx := vmctx c in
  let argv := take (Z.to_nat MAX_UV_STR) argv in
  let envp := take (Z.to_nat MAX_UV_STR) envp in
  match push_strs ctx USER_STACK_TOP argv v with
  | (v, None) => (v, None)
  | (v, Some (sp, argv_uv)) =>
  match push_strs ctx sp envp v with
  | (v, None) => (v, None)
  | (v, Some (sp, envp_uv)) =>
  match push_str ctx sp platform v with
  | (v, None) => (v, None)
  | (v, Some plat) =>
  match push_bytes ctx (align16 (u64 (plat - 16))) (random_bytes t) v with
  | (v, None) => (v, None)
  | (v, Some rnd) =>
      let '(uid, gid) := ids cur def in
      let aux := auxv c uid gid plat rnd (default 0 (head argv_uv)) in
      let sp := align16 rnd in
      let argc := Z.of_nat (length argv) in
      let envc := Z.of_nat (length envp) in
      let total := (Z.of_nat (length aux) * 2 + 2) + (envc + 1) + (argc + 1) + 1 in
      let sp := if total mod 2 =? 1 then u64 (sp - 8) else sp in
      push_words ctx sp (rev ([argc] ++ argv_uv ++ [0] ++ envp_uv ++ [0] ++ aux_words aux ++ [0; 0])) v
  end end end end.
End Elf.
