(* ===== verification/ElfLoad.v ===== *)
(** Loading an image (Elf): what the segments, the stack and the break of the
    new address space hold, whatever the allocator gives. *)
From S2P Require Import Prelude Memory Phys Vm VmSpace Vfs Elf.

Module ElfLoad.
Import Phys Vm VmSpace Elf.

(** * Segments *)
#[local] Opaque Mm.HOT_ZONE_PAGES Mm.HEAP_BASE Mm.page_used zero.

Lemma untouched_step T v T' v' b : vm_step T v T' v' -> untouched T v b -> untouched T' v' b.
Proof.
  intros Hst [Hl Hf]. split.
  - intros t lab Ht Hb. destruct (T !! t) as [lab'|] eqn:E; [by eapply Hl|].
    destruct (vs_new _ _ _ _ Hst t lab Ht E) as (k & Hk & -> & Hfree). by apply (Hf k Hk Hfree).
  - intros k Hk Hfree. apply Hf; [done|]. destruct (Mm.page_used (pmm v) k) eqn:E; [|done].
    destruct (vs_mm _ _ _ _ Hst) as [Hex _]. rewrite (Hex k Hk E) in Hfree. done.
Qed.

(** The bytes [F] of a buffer of the kernel that no step touches. *)
Definition buffer (T : labels) (v : vmst) (src n : Z) (F : Z -> Z) : Prop :=
  forall b, 0 <= b < n -> untouched T v (src + b) /\ ld8 (pmem v) (src + b) = F b.

Lemma buffer_step T v T' v' src n F : vm_step T v T' v' -> buffer T v src n F -> buffer T' v' src n F.
Proof.
  intros Hst Hb b Hbn. destruct (Hb b Hbn) as [H1 H2]. split; [by eapply untouched_step|]. rewrite <- H2. by apply (vs_mem _ _ _ _ Hst).
Qed.

(** What a segment has at address [x]: the file's byte, or zero. *)
Definition seg_byte (F : Z -> Z) (vaddr filesz x : Z) : Z := if decide (vaddr <= x < vaddr + filesz) then F (x - vaddr) else 0.

Section Segment.
  Context (F : Z -> Z) (src vaddr filesz flags ctx : Z).
  Hypothesis Hva : 0 <= vaddr /\ 0 <= filesz /\ vaddr + filesz <= 2 ^ 48.
  Hypothesis Hsrc : 0 <= src /\ src + filesz <= 2 ^ 64.

Lemma fill_page T v v1 f a : vm_ok T v -> buffer T v src filesz F -> 0 <= a -> a + 4096 <= 2 ^ 48 -> vm_alloc_page v = (v1, Some f) ->
  let lo := if vaddr <? a then a else vaddr in
  let hi := if u64 (a + PAGE_SIZE) <? u64 (vaddr + filesz) then u64 (a + PAGE_SIZE) else u64 (vaddr + filesz) in
  let v2 := if lo <? hi then copy_bytes (u64 (f + (lo - a))) (u64 (src + (lo - vaddr))) (hi - lo) v1 else v1 in
  vm_step T v T v2 /\ keeps T v v2 /\ new_frame v T v2 f (fun k => seg_byte F vaddr filesz (a + k)).
Proof.
  intros Hv Hb Ha0 Ha1 Hal. change PAGE_SIZE with 4096. rewrite !u64_small by lia. cbv zeta.
  destruct (alloc_page_frame T v v1 f Hv Hal) as (S1 & K1 & N1). destruct (taken_aligned _ _ (proj1 (nf_new _ _ _ _ _ N1))) as [Af Hf].
  change Mm.HEAP_BASE with 8388608 in Hf.
  set (lo := if vaddr <? a then a else vaddr). set (hi := if a + 4096 <? vaddr + filesz then a + 4096 else vaddr + filesz).
  assert (Hlo : a <= lo /\ vaddr <= lo /\ (lo = a \/ lo = vaddr)) by (unfold lo; destruct (Z.ltb_spec vaddr a); lia).
  assert (Hhi : hi <= a + 4096 /\ hi <= vaddr + filesz /\ (hi = a + 4096 \/ hi = vaddr + filesz)) by (unfold hi; destruct (Z.ltb_spec (a + 4096) (vaddr + filesz)); lia).
  destruct (Z.ltb_spec lo hi) as [Hlt|Hge].
  2: { split; [done|]. split; [done|]. split; [apply N1|apply N1|]. intros k Hk. rewrite (nf_bytes _ _ _ _ _ N1) by done.
       unfold seg_byte. rewrite decide_False by lia. done. }
  rewrite !u64_small by lia. set (v2 := copy_bytes _ _ _ v1).
  assert (Hout : forall b, 0 <= b < filesz -> ~ (f <= src + b < f + 4096)).
  { intros b Hbn. apply (newly_untouched T v v1 f); [done|apply (nf_new _ _ _ _ _ N1)|]. left. by apply Hb. }
  assert (Hm : forall b, ld8 (pmem v2) b = if decide (f + (lo - a) <= b < f + (hi - a)) then ld8 (pmem v1) (src + (b - f + a - vaddr)) else ld8 (pmem v1) b).
  { intros b. change (pmem v2) with (copy (pmem v1) (f + (lo - a)) (src + (lo - vaddr)) (hi - lo)). rewrite ld8_copy; [|pose proof (Hout (lo - vaddr)); pose proof (Hout (hi - 1 - vaddr)); lia|lia].
    destruct (decide (f + (lo - a) <= b < f + (lo - a) + (hi - lo))); [rewrite decide_True by lia; f_equal; lia|by rewrite decide_False by lia]. }
  assert (E : pmm v2 = pmm v1 /\ cr3 v2 = cr3 v1 /\ sig_stub_page v2 = sig_stub_page v1) by done.
  destruct E as (E1 & E2 & E3). clearbody v2. destruct (confined_step T v v1 v2 Hv S1 K1 E1 E2 E3) as [S2 K2].
  { intros b Hbt. rewrite Hm, decide_False; [done|]. pose proof (newly_untouched T v v1 f b Hv (nf_new _ _ _ _ _ N1) Hbt). lia. }
  split; [done|]. split; [done|]. split; [|apply N1|].
  - destruct (nf_new _ _ _ _ _ N1) as [Ht Hn]. split; [|done]. unfold taken. by rewrite E1.
  - intros k Hk. rewrite Hm. unfold seg_byte. case_decide.
    + rewrite decide_True by lia. replace (f + k - f + a - vaddr) with (a + k - vaddr) by lia.
      rewrite (vs_mem _ _ _ _ S1) by (apply Hb; lia). apply Hb. lia.
    + rewrite decide_False by lia. by apply (nf_bytes _ _ _ _ _ N1).
Qed.

Lemma load_page_spec T v a : vm_ok T v -> is_ctx T ctx -> buffer T v src filesz F -> 0 <= a -> a + 4096 <= 2 ^ 48 ->
  let '(v', ok) := load_page src vaddr filesz flags ctx a v in
  exists T', vm_step T v T' v' /\
    (forall c va, is_ctx T c -> (ok = true -> c = ctx -> vpn va <> vpn a) -> lookup_va v' c va = lookup_va v c va) /\
    (ok = true -> exists f, new_frame v T' v' f (fun k => seg_byte F vaddr filesz (a + k)) /\
       forall va, vpn va = vpn a -> lookup_va v' ctx va = Some (f + va mod 4096, flag_perms flags)).
Proof.
  intros Hv Hc Hb Ha0 Ha1. unfold load_page. destruct (vm_alloc_page v) as [v1 [f|]] eqn:A.
  2: { rewrite alloc_page_table in A. destruct (alloc_step T v v1 _ Hv A) as [S1 K1]. exists T. split; [done|]. split; [|done].
       intros c va Hcc _. by apply (keeps_lookup T v T v1). }
  pose proof (fill_page T v v1 f a Hv Hb Ha0 Ha1 A) as P. cbv zeta in P |- *. set (v2 := if _ <? _ then _ else v1) in *. clearbody v2.
  destruct P as (S2 & K2 & N2). pose proof (vs_ok _ _ _ _ S2) as Hv2. pose proof (step_ctx _ _ _ _ _ S2 Hc) as Hc2.
  destruct (taken_aligned _ _ (proj1 (nf_new _ _ _ _ _ N2))) as [Af _].
  assert (Hfr : frame_ok T v2 (P_ADDR f)).
  { rewrite (P_ADDR_id f Af). apply (newly_frame_ok T v); [apply (nf_label _ _ _ _ _ N2)|apply (nf_new _ _ _ _ _ N2)]. }
  pose proof (vm_map_page_spec T v2 ctx a f flags Hv2 Hc2 (fun _ => Hfr)) as M.
  destruct (vm_map_page ctx a f flags v2) as [v3 r]. cbn [fst snd] in M. destruct M as (T3 & S3 & Hr & _ & Hsame & Hmap).
  exists T3. split; [by eapply vm_step_trans|]. split.
  - intros c va Hcc Hne. rewrite Hsame; [|by eapply step_ctx|].
    + by apply (keeps_lookup T v T v2).
    + intros ->. by apply Hne.
  - destruct Hr as [->| ->]; [|done]. intros _. exists f. split; [by apply (new_frame_step v T v2)|].
    intros va Hvp. destruct (Hmap eq_refl va Hvp) as [-> _]. by rewrite (P_ADDR_id f Af).
Qed.
End Segment.

(** The pages from [a] on are the frames [fs], taken since [v0], and hold the
    bytes [bs] of their addresses. *)
Record loaded (v0 : vmst) (T : labels) (v : vmst) (ctx a flags : Z) (bs : Z -> Z) (fs : list Z) : Prop := {
  ld_nodup : NoDup fs;
  ld_frame i f : fs !! i = Some f -> new_frame v0 T v f (fun k => bs (a + Z.of_nat i * 4096 + k));
  ld_map i f va : fs !! i = Some f -> vpn va = vpn (a + Z.of_nat i * 4096) -> lookup_va v ctx va = Some (f + va mod 4096, flag_perms flags)
}.

Lemma loaded_byte v0 T v ctx a flags bs fs x : loaded v0 T v ctx a flags bs fs -> 0 <= a -> a mod 4096 = 0 ->
  a + Z.of_nat (length fs) * 4096 <= 2 ^ 48 -> a <= x < a + Z.of_nat (length fs) * 4096 ->
  exists p, lookup_va v ctx x = Some (p, flag_perms flags) /\ ld8 (pmem v) p = bs x.
Proof.
  intros [_ Hf Hm] H0 Ha He Hx. pose proof (Z_div_mod_eq_full a 4096) as Ea. pose proof (Z_div_mod_eq_full x 4096) as Ex.
  pose proof (Z.mod_pos_bound x 4096 ltac:(lia)). set (i := Z.to_nat (x / 4096 - a / 4096)).
  assert (Hi : a + Z.of_nat i * 4096 + x mod 4096 = x) by (unfold i; lia).
  destruct (lookup_lt_is_Some_2 fs i) as [f Ef]; [lia|]. exists (f + x mod 4096). split.
  - apply (Hm i); [done|]. rewrite !vpn_small by lia. replace (a + Z.of_nat i * 4096) with (x - x mod 4096) by lia.
    apply (Z.div_unique _ _ _ 0); lia.
  - rewrite (nf_bytes _ _ _ _ _ (Hf i f Ef)) by lia. by rewrite Hi.
Qed.

(** Steps that leave the translations of the pages alone keep them loaded. *)
Lemma loaded_step v0 T v ctx a flags bs fs T' v' : vm_ok T v -> loaded v0 T v ctx a flags bs fs -> vm_step T v T' v' ->
  (forall i va, (i < length fs)%nat -> vpn va = vpn (a + Z.of_nat i * 4096) -> lookup_va v' ctx va = lookup_va v ctx va) ->
  loaded v0 T' v' ctx a flags bs fs.
Proof.
  intros Hv [Hn Hf Hm] Hst Hs. split; [done|..].
  - intros i f Ef. apply (new_frame_step v0 T v); [done|done|by apply Hf].
  - intros i f va Ef Hva. rewrite (Hs i va); [by apply (Hm i)|by eapply lookup_lt_Some|done].
Qed.

Section Pages.
  Context (F : Z -> Z) (src vaddr filesz flags ctx : Z).
  Hypothesis Hva : 0 <= vaddr /\ 0 <= filesz /\ vaddr + filesz <= 2 ^ 48.
  Hypothesis Hsrc : 0 <= src /\ src + filesz <= 2 ^ 64.

Lemma load_pages_spec n T v a : vm_ok T v -> is_ctx T ctx -> buffer T v src filesz F -> 0 <= a -> a mod 4096 = 0 ->
  a + Z.of_nat n * 4096 <= 2 ^ 48 ->
  let '(v', ok) := load_pages n src vaddr filesz flags ctx a v in
  exists T', vm_step T v T' v' /\
    (forall c va, is_ctx T c -> (c = ctx -> off_run a n va) -> lookup_va v' c va = lookup_va v c va) /\
    (ok = true -> exists fs, length fs = n /\ loaded v T' v' ctx a flags (seg_byte F vaddr filesz) fs).
Proof.
  revert T v a. induction n as [|n IH]; intros T v a Hv Hc Hb Ha0 Ham Hend; cbn [load_pages].
  { exists T. split; [by apply vm_step_refl|]. split; [done|]. intros _. exists []. split; [done|]. split; [constructor|done..]. }
  pose proof (load_page_spec F src vaddr filesz flags ctx Hva Hsrc T v a Hv Hc Hb Ha0 ltac:(lia)) as P.
  destruct (load_page src vaddr filesz flags ctx a v) as [v1 ok]. destruct P as (T1 & S1 & Same1 & L1).
  assert (Hlk : forall c va, is_ctx T c -> (c = ctx -> off_run a (S n) va) -> lookup_va v1 c va = lookup_va v c va).
  { intros c va Hcc Hoff. apply Same1; [done|]. intros _ Ec. specialize (Hoff Ec 0%nat ltac:(lia)). by rewrite Z.mul_0_l, Z.add_0_r in Hoff. }
  destruct ok; [|by exists T1]. destruct (L1 eq_refl) as (f & N1 & M1). change PAGE_SIZE with 4096.
  pose proof (vs_ok _ _ _ _ S1) as Hv1. pose proof (step_ctx _ _ _ _ _ S1 Hc) as Hc1.
  specialize (IH T1 v1 (a + 4096) Hv1 Hc1 (buffer_step _ _ _ _ _ _ _ S1 Hb) ltac:(lia) ltac:(by rewrite <- Zplus_mod_idemp_l, Ham) ltac:(lia)).
  destruct (load_pages n src vaddr filesz flags ctx (a + 4096) v1) as [v2 ok2]. destruct IH as (T2 & S2 & Same2 & L2).
  exists T2. split; [by eapply vm_step_trans|]. split.
  - intros c va Hcc Hoff. rewrite Same2; [by apply Hlk|by eapply step_ctx|]. intros Ec i Hi. specialize (Hoff Ec (S i) ltac:(lia)).
    by replace (a + Z.of_nat (S i) * 4096) with (a + 4096 + Z.of_nat i * 4096) in Hoff by lia.
  - intros E2. destruct (L2 E2) as (fs & Hlen & [Hnd Hfr Hmp]). pose proof (new_frame_step _ _ _ _ _ _ _ Hv1 S2 N1) as N2.
    exists (f :: fs). split; [by cbn; f_equal|]. split.
    + constructor; [|done]. intros (i & Hi)%list_elem_of_lookup. destruct (Hfr i f Hi) as [[_ Hn] _ _]. apply Hn. by destruct N1 as [[Ht _] _ _].
    + intros [|i] g Hg; cbn in Hg.
      * injection Hg as <-. rewrite Z.mul_0_l, Z.add_0_r. exact N2.
      * destruct (Hfr i g Hg) as [H1 H2 H3]. split; [eapply newly_mono; [done|apply (vs_mm _ _ _ _ S1)]|done|].
        intros k Hk. rewrite H3 by done. f_equal. lia.
    + intros [|i] g va Hg Hvp; cbn in Hg.
      * injection Hg as <-. rewrite Z.mul_0_l, Z.add_0_r in Hvp. rewrite Same2; [by apply M1|done|].
        intros _ i Hi. rewrite Hvp, !vpn_small by lia. replace (a + 4096 + Z.of_nat i * 4096) with (a + (1 + Z.of_nat i) * 4096) by lia.
        rewrite Z_div_plus_full by lia. lia.
      * apply (Hmp i g va Hg). rewrite Hvp. f_equal. lia.
Qed.
End Pages.

(** * Images *)
Lemma ld_le_shift n m m' a a' : (forall k, 0 <= k < Z.of_nat n -> ld8 m (a + k) = ld8 m' (a' + k)) -> ld_le n m a = ld_le n m' a'.
Proof.
  revert a a'. induction n as [|n IH]; intros a a' H; [done|]. cbn [ld_le]. f_equal.
  - specialize (H 0 ltac:(lia)). by rewrite !Z.add_0_r in H.
  - f_equal. apply IH. intros k Hk. specialize (H (k + 1) ltac:(lia)). by rewrite !(Z.add_comm k), !Z.add_assoc in H.
Qed.

(** A field of the image, wherever the image lies. *)
Lemma buffer_ld n T v data len F o : buffer T v data len F -> 0 <= o -> o + Z.of_nat n <= len -> ld_le n (pmem v) (data + o) = ld_le n F o.
Proof.
  intros Hb H0 Hn. apply ld_le_shift. intros k Hk. rewrite <- Z.add_assoc. destruct (Hb (o + k) ltac:(lia)) as [_ E].
  pose proof (ld8_range (pmem v) (data + (o + k))). unfold ld8 at 2. rewrite <- E. by rewrite u8_small.
Qed.

Lemma buffer_part T v data len F o n : buffer T v data len F -> 0 <= o -> o + n <= len -> buffer T v (data + o) n (fun b => F (o + b)).
Proof. intros Hb H0 Hn b Hbn. rewrite <- Z.add_assoc. apply Hb. lia. Qed.

(** ** One segment, by its header in the image *)

(** Where header [i] is in the image. *)
Definition ph_off (F : mem) (i : Z) : Z := e_phoff F 0 + i32 (i * e_phentsize F 0).

Definition seg_va (F : mem) (bias o : Z) : Z := u64 (p_vaddr F o + bias).
Definition seg_start (F : mem) (bias o : Z) : Z := page_down (seg_va F bias o).
Definition seg_end (F : mem) (bias o : Z) : Z := page_down (u64 (seg_va F bias o + p_memsz F o + 0xFFF)).
Definition seg_pages (F : mem) (bias o : Z) : nat := Z.to_nat ((seg_end F bias o - seg_start F bias o) / PAGE_SIZE).
Definition is_load (F : mem) (o : Z) : Prop := p_type F o = PT_LOAD /\ p_memsz F o <> 0.

(** What lies at the addresses of the segment. *)
Definition seg_image (F : mem) (bias o : Z) : Z -> Z := seg_byte (fun b => F (p_offset F o + b)) (seg_va F bias o) (p_filesz F o).

(** The segment stays inside the image and below [lim]. *)
Record seg_fits (F : mem) (len bias lim o : Z) : Prop := {
  sf_file : p_offset F o + p_filesz F o <= len;
  sf_filesz : seg_va F bias o + p_filesz F o <= lim;
  sf_memsz : seg_va F bias o + p_memsz F o + 0xFFF <= lim
}.

Definition seg_loaded (v0 : vmst) (T : labels) (v : vmst) (ctx : Z) (F : mem) (bias o : Z) : Prop :=
  exists fs, length fs = seg_pages F bias o /\
    loaded v0 T v ctx (seg_start F bias o) (seg_flags (p_flags F o)) (seg_image F bias o) fs.

Lemma seg_run F len bias lim o : seg_fits F len bias lim o -> lim <= 2 ^ 48 -> 
  0 <= seg_start F bias o /\ seg_start F bias o mod 4096 = 0 /\ seg_start F bias o <= seg_va F bias o /\
  seg_va F bias o + p_memsz F o <= seg_start F bias o + Z.of_nat (seg_pages F bias o) * 4096 <= lim /\
  (p_memsz F o <> 0 -> seg_end F bias o = seg_start F bias o + Z.of_nat (seg_pages F bias o) * 4096).
Proof.
  intros [_ _ Hm] Hl. unfold seg_pages, seg_end, seg_start. pose proof (u64_range (p_vaddr F o + bias)). fold (seg_va F bias o) in *.
  pose proof (ld64_range F (o + 40)). change (ld64 F (o + 40)) with (p_memsz F o) in *. rewrite u64_small by lia. rewrite !page_down_eq.
  set (x := seg_va F bias o) in *. set (m := p_memsz F o) in *. change PAGE_SIZE with 4096.
  pose proof (Z_div_mod_eq_full x 4096). pose proof (Z.mod_pos_bound x 4096 ltac:(lia)).
  pose proof (Z_div_mod_eq_full (x + m + 0xFFF) 4096). pose proof (Z.mod_pos_bound (x + m + 0xFFF) 4096 ltac:(lia)).
  rewrite <- Z.mul_sub_distr_r, Z.div_mul by lia. split; [lia|]. split; [apply Z_mod_mult|]. lia.
Qed.

Lemma phdr_fields T v data len F o : buffer T v data len F -> 0 <= o -> o + 56 <= len ->
  p_type (pmem v) (data + o) = p_type F o /\ p_flags (pmem v) (data + o) = p_flags F o /\ p_offset (pmem v) (data + o) = p_offset F o /\
  p_vaddr (pmem v) (data + o) = p_vaddr F o /\ p_filesz (pmem v) (data + o) = p_filesz F o /\ p_memsz (pmem v) (data + o) = p_memsz F o.
Proof.
  intros Hb Ho He. unfold p_type, p_flags, p_offset, p_vaddr, p_filesz, p_memsz, ld32, ldw, ld64. rewrite <- !Z.add_assoc.
  split_and!; apply (buffer_ld _ T v data len F); done || lia.
Qed.

Lemma ehdr_fields T v data len F : buffer T v data len F -> 64 <= len ->
  e_type (pmem v) data = e_type F 0 /\ e_entry (pmem v) data = e_entry F 0 /\ e_phoff (pmem v) data = e_phoff F 0 /\
  e_phentsize (pmem v) data = e_phentsize F 0 /\ e_phnum (pmem v) data = e_phnum F 0 /\ header_ok (pmem v) data = header_ok F 0.
Proof.
  intros Hb He. assert (Hf : forall n o, 0 <= o -> o + Z.of_nat n <= 64 -> ld_le n (pmem v) (data + o) = ld_le n F o) by (intros n o H1 H2; apply (buffer_ld n T v data len F); done || lia).
  assert (Hi : forall i, 0 <= i < 64 -> e_ident (pmem v) data i = e_ident F 0 i).
  { intros i Hi. pose proof (Hf 1%nat i ltac:(lia) ltac:(lia)) as H. cbn in H. unfold e_ident. rewrite Z.add_0_l. lia. }
  unfold header_ok, magic_ok, type_ok. rewrite !Hi by lia. unfold e_type, e_entry, e_phoff, e_phentsize, e_phnum, ld16, ldw, ld64.
  rewrite !Hf by lia. split_and!; done.
Qed.

Lemma map_load_segment_spec T v data len F ctx bias o : vm_ok T v -> is_ctx T ctx -> buffer T v data len F ->
  0 <= data -> data + len <= 2 ^ 48 -> 0 <= o -> o + 56 <= len -> seg_fits F len bias (2 ^ 48) o ->
  let '(v', r) := map_load_segment data (data + o) ctx bias v in
  exists T', vm_step T v T' v' /\ (r = 0 \/ r = -1) /\
    (forall c va, is_ctx T c -> (c = ctx -> p_memsz F o <> 0 -> off_run (seg_start F bias o) (seg_pages F bias o) va) -> lookup_va v' c va = lookup_va v c va) /\
    (r = 0 -> p_memsz F o <> 0 -> seg_loaded v T' v' ctx F bias o).
Proof.
  intros Hv Hc Hb Hd Hl Ho Hoe Fit. pose proof (seg_run F len bias _ o Fit ltac:(lia)) as (R1 & R2 & R3 & R4 & R5).
  destruct (phdr_fields T v data len F o Hb Ho Hoe) as (_ & E2 & E3 & E4 & E5 & E6).
  unfold map_load_segment. rewrite E2, E3, E4, E5, E6. cbv zeta.
  destruct (Z.eqb_spec (p_memsz F o) 0) as [E|Hm].
  { exists T. split; [by apply vm_step_refl|]. split; [by left|]. split; [done|]. intros _ H. by destruct H. }
  fold (seg_va F bias o). fold (seg_start F bias o). fold (seg_end F bias o). fold (seg_pages F bias o).
  destruct Fit as [F1 F2 F3]. pose proof (ld64_range F (o + 8)) as Q1. change (ld64 F (o + 8)) with (p_offset F o) in Q1.
  pose proof (ld64_range F (o + 32)) as Q2. change (ld64 F (o + 32)) with (p_filesz F o) in Q2. pose proof (u64_range (p_vaddr F o + bias)) as Q3. fold (seg_va F bias o) in Q3.
  rewrite (u64_small (data + p_offset F o)) by lia.
  pose proof (load_pages_spec (fun b => F (p_offset F o + b)) (data + p_offset F o) (seg_va F bias o) (p_filesz F o) (seg_flags (p_flags F o)) ctx
    ltac:(lia) ltac:(lia) (seg_pages F bias o) T v (seg_start F bias o) Hv Hc) as P.
  specialize (P ltac:(apply (buffer_part _ _ _ len); [done|lia..]) R1 R2 ltac:(lia)).
  destruct (load_pages _ _ _ _ _ _ _ v) as [v' ok]. destruct P as (T' & St & Same & L). exists T'. split; [done|]. split; [destruct ok; lia|]. split.
  - intros c va Hcc Hoff. apply Same; [done|]. intros E. by apply Hoff.
  - destruct ok; [|done]. intros _ _. exact (L eq_refl).
Qed.

(** ** The program headers of an image *)

(** What header [i] leaves in the context and in [max_vaddr]. *)
Definition note_phdr (F : mem) (bias : Z) (cm : elf_context_t * Z) (i : Z) : elf_context_t * Z :=
  let '(c, mx) := cm in
  let o := ph_off F i in
  if p_type F o =? PT_LOAD then (c, Z.max mx (u64 (p_vaddr F o + bias + p_memsz F o)))
  else if p_type F o =? PT_PHDR then (c <| phdr_addr := u64 (p_vaddr F o + bias) |>, mx)
  else (c, mx).

(** An image the loader can read: its headers lie inside it, its segments too,
    they end below [lim] and no two of them meet in a page; no interpreter. *)
Record image (F : mem) (len bias lim : Z) : Prop := {
  im_head : 64 <= len;
  im_ph i : 0 <= i < e_phnum F 0 -> 0 <= ph_off F i /\ ph_off F i + 56 <= len;
  im_static i : 0 <= i < e_phnum F 0 -> p_type F (ph_off F i) <> PT_INTERP;
  im_fits i : 0 <= i < e_phnum F 0 -> p_type F (ph_off F i) = PT_LOAD -> seg_fits F len bias lim (ph_off F i);
  im_apart i j : 0 <= i < e_phnum F 0 -> 0 <= j < e_phnum F 0 -> i <> j -> is_load F (ph_off F i) -> is_load F (ph_off F j) ->
    seg_end F bias (ph_off F i) <= seg_start F bias (ph_off F j) \/ seg_end F bias (ph_off F j) <= seg_start F bias (ph_off F i)
}.

(** [va] is in no page of a segment. *)
Definition off_image (F : mem) (bias va : Z) : Prop :=
  forall i, 0 <= i < e_phnum F 0 -> is_load F (ph_off F i) -> off_run (seg_start F bias (ph_off F i)) (seg_pages F bias (ph_off F i)) va.

Section Image.
  Context (F : mem) (data len bias lim ctx : Z).
  Hypothesis Him : image F len bias lim.
  Hypothesis Hlim : lim <= 2 ^ 48.
  Hypothesis Hdata : 0 <= data /\ data + len <= 2 ^ 48.

(** The segments of the first [n] headers. *)
Definition segs_loaded (v0 : vmst) (T : labels) (v : vmst) (n : Z) : Prop :=
  forall i, 0 <= i < n -> is_load F (ph_off F i) -> seg_loaded v0 T v ctx F bias (ph_off F i).

Lemma phdr_at_off T v i : buffer T v data len F -> 0 <= i < e_phnum F 0 -> phdr_at (pmem v) data i = data + ph_off F i.
Proof.
  intros Hb Hi. destruct (ehdr_fields T v data len F Hb (im_head _ _ _ _ Him)) as (_ & _ & E3 & E4 & _ & _).
  destruct (im_ph _ _ _ _ Him i Hi). unfold phdr_at. rewrite E3, E4, <- Z.add_assoc. fold (ph_off F i). apply u64_small. lia.
Qed.

Lemma fits_48 o : seg_fits F len bias lim o -> seg_fits F len bias (2 ^ 48) o.
Proof. intros [H1 H2 H3]. split; lia. Qed.

(** The pages of two segments are different pages. *)
Lemma segs_off i j k va : 0 <= i < e_phnum F 0 -> 0 <= j < e_phnum F 0 -> i <> j -> is_load F (ph_off F i) -> is_load F (ph_off F j) ->
  (k < seg_pages F bias (ph_off F i))%nat -> vpn va = vpn (seg_start F bias (ph_off F i) + Z.of_nat k * 4096) ->
  off_run (seg_start F bias (ph_off F j)) (seg_pages F bias (ph_off F j)) va.
Proof.
  intros Hi Hj Hne Li Lj Hk Hva m Hm. rewrite Hva.
  destruct (seg_run F len bias lim _ (im_fits _ _ _ _ Him i Hi (proj1 Li)) Hlim) as (A1 & A2 & _ & A4 & A5).
  destruct (seg_run F len bias lim _ (im_fits _ _ _ _ Him j Hj (proj1 Lj)) Hlim) as (B1 & B2 & _ & B4 & B5).
  specialize (A5 (proj2 Li)). specialize (B5 (proj2 Lj)). pose proof (im_apart _ _ _ _ Him i j Hi Hj Hne Li Lj) as Ap.
  rewrite !vpn_small by lia. intros E. apply Z.mod_divide in A2 as [x Ex]; [|lia]. apply Z.mod_divide in B2 as [y Ey]; [|lia].
  rewrite Ex, Ey, <- !Z.mul_add_distr_r, !Z.div_mul in E by lia. lia.
Qed.

Lemma segs_keep v0 T v i T' v' : vm_ok T v -> 0 <= i < e_phnum F 0 -> segs_loaded v0 T v i -> vm_step T v T' v' -> is_load F (ph_off F i) ->
  (forall va, off_run (seg_start F bias (ph_off F i)) (seg_pages F bias (ph_off F i)) va -> lookup_va v' ctx va = lookup_va v ctx va) ->
  segs_loaded v0 T' v' i.
Proof.
  intros Hv Hi Hl Hst Li Hs j Hj Lj. destruct (Hl j Hj Lj) as (fs & Hlen & Hld). exists fs. split; [done|].
  apply (loaded_step v0 T v); [done..|]. intros k va Hk Hva. apply Hs. apply (segs_off j i k va); try done; lia.
Qed.

Lemma load_phdr_spec v0 T v c mx i : vm_ok T v -> is_ctx T ctx -> vmctx c = ctx -> buffer T v data len F -> 0 <= i < e_phnum F 0 -> 0 <= mx ->
  Mm.extends (pmm v0) (pmm v) -> segs_loaded v0 T v i ->
  let '(v', c', mx', ok) := load_phdr data (phdr_at (pmem v) data i) bias mx v c in
  exists T', vm_step T v T' v' /\
    (forall c va, is_ctx T c -> (c = ctx -> off_image F bias va) -> lookup_va v' c va = lookup_va v c va) /\
    (ok = true -> segs_loaded v0 T' v' (i + 1) /\ (c', mx') = note_phdr F bias (c, mx) i).
Proof.
  intros Hv Hc Hcc Hb Hi Hmx Hex Hl. rewrite (phdr_at_off T v i Hb Hi). destruct (im_ph _ _ _ _ Him i Hi) as [Ho Hoe].
  destruct (phdr_fields T v data len F (ph_off F i) Hb Ho Hoe) as (E1 & _ & _ & E4 & _ & _). unfold load_phdr, note_phdr. rewrite E1, E4.
  assert (Hrest : ~ is_load F (ph_off F i) -> segs_loaded v0 T v (i + 1)).
  { intros Hn j Hj Lj. assert (j <> i) by (intros ->; done). apply Hl; [lia|done]. }
  destruct (Z.eqb_spec (p_type F (ph_off F i)) PT_LOAD) as [Et|Et].
  2: { assert (Hr : segs_loaded v0 T v (i + 1)) by (apply Hrest; by intros [? _]).
       rewrite (proj2 (Z.eqb_neq _ PT_INTERP)) by (by apply (im_static _ _ _ _ Him)).
       destruct (p_type F (ph_off F i) =? PT_PHDR); (exists T; split; [by apply vm_step_refl|]; by split). }
  rewrite Hcc. pose proof (im_fits _ _ _ _ Him i Hi Et) as Fit.
  pose proof (map_load_segment_spec T v data len F ctx bias (ph_off F i) Hv Hc Hb ltac:(lia) ltac:(lia) Ho Hoe (fits_48 _ Fit)) as P.
  destruct (map_load_segment data (data + ph_off F i) ctx bias v) as [v1 r]. destruct P as (T1 & S1 & Hr & Same & L).
  assert (Same' : forall c va, is_ctx T c -> (c = ctx -> off_image F bias va) -> lookup_va v1 c va = lookup_va v c va).
  { intros c' va Hc' Hoff. apply Same; [done|]. intros Ec Hm. by apply (Hoff Ec i). }
  destruct Hr as [->| ->]; cbn [Z.ltb Z.compare]; [|by exists T1].
  destruct (phdr_fields T1 v1 data len F (ph_off F i) (buffer_step _ _ _ _ _ _ _ S1 Hb) Ho Hoe) as (_ & _ & _ & F4 & _ & F6). rewrite F4, F6.
  exists T1. split; [done|]. split; [done|]. intros _. split.
  2: { f_equal. set (e := u64 _). destruct (Z.ltb_spec mx e); lia. }
  destruct (decide (p_memsz F (ph_off F i) = 0)) as [Em|Em].
  { intros j Hj Lj. assert (j <> i) by (intros ->; by destruct Lj). destruct (Hl j ltac:(lia) Lj) as (fs & Hlen & Hld). exists fs. split; [done|].
    apply (loaded_step v0 T v); [done..|]. intros k va _ _. by apply Same. }
  intros j Hj Lj. destruct (decide (j = i)) as [->|Hne].
  - destruct (L eq_refl Em) as (fs & Hlen & [H1 H2 H3]). exists fs. split; [done|]. split; [done| |done].
    intros k f Hk. destruct (H2 k f Hk) as [N1 N2 N3]. split; [by eapply newly_mono|done..].
  - apply (segs_keep v0 T v i T1 v1); try done; [|lia]. intros va Hoff. by apply Same.
Qed.

Lemma note_ctx c mx i : vmctx (note_phdr F bias (c, mx) i).1 = vmctx c /\ interp_path (note_phdr F bias (c, mx) i).1 = interp_path c /\
  main_entry (note_phdr F bias (c, mx) i).1 = main_entry c /\ (0 <= mx -> mx <= (note_phdr F bias (c, mx) i).2).
Proof. unfold note_phdr. repeat case_match; cbn; split_and!; try done; lia. Qed.

Lemma load_phdrs_spec v0 fuel : forall T v c mx (i : nat), vm_ok T v -> is_ctx T ctx -> vmctx c = ctx -> buffer T v data len F ->
  Z.of_nat i <= e_phnum F 0 -> e_phnum F 0 - Z.of_nat i < Z.of_nat fuel -> 0 <= mx -> Mm.extends (pmm v0) (pmm v) -> segs_loaded v0 T v (Z.of_nat i) ->
  let '(v', c', mx', ok) := load_phdrs fuel (Z.of_nat i) data bias mx v c in
  exists T', vm_step T v T' v' /\
    (forall c va, is_ctx T c -> (c = ctx -> off_image F bias va) -> lookup_va v' c va = lookup_va v c va) /\
    (ok = true -> segs_loaded v0 T' v' (e_phnum F 0) /\
      (c', mx') = foldl (note_phdr F bias) (c, mx) (Z.of_nat <$> seq i (Z.to_nat (e_phnum F 0) - i))).
Proof.
  induction fuel as [|fuel IH]; intros T v c mx i Hv Hc Hcc Hb Hi Hf Hmx Hex Hl; [lia|]. cbn [load_phdrs].
  destruct (ehdr_fields T v data len F Hb (im_head _ _ _ _ Him)) as (_ & _ & _ & _ & E5 & _). rewrite E5.
  destruct (Z.ltb_spec (Z.of_nat i) (e_phnum F 0)) as [Hlt|Hge].
  2: { exists T. split; [by apply vm_step_refl|]. split; [done|]. intros _. replace (Z.to_nat (e_phnum F 0) - i)%nat with 0%nat by lia.
       replace (e_phnum F 0) with (Z.of_nat i) by lia. by split. }
  pose proof (load_phdr_spec v0 T v c mx (Z.of_nat i) Hv Hc Hcc Hb ltac:(lia) Hmx Hex Hl) as P.
  destruct (load_phdr _ _ _ _ v c) as [[[v1 c1] mx1] ok]. destruct P as (T1 & S1 & Same & P). destruct ok; [|by exists T1].
  destruct (P eq_refl) as [L1 En]. destruct (note_ctx c mx (Z.of_nat i)) as (N1 & _ & _ & N4). rewrite <- En in N1, N4. cbn [fst snd] in N1, N4.
  replace (Z.of_nat i + 1) with (Z.of_nat (S i)) in * by lia.
  specialize (IH T1 v1 c1 mx1 (S i) (vs_ok _ _ _ _ S1) (step_ctx _ _ _ _ _ S1 Hc) ltac:(congruence) (buffer_step _ _ _ _ _ _ _ S1 Hb) ltac:(lia) ltac:(lia) ltac:(lia)
    (Mm.extends_trans _ _ _ Hex (vs_mm _ _ _ _ S1)) L1).
  destruct (load_phdrs fuel _ data bias mx1 v1 c1) as [[[v2 c2] mx2] ok]. destruct IH as (T2 & S2 & Same2 & P2).
  exists T2. split; [by eapply vm_step_trans|]. split.
  - intros c' va Hc' Hoff. rewrite Same2; [by apply Same|by eapply step_ctx|done].
  - intros Eo. destruct (P2 Eo) as [L2 E2]. split; [done|]. replace (Z.to_nat (e_phnum F 0) - i)%nat with (S (Z.to_nat (e_phnum F 0) - S i)) by lia.
    cbn [seq fmap list_fmap foldl]. by rewrite <- En.
Qed.
End Image.

(** ** The stack *)
Lemma loaded_buffer v0 T v ctx a flags bs fs : vm_ok T v -> loaded v0 T v ctx a flags bs fs -> 0 <= a -> a mod 4096 = 0 ->
  a + Z.of_nat (length fs) * 4096 <= 2 ^ 48 -> user_buffer T v ctx a (Z.of_nat (length fs) * 4096).
Proof.
  intros Hv [Hn Hf Hm] H0 Ha He.
  assert (Htr : forall b, 0 <= b < Z.of_nat (length fs) * 4096 -> exists i f, fs !! i = Some f /\ i = Z.to_nat (b / 4096) /\ tr v ctx a b = f + b mod 4096 /\ aligned f /\ 8388608 <= f).
  { intros b Hb. pose proof (Z_div_mod_eq_full b 4096). pose proof (Z.mod_pos_bound b 4096 ltac:(lia)).
    destruct (lookup_lt_is_Some_2 fs (Z.to_nat (b / 4096))) as [f Ef]; [lia|]. exists (Z.to_nat (b / 4096)), f. split; [done|]. split; [done|].
    destruct (taken_aligned _ _ (proj1 (nf_new _ _ _ _ _ (Hf _ _ Ef)))) as [Af Hfr]. change Mm.HEAP_BASE with 8388608 in Hfr. split; [|split; [done|lia]].
    unfold tr. rewrite u64_small by lia. rewrite vm_translate_walk, (Hm (Z.to_nat (b / 4096)) f) ; [|done|].
    - f_equal. rewrite <- Zplus_mod_idemp_l, Ha. done.
    - rewrite !vpn_small by lia. apply Z.mod_divide in Ha as [y ->]; [|lia]. rewrite Z2Nat.id, <- Z.mul_add_distr_r, Z.div_mul by lia.
      rewrite Z.div_add_l by lia. done. }
  split.
  - intros b Hb. destruct (Htr b Hb) as (i & f & _ & _ & -> & _ & Hlf). pose proof (Z.mod_pos_bound b 4096 ltac:(lia)). lia.
  - intros b t lab Hb Ht. destruct (Htr b Hb) as (i & f & Ef & _ & -> & Af & _). pose proof (Z.mod_pos_bound b 4096 ltac:(lia)).
    assert (Hne : t <> f) by (intros ->; rewrite (nf_label _ _ _ _ _ (Hf i f Ef)) in Ht; done).
    destruct (aligned_disjoint t f (label_aligned _ _ _ _ Hv Ht) Af Hne); lia.
  - intros b b' Hb Hb'. destruct (Htr b Hb) as (i & f & Ef & Ei & -> & Af & _), (Htr b' Hb') as (i' & f' & Ef' & Ei' & -> & Af' & _).
    intros E. pose proof (Z.mod_pos_bound b 4096 ltac:(lia)). pose proof (Z.mod_pos_bound b' 4096 ltac:(lia)).
    destruct (decide (f = f')) as [->|Hne]; [|destruct (aligned_disjoint f f' Af Af' Hne); lia].
    assert (i = i') by (by eapply NoDup_lookup). pose proof (Z_div_mod_eq_full b 4096). pose proof (Z_div_mod_eq_full b' 4096). lia.
Qed.

(** The stack is mapped as a run of zeroed pages. *)
Definition stack_pages (v0 : vmst) (T : labels) (v : vmst) (ctx : Z) : Prop :=
  exists fs, length fs = 1024%nat /\ loaded v0 T v ctx (USER_STACK_TOP - USER_STACK_SIZE) 11 (fun _ => 0) fs.

Lemma map_stack T v ctx : vm_ok T v -> is_ctx T ctx ->
  let '(v', r) := vm_map ctx (USER_STACK_TOP - USER_STACK_SIZE) USER_STACK_SIZE (VM_READ + VM_WRITE + VM_USER) v in
  exists T', vm_step T v T' v' /\ (r = 0 \/ r = -1) /\
    (forall c va, is_ctx T c -> (c = ctx -> off_run (USER_STACK_TOP - USER_STACK_SIZE) 1024 va) -> lookup_va v' c va = lookup_va v c va) /\
    (r = 0 -> stack_pages v T' v' ctx).
Proof.
  intros Hv Hc. pose proof (vm_map_range T v ctx (USER_STACK_TOP - USER_STACK_SIZE) USER_STACK_SIZE (VM_READ + VM_WRITE + VM_USER) Hv Hc) as P.
  specialize (P ltac:(unfold USER_STACK_TOP, USER_STACK_SIZE; lia) ltac:(unfold USER_STACK_SIZE; lia) ltac:(unfold USER_STACK_TOP, USER_STACK_SIZE; lia)).
  cbv zeta in P. change (page_down (USER_STACK_TOP - USER_STACK_SIZE)) with (USER_STACK_TOP - USER_STACK_SIZE) in P.
  change (Z.to_nat _) with 1024%nat in P. destruct (vm_map _ _ _ _ v) as [v' r]. destruct P as (T' & S1 & Hr & Same & L). exists T'.
  split; [done|]. split; [done|]. split; [done|]. intros E. destruct (L E) as (fs & Hlen & Hn & Hf & Hm). exists fs. split; [done|].
  split; [done| |by intros i f va Ef; apply Hm]. intros i f Ef. rewrite Forall_lookup in Hf. by eapply Hf.
Qed.

(** ** The break *)
Lemma loaded_brk v0 T v ctx b a flags bs fs : vm_ok T v -> is_ctx T ctx -> 0 <= b < 2 ^ 64 -> loaded v0 T v ctx a flags bs fs ->
  loaded v0 T (set_word (ctx + 8) b v) ctx a flags bs fs.
Proof.
  intros Hv Hc Hb [Hn Hf Hm]. split; [done| |].
  - intros i f Ef. apply new_frame_brk; [done..|by apply Hf].
  - intros i f va Ef Hva. destruct (set_brk_ok T v ctx b Hv Hc Hb) as (_ & -> & _); [by apply (Hm i)|done].
Qed.

Definition seg_last (F : mem) (bias i : Z) : Z := u64 (p_vaddr F (ph_off F i) + bias + p_memsz F (ph_off F i)).

(** [max_vaddr] is the highest end of a segment. *)
Lemma fold_max F bias lim l c mx : 0 <= mx <= lim -> (forall i, i ∈ l -> p_type F (ph_off F i) = PT_LOAD -> seg_last F bias i <= lim) ->
  let r := (foldl (note_phdr F bias) (c, mx) l).2 in
  mx <= r <= lim /\ forall i, i ∈ l -> p_type F (ph_off F i) = PT_LOAD -> seg_last F bias i <= r.
Proof.
  revert c mx. induction l as [|j l IH]; intros c mx Hm Hl; cbv zeta; cbn [foldl snd]; [split; [lia|]; by intros i ?%not_elem_of_nil|].
  destruct (note_phdr F bias (c, mx) j) as [c1 mx1] eqn:En.
  assert (E1 : mx <= mx1 <= lim /\ (p_type F (ph_off F j) = PT_LOAD -> seg_last F bias j <= mx1)).
  { unfold note_phdr in En. destruct (Z.eqb_spec (p_type F (ph_off F j)) PT_LOAD) as [Et|Et].
    - pose proof (Hl j ltac:(by left) Et). unfold seg_last in *. injection En as <- <-. lia.
    - destruct (_ =? PT_PHDR); injection En as <- <-; (split; [lia|done]). }
  specialize (IH c1 mx1 ltac:(lia) ltac:(intros i Hi; apply Hl; by right)). cbv zeta in IH. destruct IH as [B1 B2]. split; [lia|].
  intros i [->|Hi]%elem_of_cons Et; [specialize (proj2 E1 Et); lia|by apply B2].
Qed.

Lemma seg_last_eq F len bias lim i : seg_fits F len bias lim (ph_off F i) -> lim <= 2 ^ 48 ->
  seg_last F bias i = seg_va F bias (ph_off F i) + p_memsz F (ph_off F i) /\ seg_last F bias i <= lim.
Proof.
  intros [_ _ Hm] Hl. unfold seg_last. pose proof (ld64_range F (ph_off F i + 40)) as Q. change (ld64 F (ph_off F i + 40)) with (p_memsz F (ph_off F i)) in Q.
  rewrite <- u64_add_l. fold (seg_va F bias (ph_off F i)). pose proof (u64_range (p_vaddr F (ph_off F i) + bias)) as Q3. fold (seg_va F bias (ph_off F i)) in Q3.
  rewrite u64_small by lia. lia.
Qed.

Definition break_of (mx : Z) : Z := let b := page_down (u64 (mx + 0xFFF)) in if b =? 0 then 0x600000 else b.

Lemma break_spec mx : 0 <= mx <= 2 ^ 48 -> mx <= break_of mx /\ break_of mx mod 4096 = 0 /\ 0 < break_of mx < 2 ^ 64.
Proof.
  intros Hm. unfold break_of. rewrite u64_small by lia. rewrite page_down_eq. pose proof (Z_div_mod_eq_full (mx + 0xFFF) 4096).
  pose proof (Z.mod_pos_bound (mx + 0xFFF) 4096 ltac:(lia)). destruct (Z.eqb_spec ((mx + 0xFFF) / 4096 * 4096) 0); [split; [lia|done]|].
  split; [lia|]. split; [apply Z_mod_mult|lia].
Qed.

(** ** Stack and break *)
Section Rest.
  Context {E : Type} {FO : Vfs.FileOps E} (vfs_open : list Z -> E -> E * option Z).

Lemma load_rest_spec T (s : loader) data bias mx c : vm_ok T (lvm s) -> is_ctx T (vmctx c) -> interp_path c = [] -> 0 <= mx <= 2 ^ 48 ->
  let ctx := vmctx c in
  let '(s', c', r) := load_rest vfs_open data bias mx s c in
  (r = 0 \/ r = -1) /\ exists T1 v1, vm_step T (lvm s) T1 v1 /\
    (forall c0 va, is_ctx T c0 -> (c0 = ctx -> off_run (USER_STACK_TOP - USER_STACK_SIZE) 1024 va) -> lookup_va v1 c0 va = lookup_va (lvm s) c0 va) /\
    (r = -1 -> lvm s' = v1) /\
    (r = 0 -> lvm s' = set_word (ctx + 8) (break_of mx) v1 /\ stack_pages (lvm s) T1 v1 ctx /\
      c' = c <| entry := u64 (e_entry (pmem (lvm s)) data + bias) |> <| stack_top := USER_STACK_TOP |> <| brk_start := break_of mx |> <| brk_end := break_of mx |>).
Proof.
  intros Hv Hc Hp Hmx ctx. unfold load_rest. change (interp_path (c <| entry := _ |>)) with (interp_path c). rewrite Hp. cbn [negb].
  change (vmctx (c <| entry := _ |>)) with ctx. pose proof (map_stack T (lvm s) ctx Hv Hc) as P.
  destruct (vm_map ctx _ _ _ (lvm s)) as [v2 r]. destruct P as (T1 & S1 & Hr & Same & L). destruct Hr as [->| ->]; cbn [Z.ltb Z.compare].
  - split; [by left|]. exists T1, v2. split; [done|]. split; [done|]. split; [done|]. intros _. split; [done|]. split; [by apply L|done].
  - split; [by right|]. exists T1, v2. by split; [|split; [|split]].
Qed.
End Rest.

(** ** A loaded program *)

(** In the address space [vmctx c] of state [v]: the segments with the bytes
    of the file, zeros behind them, and the permissions of their headers; a
    zeroed stack of 4 MB; and a break at or above every segment. *)
Record program (F : mem) (bias : Z) (T : labels) (v : vmst) (c : elf_context_t) : Prop := {
  pr_vm : vm_ok T v;
  pr_ctx : is_ctx T (vmctx c);
  pr_entry : entry c = u64 (e_entry F 0 + bias);
  pr_segment i x : 0 <= i < e_phnum F 0 -> p_type F (ph_off F i) = PT_LOAD ->
    let o := ph_off F i in seg_va F bias o <= x < seg_va F bias o + p_memsz F o ->
    exists p, lookup_va v (vmctx c) x = Some (p, flag_perms (seg_flags (p_flags F o))) /\ ld8 (pmem v) p = seg_image F bias o x;
  pr_stack : stack_top c = USER_STACK_TOP /\ user_buffer T v (vmctx c) (USER_STACK_TOP - USER_STACK_SIZE) USER_STACK_SIZE;
  pr_stack_zero x : USER_STACK_TOP - USER_STACK_SIZE <= x < USER_STACK_TOP ->
    exists p, lookup_va v (vmctx c) x = Some (p, (true, true, false)) /\ ld8 (pmem v) p = 0;
  pr_brk : brk v (vmctx c) = brk_end c /\ brk_start c = brk_end c /\ brk_end c mod 4096 = 0;
  pr_brk_above i : 0 <= i < e_phnum F 0 -> p_type F (ph_off F i) = PT_LOAD -> seg_va F bias (ph_off F i) + p_memsz F (ph_off F i) <= brk_end c
}.

Lemma low_lim : USER_STACK_TOP - USER_STACK_SIZE <= 2 ^ 48.
Proof. unfold USER_STACK_TOP, USER_STACK_SIZE. lia. Qed.

Section Assemble.
  Context (F : mem) (len bias ctx : Z) (v0 : vmst) (T : labels) (v : vmst) (T1 : labels) (v1 : vmst) (mx : Z).
  Hypothesis Him : image F len bias (USER_STACK_TOP - USER_STACK_SIZE).
  Hypothesis Hv : vm_ok T v.
  Hypothesis Hc : is_ctx T ctx.
  Hypothesis Hst : vm_step T v T1 v1.
  Hypothesis Hsame : forall va, off_run (USER_STACK_TOP - USER_STACK_SIZE) 1024 va -> lookup_va v1 ctx va = lookup_va v ctx va.
  Hypothesis Hsegs : segs_loaded F bias ctx v0 T v (e_phnum F 0).
  Hypothesis Hstack : stack_pages v T1 v1 ctx.
  Hypothesis Hmx : 0 <= mx <= 2 ^ 48.
Let b := break_of mx.
Let v2 := set_word (ctx + 8) b v1.

Lemma final_segment i : 0 <= i < e_phnum F 0 -> is_load F (ph_off F i) -> seg_loaded v0 T1 v2 ctx F bias (ph_off F i).
Proof.
  intros Hi Li. destruct (Hsegs i Hi Li) as (fs & Hlen & Hl). exists fs. split; [done|]. pose proof (break_spec mx Hmx).
  apply loaded_brk; [apply (vs_ok _ _ _ _ Hst)|by eapply step_ctx|lia|]. apply (loaded_step v0 T v); [done..|].
  intros k va Hk Hva. apply Hsame. intros m Hm. rewrite Hva.
  destruct (seg_run F len bias _ _ (im_fits _ _ _ _ Him i Hi (proj1 Li)) low_lim) as (A1 & A2 & _ & A4 & _). unfold USER_STACK_TOP, USER_STACK_SIZE in *.
  rewrite !vpn_small by lia. apply Z.mod_divide in A2 as [x Ex]; [|lia]. rewrite Ex, <- Z.mul_add_distr_r, Z.div_mul by lia.
  change (549755813888 - 4 * 1024 * 1024) with (134216704 * 4096) in *. rewrite <- Z.mul_add_distr_r, Z.div_mul by lia. lia.
Qed.

Lemma final_byte i x : 0 <= i < e_phnum F 0 -> p_type F (ph_off F i) = PT_LOAD ->
  let o := ph_off F i in seg_va F bias o <= x < seg_va F bias o + p_memsz F o ->
  exists p, lookup_va v2 ctx x = Some (p, flag_perms (seg_flags (p_flags F o))) /\ ld8 (pmem v2) p = seg_image F bias o x.
Proof.
  intros Hi Ht o Hx. assert (Li : is_load F (ph_off F i)) by (split; [done|]; fold o; lia).
  destruct (final_segment i Hi Li) as (fs & Hlen & Hl). destruct (seg_run F len bias _ _ (im_fits _ _ _ _ Him i Hi Ht) low_lim) as (A1 & A2 & A3 & A4 & _).
  pose proof low_lim. eapply loaded_byte; [exact Hl|done|done|rewrite Hlen; lia|rewrite Hlen; fold o in A3, A4 |- *; lia].
Qed.

Lemma final_stack : exists fs, length fs = 1024%nat /\ loaded v T1 v2 ctx (USER_STACK_TOP - USER_STACK_SIZE) 11 (fun _ => 0) fs.
Proof.
  destruct Hstack as (fs & Hlen & Hl). exists fs. split; [done|]. pose proof (break_spec mx Hmx).
  apply loaded_brk; [apply (vs_ok _ _ _ _ Hst)|by eapply step_ctx|lia|done].
Qed.

Lemma final_program c : vmctx c = ctx -> entry c = u64 (e_entry F 0 + bias) -> stack_top c = USER_STACK_TOP -> brk_start c = b -> brk_end c = b ->
  (forall i, 0 <= i < e_phnum F 0 -> p_type F (ph_off F i) = PT_LOAD -> seg_last F bias i <= mx) -> program F bias T1 v2 c.
Proof.
  intros Ec Ee Es E1 E2 Hle. pose proof (break_spec mx Hmx) as (B1 & B2 & B3). pose proof (step_ctx _ _ _ _ _ Hst Hc) as Hc1.
  destruct (set_brk_ok T1 v1 ctx b (vs_ok _ _ _ _ Hst) Hc1 ltac:(subst b; lia)) as (Hv2 & _ & Hb & _). fold v2 in Hv2, Hb.
  destruct final_stack as (fs & Hlen & Hl). split; rewrite ?Ec; try done.
  - intros i x Hi Ht. exact (final_byte i x Hi Ht).
  - split; [done|]. change USER_STACK_SIZE with (Z.of_nat 1024 * 4096) at 2. rewrite <- Hlen.
    apply (loaded_buffer v T1 v2 ctx _ 11 (fun _ => 0)); [done|done|unfold USER_STACK_TOP, USER_STACK_SIZE; lia|done|rewrite Hlen; unfold USER_STACK_TOP, USER_STACK_SIZE; lia].
  - intros x Hx. destruct (loaded_byte _ _ _ _ _ _ _ _ x Hl) as (p & Hp & Hz); [unfold USER_STACK_TOP, USER_STACK_SIZE; lia|done|rewrite Hlen; unfold USER_STACK_TOP, USER_STACK_SIZE; lia|rewrite Hlen; unfold USER_STACK_TOP, USER_STACK_SIZE in *; lia|].
    by exists p.
  - split_and!; [by rewrite E2|congruence|by rewrite E2].
  - intros i Hi Ht. rewrite E2. pose proof (Hle i Hi Ht). destruct (seg_last_eq F len bias _ i (im_fits _ _ _ _ Him i Hi Ht) low_lim). fold b in B1. lia.
Qed.
End Assemble.

(** ** Properties *)
Definition load_bias (F : mem) : Z := if e_type F 0 =? ET_DYN then LOAD_BASE else 0.

Lemma e_phnum_range F : 0 <= e_phnum F 0 < 2 ^ 16.
Proof. exact (ld_le_range 2 F 56). Qed.

Lemma fold_ctx F bias l c mx : vmctx (foldl (note_phdr F bias) (c, mx) l).1 = vmctx c /\ interp_path (foldl (note_phdr F bias) (c, mx) l).1 = interp_path c /\
  main_entry (foldl (note_phdr F bias) (c, mx) l).1 = main_entry c.
Proof.
  revert c mx. induction l as [|i l IH]; intros c mx; [done|]. cbn [foldl]. destruct (note_ctx F bias c mx i) as (N1 & N2 & N3 & _).
  destruct (note_phdr F bias (c, mx) i) as [c1 mx1]. cbn [fst] in *. destruct (IH c1 mx1) as (H1 & H2 & H3). split_and!; congruence.
Qed.

(** The headers leave the context alone, and the break covers what they load. *)
Lemma headers_done F len bias c c2 mx : image F len bias (USER_STACK_TOP - USER_STACK_SIZE) ->
  (c2, mx) = foldl (note_phdr F bias) (c, 0) (zrange (Z.to_nat (e_phnum F 0))) ->
  (vmctx c2 = vmctx c /\ interp_path c2 = interp_path c /\ main_entry c2 = main_entry c) /\ 0 <= mx <= 2 ^ 48 /\
  forall i, 0 <= i < e_phnum F 0 -> p_type F (ph_off F i) = PT_LOAD -> seg_last F bias i <= mx.
Proof.
  intros Him Ef. pose proof (fold_ctx F bias (zrange (Z.to_nat (e_phnum F 0))) c 0) as G. rewrite <- Ef in G. split; [exact G|].
  pose proof (fold_max F bias (USER_STACK_TOP - USER_STACK_SIZE) (zrange (Z.to_nat (e_phnum F 0))) c 0) as Q. rewrite <- Ef in Q. cbn [snd] in Q.
  pose proof low_lim as Hll. pose proof (e_phnum_range F). destruct Q as [Q1 Q2]; [unfold USER_STACK_TOP, USER_STACK_SIZE; lia| |].
  - intros i Hi%elem_of_zrange Ht. eapply seg_last_eq; [apply (im_fits _ _ _ _ Him); [lia|done]|done].
  - split; [lia|]. intros i Hi Ht. apply Q2; [apply elem_of_zrange; lia|done].
Qed.

(** From the fresh context on. *)
Lemma load_program {E} `{Vfs.FileOps E} (vfs_open : list Z -> E -> E * option Z) T (s : loader) data len F c ctx :
  vm_ok T (lvm s) -> is_ctx T ctx -> vmctx c = ctx -> interp_path c = [] -> buffer T (lvm s) data len F -> 0 < data -> data + len <= 2 ^ 48 ->
  image F len (load_bias F) (USER_STACK_TOP - USER_STACK_SIZE) ->
  let '(v, c2, mx, ok) := load_phdrs (Z.to_nat (2 ^ 16)) 0 data (load_bias F) 0 (lvm s) c in
  let s2 := on_vm (fun _ => v) s in
  let '(s', c', r) := if negb ok then (s2, c2, -1) else load_rest vfs_open data (load_bias F) mx s2 c2 in
  (r = 0 \/ r = -1) /\ (forall c0 va, is_ctx T c0 -> c0 <> ctx -> lookup_va (lvm s') c0 va = lookup_va (lvm s) c0 va) /\
  (r = 0 -> vmctx c' = ctx /\ main_entry c' = main_entry c /\ exists T', program F (load_bias F) T' (lvm s') c').
Proof.
  intros Hv Hc Ec Hp Hb Hd Hl Him. pose proof low_lim as Hll. pose proof (e_phnum_range F) as Hn.
  pose proof (load_phdrs_spec F data len (load_bias F) _ ctx Him Hll ltac:(lia) (lvm s) (Z.to_nat (2 ^ 16)) T (lvm s) c 0 0%nat Hv Hc Ec Hb
    ltac:(lia) ltac:(lia) ltac:(lia) (Mm.extends_refl _) ltac:(intros j Hj; lia)) as P.
  change (Z.of_nat 0) with 0 in P. destruct (load_phdrs _ 0 data _ 0 (lvm s) c) as [[[v2 c2] mx] ok]. destruct P as (T2 & S2 & Same2 & P2). cbv zeta.
  assert (Same : forall c0 va, is_ctx T c0 -> c0 <> ctx -> lookup_va v2 c0 va = lookup_va (lvm s) c0 va) by (intros c0 va H0 Hne; by apply Same2).
  destruct ok; cbn [negb]; [|split; [by right|]; by split]. destruct (P2 eq_refl) as [Sg Ef]. rewrite Nat.sub_0_r in Ef.
  destruct (headers_done F len _ c c2 mx Him Ef) as ((G1 & G2 & G3) & Hmx & Hlast). rewrite Ec in G1. rewrite Hp in G2.
  pose proof (step_ctx _ _ _ _ _ S2 Hc) as Hc2. set (s2 := on_vm (fun _ => v2) s).
  pose proof (load_rest_spec vfs_open T2 s2 data (load_bias F) mx c2 (vs_ok _ _ _ _ S2)) as P. rewrite G1 in P. specialize (P Hc2 G2 Hmx). cbv zeta in P.
  destruct (load_rest vfs_open data (load_bias F) mx s2 c2) as [[s3 c3] r]. destruct P as (Hr & T3 & v3 & S3 & Same3 & Ebad & Egood). change (lvm s2) with v2 in *.
  assert (Same23 : forall c0 va, is_ctx T c0 -> c0 <> ctx -> lookup_va v3 c0 va = lookup_va (lvm s) c0 va).
  { intros c0 va H0 Hne. rewrite Same3; [by apply Same|by eapply step_ctx|done]. }
  split; [done|]. destruct Hr as [->| ->]; [|split; [by rewrite (Ebad eq_refl)|done]].
  destruct (Egood eq_refl) as (Ev & Hstk & Ec3). pose proof (break_spec mx Hmx) as (_ & _ & Hbr). rewrite Ev. pose proof (step_ctx _ _ _ _ _ S3 Hc2) as Hc3.
  destruct (set_brk_ok T3 v3 ctx (break_of mx) (vs_ok _ _ _ _ S3) Hc3 ltac:(lia)) as (_ & Hlk & _). split.
  - intros c0 va H0 Hne. rewrite Hlk by exact (step_ctx _ _ _ _ _ S3 (step_ctx _ _ _ _ _ S2 H0)). by apply Same23.
  - intros _. destruct (ehdr_fields T2 v2 data len F (buffer_step _ _ _ _ _ _ _ S2 Hb) (im_head _ _ _ _ Him)) as (_ & Ee & _).
    rewrite Ec3, Ee. cbn. rewrite G1, G3. split; [done|]. split; [done|]. exists T3.
    apply (final_program F len (load_bias F) ctx (lvm s) T2 v2); try done; [apply (vs_ok _ _ _ _ S2)|]. intros va Hva. by apply Same3.
Qed.

(** C27: Loading an image without an interpreter builds the program it
    describes, in an address space of its own: each segment lies at its
    address (plus the bias of a position-independent image) with the bytes of
    the file, zeros up to its size in memory and the permissions of its
    header; there is a stack and a break above the segments; control starts at
    the entry of the image. Nothing changes in any other address space, also
    when the loader runs out of memory, the only way it fails. *)
Theorem elf_load_from_mem_program {E} `{Vfs.FileOps E} (vfs_open : list Z -> E -> E * option Z) T (s : loader) data len F c :
  vm_ok T (lvm s) -> stub_ok T (lvm s) -> buffer T (lvm s) data len F -> 0 < data -> data + len <= 2 ^ 48 -> header_ok F 0 = true ->
  image F len (load_bias F) (USER_STACK_TOP - USER_STACK_SIZE) ->
  let '(s', c', r) := elf_load_from_mem vfs_open data c s in
  (r = 0 \/ r = -1) /\
  (forall c0 va, is_ctx T c0 -> lookup_va (lvm s') c0 va = lookup_va (lvm s) c0 va) /\
  (r = 0 -> T !! vmctx c' = None /\ main_entry c' = entry c' /\ exists T', program F (load_bias F) T' (lvm s') c').
Proof.
  intros Hv Hstub Hb Hd Hl Hh Him. unfold elf_load_from_mem. rewrite (proj2 (Z.eqb_neq data 0)) by lia.
  pose proof (im_head _ _ _ _ Him) as H64. destruct (ehdr_fields T (lvm s) data len F Hb H64) as (_ & _ & _ & _ & _ & E6). rewrite E6, Hh. cbn [negb].
  pose proof (vm_create_spec T (lvm s) Hv Hstub) as Cr. destruct (vm_create (lvm s)) as [v1 ctx]. destruct Cr as (T1 & S1 & _ & Same1 & New).
  cbn [fst snd] in *. destruct (Z.eqb_spec ctx 0) as [->|Hne]; [split; [by right|]; by split|]. destruct (New Hne) as (Hc1 & Hfree & _).
  pose proof (buffer_step _ _ _ _ _ _ _ S1 Hb) as Hb1. destruct (ehdr_fields T1 v1 data len F Hb1 H64) as (E1 & E2 & _).
  rewrite E1. change (if e_type F 0 =? ET_DYN then base (first_context v1 data ctx c) else 0) with (load_bias F).
  pose proof (load_program vfs_open T1 (on_vm (fun _ => v1) s) data len F (first_context v1 data ctx c) ctx
    (vs_ok _ _ _ _ S1) Hc1 eq_refl eq_refl Hb1 Hd Hl Him) as P. change (lvm (on_vm (fun _ => v1) s)) with v1 in P.
  destruct (load_phdrs _ 0 data _ 0 v1 _) as [[[v2 c2] mx] ok]. cbv zeta in P.
  destruct (if negb ok then _ else _) as [[s' c'] r]. destruct P as (Hr & Same & Ok). split; [done|]. split.
  - intros c0 va H0. rewrite Same; [by apply Same1|by eapply step_ctx|]. intros ->. unfold is_ctx in H0. congruence.
  - intros ->. destruct (Ok eq_refl) as (-> & Em & T' & Pr). split; [done|]. split; [|by exists T'].
    rewrite Em, (pr_entry _ _ _ _ _ Pr). unfold first_context. cbn [main_entry]. by rewrite E1, E2.
Qed.

(** ** Witness *)
Definition ex_context : elf_context_t := ElfCtx 0 0 0 0 0 0 0 0 0 0 0 [].

(** An image of one segment: four bytes of code at 0x400078, eight in memory. *)
Definition ex_image : list Z :=
  [0x7F; 69; 76; 70; 2; 1; 1; 0; 0; 0; 0; 0; 0; 0; 0; 0] ++ [2; 0; 62; 0; 1; 0; 0; 0] ++ le64 0x400078 ++ le64 64 ++ le64 0 ++
  [0; 0; 0; 0; 64; 0; 56; 0; 1; 0; 0; 0; 0; 0; 0; 0] ++
  [1; 0; 0; 0; 5; 0; 0; 0] ++ le64 120 ++ le64 0x400078 ++ le64 0x400078 ++ le64 4 ++ le64 8 ++ le64 0x1000 ++ [0x90; 0x90; 0xEB; 0xFE].
Definition ex_F : mem := fun b => aget ex_image b.
Definition ex_data : Z := 0x100000.
Definition ex_boot : vmst := boot <| pmem := st_bytes (pmem boot) ex_data ex_image |>.
Definition no_files : Vfs.FileOps unit := {|
  Vfs.file_at _ _ := Vfs.file0; Vfs.set_file _ _ e := e; Vfs.op_close _ := None; Vfs.op_read _ := None; Vfs.op_write _ := None; Vfs.op_ioctl _ := None |}.
Definition ex_loader : loader (E := unit) := Loader ex_boot tt None 0.
Definition ex_load := elf_load_from_mem (FO := no_files) (fun _ e => (e, None)) ex_data ex_context ex_loader.

Lemma ex_boot_ok : vm_ok ∅ ex_boot /\ stub_ok ∅ ex_boot /\ buffer ∅ ex_boot ex_data 124 ex_F.
Proof.
  split_and!.
  - split; [exact Mm.mm_bss_ok|..].
    + intros t lab Ht. by rewrite lookup_empty in Ht.
    + intros t c l p Ht. by rewrite lookup_empty in Ht.
    + intros c Hc. by rewrite lookup_empty in Hc.
    + intros t c l p i Ht. by rewrite lookup_empty in Ht.
    + intros t c l p Ht. by rewrite lookup_empty in Ht.
  - intros H. by destruct H.
  - intros b Hb. split; [split|].
    + intros t lab Ht. by rewrite lookup_empty in Ht.
    + intros k Hk _. unfold page_of, ex_data. change Mm.HEAP_BASE with 8388608. change PAGE_SIZE with 4096. lia.
    + change (pmem ex_boot) with (st_bytes (pmem boot) ex_data ex_image). rewrite ld8_st_bytes.
      * rewrite decide_True by (change (Z.of_nat (length ex_image)) with 124; lia). unfold ex_F. f_equal. lia.
      * vm_compute. repeat constructor; discriminate.
Qed.

Lemma ex_image_ok : image ex_F 124 (load_bias ex_F) (USER_STACK_TOP - USER_STACK_SIZE).
Proof.
  assert (En : e_phnum ex_F 0 = 1) by (vm_compute; reflexivity). assert (E0 : forall i, 0 <= i < e_phnum ex_F 0 -> i = 0) by (rewrite En; lia).
  split.
  - lia.
  - intros i ->%E0. vm_compute. by split.
  - intros i ->%E0. vm_compute. done.
  - intros i ->%E0 _. split; vm_compute; discriminate.
  - intros i j ->%E0 ->%E0. done.
Qed.
#[local] Opaque ex_boot.

Lemma elf_load_from_mem_program_witness :
  let '(s, c, r) := ex_load in (r = 0 \/ r = -1) /\
    (r = 0 -> entry c = 0x400078 /\
      (exists p, lookup_va (lvm s) (vmctx c) 0x40007A = Some (p, (true, false, true)) /\ ld8 (pmem (lvm s)) p = 0xEB) /\
      (exists p, lookup_va (lvm s) (vmctx c) 0x40007D = Some (p, (true, false, true)) /\ ld8 (pmem (lvm s)) p = 0)).
Proof.
  destruct ex_boot_ok as (H1 & H2 & H3).
  pose proof (elf_load_from_mem_program (H := no_files) (fun _ e => (e, None)) ∅ ex_loader ex_data 124 ex_F ex_context H1 H2 H3 ltac:(done) ltac:(done)
    ltac:(vm_compute; reflexivity) ex_image_ok) as P.
  unfold ex_load. destruct (elf_load_from_mem _ _ _ _) as [[s c] r]. destruct P as (Hr & _ & Ok). split; [exact Hr|]. intros E.
  destruct (Ok E) as (_ & _ & T' & Pr). assert (En : 0 <= 0 < e_phnum ex_F 0) by (vm_compute; by split).
  split; [rewrite (pr_entry _ _ _ _ _ Pr); vm_compute; reflexivity|].
  assert (Ht : p_type ex_F (ph_off ex_F 0) = PT_LOAD) by (vm_compute; reflexivity).
  assert (Ep : flag_perms (seg_flags (p_flags ex_F (ph_off ex_F 0))) = (true, false, true)) by (vm_compute; reflexivity).
  pose proof (fun x => pr_segment _ _ _ _ _ Pr 0 x En Ht) as Sg. cbv zeta in Sg. rewrite Ep in Sg. split.
  - destruct (Sg 0x40007A) as (p & Hp & Hb); [vm_compute; by split|]. exists p. split; [exact Hp|]. rewrite Hb. vm_compute. reflexivity.
  - destruct (Sg 0x40007D) as (p & Hp & Hb); [vm_compute; by split|]. exists p. split; [exact Hp|]. rewrite Hb. vm_compute. reflexivity.
Defined.
End ElfLoad.
