(* ===== verification/ElfStack.v ===== *)
(** The initial stack of a program (Elf): what the pushes leave in the user
    memory, in the layout of the ABI. *)
From S2P Require Import Prelude Memory Phys Vm VmSpace Elf ElfLoad.

Module ElfStack.
Import Phys Vm VmSpace Elf ElfLoad.

(** * The initial stack *)

(** The byte that user address [a] shows, and a run of bytes there. *)
Definition uread (v : vmst) (ctx a : Z) : Z := ld8 (pmem v) (vm_translate v ctx a).
Definition ubytes (v : vmst) (ctx a : Z) (l : list Z) : Prop := forall b, 0 <= b < Z.of_nat (length l) -> uread v ctx (a + b) = aget l b.

Lemma ubytes_app v ctx a l l' : ubytes v ctx a l -> ubytes v ctx (a + Z.of_nat (length l)) l' -> ubytes v ctx a (l ++ l').
Proof.
  intros H1 H2 b Hb. rewrite length_app in Hb. destruct (Z_lt_le_dec b (Z.of_nat (length l))) as [Hlt|Hge].
  - rewrite aget_app_l by lia. apply H1. lia.
  - rewrite aget_app_r by lia. rewrite <- H2 by lia. f_equal. lia.
Qed.

(** From [v0] to [v] only bytes that [ctx] has between [lo] and [hi] changed. *)
Record written (T : labels) (ctx lo hi : Z) (v0 v : vmst) : Prop := {
  wr_pmm : pmm v = pmm v0;
  wr_cr3 : cr3 v = cr3 v0;
  wr_stub : sig_stub_page v = sig_stub_page v0;
  wr_keeps : keeps T v0 v;
  wr_out b : (forall x, lo <= x < hi -> vm_translate v ctx x <> b) -> ld8 (pmem v) b = ld8 (pmem v0) b
}.

Section Stack.
  Context (T : labels) (ctx lo hi : Z) (v0 : vmst).
  Hypothesis Hlim : 0 <= lo /\ hi <= 2 ^ 48.

(** A stack between [lo] and [hi], built since [v0]: the bytes from [sp] on
    are the runs [W]. *)
Record stack (v : vmst) (sp : Z) (W : list (Z * list Z)) : Prop := {
  sk_vm : vm_ok T v;
  sk_ctx : is_ctx T ctx;
  sk_buf : user_buffer T v ctx lo (hi - lo);
  sk_written : written T ctx lo hi v0 v;
  sk_sp : lo <= sp <= hi;
  sk_runs a l : (a, l) ∈ W -> sp <= a /\ a + Z.of_nat (length l) <= hi /\ ubytes v ctx a l
}.

Lemma stack_part v a n : user_buffer T v ctx lo (hi - lo) -> lo <= a -> a + n <= hi -> user_buffer T v ctx a n.
Proof.
  intros [H1 H2 H3] Ha Hn. assert (E : forall b, tr v ctx a b = tr v ctx lo (a - lo + b)) by (intros b; unfold tr; do 2 f_equal; lia).
  split.
  - intros b Hb. rewrite E. apply H1. lia.
  - intros b t lab Hb. rewrite E. apply H2. lia.
  - intros b b' Hb Hb'. rewrite !E. intros Ee. apply H3 in Ee; lia.
Qed.

Lemma uread_tr v a b : lo <= a + b < hi -> uread v ctx (a + b) = ld8 (pmem v) (tr v ctx a b).
Proof. intros H. unfold uread, tr. by rewrite u64_small by lia. Qed.

(** Anything pushed below [sp] joins the runs. *)
Lemma push_spec v sp W a l : stack v sp W -> lo <= a -> a + Z.of_nat (length l) <= sp -> Forall (fun x => 0 <= x < 256) l ->
  exists v', push_bytes ctx a l v = (v', Some a) /\ stack v' a ((a, l) :: W).
Proof.
  intros [Hv Hc Hb Hwr Hsp Hw] Ha He Hl. unfold push_bytes, vm_copy_to_user. rewrite (proj2 (Z.eqb_neq ctx 0)) by (pose proof (label_pos _ _ _ _ Hv Hc); lia).
  assert (Hub : user_buffer T v ctx a (Z.of_nat (length l))) by (apply stack_part; [done|lia..]).
  destruct (copy_to_loop_spec T ctx (length l) a l v Hv Hc Hub ltac:(lia) Hl) as [Hr (E1 & E2 & E3 & Hk & Hin & Hout)].
  destruct (copy_to_loop _ ctx a l v) as [v' r]. cbn [fst snd] in *. subst r. exists v'. split; [done|].
  assert (Htr : forall c va, is_ctx T c -> vm_translate v' c va = vm_translate v c va) by (intros c va Hcc; by apply (keeps_translate T)).
  assert (Etr : forall b x, lo <= x < hi -> (forall x, lo <= x < hi -> vm_translate v' ctx x <> b) -> vm_translate v ctx x <> b).
  { intros b x Hx Hb'. rewrite <- (Htr ctx x Hc). by apply Hb'. }
  split; [by apply (keeps_ok T v)|done| | |lia|].
  2: { destruct Hwr as [W1 W2 W3 W4 W5]. split; [congruence..|by eapply keeps_trans|]. intros b Hb'. rewrite Hout; [by apply W5; eauto|].
       intros b' Hb''. unfold tr. rewrite u64_small by lia. apply not_eq_sym, (Etr b); [lia|done]. }
  - destruct Hb as [H1 H2 H3]. split; unfold tr in *; [intros b Hb|intros b t lab Hb|intros b b' Hb Hb']; rewrite ?Htr by done; eauto.
  - intros a' l' [[= -> ->]|Hin']%elem_of_cons.
    + split; [lia|]. split; [lia|]. intros b Hbl. unfold uread. rewrite Htr by done. rewrite <- (Hin b Hbl). unfold tr. by rewrite u64_small by lia.
    + destruct (Hw a' l' Hin') as (W1 & W2 & W3). split; [lia|]. split; [done|]. intros b Hbl. rewrite <- (W3 b Hbl). unfold uread. rewrite Htr by done.
      apply Hout. intros b' Hb'. assert (E : forall x, lo <= x < hi -> vm_translate v ctx x = tr v ctx lo (x - lo)).
      { intros x Hx. unfold tr. rewrite u64_small by lia. f_equal. lia. }
      replace (tr v ctx a b') with (tr v ctx lo (a + b' - lo)) by (unfold tr; do 2 f_equal; lia). rewrite E by lia.
      intros Ee. apply (ub_inj _ _ _ _ _ Hb) in Ee; lia.
Qed.

Lemma stack_drop v sp W x : stack v sp (x :: W) -> stack v sp W.
Proof. intros [H1 H2 H3 H4 H5 H6]. split; try done. intros a l Hin. apply H6. by right. Qed.

(** Two neighbouring runs are one. *)
Lemma stack_join v sp W a l l' : stack v sp ((a, l) :: (a + Z.of_nat (length l), l') :: W) -> stack v sp ((a, l ++ l') :: W).
Proof.
  intros [H1 H2 H3 H4 H5 H6]. split; try done. intros b m [[= -> ->]|Hin]%elem_of_cons; [|apply H6; by do 2 right].
  destruct (H6 a l) as (A1 & A2 & A3); [by left|]. destruct (H6 (a + Z.of_nat (length l)) l') as (B1 & B2 & B3); [by right; left|].
  split; [done|]. split; [rewrite length_app; lia|by apply ubytes_app].
Qed.

(** A string below the stack pointer, with its NUL. *)
Lemma push_str_spec v sp W s : stack v sp W -> lo <= sp - (Z.of_nat (length s) + 1) -> Forall (fun x => 0 <= x < 256) s ->
  let a := sp - (Z.of_nat (length s) + 1) in exists v', push_str ctx sp s v = (v', Some a) /\ stack v' a ((a, s ++ [0]) :: W).
Proof.
  intros St Ha Hs a. unfold push_str. pose proof (sk_sp _ _ _ St). rewrite u64_small by lia. fold a. apply (push_spec v sp W a); [done|done| |].
  - rewrite length_app. cbn. lia.
  - apply Forall_app. split; [done|]. repeat constructor; lia.
Qed.

(** The bytes the strings take. *)
Definition strs_size (l : list (list Z)) : Z := foldr (fun s acc => Z.of_nat (length s) + 1 + acc) 0 l.

Lemma strs_size_nonneg l : 0 <= strs_size l.
Proof. induction l as [|s l IH]; cbn; [lia|]. fold (strs_size l). lia. Qed.

Lemma push_strs_spec l v sp W : stack v sp W -> lo <= sp - strs_size l -> Forall (Forall (fun x => 0 <= x < 256)) l ->
  exists v' ps, push_strs ctx sp l v = (v', Some (sp - strs_size l, ps)) /\ length ps = length l /\
    stack v' (sp - strs_size l) (zip ps ((fun s => s ++ [0]) <$> l) ++ W).
Proof.
  revert v sp W. induction l as [|s l IH]; intros v sp W St Hlo Hb; cbn [strs_size foldr].
  { exists v, []. rewrite Z.sub_0_r. by split. }
  cbn [strs_size foldr] in Hlo. fold (strs_size l) in *. apply Forall_cons in Hb as [Hs Hb]. pose proof (strs_size_nonneg l).
  destruct (push_str_spec v sp W s St ltac:(lia) Hs) as (v1 & E1 & St1). cbn [push_strs]. rewrite E1. set (a := sp - (Z.of_nat (length s) + 1)) in *.
  destruct (IH v1 a _ St1 ltac:(lia) Hb) as (v2 & ps & E2 & Hlen & St2). rewrite E2. exists v2, (a :: ps).
  replace (sp - (Z.of_nat (length s) + 1 + strs_size l)) with (a - strs_size l) by lia. split; [done|]. split; [cbn; by rewrite Hlen|].
  destruct St2 as [H1 H2 H3 H4 H5 H6]. split; try done. intros b m Hin. apply H6. cbn in Hin. set_solver.
Qed.

(** Words, highest first, grow the run at the stack pointer downwards. *)
Definition words (l : list Z) : list Z := concat (le64 <$> l).

Lemma length_words l : length (words l) = (8 * length l)%nat.
Proof. unfold words. induction l as [|x l IH]; [done|]. cbn [fmap list_fmap concat]. rewrite length_app, IH. unfold le64. rewrite length_fmap, length_zrange. cbn [length]. lia. Qed.

Lemma le64_ok x : Forall (fun b => 0 <= b < 256) (le64 x).
Proof. unfold le64. apply Forall_fmap, Forall_true. intros i. apply u8_range. Qed.

Lemma push_words_spec l v sp W B : stack v sp ((sp, B) :: W) -> lo <= sp - 8 * Z.of_nat (length l) ->
  exists v', push_words ctx sp l v = (v', Some (sp - 8 * Z.of_nat (length l))) /\
    stack v' (sp - 8 * Z.of_nat (length l)) ((sp - 8 * Z.of_nat (length l), words (rev l) ++ B) :: W).
Proof.
  revert v sp B. induction l as [|x l IH]; intros v sp B St Hlo; cbn [push_words length].
  { exists v. replace (sp - 8 * Z.of_nat 0) with sp by lia. by split. }
  cbn [length] in Hlo. pose proof (sk_sp _ _ _ St). unfold push_u64. rewrite u64_small by lia.
  assert (Hl8 : Z.of_nat (length (le64 x)) = 8) by done.
  destruct (push_spec v sp _ (sp - 8) (le64 x) St ltac:(lia) ltac:(rewrite Hl8; lia) (le64_ok x)) as (v1 & E1 & St1). rewrite E1.
  assert (St2 : stack v1 (sp - 8) ((sp - 8, le64 x ++ B) :: W)) by (apply stack_join; rewrite Hl8; by replace (sp - 8 + 8) with sp by lia).
  destruct (IH v1 (sp - 8) _ St2 ltac:(lia)) as (v2 & E2 & St3). exists v2. rewrite E2.
  replace (sp - 8 * Z.of_nat (S (length l))) with (sp - 8 - 8 * Z.of_nat (length l)) by lia. split; [done|].
  cbn [rev]. unfold words in *. rewrite fmap_app, concat_app. cbn. rewrite <- app_assoc. cbn. exact St3.
Qed.
End Stack.

Lemma align16_eq x : align16 x = x / 16 * 16.
Proof.
  unfold align16. change 15 with (Z.ones 4). change (Z.land x (Z.lnot (Z.ones 4))) with (Z.land x (Z.lnot (Z.ones 4))).
  rewrite <- Z.ldiff_land, Z.ldiff_ones_r by lia. by rewrite Z.shiftl_mul_pow2, Z.shiftr_div_pow2 by lia.
Qed.

Lemma align16_below x : x - 15 <= align16 x <= x /\ align16 x mod 16 = 0.
Proof.
  rewrite align16_eq. pose proof (Z_div_mod_eq_full x 16). pose proof (Z.mod_pos_bound x 16 ltac:(lia)). split; [lia|apply Z_mod_mult].
Qed.

Lemma length_aux l : length (aux_words l) = (2 * length l)%nat.
Proof. unfold aux_words. induction l as [|x l IH]; [done|]. cbn [fmap list_fmap concat]. rewrite length_app, IH. cbn [length]. lia. Qed.

Lemma length_auxv c uid gid p r x : (16 <= length (auxv c uid gid p r x) <= 17)%nat.
Proof. unfold auxv. rewrite !length_app. destruct (interp_base c =? 0); cbn; lia. Qed.

Lemma random_ok t : length (random_bytes t) = 16%nat /\ Forall (fun b => 0 <= b < 256) (random_bytes t).
Proof. unfold random_bytes. split; [done|]. apply Forall_fmap, Forall_true. intros i. apply u8_range. Qed.

(** What a run of pairs in a stack says of each. *)
Lemma stack_strings T ctx lo hi v0 v sp W ps ss : stack T ctx lo hi v0 v sp W -> length ps = length ss ->
  (forall x, x ∈ zip ps ((fun s => s ++ [0]) <$> ss) -> x ∈ W) -> Forall2 (fun p s => ubytes v ctx p (s ++ [0])) ps ss.
Proof.
  intros St Hl Hin. apply Forall2_same_length_lookup. split; [done|]. intros i p s Hp Hs. apply (sk_runs _ _ _ _ _ _ _ _ St p (s ++ [0])), Hin.
  apply list_elem_of_lookup. exists i. rewrite lookup_zip_with, Hp, list_lookup_fmap, Hs. done.
Qed.

Lemma stack_lower T ctx lo hi v0 v sp sp' W : stack T ctx lo hi v0 v sp W -> lo <= sp' <= sp -> stack T ctx lo hi v0 v sp' W.
Proof. intros [H1 H2 H3 H4 H5 H6] Hs. split; try done; [lia|]. intros a l Hin. destruct (H6 a l Hin). split; [lia|done]. Qed.

Lemma stack_empty T ctx lo hi v0 v sp W : stack T ctx lo hi v0 v sp W -> stack T ctx lo hi v0 v sp ((sp, []) :: W).
Proof.
  intros [H1 H2 H3 H4 H5 H6]. split; try done. intros a l [[= -> ->]|Hin]%elem_of_cons; [|by apply H6]. split; [lia|]. split; [cbn; lia|]. intros b Hb. cbn in Hb. lia.
Qed.

(** The initial stack at [rsp]: the words in the order of the ABI, the strings
    and the sixteen bytes they point at. *)
Record initial_stack (v : vmst) (c : elf_context_t) (t uid gid : Z) (argv envp : list (list Z)) (rsp : Z) : Prop := {
  is_aligned : rsp mod 16 = 0;
  is_words : exists ps qs plat rnd,
    ubytes v (vmctx c) rsp (words ([Z.of_nat (length argv)] ++ ps ++ [0] ++ qs ++ [0] ++ aux_words (auxv c uid gid plat rnd (default 0 (head ps))) ++ [0; 0])) /\
    Forall2 (fun p s => ubytes v (vmctx c) p (s ++ [0])) ps argv /\ Forall2 (fun p s => ubytes v (vmctx c) p (s ++ [0])) qs envp /\
    ubytes v (vmctx c) plat (platform ++ [0]) /\ ubytes v (vmctx c) rnd (random_bytes t)
}.

(** The room the initial stack takes at most. *)
Definition stack_need (argv envp : list (list Z)) : Z := strs_size argv + strs_size envp + 8 * Z.of_nat (length argv + length envp) + 400.

(** The stack a program starts with has the layout of the ABI: at the
    stack pointer, a multiple of 16, the argument count, the pointers to the
    arguments and a NULL, the pointers to the environment and a NULL, and the
    auxiliary vector with its terminator; each pointer leads to the bytes of
    its string and a NUL. It is built whenever the stack region is mapped and
    has room, and nothing but the stack region is written; at most 64 arguments and 64 environment strings are passed on. *)
Theorem elf_build_user_stack_layout T lo v t cur def c argv envp :
  let A := take 64 argv in let P := take 64 envp in
  0 <= lo -> vm_ok T v -> is_ctx T (vmctx c) -> user_buffer T v (vmctx c) lo (USER_STACK_TOP - lo) ->
  Forall (Forall (fun x => 0 <= x < 256)) (A ++ P) -> lo + stack_need A P <= USER_STACK_TOP ->
  let '(v', r) := elf_build_user_stack t cur def c argv envp v in
  vm_ok T v' /\ written T (vmctx c) lo USER_STACK_TOP v v' /\
  exists rsp, r = Some rsp /\ lo <= rsp /\ initial_stack v' c t (ids cur def).1 (ids cur def).2 A P rsp.
Proof.
  intros A P Hlo0 Hv Hc Hbuf [HbA HbP]%Forall_app Hneed. unfold stack_need in Hneed. set (ctx := vmctx c) in *.
  pose proof (strs_size_nonneg A). pose proof (strs_size_nonneg P). unfold elf_build_user_stack. change (Z.to_nat MAX_UV_STR) with 64%nat. fold A P ctx.
  rewrite (proj2 (Z.eqb_neq ctx 0)) by (pose proof (label_pos _ _ _ _ Hv Hc); lia).
  assert (Hlim : 0 <= lo /\ USER_STACK_TOP <= 2 ^ 48) by (unfold USER_STACK_TOP; lia).
  assert (St0 : stack T ctx lo USER_STACK_TOP v v USER_STACK_TOP []) by (split; try done; [lia|by intros a l ?%not_elem_of_nil]).
  destruct (push_strs_spec T ctx lo _ v Hlim A v _ _ St0 ltac:(lia) HbA) as (v1 & ps & -> & Hps & St1).
  destruct (push_strs_spec T ctx lo _ v Hlim P v1 _ _ St1 ltac:(lia) HbP) as (v2 & qs & -> & Hqs & St2). set (sp2 := _ - strs_size P) in *.
  destruct (push_str_spec T ctx lo _ v Hlim v2 sp2 _ platform St2 ltac:(cbn; lia) ltac:(repeat constructor; lia)) as (v3 & -> & St3).
  set (plat := sp2 - _) in *. assert (Hplat : plat = sp2 - 7) by done. clearbody plat. destruct (random_ok t) as [Hrl Hrb].
  rewrite u64_small by lia. pose proof (align16_below (plat - 16)) as [Hrnd Hrm]. set (rnd := align16 (plat - 16)) in *.
  destruct (push_spec T ctx lo _ v Hlim v3 plat _ rnd (random_bytes t) St3 ltac:(lia) ltac:(rewrite Hrl; lia) Hrb) as (v4 & -> & St4).
  destruct (ids cur def) as [uid gid]. cbn [fst snd]. set (aux := auxv c uid gid plat rnd _). pose proof (length_auxv c uid gid plat rnd (default 0 (head ps))) as Haux. fold aux in Haux.
  assert (Ea : align16 rnd = rnd) by (rewrite align16_eq; pose proof (Z_div_mod_eq_full rnd 16); lia). rewrite Ea.
  set (ws := [Z.of_nat (length A)] ++ _). set (total := _ + 1). assert (Hws : Z.of_nat (length ws) = total).
  { unfold ws, total. rewrite !length_app, length_aux. cbn [length]. lia. }
  set (sp := if total mod 2 =? 1 then u64 (rnd - 8) else rnd).
  assert (Htot : 0 < total <= 39 + Z.of_nat (length A + length P)) by (unfold total; lia). clearbody total.
  assert (Hsp : rnd - 8 <= sp <= rnd /\ (sp - 8 * total) mod 16 = 0).
  { pose proof (Z.mod_pos_bound total 2 ltac:(lia)). pose proof (Z_div_mod_eq_full total 2). pose proof (Z_div_mod_eq_full rnd 16).
    unfold sp. destruct (Z.eqb_spec (total mod 2) 1) as [Eo|Eo]; [rewrite u64_small by lia|]; (split; [lia|]).
    - replace (rnd - 8 - 8 * total) with ((rnd / 16 - total / 2 - 1) * 16) by lia. apply Z_mod_mult.
    - replace (rnd - 8 * total) with ((rnd / 16 - total / 2) * 16) by lia. apply Z_mod_mult. }
  pose proof (stack_empty _ _ _ _ _ _ _ _ (stack_lower _ _ _ _ _ _ _ sp _ St4 ltac:(lia))) as St5.
  destruct (push_words_spec T ctx lo _ v Hlim (rev ws) v4 sp _ [] St5) as (v5 & -> & St6); [rewrite length_rev; lia|].
  rewrite length_rev, Hws in *. rewrite rev_involutive, app_nil_r in St6. split; [apply (sk_vm _ _ _ _ _ _ _ _ St6)|].
  split; [apply (sk_written _ _ _ _ _ _ _ _ St6)|]. eexists. split; [done|].
  split; [lia|]. split; [apply Hsp|]. exists ps, qs, plat, rnd. split; [|split; [|split; [|split]]].
  - apply (sk_runs _ _ _ _ _ _ _ _ St6). by left.
  - apply (stack_strings _ _ _ _ _ _ _ _ _ _ St6 Hps). intros x Hx. set_solver.
  - apply (stack_strings _ _ _ _ _ _ _ _ _ _ St6 Hqs). intros x Hx. set_solver.
  - apply (sk_runs _ _ _ _ _ _ _ _ St6). set_solver.
  - apply (sk_runs _ _ _ _ _ _ _ _ St6). set_solver.
Qed.

(** ** Witnesses *)

(** A stack of two pages in the context over the boot tables. *)
Definition ex_stack : vmst * Z := vm_map ex_ctx (USER_STACK_TOP - 8192) 8192 11 ex_create.1.

Lemma ex_stack_ok : exists T, vm_ok T ex_stack.1 /\ is_ctx T ex_ctx /\ user_buffer T ex_stack.1 ex_ctx (USER_STACK_TOP - 8192) (USER_STACK_TOP - (USER_STACK_TOP - 8192)).
Proof.
  destruct ex_create_ok as (T & H1 & H2).
  pose proof (vm_map_range T ex_create.1 ex_ctx (USER_STACK_TOP - 8192) 8192 11 H1 H2 ltac:(unfold USER_STACK_TOP; lia) ltac:(lia) ltac:(unfold USER_STACK_TOP; lia)) as P.
  assert (E : ((vm_map ex_ctx (USER_STACK_TOP - 8192) 8192 11 ex_create.1).2 =? 0) = true) by (vm_compute; reflexivity).
  unfold ex_stack. destruct (vm_map ex_ctx (USER_STACK_TOP - 8192) 8192 11 ex_create.1) as [v r]. cbn [snd] in E. apply Z.eqb_eq in E. subst r.
  cbv zeta in P. destruct P as (T' & S1 & _ & _ & L). destruct (L eq_refl) as (fs & Hlen & Hn & Hf & Hm). exists T'. cbn [fst].
  change (length fs = 2%nat) in Hlen. split; [apply (vs_ok _ _ _ _ S1)|]. split; [by eapply step_ctx|].
  replace (USER_STACK_TOP - (USER_STACK_TOP - 8192)) with (Z.of_nat (length fs) * 4096) by (rewrite Hlen; unfold USER_STACK_TOP; lia).
  apply (loaded_buffer ex_create.1 T' v ex_ctx _ 11 (fun _ => 0)); [apply (vs_ok _ _ _ _ S1)| |unfold USER_STACK_TOP; lia|done|rewrite Hlen; unfold USER_STACK_TOP; lia].
  split; [done| |]; [intros i f Ef; rewrite Forall_lookup in Hf; by eapply Hf|intros i f va Ef; by apply Hm].
Qed.
#[local] Opaque ex_stack ex_create.

Definition ex_elf : elf_context_t := ElfCtx 0x401000 0x401000 USER_STACK_TOP 0 0 0 2 56 0x400040 0 ex_ctx [].

(** "sh", "-c" and "A=b". *)
Lemma elf_build_user_stack_layout_witness :
  let '(v, r) := elf_build_user_stack 7 None (1000, 1000) ex_elf [[115; 104]; [45; 99]] [[65; 61; 98]] ex_stack.1 in
  exists rsp, r = Some rsp /\ initial_stack v ex_elf 7 1000 1000 [[115; 104]; [45; 99]] [[65; 61; 98]] rsp.
Proof.
  destruct ex_stack_ok as (T & H1 & H2 & H3).
  pose proof (elf_build_user_stack_layout T (USER_STACK_TOP - 8192) ex_stack.1 7 None (1000, 1000) ex_elf [[115; 104]; [45; 99]] [[65; 61; 98]]
    ltac:(unfold USER_STACK_TOP; lia) H1 H2 H3 ltac:(repeat constructor; lia) ltac:(vm_compute; discriminate)) as P.
  destruct (elf_build_user_stack _ _ _ _ _ _ _) as [v r]. destruct P as (_ & _ & rsp & Hr & _ & Hi). exists rsp. split; [exact Hr|exact Hi].
Defined.

End ElfStack.
