(* ===== verification/ElfSpace.v ===== *)
(** What loading a program leaves alone (Elf): whatever the file holds, every
    address space there was before translates as it did, the bytes of its pages
    stay, pages in use stay in use, and the page table in force is the same. *)
From S2P Require Import Prelude Memory Phys Vm VmSpace Vfs Elf ElfLoad ElfStack.

Module ElfSpace.
Import Phys Vm VmSpace Elf ElfLoad ElfStack.
#[local] Opaque Mm.HOT_ZONE_PAGES Mm.HEAP_BASE Mm.page_used zero.

(** A copy writes nothing outside its destination, also when it overlaps its
    source. *)
Lemma ld8_copy_out m dst src n b : ~ (dst <= b < dst + n) -> ld8 (copy m dst src n) b = ld8 m b.
Proof.
  intros Hb. rewrite copy_loop. unfold Phys.copy_bytes.
  assert (H : forall l m', Forall (fun i => 0 <= i < n) l -> ld8 (foldl (fun m i => st8 m (dst + i) (ld8 m (src + i))) m' l) b = ld8 m' b).
  { induction l as [|i l IH]; intros m' Hl; [done|]. apply Forall_cons in Hl as [Hi Hl]. cbn [foldl]. rewrite (IH _ Hl), ld8_st8, decide_False by lia. done. }
  apply H, Forall_forall. intros i Hi%elem_of_zrange. lia.
Qed.

(** * Growing *)

(** [v] has what [v0] had, and possibly more spaces and pages. *)
Record grown (T0 : labels) (v0 : vmst) (T : labels) (v : vmst) : Prop := {
  gr_step : vm_step T0 v0 T v;
  gr_same c va : is_ctx T0 c -> lookup_va v c va = lookup_va v0 c va
}.

Lemma grown_refl T v : vm_ok T v -> grown T v T v.
Proof. intros H. split; [by apply vm_step_refl|done]. Qed.

Lemma grown_trans T0 v0 T v T' v' : grown T0 v0 T v -> grown T v T' v' -> grown T0 v0 T' v'.
Proof.
  intros [S1 L1] [S2 L2]. split; [by eapply vm_step_trans|]. intros c va Hc. rewrite L2; [by apply L1|by eapply step_ctx].
Qed.

Lemma grown_step T0 v0 T v T' v' : grown T0 v0 T v -> vm_step T v T' v' ->
  (forall c va, is_ctx T0 c -> lookup_va v' c va = lookup_va v c va) -> grown T0 v0 T' v'.
Proof. intros [S1 L1] S2 L2. split; [by eapply vm_step_trans|]. intros c va Hc. rewrite L2 by done. by apply L1. Qed.

Lemma lookup_keeps T v v' c va : vm_ok T v -> keeps T v v' -> is_ctx T c -> lookup_va v' c va = lookup_va v c va.
Proof.
  intros Hv K Hc. unfold lookup_va. rewrite !pml4_entry, (K c _ 0 Hc) by lia. rewrite <- pml4_entry.
  rewrite (walk_keeps T v v' Hv K 4 _ c 0); [done|by apply (vo_ctx _ _ Hv)|lia].
Qed.

Lemma grown_keeps T0 v0 T v v' : grown T0 v0 T v -> vm_step T v T v' -> keeps T v v' -> grown T0 v0 T v'.
Proof.
  intros G S K. apply (grown_step T0 v0 T v); [done..|]. intros c va Hc. destruct G as [S1 _].
  exact (keeps_lookup T v T v' c va (vs_ok _ _ _ _ S1) S K (step_ctx _ _ _ _ _ S1 Hc)).
Qed.

(** Writes into pages taken since [v0] and used by no table. *)
Lemma grown_write T0 v0 T v v' : vm_ok T0 v0 -> grown T0 v0 T v -> pmm v' = pmm v -> cr3 v' = cr3 v -> sig_stub_page v' = sig_stub_page v ->
  (forall b, (forall f, newly v0 v f -> T !! f = None -> ~ (f <= b < f + 4096)) -> ld8 (pmem v') b = ld8 (pmem v) b) -> grown T0 v0 T v'.
Proof.
  intros Hv0 [S L] E1 E2 E3 Hm. pose proof (vs_ok _ _ _ _ S) as Hv.
  assert (K : keeps T v v').
  { intros t lab i Ht Hi. apply entry_ext. intros b Hb. apply Hm. intros f Hn Hf. unfold slot in Hb.
    assert (Hne : t <> f) by (intros ->; congruence). destruct (taken_aligned _ _ (proj1 Hn)) as [Af _].
    destruct (aligned_disjoint t f (label_aligned _ _ _ _ Hv Ht) Af Hne); lia. }
  assert (Hv' : vm_ok T v') by (by apply (keeps_ok T v)).
  split; [|intros c va Hc; rewrite (lookup_keeps T v v') by (done || by eapply step_ctx); by apply L]. destruct S as [A1 A2 A3 A4 A5 A6 A7 A8]. split; [done|done|done|by rewrite E1|congruence|congruence|..].
  - intros c i Hc Hi. rewrite (K c (c, 5%nat, 0) i); [by apply A7|by eapply lookup_weaken|done].
  - intros b Hb. rewrite Hm; [by apply A8|]. intros f Hn _. apply (newly_untouched T0 v0 v f b Hv0 Hn). by left.
Qed.

(** The break of a space made since [v0]. *)
Lemma grown_brk T0 v0 T v ctx b : grown T0 v0 T v -> is_ctx T ctx -> T0 !! ctx = None -> 0 <= b < 2 ^ 64 -> grown T0 v0 T (set_word (ctx + 8) b v).
Proof.
  intros [S L] Hc Hf Hb. destruct (set_brk_ok T v ctx b (vs_ok _ _ _ _ S) Hc Hb) as (Hv' & Hl & _ & Hm). set (v' := set_word _ _ _) in *.
  assert (E : pmm v' = pmm v /\ cr3 v' = cr3 v /\ sig_stub_page v' = sig_stub_page v) by done. destruct E as (E1 & E2 & E3). clearbody v'.
  split; [|intros c va Hcc; rewrite Hl; [by apply L|by eapply step_ctx]].
  destruct (vs_new _ _ _ _ S ctx _ Hc Hf) as (k & Hk & Ek & Hfree). pose proof (label_aligned _ _ _ _ (vs_ok _ _ _ _ S) Hc) as Ac.
  pose proof S as [A1 A2 A3 A4 A5 A6 A7 A8]. split; [done|done|done|by rewrite E1|congruence|congruence|..].
  - intros c i Hcc Hi. rewrite <- (A7 c i Hcc Hi). apply entry_ext. intros x Hx. apply Hm. unfold slot in Hx.
    assert (Hne : c <> ctx) by (intros ->; unfold is_ctx in Hcc; congruence). pose proof (label_aligned _ _ _ _ A1 (step_ctx _ _ _ _ _ S Hcc)) as Acc.
    destruct (aligned_disjoint c ctx Acc Ac Hne); lia.
  - intros x Hx. rewrite Hm; [by apply A8|]. rewrite Ek. by apply (proj2 Hx).
Qed.

(** ** What programs have at any rate *)

(** Every space of [v0] translates as before, the bytes outside the tables and
    the free pages of [v0] are the same, those of user pages among them, and
    no page in use has been given up. *)
Record spaces_kept (T0 : labels) (v0 v : vmst) : Prop := {
  sp_mm : Mm.mm_ok (pmm v);
  sp_used : Mm.extends (pmm v0) (pmm v);
  sp_same c va : is_ctx T0 c -> lookup_va v c va = lookup_va v0 c va;
  sp_bytes b : untouched T0 v0 b -> ld8 (pmem v) b = ld8 (pmem v0) b;
  sp_user c va p w x : is_ctx T0 c -> lookup_va v0 c va = Some (p, (true, w, x)) -> ld8 (pmem v) p = ld8 (pmem v0) p
}.

(** A byte that user mode can reach is in no table and no free page. *)
Lemma walk_untouched T s va : vm_ok T s -> forall l t c q pa w x, T !! t = Some (c, l, q) -> (l <= 4)%nat ->
  walk s l t va = Some (pa, (true, w, x)) -> untouched T s pa.
Proof.
  intros Hs. induction l as [|l IH]; intros t c q pa w x Ht Hl; [done|]. rewrite walk_S. cbv zeta. set (i := idx (S l) va).
  pose proof (idx_range (S l) va) as Hi. fold i in Hi. set (e := Vm.entry s t i). destruct (present e) eqn:Ep; cbn [negb]; [|done].
  pose proof (vo_entry _ _ Hs t c (S l) q i Ht ltac:(lia) Hi) as He. fold e in He. destruct (is_leaf (S l) e) eqn:Elf.
  - intros [= <- Hu Hw Hx]. destruct l as [|l].
    + cbn in He. pose proof (Z.mod_pos_bound va (2 ^ shift 1) ltac:(done)). change (2 ^ shift 1) with 4096 in *.
      apply (frame_untouched T s (P_ADDR e)); [done|apply P_ADDR_aligned|by apply He|lia].
    + unfold entry_ok in He. rewrite Elf in He. destruct He as (_ & _ & Hus & _). congruence.
  - intros Hw. apply (IH (P_ADDR e) c (q * 512 + i) pa w x); [by apply (child_label T s t c l q i)|lia|done].
Qed.

Lemma user_untouched T s c va p w x : vm_ok T s -> is_ctx T c -> lookup_va s c va = Some (p, (true, w, x)) -> untouched T s p.
Proof. intros Hs Hc. apply (walk_untouched T s va Hs 4 _ c 0); [by apply (vo_ctx _ _ Hs)|lia]. Qed.

Lemma grown_kept T0 v0 T v : vm_ok T0 v0 -> grown T0 v0 T v -> spaces_kept T0 v0 v /\ cr3 v = cr3 v0.
Proof.
  intros Hv0 [[A1 A2 A3 A4 A5 A6 A7 A8] L]. split; [|done]. split; [apply (vo_mm _ _ A1)|done|done|done|].
  intros c va p w x Hc Hp. apply A8. by eapply user_untouched.
Qed.

(** Translation looks at memory only. *)
Lemma walk_pmem v v' l : pmem v' = pmem v -> forall t va, walk v' l t va = walk v l t va.
Proof. intros E. induction l as [|l IH]; intros t va; [done|]. rewrite !walk_S. unfold Vm.entry. rewrite E. cbv zeta. by rewrite IH. Qed.

Lemma lookup_pmem v v' c va : pmem v' = pmem v -> lookup_va v' c va = lookup_va v c va.
Proof. intros E. unfold lookup_va, pml4_phys. rewrite E. by apply walk_pmem. Qed.

(** A page that was free in [v0]. *)
Definition was_free (v0 : vmst) (p : Z) : Prop := exists k, 0 <= k < Mm.HOT_ZONE_PAGES /\ p = page_of k /\ Mm.page_used (pmm v0) k = false.

Lemma newly_was_free v0 v p : newly v0 v p -> was_free v0 p.
Proof.
  intros [(k & Hk & -> & Hu) Hn]. exists k. split; [done|]. split; [done|]. destruct (Mm.page_used (pmm v0) k) eqn:E; [|done]. destruct Hn. by exists k.
Qed.

(** Such a page can be given back. *)
Lemma kept_pfree T0 v0 v p : spaces_kept T0 v0 v -> was_free v0 p ->
  exists m, Mm.pfree p (pmm v) = Some m /\ spaces_kept T0 v0 (v <| pmm := m |>).
Proof.
  intros [H1 H2 H3 H4 H5] (k & Hk & -> & Hf). assert (Hp : page_of k = Mm.HEAP_BASE + k * 4096) by done.
  assert (Hr : Mm.HEAP_BASE <= page_of k < Mm.WARM_BASE).
  { assert (E : Mm.HOT_ZONE_PAGES = 262144) by reflexivity. assert (Ew : Mm.WARM_BASE = Mm.HEAP_BASE + 1073741824) by reflexivity. lia. }
  destruct (Mm.pfree_hot (pmm v) (page_of k) H1 Hr) as (m & E & (F1 & F2 & F3 & F4 & _ & F6)). exists m. split; [done|].
  assert (Ei : (page_of k - Mm.HEAP_BASE) / Mm.PAGE_SIZE = k). { change Mm.PAGE_SIZE with 4096. rewrite Hp. replace (Mm.HEAP_BASE + k * 4096 - Mm.HEAP_BASE) with (k * 4096) by lia. by apply Z.div_mul. }
  rewrite Ei in F6. destruct H2 as (U1 & U2 & U3 & U4). split; [exact F1| |intros c va Hc; rewrite (lookup_pmem v) by done; by apply H3|exact H4|exact H5].
  change (pmm (v <| pmm := m |>)) with m. split; [|split_and!; congruence]. intros j Hj Hu. rewrite F6 by done. rewrite (U1 j Hj Hu).
  destruct (Z.eqb_spec k j) as [->|]; [congruence|done].
Qed.

(** * Reading a file into memory *)

(** What the reading of a file promises: no more bytes than there is room. *)
Class BoundedReads {E} (FO : Vfs.FileOps E) : Prop :=
  bounded_read f n e : 0 <= n -> Z.of_nat (length (Vfs.vfs_read (Some f) n e).2.2) <= n.

(** A run of pages: all were free, all are taken. *)
Lemma contig_step T v n : vm_ok T v -> 1 <= n < 2 ^ 31 ->
  let '(v1, r) := pmalloc_contig n v in
  vm_step T v T v1 /\ keeps T v v1 /\
  forall buf, r = Some buf -> forall b, buf <= b < buf + n * 4096 -> exists f, newly v v1 f /\ f <= b < f + 4096.
Proof.
  intros Hv Hn. unfold pmalloc_contig. set (ok := Mm.paddr_linear_ok _ _). clearbody ok.
  rewrite (i32_small n) by lia. pose proof (Mm.pmalloc_contig_post ok n (pmm v) (vo_mm _ _ Hv) ltac:(lia)) as P.
  destruct (Mm.pmalloc_contig ok n (pmm v)) as [m r]. destruct P as (Hm & Hex & Hr). set (v1 := v <| pmm := m |>).
  assert (E : pmem v1 = pmem v /\ pmm v1 = m /\ cr3 v1 = cr3 v /\ sig_stub_page v1 = sig_stub_page v) by done. destruct E as (E1 & E2 & E3 & E4). clearbody v1.
  assert (K : keeps T v v1) by (intros t lab i _ _; unfold Vm.entry; by rewrite E1). subst m.
  split; [apply keeps_step; [done|done|by apply (vm_ok_keeps T v)|done|done|done|intros b _; by rewrite E1]|]. split; [done|].
  intros buf Hbuf b Hb. destruct (Hr buf Hbuf) as (base & B1 & B2 & -> & B4). set (j := base + (b - (Mm.HEAP_BASE + base * Mm.PAGE_SIZE)) / 4096).
  change Mm.PAGE_SIZE with 4096 in *. pose proof (Z_div_mod_eq_full (b - (Mm.HEAP_BASE + base * 4096)) 4096) as Hd.
  pose proof (Z.mod_pos_bound (b - (Mm.HEAP_BASE + base * 4096)) 4096 ltac:(lia)). assert (Hj : base <= j < base + n) by lia. destruct (B4 j Hj) as [U1 U2].
  assert (Ep : page_of j = Mm.HEAP_BASE + j * 4096) by done. exists (page_of j). split; [|lia]. split; [by exists j; split; [lia|]|].
  intros (k & Hk & Ek & Hu). apply page_of_inj in Ek as <-. congruence.
Qed.

Section Files.
  Context {E : Type} {FO : Vfs.FileOps E} {BR : BoundedReads FO} (vfs_open : list Z -> E -> E * option Z).
  Context (T0 : labels) (v0 : vmst).
  Hypothesis Hv0 : vm_ok T0 v0.

(** The two steps of reading a file of [fsize] bytes. *)
Lemma file_grown T (s : loader (E := E)) fsize f : grown T0 v0 T (lvm s) -> 0 < fsize <= MAX_FILE ->
  let '(v, r) := pmalloc_contig ((fsize + 0xFFF) / 0x1000) (lvm s) in
  grown T0 v0 T v /\ forall buf, r = Some buf -> grown T0 v0 T (lvm (read_into f buf fsize (on_vm (fun _ => v) s)).1).
Proof.
  unfold MAX_FILE. intros G Hf. pose proof (vs_ok _ _ _ _ (gr_step _ _ _ _ G)) as Hv. pose proof (Z_div_mod_eq_full (fsize + 0xFFF) 0x1000).
  pose proof (Z.mod_pos_bound (fsize + 0xFFF) 0x1000 ltac:(lia)). set (n := (fsize + 0xFFF) / 0x1000) in *.
  pose proof (contig_step T (lvm s) n Hv ltac:(lia)) as P. destruct (pmalloc_contig n (lvm s)) as [v r]. destruct P as (S & K & Hr).
  pose proof (grown_keeps T0 v0 T (lvm s) v G S K) as G1. split; [done|]. intros buf Eb. specialize (Hr buf Eb).
  unfold read_into. pose proof (bounded_read f fsize (lfs (on_vm (fun _ => v) s)) ltac:(lia)) as Hb.
  destruct (Vfs.vfs_read (Some f) fsize _) as [e [r' bytes]]. cbn in Hb |- *.
  apply (grown_write T0 v0 T v); try done. intros b Hout. apply ld8_st_bytes_out. intros Hin.
  destruct (Hr b ltac:(lia)) as (g & Hg & Hgb). apply (Hout g); [|by apply (newly_label T (lvm s) v)|done].
  eapply newly_mono; [done|apply (vs_mm _ _ _ _ (gr_step _ _ _ _ G))].
Qed.

Lemma read_whole_file_grown T (s : loader) path : grown T0 v0 T (lvm s) -> grown T0 v0 T (lvm (read_whole_file vfs_open path s).1).
Proof.
  intros G. unfold read_whole_file. destruct (vfs_open path (lfs s)) as [e [f|]]; [|exact G]. set (fsize := u64 _). pose proof (u64_range (Vfs.f_size (Vfs.file_at e f))) as Hr. fold fsize in Hr.
  destruct (Z.eqb_spec fsize 0) as [|Hne]; [exact G|]. destruct (Z.ltb_spec MAX_FILE fsize) as [|Hle]; [exact G|]. cbn [orb].
  pose proof (file_grown T (set_fs e s) fsize f G ltac:(lia)) as P. change (lvm (set_fs e s)) with (lvm s) in *.
  destruct (pmalloc_contig _ (lvm s)) as [v [buf|]]; destruct P as [G1 G2]; [|exact G1]. specialize (G2 buf eq_refl).
  destruct (read_into f buf fsize _) as [s1 r]. cbn [fst] in G2. by destruct (r =? fsize).
Qed.
End Files.

(** * Mapping into a new space *)
Section Mapping.
  Context (T0 : labels) (v0 : vmst) (ctx : Z).
  Hypothesis Hnew : T0 !! ctx = None.

(** Loading into [ctx], a space that [v0] did not have. *)
Definition loads (v : vmst) : Prop := exists T, grown T0 v0 T v /\ is_ctx T ctx.

Lemma loads_step T v T' v' : grown T0 v0 T v -> is_ctx T ctx -> vm_step T v T' v' ->
  (forall c va, is_ctx T c -> c <> ctx -> lookup_va v' c va = lookup_va v c va) -> loads v'.
Proof.
  intros G Hc S L. exists T'. split; [|by eapply step_ctx]. apply (grown_step T0 v0 T v); [done..|]. intros c va Hcc.
  apply L; [eapply step_ctx; [apply G|done]|]. intros ->. unfold is_ctx in Hcc. congruence.
Qed.

(** The part of the file that falls into a page stays in that page, whatever
    the header says. *)
Lemma load_page_loads src vaddr filesz flags a v : loads v -> 0 <= a -> loads (load_page src vaddr filesz flags ctx a v).1.
Proof.
  intros (T & G & Hc) Ha. pose proof (vs_ok _ _ _ _ (gr_step _ _ _ _ G)) as Hv. unfold load_page. destruct (vm_alloc_page v) as [v1 [f|]] eqn:A.
  2: { rewrite alloc_page_table in A. destruct (alloc_step T v v1 _ Hv A) as [S1 K1]. exists T. split; [by apply (grown_keeps T0 v0 T v)|done]. }
  destruct (alloc_page_frame T v v1 f Hv A) as (S1 & K1 & N1). pose proof (grown_keeps T0 v0 T v v1 G S1 K1) as G1.
  destruct (taken_aligned _ _ (proj1 (nf_new _ _ _ _ _ N1))) as [Af Hf]. change Mm.HEAP_BASE with 8388608 in Hf.
  set (lo := if vaddr <? a then a else vaddr). set (hi := if u64 (a + PAGE_SIZE) <? u64 (vaddr + filesz) then u64 (a + PAGE_SIZE) else u64 (vaddr + filesz)).
  change PAGE_SIZE with 4096 in *. set (v2 := if lo <? hi then _ else v1).
  assert (Hlo : a <= lo) by (unfold lo; destruct (Z.ltb_spec vaddr a); lia).
  assert (Hu : u64 (a + 4096) <= a + 4096) by (unfold u64; apply Z.mod_le; lia).
  assert (Hhi : hi <= a + 4096) by (unfold hi; destruct (Z.ltb_spec (u64 (a + 4096)) (u64 (vaddr + filesz))); lia).
  assert (E : pmm v2 = pmm v1 /\ cr3 v2 = cr3 v1 /\ sig_stub_page v2 = sig_stub_page v1) by (unfold v2; by destruct (lo <? hi)).
  assert (Hm : forall b, ~ (f <= b < f + 4096) -> ld8 (pmem v2) b = ld8 (pmem v1) b).
  { intros b Hb. unfold v2. destruct (Z.ltb_spec lo hi) as [Hlt|]; [|done]. rewrite (u64_small (f + (lo - a))) by lia.
    change (pmem (copy_bytes _ _ _ v1)) with (copy (pmem v1) (f + (lo - a)) (u64 (src + (lo - vaddr))) (hi - lo)). apply ld8_copy_out; lia. }
  destruct E as (E1 & E2 & E3). clearbody v2 lo hi. destruct (confined_step T v v1 v2 Hv S1 K1 E1 E2 E3) as [S2 K2].
  { intros b Hbt. apply Hm. exact (newly_untouched T v v1 f b Hv (nf_new _ _ _ _ _ N1) Hbt). }
  pose proof (grown_keeps T0 v0 T v v2 G S2 K2) as G2. pose proof (vs_ok _ _ _ _ S2) as Hv2.
  assert (Hfr : frame_ok T v2 (P_ADDR f)).
  { rewrite (P_ADDR_id f Af). apply (newly_frame_ok T v); [apply (nf_label _ _ _ _ _ N1)|]. destruct (nf_new _ _ _ _ _ N1) as [Ht Hn]. split; [|done]. unfold taken. by rewrite E1. }
  pose proof (vm_map_page_spec T v2 ctx a f flags Hv2 Hc (fun _ => Hfr)) as M.
  destruct (vm_map_page ctx a f flags v2) as [v3 r]. cbn [fst snd] in M |- *. destruct M as (T3 & S3 & _ & _ & Hsame & _).
  apply (loads_step T v2 T3); [done..|]. intros c va Hcc Hne. by apply Hsame.
Qed.

Lemma load_pages_loads src vaddr filesz flags n : forall a v, loads v -> 0 <= a -> loads (load_pages n src vaddr filesz flags ctx a v).1.
Proof.
  induction n as [|n IH]; intros a v L Ha; [done|]. cbn [load_pages]. pose proof (load_page_loads src vaddr filesz flags a v L Ha) as L1.
  destruct (load_page src vaddr filesz flags ctx a v) as [v1 ok]. destruct ok; [|done]. apply IH; [done|]. change PAGE_SIZE with 4096. lia.
Qed.

Lemma map_load_segment_loads data ph bias v : loads v -> loads (map_load_segment data ph ctx bias v).1.
Proof.
  intros L. unfold map_load_segment. destruct (_ =? 0); [done|].
  pose proof (load_pages_loads (u64 (data + p_offset (pmem v) ph)) (u64 (p_vaddr (pmem v) ph + bias)) (p_filesz (pmem v) ph) (seg_flags (p_flags (pmem v) ph))
    (Z.to_nat ((page_down (u64 (u64 (p_vaddr (pmem v) ph + bias) + p_memsz (pmem v) ph + 0xFFF)) - page_down (u64 (p_vaddr (pmem v) ph + bias))) / PAGE_SIZE))
    (page_down (u64 (p_vaddr (pmem v) ph + bias))) v L) as P.
  destruct (load_pages _ _ _ _ _ _ _ v) as [v1 ok]. apply P. rewrite page_down_eq. pose proof (u64_range (p_vaddr (pmem v) ph + bias)).
  pose proof (Z.div_pos (u64 (p_vaddr (pmem v) ph + bias)) 4096 ltac:(lia) ltac:(lia)). lia.
Qed.

Lemma map_loads_loads fuel : forall i data bias v, loads v -> loads (map_loads fuel i data ctx bias v).1.
Proof.
  induction fuel as [|fuel IH]; intros i data bias v L; [done|]. cbn [map_loads]. destruct (_ <? _); [|done]. destruct (_ =? _); [|by apply IH].
  pose proof (map_load_segment_loads data (phdr_at (pmem v) data i) bias v L) as L1. destruct (map_load_segment _ _ _ _ v) as [v1 r].
  destruct (r <? 0); [done|by apply IH].
Qed.

Lemma elf_map_program_loads data base v : loads v -> loads (elf_map_program data ctx base v).1.
Proof.
  intros L. unfold elf_map_program. destruct (_ || _); [done|]. destruct (negb _); [done|]. destruct (negb _); [done|].
  pose proof (map_loads_loads (Z.to_nat (2 ^ 16)) 0 data (if e_type (pmem v) data =? ET_DYN then base else 0) v L) as L1.
  destruct (map_loads _ _ _ _ _ v) as [v1 r]. by destruct (r <? 0).
Qed.

Lemma load_phdr_loads data ph bias mx v c : loads v -> vmctx c = ctx ->
  let '(v', c', _, _) := load_phdr data ph bias mx v c in loads v' /\ vmctx c' = ctx.
Proof.
  intros L Ec. unfold load_phdr. destruct (_ =? PT_LOAD); [|destruct (_ =? PT_INTERP); [by split|]; destruct (_ =? PT_PHDR); by split].
  rewrite Ec. pose proof (map_load_segment_loads data ph bias v L) as L1. destruct (map_load_segment _ _ _ _ v) as [v1 r]. by destruct (r <? 0).
Qed.

Lemma load_phdrs_loads fuel : forall i data bias mx v c, loads v -> vmctx c = ctx ->
  let '(v', c', _, _) := load_phdrs fuel i data bias mx v c in loads v' /\ vmctx c' = ctx.
Proof.
  induction fuel as [|fuel IH]; intros i data bias mx v c L Ec; [done|]. cbn [load_phdrs]. destruct (_ <? _); [|done].
  pose proof (load_phdr_loads data (phdr_at (pmem v) data i) bias mx v c L Ec) as P. destruct (load_phdr _ _ _ _ v c) as [[[v1 c1] mx1] ok].
  destruct P as [L1 E1]. destruct ok; [by apply IH|done].
Qed.
End Mapping.

(** * The stack of the new space *)

(** The whole stack region is mapped, into pages taken since [v0] that no
    table uses. *)
Record own_stack (v0 : vmst) (T : labels) (v : vmst) (ctx : Z) : Prop := {
  os_buf : user_buffer T v ctx (USER_STACK_TOP - USER_STACK_SIZE) USER_STACK_SIZE;
  os_frame x : USER_STACK_TOP - USER_STACK_SIZE <= x < USER_STACK_TOP -> 
    exists f, newly v0 v f /\ T !! f = None /\ f <= vm_translate v ctx x < f + 4096
}.

Lemma stack_pages_own v0 v1 T v ctx : vm_ok T v -> Mm.extends (pmm v0) (pmm v1) -> stack_pages v1 T v ctx -> own_stack v0 T v ctx.
Proof.
  intros Hv Hex (fs & Hlen & L). split.
  - change USER_STACK_SIZE with (Z.of_nat 1024 * 4096) at 2. rewrite <- Hlen.
    apply (loaded_buffer v1 T v ctx _ 11 (fun _ => 0)); [done|done|unfold USER_STACK_TOP, USER_STACK_SIZE; lia|done|rewrite Hlen; unfold USER_STACK_TOP, USER_STACK_SIZE; lia].
  - intros x Hx. destruct L as [_ Lf Lm]. set (a := USER_STACK_TOP - USER_STACK_SIZE) in *. assert (Ha : a = 134216704 * 4096) by done. assert (Ht : USER_STACK_TOP = a + 1024 * 4096) by done.
    clearbody a. pose proof (Z_div_mod_eq_full (x - a) 4096). pose proof (Z.mod_pos_bound (x - a) 4096 ltac:(lia)). set (q := (x - a) / 4096) in *.
    destruct (lookup_lt_is_Some_2 fs (Z.to_nat q)) as [f Ef]; [lia|]. exists f. destruct (Lf _ f Ef) as [N1 N2 _].
    split; [by eapply newly_mono|]. split; [done|]. rewrite vm_translate_walk, (Lm (Z.to_nat q) f x Ef).
    + pose proof (Z.mod_pos_bound x 4096 ltac:(lia)). lia.
    + rewrite !vpn_small by lia. rewrite Z2Nat.id, Ha, <- Z.mul_add_distr_r, Z.div_mul by lia.
      symmetry. apply (Z.div_unique x 4096 _ ((x - a) mod 4096)); lia.
Qed.

(** * The loader *)
Section Load.
  Context {E : Type} {FO : Vfs.FileOps E} {BR : BoundedReads FO} (vfs_open : list Z -> E -> E * option Z).

Section Into.
  Context (T0 : labels) (v0 : vmst) (ctx : Z).
  Hypothesis Hv0 : vm_ok T0 v0.
  Hypothesis Hnew : T0 !! ctx = None.

Lemma elf_load_interp_loads path (s : loader (E := E)) : loads T0 v0 ctx (lvm s) -> loads T0 v0 ctx (lvm (elf_load_interp vfs_open ctx path s).1).
Proof.
  intros L. unfold elf_load_interp. destruct (_ =? 0); [done|]. destruct L as (T & G & Hc).
  pose proof (read_whole_file_grown vfs_open T0 v0 Hv0 T s path G) as G1.
  destruct (read_whole_file vfs_open path s) as [s1 [data|]]; cbn [fst] in *; [|by exists T].
  pose proof (elf_map_program_loads T0 v0 ctx Hnew data INTERP_BASE (lvm s1) ltac:(by exists T)) as L1.
  by destruct (elf_map_program data ctx INTERP_BASE (lvm s1)) as [v [e|]].
Qed.

Lemma stack_brk_loads (s : loader (E := E)) b : loads T0 v0 ctx (lvm s) -> 0 <= b < 2 ^ 64 ->
  let '(v, r) := vm_map ctx (USER_STACK_TOP - USER_STACK_SIZE) USER_STACK_SIZE (VM_READ + VM_WRITE + VM_USER) (lvm s) in
  loads T0 v0 ctx v /\ ((r <? 0) = false -> exists T, grown T0 v0 T (set_word (ctx + 8) b v) /\ is_ctx T ctx /\ own_stack v0 T (set_word (ctx + 8) b v) ctx).
Proof.
  intros (T & G & Hc) Hb. pose proof (map_stack T (lvm s) ctx (vs_ok _ _ _ _ (gr_step _ _ _ _ G)) Hc) as P.
  destruct (vm_map ctx _ _ _ (lvm s)) as [v r]. destruct P as (T1 & S1 & Hr & Same & Stk).
  assert (Hsame : forall c va, is_ctx T c -> c <> ctx -> lookup_va v c va = lookup_va (lvm s) c va) by (intros c va Hcc Hne; by apply Same).
  split; [by apply (loads_step T0 v0 ctx Hnew T (lvm s) T1)|]. intros E0. destruct Hr as [->| ->]; [|done].
  pose proof (step_ctx _ _ _ _ _ S1 Hc) as Hc1. exists T1. split; [|split; [done|]].
  - apply grown_brk; [|done..]. apply (grown_step T0 v0 T (lvm s)); [done..|]. intros c va Hcc. apply Hsame; [eapply step_ctx; [apply G|done]|].
    intros ->. unfold is_ctx in Hcc. congruence.
  - destruct (set_brk_ok T1 v ctx b (vs_ok _ _ _ _ S1) Hc1 Hb) as (Hv' & _). apply (stack_pages_own v0 (lvm s)); [done|apply (vs_mm _ _ _ _ (gr_step _ _ _ _ G))|].
    destruct (Stk eq_refl) as (fs & Hlen & L). exists fs. split; [done|]. apply loaded_brk; [apply (vs_ok _ _ _ _ S1)|done..].
Qed.

Lemma load_rest_loads data bias mx (s : loader (E := E)) c : loads T0 v0 ctx (lvm s) -> vmctx c = ctx ->
  let '(s', c', r) := load_rest vfs_open data bias mx s c in
  loads T0 v0 ctx (lvm s') /\ (r = 0 \/ r = -1) /\
  (r = 0 -> vmctx c' = ctx /\ exists T, grown T0 v0 T (lvm s') /\ is_ctx T ctx /\ own_stack v0 T (lvm s') ctx).
Proof.
  intros L Ec. unfold load_rest. set (c0 := c <| entry := _ |>). assert (E0 : vmctx c0 = ctx) by done. clearbody c0. rewrite E0.
  set (X := match interp_path c0 with [] => _ | _ => _ end).
  assert (HX : let '(s1, c1, ok) := X in loads T0 v0 ctx (lvm s1) /\ vmctx c1 = ctx).
  { unfold X. destruct (interp_path c0) as [|x p]; [done|]. pose proof (elf_load_interp_loads (x :: p) s L) as L1.
    by destruct (elf_load_interp vfs_open ctx (x :: p) s) as [s1 [e|]]. }
  destruct X as [[s1 c1] ok]. destruct HX as [L1 E1]. destruct ok; cbn [negb]; [|split; [done|]; split; [by right|done]]. rewrite E1.
  set (b := if page_down _ =? 0 then 0x600000 else _). assert (Hb : 0 <= b < 2 ^ 64).
  { unfold b. pose proof (u64_range (mx + 0xFFF)). rewrite page_down_eq. pose proof (Z_div_mod_eq_full (u64 (mx + 0xFFF)) 4096).
    pose proof (Z.mod_pos_bound (u64 (mx + 0xFFF)) 4096 ltac:(lia)). pose proof (Z.div_pos (u64 (mx + 0xFFF)) 4096 ltac:(lia) ltac:(lia)).
    destruct (u64 (mx + 0xFFF) / 4096 * 4096 =? 0); lia. }
  clearbody b. pose proof (stack_brk_loads s1 b L1 Hb) as P. destruct (vm_map ctx _ _ _ (lvm s1)) as [v2 r]. destruct P as [L2 P].
  destruct (r <? 0) eqn:Er; [split; [done|]; split; [by right|done]|]. destruct (P eq_refl) as (T & G & Hc & Ho).
  split; [by exists T|]. split; [by left|]. intros _. split; [done|]. by exists T.
Qed.
End Into.

Lemma stub_step T v T' v' : vm_step T v T' v' -> stub_ok T v -> stub_ok T' v'.
Proof. intros S Hs. unfold stub_ok. rewrite (vs_stub _ _ _ _ S). intros H. by apply (vm_step_frame_ok _ _ _ _ _ S), Hs. Qed.

(** What loading leaves behind: the old spaces, and on success a new one with
    a stack of its own. *)
Definition load_post (T0 : labels) (v0 : vmst) (r : loader (E := E) * elf_context_t * Z) : Prop :=
  let '(s', c', r) := r in
  (r = 0 \/ r = -1) /\ exists T, grown T0 v0 T (lvm s') /\
    (r = 0 -> T0 !! vmctx c' = None /\ is_ctx T (vmctx c') /\ own_stack v0 T (lvm s') (vmctx c')).

Lemma load_fails T0 v0 T (s : loader) c : grown T0 v0 T (lvm s) -> load_post T0 v0 (s, c, -1).
Proof. intros G. split; [by right|]. exists T. by split. Qed.

Lemma elf_load_from_mem_grown T0 v0 T data c (s : loader) : vm_ok T0 v0 -> grown T0 v0 T (lvm s) -> stub_ok T (lvm s) ->
  load_post T0 v0 (elf_load_from_mem vfs_open data c s).
Proof.
  intros Hv0 G Hst. unfold elf_load_from_mem. destruct (_ =? 0); [by apply (load_fails T0 v0 T)|]. destruct (negb _); [by apply (load_fails T0 v0 T)|].
  pose proof (vm_create_spec T (lvm s) (vs_ok _ _ _ _ (gr_step _ _ _ _ G)) Hst) as Cr. destruct (vm_create (lvm s)) as [v1 ctx].
  destruct Cr as (T1 & S1 & _ & Same1 & New). cbn [fst snd] in *.
  assert (G1 : grown T0 v0 T1 v1).
  { apply (grown_step T0 v0 T (lvm s)); [done..|]. intros c' va Hc'. apply Same1. eapply step_ctx; [apply G|done]. }
  destruct (Z.eqb_spec ctx 0) as [|Hne]; [by apply (load_fails T0 v0 T1)|]. destruct (New Hne) as (Hc1 & Hfree & _).
  assert (Hnew : T0 !! ctx = None). { eapply lookup_weaken_None; [exact Hfree|apply (vs_sub _ _ _ _ (gr_step _ _ _ _ G))]. }
  pose proof (load_phdrs_loads T0 v0 ctx Hnew (Z.to_nat (2 ^ 16)) 0 data (if e_type (pmem v1) data =? ET_DYN then base (first_context v1 data ctx c) else 0) 0 v1
    (first_context v1 data ctx c) ltac:(by exists T1) eq_refl) as P.
  destruct (load_phdrs _ 0 data _ 0 v1 _) as [[[v2 c2] mx] ok]. destruct P as [(T2 & G2 & Hc2) E2].
  destruct ok; cbn [negb]; [|by apply (load_fails T0 v0 T2)].
  pose proof (load_rest_loads T0 v0 ctx Hv0 Hnew data (if e_type (pmem v1) data =? ET_DYN then base (first_context v1 data ctx c) else 0) mx
    (on_vm (fun _ => v2) (on_vm (fun _ => v1) s)) c2 ltac:(by exists T2) E2) as P.
  destruct (load_rest _ _ _ _ _ c2) as [[s3 c3] r]. destruct P as ((T3 & G3 & _) & Hr & Ok). split; [done|].
  destruct (decide (r = 0)) as [Er|Er]; [|by exists T3]. destruct (Ok Er) as (-> & T4 & G4 & Hc4 & Ho). by exists T4.
Qed.

(** Loading a file, whatever it holds and wherever it fails. *)
Lemma elf_load_grown T v path c (s : loader) : vm_ok T v -> stub_ok T v -> lvm s = v -> load_post T v (elf_load vfs_open path c s).
Proof.
  intros Hv Hst <-. pose proof (grown_refl T (lvm s) Hv) as G. unfold elf_load. destruct (vfs_open path (lfs s)) as [e [f|]]; [|by apply (load_fails T (lvm s) T)].
  set (fsize := u64 _). pose proof (u64_range (Vfs.f_size (Vfs.file_at e f))) as Hr. fold fsize in Hr.
  destruct (Z.eqb_spec fsize 0) as [|Hne]; [by apply (load_fails T (lvm s) T)|]. destruct (Z.ltb_spec MAX_FILE fsize) as [|Hle]; [by apply (load_fails T (lvm s) T)|]. cbn [orb].
  pose proof (file_grown T (lvm s) Hv T (set_fs e s) fsize f G ltac:(lia)) as P. change (lvm (set_fs e s)) with (lvm s) in *.
  destruct (pmalloc_contig _ (lvm s)) as [v1 [buf|]]; destruct P as [G1 G2]; [|by apply (load_fails T (lvm s) T)]. specialize (G2 buf eq_refl).
  destruct (read_into f buf fsize _) as [s1 r]. cbn [fst] in G2. destruct (r =? fsize); [|by apply (load_fails T (lvm s) T)].
  apply (elf_load_from_mem_grown T (lvm s) T); [done|done|]. eapply stub_step; [apply G2|done].
Qed.
End Load.
End ElfSpace.
