(* ===== verification/Signal.v ===== *)
(** Signal delivery and return (src/src/kernel/syscall/signal.c): the frame on
    the user stack, the globals the assembly exit paths read, the handler
    table and the mask. Posting (kill) is in Process.v. *)
From S2P Require Import Prelude Ring Memory Phys Vm VmSpace Sched Process.

Module Signal.
Import Sched Vm VmSpace.

Definition SIG_KILL : Z := Process.SIG_KILL.
Definition SIG_STOP : Z := Process.SIG_STOP.
Definition SIG_IGN_VAL : Z := Process.SIG_IGN_VAL.
Definition SA_RESTORER : Z := 0x04000000.
Definition SA_ONSTACK : Z := 0x08000000.
Definition SIG_RESTORER_ADDR : Z := 0x600000000000.
Definition SIGFRAME_SIZE : Z := 144.
Definition EFAULT : Z := 2 ^ 64 - 14.
Definition EINVAL : Z := 2 ^ 64 - 22.

(** ** Words and bytes *)
Definition le64 (v : Z) : list Z := (fun i => u8 (v / 256 ^ i)) <$> zrange 8.
Definition words_bytes (ws : list Z) : list Z := concat (le64 <$> ws).
Definition word_of (l : list Z) : Z := foldr (fun b acc => b + 256 * acc) 0 (take 8 l).
Fixpoint bytes_words (n : nat) (l : list Z) : list Z :=
  match n with
  | O => []
  | S n' => word_of l :: bytes_words n' (drop 8 l)
  end.

(** [user_regs_t] as the sixteen words the assembly saves. *)
Definition regs_of (ws : list Z) : user_regs_t :=
  UserRegs (aget ws 0) (aget ws 1) (aget ws 2) (aget ws 3) (aget ws 4) (aget ws 5) (aget ws 6)
    (aget ws 7) (aget ws 8) (aget ws 9) (aget ws 10) (aget ws 11) (aget ws 12) (aget ws 13)
    (aget ws 14) (aget ws 15).
Definition words_of (r : user_regs_t) : list Z :=
  [r_rax r; r_rdi r; r_rsi r; r_rdx r; r_r10 r; r_r8 r; r_r9 r; r_rflags r; r_rip r; r_rbx r;
   r_rbp r; r_r12 r; r_r13 r; r_r14 r; r_r15 r; r_rsp r].

(** ** State *)

(** The delivery and restore globals, and the syscall entry snapshot. *)
Record sigglob := SigGlob {
  sig_request : Z; sig_handler_g : Z; sig_frame_rsp : Z; sig_frame_ptr : Z;
  sig_restore_request : Z; sig_restore_rip : Z; sig_restore_rflags : Z; sig_active : Z;
  syscall_user_rsp : Z; syscall_user_ctx : list Z
}.
#[export] Instance eta_sigglob : Eta sigglob := fun r =>
  SigGlob (sig_request r) (sig_handler_g r) (sig_frame_rsp r) (sig_frame_ptr r) (sig_restore_request r)
    (sig_restore_rip r) (sig_restore_rflags r) (sig_active r) (syscall_user_rsp r) (syscall_user_ctx r).

Record kst := Kst { ks : sched; kv : vmst; kg : sigglob }.
#[export] Instance eta_kst : Eta kst := fun r => Kst (ks r) (kv r) (kg r).

Definition set_g (f : sigglob -> sigglob) (s : kst) : kst := s <| kg := f (kg s) |>.
Definition set_t (t : Z) (f : task -> task) (s : kst) : kst := s <| ks := mod_task t f (ks s) |>.

Definition signal_globals_reset (g : sigglob) : sigglob :=
  g <| sig_request := 0 |> <| sig_handler_g := 0 |> <| sig_frame_rsp := 0 |> <| sig_frame_ptr := 0 |>
    <| sig_restore_request := 0 |> <| sig_restore_rip := 0 |> <| sig_restore_rflags := 0 |>
    <| sig_active := 0 |>.

(** ** Delivery *)
Definition lowest_sig (mask : Z) : Z :=
  match find_index (fun i => Z.testbit mask (i + 1)) (zrange 63) with
  | Some i => Z.of_nat i + 1
  | None => 0
  end.

Definition restorer_of (x : task) (sig : Z) : Z :=
  if negb (Z.land (aget (sig_flags x) sig) SA_RESTORER =? 0) && negb (aget (sig_restorer x) sig =? 0)
  then aget (sig_restorer x) sig else SIG_RESTORER_ADDR.

(** The frame goes on the alternate stack when the handler asks for it. *)
Definition on_altstack (x : task) (sig : Z) : bool :=
  negb (Z.land (aget (sig_flags x) sig) SA_ONSTACK =? 0) && (0 <? altstack_size x) &&
  (altstack_onstack x =? 0).

Definition frame_at (x : task) (sig user_sp : Z) : Z :=
  Z.land (u64 (if on_altstack x sig then altstack_base x + altstack_size x - SIGFRAME_SIZE
               else user_sp - SIGFRAME_SIZE)) (Z.lnot 15).

Definition signal_setup_delivery (t sig : Z) (regs : user_regs_t) (user_sp : Z) (s : kst) : kst :=
  let x := tget (ks s) t in
  let frame := restorer_of x sig :: sig :: words_of regs in
  let frsp := frame_at x sig user_sp in
  let s1 := if on_altstack x sig then set_t t (fun x => x <| altstack_onstack := 1 |>) s else s in
  match mm_context x with
  | None => s1
  | Some ctx =>
      let '(v, r) := vm_copy_to_user ctx frsp (words_bytes frame) (kv s1) in
      let s2 := s1 <| kv := v |> in
      if r <? 0 then s2 else
      let s3 := set_g (fun g => g <| sig_handler_g := aget (sig_handler x) sig |>
                  <| sig_frame_rsp := frsp |> <| sig_frame_ptr := frsp |> <| sig_request := 1 |>
                  <| sig_active := 1 |>) s2 in
      set_t t (fun x => x <| sig_pending := bit_clr (sig_pending x) sig |>) s3
  end.

Definition signal_deliver_now (sig fault_rip fault_rsp : Z) (s : kst) : kst * Z :=
  match current_task (ks s) with
  | None => (s, 0)
  | Some t =>
      if (sig <? 1) || (64 <=? sig) then (s, 0)
      else if negb (sig_active (kg s) =? 0) then (s, 0)
      else if aget (sig_handler (tget (ks s) t)) sig <=? SIG_IGN_VAL then (s, 0)
      else if Z.testbit (sig_blocked (tget (ks s) t)) sig then (s, 0)
      else
        let regs := (regs_of (syscall_user_ctx (kg s))) <| r_rip := fault_rip |> <| r_rsp := fault_rsp |> in
        let s1 := set_t t (fun x => x <| sig_pending := bit_set (sig_pending x) sig |>) s in
        (signal_setup_delivery t sig regs fault_rsp s1, 1)
  end.

Definition signal_check_deliver (s : kst) : kst :=
  match current_task (ks s) with
  | None => s
  | Some t =>
      if negb (sig_active (kg s) =? 0) then s else
      let x := tget (ks s) t in
      let mask := Z.land (sig_pending x) (Z.lnot (sig_blocked x)) in
      if mask =? 0 then s else
      let sig := lowest_sig mask in
      if sig =? 0 then s else
      if aget (sig_handler x) sig <=? SIG_IGN_VAL then s else
      signal_setup_delivery t sig (regs_of (syscall_user_ctx (kg s))) (syscall_user_rsp (kg s)) s
  end.

(** The way out of every system call (syscall_entry.S): the result goes into
    the saved RAX, then a deliverable signal is armed; the registers are
    reloaded after that ([signal_restore] when rt_sigreturn asked for it). *)
Definition syscall_exit (ret : Z) (s : kst) : kst :=
  signal_check_deliver (set_g (fun g => g <| syscall_user_ctx := aset (syscall_user_ctx g) 0 ret |>) s).

(** ** The system calls *)
Definition sys_rt_sigaction (sig act oldact : Z) (s : kst) : kst * Z :=
  match current_task (ks s) with
  | None => (s, EFAULT)
  | Some t =>
      match mm_context (tget (ks s) t) with
      | None => (s, EFAULT)
      | Some ctx =>
          if (sig =? 0) || (64 <=? sig) then (s, EINVAL) else
          if (sig =? SIG_KILL) || (sig =? SIG_STOP) then (s, EINVAL) else
          let x := tget (ks s) t in
          let old := [aget (sig_handler x) sig; 0; aget (sig_flags x) sig; aget (sig_restorer x) sig] in
          let '(s1, ok) :=
            if oldact =? 0 then (s, true)
            else let '(v, r) := vm_copy_to_user ctx oldact (words_bytes old) (kv s) in
                 (s <| kv := v |>, negb (r <? 0)) in
          if negb ok then (s1, EFAULT) else
          if act =? 0 then (s1, 0) else
          match vm_copy_from_user ctx act 32 (kv s1) with
          | None => (s1, EFAULT)
          | Some l =>
              let w := bytes_words 4 l in
              (set_t t (fun x => x <| sig_handler := aset (sig_handler x) sig (aget w 0) |>
                                   <| sig_flags := aset (sig_flags x) sig (aget w 2) |>
                                   <| sig_restorer := aset (sig_restorer x) sig (aget w 3) |>) s1, 0)
          end
      end
  end.

(** [~((1ULL << SIG_KILL) | (1ULL << SIG_STOP))] applied. *)
Definition unblock_fatal (m : Z) : Z :=
  Z.land m (Z.lnot (Z.lor (Z.shiftl 1 SIG_KILL) (Z.shiftl 1 SIG_STOP))).

Definition new_mask (how m blocked : Z) : Z :=
  unblock_fatal (if how =? 0 then Z.lor blocked m
                 else if how =? 1 then Z.land blocked (Z.lnot m) else m).

Definition sys_rt_sigprocmask (how set oldset : Z) (s : kst) : kst * Z :=
  match current_task (ks s) with
  | None => (s, EFAULT)
  | Some t =>
      match mm_context (tget (ks s) t) with
      | None => (s, EFAULT)
      | Some ctx =>
          let '(s1, ok) :=
            if oldset =? 0 then (s, true)
            else let '(v, r) := vm_copy_to_user ctx oldset (words_bytes [sig_blocked (tget (ks s) t)]) (kv s) in
                 (s <| kv := v |>, negb (r <? 0)) in
          if negb ok then (s1, EFAULT) else
          if set =? 0 then (s1, 0) else
          match vm_copy_from_user ctx set 8 (kv s1) with
          | None => (s1, EFAULT)
          | Some l =>
              (set_t t (fun x => x <| sig_blocked := new_mask how (word_of l) (sig_blocked x) |>) s1, 0)
          end
      end
  end.

Definition sys_rt_sigreturn (s : kst) : kst * Z :=
  match current_task (ks s) with
  | None => (s, EFAULT)
  | Some t =>
      let x := tget (ks s) t in
      match mm_context x with
      | None => (s, EFAULT)
      | Some ctx =>
          let fr := u64 (syscall_user_rsp (kg s) - 8) in
          match vm_copy_from_user ctx (u64 (fr + 8)) 8 (kv s), vm_copy_from_user ctx (u64 (fr + 16)) 128 (kv s) with
          | Some ls, Some lr =>
              let signum := word_of ls in
              let regs := regs_of (bytes_words 16 lr) in
              let s1 := set_g (fun g => g <| syscall_user_rsp := r_rsp regs |> <| sig_frame_ptr := fr |>
                          <| sig_restore_rip := r_rip regs |> <| sig_restore_rflags := r_rflags regs |>
                          <| sig_restore_request := 1 |> <| sig_active := 0 |>) s in
              let s2 := if (0 <? altstack_size x) && (altstack_base x <=? r_rsp regs) &&
                           (r_rsp regs <? u64 (altstack_base x + altstack_size x))
                        then set_t t (fun x => x <| altstack_onstack := 0 |>) s1 else s1 in
              (if (0 <? signum) && (signum <? 64)
               then set_t t (fun x => x <| sig_pending := bit_clr (sig_pending x) signum |>) s2 else s2, 0)
          | _, _ => (s, EFAULT)
          end
      end
  end.

(** The restorer stub: [mov $15, %eax; syscall]. *)
Definition stub_code : list Z := [0xB8; 0x0F; 0; 0; 0; 0x0F; 0x05].
Definition signal_init (v : vmst) : vmst :=
  let '(v1, r) := vm_alloc_page v in
  match r with
  | None => v1 <| sig_stub_page := 0 |>
  | Some p => v1 <| sig_stub_page := p |> <| pmem := Phys.st_bytes (pmem v1) p stub_code |>
  end.

(** ** The assembly exit paths (syscall_entry.S) *)

(** The word the user address [va] names. *)
Definition user_word (ctx va : Z) (v : vmst) : option Z := word_of <$> vm_copy_from_user ctx va 8 v.

(** [.Lsignal_restore]: every register from the frame [sig_frame_ptr] names. *)
Definition signal_restore (ctx : Z) (s : kst) : option user_regs_t :=
  regs_of ∘ bytes_words 16 <$> vm_copy_from_user ctx (u64 (sig_frame_ptr (kg s) + 16)) 128 (kv s).

(** ** Lemmas: words in memory *)
Lemma length_le64 v : length (le64 v) = 8%nat.
Proof. done. Qed.

Lemma le64_bytes v : Forall (fun b => 0 <= b < 256) (le64 v).
Proof. apply Forall_fmap, Forall_forall. intros i _. apply u8_range. Qed.

Lemma word_of_le64 v l : 0 <= v < 2 ^ 64 -> word_of (le64 v ++ l) = v.
Proof.
  intros Hv. unfold word_of. rewrite take_app_le by done. rewrite take_ge by done.
  change (foldr (fun b acc => b + 256 * acc) 0 (le64 v)) with
    (u8 (v / 1) + 256 * (u8 (v / 256) + 256 * (u8 (v / 65536) + 256 * (u8 (v / 16777216) + 256 *
     (u8 (v / 4294967296) + 256 * (u8 (v / 1099511627776) + 256 * (u8 (v / 281474976710656) + 256 *
     (u8 (v / 72057594037927936) + 256 * 0)))))))).
  unfold u8. change (2 ^ 8) with 256. rewrite Z.div_1_r.
  pose proof (Z_div_mod_eq_full v 256).
  pose proof (Z_div_mod_eq_full (v / 256) 256). rewrite Zdiv_Zdiv in * by lia. change (256 * 256) with 65536 in *.
  pose proof (Z_div_mod_eq_full (v / 65536) 256). rewrite Zdiv_Zdiv in * by lia. change (65536 * 256) with 16777216 in *.
  pose proof (Z_div_mod_eq_full (v / 16777216) 256). rewrite Zdiv_Zdiv in * by lia.
  change (16777216 * 256) with 4294967296 in *.
  pose proof (Z_div_mod_eq_full (v / 4294967296) 256). rewrite Zdiv_Zdiv in * by lia.
  change (4294967296 * 256) with 1099511627776 in *.
  pose proof (Z_div_mod_eq_full (v / 1099511627776) 256). rewrite Zdiv_Zdiv in * by lia.
  change (1099511627776 * 256) with 281474976710656 in *.
  pose proof (Z_div_mod_eq_full (v / 281474976710656) 256). rewrite Zdiv_Zdiv in * by lia.
  change (281474976710656 * 256) with 72057594037927936 in *.
  assert (v / 72057594037927936 < 256) by (apply Z.div_lt_upper_bound; lia).
  assert (0 <= v / 72057594037927936) by (apply Z.div_pos; lia).
  rewrite (Z.mod_small (v / 72057594037927936)) by lia. lia.
Qed.

Lemma length_words_bytes ws : length (words_bytes ws) = (8 * length ws)%nat.
Proof. induction ws as [|w ws IH]; [done|]. unfold words_bytes in *. cbn [fmap list_fmap concat]. rewrite length_app, IH, length_le64. simpl. lia. Qed.

Lemma words_bytes_bytes ws : Forall (fun b => 0 <= b < 256) (words_bytes ws).
Proof. apply Forall_concat, Forall_fmap, Forall_forall. intros w _. apply le64_bytes. Qed.

Definition word64 (w : Z) : Prop := 0 <= w < 2 ^ 64.

Lemma words_bytes_cons w ws : words_bytes (w :: ws) = le64 w ++ words_bytes ws.
Proof. done. Qed.

Lemma bytes_words_bytes ws n : Forall word64 ws -> n = length ws -> bytes_words n (words_bytes ws) = ws.
Proof.
  intros Hws ->. induction ws as [|w ws IH]; [done|]. apply Forall_cons in Hws as [Hw Hws].
  cbn [length bytes_words]. rewrite words_bytes_cons, word_of_le64 by done. f_equal.
  rewrite drop_app_ge by (by rewrite length_le64). rewrite length_le64. by apply IH.
Qed.

Lemma regs_of_words_of r : regs_of (words_of r) = r.
Proof. by destruct r. Qed.

(** Reading part of a user buffer whose bytes are known. *)
Definition holds (v : vmst) (ctx va : Z) (bs : list Z) : Prop :=
  forall b, 0 <= b < Z.of_nat (length bs) ->
    tr v ctx va b <> 0 /\ Phys.ld8 (pmem v) (tr v ctx va b) = aget bs b.

Lemma read_part v ctx va bs off n :
  ctx <> 0 -> holds v ctx va bs -> 0 <= off -> 0 <= n -> off + n <= Z.of_nat (length bs) ->
  vm_copy_from_user ctx (u64 (va + off)) n v = Some (Ring.slice bs off n).
Proof.
  intros Hc Hb Ho Hn Hl. unfold vm_copy_from_user. rewrite (proj2 (Z.eqb_neq _ _) Hc).
  assert (Htr : forall b, tr v ctx (u64 (va + off)) b = tr v ctx va (off + b)).
  { intros b. unfold tr. f_equal. rewrite u64_add_l. f_equal. lia. }
  rewrite copy_from_loop_spec; [|done|done|].
  2: { intros b Hb'. rewrite Htr. apply Hb. lia. }
  f_equal. apply list_eq. intros i. rewrite list_lookup_fmap.
  destruct (decide (i < Z.to_nat n)%nat) as [Hi|Hi].
  - rewrite lookup_zrange by done. cbn [fmap option_fmap option_map].
    rewrite Ring.lookup_slice by lia. rewrite Htr. f_equal. apply Hb. lia.
  - rewrite !lookup_ge_None_2; [done| |].
    + rewrite Ring.length_slice; lia.
    + rewrite length_zrange. lia.
Qed.

Lemma slice_app_r (p q : list Z) n : Ring.slice (p ++ q) (Z.of_nat (length p)) n = take (Z.to_nat n) q.
Proof. unfold Ring.slice. by rewrite Nat2Z.id, drop_app_length. Qed.

(** ** Delivery *)
Definition table_len (s : kst) : Prop := length (task_table (ks s)) = Z.to_nat MAX_TASKS.

Lemma table_len_set t f s : table_len s -> table_len (set_t t f s).
Proof. unfold table_len. cbn. by rewrite length_aset. Qed.

Lemma tget_set_t t f s : table_len s -> 0 <= t < MAX_TASKS ->
  tget (ks (set_t t f s)) t = f (tget (ks s) t).
Proof. intros Hs Ht. apply aget_aset_eq. rewrite Hs. lia. Qed.

(** A frame the kernel can write: what delivery needs of the address space. *)
Record frame_ok (T : labels) (s : kst) (t ctx sig : Z) (user_sp : Z) : Prop := {
  fk_len : table_len s;
  fk_task : 0 <= t < MAX_TASKS;
  fk_mm : mm_context (tget (ks s) t) = Some ctx;
  fk_ctx : is_ctx T ctx;
  fk_vm : vm_ok T (kv s);
  fk_sig : 0 < sig < 64;
  fk_rest : word64 (restorer_of (tget (ks s) t) sig);
  fk_buf : user_buffer T (kv s) ctx (frame_at (tget (ks s) t) sig user_sp) SIGFRAME_SIZE
}.

Lemma ctx_nonzero T s c : vm_ok T s -> is_ctx T c -> c <> 0.
Proof. intros Hs Hc. pose proof (label_pos _ _ _ _ Hs Hc). lia. Qed.

(** The words of the frame. *)
Definition frame_words (x : task) (sig : Z) (regs : user_regs_t) : list Z :=
  restorer_of x sig :: sig :: words_of regs.

Lemma setup_delivery_spec T s t ctx sig regs usp :
  frame_ok T s t ctx sig usp ->
  let x := tget (ks s) t in
  let frsp := frame_at x sig usp in
  let s1 := signal_setup_delivery t sig regs usp s in
  kg s1 = kg s <| sig_handler_g := aget (sig_handler x) sig |> <| sig_frame_rsp := frsp |>
            <| sig_frame_ptr := frsp |> <| sig_request := 1 |> <| sig_active := 1 |> /\
  tget (ks s1) t = x <| altstack_onstack := if on_altstack x sig then 1 else altstack_onstack x |>
                     <| sig_pending := bit_clr (sig_pending x) sig |> /\
  current_task (ks s1) = current_task (ks s) /\
  holds (kv s1) ctx frsp (words_bytes (frame_words x sig regs)) /\
  vm_ok T (kv s1) /\
  (forall c va, is_ctx T c -> vm_translate (kv s1) c va = vm_translate (kv s) c va) /\
  (forall a, (forall b, 0 <= b < SIGFRAME_SIZE -> a <> tr (kv s) ctx frsp b) ->
     Phys.ld8 (pmem (kv s1)) a = Phys.ld8 (pmem (kv s)) a).
Proof.
  intros [Hs Ht Hmm Hctx Hv Hsig Hr Hbuf]. cbv zeta. unfold signal_setup_delivery.
  fold (frame_words (tget (ks s) t) sig regs).
  set (x := tget (ks s) t) in *. set (frsp := frame_at x sig usp) in *.
  set (bs := words_bytes (frame_words x sig regs)).
  assert (Hlen : Z.of_nat (length bs) = SIGFRAME_SIZE) by (unfold bs; rewrite length_words_bytes; done).
  set (s0 := if on_altstack x sig then _ else s). rewrite Hmm.
  assert (E0 : kv s0 = kv s /\ kg s0 = kg s /\ current_task (ks s0) = current_task (ks s) /\ table_len s0 /\
    tget (ks s0) t = x <| altstack_onstack := if on_altstack x sig then 1 else altstack_onstack x |>).
  { unfold s0. destruct (on_altstack x sig).
    - split; [done|]. split; [done|]. split; [done|]. split; [by apply table_len_set|by apply tget_set_t].
    - split_and!; try done. fold x. by destruct x. }
  destruct E0 as (Ev & Eg & Ec & Hs0 & Ex). clearbody s0.
  unfold vm_copy_to_user. rewrite (proj2 (Z.eqb_neq ctx 0)) by (by eapply ctx_nonzero).
  rewrite Ev.
  destruct (copy_to_loop_spec T ctx (length bs) frsp bs (kv s) Hv Hctx ltac:(by rewrite Hlen) ltac:(done)
              (words_bytes_bytes _)) as [Hret (F1 & F2 & F3 & Fk & Fb & Fo)].
  destruct (copy_to_loop (length bs) ctx frsp bs (kv s)) as [v r]. cbn [fst snd] in *. subst r.
  rewrite (proj2 (Z.ltb_ge 0 0)) by lia.
  assert (Htr : forall c va, is_ctx T c -> vm_translate v c va = vm_translate (kv s) c va).
  { intros c va Hc. by apply (keeps_translate T). }
  split; [cbn; by rewrite Eg|]. split.
  { rewrite tget_set_t; [|exact Hs0|done]. cbn. by rewrite Ex. }
  split; [exact Ec|]. split.
  { intros b Hb. rewrite Hlen in Hb. cbn. unfold tr. rewrite Htr by done. split; [by apply (ub_mapped _ _ _ _ _ Hbuf)|].
    apply Fb. by rewrite Hlen. }
  split; [by apply (keeps_ok T (kv s))|]. split; [exact Htr|].
  intros a Ha. apply Fo. by rewrite Hlen.
Qed.

Lemma setup_delivery_len t sig regs usp s : table_len s -> table_len (signal_setup_delivery t sig regs usp s).
Proof.
  intros Hs. unfold signal_setup_delivery. cbv zeta.
  set (s1 := if on_altstack _ _ then _ else s).
  assert (H1 : table_len s1) by (unfold s1; destruct (on_altstack _ _); [by apply table_len_set|done]).
  destruct (mm_context _); [|exact H1]. destruct (vm_copy_to_user _ _ _ _) as [v r].
  destruct (r <? 0); [exact H1|]. apply table_len_set. exact H1.
Qed.

(** The lowest pending unblocked signal has a handler, and none is running. *)
Record deliverable (T : labels) (s : kst) (t ctx sig : Z) : Prop := {
  dl_frame : frame_ok T s t ctx sig (syscall_user_rsp (kg s));
  dl_cur : current_task (ks s) = Some t;
  dl_idle : sig_active (kg s) = 0;
  dl_low : lowest_sig (Z.land (sig_pending (tget (ks s) t)) (Z.lnot (sig_blocked (tget (ks s) t)))) = sig;
  dl_handler : SIG_IGN_VAL < aget (sig_handler (tget (ks s) t)) sig;
  dl_ctx16 : length (syscall_user_ctx (kg s)) = 16%nat;
  dl_words : Forall word64 (syscall_user_ctx (kg s))
}.

(** The user context a system call interrupted. *)
Definition interrupted (s : kst) : user_regs_t := regs_of (syscall_user_ctx (kg s)).

Lemma check_deliver_setup T s t ctx sig : deliverable T s t ctx sig ->
  signal_check_deliver s = signal_setup_delivery t sig (interrupted s) (syscall_user_rsp (kg s)) s.
Proof.
  intros [Hf Hc Hi Hl Hh _ _]. unfold signal_check_deliver. rewrite Hc, Hi. cbn [Z.eqb negb].
  pose proof (fk_sig _ _ _ _ _ _ Hf) as Hsig. rewrite Hl.
  set (mask := Z.land _ _) in *. destruct (Z.eqb_spec mask 0) as [E|_].
  { rewrite E in Hl. change (lowest_sig 0) with 0 in Hl. lia. }
  rewrite (proj2 (Z.eqb_neq sig 0)) by lia. rewrite (proj2 (Z.leb_gt _ _)) by done. done.
Qed.

Lemma words_of_regs ws : length ws = 16%nat -> words_of (regs_of ws) = ws.
Proof. intros Hl. do 16 (destruct ws as [|? ws]; [done|]). by destruct ws. Qed.

Lemma frame_parts x sig regs :
  word64 sig -> Forall word64 (words_of regs) ->
  let bs := words_bytes (frame_words x sig regs) in
  length bs = 144%nat /\ Ring.slice bs 8 8 = le64 sig /\ Ring.slice bs 16 128 = words_bytes (words_of regs).
Proof.
  intros Hs Hw. cbv zeta. unfold frame_words. rewrite !words_bytes_cons. split; [|split].
  - rewrite !length_app, length_words_bytes, !length_le64. done.
  - change 8 with (Z.of_nat (length (le64 (restorer_of x sig)))) at 1. rewrite slice_app_r.
    rewrite take_app_le by done. by apply take_ge.
  - change (Ring.slice (le64 (restorer_of x sig) ++ le64 sig ++ words_bytes (words_of regs)) 16 128) with
      (take 128 (words_bytes (words_of regs))). apply take_ge. rewrite length_words_bytes. done.
Qed.

Lemma frame_at_range x sig usp : 0 <= frame_at x sig usp < 2 ^ 64.
Proof.
  unfold frame_at. set (y := if on_altstack x sig then _ else _). pose proof (u64_range y) as Hy.
  change (Z.lnot 15) with (Z.lnot (Z.ones 4)). rewrite <- Z.ldiff_land, Z.ldiff_ones_r by lia.
  rewrite Z.shiftl_mul_pow2, Z.shiftr_div_pow2 by lia. change (2 ^ 4) with 16.
  pose proof (Z.mul_div_le (u64 y) 16 ltac:(lia)). pose proof (Z.div_pos (u64 y) 16). lia.
Qed.

(** What the assembly loads from a frame. *)
Lemma restore_from_frame s ctx x sig regs :
  ctx <> 0 -> word64 sig -> Forall word64 (words_of regs) ->
  holds (kv s) ctx (sig_frame_ptr (kg s)) (words_bytes (frame_words x sig regs)) ->
  signal_restore ctx s = Some regs.
Proof.
  intros Hc Hs Hw Hh. destruct (frame_parts x sig regs Hs Hw) as (Hl & _ & Hr).
  unfold signal_restore. rewrite (read_part _ _ _ _ 16 128 Hc Hh) by (rewrite ?Hl; lia).
  rewrite Hr. cbn [fmap option_fmap option_map]. unfold compose.
  rewrite bytes_words_bytes by done. by rewrite regs_of_words_of.
Qed.

(** The fields delivery looks at, and a task that has handled [sig]. *)
Definition sigs_of (x : task) : Z * Z * list Z := (sig_pending x, sig_blocked x, sig_handler x).
Definition cleared (sig : Z) (x : task) : task := x <| sig_pending := bit_clr (sig_pending x) sig |>.

(** No signal of the task is pending, unblocked and caught: nothing that the
    exit path of a system call would deliver. *)
Definition quiet (x : task) : Prop :=
  let sig := lowest_sig (Z.land (sig_pending x) (Z.lnot (sig_blocked x))) in
  sig = 0 \/ aget (sig_handler x) sig <= SIG_IGN_VAL.

Lemma quiet_sigs x y : sigs_of x = sigs_of y -> quiet y -> quiet x.
Proof. unfold sigs_of, quiet. by intros [= -> -> ->]. Qed.

Lemma cleared_sigs sig x y : sigs_of x = sigs_of y -> sigs_of (cleared sig x) = sigs_of (cleared sig y).
Proof. unfold sigs_of, cleared. cbn. by intros [= -> -> ->]. Qed.

Lemma check_deliver_quiet s t :
  current_task (ks s) = Some t -> quiet (tget (ks s) t) -> signal_check_deliver s = s.
Proof.
  intros Hc Hq. unfold signal_check_deliver. rewrite Hc. destruct (negb _); [done|]. cbv zeta.
  destruct (_ =? 0); [done|]. destruct (Z.eqb_spec (lowest_sig (Z.land (sig_pending (tget (ks s) t)) (Z.lnot (sig_blocked (tget (ks s) t))))) 0) as [|Hn]; [done|].
  destruct Hq as [|Hh]; [done|]. by rewrite (proj2 (Z.leb_le _ _)).
Qed.

(** rt_sigreturn on an intact frame. *)
Lemma sigreturn_spec s t ctx x sig regs frsp :
  current_task (ks s) = Some t -> mm_context (tget (ks s) t) = Some ctx -> ctx <> 0 ->
  0 <= frsp < 2 ^ 64 -> syscall_user_rsp (kg s) = u64 (frsp + 8) ->
  0 < sig < 64 -> Forall word64 (words_of regs) ->
  holds (kv s) ctx frsp (words_bytes (frame_words x sig regs)) ->
  let '(s', r) := sys_rt_sigreturn s in
  r = 0 /\ kv s' = kv s /\ current_task (ks s') = Some t /\
  (table_len s -> 0 <= t < MAX_TASKS -> sigs_of (tget (ks s') t) = sigs_of (cleared sig (tget (ks s) t))) /\
  kg s' = kg s <| syscall_user_rsp := r_rsp regs |> <| sig_frame_ptr := frsp |>
            <| sig_restore_rip := r_rip regs |> <| sig_restore_rflags := r_rflags regs |>
            <| sig_restore_request := 1 |> <| sig_active := 0 |>.
Proof.
  intros Hc Hm Hctx Hf Hrsp Hsig Hw Hh. unfold word64 in *.
  destruct (frame_parts x sig regs ltac:(unfold word64; lia) Hw) as (Hl & Hs & Hr).
  unfold sys_rt_sigreturn. rewrite Hc, Hm, Hrsp.
  assert (E : u64 (u64 (frsp + 8) - 8) = frsp).
  { unfold Z.sub. rewrite u64_add_l. rewrite u64_small; lia. }
  rewrite E. rewrite (read_part _ _ _ _ 8 8 Hctx Hh), (read_part _ _ _ _ 16 128 Hctx Hh) by (rewrite ?Hl; lia).
  rewrite Hs, Hr. rewrite bytes_words_bytes by done. rewrite regs_of_words_of.
  rewrite <- (app_nil_r (le64 sig)), word_of_le64 by (unfold word64; lia). rewrite (proj2 (Z.ltb_lt 0 sig)), (proj2 (Z.ltb_lt sig 64)) by lia. cbn [andb].
  set (s1 := set_g _ s).
  assert (E1 : ks s1 = ks s) by done.
  destruct (_ && _ && _); (split; [done|]; split; [done|]; split; [done|]; split; [|done]); intros Hln Ht.
  - rewrite tget_set_t by (done || by apply table_len_set). rewrite tget_set_t by done. by rewrite E1.
  - rewrite tget_set_t by done. by rewrite E1.
Qed.

(** C19: catching a signal is transparent. When the kernel delivers the lowest
    pending unblocked signal on the way out of a system call, the handler is
    entered with the frame at the stack pointer (restorer, number, then the
    sixteen saved registers), the signal is no longer pending and nothing but
    the frame's bytes is written. However long the handler runs and whatever
    it does to memory outside the frame, when it returns through the restorer
    (so the stack pointer is eight past the frame) rt_sigreturn succeeds and
    the assembly reloads exactly the sixteen registers of the interrupted
    context; delivery is enabled again. This needs that no further signal of
    the task is pending, unblocked and caught by then: [signal_check_deliver]
    runs between rt_sigreturn and the reload, and if it finds one the
    interrupted context is lost ([sigreturn_loses_context]). *)
Theorem signal_roundtrip T s t ctx sig :
  deliverable T s t ctx sig ->
  let x := tget (ks s) t in
  let frsp := frame_at x sig (syscall_user_rsp (kg s)) in
  let s1 := signal_check_deliver s in
  (sig_request (kg s1) = 1 /\ sig_handler_g (kg s1) = aget (sig_handler x) sig /\
   sig_frame_rsp (kg s1) = frsp /\ sig_active (kg s1) = 1 /\
   user_word ctx (u64 (frsp + 0)) (kv s1) = Some (restorer_of x sig) /\
   sigs_of (tget (ks s1) t) = sigs_of (cleared sig x) /\ table_len s1 /\
   current_task (ks s1) = Some t /\ mm_context (tget (ks s1) t) = Some ctx /\
   (forall c va, is_ctx T c -> vm_translate (kv s1) c va = vm_translate (kv s) c va) /\
   forall a, (forall b, 0 <= b < SIGFRAME_SIZE -> a <> tr (kv s) ctx frsp b) ->
     Phys.ld8 (pmem (kv s1)) a = Phys.ld8 (pmem (kv s)) a) /\
  forall s2,
    current_task (ks s2) = Some t -> mm_context (tget (ks s2) t) = Some ctx ->
    syscall_user_rsp (kg s2) = u64 (frsp + 8) ->
    (forall b, 0 <= b < SIGFRAME_SIZE ->
       tr (kv s2) ctx frsp b <> 0 /\
       Phys.ld8 (pmem (kv s2)) (tr (kv s2) ctx frsp b) = Phys.ld8 (pmem (kv s1)) (tr (kv s1) ctx frsp b)) ->
    table_len s2 -> quiet (cleared sig (tget (ks s2) t)) ->
    let '(s3, r) := sys_rt_sigreturn s2 in
    let s4 := syscall_exit r s3 in
    r = 0 /\ sig_restore_request (kg s4) = 1 /\ sig_active (kg s4) = 0 /\
    signal_restore ctx s4 = Some (interrupted s).
Proof.
  intros Hd. cbv zeta. rewrite (check_deliver_setup _ _ _ _ _ Hd).
  pose proof Hd as [Hf Hc Hi Hl Hh H16 Hw].
  pose proof (setup_delivery_spec T s t ctx sig (interrupted s) _ Hf) as (Eg & Et & Ec & Hold & _ & Htr & Ho).
  pose proof (ctx_nonzero _ _ _ (fk_vm _ _ _ _ _ _ Hf) (fk_ctx _ _ _ _ _ _ Hf)) as Hctx.
  pose proof (fk_sig _ _ _ _ _ _ Hf) as Hsig.
  assert (Hw' : Forall word64 (words_of (interrupted s))) by (unfold interrupted; by rewrite words_of_regs).
  assert (Hs64 : word64 sig) by (unfold word64; lia).
  set (x := tget (ks s) t) in *. set (frsp := frame_at x sig (syscall_user_rsp (kg s))) in *.
  pose proof (setup_delivery_len t sig (interrupted s) (syscall_user_rsp (kg s)) s (fk_len _ _ _ _ _ _ Hf)) as Hl1.
  set (s1 := signal_setup_delivery t sig (interrupted s) (syscall_user_rsp (kg s)) s) in *. clearbody s1.
  destruct (frame_parts x sig (interrupted s) Hs64 Hw') as (Hlen & _ & _).
  split.
  - rewrite Eg, Et, Ec. do 4 (split; [done|]).
    split; [|split; [done|split; [done|split; [done|split; [apply (fk_mm _ _ _ _ _ _ Hf)|done]]]]].
    unfold user_word. rewrite (read_part _ _ _ _ 0 8 Hctx Hold) by (rewrite ?Hlen; lia).
    cbn [fmap option_fmap option_map]. f_equal. unfold frame_words. rewrite words_bytes_cons.
    unfold Ring.slice. change (drop (Z.to_nat 0) ?l) with l. rewrite take_app_le by done.
    rewrite take_ge by done. rewrite <- (app_nil_r (le64 _)). apply word_of_le64. apply (fk_rest _ _ _ _ _ _ Hf).
  - intros s2 Hc2 Hm2 Hrsp Hkeep Hl2 Hq2.
    assert (Hh2 : holds (kv s2) ctx frsp (words_bytes (frame_words x sig (interrupted s)))).
    { intros b Hb. rewrite Hlen in Hb. destruct (Hkeep b Hb) as [Hne E]. split; [done|].
      rewrite E. apply Hold. by rewrite Hlen. }
    pose proof (sigreturn_spec s2 t ctx x sig (interrupted s) frsp Hc2 Hm2 Hctx
      (frame_at_range _ _ _) Hrsp Hsig Hw' Hh2) as Hret.
    destruct (sys_rt_sigreturn s2) as [s3 r]. destruct Hret as (-> & Ev & Ec3 & Esig & Eg3).
    assert (Ex : syscall_exit 0 s3 = set_g (fun g => g <| syscall_user_ctx := aset (syscall_user_ctx g) 0 0 |>) s3).
    { apply (check_deliver_quiet (set_g _ s3) t Ec3), (quiet_sigs _ _ (Esig Hl2 (fk_task _ _ _ _ _ _ Hf))), Hq2. }
    cbv zeta. rewrite Ex. clear Ex. set (s4 := set_g _ s3).
    assert (Eg4 : kg s4 = kg s3 <| syscall_user_ctx := aset (syscall_user_ctx (kg s3)) 0 0 |>) by done.
    assert (Ev4 : kv s4 = kv s3) by done. clearbody s4. rewrite Eg3 in Eg4.
    split; [done|]. rewrite Eg4. split; [done|]. split; [done|].
    apply (restore_from_frame s4 ctx x sig); [done..|]. rewrite Ev4, Ev, Eg4. exact Hh2.
Qed.

(** A signal that becomes deliverable while a handler returns destroys the
    interrupted context: with the restore request of rt_sigreturn standing,
    delivery on the same exit path moves the shared frame pointer to its own
    frame, the request still comes first, and the registers loaded are those
    of the rt_sigreturn call itself. *)
Theorem sigreturn_loses_context T s t ctx sig :
  deliverable T s t ctx sig -> sig_restore_request (kg s) = 1 ->
  let s1 := signal_check_deliver s in
  sig_restore_request (kg s1) = 1 /\
  sig_frame_ptr (kg s1) = frame_at (tget (ks s) t) sig (syscall_user_rsp (kg s)) /\
  signal_restore ctx s1 = Some (interrupted s).
Proof.
  intros Hd Hr. cbv zeta. rewrite (check_deliver_setup _ _ _ _ _ Hd).
  pose proof Hd as [Hf Hc Hi Hl Hh H16 Hw].
  pose proof (setup_delivery_spec T s t ctx sig (interrupted s) _ Hf) as (Eg & _ & _ & Hold & _).
  pose proof (ctx_nonzero _ _ _ (fk_vm _ _ _ _ _ _ Hf) (fk_ctx _ _ _ _ _ _ Hf)) as Hctx.
  pose proof (fk_sig _ _ _ _ _ _ Hf) as Hsig.
  split; [by rewrite Eg|]. split; [by rewrite Eg|].
  apply (restore_from_frame _ ctx (tget (ks s) t) sig); [done|unfold word64; lia| |].
  - unfold interrupted. by rewrite words_of_regs.
  - rewrite Eg. exact Hold.
Qed.

(** ** The signal state of a task is well formed *)
Record sig_wf (x : task) : Prop := {
  wf_handler : length (sig_handler x) = 64%nat /\ Forall word64 (sig_handler x);
  wf_flags : length (sig_flags x) = 64%nat /\ Forall word64 (sig_flags x);
  wf_restorer : length (sig_restorer x) = 64%nat /\ Forall word64 (sig_restorer x);
  wf_pending : word64 (sig_pending x);
  wf_blocked : word64 (sig_blocked x);
  wf_kill : Z.testbit (sig_blocked x) SIG_KILL = false /\ aget (sig_handler x) SIG_KILL = 0;
  wf_stop : Z.testbit (sig_blocked x) SIG_STOP = false /\ aget (sig_handler x) SIG_STOP = 0
}.

(** What may happen to the current task's signals: the kernel's entry points
    with any arguments, and user code changing memory and registers. *)
Inductive sig_step : kst -> kst -> Prop :=
| StCheck s : sig_step s (signal_check_deliver s)
| StNow sig rip rsp s : sig_step s (signal_deliver_now sig rip rsp s).1
| StAction sig act oldact s : 0 <= sig -> sig_step s (sys_rt_sigaction sig act oldact s).1
| StMask how set oldset s : sig_step s (sys_rt_sigprocmask how set oldset s).1
| StReturn s : sig_step s (sys_rt_sigreturn s).1
| StReset s : sig_step s (set_g signal_globals_reset s)
| StUser v rsp ws s :
    sig_step s (set_g (fun g => g <| syscall_user_rsp := rsp |> <| syscall_user_ctx := ws |>) (s <| kv := v |>)).

Lemma byte_list_word l : Forall (fun b => 0 <= b < 256) l -> word64 (word_of l).
Proof.
  intros Hl. unfold word64, word_of.
  assert (H : forall n k, Forall (fun b => 0 <= b < 256) k -> (length k <= n)%nat ->
    0 <= foldr (fun b acc => b + 256 * acc) 0 k < 256 ^ Z.of_nat n).
  { induction n as [|n IH]; intros [|b k] Hk Hn; simpl length in Hn; cbn [foldr]; [done|lia| |].
    - pose proof (Z.pow_pos_nonneg 256 (Z.of_nat (S n)) ltac:(lia) ltac:(lia)). lia.
    - apply Forall_cons in Hk as [Hb Hk]. specialize (IH k Hk ltac:(lia)).
      rewrite Nat2Z.inj_succ, Z.pow_succ_r by lia. lia. }
  apply (H 8%nat); [by apply Forall_take|rewrite length_take; lia].
Qed.

Lemma copy_from_bytes ctx va n v l :
  vm_copy_from_user ctx va n v = Some l -> Forall (fun b => 0 <= b < 256) l.
Proof.
  unfold vm_copy_from_user. destruct (ctx =? 0); [done|]. generalize (Z.to_nat n) as fuel.
  intros fuel. revert va n l. induction fuel as [|f IH]; intros va n l; cbn [copy_from_loop].
  { destruct (n <=? 0); [|done]. intros [= <-]. constructor. }
  destruct (n <=? 0); [intros [= <-]; constructor|]. destruct (vm_translate _ _ _ =? 0); [done|].
  intros (k & Hk & [= <-])%bind_Some. apply Forall_app. split; [|by eapply IH].
  apply Forall_fmap, Forall_forall. intros i _. apply Phys.ld8_range.
Qed.

Lemma bytes_words_range n l : Forall (fun b => 0 <= b < 256) l -> Forall word64 (bytes_words n l).
Proof.
  revert l. induction n as [|n IH]; intros l Hl; [constructor|]. cbn [bytes_words].
  constructor; [by apply byte_list_word|]. apply IH. by apply Forall_drop.
Qed.

Lemma unblock_fatal_bits m :
  Z.testbit (unblock_fatal m) SIG_KILL = false /\ Z.testbit (unblock_fatal m) SIG_STOP = false.
Proof. unfold unblock_fatal. rewrite !Z.land_spec. split; apply andb_false_r. Qed.

Lemma word64_land a b : word64 a -> word64 (Z.land a b).
Proof.
  unfold word64. intros Ha. assert (0 <= Z.land a b) by (apply Z.land_nonneg; lia). split; [done|].
  apply testbit_range; [lia|done|]. intros i Hi. rewrite Z.land_spec, (testbit_high a 64) by (done || lia). done.
Qed.

Lemma word64_lor a b : word64 a -> word64 b -> word64 (Z.lor a b).
Proof.
  unfold word64. intros Ha Hb. assert (0 <= Z.lor a b) by (apply Z.lor_nonneg; lia). split; [done|].
  apply testbit_range; [lia|done|]. intros i Hi.
  by rewrite Z.lor_spec, (testbit_high a 64), (testbit_high b 64) by (done || lia).
Qed.

(** The state after each entry point, as far as the task is concerned. *)
Definition keeps_wf (t : Z) (s s' : kst) : Prop :=
  table_len s' /\ current_task (ks s') = Some t /\ sig_wf (tget (ks s') t).

Lemma keeps_wf_set t f s :
  table_len s -> 0 <= t < MAX_TASKS -> current_task (ks s) = Some t ->
  sig_wf (f (tget (ks s) t)) -> keeps_wf t s (set_t t f s).
Proof.
  intros Hl Ht Hc Hf. split; [by apply table_len_set|]. split; [done|]. by rewrite tget_set_t.
Qed.

Lemma wf_clr_pending x sig : sig_wf x -> 0 <= sig -> sig_wf (x <| sig_pending := bit_clr (sig_pending x) sig |>).
Proof.
  intros [? ? ? ? ? ? ?] Hs. split; try done. cbn. apply bit_clr_range; [done|lia|lia].
Qed.

Lemma wf_altstack x v : sig_wf x -> sig_wf (x <| altstack_onstack := v |>).
Proof. by intros [? ? ? ? ? ? ?]. Qed.

Lemma setup_delivery_wf t sig regs usp s :
  table_len s -> 0 <= t < MAX_TASKS -> current_task (ks s) = Some t -> 0 <= sig ->
  sig_wf (tget (ks s) t) -> keeps_wf t s (signal_setup_delivery t sig regs usp s).
Proof.
  intros Hl Ht Hc Hsig Hwf. unfold signal_setup_delivery.
  set (s1 := if on_altstack (tget (ks s) t) sig then _ else s).
  assert (H1 : keeps_wf t s s1).
  { unfold s1. destruct (on_altstack _ _); [|by split]. apply keeps_wf_set; [done..|]. by apply wf_altstack. }
  destruct (mm_context _) as [ctx|]; [|done].
  destruct (vm_copy_to_user _ _ _ _) as [v r].
  assert (H2 : keeps_wf t s (s1 <| kv := v |>)) by exact H1.
  destruct (r <? 0); [done|]. destruct H2 as (L2 & C2 & W2).
  set (s2 := set_g _ (s1 <| kv := v |>)).
  apply (keeps_wf_set t (fun x => x <| sig_pending := bit_clr (sig_pending x) sig |>) s2); [done..|].
  by apply wf_clr_pending.
Qed.

Lemma lowest_sig_range mask : 0 <= lowest_sig mask < 64.
Proof.
  unfold lowest_sig. destruct (find_index _ _) as [i|] eqn:E; [|lia].
  apply find_index_Some in E as (x & Hx & _). apply lookup_lt_Some in Hx. rewrite length_zrange in Hx. lia.
Qed.

Lemma wf_action x sig h fl rs : sig_wf x -> 0 <= sig < 64 -> sig <> SIG_KILL -> sig <> SIG_STOP ->
  word64 h -> word64 fl -> word64 rs ->
  sig_wf (x <| sig_handler := aset (sig_handler x) sig h |> <| sig_flags := aset (sig_flags x) sig fl |>
            <| sig_restorer := aset (sig_restorer x) sig rs |>).
Proof.
  intros [[? ?] [? ?] [? ?] ? ? [? ?] [? ?]] Hs Hk Hst ? ? ?.
  split; cbn; rewrite ?length_aset; try done.
  - split; [done|]. by apply Forall_aset.
  - split; [done|]. by apply Forall_aset.
  - split; [done|]. by apply Forall_aset.
  - split; [done|]. rewrite aget_aset_ne; [done|lia|done|done].
  - split; [done|]. rewrite aget_aset_ne; [done|lia|done|done].
Qed.

Lemma wf_mask x how m : sig_wf x -> word64 m -> sig_wf (x <| sig_blocked := new_mask how m (sig_blocked x) |>).
Proof.
  intros [? ? ? ? Hb [? ?] [? ?]] Hm. unfold new_mask.
  set (b := if how =? 0 then _ else _).
  assert (Hb' : word64 b).
  { unfold b. destruct (how =? 0); [by apply word64_lor|]. destruct (how =? 1); [by apply word64_land|done]. }
  destruct (unblock_fatal_bits b) as [E1 E2].
  split; cbn; try done. by apply word64_land.
Qed.

Lemma word64_aget l i : Forall word64 l -> word64 (aget l i).
Proof.
  intros Hl. unfold aget. destruct (decide (Z.to_nat i < length l)%nat) as [Hi|Hi].
  - apply (Forall_lookup_1 word64 l (Z.to_nat i)); [done|]. by apply list_lookup_lookup_total_lt.
  - rewrite list_lookup_total_alt, lookup_ge_None_2 by lia. done.
Qed.

Lemma sig_step_wf t s s' :
  sig_step s s' -> 0 <= t < MAX_TASKS -> table_len s -> current_task (ks s) = Some t ->
  sig_wf (tget (ks s) t) -> keeps_wf t s s'.
Proof.
  intros Hst Ht Hl Hc Hwf. assert (Hsame : keeps_wf t s s) by done.
  destruct Hst as [s|sig rip rsp s|sig act oldact s Hsig|how set oldset s|s|s|v rsp ws s]; [| | | | |done|done].
  - unfold signal_check_deliver. rewrite Hc. repeat (case_match; [done|]).
    apply setup_delivery_wf; [done..| |done]. apply lowest_sig_range.
  - unfold signal_deliver_now. rewrite Hc. destruct (Z.ltb_spec sig 1); [done|].
    destruct (Z.leb_spec 64 sig); [done|]. cbn [orb]. repeat (case_match; [done|]). cbn [fst].
    set (f := fun x : task => x <| sig_pending := bit_set (sig_pending x) sig |>).
    assert (Hs : keeps_wf t s (set_t t f s)).
    { apply keeps_wf_set; [done..|]. destruct Hwf as [? ? ? ? ? ? ?]. split; try done.
      apply bit_set_range; [done|lia]. }
    destruct Hs as (L1 & C1 & W1). by apply setup_delivery_wf; [| | |lia|].
  - unfold sys_rt_sigaction. rewrite Hc. destruct (mm_context _) as [ctx|]; [|done].
    destruct (Z.eqb_spec sig 0); [done|]. destruct (Z.leb_spec 64 sig); [done|]. cbn [orb].
    destruct (Z.eqb_spec sig SIG_KILL); [done|]. destruct (Z.eqb_spec sig SIG_STOP); [done|]. cbn [orb].
    set (p := if oldact =? 0 then _ else _).
    assert (Hp : keeps_wf t s p.1) by (unfold p; destruct (oldact =? 0); [done|]; by destruct (vm_copy_to_user _ _ _ _)).
    destruct p as [s1 ok]. destruct (negb ok); [exact Hp|]. destruct (act =? 0); [exact Hp|].
    destruct (vm_copy_from_user ctx act 32 (kv s1)) as [l|] eqn:El; [|exact Hp]. cbn [fst] in *.
    destruct Hp as (L1 & C1 & W1). apply keeps_wf_set; [done..|].
    pose proof (bytes_words_range 4 l (copy_from_bytes _ _ _ _ _ El)) as Hw.
    apply wf_action; [done|lia|done|done|by apply word64_aget..].
  - unfold sys_rt_sigprocmask. rewrite Hc. destruct (mm_context _) as [ctx|]; [|done].
    set (p := if oldset =? 0 then _ else _).
    assert (Hp : keeps_wf t s p.1) by (unfold p; destruct (oldset =? 0); [done|]; by destruct (vm_copy_to_user _ _ _ _)).
    destruct p as [s1 ok]. destruct (negb ok); [exact Hp|]. destruct (set =? 0); [exact Hp|].
    destruct (vm_copy_from_user ctx set 8 (kv s1)) as [l|] eqn:El; [|exact Hp]. cbn [fst] in *.
    destruct Hp as (L1 & C1 & W1). apply keeps_wf_set; [done..|].
    apply wf_mask; [done|]. apply byte_list_word. by eapply copy_from_bytes.
  - unfold sys_rt_sigreturn. rewrite Hc. destruct (mm_context _) as [ctx|]; [|done].
    destruct (vm_copy_from_user ctx _ 8 _) as [ls|]; [|done].
    destruct (vm_copy_from_user ctx _ 128 _) as [lr|]; [|done]. cbn [fst].
    set (s1 := set_g _ s). set (s2 := if _ && _ && _ then _ else s1).
    assert (H2 : keeps_wf t s s2).
    { unfold s2. destruct (_ && _ && _); [|done]. apply (keeps_wf_set t _ s1); [done..|]. by apply wf_altstack. }
    destruct (Z.ltb_spec 0 (word_of ls)); [|exact H2]. destruct (_ <? 64); [|exact H2]. cbn [andb].
    destruct H2 as (L1 & C1 & W1). apply (keeps_wf_set t _ s2); [done..|]. apply wf_clr_pending; [done|lia].
Qed.

(** C20: whatever sequence of signal system calls, deliveries, faults and user
    code the current task goes through, and whatever bytes the calls read from
    user memory, its tables keep 64 entries of 64-bit words, and the signals
    9 and 19 are never masked and never given a handler. *)
Theorem sig_state_wf t s s' :
  rtc sig_step s s' -> 0 <= t < MAX_TASKS -> table_len s -> current_task (ks s) = Some t ->
  sig_wf (tget (ks s) t) ->
  table_len s' /\ current_task (ks s') = Some t /\ sig_wf (tget (ks s') t).
Proof.
  intros Hr Ht. induction Hr as [s|s s1 s' Hst _ IH]; intros Hl Hc Hwf; [done|].
  destruct (sig_step_wf t s s1 Hst Ht Hl Hc Hwf) as (L1 & C1 & W1). by apply IH.
Qed.

(** ** Witnesses: a task with a handler for signal 10 and a one-page stack *)
#[local] Opaque ex_user.
Definition demo_task (ctx : Z) : task :=
  task0 <| mm_context := Some ctx |> <| sig_handler := aset (zeros 64) 10 0x400100 |>
        <| sig_pending := 1024 |>.
Definition demo_sched (ctx : Z) : sched := mod_task 1 (fun _ => demo_task ctx) sched_bss <| current_task := Some 1 |>.
Definition demo (ctx : Z) (v : vmst) (restore : Z) : kst :=
  Kst (demo_sched ctx) v (SigGlob 0 0 0 0 restore 0 0 0 0xFFFFFFFFFF00 (Z.add 7 <$> zrange 16)).
Definition demo_frame : Z := 0xFFFFFFFFFE70.

Lemma demo_frame_eq c v r :
  frame_at (tget (ks (demo c v r)) 1) 10 (syscall_user_rsp (kg (demo c v r))) = demo_frame.
Proof. reflexivity. Qed.

Lemma kv_demo c v r : kv (demo c v r) = v.
Proof. reflexivity. Qed.

Lemma demo_tr b : 0 <= b < 144 -> tr ex_user ex_ctx demo_frame b = 0x100e70 + b.
Proof.
  assert (E0 : tr ex_user ex_ctx demo_frame 0 = 0x100e70) by (vm_compute; reflexivity).
  intros Hb. rewrite (tr_chunk ex_user ex_ctx demo_frame b); [by rewrite E0|lia| |by rewrite E0].
  change (u64 demo_frame mod 4096) with 3696. lia.
Qed.

Lemma demo_buffer T : vm_ok T ex_user -> user_buffer T ex_user ex_ctx demo_frame SIGFRAME_SIZE.
Proof.
  intros Hv. unfold SIGFRAME_SIZE. split.
  - intros b Hb. rewrite (demo_tr b Hb). lia.
  - intros b t lab Hb Ht. rewrite (demo_tr b Hb).
    destruct (taken_aligned _ _ (vo_taken _ _ Hv _ _ Ht)) as [_ Hlow]. change Mm.HEAP_BASE with (2048 * 4096) in Hlow. lia.
  - intros b b' Hb Hb'. rewrite (demo_tr b Hb), (demo_tr b' Hb'). lia.
Qed.

(** The address space of the example, its context and the stack page. *)
Lemma demo_space : exists T, vm_ok T ex_user /\ is_ctx T ex_ctx /\
  user_buffer T ex_user ex_ctx demo_frame SIGFRAME_SIZE.
Proof.
  destruct ex_user_ok as (T & Hv & Hc). exists T. split; [exact Hv|]. split; [exact Hc|exact (demo_buffer T Hv)].
Qed.

Lemma demo_deliverable T c v r : is_ctx T c -> vm_ok T v -> user_buffer T v c demo_frame SIGFRAME_SIZE ->
  deliverable T (demo c v r) 1 c 10.
Proof.
  intros Hc Hv Hb. split; try reflexivity.
  - split; [reflexivity|done|reflexivity|exact Hc|exact Hv|lia|done|]. by rewrite demo_frame_eq.
  - apply Forall_fmap, Forall_forall. intros i Hi%elem_of_zrange. unfold compose, word64. lia.
Qed.

Lemma signal_roundtrip_witness :
  let s1 := signal_check_deliver (demo ex_ctx ex_user 0) in
  sig_request (kg s1) = 1 /\ sig_handler_g (kg s1) = 0x400100 /\
  let s2 := set_g (fun g => g <| syscall_user_rsp := demo_frame + 8 |>) s1 in
  signal_restore ex_ctx (syscall_exit 0 (sys_rt_sigreturn s2).1) = Some (interrupted (demo ex_ctx ex_user 0)).
Proof.
  destruct demo_space as (T & Hv & Hctx & Hbuf). revert Hv Hctx Hbuf.
  generalize ex_user as v. generalize ex_ctx as c. intros c v Hv Hctx Hbuf.
  pose proof (signal_roundtrip T (demo c v 0) 1 c 10 (demo_deliverable T c v 0 Hctx Hv Hbuf))
    as [(H1 & H2 & _ & _ & _ & Hsg & Hln & Hc & Hm & Htr & _) Hret].
  assert (Hq : quiet (cleared 10 (cleared 10 (tget (ks (demo c v 0)) 1)))) by (left; reflexivity).
  assert (Eh : aget (sig_handler (tget (ks (demo c v 0)) 1)) 10 = 0x400100) by reflexivity.
  rewrite demo_frame_eq in Hret. revert Eh H1 H2 Hsg Hln Hq Hc Hm Htr Hret.
  generalize (tget (ks (demo c v 0)) 1) as x0.
  generalize (signal_check_deliver (demo c v 0)) as s1. generalize (interrupted (demo c v 0)) as regs.
  rewrite kv_demo. intros regs s1 x0 Eh H1 H2 Hsg Hln Hq Hc Hm Htr Hret. cbv zeta.
  split; [exact H1|]. split; [by rewrite H2|].
  specialize (Hret (set_g (fun g => g <| syscall_user_rsp := demo_frame + 8 |>) s1) Hc Hm eq_refl).
  assert (Hk : forall b, 0 <= b < SIGFRAME_SIZE -> tr (kv s1) c demo_frame b <> 0).
  { intros b Hb. unfold tr. rewrite Htr by done. by apply (ub_mapped _ _ _ _ _ Hbuf). }
  specialize (Hret (fun b Hb => conj (Hk b Hb) eq_refl) Hln (quiet_sigs _ _ (cleared_sigs 10 _ _ Hsg) Hq)).
  destruct (sys_rt_sigreturn _) as [s3 r]. destruct Hret as (-> & _ & _ & Hret). exact Hret.
Defined.

Lemma sigreturn_loses_context_witness :
  signal_restore ex_ctx (signal_check_deliver (demo ex_ctx ex_user 1)) = Some (interrupted (demo ex_ctx ex_user 1)).
Proof.
  destruct demo_space as (T & Hv & Hctx & Hbuf). revert Hv Hctx Hbuf.
  generalize ex_user as v. generalize ex_ctx as c. intros c v Hv Hctx Hbuf.
  apply (sigreturn_loses_context T (demo c v 1) 1 c 10); [|reflexivity].
  by apply demo_deliverable.
Defined.

Lemma sig_state_wf_witness :
  sig_wf (tget (ks (signal_deliver_now 10 0x400000 0xFFFFFFFFFF00 (demo 4096 boot 0)).1) 1).
Proof.
  apply (sig_state_wf 1 (demo 4096 boot 0)).
  - eapply rtc_l; [apply (StNow 10 0x400000 0xFFFFFFFFFF00)|apply rtc_refl].
  - done.
  - reflexivity.
  - reflexivity.
  - change (tget (ks (demo 4096 boot 0)) 1) with (demo_task 4096).
    assert (Hz : Forall word64 (zeros 64)) by (by apply Forall_replicate).
    split; try done.
    split; [reflexivity|]. by apply (Forall_aset word64 (zeros 64)).
Defined.

(** ** Behaviours behind the findings *)

(** A fault whose frame cannot be written is reported as delivered although
    nothing was armed. *)
Example deliver_now_claims_success :
  let s := Kst (mod_task 1 (fun _ => demo_task 4096 <| mm_context := None |>) sched_bss <| current_task := Some 1 |>)
             boot (kg (demo 4096 boot 0)) in
  let '(s', r) := signal_deliver_now 10 0x400000 0xFFFFFFFFFF00 s in
  (r, sig_request (kg s')) = (1, 0).
Proof. reflexivity. Qed.

(** A pending signal whose handler was reset holds up every higher one. *)
Example reset_handler_blocks_higher c v :
  let x := demo_task c <| sig_pending := 1024 + 4 |> in
  let s := demo c v 0 <| ks := mod_task 1 (fun _ => x) sched_bss <| current_task := Some 1 |> |> in
  signal_check_deliver s = s.
Proof.
  cbv zeta. set (s := demo c v 0 <| ks := _ |>).
  assert (Ec : current_task (ks s) = Some 1) by reflexivity.
  assert (Ea : sig_active (kg s) = 0) by reflexivity.
  assert (El : lowest_sig (Z.land (sig_pending (tget (ks s) 1)) (Z.lnot (sig_blocked (tget (ks s) 1)))) = 2)
    by reflexivity.
  assert (Eh : aget (sig_handler (tget (ks s) 1)) 2 = 0) by reflexivity.
  clearbody s. unfold signal_check_deliver. rewrite Ec, Ea. cbv zeta. rewrite El, Eh.
  change (negb (0 =? 0)) with false. cbv iota. by case_match.
Qed.
End Signal.
