(* ===== verification/Net.v ===== *)
(** The network core (src/src/kernel/net/net.c, net.h): byte order, the device
    table, addresses as text, and the driver interface the protocol layers
    (Eth.v, Ip.v, Udp.v, NetIn.v) are written against. *)
From S2P Require Import Prelude Ring.

Module Net.

Definition ETH_ALEN : Z := 6.
Definition ETH_HDR_LEN : Z := 14.
Definition MTU : Z := 1500.
Definition ETH_FRAME_MAX : Z := 1514.
Definition IP_HDR_LEN : Z := 20.
Definition UDP_HDR_LEN : Z := 8.
Definition ICMP_HDR_LEN : Z := 8.
Definition ETH_TYPE_IP : Z := 2048.
Definition ETH_TYPE_ARP : Z := 2054.
Definition IP_PROTO_ICMP : Z := 1.
Definition IP_PROTO_UDP : Z := 17.
Definition NET_MAX_DEVS : Z := 4.

(** ** Bytes and byte order *)

Abbreviation bytes := (list Z).
Definition is_byte (b : Z) : Prop := 0 <= b < 256.

(** [__builtin_bswap16], [__builtin_bswap32]. *)
Definition net_htons (v : Z) : Z := v mod 256 * 256 + v / 256 mod 256.
Definition net_ntohs (v : Z) : Z := net_htons v.
Definition net_htonl (v : Z) : Z :=
  v mod 256 * 2 ^ 24 + v / 2 ^ 8 mod 256 * 2 ^ 16 + v / 2 ^ 16 mod 256 * 2 ^ 8 + v / 2 ^ 24 mod 256.
Definition net_ntohl (v : Z) : Z := net_htonl v.

(** A [uint16_t] / [uint32_t] field in memory: x86 is little endian. *)
Definition le16 (v : Z) : bytes := [v mod 256; v / 256 mod 256].
Definition le32 (v : Z) : bytes := [v mod 256; v / 2 ^ 8 mod 256; v / 2 ^ 16 mod 256; v / 2 ^ 24 mod 256].
Definition ld16 (p : bytes) (off : Z) : Z := aget p off + 256 * aget p (off + 1).
Definition ld32 (p : bytes) (off : Z) : Z :=
  aget p off + 2 ^ 8 * aget p (off + 1) + 2 ^ 16 * aget p (off + 2) + 2 ^ 24 * aget p (off + 3).

(** What goes over the wire: the most significant byte first. *)
Definition be16 (v : Z) : bytes := [v / 256 mod 256; v mod 256].
Definition be32 (v : Z) : bytes := [v / 2 ^ 24 mod 256; v / 2 ^ 16 mod 256; v / 2 ^ 8 mod 256; v mod 256].

Definition len (p : bytes) : Z := Z.of_nat (length p).

(** ** The device table *)

Section Device.
  Context {D : Type}.

(** [net_device_t]; [drv] is the driver's private data together with the
    hardware behind it. *)
Record net_device := NetDevice {
  name : bytes; mac : bytes; ip : Z; mask : Z; gw : Z; io_base : Z; is_mmio : Z;
  rx_packets : Z; tx_packets : Z; rx_errors : Z; tx_errors : Z; rx_dropped : Z;
  drv : D
}.
End Device.
#[global] Arguments net_device : clear implicits.

#[export] Instance eta_net_device D : Eta (net_device D) := fun r =>
  NetDevice (name r) (mac r) (ip r) (mask r) (gw r) (io_base r) (is_mmio r)
    (rx_packets r) (tx_packets r) (rx_errors r) (tx_errors r) (rx_dropped r) (drv r).

(** The [send] callback of the driver. *)
Class NicOps (D : Type) := {
  dev_send : net_device D -> bytes -> net_device D * Z
}.

(** What the protocol layers rely on: [sent d] are the frames handed to the
    card so far; sending hands the frame over, whatever the driver reports, and
    leaves the addresses alone. Handed over is not transmitted: the RTL8139
    driver returns -1 for a frame that the card gave up. What reaches the wire
    is for the card to decide. *)
Class NicSpec (D : Type) `{NicOps D} := {
  sent : D -> list bytes;
  send_sent d f : ETH_HDR_LEN <= len f <= ETH_FRAME_MAX ->
    sent (drv (dev_send d f).1) = sent (drv d) ++ [f];
  send_mac d f : mac (dev_send d f).1 = mac d;
  send_ip d f : ip (dev_send d f).1 = ip d
}.

Section Net.
  Context {D : Type} `{NicOps D}.

(** [g_devs[0 .. g_dev_count - 1]] and [g_ready]. *)
Record devs := Devs { g_devs : list (net_device D); g_ready : Z }.

Definition net_register_device (dev : option (net_device D)) (n : devs) : devs * Z :=
    match dev with
    | None => (n, -1)
    | Some d => if NET_MAX_DEVS <=? Z.of_nat (length (g_devs n)) then (n, -1)
                else (Devs (g_devs n ++ [d]) (g_ready n), 0)
    end.

Definition net_default (n : devs) : option (net_device D) := head (g_devs n).

Definition net_device_count (n : devs) : Z := Z.of_nat (length (g_devs n)).

Definition net_device_at (i : Z) (n : devs) : option (net_device D) :=
    if (i <? 0) || (net_device_count n <=? i) then None else g_devs n !! Z.to_nat i.

Definition net_is_ready (n : devs) : Z := g_ready n.

(** Writes through the pointer [net_default] returns. *)
Definition mod_default (f : net_device D -> net_device D) (n : devs) : devs :=
    match g_devs n with
    | [] => n
    | d :: ds => Devs (f d :: ds) (g_ready n)
    end.

Definition net_set_addr (a m g : Z) (n : devs) : devs :=
    mod_default (fun d => d <| ip := a |> <| mask := m |> <| gw := g |>) n.

Definition net_tx (frame : bytes) (n : devs) : devs * Z :=
    match g_devs n with
    | [] => (n, -1)
    | d :: ds => let '(d', r) := dev_send d frame in (Devs (d' :: ds) (g_ready n), r)
    end.

(** [if (dev) dev->rx_dropped++] *)
Definition drop_rx (n : devs) : devs :=
    mod_default (fun d => d <| rx_dropped := u64 (rx_dropped d + 1) |>) n.

Definition IP4 (a b c d : Z) : Z :=
    Z.lor (Z.lor (Z.shiftl a 24) (Z.shiftl b 16)) (Z.lor (Z.shiftl c 8) d).

(** [net_init] after the PCI probe found [dev] and its [init] returned [r]. *)
Definition net_init (probe : option (net_device D)) (init : net_device D -> net_device D * Z)
      (n : devs) : devs :=
    match probe with
    | None => n
    | Some dev =>
        let '(dev, r) := init dev in
        if negb (r =? 0) then n
        else match net_register_device (Some dev) n with
             | (n1, 0) =>
                 let set_last d := d <| ip := IP4 10 0 2 15 |> <| mask := IP4 255 255 255 0 |>
                                     <| gw := IP4 10 0 2 2 |> in
                 Devs (alter set_last (length (g_devs n)) (g_devs n1)) 1
             | (n1, _) => n1
             end
    end.
End Net.
#[global] Arguments devs : clear implicits.

(** ** Addresses as text *)

(** [net_parse_ip]: [None] when [*ok] is 0. A string is its bytes before NUL. *)
Fixpoint parse_loop (s : bytes) (idx digits : Z) (parts : list Z) : option (Z * Z * list Z) :=
  match s with
  | [] => Some (idx, digits, parts)
  | c :: s' =>
      if 4 <=? idx then Some (idx, digits, parts)
      else if (48 <=? c) && (c <=? 57) then
        let v := u32 (aget parts idx * 10 + (c - 48)) in
        if 255 <? v then None else parse_loop s' idx (digits + 1) (aset parts idx v)
      else if c =? 46 then
        if digits =? 0 then None else parse_loop s' (idx + 1) 0 parts
      else Some (idx, digits, parts)
  end.

Definition net_parse_ip (s : option bytes) : option Z :=
  match s with
  | None => None
  | Some s =>
      match parse_loop s 0 0 [0; 0; 0; 0] with
      | Some (idx, digits, parts) =>
          if negb (idx =? 3) || (digits =? 0) then None
          else Some (Z.lor (Z.lor (u32 (Z.shiftl (aget parts 0) 24)) (Z.shiftl (aget parts 1) 16))
                           (Z.lor (Z.shiftl (aget parts 2) 8) (aget parts 3)))
      | None => None
      end
  end.

(** The [tmp] loop: decimal digits of a byte, at most three. *)
Fixpoint dec_rev (fuel : nat) (v : Z) : bytes :=
  match fuel with
  | O => []
  | S f => if v =? 0 then [] else (48 + v mod 10) :: dec_rev f (v / 10)
  end.
Definition dec (v : Z) : bytes := if v =? 0 then [48] else rev (dec_rev 3 v).

(** The text written before the NUL. *)
Definition net_format_ip (a : Z) : bytes :=
  concat ((fun i => dec (Z.land (Z.shiftr a (i * 8)) 255) ++ (if i =? 0 then [] else [46]))
            <$> [3; 2; 1; 0]).

Definition hex_digit (d : Z) : Z := if d <? 10 then 48 + d else 97 + (d - 10).
Definition net_format_mac (m : bytes) : bytes :=
  concat ((fun i => [hex_digit (Z.land (Z.shiftr (aget m i) 4) 15); hex_digit (Z.land (aget m i) 15)]
                      ++ (if i =? ETH_ALEN - 1 then [] else [58])) <$> zrange 6).

Example parse_prefix : net_parse_ip (Some [49; 46; 50; 46; 51; 46; 52; 120]) = Some 16909060.
Proof. reflexivity. Qed.
Example parse_short : net_parse_ip (Some [49; 46; 50; 46; 51]) = None.
Proof. reflexivity. Qed.
Example format_default : net_format_ip (IP4 10 0 2 15) = [49; 48; 46; 48; 46; 50; 46; 49; 53].
Proof. reflexivity. Qed.

(** ** Lemmas *)
Lemma len_app p q : len (p ++ q) = len p + len q.
Proof. unfold len. rewrite length_app. lia. Qed.

Lemma len_nonneg p : 0 <= len p.
Proof. unfold len. lia. Qed.

Lemma len_be16 v : len (be16 v) = 2.
Proof. done. Qed.

Lemma len_be32 v : len (be32 v) = 4.
Proof. done. Qed.

(** The bytes of a two- and a four-digit number in base 256. *)
Lemma base256_2 a b : is_byte a -> is_byte b ->
  (a * 256 + b) mod 256 = b /\ (a * 256 + b) / 256 = a.
Proof.
  unfold is_byte. intros. split; symmetry.
  - apply (Z.mod_unique_pos _ _ a); lia.
  - apply (Z.div_unique_pos _ _ _ b); lia.
Qed.

Lemma mod_byte v : is_byte (v mod 256).
Proof. apply Z.mod_pos_bound. lia. Qed.
#[local] Hint Resolve mod_byte : core.

(** Swapping the bytes of a word and storing it little endian puts it on the
    wire in network order. *)
Lemma le16_htons v : le16 (net_htons v) = be16 v.
Proof.
  unfold le16, net_htons, be16.
  destruct (base256_2 (v mod 256) (v / 256 mod 256)) as [-> ->]; [done..|].
  by rewrite Zmod_mod.
Qed.

Lemma ld16_be a b p off : is_byte a -> is_byte b ->
  aget p off = a -> aget p (off + 1) = b -> net_ntohs (ld16 p off) = a * 256 + b.
Proof.
  intros Ha Hb E1 E2. unfold ld16, net_ntohs, net_htons. rewrite E1, E2.
  destruct (base256_2 b a) as [M Dv]; [done..|].
  replace (a + 256 * b) with (b * 256 + a) by lia. rewrite M, Dv.
  rewrite Z.mod_small by (unfold is_byte in *; lia). done.
Qed.


(** The same for the four bytes of a 32-bit word. *)
Lemma base256_4 a b c d : is_byte a -> is_byte b -> is_byte c -> is_byte d ->
  let x := a * 2 ^ 24 + b * 2 ^ 16 + c * 2 ^ 8 + d in
  x mod 256 = d /\ x / 2 ^ 8 mod 256 = c /\ x / 2 ^ 16 mod 256 = b /\ x / 2 ^ 24 mod 256 = a.
Proof.
  unfold is_byte. intros Ha Hb Hc Hd. cbv zeta. split_and!.
  - symmetry. apply (Z.mod_unique_pos _ _ (a * 2 ^ 16 + b * 2 ^ 8 + c)); lia.
  - rewrite <- (Z.div_unique_pos _ (2 ^ 8) (a * 2 ^ 16 + b * 2 ^ 8 + c) d) by lia.
    symmetry. apply (Z.mod_unique_pos _ _ (a * 2 ^ 8 + b)); lia.
  - rewrite <- (Z.div_unique_pos _ (2 ^ 16) (a * 2 ^ 8 + b) (c * 2 ^ 8 + d)) by lia.
    symmetry. apply (Z.mod_unique_pos _ _ a); lia.
  - rewrite <- (Z.div_unique_pos _ (2 ^ 24) a (b * 2 ^ 16 + c * 2 ^ 8 + d)) by lia.
    apply Z.mod_small. lia.
Qed.

Lemma le32_htonl v : le32 (net_htonl v) = be32 v.
Proof.
  unfold le32, be32.
  destruct (base256_4 (v mod 256) (v / 2 ^ 8 mod 256) (v / 2 ^ 16 mod 256) (v / 2 ^ 24 mod 256))
    as (E0 & E1 & E2 & E3); [done..|].
  unfold net_htonl. by rewrite E0, E1, E2, E3.
Qed.

Lemma be16_val v : 0 <= v < 2 ^ 16 -> v / 256 mod 256 * 256 + v mod 256 = v.
Proof.
  intros Hv. pose proof (Z_div_mod_eq_full v 256).
  rewrite (Z.mod_small (v / 256)); [lia|]. split; [apply Z.div_pos; lia|].
  apply Z.div_lt_upper_bound; lia.
Qed.

Lemma be32_val v : 0 <= v < 2 ^ 32 ->
  v / 2 ^ 24 mod 256 * 2 ^ 24 + v / 2 ^ 16 mod 256 * 2 ^ 16 + v / 2 ^ 8 mod 256 * 2 ^ 8 + v mod 256 = v.
Proof.
  intros Hv.
  assert (E1 : v / 2 ^ 16 = v / 2 ^ 8 / 256) by (rewrite Zdiv_Zdiv by lia; done).
  assert (E2 : v / 2 ^ 24 = v / 2 ^ 16 / 256) by (rewrite Zdiv_Zdiv by lia; done).
  pose proof (Z_div_mod_eq_full v 256). pose proof (Z_div_mod_eq_full (v / 2 ^ 8) 256).
  pose proof (Z_div_mod_eq_full (v / 2 ^ 16) 256).
  change (v / 256) with (v / 2 ^ 8) in *. rewrite <- E1 in *. rewrite <- E2 in *.
  rewrite (Z.mod_small (v / 2 ^ 24)); [lia|]. split; [apply Z.div_pos; lia|].
  apply Z.div_lt_upper_bound; lia.
Qed.

(** Reading a field another machine wrote. *)
Lemma ntohs_be v : 0 <= v < 2 ^ 16 -> net_ntohs (v / 256 mod 256 + 256 * (v mod 256)) = v.
Proof.
  intros Hv. unfold net_ntohs, net_htons.
  destruct (base256_2 (v mod 256) (v / 256 mod 256)) as [M Dv]; [done..|].
  rewrite (Z.add_comm _ (256 * _)), (Z.mul_comm 256), M, Dv, Zmod_mod. by apply be16_val.
Qed.

Lemma ntohl_be v : 0 <= v < 2 ^ 32 ->
  net_ntohl (v / 2 ^ 24 mod 256 + 2 ^ 8 * (v / 2 ^ 16 mod 256) + 2 ^ 16 * (v / 2 ^ 8 mod 256)
             + 2 ^ 24 * (v mod 256)) = v.
Proof.
  intros Hv.
  destruct (base256_4 (v mod 256) (v / 2 ^ 8 mod 256) (v / 2 ^ 16 mod 256) (v / 2 ^ 24 mod 256))
    as (E0 & E1 & E2 & E3); [done..|].
  unfold net_ntohl, net_htonl.
  replace (v / 2 ^ 24 mod 256 + 2 ^ 8 * (v / 2 ^ 16 mod 256) + 2 ^ 16 * (v / 2 ^ 8 mod 256)
             + 2 ^ 24 * (v mod 256)) with
    (v mod 256 * 2 ^ 24 + v / 2 ^ 8 mod 256 * 2 ^ 16 + v / 2 ^ 16 mod 256 * 2 ^ 8 + v / 2 ^ 24 mod 256) by lia.
  rewrite E0, E1, E2, E3. by apply be32_val.
Qed.

(** A copy over the front of a buffer. *)
Lemma blit0 (buf data : bytes) : Ring.blit buf 0 data = data ++ drop (length data) buf.
Proof. done. Qed.

Lemma take_blit0 (buf data : bytes) : take (length data) (Ring.blit buf 0 data) = data.
Proof. rewrite blit0. apply take_app_length. Qed.

Section NetLemmas.
  Context {D : Type} `{NicSpec D}.

(** The frames handed to the card of the default interface. *)
Definition wire (n : devs D) : list bytes :=
    match net_default n with Some d => sent (drv d) | None => [] end.

(** The address of the default interface. *)
Definition my_ip (n : devs D) : option Z := ip <$> net_default n.
Definition my_mac (n : devs D) : option bytes := mac <$> net_default n.

Lemma net_tx_wire f n :
    is_Some (net_default n) -> ETH_HDR_LEN <= len f <= ETH_FRAME_MAX ->
    wire (net_tx f n).1 = wire n ++ [f] /\
    my_ip (net_tx f n).1 = my_ip n /\ my_mac (net_tx f n).1 = my_mac n.
  Proof.
    intros [d Hd] Hf. unfold net_tx, wire, my_ip, my_mac, net_default in *.
    destruct (g_devs n) as [|d0 ds]; [done|]. injection Hd as ->.
    pose proof (send_sent d f Hf) as E. pose proof (send_mac d f). pose proof (send_ip d f).
    destruct (dev_send d f) as [d' r]. simpl in *. split_and!; congruence.
  Qed.

Lemma net_tx_default f n : is_Some (net_default n) <-> is_Some (net_default (net_tx f n).1).
  Proof.
    unfold net_tx, net_default. destruct (g_devs n) as [|d ds] eqn:E; [cbn; by rewrite E|].
    destruct (dev_send d f) as [d' r]. simpl. split; eauto.
  Qed.

Lemma drop_rx_same n :
    wire (drop_rx n) = wire n /\ my_ip (drop_rx n) = my_ip n /\ my_mac (drop_rx n) = my_mac n.
  Proof. unfold wire, my_ip, my_mac, drop_rx, mod_default, net_default.
    destruct (g_devs n) eqn:E; cbn; by rewrite ?E. Qed.
End NetLemmas.
#[export] Hint Resolve mod_byte : core.

(** A card that only records its frames. *)
Section LogNic.
Definition log_nic : Type := list bytes.

#[export] Instance log_nic_ops : NicOps log_nic := {
  dev_send d f := (d <| drv := drv d ++ [f] |>, 0)
}.

#[export] Program Instance log_nic_spec : NicSpec log_nic := { sent l := l }.
Next Obligation. done. Qed.
Next Obligation. done. Qed.
Next Obligation. done. Qed.
End LogNic.

End Net.
