(* ===== verification/Eth.v ===== *)
(** Ethernet framing and ARP (src/src/kernel/net/eth.c): the address cache of
    16 entries and the single slot for a frame that waits for an address. *)
From S2P Require Import Prelude Ring Net.

Module Eth.
Import Net.

Definition ARP_TABLE_SIZE : Z := 16.
Definition ARP_TIMEOUT_MS : Z := 300000.
Definition ETH_TYPE_ARP_REQ : Z := 1.
Definition ETH_TYPE_ARP_REP : Z := 2.
Definition ARP_HDR_LEN : Z := 28.

Record arp_entry := ArpEntry { a_ip : Z; a_mac : bytes; ts : Z; valid : Z }.
#[export] Instance eta_arp_entry : Eta arp_entry := fun r => ArpEntry (a_ip r) (a_mac r) (ts r) (valid r).
#[export] Instance inhabited_arp_entry : Inhabited arp_entry := populate (ArpEntry 0 (replicate 6 0) 0 0).

Definition BCAST_MAC : bytes := [255; 255; 255; 255; 255; 255].

(** The devices below, the cache and the pending slot. *)
Record eth D := EthState {
  ndevs : devs D;
  g_arp : list arp_entry;
  g_pending_frame : bytes;
  g_pending_len : Z;
  g_pending_ip : Z
}.
Arguments EthState {D}. Arguments ndevs {D}. Arguments g_arp {D}. Arguments g_pending_frame {D}.
Arguments g_pending_len {D}. Arguments g_pending_ip {D}.
#[export] Instance eta_eth D : Eta (eth D) := fun r =>
  EthState (ndevs r) (g_arp r) (g_pending_frame r) (g_pending_len r) (g_pending_ip r).

(** The statics at load time. *)
Definition eth_start {D} (n : devs D) : eth D :=
  EthState n (replicate 16 inhabitant) (replicate 1514 0) 0 0.

Section Eth.
  Context {D : Type} `{NicOps D}.

Definition tx (frame : bytes) (e : eth D) : eth D := e <| ndevs := (net_tx frame (ndevs e)).1 |>.

Definition eth_send_raw (dst_mac : bytes) (ethertype_be : Z) (payload : bytes) (e : eth D) : eth D :=
    match net_default (ndevs e) with
    | None => e
    | Some dev =>
        if ETH_FRAME_MAX <? u32 (ETH_HDR_LEN + len payload) then e
        else tx (dst_mac ++ mac dev ++ le16 ethertype_be ++ payload) e
    end.

(** [g_arp[i].valid && g_arp[i].ip == ip] *)
Definition arp_hit (a : Z) (x : arp_entry) : bool := negb (valid x =? 0) && (a_ip x =? a).

Definition arp_lookup (a : Z) (e : eth D) : option bytes :=
    (fun i => a_mac (g_arp e !!! i)) <$> find_index (arp_hit a) (g_arp e).

(** [arp_hdr_t] as [arp_request] and [arp_send_reply] fill it. *)
Definition arp_packet (op : Z) (smac : bytes) (sip : Z) (tmac : bytes) (tip : Z) : bytes :=
    le16 (net_htons 1) ++ le16 (net_htons ETH_TYPE_IP) ++ [ETH_ALEN; 4] ++ le16 (net_htons op) ++
    smac ++ le32 (net_htonl sip) ++ tmac ++ le32 (net_htonl tip).

Definition arp_request (a : Z) (e : eth D) : eth D :=
    match net_default (ndevs e) with
    | None => e
    | Some dev =>
        eth_send_raw BCAST_MAC (net_htons ETH_TYPE_ARP)
          (arp_packet ETH_TYPE_ARP_REQ (mac dev) (ip dev) (replicate 6 0) a) e
    end.

Definition arp_send_reply (dst_mac : bytes) (to_ip : Z) (e : eth D) : eth D :=
    match net_default (ndevs e) with
    | None => e
    | Some dev =>
        eth_send_raw dst_mac (net_htons ETH_TYPE_ARP)
          (arp_packet ETH_TYPE_ARP_REP (mac dev) (ip dev) dst_mac to_ip) e
    end.

Definition eth_output (dst_ip : Z) (frame : bytes) (e : eth D) : eth D :=
    if (len frame <? ETH_HDR_LEN) || (ETH_FRAME_MAX <? len frame) then e else
    match arp_lookup dst_ip e with
    | Some m => tx (Ring.blit frame 0 m) e
    | None =>
        arp_request dst_ip
          (e <| g_pending_frame := Ring.blit (g_pending_frame e) 0 frame |>
             <| g_pending_len := len frame |> <| g_pending_ip := dst_ip |>)
    end.

(** The second scan of [arp_update]: the entry with the smallest time stamp,
    the first of them when several tie. *)
Definition older (l : list arp_entry) (st : Z * option Z) (i : Z) : Z * option Z :=
    if ts (aget l i) <? st.1 then (ts (aget l i), Some i) else st.
Definition oldest (l : list arp_entry) : option Z :=
    (foldl (older l) (2 ^ 64 - 1, None) (zrange 16)).2.

Definition arp_update (now a : Z) (m : bytes) (e : eth D) : eth D :=
    match find_index (arp_hit a) (g_arp e) with
    | Some i => e <| g_arp := alter (fun x => x <| a_mac := m |> <| ts := now |>) i (g_arp e) |>
    | None =>
        let free := match find_index (fun x => valid x =? 0) (g_arp e) with
                    | Some i => Some (Z.of_nat i)
                    | None => oldest (g_arp e)
                    end in
        match free with
        | None => e
        | Some i => e <| g_arp := aset (g_arp e) i (ArpEntry a m now 1) |>
        end
    end.

Definition arp_flush_stale (now : Z) (e : eth D) : eth D :=
    e <| g_arp := (fun x => if negb (valid x =? 0) && (ARP_TIMEOUT_MS <? u64 (now - ts x))
                            then x <| valid := 0 |> else x) <$> g_arp e |>.

Definition arp_entry_at (i now : Z) (e : eth D) : option (Z * bytes * Z) :=
    if (i <? 0) || (ARP_TABLE_SIZE <=? i) || (valid (aget (g_arp e) i) =? 0) then None
    else let x := aget (g_arp e) i in Some (a_ip x, a_mac x, u64 (now - ts x)).

Definition arp_try_pending (e : eth D) : eth D :=
    if g_pending_len e =? 0 then e else
    match arp_lookup (g_pending_ip e) e with
    | None => e
    | Some m =>
        let e1 := e <| g_pending_frame := Ring.blit (g_pending_frame e) 0 m |> in
        let e2 := tx (take (Z.to_nat (g_pending_len e)) (g_pending_frame e1)) e1 in
        e2 <| g_pending_len := 0 |>
    end.

Definition arp_input (now : Z) (pkt : bytes) (e : eth D) : eth D :=
    if len pkt <? ARP_HDR_LEN then e
    else if negb (net_ntohs (ld16 pkt 0) =? 1) then e
    else if negb (net_ntohs (ld16 pkt 2) =? ETH_TYPE_IP) then e
    else if negb (aget pkt 4 =? ETH_ALEN) || negb (aget pkt 5 =? 4) then e
    else match net_default (ndevs e) with
    | None => e
    | Some dev =>
        let smac := Ring.slice pkt 8 6 in
        let sip := net_ntohl (ld32 pkt 14) in
        let tip := net_ntohl (ld32 pkt 24) in
        let op := net_ntohs (ld16 pkt 6) in
        if op =? ETH_TYPE_ARP_REQ then
          let e1 := arp_update now sip smac e in
          if tip =? ip dev then arp_send_reply smac sip e1 else e1
        else if op =? ETH_TYPE_ARP_REP then arp_try_pending (arp_update now sip smac e)
        else e
    end.
End Eth.

(** ** Invariant *)

(** Two valid entries never hold the same address; every entry has a whole
    hardware address and a time stamp below the sentinel of the oldest scan. *)
Record arp_ok (l : list arp_entry) : Prop := {
  arp_len : length l = 16%nat;
  arp_mac6 : Forall (fun x => length (a_mac x) = 6%nat) l;
  arp_bool : Forall (fun x => valid x = 0 \/ valid x = 1) l;
  arp_ts : Forall (fun x => 0 <= ts x < 2 ^ 64 - 1) l;
  arp_uniq i j x y : l !! i = Some x -> l !! j = Some y ->
    valid x <> 0 -> valid y <> 0 -> a_ip x = a_ip y -> i = j
}.

Record eth_ok {D} (e : eth D) : Prop := {
  ok_arp : arp_ok (g_arp e);
  ok_pend_buf : length (g_pending_frame e) = 1514%nat;
  ok_pend_len : g_pending_len e = 0 \/ ETH_HDR_LEN <= g_pending_len e <= ETH_FRAME_MAX;
  ok_mac : forall d, net_default (ndevs e) = Some d -> length (mac d) = 6%nat
}.

Lemma arp_hit_iff a x : arp_hit a x = true <-> valid x <> 0 /\ a_ip x = a.
Proof. unfold arp_hit. rewrite andb_true_iff, negb_true_iff, Z.eqb_neq, Z.eqb_eq. done. Qed.

Lemma arp_lookup_Some {D} a m (e : eth D) :
  arp_ok (g_arp e) ->
  arp_lookup a e = Some m <->
  exists i x, g_arp e !! i = Some x /\ arp_hit a x = true /\ a_mac x = m.
Proof.
  intros Hok. unfold arp_lookup. rewrite fmap_Some. split.
  - intros (i & (x & Hx & Hh & _)%find_index_Some & ->).
    exists i, x. by rewrite (list_lookup_total_correct _ _ _ Hx).
  - intros (i & x & Hx & Hh & <-). exists i.
    rewrite (list_lookup_total_correct _ _ _ Hx). split; [|done].
    apply find_index_Some. exists x. split_and!; [done..|]. intros j y Hj Hy.
    destruct (arp_hit a y) eqn:Hy'; [|done].
    apply arp_hit_iff in Hh as [? E1]. apply arp_hit_iff in Hy' as [? E2].
    assert (j = i) by (apply (arp_uniq _ Hok j i y x Hy Hx); congruence). lia.
Qed.

Lemma arp_lookup_None {D} a (e : eth D) :
  arp_lookup a e = None <-> Forall (fun x => arp_hit a x = false) (g_arp e).
Proof. unfold arp_lookup. rewrite fmap_None. apply find_index_None. Qed.

(** The oldest scan always finds an entry. *)
Lemma oldest_Some l :
  arp_ok l -> exists i, oldest l = Some i /\ 0 <= i < 16 /\
    forall j, 0 <= j < 16 -> ts (aget l i) <= ts (aget l j).
Proof.
  intros Hok. unfold oldest.
  assert (Hts : forall j, 0 <= j < 16 -> 0 <= ts (aget l j) < 2 ^ 64 - 1).
  { intros j Hj. apply (Forall_aget (fun x => 0 <= ts x < 2 ^ 64 - 1)); [apply Hok|].
    rewrite (arp_len _ Hok). lia. }
  assert (Hf : forall n, (n <= 16)%nat ->
    let st := foldl (older l) (2 ^ 64 - 1, None) (zrange n) in
    (forall j, 0 <= j < Z.of_nat n -> st.1 <= ts (aget l j)) /\
    match st.2 with
    | None => n = 0%nat
    | Some i => 0 <= i < Z.of_nat n /\ st.1 = ts (aget l i)
    end).
  { induction n as [|n IH]; intros Hn; [split; [lia|done]|].
    cbv zeta in *. rewrite zrange_S, foldl_app. cbn [foldl].
    specialize (IH ltac:(lia)) as [Hall Hm].
    set (st := foldl (older l) (2 ^ 64 - 1, None) (zrange n)) in *.
    unfold older. destruct (Z.ltb_spec (ts (aget l (Z.of_nat n))) st.1) as [Hlt|Hge].
    - cbn [fst snd]. split; [|split; [lia|done]].
      intros j Hj. destruct (Z.eq_dec j (Z.of_nat n)) as [->|]; [lia|].
      specialize (Hall j ltac:(lia)). lia.
    - split.
      + intros j Hj. destruct (Z.eq_dec j (Z.of_nat n)) as [->|]; [lia|]. apply Hall. lia.
      + destruct st as [v [i|]] eqn:Est; cbn [fst snd] in *.
        * split; [lia|]. apply Hm.
        * subst n. exfalso. change st with (2 ^ 64 - 1, @None Z) in Est.
          assert (v = 2 ^ 64 - 1) as -> by (by injection Est).
          specialize (Hts 0 ltac:(lia)). change (Z.of_nat 0) with 0 in Hge. lia. }
  specialize (Hf 16%nat ltac:(lia)). cbv zeta in Hf.
  destruct (foldl (older l) (2 ^ 64 - 1, None) (zrange 16)) as [v [i|]]; cbn [fst snd] in *.
  - destruct Hf as [Hall [Hi ->]]. exists i. split; [done|]. split; [lia|].
    intros j Hj. apply Hall. lia.
  - destruct Hf as [_ ?]. lia.
Qed.

(** Where [arp_update] writes: an entry already holding the address, a free
    one, or the oldest. *)
Lemma arp_update_at {D} now a m (e : eth D) :
  arp_ok (g_arp e) -> length m = 6%nat -> 0 <= now < 2 ^ 64 - 1 ->
  exists i, 0 <= i < 16 /\
    arp_update now a m e = e <| g_arp := aset (g_arp e) i (ArpEntry a m now 1) |> /\
    (forall j x, g_arp e !! j = Some x -> arp_hit a x = true -> j = Z.to_nat i) /\
    (valid (aget (g_arp e) i) <> 0 -> a_ip (aget (g_arp e) i) <> a ->
       Forall (fun x => valid x <> 0) (g_arp e) /\
       forall j, 0 <= j < 16 -> ts (aget (g_arp e) i) <= ts (aget (g_arp e) j)).
Proof.
  intros Hok Hm Hnow. unfold arp_update.
  destruct (find_index (arp_hit a) (g_arp e)) as [k|] eqn:Hf.
  - apply find_index_Some in Hf as (x & Hx & Hh & _). pose proof Hh as [Hv Ha]%arp_hit_iff.
    pose proof (lookup_lt_Some _ _ _ Hx) as Hk. rewrite (arp_len _ Hok) in Hk.
    assert (Eg : aget (g_arp e) (Z.of_nat k) = x).
    { unfold aget. rewrite Nat2Z.id. by apply list_lookup_total_correct. }
    exists (Z.of_nat k). split; [lia|]. split; [|split].
    + assert (El : alter (fun y => y <| a_mac := m |> <| ts := now |>) k (g_arp e) =
                   aset (g_arp e) (Z.of_nat k) (ArpEntry a m now 1)); [|by rewrite El].
      unfold aset. rewrite Nat2Z.id. apply list_eq. intros j. destruct (decide (j = k)) as [->|Hne].
      * rewrite list_lookup_alter_eq, Hx, list_lookup_insert_eq by (by eapply lookup_lt_Some).
        cbn. f_equal. destruct x as [xa xm xt xv]. cbn in *.
        assert (xv = 0 \/ xv = 1) as [?|?] by exact (Forall_lookup_1 _ _ _ _ (arp_bool _ Hok) Hx); congruence.
      * by rewrite list_lookup_alter_ne, list_lookup_insert_ne by done.
    + intros j y Hy Hyh. apply arp_hit_iff in Hyh as [Hyv Hya]. rewrite Nat2Z.id.
      apply (arp_uniq _ Hok j k y x); congruence.
    + rewrite Eg. done.
  - apply find_index_None in Hf. rewrite Forall_forall in Hf.
    assert (Hno : forall j y, g_arp e !! j = Some y -> arp_hit a y = true -> False).
    { intros j y Hy Hh. rewrite (Hf y) in Hh; [done|]. by eapply list_elem_of_lookup_2. }
    destruct (find_index (fun x => valid x =? 0) (g_arp e)) as [k|] eqn:Hfree.
    + apply find_index_Some in Hfree as (x & Hx & Hv & _). apply Z.eqb_eq in Hv.
      pose proof (lookup_lt_Some _ _ _ Hx) as Hk. rewrite (arp_len _ Hok) in Hk.
      exists (Z.of_nat k). split; [lia|]. split; [done|]. split; [intros j y ??; exfalso; eauto|].
      unfold aget. rewrite Nat2Z.id, (list_lookup_total_correct _ _ _ Hx). done.
    + destruct (oldest_Some _ Hok) as (i & -> & Hi & Hmin).
      exists i. split; [done|]. split; [done|]. split; [intros j y ??; exfalso; eauto|].
      intros _ _. split; [|done]. apply find_index_None in Hfree.
      eapply Forall_impl; [exact Hfree|]. intros x Hx. by apply Z.eqb_neq.
Qed.

Lemma arp_ok_set l i a m now :
  arp_ok l -> 0 <= i < 16 -> length m = 6%nat -> 0 <= now < 2 ^ 64 - 1 ->
  (forall j x, l !! j = Some x -> arp_hit a x = true -> j = Z.to_nat i) ->
  arp_ok (aset l i (ArpEntry a m now 1)).
Proof.
  intros Hok Hi Hm Hnow Hu. split.
  - rewrite length_aset. apply Hok.
  - apply Forall_aset; [apply Hok|done].
  - apply Forall_aset; [apply Hok|by right].
  - apply Forall_aset; [apply Hok|done].
  - unfold aset. intros j k x y Hj Hk Hvx Hvy E.
    assert (Hlt : (Z.to_nat i < length l)%nat) by (rewrite (arp_len _ Hok); lia).
    destruct (decide (j = Z.to_nat i)) as [->|Hji]; destruct (decide (k = Z.to_nat i)) as [->|Hki].
    + done.
    + rewrite list_lookup_insert_eq in Hj by done. injection Hj as <-.
      rewrite list_lookup_insert_ne in Hk by done. symmetry. apply (Hu k y Hk).
      apply arp_hit_iff. by split.
    + rewrite list_lookup_insert_eq in Hk by done. injection Hk as <-.
      rewrite list_lookup_insert_ne in Hj by done. apply (Hu j x Hj).
      apply arp_hit_iff. by split.
    + rewrite list_lookup_insert_ne in Hj, Hk by done. by apply (arp_uniq _ Hok j k x y).
Qed.

(** After an update the address is known, and no other known address changes
    unless a full table gave up its oldest entry. *)
Lemma arp_update_spec {D} now a m (e : eth D) :
  arp_ok (g_arp e) -> length m = 6%nat -> 0 <= now < 2 ^ 64 - 1 ->
  arp_ok (g_arp (arp_update now a m e)) /\
  arp_lookup a (arp_update now a m e) = Some m /\
  exists old,
    (forall b, b <> a -> arp_lookup b (arp_update now a m e) =
       if decide (Some b = old) then None else arp_lookup b e) /\
    (forall c, old = Some c -> c <> a ->
       Forall (fun x => valid x <> 0) (g_arp e) /\
       exists i, 0 <= i < 16 /\ a_ip (aget (g_arp e) i) = c /\
         forall j, 0 <= j < 16 -> ts (aget (g_arp e) i) <= ts (aget (g_arp e) j)).
Proof.
  intros Hok Hm Hnow.
  destruct (arp_update_at now a m e Hok Hm Hnow) as (i & Hi & -> & Hu & Hev).
  pose proof (arp_ok_set _ i a m now Hok Hi Hm Hnow Hu) as Hok'.
  assert (Hlt : (Z.to_nat i < length (g_arp e))%nat) by (rewrite (arp_len _ Hok); lia).
  split; [done|]. split.
  { apply arp_lookup_Some; [done|]. exists (Z.to_nat i), (ArpEntry a m now 1).
    split; [cbn; unfold aset; by rewrite list_lookup_insert_eq|]. split; [|done]. apply arp_hit_iff. done. }
  set (x0 := aget (g_arp e) i).
  assert (Hx0 : g_arp e !! Z.to_nat i = Some x0) by (by apply list_lookup_lookup_total_lt).
  exists (if valid x0 =? 0 then None else Some (a_ip x0)).
  split.
  2: { intros c Ec Hc. destruct (Z.eqb_spec (valid x0) 0) as [|Hv]; [done|]. injection Ec as <-.
       destruct (Hev Hv Hc) as [Hfull Hmin]. split; [done|]. by exists i. }
  intros b Hb.
  apply option_eq. intros m'. rewrite arp_lookup_Some by done. cbn.
  assert (Hold : Some b = (if valid x0 =? 0 then None else Some (a_ip x0)) <-> arp_hit b x0 = true).
  { rewrite arp_hit_iff. destruct (Z.eqb_spec (valid x0) 0); [naive_solver|]. naive_solver. }
  case_decide as Eo.
  - split; [|done]. intros (j & x & Hj & Hh & _). apply Hold in Eo. unfold aset in Hj.
    destruct (decide (j = Z.to_nat i)) as [->|Hne].
    + rewrite list_lookup_insert_eq in Hj by done. injection Hj as <-.
      apply arp_hit_iff in Hh as [_ Ha]. cbn in Ha. congruence.
    + rewrite list_lookup_insert_ne in Hj by done. apply arp_hit_iff in Hh as [? ?]. apply arp_hit_iff in Eo as [? ?].
      exfalso. apply Hne. apply (arp_uniq _ Hok j (Z.to_nat i) x x0); congruence.
  - rewrite arp_lookup_Some by done. unfold aset. split.
    + intros (j & x & Hj & Hh & Hx). exists j, x. split; [|done].
      destruct (decide (j = Z.to_nat i)) as [->|Hne].
      * rewrite list_lookup_insert_eq in Hj by done. injection Hj as <-.
        apply arp_hit_iff in Hh as [_ Ha]. cbn in Ha. congruence.
      * by rewrite list_lookup_insert_ne in Hj by done.
    + intros (j & x & Hj & Hh & Hx). exists j, x. split; [|done].
      rewrite list_lookup_insert_ne; [done|]. intros E. subst j. apply Eo, Hold. congruence.
Qed.

(** ** ARP packets on the wire *)
Lemma length6 (m : bytes) : length m = 6%nat -> exists a b c d e f, m = [a; b; c; d; e; f].
Proof.
  intros Hm. do 6 (destruct m as [|? m]; [done|]). destruct m; [|done]. repeat eexists.
Qed.

Lemma arp_packet_fields op smac sip tmac tip :
  length smac = 6%nat -> length tmac = 6%nat ->
  0 <= op < 2 ^ 16 -> 0 <= sip < 2 ^ 32 -> 0 <= tip < 2 ^ 32 ->
  let p := arp_packet op smac sip tmac tip in
  len p = ARP_HDR_LEN /\ net_ntohs (ld16 p 0) = 1 /\ net_ntohs (ld16 p 2) = ETH_TYPE_IP /\
  aget p 4 = ETH_ALEN /\ aget p 5 = 4 /\ net_ntohs (ld16 p 6) = op /\
  Ring.slice p 8 6 = smac /\ net_ntohl (ld32 p 14) = sip /\ net_ntohl (ld32 p 24) = tip.
Proof.
  intros Hs Ht Hop Hsip Htip. cbv zeta.
  destruct (length6 smac Hs) as (s0 & s1 & s2 & s3 & s4 & s5 & ->).
  destruct (length6 tmac Ht) as (t0 & t1 & t2 & t3 & t4 & t5 & ->).
  unfold arp_packet. rewrite !le16_htons, !le32_htonl.
  refine (conj eq_refl (conj eq_refl (conj eq_refl (conj eq_refl (conj eq_refl (conj _ (conj eq_refl (conj _ _)))))))).
  - exact (ntohs_be op Hop).
  - exact (ntohl_be sip Hsip).
  - exact (ntohl_be tip Htip).
Qed.

Section EthProofs.
  Context {D : Type} `{NicSpec D}.

Definition ewire (e : eth D) : list bytes := wire (ndevs e).

Lemma tx_spec f (e : eth D) :
    eth_ok e -> is_Some (net_default (ndevs e)) -> ETH_HDR_LEN <= len f <= ETH_FRAME_MAX ->
    eth_ok (tx f e) /\ ewire (tx f e) = ewire e ++ [f] /\
    is_Some (net_default (ndevs (tx f e))) /\
    my_ip (ndevs (tx f e)) = my_ip (ndevs e) /\ my_mac (ndevs (tx f e)) = my_mac (ndevs e).
  Proof.
    intros Hok Hd Hf. destruct (net_tx_wire f (ndevs e) Hd Hf) as (Hw & Hi & Hm).
    split; [|split; [exact Hw|split; [by apply net_tx_default|done]]].
    split; [apply (ok_arp _ Hok)|apply (ok_pend_buf _ Hok)|apply (ok_pend_len _ Hok)|].
    intros d' Hd'. destruct Hd as [d Hd]. pose proof (ok_mac _ Hok d Hd) as Hl.
    cbn in Hd'. unfold my_mac in Hm. rewrite Hd, Hd' in Hm. cbn in Hm. congruence.
  Qed.

(** The broadcast request for [a]. *)
Definition request_frame (smac : bytes) (sip a : Z) : bytes :=
    BCAST_MAC ++ smac ++ be16 ETH_TYPE_ARP ++ arp_packet ETH_TYPE_ARP_REQ smac sip (replicate 6 0) a.

Lemma len_request_frame smac sip a : length smac = 6%nat -> len (request_frame smac sip a) = 42.
  Proof.
    intros Hs. unfold request_frame, arp_packet. rewrite !len_app. unfold len at 2 8. rewrite Hs. done.
  Qed.

Lemma arp_request_spec a (e : eth D) d :
    eth_ok e -> net_default (ndevs e) = Some d ->
    arp_request a e = tx (request_frame (mac d) (ip d) a) e.
  Proof.
    intros Hok Hd. unfold arp_request. rewrite Hd. unfold eth_send_raw. rewrite Hd.
    pose proof (ok_mac _ Hok d Hd) as Hl.
    assert (E : len (arp_packet ETH_TYPE_ARP_REQ (mac d) (ip d) (replicate 6 0) a) = 28).
    { unfold arp_packet. rewrite !len_app. unfold len at 5. rewrite Hl. done. }
    rewrite E. cbn [Z.ltb]. change (ETH_FRAME_MAX <? u32 (ETH_HDR_LEN + 28)) with false. cbv iota.
    by rewrite le16_htons.
  Qed.

Lemma len_blit0 (f m : bytes) : length m = 6%nat -> ETH_HDR_LEN <= len f -> len (Ring.blit f 0 m) = len f.
  Proof.
    intros Hm Hf. unfold len, ETH_HDR_LEN in *. rewrite Ring.length_blit; [done|lia|lia].
  Qed.

Lemma eth_output_hit dst f m (e : eth D) :
    arp_lookup dst e = Some m -> ETH_HDR_LEN <= len f <= ETH_FRAME_MAX ->
    eth_output dst f e = tx (Ring.blit f 0 m) e.
  Proof.
    intros Hl Hf. unfold eth_output. rewrite Hl, orb_false_intro; [done|apply Z.ltb_ge; lia..].
  Qed.

Lemma arp_lookup_mac a m (e : eth D) : eth_ok e -> arp_lookup a e = Some m -> length m = 6%nat.
  Proof.
    intros Hok (i & x & Hx & _ & <-)%arp_lookup_Some; [|apply Hok].
    exact (Forall_lookup_1 _ _ _ _ (arp_mac6 _ (ok_arp _ Hok)) Hx).
  Qed.

Lemma eth_output_miss dst f (e : eth D) d :
    eth_ok e -> net_default (ndevs e) = Some d ->
    arp_lookup dst e = None -> ETH_HDR_LEN <= len f <= ETH_FRAME_MAX ->
    let e1 := eth_output dst f e in
    eth_ok e1 /\ g_arp e1 = g_arp e /\ is_Some (net_default (ndevs e1)) /\
    ewire e1 = ewire e ++ [request_frame (mac d) (ip d) dst] /\
    take (Z.to_nat (g_pending_len e1)) (g_pending_frame e1) = f /\
    g_pending_len e1 = len f /\ g_pending_ip e1 = dst.
  Proof.
    intros Hok Hd Hl Hf. cbv zeta. unfold eth_output.
    rewrite Hl, orb_false_intro by (apply Z.ltb_ge; lia).
    set (e0 := e <| g_pending_frame := _ |> <| g_pending_len := _ |> <| g_pending_ip := _ |>).
    assert (Hok0 : eth_ok e0).
    { split; cbn; [apply Hok| |by right|apply Hok].
      rewrite Ring.length_blit; [apply Hok|lia|]. rewrite (ok_pend_buf _ Hok).
      unfold ETH_FRAME_MAX, len in Hf. lia. }
    rewrite (arp_request_spec dst e0 d Hok0 Hd).
    assert (Hlen : ETH_HDR_LEN <= len (request_frame (mac d) (ip d) dst) <= ETH_FRAME_MAX).
    { rewrite len_request_frame by (by apply (ok_mac _ Hok)). done. }
    destruct (tx_spec _ e0 Hok0 ltac:(by eexists) Hlen) as (Hok1 & Hw & Hd1 & _).
    split; [done|]. split; [done|]. split; [done|]. split; [exact Hw|]. split; [|done].
    cbn. unfold len. rewrite Nat2Z.id. apply take_blit0.
  Qed.

(** An ARP reply: learn the address, then send what waited for it. *)
Lemma arp_input_reply now smac sip tmac tip (e : eth D) :
    is_Some (net_default (ndevs e)) -> length smac = 6%nat -> length tmac = 6%nat ->
    0 <= sip < 2 ^ 32 -> 0 <= tip < 2 ^ 32 ->
    arp_input now (arp_packet ETH_TYPE_ARP_REP smac sip tmac tip) e =
    arp_try_pending (arp_update now sip smac e).
  Proof.
    intros [d Hd] Hs Ht Hsip Htip.
    destruct (arp_packet_fields ETH_TYPE_ARP_REP smac sip tmac tip Hs Ht ltac:(done) Hsip Htip)
      as (E0 & E1 & E2 & E3 & E4 & E5 & E6 & E7 & E8).
    unfold arp_input. rewrite E0, E1, E2, E3, E4, E5, E6, E7, Hd. done.
  Qed.

Lemma arp_update_frame now a m (e : eth D) :
    ndevs (arp_update now a m e) = ndevs e /\
    g_pending_frame (arp_update now a m e) = g_pending_frame e /\
    g_pending_len (arp_update now a m e) = g_pending_len e /\
    g_pending_ip (arp_update now a m e) = g_pending_ip e.
  Proof. unfold arp_update. repeat case_match; done. Qed.

Lemma arp_update_ok now a m (e : eth D) :
    eth_ok e -> length m = 6%nat -> 0 <= now < 2 ^ 64 - 1 -> eth_ok (arp_update now a m e).
  Proof.
    intros Hok Hm Hnow. destruct (arp_update_frame now a m e) as (Ed & Ef & El & _).
    split; [apply arp_update_spec; [apply Hok|done..]|by rewrite Ef; apply Hok|by rewrite El; apply Hok|].
    rewrite Ed. apply Hok.
  Qed.

Lemma arp_try_pending_spec (e : eth D) m :
    eth_ok e -> is_Some (net_default (ndevs e)) ->
    g_pending_len e <> 0 -> arp_lookup (g_pending_ip e) e = Some m ->
    let e1 := arp_try_pending e in
    eth_ok e1 /\ g_arp e1 = g_arp e /\ g_pending_len e1 = 0 /\ is_Some (net_default (ndevs e1)) /\
    ewire e1 = ewire e ++ [Ring.blit (take (Z.to_nat (g_pending_len e)) (g_pending_frame e)) 0 m].
  Proof.
    intros Hok Hd Hp Hl. cbv zeta. unfold arp_try_pending.
    rewrite (proj2 (Z.eqb_neq _ _) Hp), Hl.
    pose proof (arp_lookup_mac _ _ _ Hok Hl) as Hm.
    destruct (ok_pend_len _ Hok) as [|Hpl]; [done|]. pose proof (ok_pend_buf _ Hok) as Hpb.
    set (e0 := e <| g_pending_frame := _ |>).
    assert (Hbl : length (Ring.blit (g_pending_frame e) 0 m) = 1514%nat).
    { rewrite Ring.length_blit; [done|lia|]. rewrite Hm, Hpb. lia. }
    assert (Hok0 : eth_ok e0) by (split; cbn; [apply Hok|done|apply Hok..]).
    unfold ETH_HDR_LEN, ETH_FRAME_MAX in *.
    assert (Hlen : len (take (Z.to_nat (g_pending_len e)) (g_pending_frame e0)) = g_pending_len e).
    { unfold len. cbn. rewrite length_take, Hbl. lia. }
    destruct (tx_spec (take (Z.to_nat (g_pending_len e)) (g_pending_frame e0)) e0 Hok0 Hd) as (Hok1 & Hw & Hd1 & _).
    { unfold ETH_HDR_LEN, ETH_FRAME_MAX. lia. }
    split; [|split; [done|split; [done|split; [done|]]]].
    - split; cbn; [apply Hok1|apply Hok1|by left|apply Hok1].
    - unfold ewire in *. cbn in *. rewrite Hw. do 2 f_equal. rewrite !blit0.
      rewrite take_app, Hm, (take_ge m), take_drop_commute by lia. do 3 f_equal. lia.
  Qed.

(** C18: address resolution. A frame for an unknown address is held back and one
    broadcast request goes to the card; the reply of that address has the held
    frame handed to the card for the hardware address it names, exactly once,
    and every later frame for that address is handed over at once. The cache invariant (at most one valid entry
    per address) is kept throughout. *)
Theorem arp_resolution (e : eth D) d dst frame now smac tmac tip :
    eth_ok e -> net_default (ndevs e) = Some d ->
    arp_lookup dst e = None -> ETH_HDR_LEN <= len frame <= ETH_FRAME_MAX ->
    length smac = 6%nat -> length tmac = 6%nat ->
    0 <= dst < 2 ^ 32 -> 0 <= tip < 2 ^ 32 -> 0 <= now < 2 ^ 64 - 1 ->
    let e1 := eth_output dst frame e in
    let e2 := arp_input now (arp_packet ETH_TYPE_ARP_REP smac dst tmac tip) e1 in
    ewire e1 = ewire e ++ [request_frame (mac d) (ip d) dst] /\
    ewire e2 = ewire e1 ++ [Ring.blit frame 0 smac] /\
    arp_lookup dst e2 = Some smac /\ g_pending_len e2 = 0 /\ eth_ok e2 /\
    forall f, ETH_HDR_LEN <= len f <= ETH_FRAME_MAX ->
      ewire (eth_output dst f e2) = ewire e2 ++ [Ring.blit f 0 smac].
  Proof.
    intros Hok Hd Hl Hf Hs Ht Hdst Htip Hnow. cbv zeta.
    destruct (eth_output_miss dst frame e d Hok Hd Hl Hf) as (Hok1 & Ea & Hd1 & Hw1 & Hfr & Hpl & Hpi).
    set (e1 := eth_output dst frame e) in *. clearbody e1.
    rewrite arp_input_reply by done.
    destruct (arp_update_frame now dst smac e1) as (Fd & Ff & Fl & Fi).
    pose proof (arp_update_ok now dst smac e1 Hok1 Hs Hnow) as Hok2.
    destruct (arp_update_spec now dst smac e1 (ok_arp _ Hok1) Hs Hnow) as (_ & Hlk & _).
    set (e2 := arp_update now dst smac e1) in *. clearbody e2.
    destruct (arp_try_pending_spec e2 smac Hok2) as (Hok3 & Ea3 & Hp3 & Hd3 & Hw3).
    { by rewrite Fd. }
    { rewrite Fl, Hpl. unfold ETH_HDR_LEN in Hf. lia. }
    { by rewrite Fi, Hpi. }
    set (e3 := arp_try_pending e2) in *. clearbody e3.
    assert (Hlk3 : arp_lookup dst e3 = Some smac) by (unfold arp_lookup; rewrite Ea3; exact Hlk).
    split; [exact Hw1|]. split.
    { rewrite Hw3, Ff, Fl, Hfr. unfold ewire. by rewrite Fd. }
    split; [done|]. split; [done|]. split; [done|]. intros f Hflen.
    rewrite (eth_output_hit dst f smac e3 Hlk3 Hflen).
    apply tx_spec; [done..|]. rewrite len_blit0; [done..|by apply Hflen].
  Qed.
End EthProofs.

(** An interface with an empty cache and one card. *)
Definition demo_dev (m : bytes) (a : Z) : net_device log_nic :=
  NetDevice [] m a 4294967040 0 0 0 0 0 0 0 0 [].
Definition demo_eth (m : bytes) (a : Z) : eth log_nic := eth_start (Devs [demo_dev m a] 1).

Lemma eth_start_ok {D} (n : devs D) :
  (forall d, net_default n = Some d -> length (mac d) = 6%nat) -> eth_ok (eth_start n).
Proof.
  intros Hm. split; [split|..]; cbn [eth_start g_arp g_pending_frame g_pending_len ndevs].
  - apply length_replicate.
  - by apply Forall_replicate.
  - apply Forall_replicate. by left.
  - by apply Forall_replicate.
  - intros i j x y [-> _]%lookup_replicate _ Hv _ _. done.
  - apply length_replicate.
  - by left.
  - done.
Qed.

Lemma arp_resolution_witness :
  let e := demo_eth [2; 0; 0; 0; 0; 1] 167772687 in
  let e1 := eth_output 167772674 (replicate 20 7) e in
  let e2 := arp_input 5 (arp_packet ETH_TYPE_ARP_REP [2; 0; 0; 0; 0; 2] 167772674 [2; 0; 0; 0; 0; 1] 167772687) e1 in
  ewire e2 = ewire e1 ++ [[2; 0; 0; 0; 0; 2] ++ replicate 14 7].
Proof.
  cbv zeta.
  refine (proj1 (proj2 (arp_resolution (demo_eth [2; 0; 0; 0; 0; 1] 167772687)
    (demo_dev [2; 0; 0; 0; 0; 1] 167772687) 167772674 (replicate 20 7) 5 [2; 0; 0; 0; 0; 2]
    [2; 0; 0; 0; 0; 1] 167772687 _ eq_refl eq_refl _ eq_refl eq_refl _ _ _))); [|done..].
  apply eth_start_ok. intros d [= <-]. done.
Defined.
End Eth.
