(* ===== verification/Ip.v ===== *)
(** IPv4 output and the Internet checksum (src/src/kernel/net/ip.c, first half;
    the receive path is in NetIn.v). *)
From S2P Require Import Prelude Ring Net Eth.

Module Ip.
Import Net Eth.

(** ** ip_checksum *)

(** The sum over big-endian 16-bit words, an odd last byte being a high byte. *)
Fixpoint word_sum (p : bytes) (sum : Z) : Z :=
  match p with
  | a :: b :: r => word_sum r (u32 (sum + Z.lor (Z.shiftl a 8) b))
  | [a] => u32 (sum + Z.shiftl a 8)
  | [] => sum
  end.

(** [while (sum >> 16) ...]; two rounds are enough for 32 bits
    ([fold_carry_done]). *)
Fixpoint fold_carry (fuel : nat) (sum : Z) : Z :=
  if Z.shiftr sum 16 =? 0 then sum else
  match fuel with
  | O => sum
  | S f => fold_carry f (u32 (Z.land sum 65535 + Z.shiftr sum 16))
  end.

Definition ip_checksum (p : bytes) : Z :=
  net_htons (u16 (Z.lnot (fold_carry 2 (word_sum p 0)))).

(** ** State *)

(** The link below, the identification counter and the ping statistics. *)
Record ipst D := IpState {
  link : eth D;
  g_ip_id : Z;
  g_ping_sent : Z; g_ping_recv : Z; g_ping_unreach : Z; g_ping_echo_req : Z;
  g_ping_last_send_ms : Z; g_ping_last_rtt : Z; g_ping_total_rtt : Z;
  g_ping_seq : Z; g_ping_id : Z
}.
Arguments IpState {D}. Arguments link {D}. Arguments g_ip_id {D}. Arguments g_ping_sent {D}.
Arguments g_ping_recv {D}. Arguments g_ping_unreach {D}. Arguments g_ping_echo_req {D}.
Arguments g_ping_last_send_ms {D}. Arguments g_ping_last_rtt {D}. Arguments g_ping_total_rtt {D}.
Arguments g_ping_seq {D}. Arguments g_ping_id {D}.
#[export] Instance eta_ipst D : Eta (ipst D) := fun r =>
  IpState (link r) (g_ip_id r) (g_ping_sent r) (g_ping_recv r) (g_ping_unreach r) (g_ping_echo_req r)
    (g_ping_last_send_ms r) (g_ping_last_rtt r) (g_ping_total_rtt r) (g_ping_seq r) (g_ping_id r).

Definition ip_start {D} (e : eth D) : ipst D := IpState e 1 0 0 0 0 0 0 0 0 4660.

Section Ip.
  Context {D : Type} `{NicOps D}.

Definition ip_dev (s : ipst D) : option (net_device D) := net_default (ndevs (link s)).

(** [ip_hdr_t] as [ip_send] fills it, [n] being the length of the payload. *)
Definition ip_header (id n proto src dst csum : Z) : bytes :=
    [69; 0] ++ le16 (net_htons (u16 (IP_HDR_LEN + n))) ++ le16 (net_htons id) ++ le16 0 ++
    [64; proto] ++ le16 csum ++ le32 (net_htonl src) ++ le32 (net_htonl dst).

Definition ip_packet (id proto src dst : Z) (payload : bytes) : bytes :=
    ip_header id (len payload) proto src dst
      (ip_checksum (ip_header id (len payload) proto src dst 0)) ++ payload.

Definition ip_send (dst proto : Z) (payload : bytes) (s : ipst D) : ipst D * Z :=
    match ip_dev s with
    | None => (s, -1)
    | Some dev =>
        if MTU <? u32 (IP_HDR_LEN + len payload) then (s, -1) else
        let frame := replicate 6 0 ++ mac dev ++ le16 (net_htons ETH_TYPE_IP) ++
                     ip_packet (g_ip_id s) proto (ip dev) dst payload in
        (s <| g_ip_id := u16 (g_ip_id s + 1) |> <| link := eth_output dst frame (link s) |>, 0)
    end.

Definition icmp_reset_stats (s : ipst D) : ipst D :=
    s <| g_ping_sent := 0 |> <| g_ping_recv := 0 |> <| g_ping_unreach := 0 |>
      <| g_ping_last_rtt := 0 |> <| g_ping_total_rtt := 0 |>.

Definition icmp_stats (s : ipst D) : Z * Z * Z * Z * Z :=
    (g_ping_sent s, g_ping_recv s, g_ping_unreach s, g_ping_last_rtt s, g_ping_total_rtt s).

Definition icmp_echo_requests (s : ipst D) : Z := g_ping_echo_req s.

(** [icmp_hdr_t] and what follows it. *)
Definition icmp_packet (typ code csum id seq : Z) (body : bytes) : bytes :=
    [typ; code] ++ le16 csum ++ le16 (net_htons id) ++ le16 (net_htons seq) ++ body.

Definition icmp_send_ping (now dst : Z) (s : ipst D) : ipst D :=
    let seq := u16 (g_ping_seq s + 1) in
    let s1 := s <| g_ping_seq := seq |> in
    let body := replicate 32 66 in
    let c := ip_checksum (icmp_packet 8 0 0 (g_ping_id s) seq body) in
    let '(s2, r) := ip_send dst IP_PROTO_ICMP (icmp_packet 8 0 c (g_ping_id s) seq body) s1 in
    if r =? 0 then s2 <| g_ping_sent := u64 (g_ping_sent s2 + 1) |> <| g_ping_last_send_ms := now |>
    else s2.
End Ip.

(** ** The checksum against its definition in RFC 1071 *)

(** Ones'-complement addition of 16-bit words. *)
Definition ones_add (a b : Z) : Z := if a + b <=? 65535 then a + b else a + b - 65535.

(** The 16-bit words of a byte string, the last padded with a zero byte. *)
Fixpoint words (p : bytes) : list Z :=
  match p with
  | a :: b :: r => a * 256 + b :: words r
  | [a] => [a * 256]
  | [] => []
  end.

Definition rfc1071 (p : bytes) : Z := 65535 - foldl ones_add 0 (words p).

(** [r] is the ones'-complement form of [S]: congruent modulo 65535, and zero
    only for zero. *)
Definition canon (S r : Z) : Prop :=
  0 <= r <= 65535 /\ (exists k, S = r + k * 65535) /\ (r = 0 <-> S = 0).

Lemma canon_inj S r1 r2 : canon S r1 -> canon S r2 -> r1 = r2.
Proof.
  intros (H1 & (k1 & E1) & Z1) (H2 & (k2 & E2) & Z2).
  assert (r1 - r2 = (k2 - k1) * 65535) by lia.
  assert (-2 < k2 - k1 < 2) by lia.
  assert (k2 - k1 = -1 \/ k2 - k1 = 0 \/ k2 - k1 = 1) as [E|[E|E]] by lia; rewrite E in *; [|lia|].
  - assert (r1 = 0) by lia. assert (r2 = 65535) by lia. destruct (proj1 Z1); [done|]. lia.
  - assert (r2 = 0) by lia. assert (r1 = 65535) by lia. destruct (proj1 Z2); [done|]. lia.
Qed.

Lemma ones_add_canon S r w : 0 <= S -> 0 <= w <= 65535 -> canon S r -> canon (S + w) (ones_add r w).
Proof.
  intros HS Hw (Hr & (k & E) & Z). unfold ones_add.
  destruct (Z.leb_spec (r + w) 65535); (split; [lia|]; split; [|lia]).
  - exists k. lia.
  - exists (k + 1). lia.
Qed.

Lemma foldl_ones_add l : forall S r,
  Forall (fun w => 0 <= w <= 65535) l -> 0 <= S -> canon S r ->
  canon (S + zsum id l) (foldl ones_add r l).
Proof.
  induction l as [|w l IH]; intros S r Hl HS Hc; cbn [foldl zsum foldr].
  - replace (S + zsum id []) with S by (unfold zsum; simpl; lia). done.
  - apply Forall_cons in Hl as [Hw Hl].
    replace (S + zsum id (w :: l)) with (S + w + zsum id l) by (unfold zsum, id; simpl; lia).
    apply IH; [done|lia|by apply ones_add_canon].
Qed.

Lemma pair_ind (P : bytes -> Prop) :
  P [] -> (forall a, P [a]) -> (forall a b r, P r -> P (a :: b :: r)) -> forall p, P p.
Proof.
  intros H0 H1 H2. enough (Hn : forall n p, (length p <= n)%nat -> P p) by eauto.
  induction n as [|n IH]; intros [|a [|b p]] Hn; simpl in Hn; try done; [lia..|].
  apply H2, IH. lia.
Qed.

Lemma words_range p : Forall is_byte p -> Forall (fun w => 0 <= w <= 65535) (words p).
Proof.
  unfold is_byte. induction p as [|a|a b r IH] using pair_ind; intros Hp; simpl.
  - constructor.
  - apply Forall_cons in Hp as [Ha _]. constructor; [lia|constructor].
  - apply Forall_cons in Hp as [Ha [Hb Hr]%Forall_cons]. constructor; [lia|by apply IH].
Qed.

Lemma words_sum_bound p : Forall is_byte p -> 0 <= zsum id (words p) <= 65535 * len p.
Proof.
  unfold is_byte. induction p as [|a|a b r IH] using pair_ind; intros Hp; simpl words.
  - unfold zsum, len. simpl. lia.
  - apply Forall_cons in Hp as [Ha _]. unfold zsum, id, len. simpl. lia.
  - apply Forall_cons in Hp as [Ha [Hb Hr]%Forall_cons]. specialize (IH Hr).
    unfold zsum, id, len in *. simpl in *. lia.
Qed.

(** Two bytes shifted and or-ed together. *)
Lemma lor_byte a b : is_byte b -> Z.lor (Z.shiftl a 8) b = a * 256 + b.
Proof.
  intros Hb. rewrite Z.shiftl_mul_pow2 by lia.
  rewrite <- Z.lxor_lor, <- Z.add_nocarry_lxor; [done| |];
    (apply Z.bits_inj'; intros n Hn; rewrite Z.land_spec, Z.bits_0;
     destruct (Z_lt_le_dec n 8) as [Hlt|Hge];
     [by rewrite Z.mul_pow2_bits_low by lia
     |rewrite (testbit_high b 8 n) by (done || lia); apply andb_false_r]).
Qed.

(** No 32-bit overflow up to 32768 words. *)
Lemma word_sum_val p : forall s,
  Forall is_byte p -> 0 <= s -> s + 65535 * len p < 2 ^ 32 ->
  word_sum p s = s + zsum id (words p).
Proof.
  induction p as [|a|a b r IH] using pair_ind; intros s Hp Hs Hb; simpl.
  - unfold zsum. simpl. lia.
  - apply Forall_cons in Hp as [Ha _]. rewrite Z.shiftl_mul_pow2 by lia.
    unfold is_byte, zsum, id, len in *. simpl in *. rewrite u32_small; lia.
  - apply Forall_cons in Hp as [Ha [Hbb Hr]%Forall_cons]. rewrite lor_byte by done.
    pose proof (words_sum_bound r Hr) as Hw. unfold is_byte in *.
    assert (El : len (a :: b :: r) = len r + 2) by (unfold len; simpl; lia). rewrite El in Hb.
    rewrite u32_small by (unfold len in *; lia). rewrite IH; [|done|lia|lia].
    unfold zsum, id. simpl. lia.
Qed.

(** Folding the carries computes the ones'-complement form. *)
Lemma fold_carry_step s : 0 <= s < 2 ^ 32 -> u32 (Z.land s 65535 + Z.shiftr s 16) = s mod 65536 + s / 65536.
Proof.
  intros Hs. change 65535 with (Z.ones 16). rewrite Z.land_ones, Z.shiftr_div_pow2 by lia.
  change (2 ^ 16) with 65536.
  pose proof (Z.mod_pos_bound s 65536 ltac:(lia)).
  assert (0 <= s / 65536 < 65536).
  { split; [apply Z.div_pos; lia|]. apply Z.div_lt_upper_bound; lia. }
  apply u32_small. lia.
Qed.

Lemma fold_carry_unfold f s : fold_carry f s =
  if Z.shiftr s 16 =? 0 then s else
  match f with O => s | S f => fold_carry f (u32 (Z.land s 65535 + Z.shiftr s 16)) end.
Proof. by destruct f. Qed.

Lemma fold_carry_done f s : 0 <= s < 65536 -> fold_carry f s = s.
Proof.
  intros Hs. rewrite fold_carry_unfold, Z.shiftr_div_pow2 by lia. by rewrite Z.div_small by lia.
Qed.

Lemma fold_carry_more f s : 65536 <= s < 2 ^ 32 ->
  fold_carry (S f) s = fold_carry f (s mod 65536 + s / 65536).
Proof.
  intros Hs. rewrite fold_carry_unfold, Z.shiftr_div_pow2 by lia. change (2 ^ 16) with 65536.
  assert (1 <= s / 65536) by (apply Z.div_le_lower_bound; lia).
  rewrite (proj2 (Z.eqb_neq _ 0)) by lia. f_equal.
  rewrite <- fold_carry_step by lia. by rewrite Z.shiftr_div_pow2 by lia.
Qed.

Lemma fold_carry_canon s : 0 <= s < 2 ^ 32 -> canon s (fold_carry 2 s).
Proof.
  intros Hs. pose proof (Z_div_mod_eq_full s 65536) as E1.
  pose proof (Z.mod_pos_bound s 65536 ltac:(lia)) as M1.
  destruct (Z_lt_le_dec s 65536) as [Hlt|Hge].
  { rewrite fold_carry_done by lia. split; [lia|]. split; [by exists 0; lia|done]. }
  assert (D1 : 1 <= s / 65536 < 65536).
  { split; [apply Z.div_le_lower_bound; lia|apply Z.div_lt_upper_bound; lia]. }
  rewrite fold_carry_more by lia. set (t := s mod 65536 + s / 65536) in *.
  destruct (Z_lt_le_dec t 65536) as [Hlt|Hge2].
  { rewrite fold_carry_done by lia. split; [lia|]. split; [exists (s / 65536); lia|lia]. }
  pose proof (Z_div_mod_eq_full t 65536) as E2. pose proof (Z.mod_pos_bound t 65536 ltac:(lia)) as M2.
  assert (D2 : t / 65536 = 1) by (symmetry; apply (Z.div_unique_pos _ _ 1 (t - 65536)); lia).
  rewrite fold_carry_more, fold_carry_done by lia.
  split; [lia|]. split; [exists (s / 65536 + 1); lia|lia].
Qed.

Lemma ip_checksum_val p :
  Forall is_byte p -> len p <= 65536 ->
  exists r, canon (zsum id (words p)) r /\ ip_checksum p = net_htons (65535 - r).
Proof.
  intros Hp Hl. pose proof (words_sum_bound p Hp) as Hb.
  unfold ip_checksum. rewrite word_sum_val by (done || lia). rewrite Z.add_0_l.
  pose proof (fold_carry_canon (zsum id (words p)) ltac:(lia)) as Hc.
  exists (fold_carry 2 (zsum id (words p))). split; [done|]. f_equal.
  destruct Hc as [Hr _]. set (r := fold_carry _ _) in *. clearbody r.
  unfold u16, Z.lnot. symmetry. apply (Z.mod_unique_pos _ _ (-1)); lia.
Qed.

Lemma words_app p q : len p mod 2 = 0 -> words (p ++ q) = words p ++ words q.
Proof.
  induction p as [|a|a b r IH] using pair_ind; intros He; [done|done|].
  simpl. f_equal. apply IH. rewrite <- He. unfold len. simpl length.
  replace (Z.of_nat (S (S (length r)))) with (Z.of_nat (length r) + 1 * 2) by lia.
  by rewrite Z_mod_plus_full.
Qed.

Lemma zsum_app {A} (f : A -> Z) l k : zsum f (l ++ k) = zsum f l + zsum f k.
Proof. induction l as [|x l IH]; [done|]. unfold zsum in *. simpl. lia. Qed.

(** Filling a zero checksum field makes the whole verify. *)
Lemma checksum_fills p1 p2 :
  Forall is_byte p1 -> Forall is_byte p2 -> len p1 mod 2 = 0 -> len p1 + 2 + len p2 <= 65536 ->
  ip_checksum (p1 ++ le16 (ip_checksum (p1 ++ le16 0 ++ p2)) ++ p2) = 0.
Proof.
  intros H1 H2 He Hl.
  assert (Hz : Forall is_byte (le16 0)) by (repeat constructor; done).
  destruct (ip_checksum_val (p1 ++ le16 0 ++ p2)) as (r & Hc & Hr).
  { by rewrite !Forall_app. }
  { rewrite !len_app. change (len (le16 0)) with 2. lia. }
  rewrite Hr, le16_htons. destruct Hc as (Hr1 & (k & Ek) & Hr3).
  assert (Hs : 0 <= 65535 - r < 2 ^ 16) by lia.
  destruct (ip_checksum_val (p1 ++ be16 (65535 - r) ++ p2)) as (r' & Hc' & ->).
  { rewrite !Forall_app. split_and!; [done| |done]. repeat constructor; apply Z.mod_pos_bound; lia. }
  { rewrite !len_app, len_be16. lia. }
  assert (Ew : zsum id (words (p1 ++ be16 (65535 - r) ++ p2)) =
               zsum id (words (p1 ++ le16 0 ++ p2)) + (65535 - r)).
  { rewrite !words_app by done. rewrite !zsum_app. change (le16 0) with [0; 0].
    cbn [app be16 words]. rewrite be16_val by done. unfold zsum, id. simpl. lia. }
  pose proof (words_sum_bound (p1 ++ le16 0 ++ p2)) as Hb.
  assert (canon (zsum id (words (p1 ++ be16 (65535 - r) ++ p2))) 65535) as Hc2.
  { rewrite Ew. split; [lia|]. split; [exists k; lia|]. split; [done|].
    rewrite !Forall_app in Hb. specialize (Hb ltac:(done)). lia. }
  by rewrite (canon_inj _ _ _ Hc' Hc2).
Qed.

(** C17: the kernel's 32-bit accumulate-and-fold checksum is the complement of
    the ones'-complement sum of RFC 1071 in network order, for every byte
    string up to 64 KiB; filling a zeroed, word-aligned checksum field with it
    makes the checksum of the whole zero, which is what the receiver tests. *)
Theorem ip_checksum_rfc1071 p :
  Forall is_byte p -> len p <= 65536 ->
  ip_checksum p = net_htons (rfc1071 p) /\
  forall p1 p2, p = p1 ++ le16 0 ++ p2 -> len p1 mod 2 = 0 ->
    ip_checksum (p1 ++ le16 (ip_checksum p) ++ p2) = 0.
Proof.
  intros Hp Hl. split.
  - destruct (ip_checksum_val p Hp Hl) as (r & Hc & ->). unfold rfc1071. do 2 f_equal.
    apply (canon_inj _ _ _ Hc). rewrite <- (Z.add_0_l (zsum id (words p))).
    apply foldl_ones_add; [by apply words_range|lia|]. split; [lia|]. split; [by exists 0|done].
  - intros p1 p2 -> He. rewrite !Forall_app in Hp. destruct Hp as (H1 & _ & H2).
    apply checksum_fills; [done..|]. rewrite !len_app in Hl. change (len (le16 0)) with 2 in Hl. lia.
Qed.

Lemma ip_checksum_rfc1071_witness :
  let p := [69; 0; 0; 84; 0; 0; 64; 0; 64; 1] ++ le16 0 ++ [192; 168; 0; 1; 192; 168; 0; 199] in
  ip_checksum p = net_htons (rfc1071 p) /\ ip_checksum p = 37048.
Proof.
  split; [|reflexivity]. refine (proj1 (ip_checksum_rfc1071 _ _ _)); [|done].
  repeat constructor; done.
Defined.
End Ip.
