(* ===== verification/Udp.v ===== *)
(** UDP (src/src/kernel/net/udp.c): the port table, the four-slot receive
    queue of each port, sending, and the wake-up of blocked receivers. *)
From S2P Require Import Prelude Ring Sched Net Eth Ip.

Module Udp.
Import Net Eth Ip.

Definition UDP_MAX_BINDS : Z := 8.
Definition UDP_QUEUE_DEPTH : Z := 4.
Definition UDP_DGRAM_MAX : Z := 512.

Record udp_bind_t := UdpBind {
  used : Z; port : Z; owner : Z;
  data : list bytes; dlen : list Z; from_ip : list Z; from_port : list Z;
  qhead : Z; qtail : Z; qcount : Z;
  b_rx : Z; b_tx : Z; b_dropped : Z
}.
#[export] Instance eta_udp_bind : Eta udp_bind_t := fun r =>
  UdpBind (used r) (port r) (owner r) (data r) (dlen r) (from_ip r) (from_port r)
    (qhead r) (qtail r) (qcount r) (b_rx r) (b_tx r) (b_dropped r).

(** [memset(&g_udp[i], 0, sizeof)] *)
Definition zero_bind : udp_bind_t :=
  UdpBind 0 0 0 (replicate 4 (replicate 512 0)) (replicate 4 0) (replicate 4 0) (replicate 4 0)
    0 0 0 0 0 0.
#[export] Instance inhabited_udp_bind : Inhabited udp_bind_t := populate zero_bind.

Record udp := UdpState { g_udp : list udp_bind_t; g_rx : Z; g_tx : Z; g_dropped : Z }.
#[export] Instance eta_udp : Eta udp := fun r => UdpState (g_udp r) (g_rx r) (g_tx r) (g_dropped r).

Definition udp_start : udp := UdpState (replicate 8 zero_bind) 0 0 0.

Definition bound_to (p : Z) (b : udp_bind_t) : bool := negb (used b =? 0) && (port b =? p).

Definition udp_find (p : Z) (u : udp) : option Z := Z.of_nat <$> find_index (bound_to p) (g_udp u).

Definition mod_bind (i : Z) (f : udp_bind_t -> udp_bind_t) (u : udp) : udp :=
  u <| g_udp := aset (g_udp u) i (f (aget (g_udp u) i)) |>.

Definition udp_bind (p pid : Z) (u : udp) : udp * Z :=
  if p =? 0 then (u, -22)
  else match udp_find p u with
  | Some _ => (u, -98)
  | None =>
      match find_index (fun b => used b =? 0) (g_udp u) with
      | Some i => (mod_bind (Z.of_nat i) (fun _ => zero_bind <| used := 1 |> <| port := p |> <| owner := pid |>) u, 0)
      | None => (u, -24)
      end
  end.

Definition udp_unbind (p : Z) (u : udp) : udp :=
  match udp_find p u with
  | Some i => mod_bind i (fun _ => zero_bind) u
  | None => u
  end.

Definition udp_is_bound (p : Z) (u : udp) : Z := match udp_find p u with Some _ => 1 | None => 0 end.

(** The datagram [udp_send] builds: both ports are the destination's. *)
Definition udp_packet (sport dport : Z) (payload : bytes) : bytes :=
  le16 (net_htons sport) ++ le16 (net_htons dport) ++
  le16 (net_htons (u16 (UDP_HDR_LEN + len payload))) ++ le16 0 ++ payload.

Section Send.
  Context {D : Type} `{NicOps D}.

Definition udp_send (dst_ip dst_port : Z) (payload : bytes) (u : udp) (s : ipst D) : udp * ipst D * Z :=
    if MTU - IP_HDR_LEN - UDP_HDR_LEN <? len payload then (u, s, -1) else
    let '(s1, r) := ip_send dst_ip IP_PROTO_UDP (udp_packet dst_port dst_port payload) s in
    if negb (r =? 0) then (u <| g_dropped := u64 (g_dropped u + 1) |>, s1, -1)
    else (u <| g_tx := u64 (g_tx u + 1) |>, s1, 0).
End Send.

(** A full queue gives up its oldest datagram. *)
Definition make_room (b : udp_bind_t) : udp_bind_t :=
  if UDP_QUEUE_DEPTH <=? qcount b then
    b <| qhead := (qhead b + 1) mod UDP_QUEUE_DEPTH |> <| qcount := qcount b - 1 |>
      <| b_dropped := u64 (b_dropped b + 1) |>
  else b.

Definition enqueue (payload : bytes) (src_ip sport : Z) (b : udp_bind_t) : udp_bind_t :=
  let slot := qtail b in
  b <| data := aset (data b) slot (Ring.blit (aget (data b) slot) 0 payload) |>
    <| dlen := aset (dlen b) slot (u16 (len payload)) |>
    <| from_ip := aset (from_ip b) slot src_ip |>
    <| from_port := aset (from_port b) slot sport |>
    <| qtail := (qtail b + 1) mod UDP_QUEUE_DEPTH |> <| qcount := qcount b + 1 |>
    <| b_rx := u64 (b_rx b + 1) |>.

Definition udp_input (pkt : bytes) (src_ip : Z) (u : udp) (s : Sched.sched) : udp * Sched.sched :=
  let u := u <| g_rx := u64 (g_rx u + 1) |> in
  let drop := u <| g_dropped := u64 (g_dropped u + 1) |> in
  if len pkt <? UDP_HDR_LEN then (drop, s) else
  let dport := net_ntohs (ld16 pkt 2) in
  let ulen := net_ntohs (ld16 pkt 4) in
  if (ulen <? UDP_HDR_LEN) || (len pkt <? ulen) then (drop, s) else
  let payload_len := Z.min (ulen - UDP_HDR_LEN) UDP_DGRAM_MAX in
  match udp_find dport u with
  | None => (drop, s)
  | Some i =>
      (mod_bind i (fun b => enqueue (Ring.slice pkt UDP_HDR_LEN payload_len) src_ip
                              (net_ntohs (ld16 pkt 0)) (make_room b)) u,
       Sched.sched_wake_cond Sched.WAIT_NET dport s)
  end.

(** What [udp_recv] does: its return value and the datagram it hands out. *)
Inductive recv_result :=
| RecvError (r : Z)
| RecvData (n : Z) (buf : bytes) (ip port : Z)
| RecvOverrun (n : Z).  (** a [memcpy] of [n] bytes out of a 512-byte slot *)

Definition udp_recv (p max : Z) (u : udp) : udp * recv_result :=
  match udp_find p u with
  | None => (u, RecvError (-1))
  | Some i =>
      let b := aget (g_udp u) i in
      if qcount b =? 0 then (u, RecvError 0) else
      let slot := qhead b in
      let n := Z.min (aget (dlen b) slot) max in
      let u' := mod_bind i (fun b => b <| qhead := (qhead b + 1) mod UDP_QUEUE_DEPTH |>
                                      <| qcount := qcount b - 1 |>) u in
      (u', if UDP_DGRAM_MAX <? u32 n then RecvOverrun (u32 n)
           else RecvData n (take (Z.to_nat (u32 n)) (aget (data b) slot))
                  (aget (from_ip b) slot) (aget (from_port b) slot))
  end.

Definition udp_stats (u : udp) : Z * Z * Z :=
  let sum f := foldl (fun acc b => if used b =? 0 then acc else u64 (acc + f b)) 0 (g_udp u) in
  (g_rx u, g_tx u, u64 (g_dropped u + sum b_dropped + sum b_tx * 0)).

(** ** The queue of a port, as a list *)

(** The datagram in a slot: sender and payload. *)
Definition dgram : Type := Z * Z * bytes.
Definition slot_dgram (b : udp_bind_t) (i : Z) : dgram :=
  (aget (from_ip b) i, aget (from_port b) i, take (Z.to_nat (aget (dlen b) i)) (aget (data b) i)).
Definition slots (b : udp_bind_t) : list dgram := slot_dgram b <$> zrange 4.
Definition queue (b : udp_bind_t) : list dgram := Ring.ring_list UDP_QUEUE_DEPTH (slots b) (qhead b) (qcount b).

Record bind_ok (b : udp_bind_t) : Prop := {
  bk_data : length (data b) = 4%nat;
  bk_slot : Forall (fun d => length d = 512%nat) (data b);
  bk_dlen : length (dlen b) = 4%nat;
  bk_dlen_max : Forall (fun n => 0 <= n <= UDP_DGRAM_MAX) (dlen b);
  bk_ip : length (from_ip b) = 4%nat;
  bk_port : length (from_port b) = 4%nat;
  bk_head : 0 <= qhead b < UDP_QUEUE_DEPTH;
  bk_count : 0 <= qcount b <= UDP_QUEUE_DEPTH;
  bk_tail : qtail b = (qhead b + qcount b) mod UDP_QUEUE_DEPTH
}.

(** Every entry is well formed and no port is bound twice. *)
Record udp_ok (u : udp) : Prop := {
  uk_len : length (g_udp u) = 8%nat;
  uk_bind : Forall bind_ok (g_udp u);
  uk_uniq i j a b : g_udp u !! i = Some a -> g_udp u !! j = Some b ->
    used a <> 0 -> used b <> 0 -> port a = port b -> i = j
}.

(** The abstract view: the queue of each bound port. *)
Definition ports (u : udp) (p : Z) : option (list dgram) :=
  (fun i => queue (aget (g_udp u) i)) <$> udp_find p u.

(** A bounded queue that gives up its oldest element. *)
Definition lossy (q : list dgram) (d : dgram) : list dgram :=
  (if (length q <? 4)%nat then q else drop 1 q) ++ [d].

(** ** One queue *)
Lemma length_slots b : Z.of_nat (length (slots b)) = UDP_QUEUE_DEPTH.
Proof. unfold slots. by rewrite length_fmap, length_zrange. Qed.

Lemma length_queue b : bind_ok b -> length (queue b) = Z.to_nat (qcount b).
Proof. intros Hb. apply Ring.length_ring_list. Qed.

Lemma mod4 x : 0 <= x mod UDP_QUEUE_DEPTH < UDP_QUEUE_DEPTH.
Proof. apply Z.mod_pos_bound. done. Qed.

Lemma pop_ok b n : bind_ok b -> 0 < qcount b ->
  let b' := b <| qhead := (qhead b + 1) mod UDP_QUEUE_DEPTH |> <| qcount := qcount b - 1 |>
              <| b_dropped := n |> in
  bind_ok b' /\ queue b = slot_dgram b (qhead b) :: queue b'.
Proof.
  intros [? ? ? ? ? ? Hh Hc Ht] Hn. cbv zeta. split.
  - split; cbn; try done; [apply mod4|lia|].
    rewrite Ht, Zplus_mod_idemp_l. f_equal. lia.
  - unfold queue. rewrite Ring.ring_pop by (done || lia). f_equal.
    unfold slots. rewrite aget_fmap; [|rewrite length_zrange; unfold UDP_QUEUE_DEPTH in *; lia].
    f_equal. unfold aget. unfold UDP_QUEUE_DEPTH in *.
    rewrite (list_lookup_total_correct _ _ (Z.of_nat (Z.to_nat (qhead b)))); [lia|].
    apply lookup_zrange. lia.
Qed.

Lemma make_room_spec b : bind_ok b ->
  bind_ok (make_room b) /\ qcount (make_room b) < UDP_QUEUE_DEPTH /\
  used (make_room b) = used b /\ port (make_room b) = port b /\
  queue (make_room b) = if (length (queue b) <? 4)%nat then queue b else drop 1 (queue b).
Proof.
  intros Hb. pose proof (bk_count _ Hb) as Hc. unfold make_room.
  rewrite length_queue by done.
  destruct (Z.leb_spec UDP_QUEUE_DEPTH (qcount b)) as [Hge|Hlt]; unfold UDP_QUEUE_DEPTH in *.
  - destruct (pop_ok b (u64 (b_dropped b + 1)) Hb ltac:(lia)) as [Hb' Eq].
    split; [exact Hb'|]. split; [cbn; lia|]. split; [done|]. split; [done|].
    rewrite (proj2 (Nat.ltb_ge _ _)) by lia. by rewrite Eq.
  - split; [done|]. split; [lia|]. split; [done|]. split; [done|].
    by rewrite (proj2 (Nat.ltb_lt _ _)) by lia.
Qed.

Lemma slot_dgram_enqueue payload src sport b i :
  bind_ok b -> len payload <= UDP_DGRAM_MAX -> 0 <= i < 4 ->
  slot_dgram (enqueue payload src sport b) i =
  if decide (qtail b = i) then (src, sport, payload) else slot_dgram b i.
Proof.
  intros [L1 L2 L3 L4 L5 L6 Hh Hc Ht] Hl Hi. unfold slot_dgram, enqueue. cbn.
  pose proof (mod4 (qhead b + qcount b)) as Hm. rewrite <- Ht in Hm. unfold UDP_QUEUE_DEPTH, UDP_DGRAM_MAX in *.
  rewrite !aget_aset by lia. case_decide; [|done]. f_equal.
  unfold len in *. rewrite u16_small by lia. rewrite Nat2Z.id. apply take_blit0.
Qed.

Lemma slots_enqueue payload src sport b :
  bind_ok b -> len payload <= UDP_DGRAM_MAX ->
  slots (enqueue payload src sport b) = aset (slots b) (qtail b) (src, sport, payload).
Proof.
  intros Hb Hl. apply list_eq. intros i. unfold slots, aset. rewrite list_lookup_fmap.
  pose proof (mod4 (qhead b + qcount b)) as Hm. rewrite <- (bk_tail _ Hb) in Hm. unfold UDP_QUEUE_DEPTH in Hm.
  destruct (decide (i < 4)%nat) as [Hi|Hi].
  - rewrite lookup_zrange by done. cbn [fmap option_fmap option_map].
    rewrite slot_dgram_enqueue by (done || lia). case_decide as E.
    + rewrite <- (Nat2Z.id i), <- E. rewrite list_lookup_insert_eq; [done|].
      rewrite length_fmap, length_zrange. lia.
    + rewrite list_lookup_insert_ne by lia. rewrite list_lookup_fmap, lookup_zrange by done. done.
  - rewrite !lookup_ge_None_2; [done| |]; rewrite ?length_insert, ?length_fmap, ?length_zrange; lia.
Qed.

Lemma enqueue_spec payload src sport b :
  bind_ok b -> len payload <= UDP_DGRAM_MAX -> qcount b < UDP_QUEUE_DEPTH ->
  bind_ok (enqueue payload src sport b) /\
  queue (enqueue payload src sport b) = queue b ++ [(src, sport, payload)].
Proof.
  intros Hb Hl Hn. pose proof Hb as [L1 L2 L3 L4 L5 L6 Hh Hc Ht].
  pose proof (mod4 (qhead b + qcount b)) as Hm. rewrite <- Ht in Hm.
  unfold UDP_QUEUE_DEPTH, UDP_DGRAM_MAX in *. split.
  - assert (L7 : length (aget (data b) (qtail b)) = 512%nat).
    { apply (Forall_aget (fun d => length d = 512%nat)); [done|lia]. }
    unfold len in *. split; cbn; rewrite ?length_aset; try done.
    + apply Forall_aset; [done|]. rewrite Ring.length_blit; [done|lia|lia].
    + apply Forall_aset; [done|]. unfold len. rewrite u16_small by lia. unfold UDP_DGRAM_MAX. lia.
    + unfold UDP_QUEUE_DEPTH. lia.
    + unfold UDP_QUEUE_DEPTH. rewrite Ht. apply Ring.ring_tail_next. lia.
  - unfold queue. rewrite slots_enqueue by done. cbn [qhead qcount enqueue].
    change (qhead (enqueue payload src sport b)) with (qhead b).
    change (qcount (enqueue payload src sport b)) with (qcount b + 1). rewrite Ht.
    apply Ring.ring_push; [done|apply length_slots|unfold UDP_QUEUE_DEPTH; lia].
Qed.

(** ** The port table *)
Lemma bound_to_iff p b : bound_to p b = true <-> used b <> 0 /\ port b = p.
Proof. unfold bound_to. rewrite andb_true_iff, negb_true_iff, Z.eqb_neq, Z.eqb_eq. done. Qed.

Lemma udp_find_Some p i u : udp_ok u ->
  udp_find p u = Some i <->
  0 <= i < 8 /\ used (aget (g_udp u) i) <> 0 /\ port (aget (g_udp u) i) = p.
Proof.
  intros Hok. unfold udp_find. rewrite fmap_Some. split.
  - intros (k & (x & Hx & Hp & _)%find_index_Some & ->).
    pose proof (lookup_lt_Some _ _ _ Hx) as Hk. rewrite (uk_len _ Hok) in Hk.
    apply bound_to_iff in Hp. unfold aget. rewrite Nat2Z.id, (list_lookup_total_correct _ _ _ Hx). split; [lia|done].
  - intros (Hi & Hp). exists (Z.to_nat i). split; [|lia].
    apply (find_index_uniq _ _ _ (aget (g_udp u) i)).
    + intros j k y z Hy Hz [? E1]%bound_to_iff [? E2]%bound_to_iff.
      apply (uk_uniq _ Hok j k y z); congruence.
    + apply list_lookup_lookup_total_lt. rewrite (uk_len _ Hok). lia.
    + by apply bound_to_iff.
Qed.

Lemma udp_find_None p u : udp_ok u ->
  udp_find p u = None <-> forall i, 0 <= i < 8 -> used (aget (g_udp u) i) <> 0 -> port (aget (g_udp u) i) <> p.
Proof.
  intros Hok. destruct (udp_find p u) as [i|] eqn:E.
  - apply udp_find_Some in E as (Hi & Hu & Hp); [|done]. split; [done|]. intros Hn. by destruct (Hn i).
  - split; [|done]. intros _ i Hi Hu Hp.
    assert (udp_find p u = Some i) by (by apply udp_find_Some). congruence.
Qed.

(** Updating a binding without touching its port or flag. *)
Lemma mod_bind_same i f u :
  udp_ok u -> 0 <= i < 8 ->
  used (f (aget (g_udp u) i)) = used (aget (g_udp u) i) ->
  port (f (aget (g_udp u) i)) = port (aget (g_udp u) i) ->
  bind_ok (f (aget (g_udp u) i)) ->
  udp_ok (mod_bind i f u) /\
  forall p, ports (mod_bind i f u) p =
    if decide (udp_find p u = Some i) then Some (queue (f (aget (g_udp u) i))) else ports u p.
Proof.
  intros Hok Hi Hused Hport Hb. pose proof (uk_len _ Hok) as Hl.
  assert (Hx : g_udp u !! Z.to_nat i = Some (aget (g_udp u) i)).
  { apply list_lookup_lookup_total_lt. lia. }
  assert (Hfind : forall p, udp_find p (mod_bind i f u) = udp_find p u).
  { intros p. unfold udp_find, mod_bind. cbn. f_equal.
    apply (find_index_insert _ _ _ _ _ Hx). unfold bound_to. by rewrite Hused, Hport. }
  split.
  - split; cbn; [by rewrite length_aset|by apply Forall_aset; [apply Hok|]|].
    unfold aset. intros j k a b Hj Hk Ha Hb' E.
    assert (Hinv : forall j a, <[Z.to_nat i := f (aget (g_udp u) i)]> (g_udp u) !! j = Some a ->
              exists a', g_udp u !! j = Some a' /\ used a' = used a /\ port a' = port a).
    { intros j' a' Hj'. destruct (decide (j' = Z.to_nat i)) as [->|Hne].
      - rewrite list_lookup_insert_eq in Hj' by lia. injection Hj' as <-. eauto.
      - rewrite list_lookup_insert_ne in Hj' by done. eauto. }
    apply Hinv in Hj as (a' & Hj & Eu & Ep). apply Hinv in Hk as (b' & Hk & Eu' & Ep').
    apply (uk_uniq _ Hok j k a' b'); congruence.
  - intros p. unfold ports. rewrite Hfind. case_decide as E.
    + rewrite E. cbn. by rewrite aget_aset_eq by lia.
    + destruct (udp_find p u) as [j|] eqn:Ej; [|done]. cbn.
      apply udp_find_Some in Ej as (Hj & _); [|done]. rewrite aget_aset_ne; [done|lia|lia|congruence].
Qed.

(** Installing or clearing a binding. *)
Lemma mod_bind_fresh i x u :
  udp_ok u -> 0 <= i < 8 -> bind_ok x -> (used x <> 0 -> udp_find (port x) u = None) ->
  udp_ok (mod_bind i (fun _ => x) u) /\
  forall p, ports (mod_bind i (fun _ => x) u) p =
    if decide (used x <> 0 /\ port x = p) then Some (queue x)
    else if decide (udp_find p u = Some i) then None else ports u p.
Proof.
  intros Hok Hi Hx Hfree. pose proof (uk_len _ Hok) as Hl.
  assert (Hok' : udp_ok (mod_bind i (fun _ => x) u)).
  { split; cbn; [by rewrite length_aset|by apply Forall_aset; [apply Hok|]|].
    assert (Hno : forall j b, g_udp u !! j = Some b -> used b <> 0 -> used x <> 0 -> port x = port b -> False).
    { intros j b Hj Hb Hux E. specialize (Hfree Hux). rewrite udp_find_None in Hfree by done.
      pose proof (lookup_lt_Some _ _ _ Hj). apply (Hfree (Z.of_nat j)); [lia| |];
        unfold aget; rewrite Nat2Z.id, (list_lookup_total_correct _ _ _ Hj); congruence. }
    unfold aset. intros j k a b Hj Hk Ha Hb E.
    destruct (decide (j = Z.to_nat i)) as [->|Hji]; destruct (decide (k = Z.to_nat i)) as [->|Hki]; [done|..].
    - rewrite list_lookup_insert_eq in Hj by lia. rewrite list_lookup_insert_ne in Hk by done.
      injection Hj as <-. exfalso. by apply (Hno k b).
    - rewrite list_lookup_insert_eq in Hk by lia. rewrite list_lookup_insert_ne in Hj by done.
      injection Hk as <-. exfalso. by apply (Hno j a).
    - rewrite list_lookup_insert_ne in Hj, Hk by done. by apply (uk_uniq _ Hok j k a b). }
  split; [done|]. intros p. unfold ports.
  assert (Hg : forall j, 0 <= j < 8 -> aget (g_udp (mod_bind i (fun _ => x) u)) j =
            if decide (i = j) then x else aget (g_udp u) j).
  { intros j Hj. unfold mod_bind. cbn. apply aget_aset; lia. }
  case_decide as Ex.
  - assert (E : udp_find p (mod_bind i (fun _ => x) u) = Some i).
    { apply udp_find_Some; [done|]. rewrite Hg, decide_True by done. done. }
    rewrite E. cbn [fmap option_fmap option_map]. by rewrite Hg, decide_True by done.
  - destruct (udp_find p (mod_bind i (fun _ => x) u)) as [j|] eqn:Ej.
    + apply udp_find_Some in Ej as (Hj & Hu & Hp); [|done]. rewrite Hg in Hu, Hp by done.
      case_decide; [naive_solver|].
      assert (E2 : udp_find p u = Some j) by (by apply udp_find_Some).
      rewrite E2. rewrite decide_False by congruence. cbn. rewrite Hg, decide_False by done. done.
    + case_decide as E2; [done|]. destruct (udp_find p u) as [j|] eqn:E3; [|done].
      apply udp_find_Some in E3 as (Hj & Hu & Hp); [|done].
      rewrite udp_find_None in Ej by done. exfalso.
      apply (Ej j Hj); rewrite Hg, decide_False by (done || congruence); done.
Qed.

Lemma zero_bind_ok b : bind_ok (zero_bind <| used := b.1 |> <| port := b.2.1 |> <| owner := b.2.2 |>).
Proof. split; cbn; try done; repeat constructor; done. Qed.

Lemma udp_bind_spec p pid u : udp_ok u ->
  let r := udp_bind p pid u in
  udp_ok r.1 /\
  (r.2 = 0 -> p <> 0 /\ ports u p = None /\ forall q, ports r.1 q = if decide (q = p) then Some [] else ports u q) /\
  (r.2 <> 0 -> r.1 = u).
Proof.
  intros Hok. cbv zeta. unfold udp_bind.
  destruct (Z.eqb_spec p 0) as [|Hp]; [done|].
  destruct (udp_find p u) as [i|] eqn:Ef; [done|].
  destruct (find_index _ (g_udp u)) as [k|] eqn:Ek; [|done]. cbn [fst snd].
  apply find_index_Some in Ek as (x & Hx & Hux & _). apply Z.eqb_eq in Hux.
  pose proof (lookup_lt_Some _ _ _ Hx) as Hk. rewrite (uk_len _ Hok) in Hk.
  destruct (mod_bind_fresh (Z.of_nat k) (zero_bind <| used := 1 |> <| port := p |> <| owner := pid |>) u)
    as [Hok' Hports]; [done|lia|exact (zero_bind_ok (1, (p, pid)))|done|].
  split; [done|]. split; [|done]. intros _. split; [done|].
  split; [unfold ports; by rewrite Ef|]. intros q. rewrite Hports. cbn.
  destruct (decide (q = p)) as [->|Hne]; [by rewrite decide_True by done|].
  rewrite decide_False by (intros [_ E]; congruence). rewrite decide_False; [done|].
  intros E. apply udp_find_Some in E as (_ & Hu & _); [|done]. apply Hu.
  unfold aget. by rewrite Nat2Z.id, (list_lookup_total_correct _ _ _ Hx).
Qed.

Lemma udp_unbind_spec p u : udp_ok u ->
  udp_ok (udp_unbind p u) /\
  forall q, ports (udp_unbind p u) q = if decide (q = p) then None else ports u q.
Proof.
  intros Hok. unfold udp_unbind. destruct (udp_find p u) as [i|] eqn:Ef.
  - pose proof Ef as (Hi & Hu & Hp)%udp_find_Some; [|done].
    destruct (mod_bind_fresh i zero_bind u Hok Hi) as [Hok' Hports]; [exact (zero_bind_ok (0, (0, 0)))|done|].
    split; [done|]. intros q. rewrite Hports. rewrite decide_False by (intros [? _]; done).
    destruct (decide (q = p)) as [->|Hne]; [by rewrite decide_True|]. rewrite decide_False; [done|].
    intros E. apply udp_find_Some in E as (_ & _ & E); [|done]. congruence.
  - split; [done|]. intros q. case_decide as E; [|done]. subst q. unfold ports. by rewrite Ef.
Qed.

(** ** Receiving *)

(** The port and datagram a packet carries, if its lengths are consistent. *)
Definition decode (pkt : bytes) (src_ip : Z) : option (Z * dgram) :=
  let ulen := net_ntohs (ld16 pkt 4) in
  if (len pkt <? UDP_HDR_LEN) || (ulen <? UDP_HDR_LEN) || (len pkt <? ulen) then None
  else Some (net_ntohs (ld16 pkt 2),
             (src_ip, net_ntohs (ld16 pkt 0),
              Ring.slice pkt UDP_HDR_LEN (Z.min (ulen - UDP_HDR_LEN) UDP_DGRAM_MAX))).

Lemma decode_packet sport dport payload src :
  0 <= sport < 2 ^ 16 -> 0 <= dport < 2 ^ 16 -> len payload <= 65527 ->
  decode (udp_packet sport dport payload) src = Some (dport, (src, sport, take 512 payload)).
Proof.
  intros Hs Hd Hl. unfold decode, udp_packet. rewrite !le16_htons.
  pose proof (len_nonneg payload).
  assert (El : len (be16 sport ++ be16 dport ++ be16 (u16 (UDP_HDR_LEN + len payload)) ++ le16 0 ++ payload)
               = 8 + len payload) by (unfold len; simpl; lia).
  rewrite El. set (pkt := be16 sport ++ _).
  assert (E0 : net_ntohs (ld16 pkt 0) = sport) by exact (ntohs_be sport Hs).
  assert (E2 : net_ntohs (ld16 pkt 2) = dport) by exact (ntohs_be dport Hd).
  assert (E4 : net_ntohs (ld16 pkt 4) = 8 + len payload).
  { rewrite <- (u16_small (8 + len payload)) by lia. exact (ntohs_be _ (u16_range _)). }
  rewrite E0, E2, E4. unfold UDP_HDR_LEN, UDP_DGRAM_MAX.
  assert (Eb : (8 + len payload <? 8) || (8 + len payload <? 8) || (8 + len payload <? 8 + len payload) = false).
  { rewrite !orb_false_iff, !Z.ltb_ge. lia. }
  rewrite Eb. do 3 f_equal.
  unfold Ring.slice. change (drop (Z.to_nat 8) pkt) with payload.
  replace (8 + len payload - 8) with (len payload) by lia.
  destruct (Z_le_gt_dec (len payload) 512) as [Hle|Hgt].
  - rewrite !take_ge; unfold len in *; [done|lia|lia].
  - f_equal. lia.
Qed.

Lemma udp_input_spec pkt src u s : udp_ok u ->
  let r := udp_input pkt src u s in
  udp_ok r.1 /\
  match decode pkt src with
  | None => (forall p, ports r.1 p = ports u p) /\ r.2 = s
  | Some (dport, d) =>
      (forall p, ports r.1 p = if decide (p = dport) then (fun q => lossy q d) <$> ports u p else ports u p) /\
      r.2 = match ports u dport with
            | Some _ => Sched.sched_wake_cond Sched.WAIT_NET dport s
            | None => s
            end
  end.
Proof.
  intros Hok. cbv zeta. unfold udp_input, decode.
  assert (Hok1 : udp_ok (u <| g_rx := u64 (g_rx u + 1) |>)) by (split; apply Hok).
  assert (Hok2 : udp_ok (u <| g_rx := u64 (g_rx u + 1) |> <| g_dropped := u64 (g_dropped u + 1) |>)) by (split; apply Hok).
  set (u1 := u <| g_rx := u64 (g_rx u + 1) |>) in *.
  set (u2 := u1 <| g_dropped := _ |>) in *.
  destruct (len pkt <? UDP_HDR_LEN) eqn:E1; [done|].
  set (ulen := net_ntohs (ld16 pkt 4)). cbn [orb].
  destruct ((ulen <? UDP_HDR_LEN) || (len pkt <? ulen)) eqn:E2; [done|].
  apply orb_false_iff in E2 as [H1%Z.ltb_ge H2%Z.ltb_ge]. apply Z.ltb_ge in E1.
  set (dport := net_ntohs (ld16 pkt 2)). set (sport := net_ntohs (ld16 pkt 0)).
  set (payload := Ring.slice pkt UDP_HDR_LEN (Z.min (ulen - UDP_HDR_LEN) UDP_DGRAM_MAX)).
  assert (Hpl : len payload <= UDP_DGRAM_MAX).
  { unfold payload, Ring.slice, len, UDP_DGRAM_MAX in *. rewrite length_take. lia. }
  assert (Hfind : forall p, udp_find p u1 = udp_find p u) by done.
  rewrite Hfind. destruct (udp_find dport u) as [i|] eqn:Ef.
  - pose proof Ef as (Hi & Hu & Hp)%udp_find_Some; [|done].
    assert (Hb : bind_ok (aget (g_udp u1) i)).
    { apply Forall_aget; [apply Hok|]. cbn. rewrite (uk_len _ Hok). lia. }
    destruct (make_room_spec _ Hb) as (Hb1 & Hc1 & Eu1 & Ep1 & Eq1).
    destruct (enqueue_spec payload src sport _ Hb1 Hpl Hc1) as (Hb2 & Eq2).
    destruct (mod_bind_same i (fun b => enqueue payload src sport (make_room b)) u1 Hok1 Hi) as [Hok3 Hp3];
      [exact Eu1|exact Ep1|exact Hb2|].
    cbn [fst snd]. split; [exact Hok3|]. split.
    + intros p. rewrite Hp3. change (ports u1 p) with (ports u p). rewrite Hfind.
      destruct (decide (p = dport)) as [->|Hne].
      * rewrite decide_True by done. unfold ports. rewrite Ef. cbn [fmap option_fmap option_map].
        f_equal. unfold lossy. rewrite Eq2, Eq1. done.
      * rewrite decide_False; [done|]. intros E. apply udp_find_Some in E as (_ & _ & E); [|done]. congruence.
    + unfold ports. rewrite Ef. done.
  - cbn [fst snd]. split; [done|]. split; [|unfold ports; by rewrite Ef].
    intros p. change (ports u2 p) with (ports u p). case_decide as E; [|done]. subst p.
    unfold ports. by rewrite Ef.
Qed.

Lemma udp_recv_spec p max u : udp_ok u -> 0 <= max < 2 ^ 31 ->
  let r := udp_recv p max u in
  udp_ok r.1 /\
  match ports u p with
  | None => r = (u, RecvError (-1))
  | Some [] => r = (u, RecvError 0)
  | Some ((a, q, d) :: rest) =>
      r.2 = RecvData (Z.min (len d) max) (take (Z.to_nat max) d) a q /\
      forall p', ports r.1 p' = if decide (p' = p) then Some rest else ports u p'
  end.
Proof.
  intros Hok Hmax. cbv zeta. unfold udp_recv, ports.
  destruct (udp_find p u) as [i|] eqn:Ef; [|done]. cbn [fmap option_fmap option_map].
  pose proof Ef as (Hi & Hu & Hp)%udp_find_Some; [|done].
  set (b := aget (g_udp u) i) in *.
  assert (Hb : bind_ok b).
  { apply Forall_aget; [apply Hok|]. rewrite (uk_len _ Hok). lia. }
  destruct (Z.eqb_spec (qcount b) 0) as [Hz|Hnz].
  { assert (queue b = []) as -> by (unfold queue; rewrite Hz; apply Ring.ring_list_empty). done. }
  pose proof (bk_count _ Hb) as Hc. pose proof (bk_head _ Hb) as Hh.
  destruct (pop_ok b (b_dropped b) Hb ltac:(lia)) as [Hb' Eq].
  set (f := fun b : udp_bind_t => b <| qhead := (qhead b + 1) mod UDP_QUEUE_DEPTH |> <| qcount := qcount b - 1 |>).
  assert (Ebf : b <| qhead := (qhead b + 1) mod UDP_QUEUE_DEPTH |> <| qcount := qcount b - 1 |>
                  <| b_dropped := b_dropped b |> = f b) by (by destruct b).
  rewrite Ebf in Hb', Eq. rewrite Eq. unfold slot_dgram. cbn [fst snd].
  destruct (mod_bind_same i f u Hok Hi eq_refl eq_refl Hb') as [Hok' Hp'].
  split; [exact Hok'|]. unfold UDP_QUEUE_DEPTH in Hh.
  assert (Hdl : 0 <= aget (dlen b) (qhead b) <= UDP_DGRAM_MAX).
  { apply (Forall_aget (fun n => 0 <= n <= UDP_DGRAM_MAX)); [apply Hb|rewrite (bk_dlen _ Hb); lia]. }
  assert (Hsl : length (aget (data b) (qhead b)) = 512%nat).
  { apply (Forall_aget (fun d => length d = 512%nat)); [apply Hb|rewrite (bk_data _ Hb); lia]. }
  set (n := aget (dlen b) (qhead b)) in *. unfold UDP_DGRAM_MAX in *.
  rewrite u32_small by lia. rewrite (proj2 (Z.ltb_ge 512 (Z.min n max))) by lia. split.
  - f_equal; [unfold len; rewrite length_take; lia|]. rewrite take_take. f_equal. lia.
  - intros p'. specialize (Hp' p'). unfold ports in Hp'. etransitivity; [exact Hp'|]. clear Hp'.
    destruct (decide (p' = p)) as [->|Hne].
    + by rewrite decide_True.
    + rewrite decide_False; [done|]. intros E. apply udp_find_Some in E as (_ & _ & E); [|done].
      apply Hne. rewrite <- E. exact Hp.
Qed.

(** A negative [max] (a [size_t] above 2^31 cast to [int]) turns into a copy
    of nearly 4 GiB out of a 512-byte slot. *)
Example recv_negative_max (s : Sched.sched) :
  (udp_recv 9 (-1) (udp_input (udp_packet 1 9 [5]) 7 (udp_bind 9 0 udp_start).1 s).1).2
  = RecvOverrun 4294967295.
Proof. vm_compute. reflexivity. Qed.

(** ** The port table as a specification *)

(** The operations, and what the caller sees of each. *)
Inductive udp_op :=
| OpBind (p pid : Z)
| OpUnbind (p : Z)
| OpInput (pkt : bytes) (src : Z)
| OpRecv (p max : Z).

Inductive udp_out := OutCode (r : Z) | OutRecv (r : recv_result) | OutNone.

Definition udp_step (o : udp_op) (us : udp * Sched.sched) : udp * Sched.sched * udp_out :=
  let '(u, s) := us in
  match o with
  | OpBind p pid => let '(u', r) := udp_bind p pid u in (u', s, OutCode r)
  | OpUnbind p => (udp_unbind p u, s, OutNone)
  | OpInput pkt src => (udp_input pkt src u s, OutNone)
  | OpRecv p max => let '(u', r) := udp_recv p max u in (u', s, OutRecv r)
  end.

Fixpoint udp_run (os : list udp_op) (us : udp * Sched.sched) : udp * Sched.sched * list udp_out :=
  match os with
  | [] => (us, [])
  | o :: os' =>
      let '(us1, x) := udp_step o us in
      let '(us2, xs) := udp_run os' us1 in (us2, x :: xs)
  end.

(** The specification: a partial map from ports to bounded lossy queues. *)
Definition spec : Type := Z -> option (list dgram).

Inductive spec_step (m : spec) : udp_op -> udp_out -> spec -> Prop :=
| SBind p pid m' : p <> 0 -> m p = None ->
    (forall q, m' q = if decide (q = p) then Some [] else m q) ->
    spec_step m (OpBind p pid) (OutCode 0) m'
| SBindFail p pid r m' : r <> 0 -> (forall q, m' q = m q) -> spec_step m (OpBind p pid) (OutCode r) m'
| SUnbind p m' : (forall q, m' q = if decide (q = p) then None else m q) ->
    spec_step m (OpUnbind p) OutNone m'
| SIgnore pkt src m' : decode pkt src = None -> (forall q, m' q = m q) ->
    spec_step m (OpInput pkt src) OutNone m'
| SInput pkt src p d m' : decode pkt src = Some (p, d) ->
    (forall q, m' q = if decide (q = p) then (fun l => lossy l d) <$> m q else m q) ->
    spec_step m (OpInput pkt src) OutNone m'
| SRecvUnbound p max m' : m p = None -> (forall q, m' q = m q) ->
    spec_step m (OpRecv p max) (OutRecv (RecvError (-1))) m'
| SRecvEmpty p max m' : m p = Some [] -> (forall q, m' q = m q) ->
    spec_step m (OpRecv p max) (OutRecv (RecvError 0)) m'
| SRecv p max a q d rest m' : m p = Some ((a, q, d) :: rest) ->
    (forall p', m' p' = if decide (p' = p) then Some rest else m p') ->
    spec_step m (OpRecv p max) (OutRecv (RecvData (Z.min (len d) max) (take (Z.to_nat max) d) a q)) m'.

Inductive spec_run : spec -> list udp_op -> list udp_out -> spec -> Prop :=
| SRNil m m' : (forall q, m' q = m q) -> spec_run m [] [] m'
| SRCons m o x m1 os xs m2 : spec_step m o x m1 -> spec_run m1 os xs m2 ->
    spec_run m (o :: os) (x :: xs) m2.

Definition op_ok (o : udp_op) : Prop := match o with OpRecv _ max => 0 <= max < 2 ^ 31 | _ => True end.

Lemma udp_step_refines o u s : udp_ok u -> op_ok o ->
  let r := udp_step o (u, s) in
  udp_ok r.1.1 /\ spec_step (ports u) o r.2 (ports r.1.1).
Proof.
  intros Hok Ho. destruct o as [p pid|p|pkt src|p max]; cbn.
  - destruct (udp_bind_spec p pid u Hok) as (Hok' & H0 & H1).
    destruct (udp_bind p pid u) as [u' r]. cbn in *. split; [done|].
    destruct (Z.eq_dec r 0) as [->|Hr].
    + destruct (H0 eq_refl) as (Hp & Hn & Hq). by apply SBind.
    + apply SBindFail; [done|]. by rewrite (H1 Hr).
  - destruct (udp_unbind_spec p u Hok) as (Hok' & Hq). split; [done|]. by apply SUnbind.
  - destruct (udp_input_spec pkt src u s Hok) as (Hok' & Hq).
    destruct (udp_input pkt src u s) as [u' s']. cbn in *. split; [done|].
    destruct (decode pkt src) as [[p d]|] eqn:Ed.
    + apply (SInput _ _ _ p d _ Ed). apply Hq.
    + apply SIgnore; [done|]. apply Hq.
  - destruct (udp_recv_spec p max u Hok Ho) as (Hok' & Hq).
    destruct (udp_recv p max u) as [u' r]. cbn in *. split; [done|].
    destruct (ports u p) as [[|[[a q] d] rest]|] eqn:Ep.
    + injection Hq as -> ->. by apply SRecvEmpty.
    + destruct Hq as [-> Hq]. by apply (SRecv _ p max a q d rest).
    + injection Hq as -> ->. by apply SRecvUnbound.
Qed.

Lemma udp_start_ok : udp_ok udp_start.
Proof.
  split; cbn [udp_start g_udp].
  - apply length_replicate.
  - apply Forall_replicate. exact (zero_bind_ok (0, (0, 0))).
  - intros i j a b [-> _]%lookup_replicate _ Ha. done.
Qed.

(** C16: for every sequence of binds, unbinds, incoming packets (well formed or
    not) and receives, the port table with its circular buffers behaves as a
    map from ports to first-in first-out queues of whole datagrams that hold
    four, keep 512 bytes of each payload and give up the oldest when full: every value
    a caller sees is the one the specification gives, and no operation on one
    port disturbs another. *)
Theorem udp_refines_lossy_queues os s : Forall op_ok os ->
  let r := udp_run os (udp_start, s) in
  udp_ok r.1.1 /\ spec_run (ports udp_start) os r.2 (ports r.1.1).
Proof.
  intros Hos. generalize udp_start_ok. generalize udp_start as u. revert s.
  induction os as [|o os IH]; intros s u Hok; cbv zeta; cbn [udp_run].
  - split; [done|by apply SRNil].
  - apply Forall_cons in Hos as [Ho Hos].
    destruct (udp_step_refines o u s Hok Ho) as [Hok1 Hst].
    destruct (udp_step o (u, s)) as [[u1 s1] x]. cbn [fst snd] in Hok1, Hst.
    destruct (IH Hos s1 u1 Hok1) as [Hok2 Hrun].
    destruct (udp_run os (u1, s1)) as [[u2 s2] xs]. cbn [fst snd] in *.
    split; [done|]. exact (SRCons _ o x _ _ _ _ Hst Hrun).
Qed.

Lemma udp_refines_lossy_queues_witness (s := Sched.sched_bss) :
  let os := [OpBind 9 0; OpInput (udp_packet 1 9 [5; 6]) 7; OpRecv 9 64] in
  spec_run (ports udp_start) os [OutCode 0; OutNone; OutRecv (RecvData 2 [5; 6] 7 1)]
    (ports (udp_run os (udp_start, s)).1.1).
Proof.
  exact (proj2 (udp_refines_lossy_queues [OpBind 9 0; OpInput (udp_packet 1 9 [5; 6]) 7; OpRecv 9 64] s
    ltac:(repeat constructor; done))).
Defined.
End Udp.
