(* ===== verification/NetIn.v ===== *)
(** The receive path (src/src/kernel/net/net.c net_rx, net/ip.c ip_input and
    icmp_input): from a frame the driver hands up to the ARP cache, the ping
    counters or a port's queue; and the two ends of the stack together. *)
From S2P Require Import Prelude Ring Sched Net Eth Ip Udp.

Module NetIn.
Import Net Eth Ip Udp.

Definition ICMP_TYPE_ECHO_REPLY : Z := 0.
Definition ICMP_TYPE_UNREACHABLE : Z := 3.
Definition ICMP_TYPE_ECHO_REQUEST : Z := 8.

(** The protocol stack and the scheduler it wakes tasks of. *)
Record stack D := Stack { ipl : ipst D; udpl : udp; sch : Sched.sched }.
Arguments Stack {D}. Arguments ipl {D}. Arguments udpl {D}. Arguments sch {D}.
#[export] Instance eta_stack D : Eta (stack D) := fun r => Stack (ipl r) (udpl r) (sch r).

Section NetIn.
  Context {D : Type} `{NicOps D}.

Definition sdevs (st : stack D) : devs D := ndevs (link (ipl st)).
Definition mod_devs (f : devs D -> devs D) (st : stack D) : stack D :=
    st <| ipl := ipl st <| link := link (ipl st) <| ndevs := f (sdevs st) |> |> |>.
Definition drop_in (st : stack D) : stack D := mod_devs drop_rx st.

(** The answer to an echo request: the same packet with the type and the
    checksum replaced. *)
Definition echo_reply (pkt : bytes) : bytes :=
    let zeroed := Ring.blit (aset pkt 0 ICMP_TYPE_ECHO_REPLY) 2 (le16 0) in
    Ring.blit zeroed 2 (le16 (ip_checksum zeroed)).

Definition icmp_input (now : Z) (pkt : bytes) (src_ip : Z) (s : ipst D) : ipst D :=
    if len pkt <? ICMP_HDR_LEN then s else
    let typ := aget pkt 0 in
    if typ =? ICMP_TYPE_ECHO_REPLY then
      let s1 := s <| g_ping_recv := u64 (g_ping_recv s + 1) |> in
      if g_ping_last_send_ms s1 =? 0 then s1 else
      let rtt := u64 (now - g_ping_last_send_ms s1) in
      s1 <| g_ping_last_rtt := rtt |> <| g_ping_total_rtt := u64 (g_ping_total_rtt s1 + rtt) |>
    else if typ =? ICMP_TYPE_ECHO_REQUEST then
      let s1 := s <| g_ping_echo_req := u64 (g_ping_echo_req s + 1) |> in
      if MTU <? len pkt then s1 else (ip_send src_ip IP_PROTO_ICMP (echo_reply pkt) s1).1
    else if typ =? ICMP_TYPE_UNREACHABLE then s <| g_ping_unreach := u64 (g_ping_unreach s + 1) |>
    else s.

(** The protocol switch at the end of [ip_input]. *)
Definition ip_deliver (now proto src : Z) (payload : bytes) (st : stack D) : stack D :=
    if proto =? IP_PROTO_ICMP then st <| ipl := icmp_input now payload src (ipl st) |>
    else if proto =? IP_PROTO_UDP then
      let '(u, s) := udp_input payload src (udpl st) (sch st) in st <| udpl := u |> <| sch := s |>
    else drop_in st.

Definition ip_input (now : Z) (pkt : bytes) (st : stack D) : stack D :=
    if len pkt <? IP_HDR_LEN then drop_in st else
    if negb (Z.shiftr (aget pkt 0) 4 =? 4) then drop_in st else
    let ihl := Z.land (aget pkt 0) 15 * 4 in
    if (ihl <? IP_HDR_LEN) || (len pkt <? ihl) then drop_in st else
    let total := net_ntohs (ld16 pkt 2) in
    if (total <? ihl) || (len pkt <? total) then drop_in st else
    let frag := net_ntohs (ld16 pkt 6) in
    if negb (Z.land frag 8192 =? 0) || negb (Z.land frag 8191 =? 0) then drop_in st else
    if negb (ip_checksum (take (Z.to_nat ihl) pkt) =? 0) then drop_in st else
    let dst := net_ntohl (ld32 pkt 16) in
    match net_default (sdevs st) with
    | Some dev =>
        if negb (dst =? ip dev) && negb (dst =? 4294967295) then drop_in st
        else ip_deliver now (aget pkt 9) (net_ntohl (ld32 pkt 12)) (Ring.slice pkt ihl (total - ihl)) st
    | None => ip_deliver now (aget pkt 9) (net_ntohl (ld32 pkt 12)) (Ring.slice pkt ihl (total - ihl)) st
    end.

Definition net_rx (now : Z) (frame : bytes) (st : stack D) : stack D :=
    if len frame <? ETH_HDR_LEN then drop_in st else
    let st1 := mod_devs (mod_default (fun d => d <| rx_packets := u64 (rx_packets d + 1) |>)) st in
    let type := Z.lor (Z.shiftl (aget frame 12) 8) (aget frame 13) in
    let body := drop (Z.to_nat ETH_HDR_LEN) frame in
    if type =? ETH_TYPE_ARP then
      st1 <| ipl := ipl st1 <| link := arp_input now body (link (ipl st1)) |> |>
    else if type =? ETH_TYPE_IP then ip_input now body st1
    else drop_in st1.
End NetIn.

(** ** A packet from [ip_send] is accepted by [ip_input] *)
Lemma is_byte_be16 v : Forall is_byte (be16 v).
Proof. repeat constructor; apply Z.mod_pos_bound; lia. Qed.
Lemma is_byte_be32 v : Forall is_byte (be32 v).
Proof. repeat constructor; apply Z.mod_pos_bound; lia. Qed.

Lemma ip_header_verifies id n proto src dst : is_byte proto ->
  ip_checksum (ip_header id n proto src dst (ip_checksum (ip_header id n proto src dst 0))) = 0.
Proof.
  intros Hp. unfold ip_header. rewrite !le16_htons, !le32_htonl.
  pose proof (checksum_fills
    ([69; 0] ++ be16 (u16 (IP_HDR_LEN + n)) ++ be16 id ++ le16 0 ++ [64; proto])
    (be32 src ++ be32 dst)) as E.
  rewrite <- !app_assoc in E. cbn [app] in E. cbn [app]. apply E; clear E.
  - rewrite !Forall_cons, !Forall_app. split_and!; try done; try apply is_byte_be16.
    all: repeat (apply Forall_cons_2 || apply Forall_nil_2); done.
  - rewrite Forall_app. split; apply is_byte_be32.
  - done.
  - done.
Qed.

Lemma ip_packet_fields id proto src dst payload :
  is_byte proto -> 0 <= src < 2 ^ 32 -> 0 <= dst < 2 ^ 32 -> len payload <= 1480 ->
  let p := ip_packet id proto src dst payload in
  len p = 20 + len payload /\ aget p 0 = 69 /\ net_ntohs (ld16 p 2) = 20 + len payload /\
  net_ntohs (ld16 p 6) = 0 /\ aget p 9 = proto /\ net_ntohl (ld32 p 12) = src /\
  net_ntohl (ld32 p 16) = dst /\ ip_checksum (take 20 p) = 0 /\
  Ring.slice p 20 (20 + len payload - 20) = payload.
Proof.
  intros Hp Hs Hd Hl. cbv zeta. unfold ip_packet.
  pose proof (ip_header_verifies id (len payload) proto src dst Hp) as Hc.
  set (c := ip_checksum (ip_header id (len payload) proto src dst 0)) in *. clearbody c.
  unfold ip_header in *. rewrite !le16_htons, !le32_htonl in *.
  pose proof (len_nonneg payload).
  refine (conj _ (conj eq_refl (conj _ (conj eq_refl (conj eq_refl (conj _ (conj _ (conj Hc _)))))))).
  - unfold len. simpl. lia.
  - rewrite <- (u16_small (20 + len payload)) by lia. exact (ntohs_be _ (u16_range _)).
  - exact (ntohl_be src Hs).
  - exact (ntohl_be dst Hd).
  - unfold Ring.slice. replace (20 + len payload - 20) with (len payload) by lia.
    transitivity (take (Z.to_nat (len payload)) payload); [done|].
    apply take_ge. unfold len. lia.
Qed.

Section Receive.
  Context {D : Type} `{NicSpec D}.

(** Addressed to this interface, or broadcast, or no interface at all. *)
Definition for_us (dst : Z) (n : devs D) : Prop :=
    match net_default n with Some d => dst = ip d \/ dst = 4294967295 | None => True end.

Lemma ip_input_packet now id proto src dst payload (st : stack D) :
    is_byte proto -> 0 <= src < 2 ^ 32 -> 0 <= dst < 2 ^ 32 -> len payload <= 1480 ->
    for_us dst (sdevs st) ->
    ip_input now (ip_packet id proto src dst payload) st = ip_deliver now proto src payload st.
  Proof.
    intros Hp Hs Hd Hl Hus.
    destruct (ip_packet_fields id proto src dst payload Hp Hs Hd Hl)
      as (E0 & E1 & E2 & E3 & E4 & E5 & E6 & E7 & E8).
    set (p := ip_packet id proto src dst payload) in *. clearbody p.
    pose proof (len_nonneg payload). unfold ip_input. rewrite E0, E1, E2, E3, E4, E5, E6.
    rewrite (proj2 (Z.ltb_ge _ _)) by (unfold IP_HDR_LEN; lia). change (Z.shiftr 69 4 =? 4) with true.
    change (Z.land 69 15 * 4) with 20. cbv zeta. cbn [negb].
    change (20 <? IP_HDR_LEN) with false. rewrite (proj2 (Z.ltb_ge (20 + len payload) 20)) by lia.
    rewrite (proj2 (Z.ltb_ge (20 + len payload) (20 + len payload))) by lia. cbn [orb].
    change (Z.land 0 8192 =? 0) with true. change (Z.land 0 8191 =? 0) with true. cbn [negb orb].
    change (Z.to_nat 20) with 20%nat. rewrite E7, Z.eqb_refl. cbn [negb]. rewrite E8.
    unfold for_us in Hus. destruct (net_default (sdevs st)) as [dev|]; [|done].
    destruct Hus as [->| ->].
    - by rewrite Z.eqb_refl.
    - by rewrite andb_false_r.
  Qed.

(** The state after the frame is counted. *)
Definition counted (st : stack D) : stack D :=
    mod_devs (mod_default (fun d => d <| rx_packets := u64 (rx_packets d + 1) |>)) st.

Definition ip_frame (dm sm pkt : bytes) : bytes := dm ++ sm ++ be16 ETH_TYPE_IP ++ pkt.

Lemma len_ip_frame dm sm pkt : length dm = 6%nat -> length sm = 6%nat -> len (ip_frame dm sm pkt) = 14 + len pkt.
  Proof. intros E1 E2. unfold ip_frame, len. rewrite !length_app, E1, E2. simpl. lia. Qed.

Lemma net_rx_ip now dm sm pkt (st : stack D) :
    length dm = 6%nat -> length sm = 6%nat ->
    net_rx now (ip_frame dm sm pkt) st = ip_input now pkt (counted st).
  Proof.
    intros H1 H2. unfold net_rx. rewrite len_ip_frame by done.
    pose proof (len_nonneg pkt). rewrite (proj2 (Z.ltb_ge _ _)) by (unfold ETH_HDR_LEN; lia).
    destruct (length6 dm H1) as (a0 & a1 & a2 & a3 & a4 & a5 & ->).
    destruct (length6 sm H2) as (b0 & b1 & b2 & b3 & b4 & b5 & ->). done.
  Qed.

Lemma counted_facts dst (st : stack D) :
    wire (sdevs (counted st)) = wire (sdevs st) /\
    (for_us dst (sdevs st) -> for_us dst (sdevs (counted st))) /\
    (eth_ok (link (ipl st)) -> eth_ok (link (ipl (counted st)))) /\
    (ip_dev (ipl (counted st)) = (fun d => d <| rx_packets := u64 (rx_packets d + 1) |>) <$> ip_dev (ipl st)).
  Proof.
    unfold counted, mod_devs, mod_default, sdevs, for_us, ip_dev, wire, net_default. cbn.
    destruct (g_devs (ndevs (link (ipl st)))) as [|d ds] eqn:E; cbn; rewrite ?E; cbn.
    - split_and!; try done. intros Hok. split; [apply Hok..|]. cbn. intros d Hd. apply (ok_mac _ Hok). done.
    - split_and!; try done. intros Hok. split; [apply Hok..|]. cbn. intros d' [= <-]. cbn.
      apply (ok_mac _ Hok). unfold net_default. by rewrite E.
  Qed.

(** Sending to a known neighbour puts the frame on the wire at once. *)
Lemma ip_send_hit dst proto payload (s : ipst D) d m :
    eth_ok (link s) -> ip_dev s = Some d -> arp_lookup dst (link s) = Some m -> len payload <= 1480 ->
    let frame := ip_frame m (mac d) (ip_packet (g_ip_id s) proto (ip d) dst payload) in
    ip_send dst proto payload s =
      (s <| g_ip_id := u16 (g_ip_id s + 1) |> <| link := tx frame (link s) |>, 0) /\
    eth_ok (tx frame (link s)) /\ ewire (tx frame (link s)) = ewire (link s) ++ [frame] /\
    my_ip (ndevs (tx frame (link s))) = my_ip (ndevs (link s)).
  Proof.
    intros Hok Hd Hl Hp. cbv zeta. pose proof (len_nonneg payload).
    pose proof (arp_lookup_mac _ _ _ Hok Hl) as Hm. pose proof (ok_mac _ Hok d Hd) as Hdm.
    set (pkt := ip_packet (g_ip_id s) proto (ip d) dst payload).
    assert (Hpl : len pkt = 20 + len payload) by (unfold pkt, ip_packet; rewrite len_app; done).
    assert (Hfl : len (ip_frame m (mac d) pkt) = 34 + len payload) by (rewrite len_ip_frame by done; lia).
    split; [|destruct (tx_spec (ip_frame m (mac d) pkt) (link s) Hok ltac:(by eexists)) as (Hok1 & Hw & _ & Hi & _);
             [unfold ETH_HDR_LEN, ETH_FRAME_MAX; lia|done]].
    unfold ip_send. rewrite Hd. rewrite u32_small by (unfold IP_HDR_LEN; lia).
    rewrite (proj2 (Z.ltb_ge _ _)) by (unfold IP_HDR_LEN, MTU; lia). fold pkt. rewrite le16_htons.
    assert (E : replicate 6 0 ++ mac d ++ be16 ETH_TYPE_IP ++ pkt = ip_frame (replicate 6 0) (mac d) pkt) by done.
    rewrite E. rewrite (eth_output_hit dst _ m _ Hl).
    - rewrite blit0. unfold ip_frame at 1. rewrite Hm. done.
    - rewrite len_ip_frame by done. unfold ETH_HDR_LEN, ETH_FRAME_MAX. lia.
  Qed.
End Receive.

(** ** Two machines *)
Section EndToEnd.
  Context {A B : Type} `{NicSpec A, NicSpec B}.

(** C15: a datagram that [udp_send] accepts for a known neighbour is handed to
    the card as one frame, and that frame, when the neighbour's [net_rx] is
    given it, passes every check
    of the Ethernet, IP and UDP layers there: the port's queue gains exactly
    the sender's address, the port and the payload byte for byte, the tasks
    blocked on the port are woken, no other port changes, and [udp_recv] on a
    port whose queue was empty returns it. *)
Theorem udp_end_to_end now u (a : ipst A) d m dst dport payload (b : stack B) q :
    eth_ok (link a) -> ip_dev a = Some d -> arp_lookup dst (link a) = Some m -> 0 <= ip d < 2 ^ 32 ->
    0 <= dst < 2 ^ 32 -> 0 <= dport < 2 ^ 16 -> len payload <= UDP_DGRAM_MAX ->
    for_us dst (sdevs b) -> udp_ok (udpl b) -> ports (udpl b) dport = Some q ->
    let '(_, a', r) := udp_send dst dport payload u a in
    r = 0 /\ exists frame,
      ewire (link a') = ewire (link a) ++ [frame] /\
      let b' := net_rx now frame b in
      (forall p, ports (udpl b') p =
         if decide (p = dport) then Some (lossy q (ip d, dport, payload)) else ports (udpl b) p) /\
      sch b' = Sched.sched_wake_cond Sched.WAIT_NET dport (sch b) /\
      (q = [] -> forall max, len payload <= max < 2 ^ 31 ->
         (udp_recv dport max (udpl b')).2 = RecvData (len payload) payload (ip d) dport).
  Proof.
    intros Hok Hd Hl Hip Hdst Hdp Hlen Hus Hub Hq. pose proof (len_nonneg payload) as Hnn.
    unfold UDP_DGRAM_MAX in Hlen. unfold udp_send.
    rewrite (proj2 (Z.ltb_ge _ _)) by (unfold MTU, IP_HDR_LEN, UDP_HDR_LEN; lia).
    assert (Hpl : len (udp_packet dport dport payload) = 8 + len payload).
    { unfold udp_packet. rewrite !len_app.
      change (2 + (2 + (2 + (2 + len payload))) = 8 + len payload). lia. }
    destruct (ip_send_hit dst IP_PROTO_UDP (udp_packet dport dport payload) a d m Hok Hd Hl ltac:(lia))
      as (-> & _ & Hw & _).
    cbn [Z.eqb negb]. split; [done|]. eexists. split; [exact Hw|]. cbv zeta.
    pose proof (arp_lookup_mac _ _ _ Hok Hl) as Hm6. pose proof (ok_mac _ Hok d Hd) as Hd6.
    rewrite net_rx_ip by done.
    rewrite ip_input_packet; [|done|done|done|lia|by apply counted_facts].
    change (ip_deliver now IP_PROTO_UDP ?s ?p ?st) with
      (let '(u, s1) := udp_input p s (udpl st) (sch st) in st <| udpl := u |> <| sch := s1 |>).
    change (udpl (counted b)) with (udpl b). change (sch (counted b)) with (sch b).
    pose proof (udp_input_spec (udp_packet dport dport payload) (ip d) (udpl b) (sch b) Hub) as Hin.
    destruct (udp_input (udp_packet dport dport payload) (ip d) (udpl b) (sch b)) as [u' s'].
    cbn [fst snd] in Hin. rewrite decode_packet in Hin by lia.
    rewrite take_ge in Hin by (unfold len in Hlen; lia).
    destruct Hin as (Hok' & Hports & Hs'). rewrite Hq in Hs'. cbn.
    split; [|split; [done|]].
    - intros p. rewrite Hports. case_decide; [|done]. subst p. by rewrite Hq.
    - intros -> max Hmax.
      pose proof (udp_recv_spec dport max u' Hok' ltac:(lia)) as [_ Hr].
      rewrite Hports, decide_True in Hr by done. rewrite Hq in Hr. cbn in Hr.
      destruct Hr as [-> _]. f_equal; [lia|]. apply take_ge. unfold len in Hmax. lia.
  Qed.

Lemma for_us_my_ip {D} `{NicSpec D} x (n : devs D) : my_ip n = Some x -> for_us x n.
  Proof. unfold my_ip, for_us. destruct (net_default n) as [d|]; [|done]. intros [= ->]. by left. Qed.

(** A well-formed echo request is answered with the same bytes but for type
    and checksum. *)
Lemma icmp_input_request {D} `{NicSpec D} now pkt src (s : ipst D) d m :
    eth_ok (link s) -> ip_dev s = Some d -> arp_lookup src (link s) = Some m ->
    ICMP_HDR_LEN <= len pkt <= 1480 -> aget pkt 0 = ICMP_TYPE_ECHO_REQUEST ->
    let s' := icmp_input now pkt src s in
    ewire (link s') = ewire (link s) ++
      [ip_frame m (mac d) (ip_packet (g_ip_id s) IP_PROTO_ICMP (ip d) src (echo_reply pkt))] /\
    g_ping_echo_req s' = u64 (g_ping_echo_req s + 1).
  Proof.
    intros Hok Hd Hl Hlen Ht. cbv zeta. unfold icmp_input.
    rewrite (proj2 (Z.ltb_ge _ _)) by (unfold ICMP_HDR_LEN in *; lia). rewrite Ht.
    rewrite (proj2 (Z.ltb_ge MTU _)) by (unfold MTU; lia). cbn [Z.eqb ICMP_TYPE_ECHO_REQUEST ICMP_TYPE_ECHO_REPLY].
    change (8 =? 0) with false. change (8 =? 8) with true. cbv iota.
    set (s1 := s <| g_ping_echo_req := _ |>).
    assert (Hel : len (echo_reply pkt) = len pkt).
    { unfold ICMP_HDR_LEN in Hlen. unfold echo_reply, len in *. f_equal.
      assert (Hb : forall q v, length q = length pkt -> length (Ring.blit q 2 (le16 v)) = length pkt).
      { intros q v Hq. rewrite Ring.length_blit; [done|lia|]. rewrite Hq.
        change (length (le16 v)) with 2%nat. lia. }
      apply Hb, Hb, length_aset. }
    destruct (ip_send_hit src IP_PROTO_ICMP (echo_reply pkt) s1 d m Hok Hd Hl ltac:(lia)) as (-> & _ & Hw & _).
    split; [exact Hw|done].
  Qed.

Lemma icmp_input_reply {D} `{NicSpec D} now pkt src (s : ipst D) :
    ICMP_HDR_LEN <= len pkt -> aget pkt 0 = ICMP_TYPE_ECHO_REPLY -> g_ping_last_send_ms s <> 0 ->
    let s' := icmp_input now pkt src s in
    g_ping_recv s' = u64 (g_ping_recv s + 1) /\
    g_ping_last_rtt s' = u64 (now - g_ping_last_send_ms s) /\ g_ping_sent s' = g_ping_sent s.
  Proof.
    intros Hlen Ht Hms. cbv zeta. unfold icmp_input.
    rewrite (proj2 (Z.ltb_ge _ _)) by lia. rewrite Ht. cbn. by rewrite (proj2 (Z.eqb_neq _ 0)) by done.
  Qed.

(** The echo request [icmp_send_ping] builds. *)
Definition ping_packet {D} (s : ipst D) : bytes :=
    let seq := u16 (g_ping_seq s + 1) in
    icmp_packet 8 0 (ip_checksum (icmp_packet 8 0 0 (g_ping_id s) seq (replicate 32 66))) (g_ping_id s) seq
      (replicate 32 66).

Lemma icmp_send_ping_hit {D} `{NicSpec D} now dst (s : ipst D) d m :
    eth_ok (link s) -> ip_dev s = Some d -> arp_lookup dst (link s) = Some m ->
    let s' := icmp_send_ping now dst s in
    ewire (link s') = ewire (link s) ++
      [ip_frame m (mac d) (ip_packet (g_ip_id s) IP_PROTO_ICMP (ip d) dst (ping_packet s))] /\
    my_ip (ndevs (link s')) = my_ip (ndevs (link s)) /\
    g_ping_sent s' = u64 (g_ping_sent s + 1) /\ g_ping_recv s' = g_ping_recv s /\
    g_ping_last_send_ms s' = now.
  Proof.
    intros Hok Hd Hl. cbv zeta. unfold icmp_send_ping. fold (ping_packet s).
    set (s1 := s <| g_ping_seq := _ |>).
    destruct (ip_send_hit dst IP_PROTO_ICMP (ping_packet s) s1 d m Hok Hd Hl ltac:(done)) as (-> & _ & Hw & Hi).
    split; [exact Hw|]. split; [exact Hi|]. done.
  Qed.

(** A ping between two machines that know each other's hardware address:
    the request is answered by the other side, whose reply passes the checks of
    the sender's stack and is counted with the elapsed time as round-trip time. *)
Theorem ping_roundtrip now t now' (a : stack A) (b : stack B) da db mb ma :
    eth_ok (link (ipl a)) -> eth_ok (link (ipl b)) ->
    ip_dev (ipl a) = Some da -> ip_dev (ipl b) = Some db ->
    arp_lookup (ip db) (link (ipl a)) = Some mb -> arp_lookup (ip da) (link (ipl b)) = Some ma ->
    0 <= ip da < 2 ^ 32 -> 0 <= ip db < 2 ^ 32 -> 0 < now <= now' -> now' < 2 ^ 64 ->
    let a1 := icmp_send_ping now (ip db) (ipl a) in
    exists request reply,
      ewire (link a1) = ewire (link (ipl a)) ++ [request] /\
      let b1 := net_rx t request b in
      ewire (link (ipl b1)) = ewire (link (ipl b)) ++ [reply] /\
      g_ping_echo_req (ipl b1) = u64 (g_ping_echo_req (ipl b) + 1) /\
      let a2 := ipl (net_rx now' reply (a <| ipl := a1 |>)) in
      g_ping_sent a2 = u64 (g_ping_sent (ipl a) + 1) /\
      g_ping_recv a2 = u64 (g_ping_recv (ipl a) + 1) /\ g_ping_last_rtt a2 = now' - now.
  Proof.
    intros Hoka Hokb Hda Hdb Hla Hlb Hia Hib Hnow Hnow'. cbv zeta.
    destruct (icmp_send_ping_hit now (ip db) (ipl a) da mb Hoka Hda Hla) as (Hw1 & Hi1 & Hs1 & Hr1 & Hm1).
    set (a1 := icmp_send_ping now (ip db) (ipl a)) in *. clearbody a1.
    eexists _, _. split; [exact Hw1|].
    destruct (counted_facts (ip db) b) as (Ewb & Eub & Eok & Edev).
    pose proof (arp_lookup_mac _ _ _ Hoka Hla) as Hmb.
    pose proof (arp_lookup_mac _ _ _ Hokb Hlb) as Hma.
    pose proof (ok_mac _ Hoka da Hda) as Hmda. pose proof (ok_mac _ Hokb db Hdb) as Hmdb.
    rewrite net_rx_ip by done. rewrite ip_input_packet; [|done..|].
    2: { apply Eub. unfold for_us, sdevs. change (net_default _) with (ip_dev (ipl b)). rewrite Hdb. by left. }
    change (ip_deliver ?t IP_PROTO_ICMP ?s ?p ?st) with (st <| ipl := icmp_input t p s (ipl st) |>).
    cbn [ipl update eta_stack].
    destruct (icmp_input_request t (ping_packet (ipl a)) (ip da) (ipl (counted b))
                (db <| rx_packets := u64 (rx_packets db + 1) |>) ma (Eok Hokb)) as (Hw2 & He2);
      [by rewrite Edev, Hdb|exact Hlb|done|done|].
    split; [rewrite Hw2; unfold ewire, sdevs in *; by rewrite Ewb|]. split; [exact He2|].
    rewrite net_rx_ip by done. rewrite ip_input_packet; [|done..|].
    2: { apply counted_facts. apply for_us_my_ip. etransitivity; [exact Hi1|].
         unfold my_ip. change (net_default _) with (ip_dev (ipl a)). by rewrite Hda. }
    change (ip_deliver ?t IP_PROTO_ICMP ?s ?p ?st) with (st <| ipl := icmp_input t p s (ipl st) |>).
    cbn [ipl update eta_stack].
    set (a' := a <| ipl := a1 |>).
    destruct (icmp_input_reply now' (echo_reply (ping_packet (ipl a))) (ip db) (ipl (counted a'))) as (Hr2 & Hrtt & Hsent);
      [done|done| |].
    { change (g_ping_last_send_ms a1 <> 0). lia. }
    change (g_ping_recv (ipl (counted a'))) with (g_ping_recv a1) in Hr2.
    change (g_ping_last_send_ms (ipl (counted a'))) with (g_ping_last_send_ms a1) in Hrtt.
    change (g_ping_sent (ipl (counted a'))) with (g_ping_sent a1) in Hsent.
    split; [etransitivity; [exact Hsent|exact Hs1]|].
    split; [etransitivity; [exact Hr2|by rewrite Hr1]|].
    etransitivity; [exact Hrtt|]. rewrite Hm1. apply u64_small. lia.
  Qed.
End EndToEnd.

(** Two machines on one wire. *)
Definition ip_a : Z := 167772687.
Definition ip_b : Z := 167772674.
Definition mac_a : bytes := [2; 0; 0; 0; 0; 1].
Definition mac_b : bytes := [2; 0; 0; 0; 0; 2].
Definition demo_stack (m : bytes) (a nb : Z) (nm : bytes) : stack log_nic :=
  Stack (ip_start (arp_update 5 nb nm (demo_eth m a))) (udp_bind 9 0 udp_start).1 Sched.sched_bss.

Lemma demo_eth_ok m a nb nm : length m = 6%nat -> length nm = 6%nat ->
  eth_ok (link (ipl (demo_stack m a nb nm))).
Proof.
  intros Hm Hnm. apply arp_update_ok; [|done..]. apply eth_start_ok. by intros d [= <-].
Qed.

Lemma udp_end_to_end_witness :
  let a := demo_stack mac_a ip_a ip_b mac_b in
  let b := demo_stack mac_b ip_b ip_a mac_a in
  let r := udp_send ip_b 9 [104; 105] udp_start (ipl a) in
  exists frame, ewire (link r.1.2) = ewire (link (ipl a)) ++ [frame] /\
    (udp_recv 9 64 (udpl (net_rx 7 frame b))).2 = RecvData 2 [104; 105] ip_a 9.
Proof.
  cbv zeta.
  destruct (udp_end_to_end 7 udp_start (ipl (demo_stack mac_a ip_a ip_b mac_b)) (demo_dev mac_a ip_a) mac_b
    ip_b 9 [104; 105] (demo_stack mac_b ip_b ip_a mac_a) []
    (demo_eth_ok mac_a ip_a ip_b mac_b eq_refl eq_refl) eq_refl eq_refl ltac:(done) ltac:(done) ltac:(done)
    ltac:(done) (or_introl eq_refl) (proj1 (udp_bind_spec 9 0 udp_start udp_start_ok)) eq_refl)
    as (_ & frame & Hw & _ & _ & Hr).
  exists frame. split; [exact Hw|]. exact (Hr eq_refl 64 ltac:(done)).
Defined.

Lemma ping_roundtrip_witness :
  let a := demo_stack mac_a ip_a ip_b mac_b in
  let b := demo_stack mac_b ip_b ip_a mac_a in
  let a1 := icmp_send_ping 100 ip_b (ipl a) in
  exists request reply,
    ewire (link a1) = ewire (link (ipl a)) ++ [request] /\
    ewire (link (ipl (net_rx 101 request b))) = ewire (link (ipl b)) ++ [reply] /\
    g_ping_last_rtt (ipl (net_rx 130 reply (a <| ipl := a1 |>))) = 30.
Proof.
  cbv zeta.
  destruct (ping_roundtrip 100 101 130 (demo_stack mac_a ip_a ip_b mac_b) (demo_stack mac_b ip_b ip_a mac_a)
    (demo_dev mac_a ip_a) (demo_dev mac_b ip_b) mac_b mac_a
    (demo_eth_ok mac_a ip_a ip_b mac_b eq_refl eq_refl) (demo_eth_ok mac_b ip_b ip_a mac_a eq_refl eq_refl)
    eq_refl eq_refl eq_refl eq_refl ltac:(done) ltac:(done) ltac:(done) ltac:(done))
    as (request & reply & Hw & Hb & _ & _ & _ & Ha).
  exists request, reply. split; [exact Hw|]. split; [exact Hb|]. exact Ha.
Defined.
End NetIn.
