(* ===== verification/Loopback.v ===== *)
(** Stream sockets over the in-memory loopback (src/src/kernel/net/loopback.c):
    the pools of sockets, listeners, connection endpoints and files, the
    receive rings, and the socket calls on them. The kernel runs one task at a
    time, so the bounded spins of the code leave the buffers as they are. *)
From S2P Require Import Prelude Ring Vfs.

Module Loopback.
Import Vfs.

Definition AF_INET : Z := 2.
Definition SOCK_STREAM : Z := 1.
Definition LOOP_MAX_SOCKS : Z := 32.
Definition LOOP_MAX_FILES : Z := 32.
Definition LOOP_MAX_LISTEN : Z := 16.
Definition LOOP_MAX_CONNS : Z := 64.
Definition LOOP_BACKLOG : Z := 8.
Definition LOOP_BUF_SIZE : Z := 256.

(** [(uint64_t)(-n)] *)
Definition err (n : Z) : Z := 2 ^ 64 - n.

(** ** Data *)
Record loop_rbuf_t := Rbuf { rdata : list Z; rhead : Z; rtail : Z; rcount : Z }.
#[export] Instance eta_rbuf : Eta loop_rbuf_t := fun r => Rbuf (rdata r) (rhead r) (rtail r) (rcount r).
Definition rbuf0 : loop_rbuf_t := Rbuf (replicate 256 0) 0 0 0.

(** Pointers into the pools are indices. *)
Record loop_conn := Conn { c_used : Z; c_closed : Z; local_port : Z; peer : option Z; rbuf : loop_rbuf_t }.
#[export] Instance eta_conn : Eta loop_conn := fun c =>
  Conn (c_used c) (c_closed c) (local_port c) (peer c) (rbuf c).
Definition conn0 : loop_conn := Conn 0 0 0 None rbuf0.
#[export] Instance inhabited_conn : Inhabited loop_conn := populate conn0.

Record loop_listen_t := Listen {
  l_used : Z; listening : Z; l_port : Z; pending : list (option Z);
  pending_head : Z; pending_tail : Z; pending_count : Z
}.
#[export] Instance eta_listen : Eta loop_listen_t := fun l =>
  Listen (l_used l) (listening l) (l_port l) (pending l) (pending_head l) (pending_tail l) (pending_count l).
Definition listen0 : loop_listen_t := Listen 0 0 0 (replicate 8 None) 0 0 0.
#[export] Instance inhabited_listen : Inhabited loop_listen_t := populate listen0.

Record loop_sock := Sock { s_used : Z; kind : Z; lst : option Z; conn : option Z }.
#[export] Instance eta_sock : Eta loop_sock := fun s => Sock (s_used s) (kind s) (lst s) (conn s).
Definition sock0 : loop_sock := Sock 0 0 None None.
#[export] Instance inhabited_sock : Inhabited loop_sock := populate sock0.

(** The four pools. File [i] of the pool is the object at address [i]; its
    private data is 0 for NULL and [k + 1] for [&g_socks[k]]. *)
Record loop := Loop {
  g_socks : list loop_sock;
  g_listens : list loop_listen_t;
  g_conns : list loop_conn;
  g_files : list file_t
}.
#[export] Instance eta_loop : Eta loop := fun s => Loop (g_socks s) (g_listens s) (g_conns s) (g_files s).

Definition loop_start : loop :=
  Loop (replicate 32 sock0) (replicate 16 listen0) (replicate 64 conn0) (replicate 32 file0).

Definition LOOP_OPS : Z := 1.

Definition sget (s : loop) (i : Z) : loop_sock := aget (g_socks s) i.
Definition lget (s : loop) (i : Z) : loop_listen_t := aget (g_listens s) i.
Definition cget (s : loop) (i : Z) : loop_conn := aget (g_conns s) i.
Definition fget (s : loop) (i : Z) : file_t := aget (g_files s) i.
Definition mod_sock (i : Z) (f : loop_sock -> loop_sock) (s : loop) : loop :=
  s <| g_socks := aset (g_socks s) i (f (sget s i)) |>.
Definition mod_listen (i : Z) (f : loop_listen_t -> loop_listen_t) (s : loop) : loop :=
  s <| g_listens := aset (g_listens s) i (f (lget s i)) |>.
Definition mod_conn (i : Z) (f : loop_conn -> loop_conn) (s : loop) : loop :=
  s <| g_conns := aset (g_conns s) i (f (cget s i)) |>.
Definition mod_file (i : Z) (f : file_t -> file_t) (s : loop) : loop :=
  s <| g_files := aset (g_files s) i (f (fget s i)) |>.

(** ** Pools *)
Definition loop_sock_alloc (s : loop) : loop * option Z :=
  match find_index (fun x => s_used x =? 0) (g_socks s) with
  | Some i => (mod_sock (Z.of_nat i) (fun _ => Sock 1 0 None None) s, Some (Z.of_nat i))
  | None => (s, None)
  end.

Definition loop_listen_alloc (s : loop) : loop * option Z :=
  match find_index (fun x => l_used x =? 0) (g_listens s) with
  | Some i => (mod_listen (Z.of_nat i) (fun _ => Listen 1 0 0 (replicate 8 None) 0 0 0) s, Some (Z.of_nat i))
  | None => (s, None)
  end.

(** The bytes of the ring are not cleared. *)
Definition fresh_conn (c : loop_conn) : loop_conn :=
  Conn 1 0 0 None (Rbuf (rdata (rbuf c)) 0 0 0).

Definition loop_conn_alloc (s : loop) : loop * option Z :=
  match find_index (fun x => c_used x =? 0) (g_conns s) with
  | Some i => (mod_conn (Z.of_nat i) fresh_conn s, Some (Z.of_nat i))
  | None => (s, None)
  end.

Definition fresh_file (f : file_t) : file_t :=
  f <| f_inode := 0 |> <| f_size := 0 |> <| f_offset := 0 |> <| f_ops := Some LOOP_OPS |>
    <| f_private := 0 |> <| f_refs := 1 |> <| f_name := [] |>.

Definition loop_file_alloc (s : loop) : loop * option Z :=
  match find_index (fun x => bool_decide (f_ops x = None)) (g_files s) with
  | Some i => (mod_file (Z.of_nat i) fresh_file s, Some (Z.of_nat i))
  | None => (s, None)
  end.

(** ** The receive ring *)
Definition rbuf_empty (r : loop_rbuf_t) : bool := rcount r =? 0.
Definition rbuf_full (r : loop_rbuf_t) : bool := LOOP_BUF_SIZE <=? rcount r.

Fixpoint put_loop (src : list Z) (r : loop_rbuf_t) : loop_rbuf_t :=
  match src with
  | [] => r
  | b :: src' =>
      put_loop src' (r <| rdata := aset (rdata r) (rtail r) b |>
                       <| rtail := u16 ((rtail r + 1) mod LOOP_BUF_SIZE) |>)
  end.

(** The bytes to store, of which the first [n] fit. *)
Definition rbuf_put (r : loop_rbuf_t) (src : list Z) : loop_rbuf_t * Z :=
  let space := u16 (LOOP_BUF_SIZE - rcount r) in
  let n := Z.min (Z.of_nat (length src)) space in
  let r1 := put_loop (take (Z.to_nat n) src) r in
  (r1 <| rcount := u16 (rcount r1 + n) |>, n).

Fixpoint get_loop (n : nat) (r : loop_rbuf_t) : loop_rbuf_t * list Z :=
  match n with
  | O => (r, [])
  | S n' =>
      let b := aget (rdata r) (rhead r) in
      let '(r1, bs) := get_loop n' (r <| rhead := u16 ((rhead r + 1) mod LOOP_BUF_SIZE) |>) in
      (r1, b :: bs)
  end.

Definition rbuf_get (r : loop_rbuf_t) (n : Z) : loop_rbuf_t * list Z :=
  let n := if rcount r <? n then rcount r else n in
  let '(r1, bs) := get_loop (Z.to_nat n) r in
  (r1 <| rcount := u16 (rcount r1 - n) |>, bs).

(** ** Addresses *)

(** [sockaddr_in]: family, port, and whether the address is 127.0.0.1. *)
Definition loop_parse_addr (a : list Z) : Z * Z * bool :=
  (u16 (Z.lor (aget a 0) (Z.shiftl (aget a 1) 8)), u16 (Z.lor (Z.shiftl (aget a 2) 8) (aget a 3)),
   (aget a 4 =? 127) && (aget a 5 =? 0) && (aget a 6 =? 0) && (aget a 7 =? 1)).

Definition loop_store_addr (port : Z) : list Z :=
  [2; 0; u8 (Z.shiftr port 8); u8 (Z.land port 255); 127; 0; 0; 1; 0; 0; 0; 0; 0; 0; 0; 0].

(** ** File operations *)

(** The socket of a file of the pool. *)
Definition sock_of (s : loop) (f : Z) : option Z :=
  if f_private (fget s f) =? 0 then None else Some (f_private (fget s f) - 1).

(** How much of [n] bytes one round moves: at most a buffer, as a [uint16_t]. *)
Definition round_len (n : Z) : Z := if LOOP_BUF_SIZE <? n then LOOP_BUF_SIZE else u16 n.

(** One round empties the ring or completes the request, so two rounds are
    enough. *)
Fixpoint recv_loop (fuel : nat) (c : Z) (size : Z) (s : loop) (acc : list Z) : loop * list Z :=
  match fuel with
  | O => (s, acc)
  | S f =>
      let left := size - Z.of_nat (length acc) in
      if left <=? 0 then (s, acc) else
      if rbuf_empty (rbuf (cget s c)) then (s, acc) else
      let '(r, bs) := rbuf_get (rbuf (cget s c)) (round_len left) in
      let s1 := mod_conn c (fun x => x <| rbuf := r |>) s in
      if Z.of_nat (length bs) =? 0 then (s1, acc) else recv_loop f c size s1 (acc ++ bs)
  end.

Definition connected (s : loop) (f : Z) : option Z :=
  match sock_of s f with
  | Some k => if kind (sget s k) =? 2 then conn (sget s k) else None
  | None => None
  end.

Definition loop_recv_io (f size : Z) (s : loop) : loop * list Z :=
  match connected s f with
  | None => (s, [])
  | Some c => recv_loop 2 c size s []
  end.

Fixpoint send_loop (fuel : nat) (p : Z) (src : list Z) (s : loop) (total : Z) : loop * Z :=
  match fuel with
  | O => (s, total)
  | S f =>
      if Z.of_nat (length src) <=? 0 then (s, total) else
      if rbuf_full (rbuf (cget s p)) then (s, total) else
      let '(r, n) := rbuf_put (rbuf (cget s p)) (take (Z.to_nat (round_len (Z.of_nat (length src)))) src) in
      let s1 := mod_conn p (fun x => x <| rbuf := r |>) s in
      if n =? 0 then (s1, total) else send_loop f p (drop (Z.to_nat n) src) s1 (total + n)
  end.

Definition loop_send_io (f : Z) (src : list Z) (s : loop) : loop * Z :=
  match connected s f with
  | None => (s, 0)
  | Some c =>
      if negb (c_closed (cget s c) =? 0) then (s, 0) else
      match peer (cget s c) with
      | None => (s, 0)
      | Some p => if negb (c_closed (cget s p) =? 0) then (s, 0) else send_loop 2 p src s 0
      end
  end.

Definition loop_recv (f off size : Z) (s : loop) : loop * (Z * list Z) :=
  let '(s1, bs) := loop_recv_io f size s in (s1, (Z.of_nat (length bs), bs)).
Definition loop_send (f off : Z) (src : list Z) (s : loop) : loop * Z := loop_send_io f src s.

(** [c->peer->peer = NULL; c->peer->closed = 1] *)
Definition hang_up (c : Z) (s : loop) : loop :=
  match peer (cget s c) with
  | Some p => mod_conn p (fun x => x <| peer := None |> <| c_closed := 1 |>) s
  | None => s
  end.

Definition release_conn (c : Z) (s : loop) : loop := mod_conn c (fun x => x <| c_used := 0 |>) (hang_up c s).

(** One slot of the queue of a closing listener. *)
Definition drop_pending (l : Z) (s : loop) (i : Z) : loop :=
  match aget (pending (lget s l)) i with
  | Some sc => mod_listen l (fun x => x <| pending := aset (pending x) i None |>) (release_conn sc s)
  | None => s
  end.

Definition close_sock (k : Z) (s : loop) : loop :=
  let x := sget s k in
  let s1 :=
    match kind x =? 2, conn x, kind x =? 1, lst x with
    | true, Some c, _, _ => mod_sock k (fun x => x <| conn := None |>) (release_conn c s)
    | _, _, true, Some l =>
        let s2 := foldl (drop_pending l) s (zrange 8) in
        mod_sock k (fun x => x <| lst := None |>) (mod_listen l (fun x => x <| l_used := 0 |>) s2)
    | _, _, _, _ => s
    end in
  mod_sock k (fun x => x <| s_used := 0 |>) s1.

Definition loop_close (f : Z) (s : loop) : loop * Z :=
  let s1 := match sock_of s f with Some k => close_sock k s | None => s end in
  (mod_file f (fun x => x <| f_private := 0 |> <| f_ops := None |>) s1, 0).

#[export] Instance loop_files : FileOps loop := {
  file_at := fget;
  set_file f x s := mod_file f (fun _ => x) s;
  op_close o := if o =? LOOP_OPS then Some loop_close else None;
  op_read o := if o =? LOOP_OPS then Some loop_recv else None;
  op_write o := if o =? LOOP_OPS then Some loop_send else None;
  op_ioctl o := None
}.

(** ** The socket calls

    [None] where the descriptor names a file of another kind: the code casts
    its private data to a socket without looking. *)
Definition state : Type := vfs * loop.

Definition is_loop_file (f : Z) : bool := (0 <=? f) && (f <? LOOP_MAX_FILES).

Definition free_file (f : Z) (s : loop) : loop := mod_file f (fun x => x <| f_ops := None |>) s.
Definition free_sock (k : Z) (s : loop) : loop := mod_sock k (fun x => x <| s_used := 0 |>) s.

Definition loop_socket (owner domain type : Z) (st : state) : state * Z :=
  let '(v, s) := st in
  if negb (domain =? AF_INET) then (st, err 97) else
  if negb (type =? SOCK_STREAM) then (st, err 93) else
  match loop_sock_alloc s with
  | (s1, None) => ((v, s1), err 24)
  | (s1, Some k) =>
      match loop_file_alloc s1 with
      | (s2, None) => ((v, free_sock k s2), err 24)
      | (s2, Some f) =>
          let s3 := mod_file f (fun x => x <| f_private := k + 1 |>) s2 in
          let '(v1, fd) := vfs_fd_alloc owner f v in
          if fd <? 0 then ((v1, free_file f (free_sock k s3)), err 24) else ((v1, s3), fd)
      end
  end.

(** The preamble the calls share. *)
Definition with_sock (fd : Z) (st : state) (body : Z -> option (state * Z)) : option (state * Z) :=
  match vfs_fd_get (i32 fd) st.1 with
  | None => Some (st, err 9)
  | Some f => if is_loop_file f then body f else None
  end.

Definition loop_bind (fd : Z) (addr : list Z) (st : state) : option (state * Z) :=
  with_sock fd st (fun f =>
    let '(v, s) := st in
    match sock_of s f with
    | None => Some (st, err 9)
    | Some k =>
        if negb (kind (sget s k) =? 0) then Some (st, err 22) else
        let '(family, port, is_lo) := loop_parse_addr addr in
        if negb (family =? AF_INET) then Some (st, err 97) else
        if negb is_lo then Some (st, err 99) else
        if port =? 0 then Some (st, err 22) else
        if existsb (fun l => negb (l_used l =? 0) && (l_port l =? port)) (g_listens s)
        then Some (st, err 98) else
        match loop_listen_alloc s with
        | (s1, None) => Some ((v, s1), err 98)
        | (s1, Some l) =>
            let s2 := mod_listen l (fun x => x <| l_port := port |>) s1 in
            Some ((v, mod_sock k (fun x => x <| kind := 1 |> <| lst := Some l |>) s2), 0)
        end
    end).

Definition loop_listen (fd : Z) (st : state) : option (state * Z) :=
  with_sock fd st (fun f =>
    let '(v, s) := st in
    match sock_of s f with
    | None => Some (st, err 22)
    | Some k =>
        match kind (sget s k) =? 1, lst (sget s k) with
        | true, Some l => Some ((v, mod_listen l (fun x => x <| listening := 1 |>) s), 0)
        | _, _ => Some (st, err 22)
        end
    end).

Definition accepts (port : Z) (l : loop_listen_t) : bool :=
  negb (l_used l =? 0) && negb (listening l =? 0) && (l_port l =? port).

(** The two endpoints of a new connection. *)
Definition link_conns (client server port : Z) (s : loop) : loop :=
  let s1 := mod_conn client (fun x => x <| peer := Some server |>) s in
  let s2 := mod_conn server (fun x => x <| peer := Some client |>) s1 in
  let s3 := mod_conn client (fun x => x <| local_port := 0 |>) s2 in
  let s4 := mod_conn server (fun x => x <| local_port := port |>) s3 in
  let s5 := mod_conn client (fun x => x <| c_closed := 0 |>) s4 in
  mod_conn server (fun x => x <| c_closed := 0 |>) s5.

Definition push_pending (server : Z) (x : loop_listen_t) : loop_listen_t :=
  x <| pending := aset (pending x) (pending_tail x) (Some server) |>
    <| pending_tail := u16 ((pending_tail x + 1) mod LOOP_BACKLOG) |>
    <| pending_count := u16 (pending_count x + 1) |>.

Definition pop_pending (x : loop_listen_t) : loop_listen_t :=
  x <| pending := aset (pending x) (pending_head x) None |>
    <| pending_head := u16 ((pending_head x + 1) mod LOOP_BACKLOG) |>
    <| pending_count := u16 (pending_count x - 1) |>.

Definition free_conn (oc : option Z) (s : loop) : loop :=
  match oc with Some c => mod_conn c (fun x => x <| c_used := 0 |>) s | None => s end.

Definition loop_connect (fd : Z) (addr : list Z) (st : state) : option (state * Z) :=
  with_sock fd st (fun f =>
    let '(v, s) := st in
    match sock_of s f with
    | None => Some (st, err 9)
    | Some k =>
        if negb (kind (sget s k) =? 0) then Some (st, err 22) else
        let '(family, port, is_lo) := loop_parse_addr addr in
        if negb (family =? AF_INET) then Some (st, err 97) else
        if negb is_lo then Some (st, err 101) else
        if port =? 0 then Some (st, err 22) else
        match find_index (accepts port) (g_listens s) with
        | None => Some (st, err 111)
        | Some l =>
            let l := Z.of_nat l in
            if LOOP_BACKLOG <=? pending_count (lget s l) then Some (st, err 111) else
            let '(s1, oc) := loop_conn_alloc s in
            let '(s2, os) := loop_conn_alloc s1 in
            match oc, os with
            | Some client, Some server =>
                Some ((v, mod_sock k (fun x => x <| kind := 2 |> <| conn := Some client |>)
                            (mod_listen l (push_pending server) (link_conns client server port s2))), 0)
            | _, _ => Some ((v, free_conn os (free_conn oc s2)), err 12)
            end
        end
    end).

(** The result and, on success, the bytes stored at a non-null [addr_out]. *)
Definition loop_accept (owner fd : Z) (st : state) : option (state * Z * list Z) :=
  match vfs_fd_get (i32 fd) st.1 with
  | None => Some (st, err 9, [])
  | Some f =>
    if negb (is_loop_file f) then None else
    let '(v, s) := st in
    match (match sock_of s f with Some k => if kind (sget s k) =? 1 then lst (sget s k) else None | None => None end) with
    | None => Some (st, err 22, [])
    | Some l =>
        if listening (lget s l) =? 0 then Some (st, err 22, []) else
        if pending_count (lget s l) =? 0 then Some (st, err 11, []) else
        match aget (pending (lget s l)) (pending_head (lget s l)) with
        | None => None  (* a NULL endpoint: excluded by the invariant *)
        | Some server =>
            let s1 := mod_listen l pop_pending s in
            let '(s2, ns) := loop_sock_alloc s1 in
            let '(s3, nf) := loop_file_alloc s2 in
            match ns, nf with
            | Some k, Some f =>
                let s4 := mod_sock k (fun x => x <| kind := 2 |> <| conn := Some server |>) s3 in
                let s5 := mod_file f (fun x => x <| f_private := k + 1 |>) s4 in
                let '(v1, nfd) := vfs_fd_alloc owner f v in
                if nfd <? 0 then Some ((v1, free_file f (free_sock k s5)), err 24, [])
                else Some ((v1, s5), nfd, loop_store_addr (local_port (cget s5 server)))
            | _, _ =>
                let s4 := match ns with Some k => free_sock k s3 | None => s3 end in
                let s5 := match nf with Some f => free_file f s4 | None => s4 end in
                Some ((v, s5), err 24, [])
            end
        end
    end
  end.

(** These two go through the file layer, so they work on any descriptor. *)
Definition loop_sendto `{FileOps E} (fd : Z) (buf : list Z) (v : vfs) (e : E) : E * Z :=
  match vfs_fd_get (i32 fd) v with
  | None => (e, err 9)
  | Some f => vfs_write (Some f) buf e
  end.

Definition loop_recvfrom `{FileOps E} (fd len : Z) (v : vfs) (e : E) : E * (Z * list Z) :=
  match vfs_fd_get (i32 fd) v with
  | None => (e, (err 9, []))
  | Some f => vfs_read (Some f) len e
  end.

Definition loop_shutdown (fd : Z) (st : state) : option (state * Z) :=
  with_sock fd st (fun f =>
    let '(v, s) := st in
    match sock_of s f with
    | None => Some (st, err 9)
    | Some k =>
        match kind (sget s k) =? 2, conn (sget s k) with
        | true, Some c =>
            let s1 := mod_conn c (fun x => x <| c_closed := 1 |> <| c_used := 0 |>) (hang_up c s) in
            Some ((v, mod_sock k (fun x => x <| conn := None |>) s1), 0)
        | _, _ => Some (st, 0)
        end
    end).

(** ** The ring as a byte list *)
Record ring_ok (r : loop_rbuf_t) : Prop := {
  rk_len : length (rdata r) = 256%nat;
  rk_head : 0 <= rhead r < 256;
  rk_count : 0 <= rcount r <= 256;
  rk_tail : rtail r = (rhead r + rcount r) mod 256
}.

Definition rbytes (r : loop_rbuf_t) : list Z := Ring.ring_list 256 (rdata r) (rhead r) (rcount r).

Lemma length_rbytes r : ring_ok r -> length (rbytes r) = Z.to_nat (rcount r).
Proof. intros _. apply Ring.length_ring_list. Qed.

Lemma mod256 x : u16 (x mod LOOP_BUF_SIZE) = x mod 256.
Proof. unfold LOOP_BUF_SIZE. apply u16_small. pose proof (Z.mod_pos_bound x 256 ltac:(lia)). lia. Qed.

(** The loop that stores bytes, the count being updated after it. *)
Lemma put_loop_spec src : forall r k,
  length (rdata r) = 256%nat -> 0 <= k -> rtail r = (rhead r + k) mod 256 ->
  k + Z.of_nat (length src) <= 256 ->
  let r1 := put_loop src r in
  length (rdata r1) = 256%nat /\ rhead r1 = rhead r /\ rcount r1 = rcount r /\
  rtail r1 = (rhead r + (k + Z.of_nat (length src))) mod 256 /\
  Ring.ring_list 256 (rdata r1) (rhead r) (k + Z.of_nat (length src)) =
    Ring.ring_list 256 (rdata r) (rhead r) k ++ src.
Proof.
  induction src as [|b src IH]; intros r k Hl Hk Ht Hs; cbn [put_loop length] in *.
  - rewrite Z.add_0_r, app_nil_r. done.
  - set (r' := r <| rdata := _ |> <| rtail := _ |>).
    destruct (IH r' (k + 1)) as (L & Eh & Ec & Et & Er).
    { unfold r'. cbn. by rewrite length_aset. }
    { lia. }
    { unfold r'. cbn. rewrite mod256, Ht. apply Ring.ring_tail_next. lia. }
    { lia. }
    replace (k + Z.of_nat (S (length src))) with (k + 1 + Z.of_nat (length src)) by lia.
    split; [done|]. split; [done|]. split; [done|]. split; [done|].
    change (rhead r') with (rhead r) in Er. rewrite Er. unfold r'. cbn. rewrite Ht.
    rewrite Ring.ring_push by lia. by rewrite <- app_assoc.
Qed.

Lemma rbuf_put_spec r src : ring_ok r -> Z.of_nat (length src) <= 256 ->
  let n := Z.min (Z.of_nat (length src)) (256 - rcount r) in
  (rbuf_put r src).2 = n /\ ring_ok (rbuf_put r src).1 /\
  rbytes (rbuf_put r src).1 = rbytes r ++ take (Z.to_nat n) src.
Proof.
  intros [Hl Hh Hc Ht] Hs. cbv zeta. unfold rbuf_put. unfold LOOP_BUF_SIZE.
  rewrite (u16_small (256 - rcount r)) by lia. set (n := Z.min _ _). cbn [fst snd].
  assert (Hn : 0 <= n <= 256) by lia.
  assert (Hlt : Z.of_nat (length (take (Z.to_nat n) src)) = n) by (rewrite length_take; lia).
  destruct (put_loop_spec (take (Z.to_nat n) src) r (rcount r)) as (L & Eh & Ec & Et & Er); [done|lia|done|lia|].
  rewrite Hlt in Et, Er. set (r1 := put_loop _ r) in *. clearbody r1. rewrite Ec, u16_small by lia.
  split; [done|]. split; [split; cbn; rewrite ?Eh; [done|done|lia|done]|].
  unfold rbytes. cbn. rewrite Eh. exact Er.
Qed.

Lemma get_loop_spec n : forall r k,
  0 <= rhead r < 256 -> Z.of_nat n <= k ->
  let '(r1, bs) := get_loop n r in
  rdata r1 = rdata r /\ rcount r1 = rcount r /\ rtail r1 = rtail r /\
  rhead r1 = (rhead r + Z.of_nat n) mod 256 /\
  Ring.ring_list 256 (rdata r) (rhead r) k = bs ++ Ring.ring_list 256 (rdata r) (rhead r1) (k - Z.of_nat n) /\
  length bs = n.
Proof.
  induction n as [|n IH]; intros r k Hh Hk; cbn [get_loop].
  - rewrite Z.add_0_r, Z.sub_0_r, Z.mod_small by done. done.
  - set (r' := r <| rhead := _ |>).
    assert (Eh' : rhead r' = (rhead r + 1) mod 256) by (unfold r'; cbn; apply mod256).
    specialize (IH r' (k - 1)). destruct (get_loop n r') as [r1 bs].
    destruct IH as (Ed & Ec & Et & Eh & Er & El).
    { rewrite Eh'. apply Z.mod_pos_bound. lia. }
    { lia. }
    rewrite Eh' in Eh, Er. split; [done|]. split; [done|]. split; [done|]. split.
    { rewrite Eh, Zplus_mod_idemp_l. f_equal. lia. }
    split; [|simpl; lia]. rewrite Ring.ring_pop by lia. change (rdata r') with (rdata r) in Er. rewrite Er.
    simpl. do 3 f_equal. lia.
Qed.

Lemma rbuf_get_spec r n : ring_ok r -> 0 <= n ->
  let m := Z.min n (rcount r) in
  let '(r1, bs) := rbuf_get r n in
  bs = take (Z.to_nat m) (rbytes r) /\ ring_ok r1 /\ rbytes r1 = drop (Z.to_nat m) (rbytes r) /\
  Z.of_nat (length bs) = m.
Proof.
  intros [Hl Hh Hc Ht] Hn. cbv zeta. unfold rbuf_get.
  assert (Em : (if rcount r <? n then rcount r else n) = Z.min n (rcount r)).
  { destruct (Z.ltb_spec (rcount r) n); lia. }
  rewrite Em. set (m := Z.min n (rcount r)). assert (Hm : 0 <= m <= rcount r) by lia. clearbody m.
  pose proof (get_loop_spec (Z.to_nat m) r (rcount r) Hh ltac:(lia)) as H.
  destruct (get_loop (Z.to_nat m) r) as [r1 bs]. destruct H as (Ed & Ec & Et & Eh & Er & El).
  rewrite Z2Nat.id in Eh, Er by lia.
  assert (Ert : rbytes r = bs ++ Ring.ring_list 256 (rdata r) (rhead r1) (rcount r - m)) by exact Er.
  rewrite Ec, u16_small by lia.
  split; [rewrite Ert, take_app_le by lia; symmetry; apply take_ge; lia|]. split; [|split; [|lia]].
  - split; cbn; rewrite ?Ed, ?Et, ?Eh; [done|apply Z.mod_pos_bound; lia|lia|].
    rewrite Ht, Zplus_mod_idemp_l. f_equal. lia.
  - unfold rbytes at 1. cbn. rewrite Ed, Ert. rewrite drop_app_ge by lia.
    replace (Z.to_nat m - length bs)%nat with 0%nat by lia. done.
Qed.

(** ** One direction of a connection *)
Lemma cget_mod s i j f : length (g_conns s) = 64%nat -> 0 <= i < 64 -> 0 <= j ->
  cget (mod_conn i f s) j = if decide (i = j) then f (cget s i) else cget s j.
Proof. intros Hl Hi Hj. unfold cget, mod_conn. cbn. apply aget_aset; lia. Qed.

Lemma mod_conn_id s i f : f (cget s i) = cget s i -> mod_conn i f s = s.
Proof. intros E. unfold mod_conn. rewrite E. unfold cget. rewrite aset_id. by destruct s. Qed.

(** [s'] is [s] with the ring of endpoint [c] replaced by one holding [q]. *)
Definition ring_set (c : Z) (q : list Z) (s s' : loop) : Prop :=
  exists r, ring_ok r /\ rbytes r = q /\ s' = mod_conn c (fun x => x <| rbuf := r |>) s.

Lemma ring_set_same c s : ring_ok (rbuf (cget s c)) -> ring_set c (rbytes (rbuf (cget s c))) s s.
Proof.
  intros Hr. exists (rbuf (cget s c)). split; [done|]. split; [done|]. symmetry. apply mod_conn_id.
  by destruct (cget s c).
Qed.

Lemma round_len_min n : 0 <= n -> round_len n = Z.min 256 n.
Proof.
  intros Hn. unfold round_len, LOOP_BUF_SIZE. destruct (Z.ltb_spec 256 n); [lia|].
  rewrite u16_small by lia. lia.
Qed.

Lemma recv_loop_spec c size s :
  length (g_conns s) = 64%nat -> 0 <= c < 64 -> ring_ok (rbuf (cget s c)) -> 0 <= size ->
  let q := rbytes (rbuf (cget s c)) in
  let '(s', bs) := recv_loop 2 c size s [] in
  bs = take (Z.to_nat size) q /\ ring_set c (drop (Z.to_nat size) q) s s'.
Proof.
  intros Hl Hc Hr Hs. cbv zeta. pose proof (length_rbytes _ Hr) as Hq. pose proof (rk_count _ Hr) as Hn.
  pose proof (ring_set_same c s Hr) as Hsame.
  set (q := rbytes (rbuf (cget s c))) in *. set (n := rcount (rbuf (cget s c))) in *.
  change (recv_loop 2 c size s []) with
    (let left := size - 0 in if left <=? 0 then (s, []) else
     if n =? 0 then (s, []) else
     let '(r, bs) := rbuf_get (rbuf (cget s c)) (round_len left) in
     let s1 := mod_conn c (fun x => x <| rbuf := r |>) s in
     if Z.of_nat (length bs) =? 0 then (s1, []) else recv_loop 1 c size s1 bs).
  cbv zeta. rewrite Z.sub_0_r. destruct (Z.leb_spec size 0).
  { assert (size = 0) as -> by lia. done. }
  destruct (Z.eqb_spec n 0) as [En|Hn0].
  { assert (q = []) as -> by (apply length_zero_iff_nil; lia). by rewrite take_nil, drop_nil in *. }
  rewrite round_len_min by lia.
  pose proof (rbuf_get_spec (rbuf (cget s c)) (Z.min 256 size) Hr ltac:(lia)) as Hg.
  destruct (rbuf_get (rbuf (cget s c)) (Z.min 256 size)) as [r bs]. fold n q in Hg.
  destruct Hg as (Eb & Hr1 & Er1 & El). replace (Z.min (Z.min 256 size) n) with (Z.min size n) in * by lia.
  rewrite (proj2 (Z.eqb_neq _ 0)) by lia.
  set (s1 := mod_conn c _ s).
  assert (Ec1 : rbuf (cget s1 c) = r) by (unfold s1; rewrite cget_mod, decide_True by (done || lia); done).
  assert (Efin : recv_loop 1 c size s1 bs = (s1, bs)).
  { cbn [recv_loop]. destruct (Z.leb_spec (size - Z.of_nat (length bs)) 0); [done|].
    unfold rbuf_empty. rewrite Ec1.
    assert (rcount r = 0) as ->; [|done]. apply (f_equal length) in Er1.
    rewrite length_rbytes, length_drop in Er1 by done. pose proof (rk_count _ Hr1). lia. }
  rewrite Efin. assert (Et : forall k, n <= k -> take (Z.to_nat k) q = q /\ drop (Z.to_nat k) q = []).
  { intros k Hk. split; [apply take_ge; lia|apply drop_ge; lia]. }
  destruct (Z_le_gt_dec n size) as [Hle|Hgt].
  - destruct (Et size Hle) as [-> ->]. replace (Z.min size n) with n in * by lia.
    destruct (Et n ltac:(lia)) as [E1 E2]. rewrite E1 in Eb. rewrite E2 in Er1. split; [done|]. by exists r.
  - replace (Z.min size n) with size in * by lia. split; [done|]. by exists r.
Qed.

Lemma send_loop_spec p src s :
  length (g_conns s) = 64%nat -> 0 <= p < 64 -> ring_ok (rbuf (cget s p)) ->
  let q := rbytes (rbuf (cget s p)) in
  let n := Z.min (Z.of_nat (length src)) (256 - rcount (rbuf (cget s p))) in
  let '(s', m) := send_loop 2 p src s 0 in
  m = n /\ ring_set p (q ++ take (Z.to_nat n) src) s s'.
Proof.
  intros Hl Hp Hr. cbv zeta. pose proof (rk_count _ Hr) as Hn.
  pose proof (ring_set_same p s Hr) as Hsame. pose proof (length_rbytes _ Hr) as Hq.
  set (q := rbytes (rbuf (cget s p))) in *. set (c := rcount (rbuf (cget s p))) in *.
  set (len := Z.of_nat (length src)).
  change (send_loop 2 p src s 0) with
    (if len <=? 0 then (s, 0) else if 256 <=? c then (s, 0) else
     let '(r, n) := rbuf_put (rbuf (cget s p)) (take (Z.to_nat (round_len len)) src) in
     let s1 := mod_conn p (fun x => x <| rbuf := r |>) s in
     if n =? 0 then (s1, 0) else send_loop 1 p (drop (Z.to_nat n) src) s1 (0 + n)).
  destruct (Z.leb_spec len 0).
  { assert (len = 0) as E by lia. rewrite E. rewrite Z.min_l by lia. by rewrite app_nil_r. }
  destruct (Z.leb_spec 256 c).
  { rewrite Z.min_r by lia. replace (256 - c) with 0 by lia. by rewrite app_nil_r. }
  rewrite round_len_min by lia. set (src1 := take (Z.to_nat (Z.min 256 len)) src).
  assert (Hl1 : Z.of_nat (length src1) = Z.min 256 len) by (unfold src1; rewrite length_take; lia).
  destruct (rbuf_put_spec (rbuf (cget s p)) src1 Hr ltac:(lia)) as (Em & Hr1 & Er1). fold c q in Em, Er1.
  rewrite Hl1 in Em, Er1. replace (Z.min (Z.min 256 len) (256 - c)) with (Z.min len (256 - c)) in * by lia.
  destruct (rbuf_put (rbuf (cget s p)) src1) as [r m]. cbn [fst snd] in *. subst m.
  set (n := Z.min len (256 - c)) in *. rewrite (proj2 (Z.eqb_neq n 0)) by lia.
  set (s1 := mod_conn p _ s).
  assert (Ec1 : rbuf (cget s1 p) = r) by (unfold s1; rewrite cget_mod, decide_True by (done || lia); done).
  assert (Etk : take (Z.to_nat n) src1 = take (Z.to_nat n) src).
  { unfold src1. rewrite take_take. f_equal. lia. }
  rewrite Etk in Er1.
  assert (Efin : send_loop 1 p (drop (Z.to_nat n) src) s1 (0 + n) = (s1, n)).
  { cbn [send_loop]. rewrite length_drop. destruct (Z.leb_spec (Z.of_nat (length src - Z.to_nat n)) 0); [done|].
    unfold rbuf_full, LOOP_BUF_SIZE. rewrite Ec1.
    assert (rcount r = 256) as ->; [|done]. apply (f_equal length) in Er1.
    rewrite length_app, length_take, length_rbytes in Er1 by done. fold q in Hq. fold c in Hq.
    pose proof (rk_count _ Hr1). lia. }
  rewrite Efin. split; [done|]. by exists r.
Qed.

(** Two files that are the ends of one open connection. *)
Record stream_pair (s : loop) (fs fr c d : Z) : Prop := {
  sp_len : length (g_conns s) = 64%nat;
  sp_snd : connected s fs = Some c;
  sp_rcv : connected s fr = Some d;
  sp_rng : 0 <= c < 64 /\ 0 <= d < 64;
  sp_ne : c <> d;
  sp_peer : peer (cget s c) = Some d;
  sp_open : c_closed (cget s c) = 0 /\ c_closed (cget s d) = 0;
  sp_ring : ring_ok (rbuf (cget s d))
}.

Definition buffered (s : loop) (d : Z) : list Z := rbytes (rbuf (cget s d)).

Lemma ring_set_pair s s' fs fr c d q :
  stream_pair s fs fr c d -> ring_set d q s s' -> stream_pair s' fs fr c d /\ buffered s' d = q.
Proof.
  intros [Hl H1 H2 [Hc Hd] Hne Hp [Ho1 Ho2] Hr] (r & Hr' & Hq & ->).
  assert (Ed : cget (mod_conn d (fun x => x <| rbuf := r |>) s) d = cget s d <| rbuf := r |>)
    by (rewrite cget_mod, decide_True by (done || lia); done).
  assert (Ec : cget (mod_conn d (fun x => x <| rbuf := r |>) s) c = cget s c)
    by (rewrite cget_mod, decide_False by (done || lia); done).
  split; [|unfold buffered; by rewrite Ed].
  split; rewrite ?Ed, ?Ec; try done. cbn. by rewrite length_aset.
Qed.

(** What one side asks for. *)
Inductive io := Snd (bs : list Z) | Rcv (n : Z).

(** The bytes accepted and the bytes handed out, in order. *)
Fixpoint run_io (fs fr : Z) (os : list io) (s : loop) : loop * list Z * list Z :=
  match os with
  | [] => (s, [], [])
  | Snd bs :: os' =>
      let '(s1, n) := loop_send_io fs bs s in
      let '(s2, sent, got) := run_io fs fr os' s1 in (s2, take (Z.to_nat n) bs ++ sent, got)
  | Rcv n :: os' =>
      let '(s1, bs) := loop_recv_io fr n s in
      let '(s2, sent, got) := run_io fs fr os' s1 in (s2, sent, bs ++ got)
  end.

Lemma loop_recv_io_spec s fs fr c d size : stream_pair s fs fr c d -> 0 <= size ->
  let '(s', bs) := loop_recv_io fr size s in
  bs = take (Z.to_nat size) (buffered s d) /\ stream_pair s' fs fr c d /\
  buffered s' d = drop (Z.to_nat size) (buffered s d).
Proof.
  intros Hp Hs. unfold loop_recv_io. rewrite (sp_rcv _ _ _ _ _ Hp).
  pose proof (recv_loop_spec d size s (sp_len _ _ _ _ _ Hp) (proj2 (sp_rng _ _ _ _ _ Hp)) (sp_ring _ _ _ _ _ Hp) Hs) as H.
  destruct (recv_loop 2 d size s []) as [s' bs]. destruct H as [Eb Hset]. split; [done|].
  by apply (ring_set_pair s).
Qed.

Lemma loop_send_io_spec s fs fr c d bs : stream_pair s fs fr c d ->
  let n := Z.min (Z.of_nat (length bs)) (256 - Z.of_nat (length (buffered s d))) in
  let '(s', m) := loop_send_io fs bs s in
  m = n /\ stream_pair s' fs fr c d /\ buffered s' d = buffered s d ++ take (Z.to_nat n) bs.
Proof.
  intros Hp. cbv zeta. unfold loop_send_io. rewrite (sp_snd _ _ _ _ _ Hp).
  destruct (sp_open _ _ _ _ _ Hp) as [-> Ho]. cbn [Z.eqb negb]. rewrite (sp_peer _ _ _ _ _ Hp), Ho. cbn [Z.eqb negb].
  pose proof (send_loop_spec d bs s (sp_len _ _ _ _ _ Hp) (proj2 (sp_rng _ _ _ _ _ Hp)) (sp_ring _ _ _ _ _ Hp)) as H.
  cbv zeta in H. pose proof (rk_count _ (sp_ring _ _ _ _ _ Hp)).
  assert (En : Z.of_nat (length (buffered s d)) = rcount (rbuf (cget s d))).
  { unfold buffered. rewrite length_rbytes by apply (sp_ring _ _ _ _ _ Hp). lia. }
  rewrite En.
  destruct (send_loop 2 d bs s 0) as [s' m]. destruct H as [Em Hset]. split; [done|].
  by apply (ring_set_pair s).
Qed.

(** A loopback connection is a byte stream in each direction: over any
    interleaving of writes on one end and reads on the other, the bytes handed
    out followed by those still buffered are the bytes buffered before followed
    by those the writes accepted; at most 256 bytes are held, and the
    connection stays open. *)
Theorem loop_stream os : forall s fs fr c d,
  stream_pair s fs fr c d -> Forall (fun o => match o with Rcv n => 0 <= n | Snd _ => True end) os ->
  let '(s', sent, got) := run_io fs fr os s in
  got ++ buffered s' d = buffered s d ++ sent /\ stream_pair s' fs fr c d /\
  (length (buffered s' d) <= 256)%nat.
Proof.
  induction os as [|[bs|n] os IH]; intros s fs fr c d Hp Hos; cbn [run_io].
  - rewrite app_nil_r. split; [done|]. split; [done|]. unfold buffered.
    rewrite length_rbytes by apply (sp_ring _ _ _ _ _ Hp). pose proof (rk_count _ (sp_ring _ _ _ _ _ Hp)). lia.
  - apply Forall_cons in Hos as [_ Hos]. pose proof (loop_send_io_spec s fs fr c d bs Hp) as H.
    destruct (loop_send_io fs bs s) as [s1 m]. destruct H as (-> & Hp1 & Eb).
    specialize (IH s1 fs fr c d Hp1 Hos). destruct (run_io fs fr os s1) as [[s2 sent] got].
    destruct IH as (E & Hp2 & Hl). split; [|done]. rewrite E, Eb. by rewrite <- app_assoc.
  - apply Forall_cons in Hos as [Hn Hos]. pose proof (loop_recv_io_spec s fs fr c d n Hp Hn) as H.
    destruct (loop_recv_io fr n s) as [s1 bs]. destruct H as (-> & Hp1 & Eb).
    specialize (IH s1 fs fr c d Hp1 Hos). destruct (run_io fs fr os s1) as [[s2 sent] got].
    destruct IH as (E & Hp2 & Hl). split; [|done]. rewrite <- app_assoc, E, Eb, app_assoc. by rewrite take_drop.
Qed.

(** ** Who holds which endpoint *)

(** The places a pointer to an endpoint is kept: a connected socket, or a slot
    of a listener's queue. *)
Inductive ref := RSock (k : Z) | RPend (l i : Z).
#[export] Instance ref_eq : EqDecision ref.
Proof. solve_decision. Defined.

Definition used (s : loop) (c : Z) : Prop := 0 <= c < 64 /\ c_used (cget s c) <> 0.

Definition refs (s : loop) (r : ref) : option Z :=
  match r with
  | RSock k => if bool_decide (0 <= k < 32) && (kind (sget s k) =? 2) then conn (sget s k) else None
  | RPend l i => if bool_decide (0 <= l < 16 /\ 0 <= i < 8) then aget (pending (lget s l)) i else None
  end.

(** The pools have their sizes and the rings are sound. *)
Record shape (s : loop) : Prop := {
  sh_socks : length (g_socks s) = 32%nat;
  sh_listens : length (g_listens s) = 16%nat;
  sh_conns : length (g_conns s) = 64%nat;
  sh_files : length (g_files s) = 32%nat;
  sh_pend l : 0 <= l < 16 -> length (pending (lget s l)) = 8%nat;
  sh_priv f : 0 <= f < 32 -> 0 <= f_private (fget s f) <= 32;
  sh_ring c : 0 <= c < 64 -> ring_ok (rbuf (cget s c))
}.

(** The queue of a listener in use. *)
Record queue_ok (x : loop_listen_t) : Prop := {
  qk_head : 0 <= pending_head x < 8;
  qk_count : 0 <= pending_count x <= 8;
  qk_tail : pending_tail x = (pending_head x + pending_count x) mod 8;
  qk_some j : 0 <= j < pending_count x -> aget (pending x) ((pending_head x + j) mod 8) <> None
}.

Record loop_ok (s : loop) : Prop := {
  ok_shape : shape s;
  (** peers are mutual *)
  ok_peer c d : used s c -> peer (cget s c) = Some d -> used s d /\ d <> c /\ peer (cget s d) = Some c;
  (** every pointer is to an endpoint in use, and no endpoint has two *)
  ok_used r c : refs s r = Some c -> used s c;
  ok_uniq r r' c : refs s r = Some c -> refs s r' = Some c -> r = r';
  (** listeners in use have sound queues and at most one socket *)
  ok_queue l : 0 <= l < 16 -> l_used (lget s l) <> 0 -> queue_ok (lget s l);
  ok_lst k l : 0 <= k < 32 -> lst (sget s k) = Some l -> 0 <= l < 16 /\ l_used (lget s l) <> 0;
  ok_lst_uniq k k' l : 0 <= k < 32 -> 0 <= k' < 32 ->
    lst (sget s k) = Some l -> lst (sget s k') = Some l -> k = k'
}.

Definition unowned (s : loop) (c : Z) : Prop := forall r, refs s r <> Some c.

Lemma sget_mod s i j f : length (g_socks s) = 32%nat -> 0 <= i < 32 -> 0 <= j ->
  sget (mod_sock i f s) j = if decide (i = j) then f (sget s i) else sget s j.
Proof. intros Hl Hi Hj. unfold sget, mod_sock. cbn. apply aget_aset; lia. Qed.

Lemma lget_mod s i j f : length (g_listens s) = 16%nat -> 0 <= i < 16 -> 0 <= j ->
  lget (mod_listen i f s) j = if decide (i = j) then f (lget s i) else lget s j.
Proof. intros Hl Hi Hj. unfold lget, mod_listen. cbn. apply aget_aset; lia. Qed.

Lemma fget_mod s i j f : length (g_files s) = 32%nat -> 0 <= i < 32 -> 0 <= j ->
  fget (mod_file i f s) j = if decide (i = j) then f (fget s i) else fget s j.
Proof. intros Hl Hi Hj. unfold fget, mod_file. cbn. apply aget_aset; lia. Qed.

(** *** Changing a socket *)
Lemma loop_ok_sock s k f :
  loop_ok s -> 0 <= k < 32 ->
  let x := f (sget s k) in
  (forall c, kind x = 2 -> conn x = Some c ->
     refs s (RSock k) = Some c \/ (used s c /\ unowned s c)) ->
  (forall l, lst x = Some l -> lst (sget s k) = Some l \/
     (0 <= l < 16 /\ l_used (lget s l) <> 0 /\ forall k', 0 <= k' < 32 -> lst (sget s k') <> Some l)) ->
  loop_ok (mod_sock k f s).
Proof.
  intros [[Hs Hl Hc Hf Hp Hv Hr] Hpeer Hu Hun Hq Hlst Hlu] Hk. cbv zeta. intros Hconn Hls.
  assert (Hget : forall j, 0 <= j -> sget (mod_sock k f s) j = if decide (k = j) then f (sget s k) else sget s j)
    by (intros; by apply sget_mod).
  assert (Href : forall r c, refs (mod_sock k f s) r = Some c ->
    refs s r = Some c \/ (r = RSock k /\ used s c /\ unowned s c)).
  { intros [j|l i] c; [|by left]. cbn [refs]. case_bool_decide as Hj; [|done]. cbn [andb].
    rewrite Hget by lia. case_decide as E; [|by left]. subst j.
    destruct (Z.eqb_spec (kind (f (sget s k))) 2) as [E2|]; [|done]. intros Ec.
    destruct (Hconn c E2 Ec) as [H|[H1 H2]]; [left|by right].
    cbn [refs] in H. by rewrite bool_decide_true in H by lia. }
  split.
  - split; try done. cbn. by rewrite length_aset.
  - exact Hpeer.
  - intros r c H. destruct (Href r c H) as [H'|(_ & H' & _)]; [by eapply Hu|done].
  - intros r r' c H H'. destruct (Href r c H) as [A|(A & _ & A')], (Href r' c H') as [B|(B & _ & B')].
    + by eapply Hun.
    + by destruct (B' r).
    + by destruct (A' r').
    + congruence.
  - exact Hq.
  - intros j l Hj. rewrite Hget by lia. case_decide as E; [|by apply Hlst].
    intros Hx. destruct (Hls l Hx) as [H|(H1 & H2 & _)]; [by apply (Hlst k)|done].
  - intros j j' l Hj Hj'. rewrite !Hget by lia.
    case_decide as E; case_decide as E'; intros A B; [congruence| | |by apply (Hlu j j' l)]; subst.
    + destruct (Hls l A) as [H|(_ & _ & H)]; [by apply (Hlu _ _ l)|by destruct (H j')].
    + destruct (Hls l B) as [H|(_ & _ & H)]; [by apply (Hlu _ _ l)|by destruct (H j)].
Qed.

(** *** Changing a listener *)
Lemma loop_ok_listen s l f :
  loop_ok s -> 0 <= l < 16 ->
  let x := f (lget s l) in
  length (pending x) = 8%nat ->
  (forall i c, 0 <= i < 8 -> aget (pending x) i = Some c ->
     aget (pending (lget s l)) i = Some c \/ (used s c /\ unowned s c)) ->
  (forall i j c, 0 <= i < 8 -> 0 <= j < 8 -> aget (pending x) i = Some c -> aget (pending x) j = Some c -> i = j) ->
  (l_used x <> 0 -> queue_ok x) ->
  (l_used x = 0 -> forall k, 0 <= k < 32 -> lst (sget s k) <> Some l) ->
  loop_ok (mod_listen l f s).
Proof.
  intros [[Hs Hl Hc Hf Hp Hv Hr] Hpeer Hu Hun Hq Hlst Hlu] Hk. cbv zeta. intros Hlen Hpend Hinj Hqx Hux.
  assert (Hget : forall j, 0 <= j -> lget (mod_listen l f s) j = if decide (l = j) then f (lget s l) else lget s j)
    by (intros; by apply lget_mod).
  assert (Href : forall r c, refs (mod_listen l f s) r = Some c ->
    refs s r = Some c \/ (used s c /\ unowned s c /\ exists i, r = RPend l i /\ 0 <= i < 8 /\ aget (pending (f (lget s l))) i = Some c)).
  { intros [j|j i] c; [by left|]. cbn [refs]. case_bool_decide as Hj; [|done].
    rewrite Hget by lia. case_decide as E; [|by left]. subst j. intros Ec.
    destruct (Hpend i c) as [H|[H1 H2]]; [lia|done|by left|right]. split; [done|]. split; [done|]. exists i. split; [done|]. split; [lia|done]. }
  split.
  - split; try done; [cbn; by rewrite length_aset|]. intros j Hj. rewrite Hget by lia. case_decide; [done|by apply Hp].
  - exact Hpeer.
  - intros r c H. destruct (Href r c H) as [H'|(H' & _)]; [by eapply Hu|done].
  - intros r r' c H H'. destruct (Href r c H) as [A|(_ & A' & i & -> & Hi & Ei)], (Href r' c H') as [B|(_ & B' & j & -> & Hj & Ej)].
    + by eapply Hun.
    + by destruct (B' r).
    + by destruct (A' r').
    + f_equal. by apply (Hinj i j c).
  - intros j Hj. rewrite Hget by lia. case_decide; [done|by apply Hq].
  - intros k j Hk' E. destruct (Hlst k j Hk' E) as [H1 H2]. split; [done|]. rewrite Hget by lia.
    case_decide as E'; [|done]. subst j. intros H0. by destruct (Hux H0 k).
  - exact Hlu.
Qed.

Lemma loop_ok_file s i f :
  loop_ok s -> 0 <= i < 32 -> 0 <= f_private (f (fget s i)) <= 32 -> loop_ok (mod_file i f s).
Proof.
  intros [[Hs Hl Hc Hf Hp Hv Hr] Hpeer Hu Hun Hq Hlst Hlu] Hi Hx. split; try done.
  split; try done; [cbn; by rewrite length_aset|]. intros j Hj. rewrite fget_mod by lia.
  case_decide; [done|by apply Hv].
Qed.

(** *** Changing an endpoint *)
Lemma loop_ok_ring s c f :
  loop_ok s -> 0 <= c < 64 -> ring_ok (rbuf (f (cget s c))) ->
  c_used (f (cget s c)) = c_used (cget s c) -> peer (f (cget s c)) = peer (cget s c) ->
  loop_ok (mod_conn c f s).
Proof.
  intros [[Hs Hl Hc Hf Hp Hv Hr] Hpeer Hu Hun Hq Hlst Hlu] Hi Hx Eu Ep.
  assert (Hget : forall j, 0 <= j -> cget (mod_conn c f s) j = if decide (c = j) then f (cget s c) else cget s j)
    by (intros; by apply cget_mod).
  assert (Hused : forall j, used (mod_conn c f s) j <-> used s j).
  { intros j. unfold used. split; intros [H1 H2]; (split; [done|]); rewrite Hget in * by lia; case_decide; subst; congruence. }
  assert (Hpe : forall j, 0 <= j -> peer (cget (mod_conn c f s) j) = peer (cget s j)).
  { intros j Hj. rewrite Hget by lia. case_decide; by subst. }
  split; try done.
  - split; try done; [cbn; by rewrite length_aset|]. intros j Hj. rewrite Hget by lia. case_decide; [done|by apply Hr].
  - intros a b Ha Hab. rewrite Hused in *. rewrite Hpe in Hab by apply Ha.
    destruct (Hpeer a b Ha Hab) as (H1 & H2 & H3). split; [done|]. split; [done|]. rewrite Hpe; [done|apply H1].
  - intros r a H. apply Hused. by eapply Hu.
Qed.

Lemma loop_ok_fresh s i :
  loop_ok s -> 0 <= i < 64 -> c_used (cget s i) = 0 ->
  let s' := mod_conn i fresh_conn s in
  loop_ok s' /\ used s' i /\ unowned s' i /\ peer (cget s' i) = None /\
  forall j, used s j -> used s' j /\ j <> i /\ cget s' j = cget s j.
Proof.
  intros Hok Hi E0. pose proof Hok as [[Hs Hl Hc Hf Hp Hv Hr] Hpeer Hu Hun Hq Hlst Hlu]. cbv zeta.
  assert (Hget : forall j, 0 <= j -> cget (mod_conn i fresh_conn s) j = if decide (i = j) then fresh_conn (cget s i) else cget s j)
    by (intros; by apply cget_mod).
  assert (Hne : forall j, used s j -> j <> i) by (intros j [_ ?] ->; done).
  assert (Hold : forall j, used s j -> used (mod_conn i fresh_conn s) j /\ j <> i /\ cget (mod_conn i fresh_conn s) j = cget s j).
  { intros j Hj. pose proof (Hne j Hj). destruct Hj as [H1 H2]. unfold used. rewrite Hget, decide_False by (done || lia). done. }
  assert (Hi' : cget (mod_conn i fresh_conn s) i = fresh_conn (cget s i)) by (rewrite Hget, decide_True by (done || lia); done).
  split_and!; [|split; [done|by rewrite Hi']|intros r Er; by apply (Hne i (Hu r i Er))|by rewrite Hi'|exact Hold].
  split; try done.
  - split; try done; [cbn; by rewrite length_aset|]. intros j Hj. rewrite Hget by lia. case_decide; [|by apply Hr].
    destruct (Hr i Hi). split; cbn; try done; lia.
  - intros a b [Ha Ha']. rewrite Hget in * by lia. case_decide as E; [done|]. intros Eb.
    destruct (Hpeer a b (conj Ha Ha') Eb) as (H1 & H2 & H3). destruct (Hold b H1) as (H1' & _ & ->). done.
  - intros r a Er. by apply Hold, Hu with r.
Qed.

(** Making two free-standing endpoints peers. *)
Lemma loop_ok_link s s' a b :
  loop_ok s -> used s a -> used s b -> a <> b -> peer (cget s a) = None -> peer (cget s b) = None ->
  g_socks s' = g_socks s -> g_listens s' = g_listens s -> g_files s' = g_files s ->
  length (g_conns s') = length (g_conns s) ->
  (forall j, 0 <= j -> c_used (cget s' j) = c_used (cget s j) /\ rbuf (cget s' j) = rbuf (cget s j) /\
     peer (cget s' j) = if decide (j = a) then Some b else if decide (j = b) then Some a else peer (cget s j)) ->
  loop_ok s' /\ (forall j, used s' j <-> used s j) /\ (forall j, unowned s' j <-> unowned s j).
Proof.
  intros [[Hs Hl Hc Hf Hp Hv Hr] Hpeer Hu Hun Hq Hlst Hlu] Ha Hb Hab Pa Pb Fs Fl Ff Fc Hget.
  assert (Hused : forall j, used s' j <-> used s j).
  { intros j. unfold used. split; intros [H1 H2]; (split; [done|]); by rewrite (proj1 (Hget j ltac:(lia))) in *. }
  assert (Hrefs : forall r, refs s' r = refs s r) by (intros [k|l i]; cbn [refs]; unfold sget, lget; by rewrite ?Fs, ?Fl).
  split; [|split; [done|intros j; unfold unowned; split; intros H r; specialize (H r); by rewrite Hrefs in *]].
  split.
  - split; rewrite ?Fs, ?Fl, ?Ff, ?Fc; try done; unfold lget, fget; rewrite ?Fl, ?Ff; [done..|].
    intros j Hj. destruct (Hget j ltac:(lia)) as (_ & -> & _). by apply Hr.
  - intros x y Hx Hxy. rewrite Hused in *. rewrite (proj2 (proj2 (Hget x ltac:(apply Hx)))) in Hxy.
    case_decide as E1; [injection Hxy as <-; subst x|case_decide as E2; [injection Hxy as <-; subst x|]].
    + split; [done|]. split; [done|]. rewrite (proj2 (proj2 (Hget b ltac:(apply Hb)))), decide_False, decide_True by congruence. done.
    + split; [done|]. split; [done|]. rewrite (proj2 (proj2 (Hget a ltac:(apply Ha)))), decide_True by congruence. done.
    + destruct (Hpeer x y Hx Hxy) as (H1 & H2 & H3). split; [done|]. split; [done|].
      rewrite (proj2 (proj2 (Hget y ltac:(apply H1)))), !decide_False by congruence. done.
  - intros r c. rewrite Hrefs, Hused. apply Hu.
  - intros r r' c. rewrite !Hrefs. apply Hun.
  - unfold lget. by rewrite Fl.
  - unfold lget, sget. by rewrite Fl, Fs.
  - unfold sget. by rewrite Fs.
Qed.

(** Giving an endpoint nobody points to back to the pool. *)
Lemma hang_up_get s c j : length (g_conns s) = 64%nat -> 0 <= j ->
  (forall p, peer (cget s c) = Some p -> 0 <= p < 64) ->
  cget (hang_up c s) j =
  if decide (peer (cget s c) = Some j) then cget s j <| peer := None |> <| c_closed := 1 |> else cget s j.
Proof.
  intros Hl Hj Hp. unfold hang_up. destruct (peer (cget s c)) as [p|] eqn:E; [|by rewrite decide_False].
  rewrite cget_mod by (done || by apply Hp). destruct (decide (p = j)) as [->|Hne].
  - by rewrite decide_True.
  - by rewrite decide_False by congruence.
Qed.

Lemma hang_up_frame s c : g_socks (hang_up c s) = g_socks s /\ g_listens (hang_up c s) = g_listens s /\
  g_files (hang_up c s) = g_files s /\ length (g_conns (hang_up c s)) = length (g_conns s).
Proof. unfold hang_up. destruct (peer _); split_and!; try done. cbn. by rewrite length_aset. Qed.

Lemma release_listens c s : g_listens (release_conn c s) = g_listens s.
Proof. exact (proj1 (proj2 (hang_up_frame s c))). Qed.

(** [f] marks the endpoint free (and possibly closed). *)
Lemma loop_ok_release s c f :
  loop_ok s -> used s c -> unowned s c ->
  c_used (f (cget s c)) = 0 -> rbuf (f (cget s c)) = rbuf (cget s c) ->
  loop_ok (mod_conn c f (hang_up c s)).
Proof.
  intros Hok [Hc Hcu] Hun0 Eu Er. pose proof Hok as [[Hs Hl Hcl Hf Hp Hv Hr] Hpeer Hu Hun Hq Hlst Hlu].
  assert (Hpr : forall p, peer (cget s c) = Some p -> 0 <= p < 64).
  { intros p Ep. apply (Hpeer c p) in Ep as ([? _] & _); [done|by split]. }
  destruct (hang_up_frame s c) as (Fs & Fl & Ff & Fc).
  assert (Hself : peer (cget s c) <> Some c).
  { intros E. apply Hpeer in E as (_ & E & _); [done|by split]. }
  assert (Hget : forall j, 0 <= j -> cget (mod_conn c f (hang_up c s)) j =
    if decide (c = j) then f (cget s c)
    else if decide (peer (cget s c) = Some j) then cget s j <| peer := None |> <| c_closed := 1 |> else cget s j).
  { intros j Hj. rewrite cget_mod by (done || congruence). rewrite !hang_up_get by (done || lia).
    case_decide; [by rewrite decide_False|done]. }
  assert (Hused : forall j, used (mod_conn c f (hang_up c s)) j <-> used s j /\ j <> c).
  { intros j. unfold used. split.
    - intros [H1 H2]. rewrite Hget in H2 by lia. case_decide as E1; [congruence|]. case_decide; done.
    - intros [[H1 H2] H3]. split; [done|]. rewrite Hget by lia. rewrite decide_False by congruence. by case_decide. }
  assert (Hrefs : forall r, refs (mod_conn c f (hang_up c s)) r = refs s r).
  { intros [k|l i]; cbn [refs]; unfold sget, lget; cbn; by rewrite ?Fs, ?Fl. }
  split.
  - split; cbn; rewrite ?Fs, ?Fl, ?Ff; try done; [by rewrite length_aset, Fc|..]; unfold lget, fget; cbn.
    + by rewrite Fl.
    + by rewrite Ff.
    + intros j Hj. rewrite Hget by lia. case_decide; [subst; rewrite Er; by apply Hr|].
      case_decide; cbn; by apply Hr.
  - intros a b Ha Hab. apply Hused in Ha as [Ha Hac]. rewrite Hget, decide_False in Hab by (done || apply Ha).
    case_decide as E; [done|]. destruct (Hpeer a b Ha Hab) as (H1 & H2 & H3).
    assert (Hbc : b <> c) by (intros ->; congruence).
    rewrite Hused. split; [done|]. split; [done|]. rewrite Hget, decide_False by (done || apply H1).
    rewrite decide_False; [done|]. intros E'. destruct (Hpeer c b (conj Hc Hcu) E') as (_ & _ & E2). congruence.
  - intros r a H. rewrite Hrefs in H. apply Hused. split; [by eapply Hu|]. intros ->. by destruct (Hun0 r).
  - intros r r' a. rewrite !Hrefs. apply Hun.
  - intros l Hl'. unfold lget. cbn. rewrite Fl. by apply Hq.
  - intros k l Hk. unfold lget, sget. cbn. rewrite Fl, Fs. by apply Hlst.
  - intros k k' l Hk Hk'. unfold sget. cbn. rewrite Fs. by apply Hlu.
Qed.

(** *** The operations on the pools *)
Lemma loop_conn_alloc_ok s s' oc : loop_ok s -> loop_conn_alloc s = (s', oc) ->
  match oc with
  | None => s' = s
  | Some i => loop_ok s' /\ used s' i /\ unowned s' i /\ peer (cget s' i) = None /\
      (forall j, used s j -> used s' j /\ j <> i /\ cget s' j = cget s j) /\
      g_socks s' = g_socks s /\ g_listens s' = g_listens s
  end.
Proof.
  intros Hok. unfold loop_conn_alloc. destruct (find_index _ _) as [i|] eqn:E; intros [= <- <-]; [|done].
  apply find_index_Some in E as (x & Hx & Hu & _). apply Z.eqb_eq in Hu.
  pose proof (lookup_lt_Some _ _ _ Hx) as Hlt. rewrite (sh_conns _ (ok_shape _ Hok)) in Hlt.
  destruct (loop_ok_fresh s (Z.of_nat i)) as (H1 & H2 & H3 & H4 & H5); [done|lia|by unfold cget; rewrite (aget_lookup _ _ _ Hx)|].
  done.
Qed.

Lemma loop_sock_alloc_ok s s' ok : loop_ok s -> loop_sock_alloc s = (s', ok) ->
  loop_ok s' /\ g_conns s' = g_conns s /\ g_listens s' = g_listens s /\
  (forall c, unowned s c -> unowned s' c) /\ forall k, ok = Some k -> 0 <= k < 32.
Proof.
  intros Hok. unfold loop_sock_alloc. destruct (find_index _ _) as [i|] eqn:E; intros [= <- <-]; [|done].
  apply find_index_Some in E as (x & Hx & _ & _). apply lookup_lt_Some in Hx.
  rewrite (sh_socks _ (ok_shape _ Hok)) in Hx. split; [by apply loop_ok_sock; [|lia|..]|].
  split_and!; [done..| |intros k [= <-]; lia]. intros c Hc r Er. apply (Hc r). revert Er.
  destruct r as [k|l j]; [|done]. cbn [refs]. case_bool_decide; [|done].
  rewrite sget_mod by (apply Hok || lia). case_decide; [done|]. done.
Qed.

Lemma loop_file_alloc_ok s s' nf : loop_ok s -> loop_file_alloc s = (s', nf) ->
  loop_ok s' /\ g_conns s' = g_conns s /\ g_listens s' = g_listens s /\ g_socks s' = g_socks s /\
  forall f, nf = Some f -> 0 <= f < 32.
Proof.
  intros Hok. unfold loop_file_alloc. destruct (find_index _ _) as [i|] eqn:E; intros [= <- <-]; [|done].
  apply find_index_Some in E as (x & Hx & _ & _). apply lookup_lt_Some in Hx.
  rewrite (sh_files _ (ok_shape _ Hok)) in Hx. split; [by apply loop_ok_file; [|lia|cbn; lia]|].
  split_and!; [done..|intros k [= <-]; lia].
Qed.

Lemma sock_of_range s f k : loop_ok s -> 0 <= f < 32 -> sock_of s f = Some k -> 0 <= k < 32.
Proof.
  intros Hok Hf. unfold sock_of. pose proof (sh_priv _ (ok_shape _ Hok) f Hf).
  destruct (Z.eqb_spec (f_private (fget s f)) 0); [done|]. intros [= <-]. lia.
Qed.

Lemma refs_sock s k c : 0 <= k < 32 -> kind (sget s k) = 2 -> conn (sget s k) = Some c -> refs s (RSock k) = Some c.
Proof. intros Hk E2 Ec. cbn [refs]. by rewrite bool_decide_true, E2 by lia. Qed.

Lemma refs_pend s l i c : 0 <= l < 16 -> 0 <= i < 8 -> aget (pending (lget s l)) i = Some c -> refs s (RPend l i) = Some c.
Proof. intros Hl Hi Ec. cbn [refs]. by rewrite bool_decide_true. Qed.

Lemma pend_uniq s l i j c : loop_ok s -> 0 <= l < 16 -> 0 <= i < 8 -> 0 <= j < 8 ->
  aget (pending (lget s l)) i = Some c -> aget (pending (lget s l)) j = Some c -> i = j.
Proof.
  intros Hok Hl Hi Hj Hc Hc'.
  pose proof (ok_uniq _ Hok _ _ c (refs_pend s l i c Hl Hi Hc) (refs_pend s l j c Hl Hj Hc')). congruence.
Qed.

Lemma connected_used s f c : loop_ok s -> 0 <= f < 32 -> connected s f = Some c -> used s c.
Proof.
  intros Hok Hf. unfold connected. destruct (sock_of s f) as [k|] eqn:E; [|done].
  destruct (Z.eqb_spec (kind (sget s k)) 2) as [E2|]; [|done]. intros Ec.
  apply (ok_used _ Hok (RSock k)), refs_sock; [|done..]. by eapply sock_of_range.
Qed.

Lemma ring_set_ok c q s s' : loop_ok s -> 0 <= c < 64 -> ring_set c q s s' -> loop_ok s'.
Proof. intros Hok Hc (r & Hr & _ & ->). by apply loop_ok_ring. Qed.

Lemma loop_recv_ok s f off size : loop_ok s -> 0 <= f < 32 -> 0 <= size -> loop_ok (loop_recv f off size s).1.
Proof.
  intros Hok Hf Hs. unfold loop_recv, loop_recv_io. destruct (connected s f) as [c|] eqn:E; [|done].
  destruct (connected_used _ _ _ Hok Hf E) as [Hc _].
  pose proof (recv_loop_spec c size s (sh_conns _ (ok_shape _ Hok)) Hc (sh_ring _ (ok_shape _ Hok) c Hc) Hs) as H.
  cbv zeta in H. destruct (recv_loop 2 c size s []) as [s' bs]. destruct H as [_ H]. by eapply ring_set_ok.
Qed.

Lemma loop_send_ok s f off src : loop_ok s -> 0 <= f < 32 -> loop_ok (loop_send f off src s).1.
Proof.
  intros Hok Hf. unfold loop_send, loop_send_io. destruct (connected s f) as [c|] eqn:E; [|done].
  pose proof (connected_used _ _ _ Hok Hf E) as Hc.
  case_match; [done|]. destruct (peer (cget s c)) as [p|] eqn:Ep; [|done]. case_match; [done|].
  destruct (ok_peer _ Hok c p Hc Ep) as ((Hp & _) & _).
  pose proof (send_loop_spec p src s (sh_conns _ (ok_shape _ Hok)) Hp (sh_ring _ (ok_shape _ Hok) p Hp)) as H'.
  cbv zeta in H'. destruct (send_loop 2 p src s 0) as [s' n]. destruct H' as [_ H']. by eapply ring_set_ok.
Qed.

(** Forgetting a pointer and releasing what it points to, in either order. *)
Lemma sock_hang_up k f c s : mod_sock k f (hang_up c s) = hang_up c (mod_sock k f s).
Proof. unfold hang_up. change (cget (mod_sock k f s) c) with (cget s c). by destruct (peer _). Qed.

Lemma listen_hang_up l f c s : mod_listen l f (hang_up c s) = hang_up c (mod_listen l f s).
Proof. unfold hang_up. change (cget (mod_listen l f s) c) with (cget s c). by destruct (peer _). Qed.

(** A socket lets go of its endpoint, which [f] frees. *)
Lemma loop_ok_sock_release s k c f :
  loop_ok s -> 0 <= k < 32 -> kind (sget s k) = 2 -> conn (sget s k) = Some c ->
  c_used (f (cget s c)) = 0 -> rbuf (f (cget s c)) = rbuf (cget s c) ->
  loop_ok (mod_sock k (fun x => x <| conn := None |>) (mod_conn c f (hang_up c s))).
Proof.
  intros Hok Hk E2 Ec Eu Er. pose proof (refs_sock s k c Hk E2 Ec) as Href.
  change (loop_ok (mod_conn c f (mod_sock k (fun x => x <| conn := None |>) (hang_up c s)))).
  rewrite sock_hang_up. apply loop_ok_release; [|exact (ok_used _ Hok _ _ Href)| |done..].
  - apply loop_ok_sock; [done..|]. intros l Hl. by left.
  - intros r Hr. destruct (decide (r = RSock k)) as [->|Hne].
    + revert Hr. cbn [refs]. rewrite sget_mod, decide_True by (lia || done || apply Hok).
      by destruct (_ && _).
    + apply Hne, (ok_uniq _ Hok _ _ c); [|done]. revert Hr. destruct r as [j|]; [|done]. cbn [refs].
      case_bool_decide; [|done]. rewrite sget_mod, decide_False by (lia || congruence || apply Hok). done.
Qed.

(** The queue of a listener already marked free is emptied. *)
Lemma drop_pending_ok l js : forall s, loop_ok s -> 0 <= l < 16 -> l_used (lget s l) = 0 ->
  Forall (fun i => 0 <= i < 8) js -> loop_ok (foldl (drop_pending l) s js).
Proof.
  induction js as [|i js IH]; intros s Hok Hl E0 His; [done|]. apply Forall_cons in His as [Hi His]. cbn [foldl].
  assert (H : loop_ok (drop_pending l s i) /\ l_used (lget (drop_pending l s i) l) = 0).
  { unfold drop_pending. destruct (aget (pending (lget s l)) i) as [c|] eqn:Ec; [|done].
    pose proof (sh_listens _ (ok_shape _ Hok)) as Hll. set (f := fun x => x <| pending := aset (pending x) i None |>).
    pose proof (refs_pend s l i c Hl Hi Ec) as Href. split.
    - unfold release_conn. change (loop_ok (mod_conn c (fun x => x <| c_used := 0 |>) (mod_listen l f (hang_up c s)))).
      rewrite listen_hang_up. apply loop_ok_release; [|exact (ok_used _ Hok _ _ Href)| |done..].
      + assert (Hpl : length (pending (lget s l)) = 8%nat) by by apply Hok.
        assert (Hpf : forall j d, 0 <= j < 8 -> aget (pending (f (lget s l))) j = Some d -> aget (pending (lget s l)) j = Some d).
        { intros j d Hj. cbn. rewrite aget_aset by lia. by case_decide. }
        apply loop_ok_listen; [done..|cbn; by rewrite length_aset| | |done|].
        * intros j d Hj Hd. left. by apply Hpf.
        * intros j j' d Hj Hj' Hd Hd'. apply Hpf in Hd, Hd'; [|done..].
          by apply (pend_uniq s l j j' d).
        * intros _ k Hk Hx. by destruct (ok_lst _ Hok k l Hk Hx).
      + intros r Hr. assert (Hr' : refs s r = Some c /\ r <> RPend l i).
        { revert Hr. destruct r as [k|l' j]; [done|]. cbn [refs]. case_bool_decide as Hb; [|done].
          rewrite lget_mod by (done || lia). case_decide as El; [subst l'|split; [done|congruence]].
          cbn. rewrite aget_aset by (rewrite ?(sh_pend _ (ok_shape _ Hok)) by done; lia).
          case_decide; [done|]. split; [done|congruence]. }
        destruct Hr' as [Hr1 Hr2]. by apply Hr2, (ok_uniq _ Hok _ _ c).
    - rewrite lget_mod, decide_True by (rewrite ?release_listens; done || lia).
      unfold f, lget. rewrite release_listens. exact E0. }
  destruct H. by apply IH.
Qed.

(** Marking the listener free commutes with emptying its queue. *)
Lemma mod_listen_swap l f g s : length (g_listens s) = 16%nat -> 0 <= l < 16 ->
  (forall x, f (g x) = g (f x)) -> mod_listen l f (mod_listen l g s) = mod_listen l g (mod_listen l f s).
Proof.
  intros Hl Hr E. unfold mod_listen, lget. cbn. rewrite !aget_aset_eq by lia.
  unfold aset. rewrite !list_insert_insert_eq. by rewrite E.
Qed.

Definition unuse (x : loop_listen_t) : loop_listen_t := x <| l_used := 0 |>.

Lemma drop_pending_listens l s i : length (g_listens (drop_pending l s i)) = length (g_listens s).
Proof.
  unfold drop_pending. destruct (aget _ i); [|done]. cbn.
  change (length (g_listens (mod_listen l (fun x => x <| pending := aset (pending x) i None |>) (release_conn z s))) = length (g_listens s)).
  cbn [mod_listen g_listens]. unfold mod_listen. cbn. by rewrite length_aset, <- (release_listens z s).
Qed.

Lemma drop_pending_swap l i s : length (g_listens s) = 16%nat -> 0 <= l < 16 ->
  mod_listen l unuse (drop_pending l s i) = drop_pending l (mod_listen l unuse s) i.
Proof.
  intros Hl Hr. unfold drop_pending. rewrite lget_mod, decide_True by (done || lia).
  cbn [unuse]. change (pending (unuse (lget s l))) with (pending (lget s l)).
  destruct (aget (pending (lget s l)) i) as [c|]; [|done].
  rewrite mod_listen_swap; [|by rewrite release_listens|done|done]. f_equal. unfold release_conn.
  rewrite <- listen_hang_up. done.
Qed.

Lemma drops_swap l js : forall s, length (g_listens s) = 16%nat -> 0 <= l < 16 ->
  mod_listen l unuse (foldl (drop_pending l) s js) = foldl (drop_pending l) (mod_listen l unuse s) js.
Proof.
  induction js as [|i js IH]; intros s Hl Hr; [done|]. cbn [foldl].
  rewrite IH by (rewrite ?drop_pending_listens; done). by rewrite drop_pending_swap.
Qed.

Lemma drop_pending_sock l i k f s : mod_sock k f (drop_pending l s i) = drop_pending l (mod_sock k f s) i.
Proof.
  unfold drop_pending. change (lget (mod_sock k f s) l) with (lget s l).
  destruct (aget (pending (lget s l)) i) as [c|]; [|done]. unfold release_conn. by rewrite <- sock_hang_up.
Qed.

Lemma drops_sock l js k f : forall s, mod_sock k f (foldl (drop_pending l) s js) = foldl (drop_pending l) (mod_sock k f s) js.
Proof. induction js as [|i js IH]; intros s; [done|]. cbn [foldl]. by rewrite IH, drop_pending_sock. Qed.

(** Returning a socket to the pool keeps what it points to. *)
Lemma free_sock_ok s k : loop_ok s -> 0 <= k < 32 -> loop_ok (free_sock k s).
Proof.
  intros Hok Hk. apply loop_ok_sock; [done..| |by left]. intros c E2 Ec. left. by apply refs_sock.
Qed.

Lemma close_sock_ok s k : loop_ok s -> 0 <= k < 32 -> loop_ok (close_sock k s).
Proof.
  intros Hok Hk. unfold close_sock. apply free_sock_ok; [|done].
  assert (Hl : forall l, kind (sget s k) = 1 -> lst (sget s k) = Some l ->
    loop_ok (mod_sock k (fun x => x <| lst := None |>) (mod_listen l unuse (foldl (drop_pending l) s (zrange 8))))).
  { intros l E1 El. destruct (ok_lst _ Hok k l Hk El) as [Hl Hlu].
    pose proof (sh_listens _ (ok_shape _ Hok)) as Hll. rewrite drops_swap by done.
    rewrite drops_sock. set (s0 := mod_sock k _ (mod_listen l unuse s)).
    assert (E : s0 = mod_listen l unuse (mod_sock k (fun x => x <| lst := None |>) s)) by done.
    assert (Hs0 : loop_ok s0); [rewrite E; apply loop_ok_listen|].
    - apply loop_ok_sock; [done..| |done]. intros c E2. cbn in E2. lia.
    - done.
    - by apply Hok.
    - intros i c Hi Hc. by left.
    - intros i j c Hi Hj Hc Hc'. by apply (pend_uniq s l i j c).
    - done.
    - intros _ j Hj. rewrite sget_mod by (lia || apply Hok). case_decide as Ej; [done|]. intros Ej'.
      apply Ej. by apply (ok_lst_uniq _ Hok k j l).
    - apply drop_pending_ok; [done..| |].
      + rewrite E, lget_mod, decide_True by (done || lia). done.
      + apply Forall_forall. intros i [Hi1 Hi2]%elem_of_zrange. lia. }
  destruct (Z.eqb_spec (kind (sget s k)) 2) as [E2|]; [destruct (conn (sget s k)) as [c|] eqn:Ec|].
  - by apply loop_ok_sock_release.
  - by rewrite E2.
  - destruct (Z.eqb_spec (kind (sget s k)) 1) as [E1|], (lst (sget s k)) as [l|]; first [by apply Hl|done].
Qed.

Lemma loop_close_ok s f : loop_ok s -> 0 <= f < 32 -> loop_ok (loop_close f s).1.
Proof.
  intros Hok Hf. unfold loop_close. cbn [fst]. apply loop_ok_file; [|done|cbn; lia].
  destruct (sock_of s f) as [k|] eqn:E; [|done]. apply close_sock_ok; [done|]. by eapply sock_of_range.
Qed.

Lemma free_file_ok s f : loop_ok s -> 0 <= f < 32 -> loop_ok (free_file f s).
Proof. intros Hok Hf. apply loop_ok_file; [done..|]. by apply Hok. Qed.

Lemma is_loop_file_range f : is_loop_file f = true -> 0 <= f < 32.
Proof. unfold is_loop_file, LOOP_MAX_FILES. intros [H1 H2]%andb_prop. lia. Qed.

Lemma loop_socket_ok owner d ty v s : loop_ok s -> loop_ok (loop_socket owner d ty (v, s)).1.2.
Proof.
  intros Hok. unfold loop_socket. case_match; [done|]. case_match; [done|].
  destruct (loop_sock_alloc s) as [s1 ok] eqn:E1.
  destruct (loop_sock_alloc_ok _ _ _ Hok E1) as (Hok1 & _ & _ & _ & Hk). destruct ok as [k|]; [|done].
  specialize (Hk k eq_refl).
  destruct (loop_file_alloc s1) as [s2 nf] eqn:E2.
  destruct (loop_file_alloc_ok _ _ _ Hok1 E2) as (Hok2 & _ & _ & _ & Hf).
  destruct nf as [f|]; [|by apply free_sock_ok]. specialize (Hf f eq_refl).
  destruct (vfs_fd_alloc owner f v) as [v1 fd]. pose proof (loop_ok_file s2 f (fun x => x <| f_private := k + 1 |>) Hok2 Hf) as H3.
  cbn in H3. specialize (H3 ltac:(lia)).
  case_match; [|done]. by apply free_file_ok, Hf; apply free_sock_ok.
Qed.

Lemma queue_ok_empty x : pending_head x = 0 -> pending_tail x = 0 -> pending_count x = 0 -> queue_ok x.
Proof. intros H1 H2 H3. split; rewrite ?H1, ?H2, ?H3; try done. lia. Qed.

Lemma no_pending (j c : Z) : aget (replicate 8 None) j <> Some c.
Proof.
  unfold aget. rewrite list_lookup_total_alt. destruct (replicate 8 None !! Z.to_nat j) as [x|] eqn:E; [|done].
  by apply lookup_replicate in E as [-> _].
Qed.

Lemma loop_bind_ok fd addr v s st r : loop_ok s -> loop_bind fd addr (v, s) = Some (st, r) -> loop_ok st.2.
Proof.
  intros Hok. unfold loop_bind, with_sock. destruct (vfs_fd_get _ _) as [f|]; [|by intros [= <- _]].
  destruct (is_loop_file f) eqn:Ef; [|done]. apply is_loop_file_range in Ef.
  destruct (sock_of s f) as [k|] eqn:Ek; [|by intros [= <- _]]. apply (sock_of_range _ _ _ Hok Ef) in Ek.
  case_match; [by intros [= <- _]|]. destruct (loop_parse_addr addr) as [[fam port] lo].
  do 4 (case_match; [by intros [= <- _]|]).
  unfold loop_listen_alloc. destruct (find_index _ _) as [i|] eqn:Ei; intros [= <- _]; [|done].
  apply find_index_Some in Ei as (x & Hx & Hu & _). apply Z.eqb_eq in Hu.
  pose proof (lookup_lt_Some _ _ _ Hx) as Hlt. rewrite (sh_listens _ (ok_shape _ Hok)) in Hlt.
  assert (El : l_used (lget s (Z.of_nat i)) = 0) by (unfold lget; by rewrite (aget_lookup _ _ _ Hx)).
  set (l := Z.of_nat i) in *. assert (Hl : 0 <= l < 16) by lia.
  assert (Hno : forall k, 0 <= k < 32 -> lst (sget s k) <> Some l) by (intros j Hj Ej; by destruct (ok_lst _ Hok j l Hj Ej)).
  set (s1 := mod_listen l (fun _ => _) s).
  assert (Hok1 : loop_ok s1).
  { apply loop_ok_listen; [done..|intros j c Hj Hc|intros j j' c Hj Hj' Hc| |done].
    - by destruct (no_pending j c).
    - by destruct (no_pending j c).
    - intros _. by apply queue_ok_empty. }
  set (s2 := mod_listen l _ s1). pose proof (sh_listens _ (ok_shape _ Hok1)) as Hl1.
  assert (E1 : lget s1 l = Listen 1 0 0 (replicate 8 None) 0 0 0)
    by (unfold s1; rewrite lget_mod, decide_True by (apply Hok || done || lia); done).
  assert (Hok2 : loop_ok s2).
  { apply loop_ok_listen; [done..| | | | |]; rewrite E1; [done|intros j c Hj Hc|intros j j' c Hj Hj' Hc| |done].
    - by destruct (no_pending j c).
    - by destruct (no_pending j c).
    - intros _. by apply queue_ok_empty. }
  apply loop_ok_sock; [done..| |].
  - intros c E2. cbn in E2. lia.
  - intros l' [= <-]. right. split; [done|]. split; [|done].
    unfold s2. rewrite lget_mod, decide_True by (done || lia). by rewrite E1.
Qed.

Lemma loop_listen_ok fd v s st r : loop_ok s -> loop_listen fd (v, s) = Some (st, r) -> loop_ok st.2.
Proof.
  intros Hok. unfold loop_listen, with_sock. destruct (vfs_fd_get _ _) as [f|]; [|by intros [= <- _]].
  destruct (is_loop_file f) eqn:Ef; [|done]. apply is_loop_file_range in Ef.
  destruct (sock_of s f) as [k|] eqn:Ek; [|by intros [= <- _]]. apply (sock_of_range _ _ _ Hok Ef) in Ek.
  destruct (kind (sget s k) =? 1), (lst (sget s k)) as [l|] eqn:El; intros [= <- _]; try done.
  destruct (ok_lst _ Hok k l Ek El) as [Hl Hlu].
  apply loop_ok_listen; [done..| | | | |]; cbn.
  - by apply Hok.
  - intros i c Hi Hc. by left.
  - intros i j c Hi Hj Hc Hc'. by apply (pend_uniq s l i j c).
  - intros _. destruct (ok_queue _ Hok l Hl Hlu). by split.
  - done.
Qed.

Lemma loop_shutdown_ok fd v s st r : loop_ok s -> loop_shutdown fd (v, s) = Some (st, r) -> loop_ok st.2.
Proof.
  intros Hok. unfold loop_shutdown, with_sock. destruct (vfs_fd_get _ _) as [f|]; [|by intros [= <- _]].
  destruct (is_loop_file f) eqn:Ef; [|done]. apply is_loop_file_range in Ef.
  destruct (sock_of s f) as [k|] eqn:Ek; [|by intros [= <- _]]. apply (sock_of_range _ _ _ Hok Ef) in Ek.
  destruct (Z.eqb_spec (kind (sget s k)) 2) as [E2|], (conn (sget s k)) as [c|] eqn:Ec; intros [= <- _]; try done.
  by apply loop_ok_sock_release.
Qed.

(** Queueing and taking endpoints. *)
Lemma mod8 x : 0 <= x mod 8 < 8.
Proof. by apply Z.mod_pos_bound. Qed.

Lemma push_queue_ok x c : length (pending x) = 8%nat -> pending_count x < 8 -> queue_ok x -> queue_ok (push_pending c x).
Proof.
  intros Hl Hc [H1 H2 H3 H4]. unfold push_pending, LOOP_BACKLOG. cbn.
  pose proof (mod8 (pending_tail x + 1)). pose proof (mod8 (pending_head x + pending_count x)).
  rewrite !u16_small by lia. split; cbn; [lia..| |].
  - rewrite H3, Zplus_mod_idemp_l. f_equal. lia.
  - intros j Hj. pose proof (mod8 (pending_head x + j)). rewrite aget_aset by lia. case_decide as E; [done|]. apply H4.
    assert (j <> pending_count x) by (intros ->; congruence). lia.
Qed.

Lemma pop_queue_ok x : length (pending x) = 8%nat -> pending_count x <> 0 -> queue_ok x -> queue_ok (pop_pending x).
Proof.
  intros Hl Hc [H1 H2 H3 H4]. unfold pop_pending, LOOP_BACKLOG. cbn. 
  pose proof (mod8 (pending_head x + 1)).
  rewrite !u16_small by lia. split; cbn; [lia..| |].
  - rewrite H3, Zplus_mod_idemp_l. f_equal. lia.
  - intros j Hj. rewrite Zplus_mod_idemp_l.
    assert (Hne : pending_head x <> (pending_head x + 1 + j) mod 8) by (Z.to_euclidean_division_equations; lia).
    pose proof (mod8 (pending_head x + 1 + j)). rewrite aget_aset, decide_False by (done || lia). replace (pending_head x + 1 + j) with (pending_head x + (j + 1)) by lia.
    apply H4. lia.
Qed.

Lemma link_conns_ok s a b port :
  loop_ok s -> used s a -> used s b -> a <> b -> peer (cget s a) = None -> peer (cget s b) = None ->
  let s' := link_conns a b port s in
  loop_ok s' /\ (forall j, used s' j <-> used s j) /\ (forall j, unowned s' j <-> unowned s j) /\
  g_socks s' = g_socks s /\ g_listens s' = g_listens s.
Proof.
  intros Hok Ha Hb Hab Pa Pb. cbv zeta. pose proof (sh_conns _ (ok_shape _ Hok)) as Hl.
  assert (Hm : forall c f s, length (g_conns (mod_conn c f s)) = length (g_conns s)) by (intros; apply length_aset).
  destruct (loop_ok_link s (link_conns a b port s) a b) as (H1 & H2 & H3); try done.
  - unfold link_conns. cbv zeta. by rewrite !Hm.
  - intros j Hj. unfold link_conns. cbv zeta. destruct Ha as [Ha _], Hb as [Hb _].
    destruct (decide (j = a)) as [->|Hja]; [|destruct (decide (j = b)) as [->|Hjb]];
    repeat (rewrite cget_mod by (rewrite ?Hm; done); first [rewrite decide_True by done|rewrite decide_False by done]); done.
Qed.

Lemma push_listen_ok s l b :
  loop_ok s -> 0 <= l < 16 -> l_used (lget s l) <> 0 -> pending_count (lget s l) < 8 -> used s b -> unowned s b ->
  loop_ok (mod_listen l (push_pending b) s) /\
  forall a, unowned s a -> a <> b -> unowned (mod_listen l (push_pending b) s) a.
Proof.
  intros Hok Hl El Hcnt Hb Nb. assert (Hpl : length (pending (lget s l)) = 8%nat) by by apply Hok.
  pose proof (ok_queue _ Hok l Hl El) as Hq.
  assert (Hslot : forall j c, 0 <= j < 8 -> aget (pending (push_pending b (lget s l))) j = Some c ->
    (j = pending_tail (lget s l) /\ c = b) \/ aget (pending (lget s l)) j = Some c).
  { intros j c Hj. cbn. pose proof (qk_tail _ Hq). pose proof (mod8 (pending_head (lget s l) + pending_count (lget s l))).
    rewrite aget_aset by lia. case_decide; [intros [= <-]; by left|]. by right. }
  assert (Hnb : forall j, 0 <= j < 8 -> aget (pending (lget s l)) j <> Some b).
  { intros j Hj Ej. apply (Nb (RPend l j)), refs_pend; done. }
  split.
  - apply loop_ok_listen; [done..| | | | |].
    + cbn. by rewrite length_aset.
    + intros j c Hj Hc. destruct (Hslot j c Hj Hc) as [[_ ->]|Hc']; [by right|by left].
    + intros j j' c Hj Hj' Hc Hc'. destruct (Hslot j c Hj Hc) as [[? ?]|Hd], (Hslot j' c Hj' Hc') as [[? ?]|Hd']; subst; try done.
      * by destruct (Hnb j').
      * by destruct (Hnb j).
      * by apply (pend_uniq s l j j' c).
    + intros _. by apply push_queue_ok.
    + done.
  - intros a Na Hab r Er. apply (Na r). revert Er. destruct r as [k|l' j]; [done|]. cbn [refs].
    case_bool_decide as Hb'; [|done]. rewrite lget_mod by (lia || apply Hok). case_decide; [|done]. subst l'.
    intros Ec. by destruct (Hslot j a (proj2 Hb') Ec) as [[_ ->]|Hc'].
Qed.

Lemma pop_listen_ok s l b :
  loop_ok s -> 0 <= l < 16 -> l_used (lget s l) <> 0 -> pending_count (lget s l) <> 0 ->
  aget (pending (lget s l)) (pending_head (lget s l)) = Some b ->
  loop_ok (mod_listen l pop_pending s) /\ unowned (mod_listen l pop_pending s) b.
Proof.
  intros Hok Hl El Hcnt Eb. assert (Hpl : length (pending (lget s l)) = 8%nat) by by apply Hok.
  pose proof (ok_queue _ Hok l Hl El) as Hq. pose proof (qk_head _ Hq) as Hh.
  assert (Hslot : forall j c, 0 <= j < 8 -> aget (pending (pop_pending (lget s l))) j = Some c ->
    j <> pending_head (lget s l) /\ aget (pending (lget s l)) j = Some c).
  { intros j c Hj. cbn. rewrite aget_aset by lia. by case_decide. }
  split.
  - apply loop_ok_listen; [done..| | | | |].
    + cbn. by rewrite length_aset.
    + intros j c Hj Hc. left. by apply Hslot.
    + intros j j' c Hj Hj' Hc Hc'. apply (pend_uniq s l j j' c); try done; by apply Hslot.
    + intros _. by apply pop_queue_ok.
    + done.
  - intros r Er. assert (H : refs s r = Some b /\ r <> RPend l (pending_head (lget s l))).
    { revert Er. destruct r as [k|l' j]; [done|]. cbn [refs]. case_bool_decide as Hb'; [|done].
      rewrite lget_mod by (lia || apply Hok). case_decide; [subst l'|split; [done|congruence]].
      intros Ec. destruct (Hslot j b (proj2 Hb') Ec). split; [done|congruence]. }
    destruct H as [H1 H2]. apply H2, (ok_uniq _ Hok _ _ b); [done|by apply refs_pend].
Qed.

Lemma loop_connect_ok fd addr v s st r : loop_ok s -> loop_connect fd addr (v, s) = Some (st, r) -> loop_ok st.2.
Proof.
  intros Hok. unfold loop_connect, with_sock. destruct (vfs_fd_get _ _) as [f|]; [|by intros [= <- _]].
  destruct (is_loop_file f) eqn:Ef; [|done]. apply is_loop_file_range in Ef.
  destruct (sock_of s f) as [k|] eqn:Ek; [|by intros [= <- _]]. apply (sock_of_range _ _ _ Hok Ef) in Ek.
  case_match; [by intros [= <- _]|]. destruct (loop_parse_addr addr) as [[fam port] lo].
  do 3 (case_match; [by intros [= <- _]|]).
  destruct (find_index (accepts port) _) as [i|] eqn:Ei; [|by intros [= <- _]].
  apply find_index_Some in Ei as (x & Hx & Hacc & _).
  pose proof (lookup_lt_Some _ _ _ Hx) as Hlt. rewrite (sh_listens _ (ok_shape _ Hok)) in Hlt.
  assert (El : l_used (lget s (Z.of_nat i)) <> 0).
  { unfold lget. rewrite (aget_lookup _ _ _ Hx). unfold accepts in Hacc.
    destruct (Z.eqb_spec (l_used x) 0); [done|done]. }
  cbv zeta. set (l := Z.of_nat i) in *. assert (Hl : 0 <= l < 16) by lia.
  destruct (Z.leb_spec LOOP_BACKLOG (pending_count (lget s l))) as [|Hcnt]; [by intros [= <- _]|].
  unfold LOOP_BACKLOG in Hcnt.
  destruct (loop_conn_alloc s) as [s1 oc] eqn:E1. pose proof (loop_conn_alloc_ok _ _ _ Hok E1) as HA.
  destruct (loop_conn_alloc s1) as [s2 os] eqn:E2.
  destruct oc as [a|].
  - destruct HA as (Hok1 & Ha & Na & Pa & _ & Fs1 & Fl1). pose proof (loop_conn_alloc_ok _ _ _ Hok1 E2) as HB.
    destruct os as [b|]; intros [= <- _]; cbn [snd free_conn].
    + destruct HB as (Hok2 & Hb & Nb & Pb & Hold & Fs2 & Fl2). destruct (Hold a Ha) as (Ha2 & Hab & Ea).
      assert (Na2 : unowned s2 a).
      { intros r' Er. apply (Na r'). revert Er. destruct r' as [k'|l' j]; cbn [refs]; unfold sget, lget; by rewrite ?Fs2, ?Fl2. }
      destruct (link_conns_ok s2 a b port Hok2 Ha2 Hb Hab) as (Hok3 & Hu3 & Hn3 & Fs3 & Fl3); [by rewrite Ea|done|].
      set (s3 := link_conns a b port s2) in *.
      assert (Elx : lget s3 l = lget s l) by (unfold lget; by rewrite Fl3, Fl2, Fl1).
      destruct (push_listen_ok s3 l b) as [Hok4 Hn4]; [done|done|by rewrite Elx..|by apply Hu3|by apply Hn3|].
      apply loop_ok_sock; [done..| |by left]. intros c _ [= <-]. right. split; [exact (proj2 (Hu3 a) Ha2)|].
      apply Hn4; [by apply Hn3|done].
    + subst s2. replace s1 with (hang_up a s1) at 1 by (unfold hang_up; by rewrite Pa). by apply loop_ok_release.
  - subst s1. rewrite E1 in E2. injection E2 as <- <-. by intros [= <- _].
Qed.

Lemma loop_accept_ok owner fd v s :
  loop_ok s ->
  match loop_accept owner fd (v, s) with
  | Some (st, _, _) => loop_ok st.2
  | None => exists f, vfs_fd_get (i32 fd) v = Some f /\ is_loop_file f = false
  end.
Proof.
  intros Hok. unfold loop_accept. cbn [fst]. destruct (vfs_fd_get _ _) as [f|] eqn:Efd; [|done].
  destruct (is_loop_file f) eqn:Ef; cbn [negb]; [|by exists f]. apply is_loop_file_range in Ef.
  destruct (sock_of s f) as [k|] eqn:Ek; [|done]. apply (sock_of_range _ _ _ Hok Ef) in Ek.
  destruct (kind (sget s k) =? 1); [|done]. destruct (lst (sget s k)) as [l|] eqn:El; [|done].
  destruct (ok_lst _ Hok k l Ek El) as [Hl Hlu].
  destruct (listening (lget s l) =? 0); [done|]. destruct (Z.eqb_spec (pending_count (lget s l)) 0) as [|Hc]; [done|].
  pose proof (ok_queue _ Hok l Hl Hlu) as Hq.
  destruct (aget (pending (lget s l)) (pending_head (lget s l))) as [b|] eqn:Eb.
  2: { pose proof (qk_head _ Hq). pose proof (qk_count _ Hq). destruct (qk_some _ Hq 0); [lia|]. by rewrite Z.add_0_r, Z.mod_small by lia. }
  pose proof (ok_used _ Hok _ _ (refs_pend s l _ b Hl (qk_head _ Hq) Eb)) as Hbu.
  destruct (pop_listen_ok s l b Hok Hl Hlu Hc Eb) as [Hok1 Nb]. cbv zeta. set (s1 := mod_listen l pop_pending s) in *.
  change (used s1 b) in Hbu.
  destruct (loop_sock_alloc s1) as [s2 ns] eqn:E2. destruct (loop_sock_alloc_ok _ _ _ Hok1 E2) as (Hok2 & Fc2 & _ & Hn2 & Hns).
  destruct (loop_file_alloc s2) as [s3 nf] eqn:E3. destruct (loop_file_alloc_ok _ _ _ Hok2 E3) as (Hok3 & Fc3 & Fl3 & Fs3 & Hnf).
  destruct ns as [k'|]; [specialize (Hns k' eq_refl)|]; (destruct nf as [f'|]; [specialize (Hnf f' eq_refl)|]); cbn [snd];
    [|by apply free_sock_ok|by apply free_file_ok|done].
  assert (Hok4 : loop_ok (mod_sock k' (fun x => x <| kind := 2 |> <| conn := Some b |>) s3)).
  { apply loop_ok_sock; [done..| |by left]. intros c _ [= <-]. right. split.
    - unfold used, cget. rewrite Fc3, Fc2. exact Hbu.
    - intros r Er. apply (Hn2 b Nb r). revert Er. destruct r; cbn [refs]; unfold sget, lget; by rewrite ?Fs3, ?Fl3. }
  set (s4 := mod_sock k' _ s3) in *. destruct (vfs_fd_alloc owner f' v) as [v1 nfd].
  assert (Hok5 : loop_ok (mod_file f' (fun x => x <| f_private := k' + 1 |>) s4)) by (apply loop_ok_file; [done..|cbn; lia]).
  destruct (nfd <? 0); cbn [snd]; [|exact Hok5]. apply free_file_ok; [|done]. by apply free_sock_ok.
Qed.

(** ** Reachable states *)

(** One call on the sockets. Between them the descriptor table may change in
    any way: processes are created, exit, duplicate and close descriptors. *)
Inductive step : state -> state -> Prop :=
  | st_fds v v' s : step (v, s) (v', s)
  | st_socket owner d ty st : step st (loop_socket owner d ty st).1
  | st_bind fd a st st' r : loop_bind fd a st = Some (st', r) -> step st st'
  | st_listen fd st st' r : loop_listen fd st = Some (st', r) -> step st st'
  | st_connect fd a st st' r : loop_connect fd a st = Some (st', r) -> step st st'
  | st_accept owner fd st st' r a : loop_accept owner fd st = Some (st', r, a) -> step st st'
  | st_sendto fd f bs v s : vfs_fd_get (i32 fd) v = Some f -> is_loop_file f = true ->
      step (v, s) (v, (loop_sendto fd bs v s).1)
  | st_recvfrom fd f n v s : vfs_fd_get (i32 fd) v = Some f -> is_loop_file f = true -> 0 <= n ->
      step (v, s) (v, (loop_recvfrom fd n v s).1)
  | st_shutdown fd st st' r : loop_shutdown fd st = Some (st', r) -> step st st'
  | st_close f v s : is_loop_file f = true -> step (v, s) (v, (vfs_close (Some f) s).1).

Lemma loop_start_ok : loop_ok loop_start.
Proof.
  assert (Es : forall k, 0 <= k < 32 -> sget loop_start k = sock0) by (intros; by apply aget_replicate).
  assert (El : forall l, 0 <= l < 16 -> lget loop_start l = listen0) by (intros; by apply aget_replicate).
  assert (Ec : forall c, 0 <= c < 64 -> cget loop_start c = conn0) by (intros; by apply aget_replicate).
  assert (Ef : forall f, 0 <= f < 32 -> fget loop_start f = file0) by (intros; by apply aget_replicate).
  assert (Hr : forall r c, refs loop_start r <> Some c).
  { intros [k|l i] c; cbn [refs]; (case_bool_decide as Hb; [|done]); [by rewrite Es|]. rewrite El by apply Hb. apply no_pending. }
  split.
  - split; try done; [intros l Hl; by rewrite El|intros f Hf; by rewrite Ef|]. intros c Hc. rewrite Ec by done. by split.
  - intros c d [Hc Hu]. by rewrite Ec in Hu.
  - intros r c H. by destruct (Hr r c).
  - intros r r' c H. by destruct (Hr r c).
  - intros l Hl Hu. by rewrite El in Hu.
  - intros k l Hk. by rewrite Es.
  - intros k k' l Hk _. by rewrite Es.
Qed.


Lemma step_ok st st' : loop_ok st.2 -> step st st' -> loop_ok st'.2.
Proof.
  intros Hok Hs. destruct Hs as [ |o d ty [v s]|fd a [v s] st' r E|fd [v s] st' r E|fd a [v s] st' r E|o fd [v s] st' r a E
    |fd f bs v s Ef El|fd f n v s Ef El Hn|fd [v s] st' r E|f v s El]; cbn [snd] in *.
  - done.
  - by apply loop_socket_ok.
  - by eapply loop_bind_ok.
  - by eapply loop_listen_ok.
  - by eapply loop_connect_ok.
  - pose proof (loop_accept_ok o fd v s Hok) as H. by rewrite E in H.
  - unfold loop_sendto. rewrite Ef. cbn [vfs_write file_at op_write loop_files].
    destruct (f_ops (fget s f)) as [o|]; [|done]. destruct (o =? LOOP_OPS); [|done].
    apply loop_send_ok; [done|by apply is_loop_file_range].
  - unfold loop_recvfrom. rewrite Ef. cbn [vfs_read file_at op_read loop_files].
    destruct (f_ops (fget s f)) as [o|]; [|done]. destruct (o =? LOOP_OPS); [|done].
    apply loop_recv_ok; [done|by apply is_loop_file_range|done].
  - by eapply loop_shutdown_ok.
  - cbn [vfs_close]. unfold close_of. cbn [file_at op_close loop_files].
    destruct (f_ops (fget s f)) as [o|]; [|done]. destruct (o =? LOOP_OPS); [|done].
    apply loop_close_ok; [done|by apply is_loop_file_range].
Qed.

Lemma steps_ok st st' : loop_ok st.2 -> rtc step st st' -> loop_ok st'.2.
Proof. intros Hok H. revert Hok. induction H as [|x y z Hs _ IH]; intros Hok; [done|]. apply IH. by eapply step_ok. Qed.

(** C21: in every state the socket calls can reach, in any order and over any
    descriptor table, the pools are sound: peers are mutual, every pointer from
    a connected socket or a listener's queue is to an endpoint in use, no
    endpoint is held twice, rings and queues stay in their bounds; hence
    [accept] never takes a null endpoint from a queue. *)
Theorem loop_reachable_ok v st : rtc step (v, loop_start) st ->
  loop_ok st.2 /\
  forall owner fd f, vfs_fd_get (i32 fd) st.1 = Some f -> is_loop_file f = true -> loop_accept owner fd st <> None.
Proof.
  intros H. pose proof (steps_ok (v, loop_start) st loop_start_ok H) as Hok. split; [done|]. destruct st as [v' s].
  intros owner fd f Ef El E. pose proof (loop_accept_ok owner fd v' s Hok) as Ha. rewrite E in Ha.
  destruct Ha as (g & Eg & El'). cbn [fst] in Ef. congruence.
Qed.

(** *** A connection from scratch: a server on port 8080, a client *)
Definition after {A} (o : option (state * A)) (st : state) : state :=
  match o with Some (st', _) => st' | None => st end.
Definition lo_8080 : list Z := [2; 0; 31; 144; 127; 0; 0; 1].
Definition demo1 : state := (loop_socket 1 AF_INET SOCK_STREAM (vfs_init vfs_bss, loop_start)).1.
Definition demo2 : state := after (loop_bind 3 lo_8080 demo1) demo1.
Definition demo3 : state := after (loop_listen 3 demo2) demo2.
Definition demo4 : state := (loop_socket 1 AF_INET SOCK_STREAM demo3).1.
Definition demo5 : state := after (loop_connect 4 lo_8080 demo4) demo4.
Definition accepted (o : option (state * Z * list Z)) : option (state * Z) := fst <$> o.
Definition demo : state := after (accepted (loop_accept 1 3 demo5)) demo5.

Lemma step_after {A} (o : option (state * A)) st :
  (forall st' a, o = Some (st', a) -> step st st') -> step st (after o st).
Proof. destruct o as [[st' a]|]; intros H; [by eapply H|]. destruct st. apply st_fds. Qed.

Lemma step_bind fd a st : step st (after (loop_bind fd a st) st).
Proof. apply step_after. intros st' r. apply st_bind. Qed.
Lemma step_listen fd st : step st (after (loop_listen fd st) st).
Proof. apply step_after. intros st' r. apply st_listen. Qed.
Lemma step_connect fd a st : step st (after (loop_connect fd a st) st).
Proof. apply step_after. intros st' r. apply st_connect. Qed.
Lemma step_accept owner fd st : step st (after (accepted (loop_accept owner fd st)) st).
Proof.
  apply step_after. intros st' r E. apply fmap_Some in E as ([[st0 r0] a] & E & [= -> ->]).
  by eapply st_accept.
Qed.

Lemma demo_steps : rtc step (vfs_init vfs_bss, loop_start) demo.
Proof.
  exact (rtc_l _ _ demo1 _ (st_socket _ _ _ _) (rtc_l _ _ demo2 _ (step_bind _ _ _)
    (rtc_l _ _ demo3 _ (step_listen _ _) (rtc_l _ _ demo4 _ (st_socket _ _ _ _)
    (rtc_l _ _ demo5 _ (step_connect _ _ _) (rtc_l _ _ demo _ (step_accept _ _ _) (rtc_refl _ _))))))).
Qed.

Lemma demo_pair : stream_pair demo.2 1 2 0 1.
Proof.
  pose proof (steps_ok (_, loop_start) demo loop_start_ok demo_steps) as Hok.
  split; try (vm_compute; reflexivity).
  - lia.
  - done.
  - split; vm_compute; reflexivity.
  - by apply Hok.
Qed.

Lemma loop_reachable_ok_witness :
  rtc step (vfs_init vfs_bss, loop_start) demo /\ loop_ok demo.2 /\ vfs_fd_get 5 demo.1 = Some 2.
Proof.
  split; [exact demo_steps|]. split; [|vm_compute; reflexivity].
  exact (proj1 (loop_reachable_ok _ _ demo_steps)).
Defined.

Lemma loop_stream_witness :
  let '(s', sent, got) := run_io 1 2 [Snd [7; 8; 9]; Rcv 2; Snd [10]; Rcv 5] demo.2 in
  got ++ buffered s' 1 = buffered demo.2 1 ++ sent /\ stream_pair s' 1 2 0 1 /\ (length (buffered s' 1) <= 256)%nat.
Proof. apply loop_stream; [exact demo_pair|]. repeat constructor; lia. Defined.

Example demo_io : (run_io 1 2 [Snd [7; 8; 9]; Rcv 2; Snd [10]; Rcv 5] demo.2).2 = [7; 8; 9; 10].
Proof. vm_compute. reflexivity. Qed.
End Loopback.
