(* ===== verification/Bytes.v ===== *)
(** Algebra of byte ranges: reading ([Ring.slice]) and writing ([Ring.blit]) parts
    of a buffer or of a disk image. *)
From S2P Require Import Prelude Ring.


Module Bytes.
Import Ring.

Section Bytes.
  Context {A : Type} `{Inhabited A}.

(** The [n] elements at [off] lie inside [l]. *)
Definition within (l : list A) (off n : Z) : Prop := 0 <= off /\ 0 <= n /\ off + n <= Z.of_nat (length l).

Definition apart (o n o' n' : Z) : Prop := o + n <= o' \/ o' + n' <= o.

Lemma aget_ext (l l' : list A) :
  length l = length l' -> (forall i, 0 <= i < Z.of_nat (length l) -> aget l i = aget l' i) -> l = l'.
Proof.
  intros Hl Hi. apply list_eq_same_length with (length l); [done|done|].
  intros i x y Hlt Hx Hy. specialize (Hi (Z.of_nat i) ltac:(lia)).
  by rewrite (aget_lookup _ _ _ Hx), (aget_lookup _ _ _ Hy) in Hi.
Qed.

Lemma aget_slice (l : list A) off n i : within l off n -> 0 <= i < n -> aget (slice l off n) i = aget l (off + i).
Proof.
  intros (H0 & Hn & Hl) Hi. rewrite <- (Z2Nat.id i) at 1 by lia. apply aget_lookup.
  rewrite lookup_slice by lia. do 2 f_equal. lia.
Qed.

Lemma len_slice (l : list A) off n : within l off n -> Z.of_nat (length (slice l off n)) = n.
Proof. intros (H0 & Hn & Hl). rewrite length_slice by lia. lia. Qed.

Lemma len_blit (l : list A) off (d : list A) : within l off (Z.of_nat (length d)) -> length (blit l off d) = length l.
Proof. intros (H0 & Hn & Hl). by apply length_blit. Qed.

(** Two writes, one behind the other. *)
Lemma blit_app (l : list A) off (d d' : list A) : within l off (Z.of_nat (length d) + Z.of_nat (length d')) ->
  blit (blit l off d) (off + Z.of_nat (length d)) d' = blit l off (d ++ d').
Proof.
  intros (H0 & Hn & Hl). assert (E1 : length (blit l off d) = length l) by (apply length_blit; lia).
  apply aget_ext.
  - rewrite !length_blit; rewrite ?E1, ?length_app; lia.
  - intros i Hi. rewrite length_blit in Hi by lia. rewrite E1 in Hi. rewrite !aget_blit by (rewrite ?E1, ?length_app; lia).
    rewrite length_app. repeat case_decide; try lia; try done.
    + rewrite aget_app_r by lia. f_equal. lia.
    + rewrite aget_app_l by lia. done.
Qed.

Lemma aget_blit_in (l : list A) off (d : list A) k : within l off (Z.of_nat (length d)) -> 0 <= k < Z.of_nat (length d) ->
  aget (blit l off d) (off + k) = aget d k.
Proof. intros (H0 & Hn & Hl) Hk. rewrite aget_blit, decide_True by lia. f_equal. lia. Qed.

Lemma aget_blit_out (l : list A) off (d : list A) i : within l off (Z.of_nat (length d)) -> 0 <= i < Z.of_nat (length l) ->
  ~ (off <= i < off + Z.of_nat (length d)) -> aget (blit l off d) i = aget l i.
Proof. intros (H0 & Hn & Hl) Hi Ho. by rewrite aget_blit, decide_False by lia. Qed.

Lemma slice_all (l : list A) n : n = Z.of_nat (length l) -> slice l 0 n = l.
Proof. intros ->. unfold slice. change (drop (Z.to_nat 0) l) with l. apply take_ge. lia. Qed.

Lemma slice_slice (l : list A) a n b m :
  within l a n -> 0 <= b -> 0 <= m -> b + m <= n -> slice (slice l a n) b m = slice l (a + b) m.
Proof.
  intros Hw Hb Hm Hle. pose proof (len_slice l a n Hw) as Es. destruct Hw as (H0 & Hn & Hl).
  apply aget_ext.
  - rewrite !length_slice by lia. lia.
  - intros i Hi. rewrite length_slice in Hi by lia.
    rewrite !aget_slice by (repeat split; lia). f_equal. lia.
Qed.

Lemma slice_blit_same (l : list A) off (d : list A) n :
  within l off (Z.of_nat (length d)) -> n = Z.of_nat (length d) -> slice (blit l off d) off n = d.
Proof.
  intros Hw ->. pose proof (len_blit l off d Hw) as El. destruct Hw as (H0 & Hn & Hl). apply aget_ext.
  - rewrite length_slice by lia. lia.
  - intros i Hi. rewrite length_slice in Hi by lia.
    rewrite aget_slice, aget_blit by (repeat split; lia). rewrite decide_True by lia. f_equal. lia.
Qed.

Lemma slice_blit_apart (l : list A) off (d : list A) o n :
  within l off (Z.of_nat (length d)) -> within l o n -> apart off (Z.of_nat (length d)) o n ->
  slice (blit l off d) o n = slice l o n.
Proof.
  intros Hw Hw' Ha. pose proof (len_blit l off d Hw) as El.
  destruct Hw as (H0 & Hn & Hl), Hw' as (H0' & Hn' & Hl'). apply aget_ext.
  - rewrite !length_slice by lia. done.
  - intros i Hi. rewrite length_slice in Hi by lia.
    rewrite !aget_slice, aget_blit by (repeat split; lia). rewrite decide_False by (destruct Ha; lia). done.
Qed.

(** A range inside a bigger one that was written. *)
Lemma slice_blit_in (l : list A) off (d : list A) o n :
  within l off (Z.of_nat (length d)) -> off <= o -> 0 <= n -> o + n <= off + Z.of_nat (length d) ->
  slice (blit l off d) o n = slice d (o - off) n.
Proof.
  intros Hw Ho Hn Hle. pose proof (len_blit l off d Hw) as El. destruct Hw as (H0 & _ & Hl). apply aget_ext.
  - rewrite !length_slice by lia. done.
  - intros i Hi. rewrite length_slice in Hi by lia.
    rewrite !aget_slice, aget_blit by (repeat split; lia). rewrite decide_True by lia. f_equal. lia.
Qed.

(** Reading a range, changing a part of the copy and writing it back. *)
Lemma blit_rmw (l : list A) a n b (d : list A) :
  within l a n -> 0 <= b -> b + Z.of_nat (length d) <= n ->
  blit l a (blit (slice l a n) b d) = blit l (a + b) d.
Proof.
  intros Hw Hb Hle. pose proof (len_slice l a n Hw) as Es. destruct Hw as (H0 & Hn & Hl).
  assert (Hd : within (slice l a n) b (Z.of_nat (length d))) by (repeat split; lia).
  pose proof (len_blit _ _ _ Hd) as Ed. apply aget_ext.
  - rewrite !len_blit by (repeat split; lia). done.
  - intros i Hi. rewrite len_blit in Hi by (repeat split; lia).
    rewrite (aget_blit l (a + b)) by lia. rewrite (aget_blit l a) by lia.
    destruct (decide (a + b <= i < a + b + Z.of_nat (length d))) as [E2|E2].
    + rewrite decide_True, aget_blit, decide_True by lia. f_equal. lia.
    + case_decide as E1; [|done]. rewrite aget_blit, decide_False by lia.
      rewrite aget_slice by (repeat split; lia). f_equal. lia.
Qed.

Lemma blit_same (l : list A) a n : within l a n -> blit l a (slice l a n) = l.
Proof.
  intros Hw. pose proof (len_slice l a n Hw) as Es. destruct Hw as (H0 & Hn & Hl). apply aget_ext.
  - by rewrite len_blit by (repeat split; lia).
  - intros i Hi. rewrite len_blit in Hi by (repeat split; lia). rewrite aget_blit by lia.
    case_decide; [|done]. rewrite aget_slice by (repeat split; lia). f_equal. lia.
Qed.

Lemma take_slice (l : list A) n : take (Z.to_nat n) l = slice l 0 n.
Proof. done. Qed.

Lemma slice_app_left (p q : list A) off n : within p off n -> slice (p ++ q) off n = slice p off n.
Proof.
  intros (H0 & Hn & Hl). unfold slice. rewrite drop_app_le by lia. rewrite take_app_le; [done|].
  rewrite length_drop. lia.
Qed.

Lemma slice_app_right (p q : list A) off n : Z.of_nat (length p) <= off -> slice (p ++ q) off n = slice q (off - Z.of_nat (length p)) n.
Proof. intros Ho. unfold slice. rewrite drop_app_ge by lia. do 2 f_equal. lia. Qed.
End Bytes.

#[global] Arguments within {A} _ _ _.

(** Consecutive parts of a range, in one step or two. *)
Lemma slice_split {A} (l : list A) off n m :
  0 <= off -> 0 <= n -> 0 <= m -> slice l off (n + m) = slice l off n ++ slice l (off + n) m.
Proof.
  intros H0 Hn Hm. unfold slice. rewrite Z2Nat.inj_add, <- take_take_drop by lia.
  rewrite drop_drop. do 3 f_equal. lia.
Qed.

(** ** Little-endian digits *)
Lemma lor_shift a b k : 0 <= k -> 0 <= a < 2 ^ k -> Z.lor a (Z.shiftl b k) = a + b * 2 ^ k.
Proof.
  intros Hk Ha. rewrite <- Z.shiftl_mul_pow2 by done. rewrite Z.add_nocarry_lor; [done|].
  apply Z.bits_inj'. intros i Hi. rewrite Z.land_spec, Z.bits_0. destruct (Z_lt_le_dec i k).
  - by rewrite Z.shiftl_spec_low, andb_false_r.
  - by rewrite (testbit_high a k) by done.
Qed.

Definition is_byte (x : Z) : Prop := 0 <= x < 256.

Lemma digit v k : 0 <= k -> u8 (Z.land (Z.shiftr v k) 255) = v / 2 ^ k mod 256.
Proof.
  intros Hk. change 255 with (Z.ones 8). rewrite Z.land_ones by done. rewrite Z.shiftr_div_pow2 by done.
  unfold u8. apply Z.mod_mod. done.
Qed.

Lemma digit0 v : u8 (Z.land v 255) = v mod 256.
Proof. rewrite <- (Z.shiftr_0_r v), digit, Z.div_1_r by done. by rewrite Z.shiftr_0_r. Qed.

Lemma digits2 v : 0 <= v < 2 ^ 16 -> v mod 256 + v / 2 ^ 8 mod 256 * 2 ^ 8 = v.
Proof. intros Hv. Z.to_euclidean_division_equations. lia. Qed.

Lemma digits4 v : 0 <= v < 2 ^ 32 ->
  v mod 256 + v / 2 ^ 8 mod 256 * 2 ^ 8 + v / 2 ^ 16 mod 256 * 2 ^ 16 + v / 2 ^ 24 mod 256 * 2 ^ 24 = v.
Proof. intros Hv. Z.to_euclidean_division_equations. lia. Qed.
End Bytes.
