(* ===== verification/Ext2.v ===== *)
(** The ext2 driver (src/src/kernel/fs/ext2.c): blocks, group descriptors,
    inodes, the bitmaps, block mapping, file reading, writing and truncation.
    Directories are in Ext2Dir.v. *)
From S2P Require Import Prelude Ring Vfs.

(** ** The disk

    [ata_read_sectors_slave] and [ata_write_sectors_slave]: the first sector,
    the number of sectors. A read also gives the bytes it stored, a prefix of
    the request when it fails. *)
Class BlockDev (D : Type) := {
  dev_read : Z -> Z -> D -> D * (bool * list Z);
  dev_write : Z -> Z -> list Z -> D -> D * bool
}.

(** What the driver relies on: a healthy disk is an array of bytes. *)
Class BlockSpec (D : Type) `{BlockDev D} := {
  image : D -> list Z;
  read_image d lba n :
    0 <= lba -> 0 <= n -> (lba + n) * 512 <= Z.of_nat (length (image d)) ->
    exists d', dev_read lba n d = (d', (true, Ring.slice (image d) (lba * 512) (n * 512))) /\ image d' = image d;
  write_image d lba n data :
    0 <= lba -> 0 <= n -> (lba + n) * 512 <= Z.of_nat (length (image d)) -> Z.of_nat (length data) = n * 512 ->
    exists d', dev_write lba n data d = (d', true) /\ image d' = Ring.blit (image d) (lba * 512) data
}.

Module Ext2.

Definition EXT2_MAGIC : Z := 0xEF53.
Definition EXT2_ROOT_INO : Z := 2.
Definition EXT2_S_IFMT : Z := 0xF000.
Definition EXT2_S_IFREG : Z := 0x8000.
Definition EXT2_S_IFDIR : Z := 0x4000.
Definition EXT2_S_IFLNK : Z := 0xA000.
Definition EXT2_FT_REG : Z := 1.
Definition EXT2_FT_DIR : Z := 2.

(** ** Little-endian fields of a byte buffer *)
Definition rd16 (p : list Z) (o : Z) : Z := u16 (Z.lor (aget p o) (Z.shiftl (aget p (o + 1)) 8)).
Definition rd32 (p : list Z) (o : Z) : Z :=
  Z.lor (Z.lor (Z.lor (aget p o) (Z.shiftl (aget p (o + 1)) 8)) (Z.shiftl (aget p (o + 2)) 16))
        (Z.shiftl (aget p (o + 3)) 24).
Definition le16 (v : Z) : list Z := [u8 (Z.land v 255); u8 (Z.land (Z.shiftr v 8) 255)].
Definition le32 (v : Z) : list Z :=
  [u8 (Z.land v 255); u8 (Z.land (Z.shiftr v 8) 255); u8 (Z.land (Z.shiftr v 16) 255); u8 (Z.land (Z.shiftr v 24) 255)].
Definition wr16 (p : list Z) (o v : Z) : list Z := Ring.blit p o (le16 v).
Definition wr32 (p : list Z) (o v : Z) : list Z := Ring.blit p o (le32 v).

(** ** On-disk structures *)

(** The fields of the superblock the driver reads. *)
Record ext2_superblock_t := Superblock {
  s_inodes_count : Z; s_blocks_count : Z; s_free_blocks_count : Z; s_free_inodes_count : Z;
  s_log_block_size : Z; s_blocks_per_group : Z; s_inodes_per_group : Z; s_magic : Z; s_inode_size : Z
}.
#[export] Instance eta_superblock : Eta ext2_superblock_t := fun s =>
  Superblock (s_inodes_count s) (s_blocks_count s) (s_free_blocks_count s) (s_free_inodes_count s)
    (s_log_block_size s) (s_blocks_per_group s) (s_inodes_per_group s) (s_magic s) (s_inode_size s).

(** A group descriptor. The structure has 20 bytes and the code copies 32 in
    and out of it: [bg_behind] are the twelve bytes behind the variable, which
    the model takes to keep what the last copy put there. *)
Record ext2_group_desc_t := GroupDesc {
  bg_block_bitmap : Z; bg_inode_bitmap : Z; bg_inode_table : Z;
  bg_free_blocks_count : Z; bg_free_inodes_count : Z; bg_used_dirs_count : Z; bg_pad : Z;
  bg_behind : list Z
}.
#[export] Instance eta_group_desc : Eta ext2_group_desc_t := fun g =>
  GroupDesc (bg_block_bitmap g) (bg_inode_bitmap g) (bg_inode_table g)
    (bg_free_blocks_count g) (bg_free_inodes_count g) (bg_used_dirs_count g) (bg_pad g) (bg_behind g).

Definition decode_gdesc (p : list Z) : ext2_group_desc_t :=
  GroupDesc (rd32 p 0) (rd32 p 4) (rd32 p 8) (rd16 p 12) (rd16 p 14) (rd16 p 16) (rd16 p 18) (Ring.slice p 20 12).
Definition encode_gdesc (g : ext2_group_desc_t) : list Z :=
  le32 (bg_block_bitmap g) ++ le32 (bg_inode_bitmap g) ++ le32 (bg_inode_table g) ++
  le16 (bg_free_blocks_count g) ++ le16 (bg_free_inodes_count g) ++ le16 (bg_used_dirs_count g) ++
  le16 (bg_pad g) ++ bg_behind g.

Record ext2_inode_t := Inode {
  i_mode : Z; i_uid : Z; i_size : Z; i_atime : Z; i_ctime : Z; i_mtime : Z; i_dtime : Z;
  i_gid : Z; i_links_count : Z; i_blocks : Z; i_flags : Z; i_osd1 : Z; i_block : list Z;
  i_generation : Z; i_file_acl : Z; i_dir_acl : Z; i_faddr : Z; i_osd2 : list Z
}.
#[export] Instance eta_inode : Eta ext2_inode_t := fun i =>
  Inode (i_mode i) (i_uid i) (i_size i) (i_atime i) (i_ctime i) (i_mtime i) (i_dtime i)
    (i_gid i) (i_links_count i) (i_blocks i) (i_flags i) (i_osd1 i) (i_block i)
    (i_generation i) (i_file_acl i) (i_dir_acl i) (i_faddr i) (i_osd2 i).

Definition decode_inode (p : list Z) : ext2_inode_t :=
  Inode (rd16 p 0) (rd16 p 2) (rd32 p 4) (rd32 p 8) (rd32 p 12) (rd32 p 16) (rd32 p 20)
    (rd16 p 24) (rd16 p 26) (rd32 p 28) (rd32 p 32) (rd32 p 36) ((fun k => rd32 p (40 + 4 * k)) <$> zrange 15)
    (rd32 p 100) (rd32 p 104) (rd32 p 108) (rd32 p 112) (Ring.slice p 116 12).
Definition encode_inode (i : ext2_inode_t) : list Z :=
  le16 (i_mode i) ++ le16 (i_uid i) ++ le32 (i_size i) ++ le32 (i_atime i) ++ le32 (i_ctime i) ++
  le32 (i_mtime i) ++ le32 (i_dtime i) ++ le16 (i_gid i) ++ le16 (i_links_count i) ++ le32 (i_blocks i) ++
  le32 (i_flags i) ++ le32 (i_osd1 i) ++ (i_block i ≫= le32) ++ le32 (i_generation i) ++
  le32 (i_file_acl i) ++ le32 (i_dir_acl i) ++ le32 (i_faddr i) ++ i_osd2 i.

(** [memset(&inode, 0, sizeof inode)] *)
Definition inode0 : ext2_inode_t :=
  Inode 0 0 0 0 0 0 0 0 0 0 0 0 (replicate 15 0) 0 0 0 0 (replicate 12 0).

(** An entry of the directory cache; the name up to its NUL. *)
Record dentry_t := Dentry { d_parent : Z; d_hash : Z; d_child : Z; d_name : list Z; d_valid : Z }.
#[export] Instance eta_dentry : Eta dentry_t := fun d =>
  Dentry (d_parent d) (d_hash d) (d_child d) (d_name d) (d_valid d).
Definition dentry0 : dentry_t := Dentry 0 0 0 [] 0.
#[export] Instance inhabited_dentry : Inhabited dentry_t := populate dentry0.

(** ** The state of the driver

    [now] is the clock in seconds, which stands still during a call; [creator]
    the user and group of the current task, zero without one. *)
Record fs (D : Type) := Fs {
  ext2_mounted : Z;
  ext2_sb : ext2_superblock_t;
  ext2_blk_size : Z;
  ext2_ino_size : Z;
  ext2_inodes_per_group : Z;
  ext2_blocks_per_group : Z;
  ext2_blkbuf : list Z;
  ext2_indbuf : list Z;
  dcache : list dentry_t;
  dcache_next : Z;
  ext2_file_pool : list Vfs.file_t;
  ext2_file_pool_used : list Z;
  disk : D;
  now : Z;
  creator : Z * Z
}.
#[global] Arguments Fs {D}.
#[global] Arguments ext2_mounted {D}.
#[global] Arguments ext2_sb {D}.
#[global] Arguments ext2_blk_size {D}.
#[global] Arguments ext2_ino_size {D}.
#[global] Arguments ext2_inodes_per_group {D}.
#[global] Arguments ext2_blocks_per_group {D}.
#[global] Arguments ext2_blkbuf {D}.
#[global] Arguments ext2_indbuf {D}.
#[global] Arguments dcache {D}.
#[global] Arguments dcache_next {D}.
#[global] Arguments ext2_file_pool {D}.
#[global] Arguments ext2_file_pool_used {D}.
#[global] Arguments disk {D}.
#[global] Arguments now {D}.
#[global] Arguments creator {D}.
#[export] Instance eta_fs D : Eta (fs D) := fun s =>
  Fs (ext2_mounted s) (ext2_sb s) (ext2_blk_size s) (ext2_ino_size s) (ext2_inodes_per_group s)
    (ext2_blocks_per_group s) (ext2_blkbuf s) (ext2_indbuf s) (dcache s) (dcache_next s)
    (ext2_file_pool s) (ext2_file_pool_used s) (disk s) (now s) (creator s).

(** The calls as a state and error monad: a failing call ([return -1], or 0
    for the block allocator) leaves the state it has reached. *)
Definition M (D A : Type) : Type := fs D -> fs D * option A.

Section Monad.
  Context {D : Type}.
Definition ret {A} (x : A) : M D A := fun s => (s, Some x).
Definition fail {A} : M D A := fun s => (s, None).
Definition bind {A B} (m : M D A) (k : A -> M D B) : M D B := fun s =>
    match m s with (s1, Some x) => k x s1 | (s1, None) => (s1, None) end.
Definition gets {A} (f : fs D -> A) : M D A := fun s => (s, Some (f s)).
Definition modify (f : fs D -> fs D) : M D unit := fun s => (f s, Some tt).
(** The caller looks at the result instead of returning at once. *)
Definition attempt {A} (m : M D A) : M D (option A) := fun s => let '(s1, o) := m s in (s1, Some o).
Definition guard (b : bool) : M D unit := if b then ret tt else fail.
(** On failure [h] is run and the call fails. *)
Definition on_fail {A} (m : M D A) (h : M D unit) : M D A := fun s =>
    match m s with (s1, Some x) => (s1, Some x) | (s1, None) => ((h s1).1, None) end.
End Monad.

Notation "'let*' x := m 'in' k" := (bind m (fun x => k))
  (at level 10, x name, m at level 100, k at level 200) : kernel_scope.
Notation "'do*' m 'in' k" := (bind m (fun _ => k))
  (at level 10, m at level 100, k at level 200) : kernel_scope.

Section Ext2.
  Context {D : Type} `{BlockDev D}.
#[local] Abbreviation M := (M D).

(** ** Blocks *)

(** The two page-sized buffers. *)
Inductive buf := Blk | Ind.
Definition set_buf (b : buf) (l : list Z) (s : fs D) : fs D :=
    match b with Blk => s <| ext2_blkbuf := l |> | Ind => s <| ext2_indbuf := l |> end.
Definition get_buf (b : buf) (s : fs D) : list Z :=
    match b with Blk => ext2_blkbuf s | Ind => ext2_indbuf s end.

Definition ext2_read_block (block : Z) (dst : buf) : M unit := fun s =>
    let spb := ext2_blk_size s / 512 in
    let '(d, (ok, bytes)) := dev_read (u32 (block * spb)) spb (disk s) in
    let s1 := set_buf dst (Ring.blit (get_buf dst s) 0 bytes) (s <| disk := d |>) in
    (s1, if ok then Some tt else None).

(** The bytes at [data]; the block's worth of them is written. *)
Definition ext2_write_block (block : Z) (data : list Z) : M unit := fun s =>
    if ext2_mounted s =? 0 then (s, None) else
    let spb := ext2_blk_size s / 512 in
    let '(d, ok) := dev_write (u32 (block * spb)) spb (take (Z.to_nat (spb * 512)) data) (disk s) in
    (s <| disk := d |>, if ok then Some tt else None).

(** ** Group descriptors and the superblock *)
Definition ext2_gdt_start_block (s : fs D) : Z := 2048 / ext2_blk_size s.

(** The block of a descriptor and its place in it. *)
Definition gdesc_place (group : Z) (s : fs D) : Z * Z :=
    let entries_per_block := ext2_blk_size s / 32 in
    (u32 (ext2_gdt_start_block s + group / entries_per_block), group mod entries_per_block).

Definition ext2_write_gdesc (group : Z) (gd : ext2_group_desc_t) : M unit :=
    let* p := gets (gdesc_place group) in
    do* ext2_read_block p.1 Blk in
    do* modify (fun s => s <| ext2_blkbuf := Ring.blit (ext2_blkbuf s) (p.2 * 32) (encode_gdesc gd) |>) in
    let* b := gets ext2_blkbuf in
    ext2_write_block p.1 b.

Definition ext2_read_gdesc (group : Z) : M ext2_group_desc_t :=
    let* p := gets (gdesc_place group) in
    do* ext2_read_block p.1 Blk in
    let* b := gets ext2_blkbuf in
    ret (decode_gdesc (Ring.slice b (p.2 * 32) 32)).

(** The copy on the stack is not kept. *)
Definition ext2_write_superblock : M unit := fun s =>
    let '(d, (ok, raw)) := dev_read 2 2 (disk s) in
    if negb ok then (s <| disk := d |>, None) else
    let raw := wr32 raw 12 (s_free_blocks_count (ext2_sb s)) in
    let raw := wr32 raw 16 (s_free_inodes_count (ext2_sb s)) in
    let '(d, ok) := dev_write 2 2 raw d in
    (s <| disk := d |>, if ok then Some tt else None).

(** ** Inodes *)

(** The block that holds inode [index] of the table, and its place there. *)
Definition inode_place (gd : ext2_group_desc_t) (index : Z) (s : fs D) : Z * Z :=
    let off := u32 (bg_inode_table gd * ext2_blk_size s + index * ext2_ino_size s) in
    (off / ext2_blk_size s, off mod ext2_blk_size s).

Definition inode_group (ino : Z) (s : fs D) : Z * Z :=
    ((ino - 1) / ext2_inodes_per_group s, (ino - 1) mod ext2_inodes_per_group s).

(** The structure has 128 bytes; a larger inode size, for which the code
    copies past its end, is outside the model. *)
Definition ext2_read_inode (ino : Z) : M ext2_inode_t :=
    let* m := gets ext2_mounted in
    do* guard (negb ((m =? 0) || (ino =? 0))) in
    let* g := gets (inode_group ino) in
    let* gd := ext2_read_gdesc g.1 in
    let* p := gets (inode_place gd g.2) in
    do* ext2_read_block p.1 Blk in
    let* b := gets ext2_blkbuf in
    let* n := gets ext2_ino_size in
    ret (decode_inode (Ring.slice b p.2 n)).

Definition ext2_write_inode (ino : Z) (inode : ext2_inode_t) : M unit :=
    let* m := gets ext2_mounted in
    do* guard (negb ((m =? 0) || (ino =? 0))) in
    let* g := gets (inode_group ino) in
    let* gd := ext2_read_gdesc g.1 in
    let* p := gets (inode_place gd g.2) in
    do* ext2_read_block p.1 Blk in
    do* modify (fun s => s <| ext2_blkbuf := Ring.blit (ext2_blkbuf s) p.2
                                (take (Z.to_nat (ext2_ino_size s)) (encode_inode inode)) |>) in
    let* b := gets ext2_blkbuf in
    ext2_write_block p.1 b.

(** ** Block mapping *)

(** Word [k] of the table in block [table], through the indirect buffer. *)
Definition table_word (table k : Z) : M Z :=
    if table =? 0 then ret 0 else
    let* r := attempt (ext2_read_block table Ind) in
    match r with
    | None => ret 0
    | Some _ => let* b := gets ext2_indbuf in ret (rd32 b (k * 4))
    end.

Definition ext2_data_block (inode : ext2_inode_t) (idx : Z) : M Z :=
    let* per_blk := gets (fun s => ext2_blk_size s / 4) in
    if idx <? 12 then ret (aget (i_block inode) idx) else
    let idx := idx - 12 in
    if idx <? per_blk then table_word (aget (i_block inode) 12) idx else
    let idx := idx - per_blk in
    if per_blk <=? idx / per_blk
    then do* (if aget (i_block inode) 13 =? 0 then ret tt
              else do* attempt (ext2_read_block (aget (i_block inode) 13) Ind) in ret tt) in ret 0
    else let* l1blk := table_word (aget (i_block inode) 13) (idx / per_blk) in
         table_word l1blk (idx mod per_blk).

(** ** Bitmaps *)
Definition bit_of (b : list Z) (i : Z) : bool := Z.testbit (aget b (Z.shiftr i 3)) (Z.land i 7).
Definition put_bit (b : list Z) (i : Z) (v : bool) : list Z :=
    let mask := u8 (Z.shiftl 1 (Z.land i 7)) in
    let x := aget b (Z.shiftr i 3) in
    aset b (Z.shiftr i 3) (if v then Z.lor x mask else Z.land x (u8 (Z.lnot mask))).

Definition ext2_bitmap_set (bitmap_block bit : Z) (v : bool) : M unit :=
    do* ext2_read_block bitmap_block Blk in
    do* modify (fun s => s <| ext2_blkbuf := put_bit (ext2_blkbuf s) bit v |>) in
    let* b := gets ext2_blkbuf in
    ext2_write_block bitmap_block b.

(** The first clear bit in [from, range), which is set. *)
Definition bitmap_alloc (bitmap_block from range : Z) : M Z :=
    do* ext2_read_block bitmap_block Blk in
    let* b := gets ext2_blkbuf in
    match find_index (fun i => negb (bit_of b i)) (drop (Z.to_nat from) (zrange (Z.to_nat range))) with
    | None => fail
    | Some k =>
        let i := from + Z.of_nat k in
        do* modify (fun s => s <| ext2_blkbuf := put_bit (ext2_blkbuf s) i true |>) in
        let* b := gets ext2_blkbuf in
        do* ext2_write_block bitmap_block b in
        ret i
    end.

Definition ext2_inode_bitmap_alloc (gd : ext2_group_desc_t) (range : Z) : M Z :=
    bitmap_alloc (bg_inode_bitmap gd) 1 range.
Definition ext2_block_bitmap_alloc (gd : ext2_group_desc_t) (range : Z) : M Z :=
    bitmap_alloc (bg_block_bitmap gd) 0 range.

(** [min(per group, total - g * per group)] *)
Definition group_range (total per g : Z) : Z :=
    let remain := u32 (total - g * per) in if per <? remain then per else remain.

Definition count_free_inode (n : Z) (s : fs D) : fs D :=
    s <| ext2_sb := ext2_sb s <| s_free_inodes_count := u32 (s_free_inodes_count (ext2_sb s) + n) |> |>.
Definition count_free_block (n : Z) (s : fs D) : fs D :=
    s <| ext2_sb := ext2_sb s <| s_free_blocks_count := u32 (s_free_blocks_count (ext2_sb s) + n) |> |>.

Fixpoint alloc_inode_in (groups : list Z) : M Z :=
    match groups with
    | [] => fail
    | g :: groups' =>
        let* o := attempt (ext2_read_gdesc g) in
        match o with
        | None => alloc_inode_in groups'
        | Some gd =>
            if bg_free_inodes_count gd =? 0 then alloc_inode_in groups' else
            let* range := gets (fun s => group_range (s_inodes_count (ext2_sb s)) (ext2_inodes_per_group s) g) in
            let* o := attempt (ext2_inode_bitmap_alloc gd range) in
            match o with
            | None => alloc_inode_in groups'
            | Some local =>
                do* ext2_write_gdesc g (gd <| bg_free_inodes_count := u16 (bg_free_inodes_count gd - 1) |>) in
                do* modify (count_free_inode (-1)) in
                do* attempt ext2_write_superblock in
                let* per := gets ext2_inodes_per_group in
                ret (g * per + local)
            end
        end
    end.

Definition groups_of (total per : Z) : list Z := zrange (Z.to_nat (u32 (total + per - 1) / per)).

Definition ext2_alloc_inode : M Z :=
    let* s := gets id in
    do* guard (negb ((ext2_mounted s =? 0) || (s_free_inodes_count (ext2_sb s) =? 0))) in
    alloc_inode_in (groups_of (s_inodes_count (ext2_sb s)) (ext2_inodes_per_group s)).

Definition ext2_free_inode (ino : Z) : M unit :=
    let* m := gets ext2_mounted in
    do* guard (negb ((m =? 0) || (ino =? 0))) in
    let* g := gets (inode_group ino) in
    let* gd := ext2_read_gdesc g.1 in
    do* ext2_bitmap_set (bg_inode_bitmap gd) g.2 false in
    do* ext2_write_gdesc g.1 (gd <| bg_free_inodes_count := u16 (bg_free_inodes_count gd + 1) |>) in
    do* modify (count_free_inode 1) in
    do* attempt ext2_write_superblock in ret tt.

Fixpoint alloc_block_in (groups : list Z) : M Z :=
    match groups with
    | [] => fail
    | g :: groups' =>
        let* o := attempt (ext2_read_gdesc g) in
        match o with
        | None => alloc_block_in groups'
        | Some gd =>
            if bg_free_blocks_count gd =? 0 then alloc_block_in groups' else
            let* range := gets (fun s => group_range (s_blocks_count (ext2_sb s)) (ext2_blocks_per_group s) g) in
            let* o := attempt (ext2_block_bitmap_alloc gd range) in
            match o with
            | None | Some 0 => alloc_block_in groups'
            | Some local =>
                do* ext2_write_gdesc g (gd <| bg_free_blocks_count := u16 (bg_free_blocks_count gd - 1) |>) in
                do* modify (count_free_block (-1)) in
                do* attempt ext2_write_superblock in
                let* per := gets ext2_blocks_per_group in
                ret (g * per + local)
            end
        end
    end.

(** Failure is block 0 in the code. *)
Definition ext2_alloc_block : M Z :=
    let* s := gets id in
    do* guard (negb ((ext2_mounted s =? 0) || (s_free_blocks_count (ext2_sb s) =? 0))) in
    alloc_block_in (groups_of (s_blocks_count (ext2_sb s)) (ext2_blocks_per_group s)).

Definition ext2_free_block (blk : Z) : M unit :=
    let* s := gets id in
    do* guard (negb ((ext2_mounted s =? 0) || (blk =? 0))) in
    let group := blk / ext2_blocks_per_group s in
    let local := blk mod ext2_blocks_per_group s in
    let* gd := ext2_read_gdesc group in
    do* ext2_bitmap_set (bg_block_bitmap gd) local false in
    do* ext2_write_gdesc group (gd <| bg_free_blocks_count := u16 (bg_free_blocks_count gd + 1) |>) in
    do* modify (count_free_block 1) in
    do* attempt ext2_write_superblock in ret tt.

Definition ext2_free_counts : M (Z * Z) :=
    let* s := gets id in
    do* guard (negb (ext2_mounted s =? 0)) in
    ret (s_free_inodes_count (ext2_sb s), s_free_blocks_count (ext2_sb s)).

(** ** Reading and writing files *)
Definition file_type (i : ext2_inode_t) : Z := Z.land (i_mode i) EXT2_S_IFMT.
Definition is_data_file (i : ext2_inode_t) : bool :=
    (file_type i =? EXT2_S_IFREG) || (file_type i =? EXT2_S_IFLNK).

(** Every round copies at least a byte and ends on a block boundary, so one
    round per block and one more are enough. *)
Fixpoint read_loop (fuel : nat) (inode : ext2_inode_t) (offset size : Z) (acc : list Z) : M (list Z) :=
    match fuel with
    | O => ret acc
    | S f =>
        let copied := Z.of_nat (length acc) in
        if size <=? copied then ret acc else
        let* bs := gets ext2_blk_size in
        let cur := u32 (offset + copied) in
        let within := cur mod bs in
        let* blk := ext2_data_block inode (cur / bs) in
        if blk =? 0 then ret acc else
        let* r := attempt (ext2_read_block blk Blk) in
        match r with
        | None => ret acc
        | Some _ =>
            let chunk := if size - copied <? bs - within then size - copied else bs - within in
            let* b := gets ext2_blkbuf in
            read_loop f inode offset size (acc ++ Ring.slice b within chunk)
        end
    end.

(** The bytes stored at [buf]; the result is their number, as an [int]. *)
Definition ext2_read_file (ino offset size : Z) : M (list Z) :=
    let* m := gets ext2_mounted in
    do* guard (negb (m =? 0)) in
    let* inode := ext2_read_inode ino in
    do* guard (is_data_file inode) in
    if i_size inode <=? offset then ret [] else
    let remain := i_size inode - offset in
    let size := if remain <? size then remain else size in
    let* bs := gets ext2_blk_size in
    read_loop (Z.to_nat (size / bs + 2)) inode offset size [].

(** The non-zero words of the indirect buffer. *)
Definition nonzero_words (b : list Z) (n : Z) : Z :=
    Z.of_nat (length (filter (fun k => rd32 b (k * 4) <> 0) (zrange (Z.to_nat n)))).

(** One entry of the second-level table. It is read from the buffer that the
    entries before it have overwritten. *)
Definition count_l1 (per_blk : Z) (m : M Z) (k : Z) : M Z :=
    let* count := m in
    let* b := gets ext2_indbuf in
    let l1 := rd32 b (k * 4) in
    if l1 =? 0 then ret count else
    let* r := attempt (ext2_read_block l1 Ind) in
    match r with
    | None => ret (u32 (count + 1))
    | Some _ => let* b := gets ext2_indbuf in ret (u32 (count + 1 + nonzero_words b per_blk))
    end.

Definition ext2_count_blocks (inode : ext2_inode_t) : M Z :=
    let* per_blk := gets (fun s => ext2_blk_size s / 4) in
    let direct := Z.of_nat (length (filter (fun k => aget (i_block inode) k <> 0) (zrange 12))) in
    let* single :=
      (if aget (i_block inode) 12 =? 0 then ret 0 else
       let* r := attempt (ext2_read_block (aget (i_block inode) 12) Ind) in
       match r with
       | None => ret 1
       | Some _ => let* b := gets ext2_indbuf in ret (1 + nonzero_words b per_blk)
       end) in
    let* count :=
      (if aget (i_block inode) 13 =? 0 then ret (direct + single) else
       let* r := attempt (ext2_read_block (aget (i_block inode) 13) Ind) in
       match r with
       | None => ret (direct + single + 1)
       | Some _ => foldl (count_l1 per_blk) (ret (direct + single + 1)) (zrange (Z.to_nat per_blk))
       end) in
    let* bs := gets ext2_blk_size in
    ret (u32 (count * (bs / 512))).

Definition set_block (k blk : Z) (i : ext2_inode_t) : ext2_inode_t :=
    i <| i_block := aset (i_block i) k blk |>.

Definition clear_ind : M unit := modify (fun s =>
    s <| ext2_indbuf := Ring.blit (ext2_indbuf s) 0 (replicate (Z.to_nat (ext2_blk_size s)) 0) |>).
Definition flush_ind (block : Z) : M unit := let* b := gets ext2_indbuf in ext2_write_block block b.

(** A table the inode points to, in the indirect buffer: allocated and cleared
    when there is none. *)
Definition ensure_table (k : Z) (inode : ext2_inode_t) : M (ext2_inode_t * Z) :=
    let t := aget (i_block inode) k in
    if t =? 0 then
      let* t := ext2_alloc_block in
      do* clear_ind in
      do* flush_ind t in
      ret (set_block k t inode, t)
    else do* ext2_read_block t Ind in ret (inode, t).

(** The data block in word [k] of the table [t] the indirect buffer holds. *)
Definition ensure_word (t k : Z) : M Z :=
    let* b := gets ext2_indbuf in
    let blk := rd32 b (k * 4) in
    if blk =? 0 then
      let* blk := ext2_alloc_block in
      do* modify (fun s => s <| ext2_indbuf := wr32 (ext2_indbuf s) (k * 4) blk |>) in
      do* flush_ind t in
      ret blk
    else ret blk.

(** A first-level table in word [k] of the second-level table [t]. *)
Definition ensure_l1 (t k : Z) : M Z :=
    let* b := gets ext2_indbuf in
    let l1blk := rd32 b (k * 4) in
    if l1blk =? 0 then
      let* l1blk := ext2_alloc_block in
      do* modify (fun s => s <| ext2_indbuf := wr32 (ext2_indbuf s) (k * 4) l1blk |>) in
      do* flush_ind t in
      do* clear_ind in
      do* flush_ind l1blk in
      ret l1blk
    else do* ext2_read_block l1blk Ind in ret l1blk.

(** The block for index [b] of the file, allocated where it is missing. *)
Definition ensure_block (inode : ext2_inode_t) (b : Z) : M (ext2_inode_t * Z) :=
    let* per_blk := gets (fun s => ext2_blk_size s / 4) in
    if b <? 12 then
      let blk := aget (i_block inode) b in
      if blk =? 0 then let* blk := ext2_alloc_block in ret (set_block b blk inode, blk)
      else ret (inode, blk)
    else if b <? 12 + per_blk then
      let* r := ensure_table 12 inode in
      let* blk := ensure_word r.2 (b - 12) in
      ret (r.1, blk)
    else
      let idx := b - 12 - per_blk in
      do* guard (idx / per_blk <? per_blk) in
      let* r := ensure_table 13 inode in
      let* l1blk := ensure_l1 r.2 (idx / per_blk) in
      let* blk := ensure_word l1blk (idx mod per_blk) in
      ret (r.1, blk).

(** Block [b] of a write of [data] at [offset]. *)
Definition write_block_part (offset : Z) (data : list Z) (m : M ext2_inode_t) (b : Z) : M ext2_inode_t :=
    let* inode := m in
    let* bs := gets ext2_blk_size in
    let endp := u32 (offset + Z.of_nat (length data)) in
    let* r := ensure_block inode b in
    do* ext2_read_block r.2 Blk in
    let chunk_start := if b =? offset / bs then offset mod bs else 0 in
    let chunk_end := if b =? u32 (endp - 1) / bs then u32 (endp - 1) mod bs + 1 else bs in
    do* modify (fun s => s <| ext2_blkbuf := Ring.blit (ext2_blkbuf s) chunk_start
                  (Ring.slice data (u32 (b * bs + chunk_start - offset)) (chunk_end - chunk_start)) |>) in
    let* buf := gets ext2_blkbuf in
    do* ext2_write_block r.2 buf in
    ret r.1.

Definition ext2_write_file (ino offset : Z) (data : list Z) : M Z :=
    let size := Z.of_nat (length data) in
    let* m := gets ext2_mounted in
    do* guard (negb ((m =? 0) || (size =? 0))) in
    let* inode := ext2_read_inode ino in
    do* guard (is_data_file inode) in
    let* bs := gets ext2_blk_size in
    let endp := u32 (offset + size) in
    let first := offset / bs in
    let last := u32 (endp - 1) / bs in
    let* inode := foldl (write_block_part offset data) (ret inode)
                    (Z.add first <$> zrange (Z.to_nat (last - first + 1))) in
    let* t := gets now in
    let inode := (if i_size inode <? endp then inode <| i_size := endp |> else inode)
                   <| i_mtime := t |> <| i_ctime := t |> <| i_dtime := 0 |> in
    let* n := ext2_count_blocks inode in
    do* ext2_write_inode ino (inode <| i_blocks := n |>) in
    ret size.

(** ** Truncation *)
Definition free_nonzero (m : M unit) (blk : Z) : M unit :=
    do* m in if blk =? 0 then ret tt else do* attempt (ext2_free_block blk) in ret tt.

(** The words of the buffer, which [ext2_free_block] does not touch. *)
Definition ind_words (n : Z) : M (list Z) :=
    let* b := gets ext2_indbuf in ret ((fun k => rd32 b (k * 4)) <$> zrange (Z.to_nat n)).

(** One entry of the second-level table, read from the buffer that the entries
    before it have overwritten. *)
Definition free_l1 (per_blk : Z) (m : M unit) (k : Z) : M unit :=
    do* m in
    let* b := gets ext2_indbuf in
    let l1 := rd32 b (k * 4) in
    if l1 =? 0 then ret tt else
    let* r := attempt (ext2_read_block l1 Ind) in
    do* (match r with
         | None => ret tt
         | Some _ => let* ws := ind_words per_blk in foldl free_nonzero (ret tt) ws
         end) in
    do* attempt (ext2_free_block l1) in ret tt.

Definition ext2_truncate (ino : Z) : M unit :=
    let* m := gets ext2_mounted in
    do* guard (negb ((m =? 0) || (ino =? 0))) in
    let* inode := ext2_read_inode ino in
    let* per_blk := gets (fun s => ext2_blk_size s / 4) in
    do* foldl free_nonzero (ret tt) (take 12 (i_block inode)) in
    let t := aget (i_block inode) 12 in
    do* (if t =? 0 then ret tt else
         let* r := attempt (ext2_read_block t Ind) in
         do* (match r with
              | None => ret tt
              | Some _ => let* ws := ind_words per_blk in foldl free_nonzero (ret tt) ws
              end) in
         do* attempt (ext2_free_block t) in ret tt) in
    let t := aget (i_block inode) 13 in
    do* (if t =? 0 then ret tt else
         let* r := attempt (ext2_read_block t Ind) in
         do* (match r with
              | None => ret tt
              | Some _ => foldl (free_l1 per_blk) (ret tt) (zrange (Z.to_nat per_blk))
              end) in
         do* attempt (ext2_free_block t) in ret tt) in
    let* now := gets now in
    ext2_write_inode ino (inode <| i_block := replicate 14 0 ++ drop 14 (i_block inode) |>
                            <| i_size := 0 |> <| i_blocks := 0 |> <| i_mtime := now |>).

(** ** Inode fields *)
Definition ext2_inode_size (ino : Z) : M Z := let* i := ext2_read_inode ino in ret (i_size i).
Definition ext2_inode_type (ino : Z) : M Z := let* i := ext2_read_inode ino in ret (file_type i).
Definition ext2_block_size : M Z := gets ext2_blk_size.
(** Blocks, free blocks, inodes, free inodes. *)
Definition ext2_superblock_counts : M (Z * Z * Z * Z) := gets (fun s =>
    (s_blocks_count (ext2_sb s), s_free_blocks_count (ext2_sb s), s_inodes_count (ext2_sb s), s_free_inodes_count (ext2_sb s))).

Definition ext2_chmod (ino mode : Z) : M unit :=
    let* m := gets ext2_mounted in
    do* guard (negb ((m =? 0) || (ino =? 0))) in
    let* inode := ext2_read_inode ino in
    let* t := gets now in
    ext2_write_inode ino (inode <| i_mode := Z.lor (file_type inode) (Z.land mode 0x0FFF) |> <| i_ctime := t |>).

(** The target without its NUL. *)
Definition ext2_symlink_target (ino max : Z) : M (list Z) :=
    let* m := gets ext2_mounted in
    do* guard (negb ((m =? 0) || (max <=? 0))) in
    let* inode := ext2_read_inode ino in
    do* guard (file_type inode =? EXT2_S_IFLNK) in
    let size := if u32 max <=? i_size inode then u32 (max - 1) else i_size inode in
    if i_size inode <? 60
    then ret ((fun i => Z.land (Z.shiftr (aget (i_block inode) (i / 4)) (i mod 4 * 8)) 255) <$> zrange (Z.to_nat size))
    else ext2_read_file ino 0 size.
End Ext2.
End Ext2.
