(* ===== verification/Ext2Dir.v ===== *)
(** The directories of the ext2 driver (src/src/kernel/fs/ext2.c): the entry
    chain of a directory block, the name cache, creation and removal, lookup
    and paths, listing, opening and mounting. *)
From S2P Require Import Prelude Ring Paths Vfs Ext2.

Module Ext2Dir.
Import Paths Ext2.
#[local] Existing Instances Vfs.inhabited_file Vfs.eta_file.

(** A name is the list of its bytes, without the NUL. *)

(** ** The name cache *)
Definition DCACHE_SLOTS : Z := 64.
Definition DCACHE_NAME_MAX : Z := 31.

Definition dcache_name_hash (name : list Z) : Z :=
  foldl (fun h c => u32 (Z.lxor h c * 0x01000193)) 0x811C9DC5 name.

Section Dir.
  Context {D : Type} `{BlockDev D}.
#[local] Abbreviation M := (M D).

Definition dcache_flush (s : fs D) : fs D :=
    s <| dcache := (fun d => d <| d_valid := 0 |>) <$> dcache s |>.

Definition dcache_insert (parent : Z) (name : list Z) (child : Z) (s : fs D) : fs D :=
    if DCACHE_NAME_MAX <? Z.of_nat (length name) then s else
    s <| dcache := aset (dcache s) (dcache_next s) (Dentry parent (dcache_name_hash name) child name 1) |>
      <| dcache_next := (dcache_next s + 1) mod DCACHE_SLOTS |>.

Definition dcache_hit (parent : Z) (name : list Z) (d : dentry_t) : bool :=
    negb (d_valid d =? 0) && (d_parent d =? parent) && (d_hash d =? dcache_name_hash name) &&
    bool_decide (d_name d = name).

Definition dcache_lookup (parent : Z) (name : list Z) (s : fs D) : option Z :=
    (fun i => d_child (aget (dcache s) (Z.of_nat i))) <$> find_index (dcache_hit parent name) (dcache s).

(** ** The entries of a block

    A walk along the chain: an entry at [p] has its inode number, its length
    [rec_len] to the next one, the length of its name and its type in eight
    bytes. A length is at least 1, so a byte of fuel per byte is enough. *)
Definition e_ino (b : list Z) (p : Z) : Z := rd32 b p.
Definition e_rec (b : list Z) (p : Z) : Z := rd16 b (p + 4).
Definition e_nlen (b : list Z) (p : Z) : Z := aget b (p + 6).
Definition e_type (b : list Z) (p : Z) : Z := aget b (p + 7).

Definition needed_len (name_len : Z) : Z := Z.land (8 + name_len + 3) (Z.lnot 3).

(** The first free entry of [needed] bytes. *)
Fixpoint find_slot (fuel : nat) (b : list Z) (bs needed p : Z) : option Z :=
    match fuel with
    | O => None
    | S f =>
        if bs <? p + 8 then None else
        let rec_len := e_rec b p in
        if (rec_len =? 0) || (bs <? p + rec_len) then None else
        if (e_ino b p =? 0) && (needed <=? rec_len) then Some p else
        find_slot f b bs needed (p + rec_len)
    end.

(** The eight bytes of an entry and its name. *)
Definition put_entry (b : list Z) (p ino rec_len ftype : Z) (name : list Z) : list Z :=
    let b1 := wr16 (wr32 b p ino) (p + 4) rec_len in
    Ring.blit b1 (p + 6) (u8 (Z.of_nat (length name)) :: ftype :: name).

(** The entry at [p] is used, and what it does not need becomes a free one. *)
Definition fill_slot (b : list Z) (p needed child ftype : Z) (name : list Z) : list Z :=
    let rec_len := e_rec b p in
    let remain := rec_len - needed in
    let b1 := put_entry b p child (if 8 <=? remain then needed else rec_len) ftype name in
    if 8 <=? remain then put_entry b1 (p + needed) 0 remain 0 [] else b1.

(** The entry of a name: its inode, its place and the place before it. *)
Fixpoint find_entry (fuel : nat) (b : list Z) (bs : Z) (name : list Z) (p : Z) (prev : option Z) : option (Z * Z * option Z) :=
    match fuel with
    | O => None
    | S f =>
        if bs <? p + 8 then None else
        let rec_len := e_rec b p in
        if (rec_len =? 0) || (bs <? p + rec_len) then None else
        if negb (e_ino b p =? 0) && (e_nlen b p =? u8 (Z.of_nat (length name))) &&
           bool_decide (Ring.slice b (p + 8) (Z.of_nat (length name)) = name)
        then Some (e_ino b p, p, prev)
        else find_entry f b bs name (p + rec_len) (Some p)
    end.

(** Is there an entry besides [.] and [..]? *)
Fixpoint has_entries (fuel : nat) (b : list Z) (bs p : Z) : bool :=
    match fuel with
    | O => false
    | S f =>
        if bs <? p + 8 then false else
        let rec_len := e_rec b p in
        if (rec_len =? 0) || (bs <? p + rec_len) then false else
        let dot i := aget b (p + 8 + i) =? 46 in
        let is_dot := ((e_nlen b p =? 1) && dot 0) || ((e_nlen b p =? 2) && dot 0 && dot 1) in
        if negb (e_ino b p =? 0) && negb is_dot then true else has_entries f b bs (p + rec_len)
    end.

(** The entry at [cur] is absorbed by the one before it, or emptied. *)
Definition unlink_entry (b : list Z) (cur : Z) (prev : option Z) : list Z :=
    match prev with
    | Some p => wr16 b (p + 4) (e_rec b p + e_rec b cur)
    | None => Ring.blit (wr32 b cur 0) (cur + 6) [0; 0]
    end.

(** ** Walking the blocks of a directory *)
Definition is_dir (i : ext2_inode_t) : bool := file_type i =? EXT2_S_IFDIR.
Definition dir_blocks (i : ext2_inode_t) (bs : Z) : Z := u32 (i_size i + bs - 1) / bs.

(** [k] on the content of every block until it gives a result; holes are
    passed over. *)
Fixpoint over_blocks {A} (inode : ext2_inode_t) (bls : list Z) (k : Z -> list Z -> M (option A)) : M (option A) :=
    match bls with
    | [] => ret None
    | n :: bls' =>
        let* blk := ext2_data_block inode n in
        if blk =? 0 then over_blocks inode bls' k else
        do* ext2_read_block blk Blk in
        let* b := gets ext2_blkbuf in
        let* r := k blk b in
        match r with Some x => ret (Some x) | None => over_blocks inode bls' k end
    end.

Definition attach_block (inode : ext2_inode_t) (nblocks nblk : Z) : M ext2_inode_t :=
    let* per_blk := gets (fun s => ext2_blk_size s / 4) in
    let release := do* attempt (ext2_free_block nblk) in ret tt in
    if nblocks <? 12 then ret (set_block nblocks nblk inode)
    else if nblocks <? 12 + per_blk then
      let* r :=
        (if aget (i_block inode) 12 =? 0 then
           let* indir := on_fail ext2_alloc_block release in
           do* clear_ind in
           do* on_fail (flush_ind indir) (do* release in do* attempt (ext2_free_block indir) in ret tt) in
           ret (set_block 12 indir inode, indir)
         else ret (inode, aget (i_block inode) 12)) in
      do* on_fail (ext2_read_block r.2 Ind) release in
      do* modify (fun s => s <| ext2_indbuf := wr32 (ext2_indbuf s) ((nblocks - 12) * 4) nblk |>) in
      do* on_fail (flush_ind r.2) release in
      ret r.1
    else do* release in fail.

Definition ext2_dir_insert (dir_ino : Z) (name : list Z) (child_ino ftype : Z) : M unit :=
    let name_len := Z.of_nat (length name) in
    do* guard (negb ((name_len <=? 0) || (255 <? name_len) || (child_ino =? 0))) in
    let needed := needed_len name_len in
    let* inode := ext2_read_inode dir_ino in
    do* guard (is_dir inode) in
    let* bs := gets ext2_blk_size in
    let nblocks := dir_blocks inode bs in
    let* placed := over_blocks inode (zrange (Z.to_nat nblocks)) (fun blk b =>
        match find_slot (Z.to_nat bs) b bs needed 0 with
        | None => ret None
        | Some p =>
            let b' := fill_slot b p needed child_ino ftype name in
            do* modify (fun s => s <| ext2_blkbuf := b' |>) in
            do* ext2_write_block blk b' in ret (Some tt)
        end) in
    match placed with
    | Some _ => ret tt
    | None =>
        let* nblk := ext2_alloc_block in
        do* modify (fun s =>
          let z := Ring.blit (ext2_blkbuf s) 0 (replicate (Z.to_nat bs) 0) in
          s <| ext2_blkbuf := put_entry (put_entry z 0 child_ino needed ftype name) needed 0 (bs - needed) 0 [] |>) in
        let* b := gets ext2_blkbuf in
        do* on_fail (ext2_write_block nblk b) (do* attempt (ext2_free_block nblk) in ret tt) in
        let* inode := attach_block inode nblocks nblk in
        let inode := inode <| i_size := u32 (i_size inode + bs) |> in
        let* n := ext2_count_blocks inode in
        let* t := gets now in
        ext2_write_inode dir_ino (inode <| i_blocks := n |> <| i_mtime := t |>)
    end.

(** ** Creating *)
Definition new_inode (mode links size blocks : Z) (block0 : Z) (s : fs D) : ext2_inode_t :=
    inode0 <| i_mode := mode |> <| i_uid := u16 (creator s).1 |> <| i_gid := u16 (creator s).2 |>
      <| i_links_count := links |> <| i_size := size |> <| i_blocks := blocks |>
      <| i_atime := now s |> <| i_ctime := now s |> <| i_mtime := now s |> <| i_block := aset (replicate 15 0) 0 block0 |>.

Definition give_back_inode (ino : Z) : M unit := do* attempt (ext2_free_inode ino) in ret tt.
Definition give_back_block (blk : Z) : M unit := do* attempt (ext2_free_block blk) in ret tt.

Definition check_name (name : list Z) : M unit :=
    let* m := gets ext2_mounted in guard (negb ((m =? 0) || bool_decide (name = []))).

Definition ext2_create_file (parent_ino : Z) (name : list Z) (mode : Z) : M Z :=
    do* check_name name in
    do* modify dcache_flush in
    let* ino := ext2_alloc_inode in
    let* inode := gets (new_inode (u16 (Z.lor (Z.land mode 0x0FFF) EXT2_S_IFREG)) 1 0 0 0) in
    do* on_fail (ext2_write_inode ino inode) (give_back_inode ino) in
    do* on_fail (ext2_dir_insert parent_ino name ino EXT2_FT_REG) (give_back_inode ino) in
    ret ino.

(** The first block of a directory: [.], [..] and a free entry. *)
Definition dir_block0 (z : list Z) (ino parent_ino bs : Z) : list Z :=
    let b1 := put_entry z 0 ino 12 EXT2_FT_DIR [46] in
    let b2 := put_entry b1 12 parent_ino 12 EXT2_FT_DIR [46; 46] in
    put_entry b2 24 0 (bs - 24) 0 [].

Definition ext2_mkdir (parent_ino : Z) (name : list Z) : M Z :=
    do* check_name name in
    do* modify dcache_flush in
    let* ino := ext2_alloc_inode in
    let* blk := on_fail ext2_alloc_block (give_back_inode ino) in
    let* bs := gets ext2_blk_size in
    do* modify (fun s =>
      s <| ext2_blkbuf := dir_block0 (Ring.blit (ext2_blkbuf s) 0 (replicate (Z.to_nat bs) 0)) ino parent_ino bs |>) in
    let* b := gets ext2_blkbuf in
    let undo := do* give_back_block blk in give_back_inode ino in
    do* on_fail (ext2_write_block blk b) undo in
    let* inode := gets (new_inode (Z.lor EXT2_S_IFDIR 0x01FF) 2 bs 2 blk) in
    do* on_fail (ext2_write_inode ino inode) undo in
    do* on_fail (ext2_dir_insert parent_ino name ino EXT2_FT_DIR) undo in
    ret ino.

(** ** Finding and removing *)
Record ext2_dir_find_t := Found { child_ino : Z; child_blk : Z; cur_off : Z; prev_off : option Z }.

Definition ext2_dir_find (parent_ino : Z) (name : list Z) : M ext2_dir_find_t :=
    let* dir := ext2_read_inode parent_ino in
    do* guard (is_dir dir) in
    let name_len := Z.of_nat (length name) in
    do* guard (negb ((name_len <=? 0) || (255 <? name_len))) in
    let* bs := gets ext2_blk_size in
    let* r := over_blocks dir (zrange (Z.to_nat (dir_blocks dir bs))) (fun blk b =>
        ret ((fun '(ino, cur, prev) => Found ino blk cur prev) <$> find_entry (Z.to_nat bs) b bs name 0 None)) in
    match r with Some f => ret f | None => fail end.

Definition ext2_dir_remove (f : ext2_dir_find_t) : M unit :=
    do* ext2_read_block (child_blk f) Blk in
    do* modify (fun s => s <| ext2_blkbuf := unlink_entry (ext2_blkbuf s) (cur_off f) (prev_off f) |>) in
    let* b := gets ext2_blkbuf in
    ext2_write_block (child_blk f) b.

(** The loop of the code is that of [ext2_dir_find], and the removal that of
    [ext2_dir_remove]. *)
Definition ext2_unlink (parent_ino : Z) (name : list Z) : M unit :=
    do* check_name name in
    do* modify dcache_flush in
    let* f := ext2_dir_find parent_ino name in
    let* cinode := ext2_read_inode (child_ino f) in
    do* guard (is_data_file cinode) in
    do* ext2_dir_remove f in
    let links := u16 (i_links_count cinode - 1) in
    if links =? 0 then
      do* attempt (ext2_truncate (child_ino f)) in
      do* attempt (ext2_free_inode (child_ino f)) in ret tt
    else
      let* t := gets now in
      do* attempt (ext2_write_inode (child_ino f) (cinode <| i_links_count := links |> <| i_ctime := t |>)) in ret tt.

(** 0, or -2 for a directory that is not empty. *)
Definition ext2_rmdir (parent_ino : Z) (name : list Z) : M Z :=
    do* check_name name in
    do* modify dcache_flush in
    let* f := ext2_dir_find parent_ino name in
    let* cinode := ext2_read_inode (child_ino f) in
    do* guard (is_dir cinode) in
    let* bs := gets ext2_blk_size in
    let* busy := over_blocks cinode (zrange (Z.to_nat (dir_blocks cinode bs))) (fun _ b =>
        ret (if has_entries (Z.to_nat bs) b bs 0 then Some tt else None)) in
    match busy with
    | Some _ => ret (-2)
    | None =>
        do* ext2_dir_remove f in
        do* attempt (ext2_truncate (child_ino f)) in
        do* attempt (ext2_free_inode (child_ino f)) in
        let* o := attempt (ext2_read_inode parent_ino) in
        match o with
        | Some dir =>
            if 0 <? i_links_count dir then
              let* t := gets now in
              do* attempt (ext2_write_inode parent_ino
                             (dir <| i_links_count := i_links_count dir - 1 |> <| i_mtime := t |>)) in ret 0
            else ret 0
        | None => ret 0
        end
    end.

(** ** Reading a directory *)
Record ext2_dir_entry_t := DirEntry { de_inode : Z; de_rec_len : Z; de_name_len : Z; de_file_type : Z; de_name : list Z }.

(** The string up to its NUL. *)
Fixpoint cstr (l : list Z) : list Z :=
    match l with [] => [] | c :: l' => if c =? 0 then [] else c :: cstr l' end.

(** The entries of a block in use. Here an entry may reach past the end. *)
Fixpoint dir_entries (fuel : nat) (b : list Z) (bs p : Z) : list ext2_dir_entry_t :=
    match fuel with
    | O => []
    | S f =>
        if bs <? p + 8 then [] else
        let rec_len := e_rec b p in
        if rec_len =? 0 then [] else
        let rest := dir_entries f b bs (p + rec_len) in
        if e_ino b p =? 0 then rest
        else DirEntry (e_ino b p) rec_len (e_nlen b p) (e_type b p)
               (cstr (Ring.slice b (p + 8) (Z.min (e_nlen b p) 255))) :: rest
    end.

(** The callback on the entries of a block, until it asks to stop. *)
Fixpoint call_back {S} (cb : ext2_dir_entry_t -> S -> S * bool) (es : list ext2_dir_entry_t) (acc : S) : S * bool :=
    match es with
    | [] => (acc, false)
    | e :: es' => let '(acc1, stop) := cb e acc in if stop then (acc1, true) else call_back cb es' acc1
    end.

Fixpoint read_dir_in {S} (inode : ext2_inode_t) (bls : list Z) (cb : ext2_dir_entry_t -> S -> S * bool) (acc : S) : M S :=
    match bls with
    | [] => ret acc
    | n :: bls' =>
        let* blk := ext2_data_block inode n in
        if blk =? 0 then ret acc else
        do* ext2_read_block blk Blk in
        let* b := gets ext2_blkbuf in
        let* bs := gets ext2_blk_size in
        let '(acc1, stop) := call_back cb (dir_entries (Z.to_nat bs) b bs 0) acc in
        if stop then ret acc1 else read_dir_in inode bls' cb acc1
    end.

Definition ext2_read_dir {S} (ino : Z) (cb : ext2_dir_entry_t -> S -> S * bool) (acc : S) : M S :=
    let* m := gets ext2_mounted in
    do* guard (negb (m =? 0)) in
    let* inode := ext2_read_inode ino in
    do* guard (is_dir inode) in
    let* bs := gets ext2_blk_size in
    read_dir_in inode (zrange (Z.to_nat (dir_blocks inode bs))) cb acc.

(** *** getdents64 *)

(** An entry stored in the caller's buffer; the bytes from the end of its name
    to [d_reclen] are not written. *)
Record linux_dirent64 := Dirent64 { d_ino : Z; d_off : Z; d_reclen : Z; d_type : Z; d_name64 : list Z }.

(** The entries stored and their bytes, the position in the directory stream,
    and whether the next entry did not fit. *)
Record dents := Dents { stored : list linux_dirent64; written : Z; entry_off : Z; full : bool }.

Fixpoint dents_in (fuel : nat) (b : list Z) (bs off size p : Z) (st : dents) : dents :=
    match fuel with
    | O => st
    | S f =>
        if bs <? p + 8 then st else
        let rec_len := e_rec b p in
        if rec_len =? 0 then st else
        let this_off := entry_off st in
        let next := u64 (this_off + rec_len) in
        let nlen := e_nlen b p in
        let skip := Dents (stored st) (written st) next false in
        if (e_ino b p =? 0) || (this_off <? off) || (nlen =? 0) then dents_in f b bs off size (p + rec_len) skip else
        let reclen := Z.land (20 + nlen + 7) (Z.lnot 7) in
        if size <? written st + reclen then Dents (stored st) (written st) this_off true else
        dents_in f b bs off size (p + rec_len)
          (Dents (stored st ++ [Dirent64 (e_ino b p) next reclen (e_type b p) (Ring.slice b (p + 8) nlen)])
             (written st + reclen) next false)
    end.

Fixpoint dents_blocks (inode : ext2_inode_t) (bls : list Z) (off size : Z) (st : dents) : M dents :=
    match bls with
    | [] => ret st
    | n :: bls' =>
        let* blk := ext2_data_block inode n in
        if blk =? 0 then ret st else
        do* ext2_read_block blk Blk in
        let* b := gets ext2_blkbuf in
        let* bs := gets ext2_blk_size in
        let st1 := dents_in (Z.to_nat bs) b bs off size 0 st in
        if full st1 then ret st1 else dents_blocks inode bls' off size st1
    end.

(** The entries stored, their bytes, and the offset to go on from. *)
Definition ext2_getdents (ino off size : Z) : M dents :=
    let* m := gets ext2_mounted in
    do* guard (negb ((m =? 0) || (size =? 0))) in
    let* inode := ext2_read_inode ino in
    do* guard (is_dir inode) in
    let* bs := gets ext2_blk_size in
    dents_blocks inode (zrange (Z.to_nat (dir_blocks inode bs))) off size (Dents [] 0 0 false).

(** ** Lookup and paths *)
Definition ext2_lookup_cb (name : list Z) (e : ext2_dir_entry_t) (c : option Z) : option Z * bool :=
    if bool_decide (de_name e = name) then (Some (de_inode e), true) else (c, false).

Definition ext2_lookup (parent : Z) (name : list Z) : M Z :=
    do* check_name name in
    let* cached := gets (dcache_lookup parent name) in
    match cached with
    | Some c => ret c
    | None =>
        let* r := ext2_read_dir parent (ext2_lookup_cb name) None in
        match r with
        | None => fail
        | Some c => do* modify (dcache_insert parent name c) in ret c
        end
    end.

(** Every round consumes a byte. *)
Fixpoint lookup_segs (fuel : nat) (p : list Z) (cur : Z) : M Z :=
    match fuel, p with
    | S f, _ :: _ =>
        let '(seg, rest) := take_seg 255 p in
        if bool_decide (seg = []) then lookup_segs f (skip_slash rest) cur else
        let* next := ext2_lookup cur seg in
        lookup_segs f (skip_slash rest) next
    | _, _ => ret cur
    end.

Definition ext2_lookup_path (path : list Z) : M Z :=
    let* m := gets ext2_mounted in
    do* guard (negb (m =? 0)) in
    match path with
    | c :: p => do* guard (c =? 47) in lookup_segs (length p) p EXT2_ROOT_INO
    | [] => fail
    end.

(** ** Renaming *)
Definition ext2_rename (old_parent : Z) (old_name : list Z) (new_parent : Z) (new_name : list Z) : M unit :=
    do* check_name old_name in
    do* check_name new_name in
    do* modify dcache_flush in
    let* f := ext2_dir_find old_parent old_name in
    let* existing := attempt (ext2_lookup new_parent new_name) in
    do* (match existing with
         | Some e =>
             if e =? child_ino f then ret tt else
             let* ex := attempt (ext2_read_inode e) in
             match ex with
             | Some i => if is_dir i then do* attempt (ext2_rmdir new_parent new_name) in ret tt
                         else do* attempt (ext2_unlink new_parent new_name) in ret tt
             | None => ret tt
             end
         | None => ret tt
         end) in
    let* cinode := ext2_read_inode (child_ino f) in
    let ftype := if is_dir cinode then EXT2_FT_DIR else EXT2_FT_REG in
    do* ext2_dir_insert new_parent new_name (child_ino f) ftype in
    do* ext2_dir_remove f in
    if (ftype =? EXT2_FT_DIR) && negb (old_parent =? new_parent) then
      let* o := attempt (ext2_read_inode old_parent) in
      do* (match o with
           | Some dir => if 0 <? i_links_count dir
                         then do* attempt (ext2_write_inode old_parent (dir <| i_links_count := i_links_count dir - 1 |>)) in ret tt
                         else ret tt
           | None => ret tt
           end) in
      let* o := attempt (ext2_read_inode new_parent) in
      match o with
      | Some dir => do* attempt (ext2_write_inode new_parent (dir <| i_links_count := u16 (i_links_count dir + 1) |>)) in ret tt
      | None => ret tt
      end
    else ret tt.

(** ** Open files

    The file at address [i] is slot [i] of the pool; its private data is the
    inode number. *)
Definition EXT2_OPS : Z := 2.
Definition O_APPEND : Z := 0x0400.
Definition pool_get (s : fs D) (i : Z) : Vfs.file_t := aget (ext2_file_pool s) i.
Definition set_pool (i : Z) (f : Vfs.file_t) (s : fs D) : fs D :=
    s <| ext2_file_pool := aset (ext2_file_pool s) i f |>.
Definition EFAIL : Z := 2 ^ 64 - 1.

(** [r >= 0] as an [int32_t]: the offset advances. *)
Definition op_result (i off r : Z) (s : fs D) : fs D * Z :=
    if 0 <=? i32 r
    then (set_pool i (pool_get s i <| Vfs.f_offset := u64 (off + i32 r) |>) s, i32 r)
    else (s, EFAIL).

Definition ext2_read_op (i off size : Z) (s : fs D) : fs D * (Z * list Z) :=
    if Vfs.f_type (pool_get s i) =? EXT2_S_IFDIR then (s, (2 ^ 64 - 21, [])) else
    let ino := u32 (Vfs.f_private (pool_get s i)) in
    match ext2_read_file ino (u32 off) (Z.min size 0xFFFFFFFF) s with
    | (s1, None) => (s1, (EFAIL, []))
    | (s1, Some bytes) => let '(s2, r) := op_result i off (Z.of_nat (length bytes)) s1 in (s2, (r, bytes))
    end.

Definition ext2_write_op (i off : Z) (data : list Z) (s : fs D) : fs D * Z :=
    if Z.of_nat (length data) =? 0 then (s, 0) else
    let ino := u32 (Vfs.f_private (pool_get s i)) in
    match ext2_write_file ino (u32 off) (take (Z.to_nat 0xFFFFFFFF) data) s with
    | (s1, None) => (s1, EFAIL)
    | (s1, Some n) => op_result i off n s1
    end.

Definition ext2_close_op (i : Z) (s : fs D) : fs D * Z :=
    let f := pool_get s i in
    if 0 <? Vfs.f_refs f then
      let s1 := set_pool i (f <| Vfs.f_refs := Vfs.f_refs f - 1 |>) s in
      ((if Vfs.f_refs f - 1 =? 0
        then s1 <| ext2_file_pool_used := aset (ext2_file_pool_used s1) i 0 |> else s1), 0)
    else (s, 0).

#[export] Instance ext2_files : Vfs.FileOps (fs D) := {
  file_at := pool_get;
  set_file := set_pool;
  op_close o := if o =? EXT2_OPS then Some ext2_close_op else None;
  op_read o := if o =? EXT2_OPS then Some ext2_read_op else None;
  op_write o := if o =? EXT2_OPS then Some ext2_write_op else None;
  op_ioctl o := None
}.

(** The path up to the last slash, and what follows it. *)
Fixpoint split_last (p : list Z) : option (list Z * list Z) :=
    match p with
    | [] => None
    | c :: p' =>
        match split_last p' with
        | Some (a, b) => Some (c :: a, b)
        | None => if c =? 47 then Some ([], p') else None
        end
    end.

Definition ext2_split_path (path : list Z) (name_max : Z) : M (Z * list Z) :=
    do* guard (match path with c :: _ => c =? 47 | [] => false end) in
    match split_last path with
    | None => fail
    | Some (parent, rest) =>
        do* guard (Z.of_nat (length parent) <? 256) in
        let* parent_ino := ext2_lookup_path (if bool_decide (parent = []) then [47] else parent) in
        let* ptype := ext2_inode_type parent_ino in
        do* guard (ptype =? EXT2_S_IFDIR) in
        let name := take (Z.to_nat (name_max - 1)) rest in
        do* guard (negb (bool_decide (name = []))) in
        ret (parent_ino, name)
    end.

(** The slot of the new file. *)
Definition ext2_open (path : list Z) (flags : Z) : M Z :=
    let* m := gets ext2_mounted in
    do* guard (negb (m =? 0)) in
    let* found := attempt (ext2_lookup_path path) in
    let* ino :=
      (match found with
       | Some ino => ret ino
       | None =>
           do* guard (negb (Z.land flags Vfs.O_CREAT =? 0)) in
           let* p := ext2_split_path path 256 in
           ext2_create_file p.1 p.2 0x01FF
       end) in
    let* type := ext2_inode_type ino in
    do* guard ((type =? EXT2_S_IFREG) || (type =? EXT2_S_IFLNK) || (type =? EXT2_S_IFDIR)) in
    do* (if Z.land flags Vfs.O_TRUNC =? 0 then ret tt else ext2_truncate ino) in
    let* used := gets ext2_file_pool_used in
    match find_index (fun u => u =? 0) used with
    | None => fail
    | Some k =>
        let i := Z.of_nat k in
        do* modify (fun s => s <| ext2_file_pool_used := aset (ext2_file_pool_used s) i 1 |>) in
        let* sz := attempt (ext2_inode_size ino) in
        let sz := default 0 sz in
        do* modify (fun s => set_pool i
          (Vfs.File ino sz (if Z.land flags O_APPEND =? 0 then 0 else sz) (Some EXT2_OPS) ino 1
             (take 63 path) flags type) s) in
        ret i
    end.

(** One entry of a listing: [pos] is the length so far. *)
Definition ext2_list_cb (max : Z) (e : ext2_dir_entry_t) (out : list Z) : list Z * bool :=
    let room k l := take (Z.to_nat (max - k - Z.of_nat (length l))) in
    let l1 := out ++ room 2 out (de_name e) in
    let l2 := l1 ++ room 1 l1 [if de_file_type e =? EXT2_FT_DIR then 47 else 32] in
    let l3 := l2 ++ room 1 l2 [32] in
    (l3, false).

Definition ext2_list (path : list Z) (max : Z) : M (list Z) :=
    let* m := gets ext2_mounted in
    do* guard (negb ((m =? 0) || (max <=? 0))) in
    let* ino := ext2_lookup_path path in
    let* type := ext2_inode_type ino in
    do* guard (type =? EXT2_S_IFDIR) in
    ext2_read_dir ino (ext2_list_cb max) [].

(** ** Mounting *)
Definition parse_superblock (raw : list Z) : ext2_superblock_t :=
    Superblock (rd32 raw 0) (rd32 raw 4) (rd32 raw 12) (rd32 raw 16) (rd32 raw 24) (rd32 raw 32) (rd32 raw 40)
      (rd16 raw 56) (rd16 raw 88).

Definition base_dirs : list (list Z) :=
    [[116; 109; 112]; [114; 111; 111; 116]; [117; 115; 114]; [118; 97; 114]].

Definition make_base_dir (m : M unit) (name : list Z) : M unit :=
    do* m in
    let* r := attempt (ext2_lookup EXT2_ROOT_INO name) in
    match r with
    | Some _ => ret tt
    | None => do* attempt (ext2_mkdir EXT2_ROOT_INO name) in ret tt
    end.

(** [pages] are the contents of the two pages [pmalloc] gives, [None] when it
    has none left. *)
Definition ext2_mount (pages : option (list Z) * option (list Z)) : M unit := fun s =>
    let '(d, (ok, raw)) := dev_read 2 2 (disk s) in
    let s := s <| disk := d |> in
    if negb ok then (s, None) else
    if negb (rd16 raw 56 =? EXT2_MAGIC) then (s, None) else
    let sb := parse_superblock raw in
    let s := s <| ext2_sb := sb |> <| ext2_blk_size := u32 (Z.shiftl 1024 (s_log_block_size sb)) |>
               <| ext2_ino_size := if s_inode_size sb =? 0 then 128 else s_inode_size sb |>
               <| ext2_inodes_per_group := s_inodes_per_group sb |>
               <| ext2_blocks_per_group := s_blocks_per_group sb |> in
    if 4096 <? ext2_blk_size s then (s, None) else
    match pages with
    | (Some b, Some i) =>
        let s := s <| ext2_blkbuf := b |> <| ext2_indbuf := i |> <| ext2_mounted := 1 |> in
        foldl make_base_dir (ret tt) base_dirs s
    | _ => (s, None)
    end.
End Dir.
End Ext2Dir.
