(* ===== verification/Ext2Blocks.v ===== *)
(** What the block and inode operations of the ext2 driver do to a healthy
    disk: every write is the change of one byte range of the image. *)
From S2P Require Import Prelude Ring Bytes Ext2.

Module Ext2Blocks.
Import Bytes Ext2.

(** ** Fields *)
Lemma rd16_val p o : is_byte (aget p o) -> is_byte (aget p (o + 1)) -> rd16 p o = aget p o + aget p (o + 1) * 256.
Proof.
  unfold is_byte. intros Ha Hb. unfold rd16. rewrite lor_shift by (done || lia). change (2 ^ 8) with 256.
  apply u16_small. lia.
Qed.

Lemma rd32_val p o :
  is_byte (aget p o) -> is_byte (aget p (o + 1)) -> is_byte (aget p (o + 2)) -> is_byte (aget p (o + 3)) ->
  rd32 p o = aget p o + aget p (o + 1) * 2 ^ 8 + aget p (o + 2) * 2 ^ 16 + aget p (o + 3) * 2 ^ 24.
Proof.
  unfold is_byte. intros Ha Hb Hc Hd. unfold rd32.
  rewrite (lor_shift (aget p o)) by lia. rewrite (lor_shift (_ + _)) by lia. by rewrite lor_shift by lia.
Qed.

Lemma rd16_intro p o v : 0 <= v < 2 ^ 16 ->
  [aget p o; aget p (o + 1)] = le16 v -> rd16 p o = v.
Proof.
  intros Hv [= E0 E1]. rewrite digit0 in E0. rewrite digit in E1 by done.
  assert (Hm : forall x, is_byte (x mod 256)) by (intros; apply Z.mod_pos_bound; lia).
  rewrite rd16_val by (rewrite ?E0, ?E1; apply Hm). rewrite E0, E1. by apply digits2.
Qed.

Lemma rd32_intro p o v : 0 <= v < 2 ^ 32 ->
  [aget p o; aget p (o + 1); aget p (o + 2); aget p (o + 3)] = le32 v -> rd32 p o = v.
Proof.
  intros Hv [= E0 E1 E2 E3]. rewrite digit0 in E0. rewrite digit in E1, E2, E3 by done.
  assert (Hm : forall x, is_byte (x mod 256)) by (intros; apply Z.mod_pos_bound; lia).
  rewrite rd32_val by (rewrite ?E0, ?E1, ?E2, ?E3; apply Hm). rewrite E0, E1, E2, E3. by apply digits4.
Qed.

Definition bytes_ok (l : list Z) : Prop := Forall is_byte l.

Lemma byte_at l i : bytes_ok l -> 0 <= i < Z.of_nat (length l) -> is_byte (aget l i).
Proof. apply Forall_aget. Qed.

Lemma rd16_range p o : bytes_ok p -> 0 <= o -> o + 2 <= Z.of_nat (length p) -> 0 <= rd16 p o < 2 ^ 16.
Proof.
  intros Hp Ho Hl. pose proof (byte_at p o Hp ltac:(lia)) as H0. pose proof (byte_at p (o + 1) Hp ltac:(lia)) as H1.
  rewrite rd16_val by done. unfold is_byte in *. lia.
Qed.

Lemma rd32_range p o : bytes_ok p -> 0 <= o -> o + 4 <= Z.of_nat (length p) -> 0 <= rd32 p o < 2 ^ 32.
Proof.
  intros Hp Ho Hl. pose proof (byte_at p o Hp ltac:(lia)) as H0. pose proof (byte_at p (o + 1) Hp ltac:(lia)) as H1.
  pose proof (byte_at p (o + 2) Hp ltac:(lia)) as H2. pose proof (byte_at p (o + 3) Hp ltac:(lia)) as H3.
  rewrite rd32_val by done. unfold is_byte in *. lia.
Qed.

Lemma rd32_slice l a n o : within l a n -> 0 <= o -> o + 4 <= n -> rd32 (Ring.slice l a n) o = rd32 l (a + o).
Proof. intros Hw Ho Hn. unfold rd32. rewrite !aget_slice by (done || lia). by rewrite !Z.add_assoc. Qed.

Lemma rd16_slice l a n o : within l a n -> 0 <= o -> o + 2 <= n -> rd16 (Ring.slice l a n) o = rd16 l (a + o).
Proof. intros Hw Ho Hn. unfold rd16. rewrite !aget_slice by (done || lia). by rewrite !Z.add_assoc. Qed.

Lemma bytes_app l l' : bytes_ok (l ++ l') <-> bytes_ok l /\ bytes_ok l'.
Proof. apply Forall_app. Qed.

Lemma bytes_le16 v : bytes_ok (le16 v).
Proof. repeat constructor; by apply Z.mod_pos_bound. Qed.
Lemma bytes_le32 v : bytes_ok (le32 v).
Proof. repeat constructor; by apply Z.mod_pos_bound. Qed.

Lemma bytes_blit l o d : bytes_ok l -> bytes_ok d -> bytes_ok (Ring.blit l o d).
Proof. intros Hl Hd. apply Forall_app. split; [by apply Forall_take|]. apply Forall_app. split; [done|by apply Forall_drop]. Qed.

Lemma bytes_slice l o n : bytes_ok l -> bytes_ok (Ring.slice l o n).
Proof. intros Hl. apply Forall_take. by apply Forall_drop. Qed.
#[export] Hint Resolve bytes_le16 bytes_le32 bytes_blit bytes_slice : core.

(** *** Inodes and descriptors survive the encoding *)
Record inode_ok (i : ext2_inode_t) : Prop := {
  io_16 : Forall (fun v => 0 <= v < 2 ^ 16) [i_mode i; i_uid i; i_gid i; i_links_count i];
  io_32 : Forall (fun v => 0 <= v < 2 ^ 32) [i_size i; i_atime i; i_ctime i; i_mtime i; i_dtime i; i_blocks i;
            i_flags i; i_osd1 i; i_generation i; i_file_acl i; i_dir_acl i; i_faddr i];
  io_len : length (i_block i) = 15%nat;
  io_blk : Forall (fun v => 0 <= v < 2 ^ 32) (i_block i);
  io_osd : length (i_osd2 i) = 12%nat /\ bytes_ok (i_osd2 i)
}.

Lemma length_encode_inode i : inode_ok i -> length (encode_inode i) = 128%nat.
Proof.
  intros [_ _ Hl _ [Ho _]]. unfold encode_inode. rewrite !length_app. cbn [length le16 le32]. rewrite Ho.
  assert (E : length (i_block i ≫= le32) = 60%nat); [|by rewrite E].
  clear Ho. revert Hl. generalize (i_block i). intros l. assert (forall n, length l = n -> length (l ≫= le32) = (4 * n)%nat) as H.
  { induction l as [|x l IH]; intros [|n] Hn; try done. cbn. rewrite (IH n) by (cbn in Hn; lia). lia. }
  intros Hl. by apply (H 15%nat).
Qed.

Lemma bytes_bind l : bytes_ok (l ≫= le32).
Proof. induction l as [|x l IH]; [constructor|]. change (bytes_ok (le32 x ++ (l ≫= le32))). apply bytes_app. auto. Qed.
#[export] Hint Resolve bytes_bind : core.

Lemma bytes_encode_inode i : inode_ok i -> bytes_ok (encode_inode i).
Proof. intros [_ _ _ _ [_ Ho]]. unfold encode_inode. rewrite !bytes_app. by split_and!; auto. Qed.

Lemma decode_encode_inode i : inode_ok i -> decode_inode (encode_inode i) = i.
Proof.
  destruct i as [m u sz at_ ct mt dt g lk bl fl o1 bs ge fa da fr o2]. intros [H16 H32 Hl Hb [Ho _]]. cbn in *.
  do 15 (destruct bs as [|? bs]; [done|]). destruct bs; [|done].
  do 12 (destruct o2 as [|? o2]; [done|]). destruct o2; [|done].
  rewrite !Forall_cons in H16. rewrite !Forall_cons in H32. rewrite !Forall_cons in Hb. destruct_and!.
  unfold decode_inode. change (zrange 15) with [0;1;2;3;4;5;6;7;8;9;10;11;12;13;14]. cbn [fmap list_fmap].
  f_equal; first [by apply rd16_intro|by apply rd32_intro|idtac].
  repeat (apply (f_equal2 cons); [by apply rd32_intro|]). done.
Qed.

Lemma decode_inode_ok p : bytes_ok p -> length p = 128%nat -> inode_ok (decode_inode p).
Proof.
  intros Hp Hl. split; cbn [decode_inode i_mode i_uid i_gid i_links_count i_size i_atime i_ctime i_mtime i_dtime
    i_blocks i_flags i_osd1 i_generation i_file_acl i_dir_acl i_faddr i_block i_osd2].
  - repeat constructor; apply rd16_range; (done || lia).
  - repeat constructor; apply rd32_range; (done || lia).
  - done.
  - apply Forall_fmap, Forall_forall. intros k Hk%elem_of_zrange. apply rd32_range; (done || lia).
  - split; [|auto]. rewrite Ring.length_slice by lia. done.
Qed.

Record gdesc_ok (g : ext2_group_desc_t) : Prop := {
  go_32 : Forall (fun v => 0 <= v < 2 ^ 32) [bg_block_bitmap g; bg_inode_bitmap g; bg_inode_table g];
  go_16 : Forall (fun v => 0 <= v < 2 ^ 16) [bg_free_blocks_count g; bg_free_inodes_count g; bg_used_dirs_count g; bg_pad g];
  go_behind : length (bg_behind g) = 12%nat /\ bytes_ok (bg_behind g)
}.

Lemma length_encode_gdesc g : gdesc_ok g -> length (encode_gdesc g) = 32%nat.
Proof. intros [_ _ [Hl _]]. unfold encode_gdesc. rewrite !length_app. cbn [length le16 le32]. by rewrite Hl. Qed.

Lemma bytes_encode_gdesc g : gdesc_ok g -> bytes_ok (encode_gdesc g).
Proof. intros [_ _ [_ Hb]]. unfold encode_gdesc. rewrite !bytes_app. by split_and!; auto. Qed.

Lemma decode_encode_gdesc g : gdesc_ok g -> decode_gdesc (encode_gdesc g) = g.
Proof.
  destruct g as [a b c d e f h l]. intros [H32 H16 [Hl _]]. cbn in *.
  do 12 (destruct l as [|? l]; [done|]). destruct l; [|done].
  rewrite !Forall_cons in H16. rewrite !Forall_cons in H32. destruct_and!.
  unfold decode_gdesc. f_equal; first [by apply rd16_intro|by apply rd32_intro|done].
Qed.

Lemma decode_gdesc_ok p : bytes_ok p -> length p = 32%nat -> gdesc_ok (decode_gdesc p).
Proof.
  intros Hp Hl. split; cbn [decode_gdesc bg_block_bitmap bg_inode_bitmap bg_inode_table bg_free_blocks_count
    bg_free_inodes_count bg_used_dirs_count bg_pad bg_behind].
  - repeat constructor; apply rd32_range; (done || lia).
  - repeat constructor; apply rd16_range; (done || lia).
  - split; [|auto]. rewrite Ring.length_slice by lia. done.
Qed.

(** ** Running the monad *)
Section Run.
  Context {D : Type}.

Lemma bind_run {A B} (m : M D A) (k : A -> M D B) s s1 x : m s = (s1, Some x) -> bind m k s = k x s1.
Proof. unfold bind. by intros ->. Qed.
Lemma bind_stop {A B} (m : M D A) (k : A -> M D B) s s1 : m s = (s1, None) -> bind m k s = (s1, None).
Proof. unfold bind. by intros ->. Qed.
Lemma attempt_run {A} (m : M D A) s s1 x : m s = (s1, Some x) -> attempt m s = (s1, Some (Some x)).
Proof. unfold attempt. by intros ->. Qed.
Lemma attempt_stop {A} (m : M D A) s s1 : m s = (s1, None) -> attempt m s = (s1, Some None).
Proof. unfold attempt. by intros ->. Qed.
Lemma bind_gets {A B} (f : fs D -> A) (k : A -> M D B) s : bind (gets f) k s = k (f s) s.
Proof. done. Qed.
Lemma bind_ret {A B} (x : A) (k : A -> M D B) s : bind (ret x) k s = k x s.
Proof. done. Qed.
Lemma bind_modify {B} f (k : unit -> M D B) s : bind (modify f) k s = k tt (f s).
Proof. done. Qed.
Lemma bind_guard {B} b (k : unit -> M D B) s : b = true -> bind (guard b) k s = k tt s.
Proof. by intros ->. Qed.
(** A sequence of three whose result is used. *)
Lemma bind_run3 {A B C E} (a : M D A) (b : A -> M D B) (c : A -> B -> M D C) (k : C -> M D E) s s' x :
    bind a (fun u => bind (b u) (c u)) s = (s', Some x) ->
    bind a (fun u => bind (b u) (fun v => bind (c u v) k)) s = k x s'.
Proof.
  unfold bind. destruct (a s) as [s1 [u|]]; [|done]. destruct (b u s1) as [s2 [v|]]; [|done]. by intros ->.
Qed.
End Run.

(** [run E]: the first call of a sequence gives what [E] says. *)
Ltac run E := rewrite (bind_run _ _ _ _ _ E).

(** ** A mounted filesystem on a healthy disk *)
Section Blocks.
  Context {D : Type} {BD : BlockDev D} {BSp : BlockSpec D}.

(** The geometry: block and inode sizes, and a disk of whole blocks below
    4 GiB, where byte offsets fit 32 bits. *)
Record geo (s : fs D) : Prop := {
  g_mounted : ext2_mounted s <> 0;
  g_bs : ext2_blk_size s = 1024 \/ ext2_blk_size s = 2048 \/ ext2_blk_size s = 4096;
  g_ino : ext2_ino_size s = 128;
  g_ipg : 0 < ext2_inodes_per_group s;
  g_bpg : 0 < ext2_blocks_per_group s;
  g_blk : length (ext2_blkbuf s) = 4096%nat;
  g_ind : length (ext2_indbuf s) = 4096%nat;
  g_size : Z.of_nat (length (image (disk s))) < 2 ^ 32;
  g_image : bytes_ok (image (disk s));
  g_bufs : bytes_ok (ext2_blkbuf s) /\ bytes_ok (ext2_indbuf s)
}.

(** Block [b] lies on the disk. *)
Definition on_disk (s : fs D) (b : Z) : Prop := 0 <= b /\ (b + 1) * ext2_blk_size s <= Z.of_nat (length (image (disk s))).
Definition block (s : fs D) (b : Z) : list Z :=
  Ring.slice (image (disk s)) (b * ext2_blk_size s) (ext2_blk_size s).

(** [s'] is [s] with the image [im] and other buffer contents. *)
Definition to (s : fs D) (im : list Z) (s' : fs D) : Prop :=
  exists d bb ib, s' = s <| disk := d |> <| ext2_blkbuf := bb |> <| ext2_indbuf := ib |> /\
    image d = im /\ (length bb = 4096%nat /\ bytes_ok bb) /\ (length ib = 4096%nat /\ bytes_ok ib).

Lemma to_refl s : geo s -> to s (image (disk s)) s.
Proof.
  intros G. exists (disk s), (ext2_blkbuf s), (ext2_indbuf s). split; [by destruct s|].
  by destruct G as [_ _ _ _ _ ? ? _ _ [? ?]].
Qed.

Lemma to_trans s im s1 im' s2 : to s im s1 -> to s1 im' s2 -> to s im' s2.
Proof. intros (d & bb & ib & -> & _) (d' & bb' & ib' & -> & ? & ? & ?). exists d', bb', ib'. by destruct s. Qed.

Lemma to_image s im s' : to s im s' -> image (disk s') = im.
Proof. by intros (d & bb & ib & -> & ? & _). Qed.

Lemma to_geo s im s' : geo s -> to s im s' -> length im = length (image (disk s)) -> bytes_ok im -> geo s'.
Proof.
  intros [] (d & bb & ib & -> & Hi & [Hb ?] & [Hc ?]) El Hby. split; cbn; try done; by rewrite Hi, ?El.
Qed.

(** What does not change. *)
Lemma to_same s im s' : to s im s' ->
  ext2_mounted s' = ext2_mounted s /\ ext2_sb s' = ext2_sb s /\ ext2_blk_size s' = ext2_blk_size s /\
  ext2_ino_size s' = ext2_ino_size s /\ ext2_inodes_per_group s' = ext2_inodes_per_group s /\
  ext2_blocks_per_group s' = ext2_blocks_per_group s /\ now s' = now s /\ dcache s' = dcache s.
Proof. by intros (d & bb & ib & -> & _). Qed.

Lemma bs_facts s : geo s -> 1024 <= ext2_blk_size s <= 4096 /\ ext2_blk_size s / 512 * 512 = ext2_blk_size s.
Proof. intros G. destruct (g_bs _ G) as [-> | [-> | ->]]; done. Qed.

Lemma within_block s b : geo s -> on_disk s b -> within (image (disk s)) (b * ext2_blk_size s) (ext2_blk_size s).
Proof. intros G [H0 H1]. pose proof (bs_facts s G). repeat split; nia. Qed.

Lemma len_block s b : geo s -> on_disk s b -> Z.of_nat (length (block s b)) = ext2_blk_size s.
Proof. intros G Hb. apply len_slice. by apply within_block. Qed.

Lemma lba_small s b : geo s -> on_disk s b -> u32 (b * (ext2_blk_size s / 512)) = b * (ext2_blk_size s / 512).
Proof.
  intros G [H0 H1]. pose proof (bs_facts s G). pose proof (g_size s G). apply u32_small. nia.
Qed.

Lemma set_buf_to s dst im d bytes : geo s -> image d = im -> bytes_ok bytes -> Z.of_nat (length bytes) <= 4096 ->
  to s im (set_buf dst (Ring.blit (get_buf dst s) 0 bytes) (s <| disk := d |>)).
Proof.
  intros [_ _ _ _ _ Gb Gi _ _ [Bb Bi]] Hd Hb Hl. destruct dst; cbn [set_buf get_buf].
  - exists d, (Ring.blit (ext2_blkbuf s) 0 bytes), (ext2_indbuf s). split; [by destruct s|].
    split_and!; auto. rewrite Ring.length_blit by lia. done.
  - exists d, (ext2_blkbuf s), (Ring.blit (ext2_indbuf s) 0 bytes). split; [by destruct s|].
    split_and!; auto. rewrite Ring.length_blit by lia. done.
Qed.

(** A block read: the buffer starts with the block. *)
Lemma read_block_spec s b dst : geo s -> on_disk s b ->
  exists s', ext2_read_block b dst s = (s', Some tt) /\ to s (image (disk s)) s' /\
    get_buf dst s' = Ring.blit (get_buf dst s) 0 (block s b) /\
    (dst = Ind -> get_buf Blk s' = get_buf Blk s) /\ (dst = Blk -> get_buf Ind s' = get_buf Ind s).
Proof.
  intros G Hb. unfold ext2_read_block. rewrite lba_small by done.
  pose proof (bs_facts s G) as [Hr E]. pose proof (within_block s b G Hb) as (W0 & W1 & W2).
  destruct Hb as [Hb0 Hb1].
  destruct (read_image (disk s) (b * (ext2_blk_size s / 512)) (ext2_blk_size s / 512)) as (d & -> & Ei); [nia..|].
  replace (b * (ext2_blk_size s / 512) * 512) with (b * ext2_blk_size s) by nia. rewrite E.
  change (Ring.slice (image (disk s)) (b * ext2_blk_size s) (ext2_blk_size s)) with (block s b).
  eexists. split; [done|]. split; [|by destruct dst].
  apply set_buf_to; [done|done|apply bytes_slice, G|]. rewrite len_block by (done || split; lia). lia.
Qed.

(** The part of the buffer that holds the block. *)
Lemma buf_part s b buf off n : geo s -> on_disk s b -> length buf = 4096%nat ->
  0 <= off -> 0 <= n -> off + n <= ext2_blk_size s ->
  Ring.slice (Ring.blit buf 0 (block s b)) off n = Ring.slice (image (disk s)) (b * ext2_blk_size s + off) n.
Proof.
  intros G Hb Hl H0 Hn Hle. pose proof (bs_facts s G). pose proof (len_block s b G Hb) as Lb.
  rewrite slice_blit_in by (repeat split; lia). rewrite Z.sub_0_r. unfold block.
  apply slice_slice; [by apply within_block|lia..].
Qed.

(** A block write: that part of the image is replaced. *)
Lemma write_block_spec s b data : geo s -> on_disk s b -> length data = 4096%nat ->
  exists s', ext2_write_block b data s = (s', Some tt) /\
    to s (Ring.blit (image (disk s)) (b * ext2_blk_size s) (Ring.slice data 0 (ext2_blk_size s))) s' /\
    get_buf Ind s' = get_buf Ind s /\ get_buf Blk s' = get_buf Blk s.
Proof.
  intros G Hb Hl. unfold ext2_write_block. rewrite (proj2 (Z.eqb_neq _ 0) (g_mounted s G)), lba_small by done.
  pose proof (bs_facts s G) as [Hr E]. rewrite E, take_slice.
  pose proof (within_block s b G Hb) as (W0 & W1 & W2). destruct Hb as [Hb0 Hb1].
  destruct (write_image (disk s) (b * (ext2_blk_size s / 512)) (ext2_blk_size s / 512)
              (Ring.slice data 0 (ext2_blk_size s))) as (d & -> & Ei); [nia..| |].
  { rewrite len_slice by (repeat split; lia). lia. }
  replace (b * (ext2_blk_size s / 512) * 512) with (b * ext2_blk_size s) in Ei by nia.
  eexists. split; [done|]. split; [|done]. exists d, (ext2_blkbuf s), (ext2_indbuf s). split; [by destruct s|].
  destruct G as [_ _ _ _ _ ? ? _ _ [? ?]]. done.
Qed.

(** Reading a block, changing bytes of it and writing it back changes those
    bytes of the image. *)
Lemma rmw_spec s b off data {A} (k : unit -> M D A) : geo s -> on_disk s b -> bytes_ok data ->
  0 <= off -> off + Z.of_nat (length data) <= ext2_blk_size s ->
  exists s', bind (ext2_read_block b Blk) (fun _ =>
        bind (modify (fun s => s <| ext2_blkbuf := Ring.blit (ext2_blkbuf s) off data |>)) (fun _ =>
        bind (gets ext2_blkbuf) (fun b' => bind (ext2_write_block b b') k))) s = k tt s' /\
    to s (Ring.blit (image (disk s)) (b * ext2_blk_size s + off) data) s' /\ get_buf Ind s' = get_buf Ind s.
Proof.
  intros G Hb Hd H0 Hle. destruct (read_block_spec s b Blk G Hb) as (s1 & E1 & T1 & B1 & _ & I1). run E1.
  rewrite bind_modify, bind_gets. set (s2 := s1 <| ext2_blkbuf := _ |>). cbn [get_buf] in *. specialize (I1 eq_refl).
  pose proof (bs_facts s G) as Hbs. pose proof (len_block s b G Hb) as Lb.
  pose proof (to_geo _ _ _ G T1 eq_refl (g_image s G)) as G1.
  destruct (to_same _ _ _ T1) as (_ & _ & Ebs & _).
  assert (L2 : length (Ring.blit (ext2_blkbuf s1) off data) = 4096%nat)
    by (rewrite Ring.length_blit; rewrite ?(g_blk s1 G1); lia).
  assert (T2 : to s1 (image (disk s)) s2).
  { exists (disk s1), (Ring.blit (ext2_blkbuf s1) off data), (ext2_indbuf s1). split; [by destruct s1|].
    split; [by apply (to_image s)|]. split; [split; [done|]|]; [apply bytes_blit; [apply G1|done]|]. split; apply G1. }
  pose proof (to_geo _ _ _ G1 T2 ltac:(by rewrite (to_image _ _ _ T1)) (g_image s G)) as G2.
  destruct (to_same _ _ _ T2) as (_ & _ & Ebs2 & _).
  destruct (write_block_spec s2 b (ext2_blkbuf s2) G2) as (s3 & E3 & T3 & I3 & _);
    [split; [apply Hb|]; rewrite Ebs2, Ebs, (to_image _ _ _ T2); apply Hb|exact L2|].
  run E3. exists s3. split; [done|]. split; [|etransitivity; [exact I3|exact I1]]. rewrite (to_image _ _ _ T2), Ebs2, Ebs in T3.
  assert (E : Ring.slice (ext2_blkbuf s2) 0 (ext2_blk_size s) = Ring.blit (block s b) off data).
  { change (ext2_blkbuf s2) with (Ring.blit (ext2_blkbuf s1) off data). rewrite B1.
    pose proof (g_blk s G) as Lk. set (b0 := Ring.blit (ext2_blkbuf s) 0 (block s b)).
    assert (L0 : length b0 = 4096%nat) by (unfold b0; rewrite Ring.length_blit; lia).
    assert (L1 : length (Ring.blit b0 off data) = 4096%nat) by (rewrite Ring.length_blit; lia).
    assert (L3 : length (Ring.blit (block s b) off data) = length (block s b)) by (apply Ring.length_blit; lia).
    apply aget_ext; [rewrite Ring.length_slice; lia|]. intros i Hi. rewrite Ring.length_slice in Hi by lia.
    rewrite aget_slice by (repeat split; lia). rewrite !Ring.aget_blit by lia. rewrite Z.add_0_l.
    case_decide; [done|]. unfold b0. rewrite Ring.aget_blit, decide_True by lia. by rewrite Z.sub_0_r. }
  rewrite E in T3. unfold block in T3. rewrite blit_rmw in T3 by (try apply within_block; done || lia).
  eapply to_trans; [exact T1|]. eapply to_trans; [exact T2|exact T3].
Qed.

(** The same as the last call of an operation. *)
Lemma rmw_last s b off data : geo s -> on_disk s b -> bytes_ok data ->
  0 <= off -> off + Z.of_nat (length data) <= ext2_blk_size s ->
  exists s', bind (ext2_read_block b Blk) (fun _ =>
        bind (modify (fun s => s <| ext2_blkbuf := Ring.blit (ext2_blkbuf s) off data |>)) (fun _ =>
        bind (gets ext2_blkbuf) (fun b' => ext2_write_block b b'))) s = (s', Some tt) /\
    to s (Ring.blit (image (disk s)) (b * ext2_blk_size s + off) data) s' /\ get_buf Ind s' = get_buf Ind s.
Proof.
  intros G Hb Hd H0 Hle. destruct (rmw_spec s b off data (fun _ => ret tt) G Hb Hd H0 Hle) as (s' & E & T & I).
  exists s'. split; [|done]. etransitivity; [|exact E]. unfold bind, modify, gets.
  destruct (ext2_read_block b Blk s) as [s1 [[]|]]; [|done].
  by destruct (ext2_write_block b _ _) as [s2 [[]|]].
Qed.
End Blocks.
End Ext2Blocks.
