(* ===== verification/Ext2Layout.v ===== *)
(** The regions of a mounted ext2 image and what each metadata operation of the
    driver does to them: descriptors, inodes, the superblock counts, the
    bitmaps and the allocators. *)
From S2P Require Import Prelude Ring Bytes Ext2 Ext2Blocks.

Module Ext2Layout.
Import Bytes Ext2 Ext2Blocks.

(** ** Regions *)

(** Where things are: the block size, the groups, the blocks of the bitmaps
    and of the inode table of each group, the inodes, and which blocks hold
    data. *)
Record layout := Layout {
  l_bs : Z; l_groups : Z; l_ipg : Z; l_bpg : Z; l_len : Z;
  l_bbm : Z -> Z; l_ibm : Z -> Z; l_itab : Z -> Z; l_inodes : Z; l_blocks : Z; l_data : Z -> Prop
}.

Inductive region := Sb | Gd (g : Z) | BBm (g : Z) | IBm (g : Z) | Ino (i : Z) | Data (b : Z).
#[export] Instance region_eq : EqDecision region.
Proof. solve_decision. Defined.

(** A region is not among a few others. *)
Ltac not_in := repeat (apply not_elem_of_cons; split; [congruence|]); apply not_elem_of_nil.

Section Layout.
  Variable L : layout.

Definition valid (r : region) : Prop :=
    match r with
    | Sb => True
    | Gd g | BBm g | IBm g => 0 <= g < l_groups L
    | Ino i => 1 <= i <= l_inodes L
    | Data b => l_data L b
    end.

(** Offset and length in the image. Of the superblock only the two free
    counts change. *)
Definition place (r : region) : Z * Z :=
    match r with
    | Sb => (1036, 8)
    | Gd g => ((2048 / l_bs L + g / (l_bs L / 32)) * l_bs L + g mod (l_bs L / 32) * 32, 32)
    | BBm g => (l_bbm L g * l_bs L, l_bs L)
    | IBm g => (l_ibm L g * l_bs L, l_bs L)
    | Ino i => (l_itab L ((i - 1) / l_ipg L) * l_bs L + (i - 1) mod l_ipg L * 128, 128)
    | Data b => (b * l_bs L, l_bs L)
    end.

(** The regions are apart, inside the image, and every inode has a group. *)
Record layout_ok : Prop := {
  lo_bs : l_bs L = 1024 \/ l_bs L = 2048 \/ l_bs L = 4096;
  lo_len : 2048 <= l_len L < 2 ^ 32;
  lo_mult : exists n, l_len L = n * l_bs L;
  lo_ipg : 0 < l_ipg L <= 8 * l_bs L;
  lo_bpg : 0 < l_bpg L <= 8 * l_bs L;
  lo_inodes : l_inodes L <= l_groups L * l_ipg L;
  lo_groups : forall g, 0 <= g < l_groups L -> 0 <= l_bbm L g /\ 0 <= l_ibm L g /\ 0 <= l_itab L g;
  lo_blocks : 0 <= l_blocks L /\ l_blocks L * l_bs L <= l_len L;
  lo_data : forall b, l_data L b -> 0 < b < l_blocks L;
  lo_in : forall r, valid r -> 0 <= (place r).1 /\ (place r).1 + (place r).2 <= l_len L;
  lo_apart : forall r r', valid r -> valid r' -> r <> r' -> apart (place r).1 (place r).2 (place r').1 (place r').2
}.

Section Fs.
  Context {D : Type} {BD : BlockDev D} {BSp : BlockSpec D}.

Definition content (s : fs D) (r : region) : list Z := Ring.slice (image (disk s)) (place r).1 (place r).2.
Definition gd_of (s : fs D) (g : Z) : ext2_group_desc_t := decode_gdesc (content s (Gd g)).
Definition inode_of (s : fs D) (i : Z) : ext2_inode_t := decode_inode (content s (Ino i)).

(** The filesystem follows the layout. *)
Record wf (s : fs D) : Prop := {
  wf_geo : geo s;
  wf_bs : ext2_blk_size s = l_bs L;
  wf_ipg : ext2_inodes_per_group s = l_ipg L;
  wf_bpg : ext2_blocks_per_group s = l_bpg L;
  wf_len : Z.of_nat (length (image (disk s))) = l_len L;
  wf_sb : s_inodes_count (ext2_sb s) = l_inodes L /\ s_blocks_count (ext2_sb s) = l_blocks L;
  wf_gd g : 0 <= g < l_groups L -> bg_block_bitmap (gd_of s g) = l_bbm L g /\
    bg_inode_bitmap (gd_of s g) = l_ibm L g /\ bg_inode_table (gd_of s g) = l_itab L g
}.

(** What a metadata call keeps besides the regions it names. *)
Definition kept (s s' : fs D) : Prop :=
    ext2_mounted s' = ext2_mounted s /\ ext2_ino_size s' = ext2_ino_size s /\ now s' = now s /\ creator s' = creator s /\
    dcache s' = dcache s /\ dcache_next s' = dcache_next s /\
    ext2_file_pool s' = ext2_file_pool s /\ ext2_file_pool_used s' = ext2_file_pool_used s.

Record changed (rs : list region) (s s' : fs D) : Prop := {
  ch_wf : wf s';
  ch_kept : kept s s';
  ch_rest r : valid r -> r ∉ rs -> content s' r = content s r
}.

Lemma changed_trans rs rs' s s' s'' : changed rs s s' -> changed rs' s' s'' -> changed (rs ++ rs') s s''.
Proof.
  intros [W K R] [W' K' R']. split; [done| |].
  - unfold kept in *. destruct_and!. split_and!; congruence.
  - intros r Hr Hn. rewrite elem_of_app in Hn. rewrite R' by tauto. apply R; tauto.
Qed.

Lemma changed_sub rs rs' s s' : changed rs s s' -> rs ⊆ rs' -> changed rs' s s'.
Proof. intros [W K R] Hs. split; [done..|]. intros r Hr Hn. apply R; [done|]. set_solver. Qed.

Hypothesis HL : layout_ok.

Lemma content_within s r : wf s -> valid r -> within (image (disk s)) (place r).1 (place r).2.
Proof.
  intros W Hr. destruct (lo_in HL r Hr) as [H1 H2]. repeat split; [done| |by rewrite (wf_len s W)].
  pose proof (lo_bs HL). destruct r; cbn; lia.
Qed.

Lemma len_content s r : wf s -> valid r -> Z.of_nat (length (content s r)) = (place r).2.
Proof. intros W Hr. apply len_slice. by apply content_within. Qed.

Lemma bytes_content s r : wf s -> bytes_ok (content s r).
Proof. intros W. apply bytes_slice, (g_image _ (wf_geo _ W)). Qed.

Lemma gd_of_ok s g : wf s -> 0 <= g < l_groups L -> gdesc_ok (gd_of s g).
Proof.
  intros W Hg. apply decode_gdesc_ok; [by apply bytes_content|]. pose proof (len_content s (Gd g) W Hg) as E. cbn [place snd] in E. lia.
Qed.

Lemma inode_of_ok s i : wf s -> valid (Ino i) -> inode_ok (inode_of s i).
Proof.
  intros W Hi. apply decode_inode_ok; [by apply bytes_content|]. pose proof (len_content s (Ino i) W Hi) as E. cbn [place snd] in E. lia.
Qed.

(** Writing one region. A descriptor must keep its block numbers. *)
Lemma to_changed s s' r d :
  wf s -> valid r -> bytes_ok d -> Z.of_nat (length d) = (place r).2 ->
  (forall g, r = Gd g -> bg_block_bitmap (decode_gdesc d) = l_bbm L g /\
     bg_inode_bitmap (decode_gdesc d) = l_ibm L g /\ bg_inode_table (decode_gdesc d) = l_itab L g) ->
  to s (Ring.blit (image (disk s)) (place r).1 d) s' ->
  changed [r] s s' /\ content s' r = d.
Proof.
  intros W Hr Hd Hl Hg T. pose proof (content_within s r W Hr) as Hw. pose proof (to_image _ _ _ T) as Ei.
  assert (Hlen : length (Ring.blit (image (disk s)) (place r).1 d) = length (image (disk s))) by (apply len_blit; by rewrite Hl).
  assert (Hby : bytes_ok (Ring.blit (image (disk s)) (place r).1 d)) by (apply bytes_blit; [apply (g_image _ (wf_geo _ W))|done]).
  assert (Hsame : content s' r = d).
  { unfold content. rewrite Ei. apply slice_blit_same; [by rewrite Hl|done]. }
  assert (Hrest : forall r', valid r' -> r' <> r -> content s' r' = content s r').
  { intros r' Hr' Hne. unfold content. rewrite Ei. apply slice_blit_apart.
    - by rewrite Hl.
    - by apply content_within.
    - rewrite Hl. by apply (lo_apart HL). }
  destruct (to_same _ _ _ T) as (E1 & E2 & E3 & E4 & E5 & E6 & E7 & E8).
  assert (K : kept s s') by (destruct T as (? & ? & ? & -> & _); repeat split).
  split; [|done]. split; [|done|].
  - destruct W as [G W1 W2 W3 W4 W5 W6]. split; rewrite ?E2, ?E3, ?E5, ?E6; try done.
    + by eapply to_geo.
    + by rewrite Ei, Hlen.
    + intros g Hgg. destruct (decide (r = Gd g)) as [->|Hne].
      * unfold gd_of. rewrite Hsame. by apply Hg.
      * unfold gd_of. rewrite Hrest by (done || congruence). by apply W6.
  - intros r' Hr' Hn. apply Hrest; [done|]. set_solver.
Qed.

Lemma to_unchanged s s' : wf s -> to s (image (disk s)) s' -> changed [] s s'.
Proof.
  intros W T. pose proof (to_image _ _ _ T) as Ei.
  destruct (to_same _ _ _ T) as (E1 & E2 & E3 & E4 & E5 & E6 & E7 & E8).
  split.
  - destruct W as [G W1 W2 W3 W4 W5 W6]. split; rewrite ?E2, ?E3, ?E5, ?E6, ?Ei; try done.
    + eapply to_geo; [done..|apply (g_image _ G)].
    + unfold gd_of, content. by rewrite Ei.
  - destruct T as (? & ? & ? & -> & _). repeat split.
  - intros r _ _. unfold content. by rewrite Ei.
Qed.

(** ** Group descriptors *)
Lemma gd_place s g : wf s -> 0 <= g < l_groups L ->
  let p := gdesc_place g s in
  p.1 * ext2_blk_size s + p.2 * 32 = (place (Gd g)).1 /\ on_disk s p.1 /\ 0 <= p.2 * 32 /\ p.2 * 32 + 32 <= ext2_blk_size s.
Proof.
  intros W Hg. unfold gdesc_place, ext2_gdt_start_block. rewrite (wf_bs s W). cbv zeta. cbn [fst snd place].
  destruct (lo_in HL (Gd g) Hg) as [_ Hd]. cbn [place fst snd] in Hd. destruct (lo_mult HL) as [n Hn].
  pose proof (lo_len HL). pose proof (lo_bs HL) as Hb.
  assert (Hq : 0 < l_bs L / 32 /\ l_bs L / 32 * 32 = l_bs L) by (destruct Hb as [-> | [-> | ->]]; done).
  assert (0 <= g / (l_bs L / 32)) by (apply Z.div_pos; lia).
  assert (0 <= 2048 / l_bs L) by (apply Z.div_pos; lia).
  assert (Hm : 0 <= g mod (l_bs L / 32) < l_bs L / 32) by (apply Z.mod_pos_bound; lia).
  rewrite u32_small by nia. split; [done|]. unfold on_disk. rewrite (wf_bs s W), (wf_len s W).
  split; [split; [lia|nia]|lia].
Qed.

Lemma read_gdesc_to s g : wf s -> 0 <= g < l_groups L ->
  exists s', ext2_read_gdesc g s = (s', Some (gd_of s g)) /\ to s (image (disk s)) s' /\ ext2_indbuf s' = ext2_indbuf s.
Proof.
  intros W Hg. destruct (gd_place s g W Hg) as (E & Hb & H0 & Hle). unfold ext2_read_gdesc. rewrite bind_gets.
  destruct (read_block_spec s _ Blk (wf_geo s W) Hb) as (s1 & E1 & T1 & B1 & _ & I1). run E1. rewrite bind_gets.
  exists s1. split_and!; [|done|by apply I1].
  unfold ret. do 2 f_equal. unfold gd_of, content. cbn [get_buf] in B1. rewrite B1.
  rewrite buf_part by (lia || exact (wf_geo s W) || exact (g_blk _ (wf_geo s W)) || done). by rewrite E.
Qed.

Lemma read_gdesc_spec s g : wf s -> 0 <= g < l_groups L ->
  exists s', ext2_read_gdesc g s = (s', Some (gd_of s g)) /\ changed [] s s' /\ ext2_indbuf s' = ext2_indbuf s /\
    ext2_sb s' = ext2_sb s.
Proof.
  intros W Hg. destruct (read_gdesc_to s g W Hg) as (s' & E & T & I). exists s'. split_and!; [done|by apply to_unchanged|done|].
  by destruct (to_same _ _ _ T) as (_ & ? & _).
Qed.

Lemma write_gdesc_spec s g gd : wf s -> 0 <= g < l_groups L -> gdesc_ok gd ->
  bg_block_bitmap gd = l_bbm L g /\ bg_inode_bitmap gd = l_ibm L g /\ bg_inode_table gd = l_itab L g ->
  exists s', ext2_write_gdesc g gd s = (s', Some tt) /\ changed [Gd g] s s' /\ gd_of s' g = gd /\
    ext2_indbuf s' = ext2_indbuf s /\ ext2_sb s' = ext2_sb s.
Proof.
  intros W Hg Hok Hf. destruct (gd_place s g W Hg) as (E & Hb & H0 & Hle). unfold ext2_write_gdesc. rewrite bind_gets.
  pose proof (length_encode_gdesc gd Hok) as Hl.
  destruct (rmw_last s (gdesc_place g s).1 ((gdesc_place g s).2 * 32) (encode_gdesc gd) (wf_geo s W) Hb) as (s' & E' & T & I);
    [by apply bytes_encode_gdesc|done|lia|].
  rewrite E in T. destruct (to_changed s s' (Gd g) (encode_gdesc gd) W Hg) as [C Ec].
  - by apply bytes_encode_gdesc.
  - cbn [place snd]. lia.
  - intros g' [= <-]. by rewrite decode_encode_gdesc.
  - exact T.
  - exists s'. split_and!; [exact E'|done| |exact I|by destruct (to_same _ _ _ T) as (_ & ? & _)].
    unfold gd_of. rewrite Ec. by apply decode_encode_gdesc.
Qed.

(** ** Inodes *)
Lemma ino_group i : valid (Ino i) -> 0 <= (i - 1) / l_ipg L < l_groups L.
Proof.
  intros [H1 H2]. pose proof (lo_ipg HL). pose proof (lo_inodes HL).
  split; [apply Z.div_pos; lia|apply Z.div_lt_upper_bound; nia].
Qed.

Lemma ino_place s i : wf s -> valid (Ino i) ->
  let p := inode_place (gd_of s ((i - 1) / l_ipg L)) ((i - 1) mod l_ipg L) s in
  p.1 * ext2_blk_size s + p.2 = (place (Ino i)).1 /\ on_disk s p.1 /\ 0 <= p.2 /\ p.2 + 128 <= ext2_blk_size s.
Proof.
  intros W Hi. pose proof (ino_group i Hi) as Hg. destruct (lo_in HL (Ino i) Hi) as [Hp0 Hp]. cbn [place fst snd] in *.
  destruct (lo_mult HL) as [n Hn]. pose proof (lo_len HL). destruct (wf_gd s W _ Hg) as (_ & _ & Et).
  unfold inode_place. rewrite Et, (wf_bs s W), (g_ino s (wf_geo s W)). cbv zeta. cbn [fst snd].
  set (off := l_itab L _ * _ + _) in *. rewrite u32_small by lia.
  assert (Hb : 0 < l_bs L /\ l_bs L / 128 * 128 = l_bs L) by (destruct (lo_bs HL) as [-> | [-> | ->]]; done).
  pose proof (Z.div_mod off (l_bs L) ltac:(lia)) as Hdm. pose proof (Z.mod_pos_bound off (l_bs L) ltac:(lia)) as Hm.
  assert (Hle : off mod l_bs L + 128 <= l_bs L).
  { unfold off. rewrite (Z.add_comm (l_itab L _ * _)), Z.mod_add by lia. set (k := (i - 1) mod l_ipg L).
    rewrite <- (proj2 Hb) at 1. rewrite Z.mul_mod_distr_r by lia.
    pose proof (Z.mod_pos_bound k (l_bs L / 128) ltac:(lia)). lia. }
  split; [lia|]. unfold on_disk. rewrite (wf_bs s W), (wf_len s W).
  assert (off / l_bs L < n) by (apply Z.div_lt_upper_bound; lia).
  split; [split; [apply Z.div_pos; lia|rewrite Hn; apply Z.mul_le_mono_nonneg_r; lia]|lia].
Qed.

Lemma read_inode_to s i : wf s -> valid (Ino i) ->
  exists s', ext2_read_inode i s = (s', Some (inode_of s i)) /\ to s (image (disk s)) s' /\ ext2_indbuf s' = ext2_indbuf s.
Proof.
  intros W Hi. unfold ext2_read_inode. rewrite bind_gets, bind_guard.
  2: { rewrite (proj2 (Z.eqb_neq _ 0) (g_mounted s (wf_geo s W))), (proj2 (Z.eqb_neq i 0)) by (cbn in Hi; lia). done. }
  rewrite bind_gets. unfold inode_group. cbn [fst snd]. rewrite (wf_ipg s W).
  destruct (read_gdesc_to s _ W (ino_group i Hi)) as (s1 & E1 & T1 & I1). run E1. rewrite bind_gets.
  pose proof (to_unchanged _ _ W T1) as C1. pose proof (ch_wf _ _ _ C1) as W1.
  assert (Eg : gd_of s1 ((i - 1) / l_ipg L) = gd_of s ((i - 1) / l_ipg L)).
  { unfold gd_of. rewrite (ch_rest _ _ _ C1); [done|by apply ino_group|set_solver]. }
  rewrite <- Eg. destruct (ino_place s1 i W1 Hi) as (Ep & Hb & H0 & Hle).
  destruct (read_block_spec s1 _ Blk (wf_geo s1 W1) Hb) as (s2 & E2 & T2 & B2 & _ & I2). run E2. rewrite !bind_gets.
  exists s2. split_and!.
  - unfold ret. do 2 f_equal. destruct (to_same _ _ _ T2) as (_ & _ & _ & Eis & _). rewrite Eis, (g_ino s1 (wf_geo s1 W1)).
    cbn [get_buf] in B2. rewrite B2, buf_part by (lia || exact (wf_geo s1 W1) || exact (g_blk _ (wf_geo s1 W1)) || done).
    rewrite Ep. unfold inode_of. rewrite <- (ch_rest _ _ _ C1 (Ino i) Hi) by set_solver. done.
  - rewrite (to_image _ _ _ T1) in T2. by eapply to_trans.
  - rewrite <- I1. by apply I2.
Qed.

Lemma read_inode_spec s i : wf s -> valid (Ino i) ->
  exists s', ext2_read_inode i s = (s', Some (inode_of s i)) /\ changed [] s s' /\ ext2_indbuf s' = ext2_indbuf s /\
    ext2_sb s' = ext2_sb s.
Proof.
  intros W Hi. destruct (read_inode_to s i W Hi) as (s' & E & T & I). exists s'. split_and!; [done|by apply to_unchanged|done|].
  by destruct (to_same _ _ _ T) as (_ & ? & _).
Qed.

Lemma write_inode_spec s i inode : wf s -> valid (Ino i) -> inode_ok inode ->
  exists s', ext2_write_inode i inode s = (s', Some tt) /\ changed [Ino i] s s' /\ inode_of s' i = inode /\
    ext2_sb s' = ext2_sb s.
Proof.
  intros W Hi Hok. unfold ext2_write_inode. rewrite bind_gets, bind_guard.
  2: { rewrite (proj2 (Z.eqb_neq _ 0) (g_mounted s (wf_geo s W))), (proj2 (Z.eqb_neq i 0)) by (cbn in Hi; lia). done. }
  rewrite bind_gets. unfold inode_group. cbn [fst snd]. rewrite (wf_ipg s W).
  destruct (read_gdesc_spec s _ W (ino_group i Hi)) as (s1 & E1 & C1 & I1 & B1). run E1. rewrite bind_gets.
  pose proof (ch_wf _ _ _ C1) as W1.
  assert (Eg : gd_of s1 ((i - 1) / l_ipg L) = gd_of s ((i - 1) / l_ipg L)).
  { unfold gd_of. rewrite (ch_rest _ _ _ C1); [done|by apply ino_group|set_solver]. }
  rewrite <- Eg. destruct (ino_place s1 i W1 Hi) as (Ep & Hb & H0 & Hle).
  pose proof (length_encode_inode inode Hok) as Hl.
  destruct (rmw_last s1 _ (inode_place (gd_of s1 ((i - 1) / l_ipg L)) ((i - 1) mod l_ipg L) s1).2
    (encode_inode inode) (wf_geo s1 W1) Hb) as (s2 & E2 & T2 & I2);
    [by apply bytes_encode_inode|exact H0|lia|].
  rewrite Ep in T2. destruct (to_changed s1 s2 (Ino i) (encode_inode inode) W1 Hi) as [C Ec].
  - by apply bytes_encode_inode.
  - cbn [place snd]. lia.
  - done.
  - exact T2.
  - exists s2. split_and!.
    + etransitivity; [|exact E2]. unfold bind, modify, gets.
      match goal with |- context [ext2_read_block ?b Blk s1] => destruct (ext2_read_block b Blk s1) as [s3 [[]|]] eqn:E3 end; [|done].
      assert (Ei : ext2_ino_size s3 = 128).
      { destruct (read_block_spec s1 _ Blk (wf_geo s1 W1) Hb) as (s3' & E3' & T3 & _).
        rewrite E3' in E3. injection E3 as <-.
        destruct (to_same _ _ _ T3) as (_ & _ & _ & -> & _). apply (wf_geo s1 W1). }
      by rewrite Ei, take_ge by lia.
    + apply (changed_trans [] [Ino i] s s1 s2); done.
    + unfold inode_of. rewrite Ec. by apply decode_encode_inode.
    + rewrite <- B1. by destruct (to_same _ _ _ T2) as (_ & ? & _).
Qed.
End Fs.
End Layout.
End Ext2Layout.
