(* ===== verification/Ext2Alloc.v ===== *)
(** The bitmaps of the ext2 driver and its allocators: blocks come from the
    free set and go back to it; inodes are numbered differently by the
    allocator and by everything else. *)
From S2P Require Import Prelude Ring Bytes Ext2 Ext2Blocks Ext2Layout.

Module Ext2Alloc.
Import Bytes Ext2 Ext2Blocks Ext2Layout.

(** ** Bits *)
Lemma aset_blit {A} `{Inhabited A} (l : list A) k x : 0 <= k < Z.of_nat (length l) -> aset l k x = Ring.blit l k [x].
Proof.
  intros Hk. apply aget_ext.
  - rewrite length_aset, Ring.length_blit; cbn [length]; lia.
  - intros i Hi. rewrite length_aset in Hi. rewrite aget_aset by lia.
    rewrite Ring.aget_blit by (cbn [length]; lia). cbn [length].
    destruct (decide (k = i)) as [->|Hne].
    + rewrite decide_True by lia. by rewrite Z.sub_diag.
    + by rewrite decide_False by lia.
Qed.

Lemma aget_one {A} `{Inhabited A} (x : A) : aget [x] 0 = x.
Proof. done. Qed.

Lemma land7 i : Z.land i 7 = i mod 8.
Proof. change 7 with (Z.ones 3). by rewrite Z.land_ones. Qed.

Lemma shiftr3 i : Z.shiftr i 3 = i / 8.
Proof. by rewrite Z.shiftr_div_pow2. Qed.

Lemma mask_small i : u8 (Z.shiftl 1 (i mod 8)) = Z.shiftl 1 (i mod 8).
Proof.
  apply u8_small. pose proof (Z.mod_pos_bound i 8 ltac:(lia)) as Hm. rewrite Z.shiftl_mul_pow2, Z.mul_1_l by lia.
  split; [apply Z.pow_nonneg; lia|]. apply Z.pow_lt_mono_r; lia.
Qed.

Lemma bit_shiftl1 k j : 0 <= k -> 0 <= j -> Z.testbit (Z.shiftl 1 k) j = bool_decide (k = j).
Proof.
  intros Hk Hj. rewrite Z.shiftl_mul_pow2, Z.mul_1_l by done. case_bool_decide as E.
  - subst. by apply Z.pow2_bits_true.
  - by apply Z.pow2_bits_false.
Qed.

Lemma bit_unmask k j : 0 <= k -> 0 <= j < 8 -> Z.testbit (u8 (Z.lnot (Z.shiftl 1 k))) j = negb (bool_decide (k = j)).
Proof. intros Hk Hj. unfold u8. rewrite Z.mod_pow2_bits_low, Z.lnot_spec, bit_shiftl1 by lia. done. Qed.

(** The byte of the bitmap that [put_bit] stores. *)
Definition put_byte (x i : Z) (v : bool) : Z :=
  let mask := Z.shiftl 1 (i mod 8) in if v then Z.lor x mask else Z.land x (u8 (Z.lnot mask)).

Lemma byte_index (b : list Z) i : 0 <= i < 8 * Z.of_nat (length b) -> 0 <= i / 8 < Z.of_nat (length b).
Proof. intros Hi. split; [apply Z.div_pos; lia|apply Z.div_lt_upper_bound; lia]. Qed.

Lemma put_bit_blit b i v : 0 <= i < 8 * Z.of_nat (length b) ->
  put_bit b i v = Ring.blit b (i / 8) [put_byte (aget b (i / 8)) i v].
Proof. intros Hi. unfold put_bit. rewrite land7, shiftr3, mask_small. by rewrite aset_blit by (by apply byte_index). Qed.

Lemma put_byte_range x i v : is_byte x -> is_byte (put_byte x i v).
Proof.
  intros Hx. unfold is_byte in *. pose proof (Z.mod_pos_bound i 8 ltac:(lia)) as Hm.
  assert (H0 : 0 <= put_byte x i v).
  { unfold put_byte. destruct v; [apply Z.lor_nonneg; split; [lia|apply Z.shiftl_nonneg; lia]|apply Z.land_nonneg; lia]. }
  split; [done|]. change 256 with (2 ^ 8). apply (testbit_range _ 8); [lia|done|]. intros j Hj. unfold put_byte. destruct v.
  - rewrite Z.lor_spec, (testbit_high x 8 j), bit_shiftl1 by (done || lia). by rewrite bool_decide_false by lia.
  - by rewrite Z.land_spec, (testbit_high x 8 j) by (done || lia).
Qed.

Lemma put_byte_bit x i v j : 0 <= j < 8 -> Z.testbit (put_byte x i v) j = if decide (i mod 8 = j) then v else Z.testbit x j.
Proof.
  intros Hj. pose proof (Z.mod_pos_bound i 8 ltac:(lia)) as Hm. unfold put_byte. destruct v.
  - rewrite Z.lor_spec, bit_shiftl1 by lia. case_decide; [by rewrite bool_decide_true, orb_true_r|].
    by rewrite bool_decide_false, orb_false_r.
  - rewrite Z.land_spec, bit_unmask by lia. case_decide; [by rewrite bool_decide_true, andb_false_r|].
    by rewrite bool_decide_false, andb_true_r.
Qed.

Lemma bit_put b i j v : 0 <= i < 8 * Z.of_nat (length b) -> 0 <= j < 8 * Z.of_nat (length b) ->
  bit_of (put_bit b i v) j = if decide (i = j) then v else bit_of b j.
Proof.
  intros Hi Hj. rewrite put_bit_blit by done. unfold bit_of. rewrite land7, shiftr3.
  pose proof (byte_index b i Hi). pose proof (byte_index b j Hj). rewrite Ring.aget_blit by (cbn [length]; lia). cbn [length].
  pose proof (Z.div_mod i 8 ltac:(lia)). pose proof (Z.div_mod j 8 ltac:(lia)).
  destruct (decide (i / 8 <= j / 8 < i / 8 + Z.of_nat 1)) as [E|E].
  - assert (i / 8 = j / 8) as E8 by lia. rewrite E8, Z.sub_diag, aget_one.
    rewrite put_byte_bit by (apply Z.mod_pos_bound; lia).
    destruct (decide (i = j)) as [->|Hne]; [by rewrite decide_True|]. by rewrite decide_False by lia.
  - rewrite decide_False by (intros ->; lia). done.
Qed.

Lemma find_index_ext {A} (p q : A -> bool) l : (forall x, x ∈ l -> p x = q x) -> find_index p l = find_index q l.
Proof.
  induction l as [|a l IH]; intros E; [done|]. cbn. rewrite (E a) by left. rewrite IH; [done|].
  intros x Hx. apply E. by right.
Qed.

Lemma drop_zrange_lookup from range k x : 0 <= from ->
  drop (Z.to_nat from) (zrange (Z.to_nat range)) !! k = Some x -> x = from + Z.of_nat k /\ from <= x < range.
Proof.
  intros Hf. rewrite lookup_drop. intros Hx. pose proof (lookup_lt_Some _ _ _ Hx) as Hl. rewrite length_zrange in Hl.
  rewrite lookup_zrange in Hx by done. injection Hx as <-. lia.
Qed.

Section Alloc.
  Variable L : layout.
  Hypothesis HL : layout_ok L.
  Context {D : Type} {BD : BlockDev D} {BSp : BlockSpec D}.

(** [r] is the whole block [bm]. *)
Definition block_at (r : region) (bm : Z) : Prop :=
    valid L r /\ place L r = (bm * l_bs L, l_bs L) /\ 0 <= bm /\ forall g, r <> Gd g.

Lemma block_on_disk s r bm : wf L s -> block_at r bm -> on_disk s bm /\ content L s r = block s bm.
Proof.
  intros W (Hv & Hp & Hb & _). destruct (lo_in L HL r Hv) as [_ Hl]. rewrite Hp in Hl. cbn in Hl.
  unfold on_disk, block, content. rewrite Hp, (wf_bs L s W), (wf_len L s W). split; [lia|done].
Qed.

Lemma content_bits s r bm i : wf L s -> block_at r bm -> 0 <= i < 8 * l_bs L -> 0 <= i < 8 * Z.of_nat (length (content L s r)).
Proof. intros W (Hv & Hp & _) Hi. rewrite (len_content L HL s r W Hv), Hp. done. Qed.

(** The buffer after reading a bitmap shows its bits. *)
Lemma bit_buffer s bm buf i : geo s -> on_disk s bm -> length buf = 4096%nat -> 0 <= i < 8 * ext2_blk_size s ->
  bit_of (Ring.blit buf 0 (block s bm)) i = bit_of (block s bm) i.
Proof.
  intros G Hb Hl Hi. unfold bit_of. pose proof (bs_facts s G). pose proof (len_block s bm G Hb) as Lb. rewrite shiftr3.
  assert (0 <= i / 8 < ext2_blk_size s) by (split; [apply Z.div_pos; lia|apply Z.div_lt_upper_bound; lia]).
  rewrite Ring.aget_blit, decide_True by lia. by rewrite Z.sub_0_r.
Qed.

(** Changing bytes of a block that is a region of its own. *)
Lemma region_rmw s r bm off d {A} (k : unit -> M D A) : wf L s -> block_at r bm -> bytes_ok d ->
  0 <= off -> off + Z.of_nat (length d) <= l_bs L ->
  exists s', bind (ext2_read_block bm Blk) (fun _ =>
      bind (modify (fun s => s <| ext2_blkbuf := Ring.blit (ext2_blkbuf s) off d |>)) (fun _ =>
      bind (gets ext2_blkbuf) (fun b => bind (ext2_write_block bm b) k))) s = k tt s' /\
    changed L [r] s s' /\ content L s' r = Ring.blit (content L s r) off d /\ ext2_indbuf s' = ext2_indbuf s /\ ext2_sb s' = ext2_sb s.
Proof.
  intros W Hr Hd H0 Hle. destruct (block_on_disk s r bm W Hr) as [Hb Ec]. pose proof (wf_geo L s W) as G.
  destruct Hr as (Hv & Hp & _ & Hng). pose proof (wf_bs L s W) as Ebs. pose proof (len_block s bm G Hb) as Lb. rewrite Ec.
  rewrite <- Ebs in Hle. destruct (rmw_spec s bm off d k G Hb Hd H0 Hle) as (s' & E & T & I).
  assert (Hblit : Ring.blit (image (disk s)) (bm * ext2_blk_size s + off) d =
    Ring.blit (image (disk s)) (place L r).1 (Ring.blit (block s bm) off d)).
  { rewrite Hp, <- Ebs. cbn [fst]. unfold block. rewrite blit_rmw; [done|by apply within_block|lia|lia]. }
  rewrite Hblit in T. destruct (to_changed L HL s s' r (Ring.blit (block s bm) off d) W Hv) as [C Ecc].
  - apply bytes_blit; [rewrite <- Ec; by apply bytes_content|done].
  - rewrite Ring.length_blit, Lb, Hp by lia. done.
  - intros g ->. by destruct (Hng g).
  - exact T.
  - exists s'. split_and!; [done..|]. by destruct (to_same _ _ _ T) as (_ & ? & _).
Qed.

(** Setting a bit through the buffer is a one-byte change of the bitmap. *)
Lemma set_bit_spec s r bm i v {A} (k : unit -> M D A) : wf L s -> block_at r bm -> 0 <= i < 8 * l_bs L ->
  exists s1 s', ext2_read_block bm Blk s = (s1, Some tt) /\
    bind (modify (fun s => s <| ext2_blkbuf := put_bit (ext2_blkbuf s) i v |>)) (fun _ =>
      bind (gets ext2_blkbuf) (fun b => bind (ext2_write_block bm b) k)) s1 = k tt s' /\
    changed L [r] s s' /\ content L s' r = put_bit (content L s r) i v /\ ext2_indbuf s' = ext2_indbuf s /\ ext2_sb s' = ext2_sb s.
Proof.
  intros W Hr Hi. pose proof (content_bits s r bm i W Hr Hi) as Hi'. pose proof (byte_index _ _ Hi') as Hd.
  set (x := put_byte (aget (content L s r) (i / 8)) i v).
  assert (Hxb : is_byte x) by (apply put_byte_range, byte_at; [by apply bytes_content|done]).
  assert (Hi8 : 0 <= i / 8 /\ i / 8 + 1 <= l_bs L).
  { split; [lia|]. assert (i / 8 < l_bs L) by (apply Z.div_lt_upper_bound; lia). lia. }
  destruct (region_rmw s r bm (i / 8) [x] k W Hr) as (s' & E & C & Ec' & I & Es); [by repeat constructor; apply Hxb|lia|cbn [length]; lia|].
  destruct (block_on_disk s r bm W Hr) as [Hb Ec]. pose proof (wf_geo L s W) as G. pose proof (len_block s bm G Hb) as Lb.
  destruct (read_block_spec s bm Blk G Hb) as (s1 & E1 & T1 & B1 & _). exists s1, s'.
  split_and!; [done| |done|by rewrite Ec', put_bit_blit|done|done].
  rewrite (bind_run _ _ _ _ _ E1) in E. etransitivity; [|exact E].
  unfold bind, modify, gets. do 2 f_equal. cbn [get_buf] in B1. pose proof (g_blk s G) as Lk. pose proof (bs_facts s G).
  pose proof (g_blk s1 (to_geo _ _ _ G T1 eq_refl (g_image s G))) as L1. pose proof (wf_bs L s W) as Ebs.
  rewrite put_bit_blit by lia. do 2 f_equal. unfold x. rewrite Ec, B1, Ring.aget_blit, decide_True by lia. by rewrite Z.sub_0_r.
Qed.

(** Clearing or setting one bit. *)
Lemma bitmap_set_spec s r bm i v : wf L s -> block_at r bm -> 0 <= i < 8 * l_bs L ->
  exists s', ext2_bitmap_set bm i v s = (s', Some tt) /\
    changed L [r] s s' /\ content L s' r = put_bit (content L s r) i v /\ ext2_sb s' = ext2_sb s.
Proof.
  intros W Hr Hi. destruct (set_bit_spec s r bm i v (fun _ => ret tt) W Hr Hi) as (s1 & s' & E1 & E & C & Ec & _ & Es).
  exists s'. split_and!; [|done..]. unfold ext2_bitmap_set. run E1. etransitivity; [|exact E].
  unfold bind, modify, gets. by destruct (ext2_write_block bm _ _) as [s2 [[]|]].
Qed.

(** The search takes the first clear bit, and nothing else changes. *)
Lemma bitmap_alloc_spec s r bm from range : wf L s -> block_at r bm -> 0 <= from -> range <= 8 * l_bs L ->
  exists s' o, bitmap_alloc bm from range s = (s', o) /\ ext2_sb s' = ext2_sb s /\
    match o with
    | None => changed L [] s s' /\ forall i, from <= i < range -> bit_of (content L s r) i = true
    | Some i => (from <= i < range /\ bit_of (content L s r) i = false /\
                 (forall j, from <= j < i -> bit_of (content L s r) j = true)) /\
                changed L [r] s s' /\ content L s' r = put_bit (content L s r) i true
    end.
Proof.
  intros W Hr Hf Hrange. destruct (block_on_disk s r bm W Hr) as [Hb Ec]. pose proof (wf_geo L s W) as G.
  pose proof (wf_bs L s W) as Ebs. destruct (read_block_spec s bm Blk G Hb) as (s1 & E1 & T1 & B1 & _).
  unfold bitmap_alloc. run E1. rewrite bind_gets. cbn [get_buf] in B1.
  rewrite (find_index_ext _ (fun i => negb (bit_of (content L s r) i))).
  2: { intros x (k & Hk)%list_elem_of_lookup. apply drop_zrange_lookup in Hk as [_ Hx]; [|done].
       rewrite B1, Ec, (bit_buffer s bm) by (done || apply (g_blk _ G) || lia). done. }
  destruct (find_index _ _) as [k|] eqn:Ek.
  - apply find_index_Some in Ek as (x & Hx & Hp & Hlt). pose proof (drop_zrange_lookup _ _ _ _ Hf Hx) as [-> Hrg].
    destruct (set_bit_spec s r bm (from + Z.of_nat k) true (fun _ => ret (from + Z.of_nat k)) W Hr ltac:(lia))
      as (s1' & s' & E1' & E & C & Ecc & _ & Es). rewrite E1 in E1'. injection E1' as <-.
    exists s', (Some (from + Z.of_nat k)). split_and!; [exact E|exact Es|lia..|by apply negb_true_iff| |exact C|exact Ecc].
    intros j Hj. apply negb_false_iff. apply (Hlt (Z.to_nat (j - from))); [lia|].
    rewrite lookup_drop, lookup_zrange by lia. f_equal. lia.
  - apply find_index_None in Ek. exists s1, None. split_and!; [done|by destruct (to_same _ _ _ T1) as (_ & ? & _)| |].
    + by apply to_unchanged.
    + intros i Hi. rewrite Forall_lookup in Ek. apply negb_false_iff, (Ek (Z.to_nat (i - from))).
      rewrite lookup_drop, lookup_zrange by lia. f_equal. lia.
Qed.

(** ** The counts of the superblock *)
Lemma write_superblock_spec s : wf L s ->
  exists s', ext2_write_superblock s = (s', Some tt) /\ changed L [Sb] s s' /\ ext2_sb s' = ext2_sb s.
Proof.
  intros W. pose proof (wf_geo L s W) as G. pose proof (wf_len L s W) as El. pose proof (lo_len L HL) as Hl.
  unfold ext2_write_superblock.
  destruct (read_image (disk s) 2 2) as (d & -> & Ei); [lia..|]. cbn [negb].
  change (2 * 512) with 1024. set (raw := Ring.slice _ _ _).
  assert (Hw : within (image (disk s)) 1024 1024) by (repeat split; lia).
  assert (Hr : Z.of_nat (length raw) = 1024) by (by apply len_slice).
  set (raw' := wr32 (wr32 _ _ _) _ _).
  assert (Hr' : length raw' = length raw).
  { unfold raw', wr32. rewrite !Ring.length_blit; rewrite ?Ring.length_blit; cbn [length le32]; lia. }
  destruct (write_image d 2 2 raw') as (d' & -> & Ei'); [rewrite ?Ei; lia..|]. rewrite Ei in Ei'. change (2 * 512) with 1024 in Ei'.
  exists (s <| disk := d' |>). split; [done|]. split; [|by destruct s].
  assert (E : raw' = Ring.blit raw 12 (le32 (s_free_blocks_count (ext2_sb s)) ++ le32 (s_free_inodes_count (ext2_sb s)))).
  { unfold raw', wr32. apply aget_ext; [rewrite !Ring.length_blit; rewrite ?Ring.length_blit; cbn [length le32 app]; lia|].
    intros i Hi. rewrite !Ring.length_blit in Hi by (rewrite ?Ring.length_blit; cbn [length le32]; lia).
    rewrite !Ring.aget_blit by (rewrite ?Ring.length_blit; cbn [length le32 app]; lia).
    change (length (le32 _)) with 4%nat. change (length (le32 _ ++ le32 _)) with 8%nat.
    destruct (decide (16 <= i < 16 + Z.of_nat 4)).
    - rewrite decide_True by lia. assert (i = 16 \/ i = 17 \/ i = 18 \/ i = 19) as [-> | [-> | [-> | ->]]] by lia; done.
    - destruct (decide (12 <= i < 12 + Z.of_nat 4)); [|by rewrite decide_False by lia]. rewrite decide_True by lia.
      assert (i = 12 \/ i = 13 \/ i = 14 \/ i = 15) as [-> | [-> | [-> | ->]]] by lia; done. }
  rewrite E in Ei'. unfold raw in Ei'. rewrite blit_rmw in Ei' by (done || (cbn [length le32 app]; lia)).
  destruct (to_changed L HL s (s <| disk := d' |>) Sb
    (le32 (s_free_blocks_count (ext2_sb s)) ++ le32 (s_free_inodes_count (ext2_sb s))) W) as [C _]; [done..| | |done| |exact C].
  - apply bytes_app. auto.
  - done.
  - exists d', (ext2_blkbuf s), (ext2_indbuf s). split; [by destruct s|]. split; [exact Ei'|].
    by destruct G as [_ _ _ _ _ ? ? _ _ [? ?]].
Qed.

(** Counting in memory and writing the counts back. *)
Lemma count_wf s sb : wf L s -> s_inodes_count sb = l_inodes L -> s_blocks_count sb = l_blocks L ->
  changed L [] s (s <| ext2_sb := sb |>).
Proof.
  intros W Ei Eb. split; [|by destruct s|done]. destruct W as [[] ? ? ? ? _ ?].
  constructor; [constructor|..]; done.
Qed.
End Alloc.
End Ext2Alloc.
