(* ===== verification/Ext2Free.v ===== *)
(** The free blocks of an ext2 image as a list: allocation takes its head and
    freeing puts a block back, while inodes are numbered differently by the
    allocator and by everything else. *)
From S2P Require Import Prelude Ring Bytes Ext2 Ext2Blocks Ext2Layout Ext2Alloc.

Module Ext2Free.
Import Bytes Ext2 Ext2Blocks Ext2Layout Ext2Alloc.

(** ** Filters over an interval *)
Lemma filter_none {A} (P : A -> Prop) `{forall x, Decision (P x)} (l : list A) : (forall x, x ∈ l -> ~ P x) -> filter P l = [].
Proof.
  induction l as [|x l IH]; intros Hn; [done|]. rewrite filter_cons_False by (apply Hn; by left).
  apply IH. intros y Hy. apply Hn. by right.
Qed.

Lemma filter_every {A} (P : A -> Prop) `{forall x, Decision (P x)} (l : list A) : (forall x, x ∈ l -> P x) -> filter P l = l.
Proof.
  induction l as [|x l IH]; intros Hn; [done|]. rewrite filter_cons_True by (apply Hn; by left).
  f_equal. apply IH. intros y Hy. apply Hn. by right.
Qed.

Lemma filter_first (P : Z -> Prop) `{forall x, Decision (P x)} n x :
  0 <= x < Z.of_nat n -> P x -> (forall y, 0 <= y < x -> ~ P y) ->
  exists tl, filter P (zrange n) = x :: tl.
Proof.
  intros Hx HP Hlt. exists (filter P (drop (S (Z.to_nat x)) (zrange n))).
  rewrite <- (take_drop_middle (zrange n) (Z.to_nat x) x) at 1 by (rewrite lookup_zrange; [f_equal|]; lia).
  rewrite filter_app, filter_cons_True by done. rewrite filter_none; [done|].
  intros y (k & Hk)%list_elem_of_lookup. apply lookup_take_Some in Hk as [Hk Hl].
  rewrite lookup_zrange in Hk by (apply lookup_lt_Some in Hk; by rewrite length_zrange in Hk). injection Hk as <-.
  apply Hlt. lia.
Qed.

Lemma filter_ext_in {A} (P Q : A -> Prop) `{forall x, Decision (P x)} `{forall x, Decision (Q x)} (l : list A) :
  (forall x, x ∈ l -> P x <-> Q x) -> filter P l = filter Q l.
Proof.
  induction l as [|x l IH]; intros E; [done|]. rewrite !filter_cons. rewrite IH by (intros y Hy; apply E; by right).
  pose proof (E x ltac:(left)). by repeat case_decide; try tauto.
Qed.

Lemma filter_remove (P Q : Z -> Prop) `{forall x, Decision (P x)} `{forall x, Decision (Q x)} (l : list Z) x tl :
  NoDup l -> filter P l = x :: tl -> (forall y, y ∈ l -> Q y <-> P y /\ y <> x) -> filter Q l = tl.
Proof.
  intros Hl E HQ. pose proof (NoDup_filter P _ Hl) as Hn. rewrite E in Hn. apply NoDup_cons in Hn as [Hx _].
  assert (E2 : filter Q l = filter (fun y => y <> x) (filter P l)).
  { rewrite list_filter_filter. apply filter_ext_in. intros y Hy. rewrite HQ by done. tauto. }
  rewrite E2, E, filter_cons_False by naive_solver. apply filter_every. naive_solver.
Qed.

Lemma filter_add (P Q : Z -> Prop) `{forall x, Decision (P x)} `{forall x, Decision (Q x)} (l : list Z) x :
  NoDup l -> x ∈ l -> ~ P x -> (forall y, y ∈ l -> Q y <-> P y \/ y = x) -> filter Q l ≡ₚ x :: filter P l.
Proof.
  intros Hl Hx HP HQ. apply NoDup_Permutation.
  - by apply NoDup_filter.
  - apply NoDup_cons. split; [|by apply NoDup_filter]. by rewrite list_elem_of_filter; intros [? _].
  - intros y. rewrite elem_of_cons, !list_elem_of_filter. naive_solver.
Qed.

Lemma bind_cons_inv {A B} (f : A -> list B) l b rest : l ≫= f = b :: rest ->
  exists pre x post tl, l = pre ++ x :: post /\ Forall (fun y => f y = []) pre /\ f x = b :: tl /\ rest = tl ++ (post ≫= f).
Proof.
  induction l as [|x l IH]; [done|]. change ((x :: l) ≫= f) with (f x ++ (l ≫= f)). intros E.
  destruct (f x) as [|b' tl] eqn:Ex.
  - destruct (IH E) as (pre & y & post & tl & -> & Hp & Hy & ->). exists (x :: pre), y, post, tl. by repeat constructor.
  - injection E as -> <-. exists [], x, l, tl. by repeat constructor.
Qed.

Lemma bind_nil_pre {A B} (f : A -> list B) l : Forall (fun y => f y = []) l -> l ≫= f = [].
Proof. induction 1 as [|x l Hx Hl IH]; [done|]. change (f x ++ (l ≫= f) = []). by rewrite Hx, IH. Qed.

Lemma bind_ext_in {A B} (f f' : A -> list B) l : (forall x, x ∈ l -> f x = f' x) -> l ≫= f = l ≫= f'.
Proof.
  induction l as [|x l IH]; intros E; [done|]. change (f x ++ (l ≫= f) = f' x ++ (l ≫= f')).
  rewrite (E x) by left. f_equal. apply IH. intros y Hy. apply E. by right.
Qed.

Lemma len_bind_le {A B} (f : A -> list B) l n : (forall x, x ∈ l -> (length (f x) <= n)%nat) -> (length (l ≫= f) <= length l * n)%nat.
Proof.
  induction l as [|x l IH]; intros Hf; [done|]. change ((x :: l) ≫= f) with (f x ++ (l ≫= f)).
  rewrite length_app. pose proof (Hf x ltac:(left)). cbn [length]. specialize (IH ltac:(intros; apply Hf; by right)). lia.
Qed.

Lemma groups_small n p l : 0 < p <= 8 * l_bs l -> layout_ok l -> 0 <= n -> n * l_bs l <= l_len l ->
  u32 (n + p - 1) = n + p - 1.
Proof.
  intros Hp HL Hn Hle. apply u32_small. pose proof (lo_bs l HL). pose proof (lo_len l HL). nia.
Qed.

Section Free.
  Variable L : layout.
  Hypothesis HL : layout_ok L.
  Hypothesis HG : l_blocks L <= l_groups L * l_bpg L.
  Context {D : Type} {BD : BlockDev D} {BSp : BlockSpec D}.

(** The groups that hold blocks. *)
Definition block_groups : list Z := groups_of (l_blocks L) (l_bpg L).
Definition block_range (g : Z) : Z := group_range (l_blocks L) (l_bpg L) g.

(** The free blocks of a group, by their place in it, and of the image. *)
Definition group_free (s : fs D) (g : Z) : list Z :=
    filter (fun i => bit_of (content L s (BBm g)) i = false) (zrange (Z.to_nat (block_range g))).
Definition free_blocks (s : fs D) : list Z :=
    block_groups ≫= (fun g => Z.add (g * l_bpg L) <$> group_free s g).

(** The counts are those of the bitmaps, and a free block is a data block, not
    the first one of its group. *)
Record free_ok (s : fs D) : Prop := {
  fo_group g : g ∈ block_groups -> bg_free_blocks_count (gd_of L s g) = Z.of_nat (length (group_free s g));
  fo_sb : s_free_blocks_count (ext2_sb s) = Z.of_nat (length (free_blocks s));
  fo_data b : b ∈ free_blocks s -> l_data L b /\ b mod l_bpg L <> 0
}.

Lemma block_group g : g ∈ block_groups -> 0 <= g < l_groups L /\ g * l_bpg L < l_blocks L.
Proof.
  unfold block_groups, groups_of. pose proof (lo_bpg L HL). pose proof (lo_blocks L HL) as [? ?].
  rewrite (groups_small _ _ L) by (done || lia). intros Hg%elem_of_zrange.
  assert (g < (l_blocks L + l_bpg L - 1) / l_bpg L) as Hlt by lia.
  assert (g * l_bpg L < l_blocks L).
  { pose proof (Z.div_le_lower_bound (l_blocks L + l_bpg L - 1) (l_bpg L) (g + 1) ltac:(lia)).
    pose proof (Z.mul_div_le (l_blocks L + l_bpg L - 1) (l_bpg L) ltac:(lia)). nia. }
  split; [|done]. split; [lia|nia].
Qed.

Lemma group_of_block b : 0 <= b < l_blocks L -> b / l_bpg L ∈ block_groups.
Proof.
  intros Hb. unfold block_groups, groups_of. pose proof (lo_bpg L HL). pose proof (lo_blocks L HL) as [? ?].
  rewrite (groups_small _ _ L) by (done || lia). apply elem_of_zrange.
  assert (0 <= b / l_bpg L) by (apply Z.div_pos; lia).
  assert (b / l_bpg L + 1 <= (l_blocks L + l_bpg L - 1) / l_bpg L); [|lia].
  apply Z.div_le_lower_bound; [lia|]. pose proof (Z.mul_div_le b (l_bpg L) ltac:(lia)). lia.
Qed.

Lemma block_range_val g : g ∈ block_groups -> block_range g = Z.min (l_bpg L) (l_blocks L - g * l_bpg L).
Proof.
  intros Hg. destruct (block_group g Hg) as [H1 H2]. unfold block_range, group_range.
  pose proof (lo_bpg L HL). pose proof (lo_blocks L HL) as [? ?]. pose proof (lo_bs L HL). pose proof (lo_len L HL).
  rewrite u32_small by nia. cbv zeta. case_match; lia.
Qed.

Lemma bbm_at g : g ∈ block_groups -> block_at L (BBm g) (l_bbm L g).
Proof. intros Hg. destruct (block_group g Hg) as [Hv _]. destruct (lo_groups L HL g Hv) as (? & _). done. Qed.

Lemma group_free_kept rs s s' g : changed L rs s s' -> g ∈ block_groups -> BBm g ∉ rs -> group_free s' g = group_free s g.
Proof. intros C Hg Hn. unfold group_free. by rewrite (ch_rest _ _ _ _ C) by (done || by apply block_group). Qed.

Lemma gd_of_kept rs s s' g : changed L rs s s' -> 0 <= g < l_groups L -> Gd g ∉ rs -> gd_of L s' g = gd_of L s g.
Proof. intros C Hg Hn. unfold gd_of. by rewrite (ch_rest _ _ _ _ C). Qed.

Lemma gdesc_ok_blocks gd v : gdesc_ok gd -> gdesc_ok (gd <| bg_free_blocks_count := u16 v |>).
Proof.
  intros [H32 H16 Hb]. split; [done| |done]. cbn [bg_free_blocks_count bg_free_inodes_count bg_used_dirs_count bg_pad] in *.
  rewrite Forall_cons in H16 |- *. split; [by apply Z.mod_pos_bound|apply H16].
Qed.

(** Group [g] has lost the free block [i]. *)
Record took (g i : Z) (s s' : fs D) : Prop := {
  tk_ch : changed L [BBm g; Gd g; Sb] s s';
  tk_bits : content L s' (BBm g) = put_bit (content L s (BBm g)) i true;
  tk_gd : bg_free_blocks_count (gd_of L s' g) = u16 (bg_free_blocks_count (gd_of L s g) - 1);
  tk_sb : s_free_blocks_count (ext2_sb s') = u32 (s_free_blocks_count (ext2_sb s) - 1)
}.

Lemma alloc_skip s g gs : wf L s -> g ∈ block_groups ->
  bg_free_blocks_count (gd_of L s g) = 0 ->
  exists s', alloc_block_in (g :: gs) s = alloc_block_in gs s' /\ changed L [] s s' /\ ext2_sb s' = ext2_sb s.
Proof.
  intros W Hg E. destruct (block_group g Hg) as [Hv _]. destruct (read_gdesc_spec L HL s g W Hv) as (s1 & E1 & C1 & _ & B1).
  exists s1. split_and!; [|done..]. cbn [alloc_block_in]. run (attempt_run _ _ _ _ E1). by rewrite E.
Qed.

(** Counting in a group: descriptor, memory, superblock. *)
Lemma count_out s g gd (f : fs D -> fs D) (h : ext2_superblock_t -> ext2_superblock_t) :
  wf L s -> 0 <= g < l_groups L -> gdesc_ok gd ->
  bg_block_bitmap gd = l_bbm L g /\ bg_inode_bitmap gd = l_ibm L g /\ bg_inode_table gd = l_itab L g ->
  (forall s, f s = s <| ext2_sb := h (ext2_sb s) |>) ->
  (forall sb, s_inodes_count (h sb) = s_inodes_count sb /\ s_blocks_count (h sb) = s_blocks_count sb) ->
  exists s', bind (ext2_write_gdesc g gd) (fun _ => bind (modify f) (fun _ => attempt ext2_write_superblock)) s = (s', Some (Some tt)) /\
    changed L [Gd g; Sb] s s' /\ gd_of L s' g = gd /\ ext2_sb s' = h (ext2_sb s).
Proof.
  intros W Hv Hok Hn Hf Hh. destruct (write_gdesc_spec L HL s g gd W Hv Hok Hn) as (s1 & E1 & C1 & G1 & _ & B1).
  run E1. rewrite bind_modify. pose proof (ch_wf _ _ _ _ C1) as W1. destruct (wf_sb L s1 W1) as [Ei Eb].
  destruct (Hh (ext2_sb s1)) as [Hhi Hhb]. set (s2 := f s1).
  assert (C2 : changed L [] s1 s2) by (unfold s2; rewrite Hf; apply count_wf; [done|congruence..]).
  destruct (write_superblock_spec L HL s2 (ch_wf _ _ _ _ C2)) as (s3 & E3 & C3 & B3).
  exists s3. split_and!; [by apply attempt_run| | |].
  - apply (changed_trans L [Gd g] [Sb] s s1 s3); [done|]. apply (changed_trans L [] [Sb] s1 s2 s3); done.
  - rewrite (gd_of_kept [Sb] s2 s3) by (done || not_in). rewrite (gd_of_kept [] s1 s2) by (done || not_in). by rewrite G1.
  - rewrite B3. unfold s2. rewrite Hf. cbn. by rewrite B1.
Qed.

(** The count of free blocks moves by [k]. *)
Lemma count_blocks_out s g gd k : wf L s -> g ∈ block_groups -> gd = gd_of L s g ->
  exists s', bind (ext2_write_gdesc g (gd <| bg_free_blocks_count := u16 (bg_free_blocks_count gd + k) |>)) (fun _ =>
      bind (modify (count_free_block k)) (fun _ => attempt ext2_write_superblock)) s = (s', Some (Some tt)) /\
    changed L [Gd g; Sb] s s' /\
    bg_free_blocks_count (gd_of L s' g) = u16 (bg_free_blocks_count (gd_of L s g) + k) /\
    s_free_blocks_count (ext2_sb s') = u32 (s_free_blocks_count (ext2_sb s) + k).
Proof.
  intros W Hg ->. destruct (block_group g Hg) as [Hv _].
  destruct (count_out s g (gd_of L s g <| bg_free_blocks_count := u16 (bg_free_blocks_count (gd_of L s g) + k) |>) (count_free_block k)
    (fun sb => sb <| s_free_blocks_count := u32 (s_free_blocks_count sb + k) |>) W Hv) as (s' & E & C & Eg & Es);
    [by apply gdesc_ok_blocks, gd_of_ok|cbn; by apply (wf_gd L s W)|done|done|].
  exists s'. split_and!; [done|done|by rewrite Eg|by rewrite Es].
Qed.

Lemma alloc_take s g gs i tl : wf L s -> g ∈ block_groups -> group_free s g = i :: tl -> i <> 0 ->
  bg_free_blocks_count (gd_of L s g) <> 0 ->
  exists s', alloc_block_in (g :: gs) s = (s', Some (g * l_bpg L + i)) /\ took g i s s'.
Proof.
  intros W Hg Ef Hi Hc. destruct (block_group g Hg) as [Hv _]. pose proof (bbm_at g Hg) as Hat.
  destruct (read_gdesc_spec L HL s g W Hv) as (s1 & E1 & C1 & _ & B1). pose proof (ch_wf _ _ _ _ C1) as W1.
  cbn [alloc_block_in]. run (attempt_run _ _ _ _ E1). rewrite (proj2 (Z.eqb_neq _ 0) Hc), bind_gets.
  destruct (wf_sb L s1 W1) as [_ Eb]. rewrite Eb, (wf_bpg L s1 W1). change (group_range _ _ g) with (block_range g).
  unfold ext2_block_bitmap_alloc. destruct (wf_gd L s W g Hv) as (-> & _).
  pose proof (block_range_val g Hg) as Hr. pose proof (lo_bpg L HL). destruct (block_group g Hg) as [_ Hlt].
  destruct (bitmap_alloc_spec L HL s1 _ _ 0 (block_range g) W1 Hat ltac:(lia) ltac:(lia)) as (s2 & o & E2 & B2 & Ho).
  assert (Ec : content L s1 (BBm g) = content L s (BBm g)) by (apply (ch_rest _ _ _ _ C1); [done|not_in]).
  rewrite Ec in Ho. assert (Hin : i ∈ group_free s g) by (rewrite Ef; left).
  apply list_elem_of_filter in Hin as [Hbit Hir%elem_of_zrange].
  assert (o = Some i) as ->.
  { destruct o as [j|].
    - destruct Ho as ((Hj & Hjb & Hjf) & _). destruct (filter_first (fun i => bit_of (content L s (BBm g)) i = false)
        (Z.to_nat (block_range g)) j) as [tl' E']; [lia|done| |].
      + intros y Hy Hyb. rewrite (Hjf y) in Hyb by lia. done.
      + unfold group_free in Ef. rewrite Ef in E'. by injection E' as -> _.
    - destruct Ho as [_ Ho]. rewrite (Ho i) in Hbit by lia. done. }
  destruct Ho as (_ & C2 & Ec2). run (attempt_run _ _ _ _ E2). pose proof (ch_wf _ _ _ _ C2) as W2.
  assert (Eg1 : gd_of L s1 g = gd_of L s g) by (apply (gd_of_kept _ _ _ _ C1); [done|not_in]).
  assert (Eg2 : gd_of L s2 g = gd_of L s g) by (rewrite <- Eg1; apply (gd_of_kept _ _ _ _ C2); [done|not_in]).
  destruct (count_blocks_out s2 g (gd_of L s g) (-1) W2 Hg ltac:(done)) as (s3 & E3 & C3 & G3 & B3).
  exists s3. split.
  - destruct i as [|i|i]; [done|..|lia].
    rewrite (bind_run3 _ _ _ _ _ _ _ E3), bind_gets. by rewrite (wf_bpg L s3 (ch_wf _ _ _ _ C3)).
  - split.
    + eapply changed_sub; [eapply changed_trans; [exact C1|]; eapply changed_trans; [exact C2|exact C3]|set_solver].
    + rewrite (ch_rest _ _ _ _ C3 (BBm g) Hv ltac:(not_in)). done.
    + by rewrite G3, Eg2.
    + by rewrite B3, B2, B1.
Qed.

Lemma alloc_pre s pre gs : wf L s -> pre ⊆ block_groups ->
  Forall (fun g => bg_free_blocks_count (gd_of L s g) = 0) pre ->
  exists s', alloc_block_in (pre ++ gs) s = alloc_block_in gs s' /\ changed L [] s s' /\ ext2_sb s' = ext2_sb s.
Proof.
  revert s. induction pre as [|g pre IH]; intros s W Hs Hp.
  { exists s. split_and!; [done| |done]. by split. }
  apply Forall_cons in Hp as [Hg Hp]. destruct (alloc_skip s g (pre ++ gs) W (Hs g ltac:(left)) Hg) as (s1 & E1 & C1 & B1).
  assert (Hs' : pre ⊆ block_groups) by set_solver.
  destruct (IH s1 (ch_wf _ _ _ _ C1) Hs') as (s2 & E2 & C2 & B2).
  - rewrite Forall_forall in Hp |- *. intros g' Hg'. rewrite (gd_of_kept [] s s1); [by apply Hp|done| |set_solver].
    by apply block_group, Hs'.
  - exists s2. split_and!; [simpl app; by rewrite E1|by apply (changed_trans L [] [] s s1 s2)|by rewrite B2].
Qed.

Lemma group_bits s g v i y : wf L s -> g ∈ block_groups -> i ∈ zrange (Z.to_nat (block_range g)) ->
  y ∈ zrange (Z.to_nat (block_range g)) ->
  bit_of (put_bit (content L s (BBm g)) i v) y = if decide (i = y) then v else bit_of (content L s (BBm g)) y.
Proof.
  intros W Hg Hi%elem_of_zrange Hy%elem_of_zrange. pose proof (block_range_val g Hg). pose proof (lo_bpg L HL).
  apply bit_put; apply (content_bits L HL s _ _ _ W (bbm_at g Hg)); lia.
Qed.

Lemma took_group g i tl s s' : g ∈ block_groups -> wf L s -> took g i s s' -> group_free s g = i :: tl -> group_free s' g = tl.
Proof.
  intros Hg W T Ef. assert (Hin : i ∈ group_free s g) by (rewrite Ef; left). apply list_elem_of_filter in Hin as [_ Hi].
  unfold group_free. rewrite (tk_bits _ _ _ _ T).
  eapply filter_remove; [apply NoDup_zrange|exact Ef|]. intros y Hy. rewrite group_bits by done. case_decide; naive_solver.
Qed.

Lemma free_blocks_kept rs s s' : changed L rs s s' -> (forall g, BBm g ∉ rs) -> free_blocks s' = free_blocks s.
Proof.
  intros C Hn. apply bind_ext_in. intros g Hg. by rewrite (group_free_kept rs s s').
Qed.

Lemma len_group_free s g : g ∈ block_groups -> (length (group_free s g) <= Z.to_nat (l_bpg L))%nat.
Proof.
  intros Hg. pose proof (length_filter (fun i => bit_of (content L s (BBm g)) i = false) (zrange (Z.to_nat (block_range g)))) as Hle.
  rewrite length_zrange in Hle. pose proof (block_range_val g Hg). pose proof (block_group g Hg). unfold group_free. lia.
Qed.

Lemma len_free_blocks s : Z.of_nat (length (free_blocks s)) < 2 ^ 32.
Proof.
  pose proof (lo_bpg L HL) as Hp. pose proof (lo_bs L HL) as Hbs. pose proof (lo_len L HL). pose proof (lo_blocks L HL).
  pose proof (len_bind_le (fun g => Z.add (g * l_bpg L) <$> group_free s g) block_groups (Z.to_nat (l_bpg L))) as Hle.
  assert (Hn : Z.of_nat (length block_groups) * l_bpg L <= l_blocks L + l_bpg L - 1).
  { unfold block_groups, groups_of. rewrite (groups_small _ _ L), length_zrange by (done || lia).
    rewrite Z2Nat.id by (apply Z.div_pos; lia). rewrite Z.mul_comm. apply Z.mul_div_le. lia. }
  unfold free_blocks. specialize (Hle ltac:(intros g Hg; cbv beta; rewrite length_fmap; by apply len_group_free)). nia.
Qed.

(** Only group [g] has other free blocks; its count and the image's follow. *)
Lemma free_ok_step s s' g k :
  wf L s -> free_ok s -> g ∈ block_groups -> changed L [BBm g; Gd g; Sb] s s' ->
  Z.of_nat (length (group_free s' g)) = Z.of_nat (length (group_free s g)) + k ->
  Z.of_nat (length (free_blocks s')) = Z.of_nat (length (free_blocks s)) + k ->
  bg_free_blocks_count (gd_of L s' g) = u16 (bg_free_blocks_count (gd_of L s g) + k) ->
  s_free_blocks_count (ext2_sb s') = u32 (s_free_blocks_count (ext2_sb s) + k) ->
  (forall b, b ∈ free_blocks s' -> l_data L b /\ b mod l_bpg L <> 0) -> free_ok s'.
Proof.
  intros W [Fg Fs Fd] Hg C Eg El Ec Es Hd.
  split; [|rewrite Es, Fs, El; apply u32_small; pose proof (len_free_blocks s'); lia|done].
  intros g' Hg'. destruct (decide (g' = g)) as [->|Hne].
  - rewrite Ec, Fg, Eg by done. pose proof (len_group_free s' g Hg). apply u16_small.
    pose proof (lo_bpg L HL). pose proof (lo_bs L HL). lia.
  - rewrite (gd_of_kept _ _ _ _ C), (group_free_kept _ _ _ _ C) by (done || apply block_group, Hg' || not_in). by apply Fg.
Qed.

Lemma group_nil s g : (Z.add (g * l_bpg L) <$> group_free s g) = [] -> group_free s g = [].
Proof. by intros ?%fmap_nil_inv. Qed.

Lemma mem_free_blocks s b : b ∈ free_blocks s -> 0 <= b < l_blocks L.
Proof.
  intros (g & Hg' & Hg)%list_elem_of_bind. apply list_elem_of_fmap in Hg' as (i & -> & Hi).
  apply list_elem_of_filter in Hi as [_ Hi%elem_of_zrange]. pose proof (block_range_val g Hg). pose proof (block_group g Hg).
  pose proof (lo_bpg L HL). nia.
Qed.

Lemma NoDup_free_blocks s : NoDup (free_blocks s).
Proof.
  unfold free_blocks. assert (Hg : forall g, g ∈ block_groups -> g ∈ block_groups) by done. revert Hg.
  assert (Hnd : NoDup block_groups) by apply NoDup_zrange. revert Hnd. generalize block_groups at 1 2 4.
  induction l as [|g l IH]; intros Hnd Hs; [constructor|]. apply NoDup_cons in Hnd as [Hn Hnd].
  change ((g :: l) ≫= ?f) with (f g ++ (l ≫= f)). apply NoDup_app. split_and!.
  - apply NoDup_fmap_2_strong; [intros; lia|]. apply NoDup_filter, NoDup_zrange.
  - intros b (i & -> & Hi)%list_elem_of_fmap (g' & Hb & Hg')%list_elem_of_bind.
    apply list_elem_of_fmap in Hb as (i' & E & Hi'). apply list_elem_of_filter in Hi as [_ Hi%elem_of_zrange].
    apply list_elem_of_filter in Hi' as [_ Hi'%elem_of_zrange]. pose proof (block_range_val g (Hs g ltac:(left))).
    pose proof (block_range_val g' (Hs g' ltac:(by right))). pose proof (lo_bpg L HL).
    assert (g' <> g) by (intros ->; done). nia.
  - apply IH; [done|]. intros x Hx. apply Hs. by right.
Qed.

(** *** Allocation takes the first free block *)
Lemma alloc_block_some s b rest : wf L s -> free_ok s -> free_blocks s = b :: rest ->
  exists s', ext2_alloc_block s = (s', Some b) /\ changed L [BBm (b / l_bpg L); Gd (b / l_bpg L); Sb] s s' /\
    free_blocks s' = rest /\ free_ok s'.
Proof.
  intros W F Eb. assert (Hb : b ∈ free_blocks s) by (rewrite Eb; left). destruct (fo_data s F b Hb) as [Hdb Hb0].
  pose proof (mem_free_blocks s b Hb) as Hbr. unfold ext2_alloc_block. rewrite bind_gets. change (id s) with s. rewrite bind_guard.
  2: { rewrite (proj2 (Z.eqb_neq _ 0) (g_mounted s (wf_geo L s W))), (fo_sb s F), Eb. cbn. done. }
  destruct (wf_sb L s W) as [_ En]. rewrite En, (wf_bpg L s W). fold block_groups.
  pose proof Eb as Eb'. apply bind_cons_inv in Eb' as (pre & g & post & tl & Egs & Hpre & Eg & Er).
  assert (Hsub : forall g', g' ∈ pre ++ g :: post -> g' ∈ block_groups) by (by rewrite Egs).
  assert (Hg : g ∈ block_groups) by (apply Hsub; set_solver).
  destruct (group_free s g) as [|i tl'] eqn:Ef; [done|]. cbn in Eg. injection Eg as Ebi Etl.
  assert (Hi : i ∈ group_free s g) by (rewrite Ef; left).
  apply list_elem_of_filter in Hi as [_ Hi%elem_of_zrange]. pose proof (block_range_val g Hg) as Hr. pose proof (lo_bpg L HL) as Hp.
  assert (b / l_bpg L = g /\ b mod l_bpg L = i) as [Ebg Ebm].
  { rewrite <- Ebi, (Z.add_comm _ i). rewrite Z.div_add, Z.mod_add, Z.div_small, Z.mod_small by lia. lia. }
  rewrite Egs. destruct (alloc_pre s pre (g :: post) W) as (s1 & -> & C1 & B1); [set_solver| |].
  { rewrite Forall_forall in Hpre |- *. intros g' Hg'. rewrite (fo_group s F) by (apply Hsub; set_solver).
    by rewrite (group_nil s g' (Hpre g' Hg')). }
  pose proof (ch_wf _ _ _ _ C1) as W1.
  assert (Ef1 : group_free s1 g = i :: tl') by (rewrite <- Ef; apply (group_free_kept _ _ _ _ C1); [done|not_in]).
  assert (Ec1 : bg_free_blocks_count (gd_of L s1 g) = bg_free_blocks_count (gd_of L s g)).
  { f_equal. apply (gd_of_kept _ _ _ _ C1); [by apply block_group|not_in]. }
  assert (Ecnt : bg_free_blocks_count (gd_of L s g) = Z.of_nat (S (length tl'))) by (rewrite (fo_group s F g Hg), Ef; done).
  destruct (alloc_take s1 g post i tl' W1 Hg Ef1) as (s2 & E2 & T); [congruence|lia|].
  exists s2. rewrite E2, Ebi, Ebg. pose proof (took_group g i tl' s1 s2 Hg W1 T Ef1) as Et.
  assert (C : changed L [BBm g; Gd g; Sb] s s2) by (apply (changed_trans L [] [BBm g; Gd g; Sb] s s1 s2); [done|apply T]).
  assert (El : free_blocks s2 = rest).
  { assert (Hnd : NoDup (pre ++ g :: post)) by (rewrite <- Egs; apply NoDup_zrange).
    apply NoDup_app in Hnd as (_ & Hdis & Hnd). apply NoDup_cons in Hnd as [Hnin _].
    unfold free_blocks. rewrite Egs, bind_app. change ((g :: post) ≫= ?f) with (f g ++ (post ≫= f)).
    rewrite bind_nil_pre; [|rewrite Forall_forall in Hpre |- *; intros g' Hg'; rewrite (group_free_kept _ _ _ _ C)].
    - rewrite Et, Etl, Er. cbn [app]. f_equal. apply bind_ext_in. intros g' Hg'. f_equal.
      apply (group_free_kept _ _ _ _ C); [apply Hsub; set_solver|]. assert (g' <> g) by (by intros ->). not_in.
    - by apply Hpre.
    - apply Hsub. set_solver.
    - assert (g' <> g) by (intros ->; apply (Hdis g Hg'); left). not_in. }
  split_and!; [done|done|done|].
  apply (free_ok_step s s2 g (-1)); [done..| | | | |].
  - rewrite Et, Ef. cbn. lia.
  - rewrite El, Eb. cbn [length]. lia.
  - by rewrite (tk_gd _ _ _ _ T), Ec1.
  - by rewrite (tk_sb _ _ _ _ T), B1.
  - rewrite El. intros b' Hb'. apply (fo_data s F). rewrite Eb. by right.
Qed.

Lemma alloc_block_none s : wf L s -> free_ok s -> free_blocks s = [] -> ext2_alloc_block s = (s, None).
Proof.
  intros W F Eb. unfold ext2_alloc_block. rewrite bind_gets. change (id s) with s. rewrite (fo_sb s F), Eb. cbn.
  by rewrite orb_true_r.
Qed.

(** *** Freeing puts a block back *)
Lemma free_blocks_add s s' g i : g ∈ block_groups -> changed L [BBm g; Gd g; Sb] s s' ->
  group_free s' g ≡ₚ i :: group_free s g -> free_blocks s' ≡ₚ g * l_bpg L + i :: free_blocks s.
Proof.
  intros Hg C Hp. pose proof Hg as (pre & post & Egs)%list_elem_of_split.
  assert (Hsub : forall g', g' ∈ pre ++ g :: post -> g' ∈ block_groups) by (by rewrite Egs).
  assert (Hnd : NoDup (pre ++ g :: post)) by (rewrite <- Egs; apply NoDup_zrange).
  apply NoDup_app in Hnd as (_ & Hdis & Hnd). apply NoDup_cons in Hnd as [Hnin _].
  assert (Hk : forall g', g' ∈ pre \/ g' ∈ post -> group_free s' g' = group_free s g').
  { intros g' Hg'. apply (group_free_kept _ _ _ _ C); [apply Hsub; set_solver|].
    assert (g' <> g) by (intros ->; destruct Hg' as [Hx|Hx]; [apply (Hdis g Hx); left|done]). not_in. }
  unfold free_blocks. rewrite Egs, !bind_app. change ((g :: post) ≫= ?f) with (f g ++ (post ≫= f)). cbv beta.
  rewrite Hp, fmap_cons. cbn [app]. rewrite <- Permutation_middle.
  apply Permutation_cons; [done|]. match goal with |- ?x ≡ₚ ?y => cut (x = y); [by intros ->|] end. f_equal; [|f_equal].
  - apply bind_ext_in. intros g' Hg'. by rewrite Hk by tauto.
  - apply bind_ext_in. intros g' Hg'. by rewrite Hk by tauto.
Qed.

Lemma free_block_spec s b : wf L s -> free_ok s -> l_data L b -> b mod l_bpg L <> 0 -> b ∉ free_blocks s ->
  exists s', ext2_free_block b s = (s', Some tt) /\ changed L [BBm (b / l_bpg L); Gd (b / l_bpg L); Sb] s s' /\
    free_blocks s' ≡ₚ b :: free_blocks s /\ free_ok s'.
Proof.
  intros W F Hd Hb0 Hn. pose proof (lo_data L HL b Hd) as Hb. pose proof (lo_bpg L HL) as Hp.
  set (g := b / l_bpg L). set (i := b mod l_bpg L). pose proof (group_of_block b ltac:(lia)) as Hg. fold g in Hg.
  destruct (block_group g Hg) as [Hv _]. pose proof (bbm_at g Hg) as Hat. pose proof (block_range_val g Hg) as Hr.
  assert (Eb : b = g * l_bpg L + i) by (unfold g, i; rewrite (Z.div_mod b (l_bpg L)) at 1 by lia; lia).
  assert (Hi : 0 <= i < block_range g) by (pose proof (Z.mod_pos_bound b (l_bpg L) ltac:(lia)); unfold i in *; lia).
  assert (Hiz : i ∈ zrange (Z.to_nat (block_range g))) by (apply elem_of_zrange; lia).
  unfold ext2_free_block. rewrite bind_gets. change (id s) with s. rewrite bind_guard.
  2: { by rewrite (proj2 (Z.eqb_neq _ 0) (g_mounted s (wf_geo L s W))), (proj2 (Z.eqb_neq b 0)) by lia. }
  cbv zeta. rewrite (wf_bpg L s W). fold g. fold i.
  destruct (read_gdesc_spec L HL s g W Hv) as (s1 & E1 & C1 & _ & B1). run E1. pose proof (ch_wf _ _ _ _ C1) as W1.
  destruct (wf_gd L s W g Hv) as (Ebm & _). rewrite Ebm.
  destruct (bitmap_set_spec L HL s1 _ _ i false W1 Hat ltac:(lia)) as (s2 & E2 & C2 & Ec2 & B2). run E2.
  pose proof (ch_wf _ _ _ _ C2) as W2.
  assert (Eg2 : gd_of L s g = gd_of L s2 g).
  { symmetry. apply (gd_of_kept [BBm g] s s2); [apply (changed_trans L [] [BBm g] s s1 s2)| |not_in]; done. }
  destruct (count_blocks_out s2 g (gd_of L s g) 1 W2 Hg Eg2) as (s3 & E3 & C3 & G3 & B3).
  rewrite (bind_run3 _ _ _ _ _ _ _ E3). exists s3. split; [done|].
  assert (C : changed L [BBm g; Gd g; Sb] s s3).
  { apply (changed_trans L [] _ s s1 s3); [done|]. apply (changed_trans L [BBm g] [Gd g; Sb] s1 s2 s3); done. }
  assert (Ec3 : content L s3 (BBm g) = put_bit (content L s (BBm g)) i false).
  { rewrite (ch_rest _ _ _ _ C3); [|done|not_in]. rewrite Ec2. f_equal. apply (ch_rest _ _ _ _ C1); [done|not_in]. }
  assert (Hbit : bit_of (content L s (BBm g)) i <> false).
  { intros Hf. apply Hn. apply list_elem_of_bind. exists g. split; [|done]. apply list_elem_of_fmap. exists i.
    split; [lia|]. by apply list_elem_of_filter. }
  assert (Hgf : group_free s3 g ≡ₚ i :: group_free s g).
  { unfold group_free. rewrite Ec3. apply filter_add; [apply NoDup_zrange|done|done|].
    intros y Hy. rewrite group_bits by done. case_decide; naive_solver. }
  assert (Hfb : free_blocks s3 ≡ₚ b :: free_blocks s) by (rewrite Eb; by apply free_blocks_add).
  split_and!; [done|done|]. apply (free_ok_step s s3 g 1); [done..| | | | |].
  - rewrite Hgf. cbn. lia.
  - rewrite Hfb. cbn [length]. lia.
  - by rewrite G3, <- Eg2.
  - by rewrite B3, B2, B1.
  - intros b' Hb'. rewrite Hfb in Hb'. apply elem_of_cons in Hb' as [->|Hb']; [done|by apply (fo_data s F)].
Qed.
End Free.
End Ext2Free.
