(* ===== verification/Ext2File.v ===== *)
(** File contents in the ext2 driver: the block map, reading, and writing
    files that fit the direct blocks. *)
From S2P Require Import Prelude Ring Bytes Ext2 Ext2Blocks Ext2Layout Ext2Alloc Ext2Free.

Module Ext2File.
Import Bytes Ext2 Ext2Blocks Ext2Layout Ext2Alloc Ext2Free.

Section Read.
  Context {D : Type} {BD : BlockDev D} {BSp : BlockSpec D}.

(** ** The block map *)

(** Word [k] of the table in block [t]. *)
Definition word (s : fs D) (t k : Z) : Z := if t =? 0 then 0 else rd32 (block s t) (k * 4).

(** The block of a file at index [idx]: direct, through one table, or through
    two. *)
Definition file_block (s : fs D) (inode : ext2_inode_t) (idx : Z) : Z :=
    let per := ext2_blk_size s / 4 in
    if idx <? 12 then aget (i_block inode) idx
    else if idx <? 12 + per then word s (aget (i_block inode) 12) (idx - 12)
    else let j := idx - 12 - per in word s (word s (aget (i_block inode) 13) (j / per)) (j mod per).

(** The tables on the way to index [idx] are on the disk. *)
Definition mapped (s : fs D) (inode : ext2_inode_t) (idx : Z) : Prop :=
    let per := ext2_blk_size s / 4 in
    0 <= idx < 12 + per + per * per /\
    (12 <= idx < 12 + per -> on_disk s (aget (i_block inode) 12)) /\
    (12 + per <= idx -> on_disk s (aget (i_block inode) 13) /\
                        on_disk s (word s (aget (i_block inode) 13) ((idx - 12 - per) / per))).

Definition file_byte (s : fs D) (inode : ext2_inode_t) (pos : Z) : Z :=
    aget (block s (file_block s inode (pos / ext2_blk_size s))) (pos mod ext2_blk_size s).

(** Everything that only depends on the image. *)
Definition same (s s1 : fs D) : Prop := to s (image (disk s)) s1.

Lemma same_block s s1 b : same s s1 -> block s1 b = block s b.
Proof. intros T. unfold block. rewrite (to_image _ _ _ T). by destruct (to_same _ _ _ T) as (_ & _ & -> & _). Qed.

Lemma same_on_disk s s1 b : same s s1 -> on_disk s b -> on_disk s1 b.
Proof. intros T. unfold on_disk. rewrite (to_image _ _ _ T). by destruct (to_same _ _ _ T) as (_ & _ & -> & _). Qed.

Lemma same_geo s s1 : geo s -> same s s1 -> geo s1.
Proof. intros G T. by apply (to_geo _ _ _ G T); [|apply (g_image s G)]. Qed.

Lemma same_trans s s1 s2 : same s s1 -> same s1 s2 -> same s s2.
Proof. intros T T2. unfold same in *. rewrite (to_image _ _ _ T) in T2. by eapply to_trans. Qed.

Lemma same_bs s s1 : same s s1 -> ext2_blk_size s1 = ext2_blk_size s.
Proof. intros T. by destruct (to_same _ _ _ T) as (_ & _ & ? & _). Qed.

Lemma table_word_spec s t k : geo s -> on_disk s t -> 0 <= k < ext2_blk_size s / 4 ->
  exists s', table_word t k s = (s', Some (word s t k)) /\ same s s' /\ ext2_blkbuf s' = ext2_blkbuf s.
Proof.
  intros G Ht Hk. unfold table_word, word. destruct (t =? 0) eqn:E0.
  { exists s. split_and!; [done|by apply to_refl|done]. }
  destruct (read_block_spec s t Ind G Ht) as (s1 & E1 & T1 & B1 & I1 & _). run (attempt_run _ _ _ _ E1). rewrite bind_gets.
  exists s1. split_and!; [|done|by apply I1]. unfold ret. do 2 f_equal. cbn [get_buf] in B1. rewrite B1.
  pose proof (g_ind s G). pose proof (len_block s t G Ht) as Lb. pose proof (bs_facts s G).
  assert (ext2_blk_size s / 4 * 4 = ext2_blk_size s) by (destruct (g_bs s G) as [-> | [-> | ->]]; done).
  unfold rd32. by rewrite !Ring.aget_blit, !decide_True, !Z.sub_0_r by lia.
Qed.

Lemma data_block_spec s inode idx : geo s -> mapped s inode idx ->
  exists s', ext2_data_block inode idx s = (s', Some (file_block s inode idx)) /\ same s s' /\ ext2_blkbuf s' = ext2_blkbuf s.
Proof.
  intros G (Hi & H12 & H13). unfold ext2_data_block. rewrite bind_gets. unfold file_block. cbv zeta in *.
  set (per := ext2_blk_size s / 4) in *.
  assert (Hper : 0 < per) by (unfold per; destruct (g_bs s G) as [-> | [-> | ->]]; done).
  destruct (idx <? 12) eqn:E; [exists s; split_and!; [done|by apply to_refl|done]|].
  apply Z.ltb_ge in E. destruct (idx - 12 <? per) eqn:E2.
  { apply Z.ltb_lt in E2. rewrite (proj2 (Z.ltb_lt idx _)) by lia. apply table_word_spec; [done|apply H12; lia|lia]. }
  apply Z.ltb_ge in E2. rewrite (proj2 (Z.ltb_ge idx _)) by lia. destruct (H13 ltac:(lia)) as [Ht Hw].
  set (j := idx - 12 - per) in *. assert (Hj : 0 <= j < per * per) by lia.
  assert (Hq : 0 <= j / per < per) by (split; [apply Z.div_pos; lia|apply Z.div_lt_upper_bound; lia]).
  rewrite (proj2 (Z.leb_gt per (j / per))) by lia.
  destruct (table_word_spec s _ (j / per) G Ht Hq) as (s1 & E1 & T1 & B1). run E1.
  pose proof (Z.mod_pos_bound j per Hper) as Hm.
  destruct (table_word_spec s1 _ (j mod per) (same_geo _ _ G T1) (same_on_disk _ _ _ T1 Hw)) as (s2 & E2' & T2 & B2).
  { by rewrite (same_bs _ _ T1). }
  exists s2. split_and!; [|by eapply same_trans|by rewrite B2].
  rewrite E2'. do 2 f_equal. unfold word at 1 3. by rewrite (same_block _ _ _ T1).
Qed.

(** ** Reading *)

(** The bytes of a file from [pos] on. *)
Definition file_bytes (s : fs D) (inode : ext2_inode_t) (pos n : Z) : list Z :=
    (fun i => file_byte s inode (pos + i)) <$> zrange (Z.to_nat n).

(** The bytes from [pos] on are there. *)
Definition present (s : fs D) (inode : ext2_inode_t) (pos n : Z) : Prop :=
    forall p, pos <= p < pos + n -> mapped s inode (p / ext2_blk_size s) /\
      file_block s inode (p / ext2_blk_size s) <> 0 /\ on_disk s (file_block s inode (p / ext2_blk_size s)).

Lemma zrange_add n m : zrange (n + m) = zrange n ++ (Z.add (Z.of_nat n) <$> zrange m).
Proof.
  unfold zrange. rewrite seq_app, fmap_app. f_equal.
  replace (seq (0 + n) m) with (Nat.add n <$> seq 0 m) by (rewrite fmap_add_seq; f_equal; lia). rewrite <- !list_fmap_compose.
  apply list_fmap_ext. intros i x _. cbn. lia.
Qed.

Lemma file_bytes_add s inode pos n m : 0 <= n -> 0 <= m ->
  file_bytes s inode pos (n + m) = file_bytes s inode pos n ++ file_bytes s inode (pos + n) m.
Proof.
  intros Hn Hm. unfold file_bytes. rewrite Z2Nat.inj_add, zrange_add, fmap_app by done. f_equal.
  rewrite <- list_fmap_compose. apply list_fmap_ext. intros i x _. cbn. rewrite Z2Nat.id by done. f_equal. lia.
Qed.

Lemma len_file_bytes s inode pos n : 0 <= n -> Z.of_nat (length (file_bytes s inode pos n)) = n.
Proof. intros Hn. unfold file_bytes. rewrite length_fmap, length_zrange. lia. Qed.

(** A piece of one block. *)
Lemma file_bytes_block s inode pos n : geo s -> 0 <= pos -> 0 <= n -> pos mod ext2_blk_size s + n <= ext2_blk_size s ->
  on_disk s (file_block s inode (pos / ext2_blk_size s)) ->
  file_bytes s inode pos n = Ring.slice (block s (file_block s inode (pos / ext2_blk_size s))) (pos mod ext2_blk_size s) n.
Proof.
  intros G Hp Hn Hle Hb. pose proof (bs_facts s G) as [Hbs _]. pose proof (len_block s _ G Hb) as Lb.
  pose proof (Z.mod_pos_bound pos (ext2_blk_size s) ltac:(lia)) as Hm.
  apply aget_ext.
  { rewrite Ring.length_slice by lia. unfold file_bytes. by rewrite length_fmap, length_zrange. }
  intros i Hi. rewrite len_file_bytes in Hi by done. rewrite aget_slice by (repeat split; lia).
  unfold file_bytes. rewrite aget_fmap by (rewrite length_zrange; lia).
  assert (aget (zrange (Z.to_nat n)) i = i) as ->.
  { rewrite <- (Z2Nat.id i) at 1 by lia. apply aget_lookup. rewrite lookup_zrange by lia. f_equal. lia. }
  assert (E : (pos + i) / ext2_blk_size s = pos / ext2_blk_size s /\ (pos + i) mod ext2_blk_size s = pos mod ext2_blk_size s + i).
  { pose proof (Z.div_mod pos (ext2_blk_size s) ltac:(lia)) as Hd.
    apply Z.div_mod_unique with (ext2_blk_size s); [left; apply Z.mod_pos_bound; lia|lia|]. rewrite <- Z.div_mod by lia. lia. }
  unfold file_byte. by destruct E as [-> ->].
Qed.

Lemma same_file s s1 inode idx : same s s1 -> file_block s1 inode idx = file_block s inode idx.
Proof. intros T. unfold file_block, word. by rewrite !(same_block s s1), (same_bs s s1) by done. Qed.

Lemma same_mapped s s1 inode idx : same s s1 -> mapped s inode idx -> mapped s1 inode idx.
Proof.
  intros T. unfold mapped, word. rewrite !(same_block s s1 _ T), (same_bs s s1 T). intros (? & H12 & H13).
  split; [done|]. split; [intros; apply (same_on_disk s s1); auto|]. intros Hle. destruct (H13 Hle). split; by eapply same_on_disk.
Qed.

Lemma same_file_bytes s s1 inode pos n : same s s1 -> file_bytes s1 inode pos n = file_bytes s inode pos n.
Proof.
  intros T. apply list_fmap_ext. intros i p _. unfold file_byte.
  by rewrite (same_file s s1), (same_block s s1), (same_bs s s1).
Qed.

Lemma same_present s s1 inode pos n : same s s1 -> present s inode pos n -> present s1 inode pos n.
Proof.
  intros T Hp p Hr. destruct (Hp p Hr) as (H1 & H2 & H3). rewrite (same_bs s s1), (same_file s s1) by done.
  split_and!; [by eapply same_mapped|done|by eapply same_on_disk].
Qed.

(** The next round: the block of [cur] and the room left in it. *)
Lemma block_room s cur : geo s ->
  let bs := ext2_blk_size s in 0 < bs /\ 0 <= cur mod bs < bs /\ (cur + (bs - cur mod bs)) / bs = cur / bs + 1.
Proof.
  intros G. pose proof (bs_facts s G) as [Hbs _]. cbv zeta. pose proof (Z.mod_pos_bound cur (ext2_blk_size s) ltac:(lia)).
  split_and!; [lia..|]. pose proof (Z.div_mod cur (ext2_blk_size s) ltac:(lia)) as Hd.
  symmetry. apply Z.div_unique with 0; lia.
Qed.

Lemma file_read_loop fuel inode offset size s acc :
  let copied := Z.of_nat (length acc) in
  geo s -> 0 <= offset -> offset + size < 2 ^ 32 -> copied <= size ->
  present s inode (offset + copied) (size - copied) ->
  (copied < size -> (offset + size - 1) / ext2_blk_size s - (offset + copied) / ext2_blk_size s + 1 <= Z.of_nat fuel) ->
  exists s', read_loop fuel inode offset size acc s = (s', Some (acc ++ file_bytes s inode (offset + copied) (size - copied))) /\
    same s s'.
Proof.
  revert s acc. induction fuel as [|fuel IH]; intros s acc copied G H0 Hsz Hc Hp Hf.
  { assert (Hcs : copied = size).
    { destruct (decide (copied = size)) as [|Hne]; [done|]. specialize (Hf ltac:(lia)).
      pose proof (bs_facts s G). pose proof (Z.div_le_mono (offset + copied) (offset + size - 1) (ext2_blk_size s)). lia. }
    exists s. rewrite Hcs, Z.sub_diag. change (file_bytes s inode (offset + size) 0) with (@nil Z). rewrite app_nil_r.
    split; [done|by apply to_refl]. }
  cbn [read_loop]. fold copied. destruct (size <=? copied) eqn:E.
  { apply Z.leb_le in E. exists s. replace (size - copied) with 0 by lia.
    change (file_bytes s inode (offset + copied) 0) with (@nil Z). rewrite app_nil_r. split; [done|by apply to_refl]. }
  apply Z.leb_gt in E. specialize (Hf E). rewrite bind_gets. set (cur := offset + copied) in *.
  rewrite u32_small by (unfold cur; lia). destruct (block_room s cur G) as (Hbs & Hm & Hnext). set (bs := ext2_blk_size s) in *.
  destruct (Hp cur ltac:(lia)) as (Hmap & Hnz & Hod). fold bs in Hmap, Hnz, Hod.
  destruct (data_block_spec s inode (cur / bs) G Hmap) as (s1 & E1 & T1 & _). run E1.
  rewrite (proj2 (Z.eqb_neq _ 0) Hnz). pose proof (same_geo _ _ G T1) as G1.
  pose proof (same_on_disk _ _ _ T1 Hod) as Hod1.
  destruct (read_block_spec s1 _ Blk G1 Hod1) as (s2 & E2 & T2 & B2 & _). run (attempt_run _ _ _ _ E2). rewrite bind_gets.
  set (chunk := if size - copied <? bs - cur mod bs then size - copied else bs - cur mod bs).
  assert (Hch : 0 < chunk <= size - copied /\ chunk <= bs - cur mod bs) by (unfold chunk; case_match; lia).
  assert (T : same s s2) by (by eapply same_trans).
  assert (Ebuf : Ring.slice (ext2_blkbuf s2) (cur mod bs) chunk = file_bytes s inode cur chunk).
  { rewrite (file_bytes_block s) by (done || (fold bs; lia) || (unfold cur; lia)). fold bs. cbn [get_buf] in B2. rewrite B2.
    rewrite buf_part by (done || exact (g_blk s1 G1) || (rewrite ?(same_bs s s1 T1); fold bs; lia)).
    rewrite <- (same_block s s1 _ T1). unfold block. rewrite slice_slice; [done|..].
    - by apply within_block.
    - lia.
    - lia.
    - rewrite (same_bs s s1 T1). fold bs. lia. }
  rewrite Ebuf. set (acc' := acc ++ file_bytes s inode cur chunk).
  assert (El : Z.of_nat (length acc') = copied + chunk) by (unfold acc'; rewrite length_app, Nat2Z.inj_add, len_file_bytes by lia; done).
  assert (Hlast : copied + chunk < size -> (offset + (copied + chunk)) / bs = cur / bs + 1).
  { intros Hlt. assert (chunk = bs - cur mod bs) as -> by (unfold chunk in *; destruct (size - copied <? bs - cur mod bs); lia).
    rewrite <- Hnext. f_equal. unfold cur. lia. }
  destruct (IH s2 acc' (same_geo _ _ G T) H0 Hsz) as (s3 & E3 & T3).
  - lia.
  - rewrite El. apply (same_present s s2); [done|]. intros p Hpp. apply Hp. unfold cur. lia.
  - rewrite El, (same_bs s s2 T). fold bs. intros Hlt. rewrite (Hlast Hlt). lia.
  - exists s3. split; [|by eapply same_trans]. rewrite E3, El. do 2 f_equal. unfold acc'. rewrite <- app_assoc. f_equal.
    rewrite (same_file_bytes s s2) by done. replace (size - copied) with (chunk + (size - (copied + chunk))) by lia.
    rewrite file_bytes_add by lia. do 2 f_equal. unfold cur. lia.
Qed.
End Read.

Section File.
  Variable L : layout.
  Hypothesis HL : layout_ok L.
  Context {D : Type} {BD : BlockDev D} {BSp : BlockSpec D}.

(** How much of a request lies in the file. *)
Definition readable (inode : ext2_inode_t) (offset size : Z) : Z := Z.max 0 (Z.min size (i_size inode - offset)).

Lemma read_file_spec s ino offset size : wf L s -> valid L (Ino ino) ->
  let inode := inode_of L s ino in
  is_data_file inode = true -> 0 <= offset -> 0 <= size ->
  present s inode offset (readable inode offset size) ->
  exists s', ext2_read_file ino offset size s = (s', Some (file_bytes s inode offset (readable inode offset size))) /\
    same s s'.
Proof.
  intros W Hi inode Hd H0 Hs Hp. pose proof (inode_of_ok L HL s ino W Hi) as Hok. fold inode in Hok.
  pose proof (io_32 _ Hok) as H32. rewrite !Forall_cons in H32. destruct H32 as [Hsz _].
  unfold ext2_read_file. rewrite bind_gets, bind_guard.
  2: { by rewrite (proj2 (Z.eqb_neq _ 0) (g_mounted s (wf_geo L s W))). }
  destruct (read_inode_to L HL s ino W Hi) as (s1 & E1 & T1 & _). run E1. fold inode. rewrite bind_guard by done.
  pose proof (wf_geo L s W) as G. unfold readable in *. destruct (i_size inode <=? offset) eqn:E.
  { apply Z.leb_le in E. exists s1. rewrite Z.max_l by lia. done. }
  apply Z.leb_gt in E. rewrite bind_gets, (same_bs s s1 T1). set (sz := if i_size inode - offset <? size then _ else _).
  assert (Esz : Z.max 0 (Z.min size (i_size inode - offset)) = sz) by (unfold sz; case_match; lia).
  rewrite Esz in *. assert (Hsz0 : 0 <= sz <= i_size inode - offset) by lia.
  pose proof (bs_facts s G) as [Hbs _]. set (bs := ext2_blk_size s) in *.
  destruct (file_read_loop (Z.to_nat (sz / bs + 2)) inode offset sz s1 []) as (s2 & E2 & T2).
  - by eapply same_geo.
  - done.
  - lia.
  - cbn. lia.
  - cbn [length]. rewrite Z.add_0_r, Z.sub_0_r. by eapply same_present.
  - cbn [length]. rewrite Z.add_0_r, (same_bs s s1 T1). fold bs. intros Hlt.
    pose proof (Z.div_pos sz bs ltac:(lia) ltac:(lia)). rewrite Z2Nat.id by lia.
    assert ((offset + sz - 1) / bs < offset / bs + sz / bs + 2); [|lia].
    apply Z.div_lt_upper_bound; [lia|]. pose proof (Z.mul_succ_div_gt offset bs ltac:(lia)).
    pose proof (Z.mul_succ_div_gt sz bs ltac:(lia)). nia.
  - exists s2. rewrite E2. split; [|by eapply same_trans]. cbn [length app]. rewrite Z.add_0_r, Z.sub_0_r.
    by rewrite (same_file_bytes s s1) by done.
Qed.
End File.
End Ext2File.
