(* ===== verification/Ext2Write.v ===== *)
(** Writing files of direct blocks in the ext2 driver: where the bytes go, and
    that reading gives them back. *)
From S2P Require Import Prelude Ring Bytes Ext2 Ext2Blocks Ext2Layout Ext2Alloc Ext2Free Ext2File.

Module Ext2Write.
Import Bytes Ext2 Ext2Blocks Ext2Layout Ext2Alloc Ext2Free Ext2File.

(** The part of block [b] that a write of [len] bytes at [offset] covers. *)
Section Chunk.
  Context (bs offset len b : Z).
Definition chunk_lo : Z := if b =? offset / bs then offset mod bs else 0.
Definition chunk_hi : Z := if b =? (offset + len - 1) / bs then (offset + len - 1) mod bs + 1 else bs.

Lemma chunk_facts : 0 < bs -> 0 <= offset -> 0 < len -> offset / bs <= b <= (offset + len - 1) / bs ->
    0 <= chunk_lo /\ chunk_lo <= chunk_hi /\ chunk_hi <= bs /\ 0 <= b * bs + chunk_lo - offset /\
    b * bs + chunk_lo - offset + (chunk_hi - chunk_lo) <= len /\
    (forall x, 0 <= x < bs -> chunk_lo <= x < chunk_hi <-> offset <= b * bs + x < offset + len).
Proof.
  intros Hbs H0 Hl Hb. unfold chunk_lo, chunk_hi.
  pose proof (Z.div_mod offset bs ltac:(lia)) as Ho. pose proof (Z.mod_pos_bound offset bs Hbs) as Hom.
  pose proof (Z.div_mod (offset + len - 1) bs ltac:(lia)) as He. pose proof (Z.mod_pos_bound (offset + len - 1) bs Hbs) as Hem.
  set (f := offset / bs) in *. set (l := (offset + len - 1) / bs) in *.
  assert (Hf : b <> f -> f * bs + bs <= b * bs) by nia. assert (Hll : b <> l -> b * bs + bs <= l * bs) by nia.
  destruct (b =? f) eqn:E1; [apply Z.eqb_eq in E1; rewrite E1 in *|apply Z.eqb_neq in E1; specialize (Hf E1)];
    (destruct (_ =? l) eqn:E2; [apply Z.eqb_eq in E2|apply Z.eqb_neq in E2; specialize (Hll E2)]); split_and!; try nia;
    intros x Hx; split; nia.
Qed.
End Chunk.

Section Write.
  Variable L : layout.
  Hypothesis HL : layout_ok L.
  Hypothesis HG : l_blocks L <= l_groups L * l_bpg L.
  Context {D : Type} {BD : BlockDev D} {BSp : BlockSpec D}.

#[local] Abbreviation frees := (free_blocks L).
#[local] Abbreviation blk inode k := (aget (i_block inode) k).

(** A file that fits its direct blocks and owns them. *)
Record small (s : fs D) (inode : ext2_inode_t) : Prop := {
  sm_ok : inode_ok inode;
  sm_ind : blk inode 12 = 0 /\ blk inode 13 = 0;
  sm_own k : 0 <= k < 12 -> blk inode k <> 0 -> l_data L (blk inode k) /\ blk inode k ∉ frees s;
  sm_inj j k : 0 <= j < 12 -> 0 <= k < 12 -> blk inode j <> 0 -> blk inode j = blk inode k -> j = k
}.

(** Regions that hold no file's data and no inode. *)
Definition meta (r : region) : Prop := match r with Data _ | Ino _ => False | _ => True end.

(** Besides [rs], only such regions changed. *)
Record wrote (rs : list region) (s s' : fs D) : Prop := {
  wr_wf : wf L s';
  wr_kept : kept s s';
  wr_rest r : valid L r -> ~ meta r -> r ∉ rs -> content L s' r = content L s r
}.

Lemma changed_wrote rs rs' s s' : changed L rs s s' -> (forall r, r ∈ rs -> meta r \/ r ∈ rs') -> wrote rs' s s'.
Proof. intros [W K R] Hs. split; [done..|]. intros r Hv Hm Hn. apply R; [done|]. intros Hr. destruct (Hs r Hr); tauto. Qed.

Lemma wrote_trans rs rs' s s1 s2 : wrote rs s s1 -> wrote rs' s1 s2 -> wrote (rs ++ rs') s s2.
Proof.
  intros [W K R] [W' K' R']. split; [done| |].
  - unfold kept in *. destruct_and!. split_and!; congruence.
  - intros r Hr Hm Hn. rewrite elem_of_app in Hn. rewrite R' by tauto. apply R; tauto.
Qed.

Lemma data_at b : l_data L b -> block_at L (Data b) b.
Proof. intros Hd. pose proof (lo_data L HL b Hd). repeat split; [done|lia|done]. Qed.

Lemma data_block_content s b : wf L s -> l_data L b -> block s b = content L s (Data b).
Proof. intros W Hd. symmetry. apply (block_on_disk L HL s (Data b) b W). by apply data_at. Qed.

(** Data and inodes do not carry the free lists. *)
Lemma free_ok_kept rs s s' : changed L rs s s' -> (forall r, r ∈ rs -> ~ meta r) -> ext2_sb s' = ext2_sb s ->
  free_ok L s -> free_ok L s' /\ frees s' = frees s.
Proof.
  intros C Hn Es [Fg Fs Fd].
  assert (Hb : forall g, BBm g ∉ rs) by (intros g Hr; exact (Hn _ Hr I)).
  assert (Hgd : forall g, Gd g ∉ rs) by (intros g Hr; exact (Hn _ Hr I)).
  assert (E : frees s' = frees s) by (by apply (free_blocks_kept L HL HG rs)).
  split; [|done]. split; rewrite ?E, ?Es; [|done|done]. intros g Hg.
  rewrite (gd_of_kept L rs s s' g C (proj1 (block_group L HL HG g Hg)) (Hgd g)).
  rewrite (group_free_kept L HL HG rs s s' g C Hg (Hb g)). by apply Fg.
Qed.

(** *** A block for an index *)
Lemma block_set b nb inode : i_block (set_block b nb inode) = aset (i_block inode) b nb.
Proof. done. Qed.

Lemma aget_set_block b nb inode k : inode_ok inode -> 0 <= b < 15 -> 0 <= k ->
  blk (set_block b nb inode) k = if decide (b = k) then nb else blk inode k.
Proof. intros Hok Hb Hk. rewrite block_set. apply aget_aset; [|done]. rewrite (io_len _ Hok). lia. Qed.

Lemma set_block_ok b nb inode : inode_ok inode -> 0 <= nb < 2 ^ 32 -> inode_ok (set_block b nb inode).
Proof.
  intros [? ? ? ? ?] Hn. split; rewrite ?block_set; try done.
  - by rewrite length_aset.
  - by apply Forall_aset.
Qed.

Lemma data_u32 b : l_data L b -> 0 <= b < 2 ^ 32.
Proof.
  intros Hd. pose proof (lo_data L HL b Hd). pose proof (lo_blocks L HL). pose proof (lo_len L HL). pose proof (lo_bs L HL). nia.
Qed.

Lemma ensure_block_spec s inode b : wf L s -> free_ok L s -> small s inode -> 0 <= b < 12 ->
  (blk inode b = 0 -> frees s <> []) ->
  exists s' nb, ensure_block inode b s = (s', Some (set_block b nb inode, nb)) /\ l_data L nb /\
    wrote [] s s' /\ free_ok L s' /\ small s' (set_block b nb inode) /\
    ((blk inode b = nb /\ frees s' = frees s) \/ (blk inode b = 0 /\ frees s = nb :: frees s')).
Proof.
  intros W F S Hb Hf. pose proof (sm_ok _ _ S) as Hok. unfold ensure_block. rewrite bind_gets, (proj2 (Z.ltb_lt b 12)) by lia.
  destruct (blk inode b =? 0) eqn:E.
  - apply Z.eqb_eq in E. destruct (frees s) as [|nb rest] eqn:Ef; [by destruct (Hf E)|].
    destruct (alloc_block_some L HL HG s nb rest W F Ef) as (s1 & E1 & C1 & Ef1 & F1). run E1.
    assert (Hin : nb ∈ frees s) by (rewrite Ef; left). destruct (fo_data L s F nb Hin) as [Hd _].
    exists s1, nb. pose proof (lo_data L HL nb Hd) as Hnb.
    assert (Hsub : forall x, x ∉ frees s -> x ∉ frees s1) by (rewrite Ef, Ef1; intros x Hx Hr; apply Hx; by right).
    assert (Hnot : nb ∉ frees s1).
    { assert (NoDup (frees s)) as Hnd by (by apply (NoDup_free_blocks L HL HG)). rewrite Ef in Hnd. rewrite Ef1. by apply NoDup_cons in Hnd as [? _]. }
    split_and!; [done|done| |done| |by right; rewrite Ef1].
    + apply (changed_wrote _ _ _ _ C1). intros r Hr. left. repeat (apply elem_of_cons in Hr as [->|Hr]; [done|]). by apply elem_of_nil in Hr.
    + split; [apply set_block_ok; [done|by apply data_u32]|..].
      * rewrite !aget_set_block, !decide_False by (done || lia). apply S.
      * intros k Hk. rewrite aget_set_block by (done || lia). case_decide; [done|].
        intros Hz. destruct (sm_own _ _ S k Hk Hz). auto.
      * intros j k Hj Hk. rewrite !aget_set_block by (done || lia).
        do 2 case_decide; subst; [done| | |by apply S].
        -- intros Hz Ek. destruct (sm_own _ _ S k Hk) as [_ Hk']; [congruence|]. by rewrite <- Ek in Hk'.
        -- intros Hz Ej. destruct (sm_own _ _ S j Hj Hz) as [_ Hj']. by rewrite Ej in Hj'.
  - apply Z.eqb_neq in E. exists s, (blk inode b). destruct (sm_own _ _ S b Hb E) as [Hd _].
    assert (Es : set_block b (blk inode b) inode = inode) by (unfold set_block; rewrite aset_id; by destruct inode).
    rewrite Es. split_and!; [done|done| |done|done|by left]. by split.
Qed.

Lemma small_kept s s' inode : frees s' = frees s -> small s inode -> small s' inode.
Proof. intros E []. split; rewrite ?E; done. Qed.

Lemma bs_pos : 1024 <= l_bs L <= 4096.
Proof. pose proof (lo_bs L HL). lia. Qed.

(** *** One block of a write *)
Section Data.
  Context (offset : Z) (data : list Z).
  Hypothesis (H0 : 0 <= offset) (Hlen : 0 < Z.of_nat (length data)) (Hsz : offset + Z.of_nat (length data) <= 12 * l_bs L).
  Hypothesis Hby : bytes_ok data.

#[local] Abbreviation len := (Z.of_nat (length data)).
#[local] Abbreviation lo b := (chunk_lo (l_bs L) offset b).
#[local] Abbreviation hi b := (chunk_hi (l_bs L) offset len b).

Definition piece (b : Z) : list Z := Ring.slice data (b * l_bs L + lo b - offset) (hi b - lo b).

Definition touched (b : Z) : Prop := offset / l_bs L <= b <= (offset + len - 1) / l_bs L.

Lemma touched_small b : touched b -> 0 <= b < 12.
Proof.
  intros [Hb1 Hb2]. pose proof bs_pos. pose proof (Z.div_pos offset (l_bs L) ltac:(lia) ltac:(lia)).
  assert ((offset + len - 1) / l_bs L < 12) by (apply Z.div_lt_upper_bound; lia). lia.
Qed.

Lemma piece_facts b : touched b ->
  0 <= lo b /\ lo b <= hi b /\ hi b <= l_bs L /\ Z.of_nat (length (piece b)) = hi b - lo b /\
  (forall x, 0 <= x < l_bs L -> lo b <= x < hi b <-> offset <= b * l_bs L + x < offset + len) /\
  (forall x, lo b <= x < hi b -> aget (piece b) (x - lo b) = aget data (b * l_bs L + x - offset)).
Proof.
  intros Hb. pose proof bs_pos. destruct (chunk_facts (l_bs L) offset len b) as (F1 & F2 & F3 & F4 & F5 & F6); [lia|done..|].
  assert (Hw : within data (b * l_bs L + lo b - offset) (hi b - lo b)) by (repeat split; lia).
  split_and!; [done..|by apply len_slice|done|]. intros x Hx. unfold piece. rewrite aget_slice by (done || lia). f_equal. lia.
Qed.

Lemma part_spec m s0 s inode b : m s0 = (s, Some inode) -> wf L s -> free_ok L s -> small s inode -> touched b ->
  (blk inode b = 0 -> frees s <> []) ->
  exists s' nb, write_block_part offset data m b s0 = (s', Some (set_block b nb inode)) /\ l_data L nb /\
    wrote [Data nb] s s' /\ free_ok L s' /\ small s' (set_block b nb inode) /\
    content L s' (Data nb) = Ring.blit (content L s (Data nb)) (lo b) (piece b) /\
    ((blk inode b = nb /\ frees s' = frees s) \/ (blk inode b = 0 /\ frees s = nb :: frees s')).
Proof.
  intros Em W F S Hb Hf. pose proof bs_pos as Hbs. pose proof (touched_small b Hb) as Hb12.
  destruct (piece_facts b Hb) as (F1 & F2 & F3 & F4 & _ & _).
  destruct (ensure_block_spec s inode b W F S Hb12 Hf) as (s1 & nb & E1 & Hd & C1 & F1' & S1 & Hor).
  pose proof (wr_wf _ _ _ C1) as W1. unfold write_block_part. run Em. rewrite bind_gets, (wf_bs L s W). cbv zeta. run E1.
  cbn [fst snd]. rewrite (u32_small (offset + len)) by lia. rewrite (u32_small (offset + len - 1)) by lia.
  change (if b =? offset / l_bs L then offset mod l_bs L else 0) with (lo b).
  change (if b =? (offset + len - 1) / l_bs L then (offset + len - 1) mod l_bs L + 1 else l_bs L) with (hi b).
  destruct (chunk_facts (l_bs L) offset len b) as (_ & _ & _ & G4 & G5 & _); [lia|done..|].
  rewrite (u32_small (b * l_bs L + lo b - offset)) by lia.
  change (Ring.slice data _ _) with (piece b).
  assert (Hpb : bytes_ok (piece b)) by (by apply bytes_slice).
  destruct (region_rmw L HL s1 (Data nb) nb (lo b) (piece b) (fun _ => ret (set_block b nb inode)) W1 (data_at nb Hd) Hpb F1)
    as (s2 & E2 & C2 & Ec2 & _ & B2); [lia|].
  destruct (free_ok_kept _ _ _ C2) as [F2' Ef2]; [|done|done|].
  { intros r Hr. apply elem_of_cons in Hr as [->|Hr]; [by intros []|by apply elem_of_nil in Hr]. }
  exists s2, nb. split_and!; [exact E2|done| |done|by eapply small_kept| |by rewrite Ef2].
  - apply (wrote_trans [] [Data nb] s s1 s2); [done|]. apply (changed_wrote _ _ _ _ C2). by right.
  - rewrite Ec2. f_equal. apply (wr_rest _ _ _ C1); [done|by intros []|not_in].
Qed.

(** *** The blocks of a write so far *)
#[local] Abbreviation first := (offset / l_bs L).

(** The byte at [pos] of a small file. *)
Definition byte (s : fs D) (inode : ext2_inode_t) (pos : Z) : Z :=
    aget (content L s (Data (blk inode (pos / l_bs L)))) (pos mod l_bs L).

(** [n] blocks of the write are done. *)
Record progress (s : fs D) (inode : ext2_inode_t) (n : nat) (s' : fs D) (inode' : ext2_inode_t) : Prop := {
  pg_wf : wf L s';
  pg_free : free_ok L s';
  pg_small : small s' inode';
  pg_kept : kept s s';
  pg_inode : inode' = inode <| i_block := i_block inode' |>;
  pg_avail : (length (frees s) <= length (frees s') + n)%nat;
  pg_sub : frees s' ⊆ frees s;
  pg_done k : first <= k < first + Z.of_nat n -> blk inode' k <> 0;
  pg_old k : 0 <= k < 12 -> blk inode' k = blk inode k \/ (blk inode k = 0 /\ blk inode' k ∈ frees s);
  pg_new pos : offset <= pos < offset + len -> pos / l_bs L < first + Z.of_nat n -> byte s' inode' pos = aget data (pos - offset);
  pg_keep pos : 0 <= pos < 12 * l_bs L -> blk inode (pos / l_bs L) <> 0 ->
    ~ (offset <= pos < offset + len /\ pos / l_bs L < first + Z.of_nat n) -> byte s' inode' pos = byte s inode pos;
  pg_rest r : valid L r -> ~ meta r ->
    (forall b, r = Data b -> (b ∉ frees s) /\ (forall k, 0 <= k < 12 -> blk inode k <> b)) -> content L s' r = content L s r
}.

Lemma progress_start s inode : wf L s -> free_ok L s -> small s inode -> progress s inode 0 s inode.
Proof.
  intros W F S. split; [done..|by split_and!|by destruct inode|lia|done|lia|by left| |done|done].
  intros pos Hp Hq. pose proof bs_pos. pose proof (Z.div_le_mono offset pos (l_bs L)). lia.
Qed.

(** The bytes after one more block. *)
Lemma part_byte s1 i1 s2 nb b pos : wf L s1 -> wf L s2 -> small s2 (set_block b nb i1) -> inode_ok i1 -> l_data L nb ->
  wrote [Data nb] s1 s2 -> touched b -> content L s2 (Data nb) = Ring.blit (content L s1 (Data nb)) (lo b) (piece b) ->
  0 <= pos < 12 * l_bs L -> (pos / l_bs L = b \/ blk i1 (pos / l_bs L) <> 0) -> (forall k, 0 <= k < 12 -> blk i1 k <> 0 -> l_data L (blk i1 k)) ->
  byte s2 (set_block b nb i1) pos =
    (if decide (pos / l_bs L = b)
     then if decide (offset <= pos < offset + len) then aget data (pos - offset)
          else aget (content L s1 (Data nb)) (pos mod l_bs L)
     else byte s1 i1 pos).
Proof.
  intros W1 W2 S2 Hok Hd C Hb Ec Hp Hnz Hown. pose proof bs_pos as Hbs. pose proof (touched_small b Hb) as Hb12.
  pose proof (Z.mod_pos_bound pos (l_bs L) ltac:(lia)) as Hm. pose proof (Z.div_mod pos (l_bs L) ltac:(lia)) as Hdm.
  assert (Hq : 0 <= pos / l_bs L < 12) by (split; [apply Z.div_pos; lia|apply Z.div_lt_upper_bound; lia]).
  unfold byte. rewrite aget_set_block by (done || lia). destruct (decide (pos / l_bs L = b)) as [Eq|Hne].
  - rewrite decide_True by done. rewrite Ec. destruct (piece_facts b Hb) as (F1 & F2 & F3 & F4 & F5 & F6).
    pose proof (len_content L HL s1 (Data nb) W1 Hd) as El. cbn [place snd] in El.
    assert (Epos : pos = b * l_bs L + pos mod l_bs L) by (rewrite <- Eq; lia).
    rewrite Ring.aget_blit by lia. rewrite F4. specialize (F5 (pos mod l_bs L) Hm). rewrite <- Epos in F5.
    replace (lo b + (hi b - lo b)) with (hi b) by lia. destruct (decide (offset <= pos < offset + len)) as [Hin|Hout].
    + rewrite decide_True by tauto. rewrite F6 by tauto. f_equal. lia.
    + rewrite decide_False by tauto. done.
  - rewrite decide_False by done. destruct Hnz as [Hnz|Hnz]; [done|]. f_equal. apply (wr_rest _ _ _ C).
    + by apply Hown.
    + by intros [].
    + assert (blk i1 (pos / l_bs L) <> nb); [|not_in]. intros E. apply Hne. symmetry.
      apply (sm_inj _ _ S2); rewrite ?aget_set_block by (done || lia); rewrite ?decide_True, ?decide_False by done; [lia|lia|congruence|done].
Qed.

Lemma progress_step s inode n s1 i1 m s0 : small s inode -> progress s inode n s1 i1 -> m s0 = (s1, Some i1) ->
  touched (first + Z.of_nat n) -> (n < length (frees s))%nat ->
  exists s2 i2, write_block_part offset data m (first + Z.of_nat n) s0 = (s2, Some i2) /\ progress s inode (S n) s2 i2.
Proof.
  intros S0 P Em Hb Hn. set (b := first + Z.of_nat n) in *. pose proof (pg_small _ _ _ _ _ P) as S1.
  pose proof (touched_small b Hb) as Hb12. pose proof (sm_ok _ _ S1) as Hok.
  destruct (part_spec m s0 s1 i1 b Em (pg_wf _ _ _ _ _ P) (pg_free _ _ _ _ _ P) S1 Hb) as (s2 & nb & E & Hd & C & F2 & S2 & Ec & Hor).
  { intros _ Hnil. pose proof (pg_avail _ _ _ _ _ P) as Ha. rewrite Hnil in Ha. cbn in Ha. lia. }
  exists s2, (set_block b nb i1). split; [done|].
  assert (Hnb : nb <> 0) by (pose proof (lo_data L HL nb Hd); lia).
  assert (Hown : forall k, 0 <= k < 12 -> blk i1 k <> 0 -> l_data L (blk i1 k)) by (intros; by apply (sm_own _ _ S1)).
  assert (Hsub : frees s2 ⊆ frees s1) by (destruct Hor as [[_ ->]|[_ ->]]; set_solver).
  assert (Hfrom : blk inode b = nb \/ (blk inode b = 0 /\ nb ∈ frees s)).
  { destruct Hor as [[E1 _]|[E1 Ef]].
    - destruct (pg_old _ _ _ _ _ P b Hb12) as [Eo|[Eo Hin]]; [left; congruence|right]. split; [done|congruence].
    - right. destruct (pg_old _ _ _ _ _ P b Hb12) as [Eo|[Eo Hin]].
      + split; [congruence|]. apply (pg_sub _ _ _ _ _ P). rewrite Ef. left.
      + destruct (fo_data L s1 (pg_free _ _ _ _ _ P) nb) as [_ _]; [rewrite Ef; left|]. split; [done|].
        apply (pg_sub _ _ _ _ _ P). rewrite Ef. left. }
  pose proof (fun pos Hp Hq => part_byte s1 i1 s2 nb b pos (pg_wf _ _ _ _ _ P) (wr_wf _ _ _ C) S2 Hok Hd C Hb Ec Hp Hq Hown) as Hbyte.
  split; [apply (wr_wf _ _ _ C)|done|done|..].
  - pose proof (pg_kept _ _ _ _ _ P) as K1. pose proof (wr_kept _ _ _ C) as K2. unfold kept in *. destruct_and!. split_and!; congruence.
  - rewrite (pg_inode _ _ _ _ _ P) at 1. done.
  - pose proof (pg_avail _ _ _ _ _ P). destruct Hor as [[_ ->]|[_ E1]]; [lia|]. rewrite E1 in *. cbn in *. lia.
  - etransitivity; [exact Hsub|apply (pg_sub _ _ _ _ _ P)].
  - intros k Hk. assert (0 <= k < 12) by (pose proof (touched_small b Hb); pose proof (Z.div_pos offset (l_bs L)); pose proof bs_pos; lia).
    rewrite aget_set_block by (done || lia). case_decide; [done|]. apply (pg_done _ _ _ _ _ P). lia.
  - intros k Hk. rewrite aget_set_block by (done || lia). case_decide; [subst k|by apply (pg_old _ _ _ _ _ P)].
    destruct Hfrom as [E1|?]; [by left|by right].
  - intros pos Hp Hq. destruct (decide (pos / l_bs L = b)) as [Eq|Hne].
    + rewrite Hbyte by (lia || by left). by rewrite !decide_True.
    + pose proof bs_pos. pose proof (Z.div_le_mono offset pos (l_bs L)).
      assert (blk i1 (pos / l_bs L) <> 0) by (apply (pg_done _ _ _ _ _ P); lia).
      rewrite Hbyte by (lia || by right). rewrite decide_False by done. apply (pg_new _ _ _ _ _ P); lia.
  - intros pos Hp Hz Hn'. assert (Hq : 0 <= pos / l_bs L < 12).
    { pose proof bs_pos. split; [apply Z.div_pos; lia|apply Z.div_lt_upper_bound; lia]. }
    assert (Ek : blk i1 (pos / l_bs L) = blk inode (pos / l_bs L)) by (destruct (pg_old _ _ _ _ _ P _ Hq) as [?|[? _]]; done).
    rewrite Hbyte by (done || right; congruence). destruct (decide (pos / l_bs L = b)) as [Eq|Hne].
    + rewrite decide_False by (intros ?; apply Hn'; lia).
      rewrite <- (pg_keep _ _ _ _ _ P pos Hp Hz) by lia. unfold byte. rewrite Ek.
      destruct Hor as [[E1 _]|[E1 _]]; [|by rewrite <- Eq, Ek in E1]. by rewrite <- Ek, Eq, E1.
    + apply (pg_keep _ _ _ _ _ P); [done|done|]. lia.
  - intros r Hv Hm Hr. rewrite (wr_rest _ _ _ C); [by apply (pg_rest _ _ _ _ _ P)|done|done|].
    assert (r <> Data nb); [|not_in]. intros ->. destruct (Hr nb) as [Hnf Hno]; [done|].
    destruct Hfrom as [E1|[_ E1]]; [by apply (Hno b)|done].
Qed.

(** All the blocks. *)
Lemma progress_all s inode n : wf L s -> free_ok L s -> small s inode -> (n <= length (frees s))%nat ->
  (forall k, 0 <= k < Z.of_nat n -> touched (first + k)) ->
  exists s' inode', foldl (write_block_part offset data) (ret inode) (Z.add first <$> zrange n) s = (s', Some inode') /\
    progress s inode n s' inode'.
Proof.
  intros W F S. induction n as [|n IH]; intros Hn Ht.
  { exists s, inode. split; [done|by apply progress_start]. }
  destruct IH as (s1 & i1 & E1 & P1); [lia|intros; apply Ht; lia|].
  destruct (progress_step s inode n s1 i1 _ _ S P1 E1) as (s2 & i2 & E2 & P2); [apply Ht; lia|lia|].
  exists s2, i2. split; [|done]. rewrite zrange_S, fmap_app, foldl_app. exact E2.
Qed.

Lemma count_small s inode : small s inode ->
  exists n, ext2_count_blocks inode s = (s, Some (u32 n)).
Proof.
  intros S. destruct (sm_ind _ _ S) as [E12 E13]. unfold ext2_count_blocks, bind, gets, ret. rewrite E12, E13. cbn [Z.eqb].
  by eexists.
Qed.

(** A range of a small file is there when its blocks are. *)
Lemma small_block s inode pos : wf L s -> small s inode -> 0 <= pos < 12 * l_bs L -> blk inode (pos / l_bs L) <> 0 ->
  mapped s inode (pos / ext2_blk_size s) /\ file_block s inode (pos / ext2_blk_size s) = blk inode (pos / l_bs L) /\
  on_disk s (blk inode (pos / l_bs L)) /\ file_byte s inode pos = byte s inode pos.
Proof.
  intros W S Hp Hz. rewrite (wf_bs L s W). pose proof bs_pos as Hbs.
  assert (Hq : 0 <= pos / l_bs L < 12) by (split; [apply Z.div_pos; lia|apply Z.div_lt_upper_bound; lia]).
  assert (Hd : l_data L (blk inode (pos / l_bs L))) by (by apply (sm_own _ _ S)).
  assert (Hf : file_block s inode (pos / l_bs L) = blk inode (pos / l_bs L)).
  { unfold file_block. by rewrite (proj2 (Z.ltb_lt _ 12)) by lia. }
  destruct (block_on_disk L HL s (Data (blk inode (pos / l_bs L))) _ W (data_at _ Hd)) as [Hod Ec].
  split_and!; [|done|done|].
  - unfold mapped. rewrite (wf_bs L s W).
    assert (256 <= l_bs L / 4) by (apply Z.div_le_lower_bound; lia). split_and!; nia.
  - unfold file_byte. rewrite (wf_bs L s W), Hf. unfold byte. by rewrite Ec.
Qed.

Lemma small_present s inode : wf L s -> small s inode -> (forall k, touched k -> blk inode k <> 0) -> present s inode offset len.
Proof.
  intros W S Hk p Hp. pose proof bs_pos as Hbs.
  assert (Hz : blk inode (p / l_bs L) <> 0) by (apply Hk; split; apply Z.div_le_mono; lia).
  destruct (small_block s inode p W S ltac:(lia) Hz) as (? & -> & ? & _). done.
Qed.

Lemma small_bytes s inode : wf L s -> small s inode -> (forall k, touched k -> blk inode k <> 0) ->
  (forall pos, offset <= pos < offset + len -> byte s inode pos = aget data (pos - offset)) ->
  file_bytes s inode offset len = data.
Proof.
  intros W S Hk Hb. pose proof bs_pos as Hbs. apply aget_ext; [unfold file_bytes; rewrite length_fmap, length_zrange; lia|].
  intros i Hi. rewrite len_file_bytes in Hi by lia. unfold file_bytes. rewrite aget_fmap by (rewrite length_zrange; lia).
  assert (aget (zrange (Z.to_nat len)) i = i) as ->.
  { rewrite <- (Z2Nat.id i) at 1 by lia. apply aget_lookup. rewrite lookup_zrange by lia. f_equal. lia. }
  assert (Hz : blk inode ((offset + i) / l_bs L) <> 0) by (apply Hk; split; apply Z.div_le_mono; lia).
  destruct (small_block s inode (offset + i) W S ltac:(lia) Hz) as (_ & _ & _ & ->).
  rewrite Hb by lia. f_equal. lia.
Qed.

(** The inode a write leaves. *)
Definition written (i : ext2_inode_t) (endp t n : Z) : ext2_inode_t :=
    (if i_size i <? endp then i <| i_size := endp |> else i) <| i_mtime := t |> <| i_ctime := t |> <| i_dtime := 0 |>
      <| i_blocks := n |>.

Lemma written_facts i endp t n : inode_ok i -> 0 <= endp < 2 ^ 32 -> 0 <= t < 2 ^ 32 -> 0 <= n < 2 ^ 32 ->
  inode_ok (written i endp t n) /\ i_block (written i endp t n) = i_block i /\ i_mode (written i endp t n) = i_mode i /\
  i_size (written i endp t n) = Z.max (i_size i) endp.
Proof.
  intros [H16 H32 Hl Hb Ho] He Ht Hn. unfold written. rewrite !Forall_cons in H32. destruct_and!.
  destruct (i_size i <? endp) eqn:E; [apply Z.ltb_lt in E|apply Z.ltb_ge in E];
    (split_and!; [split; try done; repeat (apply Forall_cons; split; [done|]); done|done..|cbn; lia]).
Qed.

Lemma small_same s i i' : inode_ok i' -> i_block i' = i_block i -> small s i -> small s i'.
Proof. intros Hok E [_ Hi Ho Hj]. split; rewrite ?E; done. Qed.

(** The whole call: the data is in the file, the file's other bytes, the other
    files' data and the other inodes are kept. *)
Lemma write_file_spec s ino : wf L s -> free_ok L s -> valid L (Ino ino) ->
  let inode := inode_of L s ino in
  small s inode -> is_data_file inode = true -> 0 <= now s < 2 ^ 32 ->
  (offset + len - 1) / l_bs L - first + 1 <= Z.of_nat (length (frees s)) ->
  exists s', ext2_write_file ino offset data s = (s', Some len) /\ wf L s' /\ free_ok L s' /\
    let inode' := inode_of L s' ino in
    small s' inode' /\ is_data_file inode' = true /\ i_size inode' = Z.max (i_size inode) (offset + len) /\
    (forall k, touched k -> blk inode' k <> 0) /\
    (forall pos, offset <= pos < offset + len -> byte s' inode' pos = aget data (pos - offset)) /\
    (forall pos, 0 <= pos < 12 * l_bs L -> blk inode (pos / l_bs L) <> 0 -> ~ (offset <= pos < offset + len) ->
       byte s' inode' pos = byte s inode pos) /\
    (forall r, valid L r -> ~ meta r -> r <> Ino ino ->
      (forall b, r = Data b -> (b ∉ frees s) /\ (forall k, 0 <= k < 12 -> blk inode k <> b)) -> content L s' r = content L s r).
Proof.
  intros W F Hi inode S Ht Hnow Hfree. pose proof bs_pos as Hbs.
  pose proof (io_32 _ (sm_ok _ _ S)) as H32. rewrite !Forall_cons in H32. destruct H32 as [Hsize _].
  unfold ext2_write_file. rewrite bind_gets, bind_guard.
  2: { rewrite (proj2 (Z.eqb_neq _ 0) (g_mounted s (wf_geo L s W))), (proj2 (Z.eqb_neq len 0)) by lia. done. }
  destruct (read_inode_spec L HL s ino W Hi) as (s1 & E1 & C1 & _ & B1). run E1. fold inode. rewrite bind_guard by done.
  pose proof (ch_wf _ _ _ _ C1) as W1. rewrite bind_gets, (wf_bs L s1 W1).
  rewrite (u32_small (offset + len)) by lia. rewrite (u32_small (offset + len - 1)) by lia.
  destruct (free_ok_kept [] s s1 C1) as [F1 Ef1]; [by intros r ?%elem_of_nil|done|done|].
  assert (S1 : small s1 inode) by (by eapply small_kept).
  set (n := Z.to_nat ((offset + len - 1) / l_bs L - first + 1)).
  assert (Hn : Z.of_nat n = (offset + len - 1) / l_bs L - first + 1).
  { pose proof (Z.div_le_mono offset (offset + len - 1) (l_bs L)). unfold n. lia. }
  destruct (progress_all s1 inode n W1 F1 S1) as (s2 & i2 & E2 & P); [rewrite Ef1; lia|intros k Hk; unfold touched; lia|].
  run E2. rewrite bind_gets. pose proof (pg_wf _ _ _ _ _ P) as W2. pose proof (pg_small _ _ _ _ _ P) as S2.
  set (i3 := _ <| i_dtime := 0 |>).
  assert (Enow : now s2 = now s) by (destruct (pg_kept _ _ _ _ _ P) as (_ & _ & -> & _), (ch_kept _ _ _ _ C1) as (_ & _ & -> & _); done).
  assert (Hw : forall n, 0 <= n < 2 ^ 32 -> inode_ok (written i2 (offset + len) (now s2) n) /\ _)
    by (intros n' Hn'; apply (written_facts i2 (offset + len) (now s2) n' (sm_ok _ _ S2)); [lia|by rewrite Enow|done]).
  assert (S3 : small s2 i3).
  { destruct (Hw (i_blocks i2)) as (Hok & _).
    - pose proof (io_32 _ (sm_ok _ _ S2)) as H32. rewrite !Forall_cons in H32. by destruct_and!.
    - apply (small_same s2 i2); [|unfold i3; by destruct (_ <? _)|done]. revert Hok. unfold written, i3. by destruct i2, (_ <? _). }
  destruct (count_small s2 i3 S3) as (m & E3). run E3. set (i4 := _ <| i_blocks := u32 m |>).
  change i4 with (written i2 (offset + len) (now s2) (u32 m)). clear i4.
  destruct (Hw (u32 m) (u32_range m)) as (Hok & Eb & Em & Es). set (i4 := written _ _ _ _) in *.
  destruct (write_inode_spec L HL s2 ino i4 W2 Hi Hok) as (s3 & E4 & C4 & Ei & B4). run E4.
  destruct (free_ok_kept [Ino ino] s2 s3 C4) as [F3 Ef3]; [|done|apply (pg_free _ _ _ _ _ P)|].
  { intros r Hr. apply elem_of_cons in Hr as [->|Hr]; [by intros []|by apply elem_of_nil in Hr]. }
  exists s3. split; [done|]. split; [apply (ch_wf _ _ _ _ C4)|]. split; [done|]. cbv zeta. rewrite Ei.
  assert (S4 : small s3 i4) by (apply (small_kept s2); [done|]; apply (small_same s2 i2); done).
  assert (Ei2 : i_mode i2 = i_mode inode /\ i_size i2 = i_size inode) by (rewrite (pg_inode _ _ _ _ _ P); done).
  assert (Hbyte : forall pos, 0 <= pos < 12 * l_bs L -> blk i2 (pos / l_bs L) <> 0 -> byte s3 i4 pos = byte s2 i2 pos).
  { intros pos Hp Hz. unfold byte. rewrite Eb. f_equal. apply (ch_rest _ _ _ _ C4); [|not_in].
    apply (sm_own _ _ S2); [|done]. split; [apply Z.div_pos; lia|apply Z.div_lt_upper_bound; lia]. }
  assert (Htc : forall k, touched k -> blk i2 k <> 0) by (intros k [? ?]; apply (pg_done _ _ _ _ _ P); lia).
  split; [done|]. split; [unfold is_data_file, file_type; by rewrite Em, (proj1 Ei2)|].
  split; [by rewrite Es, (proj2 Ei2)|]. split; [by rewrite Eb|]. split_and!.
  - intros pos Hp. assert (Htp : touched (pos / l_bs L)) by (split; apply Z.div_le_mono; lia).
    rewrite Hbyte by (lia || by apply Htc). apply (pg_new _ _ _ _ _ P); [done|]. destruct Htp. lia.
  - intros pos Hp Hz Hout. assert (Hq : 0 <= pos / l_bs L < 12) by (split; [apply Z.div_pos; lia|apply Z.div_lt_upper_bound; lia]).
    rewrite Hbyte; [|done|destruct (pg_old _ _ _ _ _ P _ Hq) as [->|[? _]]; done].
    rewrite (pg_keep _ _ _ _ _ P pos Hp Hz) by tauto. unfold byte. f_equal.
    apply (ch_rest _ _ _ _ C1); [by apply (sm_own _ _ S)|not_in].
  - intros r Hv Hm Hr Hb. rewrite (ch_rest _ _ _ _ C4) by (done || not_in). rewrite <- Ef1 in Hb.
    rewrite (pg_rest _ _ _ _ _ P r Hv Hm Hb). apply (ch_rest _ _ _ _ C1); [done|not_in].
Qed.
End Data.
End Write.
End Ext2Write.
