(* ===== verification/Ext2Ino.v ===== *)
(** The inode allocator of the ext2 driver against the numbering that every
    other call uses. *)
From S2P Require Import Prelude Ring Bytes Ext2 Ext2Blocks Ext2Layout Ext2Alloc Ext2Free.

Module Ext2Ino.
Import Bytes Ext2 Ext2Blocks Ext2Layout Ext2Alloc Ext2Free.

Section Ino.
  Variable L : layout.
  Hypothesis HL : layout_ok L.
  Context {D : Type} {BD : BlockDev D} {BSp : BlockSpec D}.

(** Is inode [i] marked as used? Its bit is the one that [ext2_free_inode]
    clears. *)
Definition inode_used (s : fs D) (i : Z) : bool :=
    bit_of (content L s (IBm ((i - 1) / l_ipg L))) ((i - 1) mod l_ipg L).

(** Bit [i] of group [g] was the first clear one from bit 1 on. *)
Definition picked (s : fs D) (g i : Z) : Prop :=
    1 <= i < l_ipg L /\ bit_of (content L s (IBm g)) i = false /\
    (forall j, 1 <= j < i -> bit_of (content L s (IBm g)) j = true).

Lemma ibm_at g : 0 <= g < l_groups L -> block_at L (IBm g) (l_ibm L g).
Proof. intros Hg. by destruct (lo_groups L HL g Hg) as (_ & ? & _). Qed.

Lemma gdesc_ok_inodes gd v : gdesc_ok gd -> gdesc_ok (gd <| bg_free_inodes_count := u16 v |>).
Proof.
  intros [H32 H16 Hb]. split; [done| |done]. cbn [bg_free_blocks_count bg_free_inodes_count bg_used_dirs_count bg_pad] in *.
  rewrite !Forall_cons in H16. destruct_and!. repeat (apply Forall_cons; split; [done || apply u16_range|]). done.
Qed.

Lemma group_range_le total per g : group_range total per g <= per.
Proof. unfold group_range. cbv zeta. case_match; lia. Qed.

Lemma alloc_inode_in_picked gs s s' ino : wf L s -> Forall (fun g => 0 <= g < l_groups L) gs ->
  alloc_inode_in gs s = (s', Some ino) -> exists g i, g ∈ gs /\ ino = g * l_ipg L + i /\ picked s g i.
Proof.
  revert s. induction gs as [|g gs IH]; intros s W Hgs E; [done|]. apply Forall_cons in Hgs as [Hv Hgs].
  assert (Hnext : forall s1, changed L [] s s1 -> alloc_inode_in gs s1 = (s', Some ino) ->
    exists g0 i, g0 ∈ g :: gs /\ ino = g0 * l_ipg L + i /\ picked s g0 i).
  { intros s1 C1 E1. destruct (IH s1 (ch_wf _ _ _ _ C1) Hgs E1) as (g0 & i & Hg0 & Ei & Hp).
    exists g0, i. split; [by right|]. split; [done|]. unfold picked in *.
    rewrite <- (ch_rest _ _ _ _ C1 (IBm g0)); [done|by rewrite Forall_forall in Hgs; apply Hgs|not_in]. }
  cbn [alloc_inode_in] in E. destruct (read_gdesc_spec L HL s g W Hv) as (s1 & E1 & C1 & _ & B1).
  rewrite (bind_run _ _ _ _ _ (attempt_run _ _ _ _ E1)) in E.
  destruct (bg_free_inodes_count (gd_of L s g) =? 0); [by eapply Hnext|]. pose proof (ch_wf _ _ _ _ C1) as W1.
  rewrite bind_gets, (wf_ipg L s1 W1) in E. unfold ext2_inode_bitmap_alloc in E.
  destruct (wf_gd L s W g Hv) as (_ & Eib & _). rewrite Eib in E.
  set (range := group_range _ _ g) in E. pose proof (group_range_le (s_inodes_count (ext2_sb s1)) (l_ipg L) g) as Hr. fold range in Hr.
  pose proof (lo_ipg L HL). destruct (bitmap_alloc_spec L HL s1 (IBm g) (l_ibm L g) 1 range W1 (ibm_at g Hv)) as (s2 & o & E2 & B2 & Ho); [lia..|].
  assert (Ea : attempt (bitmap_alloc (l_ibm L g) 1 range) s1 = (s2, Some o)) by (unfold attempt; by rewrite E2).
  rewrite (bind_run _ _ _ _ _ Ea) in E.
  assert (Ec : content L s1 (IBm g) = content L s (IBm g)) by (apply (ch_rest _ _ _ _ C1); [done|not_in]).
  destruct o as [i|].
  - destruct Ho as ((Hi & Hb & Hf) & C2 & _). rewrite Ec in Hb, Hf. pose proof (ch_wf _ _ _ _ C2) as W2.
    destruct (count_out L HL s2 g (gd_of L s g <| bg_free_inodes_count := u16 (bg_free_inodes_count (gd_of L s g) - 1) |>)
      (count_free_inode (-1)) (fun sb => sb <| s_free_inodes_count := u32 (s_free_inodes_count sb + -1) |>) W2 Hv)
      as (s3 & E3 & C3 & _); [by apply gdesc_ok_inodes, gd_of_ok|by apply (wf_gd L s W)|done..|].
    rewrite (bind_run3 _ _ _ _ _ _ _ E3), bind_gets, (wf_ipg L s3 (ch_wf _ _ _ _ C3)) in E. injection E as _ <-.
    exists g, i. split; [left|]. split; [done|]. split; [lia|done].
  - apply (Hnext s2); [|done]. destruct Ho as [C2 _]. by apply (changed_trans L [] [] s s1 s2).
Qed.

(** A group with a clear bit, and a count that says so, serves the request. *)
Lemma alloc_inode_in_hit gs s g i : wf L s -> 0 <= g < l_groups L -> bg_free_inodes_count (gd_of L s g) <> 0 ->
  1 <= i < group_range (l_inodes L) (l_ipg L) g -> bit_of (content L s (IBm g)) i = false ->
  exists s' ino, alloc_inode_in (g :: gs) s = (s', Some ino).
Proof.
  intros W Hv Hc Hi Hb. cbn [alloc_inode_in]. destruct (read_gdesc_spec L HL s g W Hv) as (s1 & E1 & C1 & _ & B1).
  run (attempt_run _ _ _ _ E1). rewrite (proj2 (Z.eqb_neq _ 0) Hc). pose proof (ch_wf _ _ _ _ C1) as W1.
  rewrite bind_gets, (wf_ipg L s1 W1). destruct (wf_sb L s1 W1) as [-> _]. unfold ext2_inode_bitmap_alloc.
  destruct (wf_gd L s W g Hv) as (_ & -> & _). set (range := group_range _ _ g) in *.
  pose proof (group_range_le (l_inodes L) (l_ipg L) g) as Hr. fold range in Hr. pose proof (lo_ipg L HL).
  destruct (bitmap_alloc_spec L HL s1 (IBm g) (l_ibm L g) 1 range W1 (ibm_at g Hv)) as (s2 & o & E2 & B2 & Ho); [lia..|].
  assert (Ec : content L s1 (IBm g) = content L s (IBm g)) by (apply (ch_rest _ _ _ _ C1); [done|not_in]).
  destruct o as [j|]; [|destruct Ho as [_ Ho]; by rewrite Ec, (Ho i Hi) in Hb || (rewrite Ec in Ho; by rewrite (Ho i Hi) in Hb)].
  destruct Ho as (_ & C2 & _). pose proof (ch_wf _ _ _ _ C2) as W2. run (attempt_run _ _ _ _ E2).
  destruct (count_out L HL s2 g (gd_of L s g <| bg_free_inodes_count := u16 (bg_free_inodes_count (gd_of L s g) - 1) |>)
    (count_free_inode (-1)) (fun sb => sb <| s_free_inodes_count := u32 (s_free_inodes_count sb + -1) |>) W2 Hv)
    as (s3 & E3 & C3 & _); [by apply gdesc_ok_inodes, gd_of_ok|by apply (wf_gd L s W)|done..|].
  rewrite (bind_run3 _ _ _ _ _ _ _ E3), bind_gets. by do 2 eexists.
Qed.

(** The groups of inodes. *)
Lemma inode_groups : 0 <= l_inodes L -> Forall (fun g => 0 <= g < l_groups L) (groups_of (l_inodes L) (l_ipg L)).
Proof.
  intros Hn. pose proof (lo_ipg L HL). pose proof (lo_inodes L HL). apply Forall_forall. intros g Hg%elem_of_zrange.
  assert (Hu : u32 (l_inodes L + l_ipg L - 1) <= l_inodes L + l_ipg L - 1) by (apply Z.mod_le; lia).
  pose proof (Z.div_le_mono _ _ (l_ipg L) ltac:(lia) Hu) as Hle. split; [lia|].
  assert (g + 1 <= (l_inodes L + l_ipg L - 1) / l_ipg L) by lia.
  pose proof (Z.mul_div_le (l_inodes L + l_ipg L - 1) (l_ipg L) ltac:(lia)). nia.
Qed.

Lemma alloc_inode_used s s' ino :
  wf L s -> 0 <= l_inodes L -> (forall g, 0 <= g < l_groups L -> bit_of (content L s (IBm g)) 0 = true) ->
  ext2_alloc_inode s = (s', Some ino) ->
  inode_used s ino = true /\ inode_used s (ino + 1) = false.
Proof.
  intros W Hn H0 E. unfold ext2_alloc_inode in E. rewrite bind_gets in E. change (id s) with s in E.
  unfold bind, guard in E. destruct (negb _); [|done]. cbn [ret] in E.
  destruct (wf_sb L s W) as [Ei _]. rewrite Ei, (wf_ipg L s W) in E. pose proof (inode_groups Hn) as Hgs.
  destruct (alloc_inode_in_picked _ _ _ _ W Hgs E) as (g & i & Hg & -> & Hi & Hb & Hf).
  rewrite Forall_forall in Hgs. specialize (Hgs g Hg). unfold inode_used.
  assert (E1 : (g * l_ipg L + i - 1) / l_ipg L = g /\ (g * l_ipg L + i - 1) mod l_ipg L = i - 1).
  { replace (g * l_ipg L + i - 1) with (i - 1 + g * l_ipg L) by lia. rewrite Z.div_add, Z.mod_add, Z.div_small, Z.mod_small by lia. lia. }
  assert (E2 : (g * l_ipg L + i + 1 - 1) / l_ipg L = g /\ (g * l_ipg L + i + 1 - 1) mod l_ipg L = i).
  { replace (g * l_ipg L + i + 1 - 1) with (i + g * l_ipg L) by lia. rewrite Z.div_add, Z.mod_add, Z.div_small, Z.mod_small by lia. lia. }
  destruct E1 as [-> ->], E2 as [-> ->]. split; [|done].
  destruct (decide (i = 1)) as [->|]; [by apply H0|]. apply Hf. lia.
Qed.
End Ino.
End Ext2Ino.
