(* ===== verification/Ext2Demo.v ===== *)
(** A disk in memory and a small ext2 image on it: sixteen blocks of 1024
    bytes, one group, eight inodes of which 1 to 3 are used, inode 3 an empty
    file, and blocks 6 to 15 free for data. *)
From S2P Require Import Prelude Ring Bytes Vfs Ext2 Ext2Blocks Ext2Layout Ext2Alloc Ext2Free Ext2File Ext2Write Ext2Ino.

Module Ext2Demo.
Import Bytes Ext2 Ext2Blocks Ext2Layout Ext2Alloc Ext2Free Ext2File Ext2Write Ext2Ino.

(** ** The disk: its bytes *)
Definition on_ram (im : list Z) (lba n : Z) : bool := (0 <=? lba) && (0 <=? n) && ((lba + n) * 512 <=? Z.of_nat (length im)).

#[export] Instance ram_dev : BlockDev (list Z) := {
  dev_read lba n im := if on_ram im lba n then (im, (true, Ring.slice im (lba * 512) (n * 512))) else (im, (false, []));
  dev_write lba n data im := if on_ram im lba n then (Ring.blit im (lba * 512) data, true) else (im, false)
}.

Lemma on_ram_true im lba n : 0 <= lba -> 0 <= n -> (lba + n) * 512 <= Z.of_nat (length im) -> on_ram im lba n = true.
Proof. intros. unfold on_ram. rewrite !andb_true_iff, !Z.leb_le. lia. Qed.

#[export] Program Instance ram_spec : BlockSpec (list Z) := { image im := im }.
Next Obligation. intros im lba n H0 Hn Hl. cbn. rewrite on_ram_true by done. by eexists. Qed.
Next Obligation. intros im lba n data H0 Hn Hl Hd. cbn. rewrite on_ram_true by done. by eexists. Qed.

(** ** The image *)
Definition demo_len : Z := 16384.
Definition gd0 : ext2_group_desc_t := GroupDesc 3 4 5 10 5 1 0 (replicate 12 0).
Definition file0 : ext2_inode_t := inode0 <| i_mode := 0x81A4 |> <| i_links_count := 1 |>.
(** The layers of the image: nothing, the descriptor, the block bitmap, the
    inode bitmap, the inode. *)
Definition demo0 : list Z := replicate (Z.to_nat demo_len) 0.
Definition demo1 : list Z := Ring.blit demo0 2048 (encode_gdesc gd0).
Definition demo2 : list Z := Ring.blit demo1 3072 [63; 0].
Definition demo3 : list Z := Ring.blit demo2 4096 [7].
Definition demo_image : list Z := Ring.blit demo3 5376 (encode_inode file0).

Definition demo_sb : ext2_superblock_t := Superblock 8 16 10 5 0 16 8 EXT2_MAGIC 128.
Definition demo : fs (list Z) :=
  Fs 1 demo_sb 1024 128 8 16 (replicate 4096 0) (replicate 4096 0) [] 0 [] [] demo_image 1000 (0, 0).

Definition demo_layout : layout :=
  Layout 1024 1 8 16 demo_len (fun _ => 3) (fun _ => 4) (fun _ => 5) 8 16 (fun b => 6 <= b < 16).

(** Where the regions are, in numbers. *)
Definition demo_place (r : region) : Z * Z :=
  match r with
  | Sb => (1036, 8) | Gd _ => (2048, 32) | BBm _ => (3072, 1024) | IBm _ => (4096, 1024)
  | Ino i => (5120 + (i - 1) * 128, 128) | Data b => (b * 1024, 1024)
  end.

Lemma demo_place_eq r : valid demo_layout r -> place demo_layout r = demo_place r.
Proof.
  destruct r as [|g|g|g|i|b]; cbn [valid demo_layout l_groups l_inodes]; intros Hr; try done.
  - by replace g with 0 by lia.
  - cbn [place demo_layout l_bs l_itab l_ipg demo_place]. rewrite Z.mod_small by lia. done.
Qed.

Lemma demo_layout_ok : layout_ok demo_layout.
Proof.
  split; cbn [l_bs l_groups l_ipg l_bpg l_len l_bbm l_ibm l_itab l_inodes l_blocks l_data demo_layout]; unfold demo_len;
    try lia; try (by intros; lia).
  - by exists 16.
  - intros r Hr. rewrite demo_place_eq by done. destruct r; cbn in *; lia.
  - intros r r' Hr Hr' Hne. rewrite !demo_place_eq by done. unfold apart.
    destruct r as [|g|g|g|i|b], r' as [|g'|g'|g'|i'|b']; cbn in *; try lia; try congruence.
    + destruct Hne. f_equal. lia.
    + destruct Hne. f_equal. lia.
    + destruct Hne. f_equal. lia.
    + assert (i <> i') by congruence. lia.
    + assert (b <> b') by congruence. lia.
Qed.

Lemma replicate_bytes n : bytes_ok (replicate n 0).
Proof. apply Forall_replicate. done. Qed.

Lemma file0_ok : inode_ok file0.
Proof. split; cbn; try done; repeat constructor; done. Qed.
Lemma gd0_ok : gdesc_ok gd0.
Proof. split; cbn; try done; repeat constructor; done. Qed.

Lemma len_demo : Z.of_nat (length demo0) = demo_len /\ Z.of_nat (length demo1) = demo_len /\
  Z.of_nat (length demo2) = demo_len /\ Z.of_nat (length demo3) = demo_len /\ Z.of_nat (length demo_image) = demo_len.
Proof.
  pose proof (length_encode_inode _ file0_ok). pose proof (length_encode_gdesc _ gd0_ok).
  assert (E0 : Z.of_nat (length demo0) = demo_len) by (unfold demo0; rewrite length_replicate; done).
  assert (E1 : length demo1 = length demo0) by (apply Ring.length_blit; unfold demo_len in *; lia).
  assert (E2 : length demo2 = length demo0) by (unfold demo2; rewrite Ring.length_blit; cbn [length]; unfold demo_len in *; lia).
  assert (E3 : length demo3 = length demo0) by (unfold demo3; rewrite Ring.length_blit; cbn [length]; unfold demo_len in *; lia).
  assert (E4 : length demo_image = length demo0) by (unfold demo_image; rewrite Ring.length_blit; unfold demo_len in *; lia).
  rewrite E1, E2, E3, E4. repeat split; exact E0.
Qed.

Lemma demo_bytes : bytes_ok demo_image.
Proof.
  unfold demo_image, demo3, demo2, demo1, demo0. repeat apply bytes_blit; [apply replicate_bytes|apply bytes_encode_gdesc, gd0_ok| |  |apply bytes_encode_inode, file0_ok].
  - repeat constructor; done.
  - repeat constructor; done.
Qed.

(** ** What the image holds *)
#[local] Ltac layer := unfold within, apart; destruct len_demo as (? & ? & ? & ? & ?);
  pose proof (length_encode_inode _ file0_ok); pose proof (length_encode_gdesc _ gd0_ok); unfold demo_len in *; cbn [length]; lia.

Lemma demo_gd : Ring.slice demo_image 2048 32 = encode_gdesc gd0.
Proof.
  unfold demo_image. rewrite slice_blit_apart by layer. unfold demo3. rewrite slice_blit_apart by layer.
  unfold demo2. rewrite slice_blit_apart by layer. unfold demo1. apply slice_blit_same; layer.
Qed.

Lemma demo_ino : Ring.slice demo_image 5376 128 = encode_inode file0.
Proof. unfold demo_image. apply slice_blit_same; layer. Qed.

(** The bytes of the bitmaps. *)
Lemma demo_bbm k : 0 <= k < 2 -> aget (Ring.slice demo_image 3072 1024) k = aget [63; 0] k.
Proof.
  intros Hk. unfold demo_image. rewrite slice_blit_apart by layer. unfold demo3. rewrite slice_blit_apart by layer.
  rewrite aget_slice by layer. unfold demo2. rewrite Ring.aget_blit, decide_True by layer. f_equal. lia.
Qed.

Lemma demo_ibm : aget (Ring.slice demo_image 4096 1024) 0 = 7.
Proof.
  unfold demo_image. rewrite slice_blit_apart by layer. rewrite aget_slice by layer.
  unfold demo3. rewrite Ring.aget_blit, decide_True by layer. done.
Qed.

Lemma demo_geo : geo demo.
Proof.
  split; cbn [ext2_mounted ext2_blk_size ext2_ino_size ext2_inodes_per_group ext2_blocks_per_group ext2_blkbuf ext2_indbuf disk demo];
    [done|by left|done|done|done|by rewrite length_replicate|by rewrite length_replicate| |apply demo_bytes|split; apply replicate_bytes].
  change (Z.of_nat (length demo_image) < 2 ^ 32). destruct len_demo as (_ & _ & _ & _ & ->). done.
Qed.

Lemma demo_gd_of : gd_of demo_layout demo 0 = gd0.
Proof.
  unfold gd_of, content. rewrite demo_place_eq by done. change (decode_gdesc (Ring.slice demo_image 2048 32) = gd0).
  rewrite demo_gd. apply decode_encode_gdesc, gd0_ok.
Qed.

Lemma demo_wf : wf demo_layout demo.
Proof.
  split; [apply demo_geo|done..| |done|].
  - change (Z.of_nat (length demo_image) = demo_len). apply len_demo.
  - intros g Hg. cbn in Hg. replace g with 0 by lia. by rewrite demo_gd_of.
Qed.

Lemma demo_inode : inode_of demo_layout demo 3 = file0.
Proof.
  unfold inode_of, content. rewrite demo_place_eq by done. change (decode_inode (Ring.slice demo_image 5376 128) = file0).
  rewrite demo_ino. apply decode_encode_inode, file0_ok.
Qed.

Lemma demo_free : free_blocks demo_layout demo = [6; 7; 8; 9; 10; 11; 12; 13; 14; 15].
Proof.
  change (free_blocks demo_layout demo) with ((Z.add 0 <$> group_free demo_layout demo 0) ++ []). rewrite app_nil_r.
  assert (E : group_free demo_layout demo 0 = filter (fun i => Z.testbit (aget [63; 0] (i / 8)) (i mod 8) = false) (zrange 16)).
  { unfold group_free. change (Z.to_nat (block_range demo_layout 0)) with 16%nat. apply filter_ext_in. intros i Hi%elem_of_zrange.
    unfold bit_of, content. rewrite demo_place_eq by done. rewrite land7, shiftr3. cbn [demo_place fst snd disk demo image ram_spec].
    rewrite demo_bbm; [done|]. split; [apply Z.div_pos; lia|apply Z.div_lt_upper_bound; lia]. }
  by rewrite E.
Qed.

Lemma demo_free_ok : free_ok demo_layout demo.
Proof.
  split.
  - intros g Hg. assert (g = 0) as -> by (by apply elem_of_cons in Hg as [->|?%elem_of_nil]).
    rewrite demo_gd_of. pose proof demo_free as F. change (free_blocks demo_layout demo) with ((Z.add 0 <$> group_free demo_layout demo 0) ++ []) in F.
    rewrite app_nil_r in F. apply (f_equal length) in F. rewrite length_fmap in F. by rewrite F.
  - by rewrite demo_free.
  - rewrite demo_free. intros b Hb. cbn [l_data l_bpg demo_layout]. repeat (apply elem_of_cons in Hb as [->|Hb]; [done|]). by apply elem_of_nil in Hb.
Qed.

Lemma demo_small : small demo_layout demo file0.
Proof.
  assert (Hz : forall k, 0 <= k < 12 -> aget (i_block file0) k = 0).
  { intros k Hk. change (i_block file0) with (replicate 15 0). apply aget_replicate. lia. }
  split; [apply file0_ok|done| |]; [intros k Hk|intros j k Hj Hk]; by rewrite Hz.
Qed.

Lemma demo_ibm_bits g i : 0 <= i < 8 -> bit_of (content demo_layout demo (IBm g)) i = Z.testbit 7 i.
Proof.
  intros Hi. unfold bit_of, content. rewrite land7, shiftr3, Z.div_small, Z.mod_small by lia.
  change (place demo_layout (IBm g)) with (4096, 1024). cbn [fst snd]. change (image (disk demo)) with demo_image. by rewrite demo_ibm.
Qed.

Lemma demo_counts : bg_free_inodes_count (gd_of demo_layout demo 0) <> 0.
Proof. by rewrite demo_gd_of. Qed.

#[local] Opaque demo demo_image.

(** ** The properties *)

(** An inode written to the image is read back as it was written, and the
    call leaves every other inode, the bitmaps, the descriptors, the counts
    and all file data of the image alone. *)
Theorem ext2_inode_roundtrip {D} {BD : BlockDev D} {BSp : BlockSpec D} L (s : fs D) ino inode :
  layout_ok L -> wf L s -> valid L (Ino ino) -> inode_ok inode ->
  exists s1 s2, ext2_write_inode ino inode s = (s1, Some tt) /\ ext2_read_inode ino s1 = (s2, Some inode) /\
    forall r, valid L r -> r <> Ino ino -> content L s2 r = content L s r.
Proof.
  intros HL W Hi Hok. destruct (write_inode_spec L HL s ino inode W Hi Hok) as (s1 & E1 & C1 & Ei & _).
  destruct (read_inode_spec L HL s1 ino (ch_wf _ _ _ _ C1) Hi) as (s2 & E2 & C2 & _). rewrite Ei in E2.
  exists s1, s2. split_and!; [done..|]. intros r Hr Hne.
  rewrite (ch_rest _ _ _ _ C2) by (done || not_in). apply (ch_rest _ _ _ _ C1); [done|not_in].
Qed.

Lemma ext2_inode_roundtrip_witness : exists s1 s2,
  ext2_write_inode 3 (file0 <| i_size := 77 |>) demo = (s1, Some tt) /\ ext2_read_inode 3 s1 = (s2, Some (file0 <| i_size := 77 |>)) /\
  forall r, valid demo_layout r -> r <> Ino 3 -> content demo_layout s2 r = content demo_layout demo r.
Proof.
  apply (ext2_inode_roundtrip demo_layout demo 3); [apply demo_layout_ok|apply demo_wf|done|].
  split; cbn; try done; repeat constructor; done.
Defined.

(** When the descriptors' counts are those of the bitmaps,
    [ext2_alloc_block] returns the lowest free block, which is a data block
    and leaves the free list, and fails without any change when nothing is
    free; the counts stay those of the bitmaps, and only the group's bitmap,
    its descriptor and the superblock's counts change. *)
Theorem ext2_alloc_block_first_free {D} {BD : BlockDev D} {BSp : BlockSpec D} L (s : fs D) :
  layout_ok L -> l_blocks L <= l_groups L * l_bpg L -> wf L s -> free_ok L s ->
  match free_blocks L s with
  | [] => ext2_alloc_block s = (s, None)
  | b :: rest => l_data L b /\ exists s', ext2_alloc_block s = (s', Some b) /\ wf L s' /\ free_ok L s' /\
      free_blocks L s' = rest /\
      forall r, valid L r -> r <> Sb -> r <> BBm (b / l_bpg L) -> r <> Gd (b / l_bpg L) -> content L s' r = content L s r
  end.
Proof.
  intros HL HG W F. destruct (free_blocks L s) as [|b rest] eqn:Eb; [by apply (alloc_block_none L)|].
  destruct (alloc_block_some L HL HG s b rest W F Eb) as (s' & E & C & Ef & F'). split.
  - apply (fo_data L s F). rewrite Eb. left.
  - exists s'. split_and!; [done|apply (ch_wf _ _ _ _ C)|done|done|].
    intros r Hr H1 H2 H3. apply (ch_rest _ _ _ _ C); [done|not_in].
Qed.

Lemma ext2_alloc_block_first_free_witness : exists s', ext2_alloc_block demo = (s', Some 6) /\
  free_blocks demo_layout s' = [7; 8; 9; 10; 11; 12; 13; 14; 15].
Proof.
  pose proof (ext2_alloc_block_first_free demo_layout demo demo_layout_ok ltac:(done) demo_wf demo_free_ok) as H.
  rewrite demo_free in H. destruct H as [_ (s' & E & _ & _ & Ef & _)]. exact (ex_intro _ s' (conj E Ef)).
Defined.

(** Freeing a block in use puts it back in the free list, keeps the
    counts those of the bitmaps and changes nothing but the group's bitmap, its
    descriptor and the superblock's counts. *)
Theorem ext2_free_block_returns {D} {BD : BlockDev D} {BSp : BlockSpec D} L (s : fs D) b :
  layout_ok L -> l_blocks L <= l_groups L * l_bpg L -> wf L s -> free_ok L s ->
  l_data L b -> b mod l_bpg L <> 0 -> b ∉ free_blocks L s ->
  exists s', ext2_free_block b s = (s', Some tt) /\ wf L s' /\ free_ok L s' /\ free_blocks L s' ≡ₚ b :: free_blocks L s /\
    forall r, valid L r -> r <> Sb -> r <> BBm (b / l_bpg L) -> r <> Gd (b / l_bpg L) -> content L s' r = content L s r.
Proof.
  intros HL HG W F Hd Hm Hn. destruct (free_block_spec L HL HG s b W F Hd Hm Hn) as (s' & E & C & Ef & F').
  exists s'. split_and!; [done|apply (ch_wf _ _ _ _ C)|done|done|].
  intros r Hr H1 H2 H3. apply (ch_rest _ _ _ _ C); [done|not_in].
Qed.

Lemma ext2_free_block_returns_witness : exists s1 s2, ext2_alloc_block demo = (s1, Some 6) /\ ext2_free_block 6 s1 = (s2, Some tt) /\
  free_blocks demo_layout s2 ≡ₚ free_blocks demo_layout demo.
Proof.
  assert (HG : l_blocks demo_layout <= l_groups demo_layout * l_bpg demo_layout) by done.
  assert (H6 : l_data demo_layout 6 /\ 6 mod l_bpg demo_layout <> 0) by done.
  assert (Hn : 6 ∉ [7; 8; 9; 10; 11; 12; 13; 14; 15]) by (by rewrite list_elem_of_In; cbn; lia).
  destruct (alloc_block_some demo_layout demo_layout_ok HG demo _ _ demo_wf demo_free_ok demo_free) as (s1 & E1 & C1 & Ef & F1).
  destruct (ext2_free_block_returns demo_layout s1 6 demo_layout_ok HG (ch_wf _ _ _ _ C1) F1 (proj1 H6) (proj2 H6))
    as (s2 & E2 & _ & _ & Ep & _); [rewrite Ef; exact Hn|].
  exists s1, s2. split; [exact E1|]. split; [exact E2|]. rewrite demo_free, <- Ef. exact Ep.
Defined.

(** Inode [n] has bit [n - 1] of its group (modulo the inodes per group)
    for every call but [ext2_alloc_inode], which returns the place of the bit
    it has taken: on an image where the first inode of each group is used, the
    number it returns is that of an inode in use, and the bit it has set is that
    of the free inode after it. *)
Theorem ext2_alloc_inode_in_use {D} {BD : BlockDev D} {BSp : BlockSpec D} L (s s' : fs D) ino :
  layout_ok L -> wf L s -> 0 <= l_inodes L -> (forall g, 0 <= g < l_groups L -> bit_of (content L s (IBm g)) 0 = true) ->
  ext2_alloc_inode s = (s', Some ino) -> inode_used L s ino = true /\ inode_used L s (ino + 1) = false.
Proof. intros HL. apply (alloc_inode_used L HL). Qed.

Lemma ext2_alloc_inode_in_use_witness : exists s' ino, ext2_alloc_inode demo = (s', Some ino) /\
  inode_used demo_layout demo ino = true /\ inode_used demo_layout demo (ino + 1) = false.
Proof.
  assert (Hn : 0 <= l_inodes demo_layout /\ 0 <= 0 < l_groups demo_layout) by (cbn; lia).
  assert (H3 : 1 <= 3 < group_range (l_inodes demo_layout) (l_ipg demo_layout) 0) by (split; [lia|vm_compute; done]).
  destruct (alloc_inode_in_hit demo_layout demo_layout_ok [] demo 0 3 demo_wf (proj2 Hn) demo_counts H3 (demo_ibm_bits 0 3 ltac:(lia)))
    as (s' & ino & E).
  assert (E' : ext2_alloc_inode demo = (s', Some ino)) by exact E.
  exists s', ino. split; [exact E'|].
  exact (ext2_alloc_inode_in_use demo_layout demo s' ino demo_layout_ok demo_wf (proj1 Hn) (fun g _ => demo_ibm_bits g 0 ltac:(lia)) E').
Defined.

(** Reading a file, however its blocks are reached, gives the bytes its
    block map leads to: as many as were asked for and lie in the file, all of
    them when no block on the way is a hole; the image is only read. *)
Theorem ext2_read_file_bytes {D} {BD : BlockDev D} {BSp : BlockSpec D} L (s : fs D) ino offset size :
  layout_ok L -> wf L s -> valid L (Ino ino) -> is_data_file (inode_of L s ino) = true -> 0 <= offset -> 0 <= size ->
  let n := readable (inode_of L s ino) offset size in
  present s (inode_of L s ino) offset n ->
  exists s', ext2_read_file ino offset size s = (s', Some (file_bytes s (inode_of L s ino) offset n)) /\
    image (disk s') = image (disk s).
Proof.
  intros HL W Hi Hd H0 Hs n Hp. destruct (read_file_spec L HL s ino offset size W Hi Hd H0 Hs Hp) as (s' & E & T).
  exists s'. split; [exact E|exact (to_image _ _ _ T)].
Qed.

Lemma demo_is_file : is_data_file file0 = true /\ valid demo_layout (Ino 3).
Proof. done. Qed.

Lemma ext2_read_file_bytes_witness : exists s', ext2_read_file 3 0 10 demo = (s', Some []) /\ image (disk s') = image (disk demo).
Proof.
  destruct demo_is_file as [Hf Hv]. pose proof demo_inode as Ei.
  assert (En : readable (inode_of demo_layout demo 3) 0 10 = 0) by (rewrite Ei; done).
  assert (Hp : present demo (inode_of demo_layout demo 3) 0 0) by (intros p Hp; lia).
  assert (H10 : 0 <= 0 /\ 0 <= 10) by lia. rewrite <- Ei in Hf. rewrite <- En in Hp at 2.
  destruct (ext2_read_file_bytes demo_layout demo 3 0 10 demo_layout_ok demo_wf Hv Hf (proj1 H10) (proj2 H10) Hp) as (s' & E & Eim).
  exists s'. rewrite En in E. split; [exact E|exact Eim].
Defined.

(** C22: Data written to a file of direct blocks is what is read back, with
    blocks taken from the free list where the file has none; the file's length
    becomes the larger of the old one and the end of the data, and its other
    bytes in blocks it had before stay, as do the other inodes and the data
    blocks of other files. Of a block taken from the free list only the bytes
    written are claimed: the code does not clear it, so the rest of it shows
    whatever the block held before (in the witness, the file's first 1022
    bytes). *)
Theorem ext2_write_read {D} {BD : BlockDev D} {BSp : BlockSpec D} L (s : fs D) ino offset data :
  layout_ok L -> l_blocks L <= l_groups L * l_bpg L -> wf L s -> free_ok L s -> valid L (Ino ino) ->
  let inode := inode_of L s ino in let len := Z.of_nat (length data) in
  small L s inode -> is_data_file inode = true -> 0 <= now s < 2 ^ 32 ->
  0 <= offset -> 0 < len -> offset + len <= 12 * l_bs L -> bytes_ok data ->
  (offset + len - 1) / l_bs L - offset / l_bs L + 1 <= Z.of_nat (length (free_blocks L s)) ->
  exists s1 s2, ext2_write_file ino offset data s = (s1, Some len) /\ ext2_read_file ino offset len s1 = (s2, Some data) /\
    free_ok L s1 /\ i_size (inode_of L s1 ino) = Z.max (i_size inode) (offset + len) /\
    (forall pos, 0 <= pos < 12 * l_bs L -> aget (i_block inode) (pos / l_bs L) <> 0 -> ~ (offset <= pos < offset + len) ->
       byte L s1 (inode_of L s1 ino) pos = byte L s inode pos) /\
    (forall i, valid L (Ino i) -> i <> ino -> inode_of L s1 i = inode_of L s i) /\
    (forall b, l_data L b -> b ∉ free_blocks L s -> (forall k, 0 <= k < 12 -> aget (i_block inode) k <> b) ->
       content L s1 (Data b) = content L s (Data b)).
Proof.
  intros HL HG W F Hi inode len S Ht Hnow H0 Hl Hsz Hby Hfree.
  destruct (write_file_spec L HL HG offset data H0 Hl Hsz Hby s ino W F Hi S Ht Hnow Hfree)
    as (s1 & E1 & W1 & F1 & S1 & Ht1 & Hs1 & Hz & Hnew & Hold & Hrest).
  assert (Hn : readable (inode_of L s1 ino) offset len = len) by (unfold readable; rewrite Hs1; lia).
  destruct (read_file_spec L HL s1 ino offset len W1 Hi Ht1 H0) as (s2 & E2 & _); [lia| |].
  { rewrite Hn. by apply (small_present L HL). }
  rewrite Hn in E2. unfold len in E2. rewrite (small_bytes L HL offset data H0 Hl Hsz s1 (inode_of L s1 ino) W1 S1 Hz Hnew) in E2.
  exists s1, s2. split_and!; [exact E1|exact E2|done|done|done| |].
  - intros i Hv Hne. unfold inode_of. rewrite Hrest; [done|done|by intros []|congruence|done].
  - intros b Hd Hnf Hnb. apply Hrest; [done|by intros []|done|]. intros b' [= <-]. done.
Qed.

Lemma ext2_write_read_witness : exists s1 s2, ext2_write_file 3 1022 [1; 2; 3; 4] demo = (s1, Some 4) /\
  ext2_read_file 3 1022 4 s1 = (s2, Some [1; 2; 3; 4]) /\ i_size (inode_of demo_layout s1 3) = 1026.
Proof.
  destruct demo_is_file as [Hf Hv]. pose proof demo_inode as Ei. rewrite <- Ei in Hf.
  assert (HG : l_blocks demo_layout <= l_groups demo_layout * l_bpg demo_layout) by (cbn; lia).
  assert (HS : small demo_layout demo (inode_of demo_layout demo 3)) by (rewrite Ei; exact demo_small).
  assert (Hnow : 0 <= now demo < 2 ^ 32) by (change (now demo) with 1000; lia).
  assert (Hby : bytes_ok [1; 2; 3; 4]) by (repeat constructor; done).
  assert (Hfr : (1022 + 4 - 1) / 1024 - 1022 / 1024 + 1 <= Z.of_nat (length (free_blocks demo_layout demo))) by (rewrite demo_free; change (1 - 0 + 1 <= 10); lia).
  destruct (ext2_write_read demo_layout demo 3 1022 [1; 2; 3; 4] demo_layout_ok HG demo_wf demo_free_ok Hv HS Hf Hnow
    ltac:(lia) ltac:(cbn; lia) ltac:(cbn; lia) Hby Hfr) as (s1 & s2 & E1 & E2 & _ & Es & _).
  exists s1, s2. rewrite Ei in Es. split; [exact E1|]. split; [exact E2|exact Es].
Defined.
End Ext2Demo.
