(* ===== verification/Ext2Names.v ===== *)
(** The entry chain of an ext2 directory block as a list of names: what the
    walks of the driver find in it, and what inserting and removing an entry
    do to it. *)
From S2P Require Import Prelude Ring Bytes Ext2 Ext2Blocks Ext2Dir.

Module Ext2Names.
Import Bytes Ext2 Ext2Blocks Ext2Dir.

(** An entry: where it is, its inode (0 when it is free), its length and its
    name. *)
Record ent := Ent { n_off : Z; n_ino : Z; n_rec : Z; n_name : list Z }.

Definition ent_at (b : list Z) (p : Z) : ent := Ent p (e_ino b p) (e_rec b p) (if e_ino b p =? 0 then [] else Ring.slice b (p + 8) (e_nlen b p)).

(** The entries from [p] on, up to the end of the block: each has room for its
    name and the last one ends where the block ends. *)
Inductive chain (b : list Z) (bs : Z) : Z -> list ent -> Prop :=
| chain_end : chain b bs bs []
| chain_cons p es :
    8 <= e_rec b p -> p + e_rec b p <= bs -> (e_ino b p <> 0 -> 8 + e_nlen b p <= e_rec b p) ->
    chain b bs (p + e_rec b p) es -> chain b bs p (ent_at b p :: es).

(** The names in use, with their inodes. *)
Definition used (e : ent) : bool := negb (n_ino e =? 0).
Definition names (es : list ent) : list (list Z * Z) := (fun e => (n_name e, n_ino e)) <$> filter (fun e => used e = true) es.

(** The entry of a name, and the one before it. *)
Fixpoint search (name : list Z) (es : list ent) (prev : option Z) : option (Z * Z * option Z) :=
  match es with
  | [] => None
  | e :: es' => if used e && bool_decide (n_name e = name) then Some (n_ino e, n_off e, prev) else search name es' (Some (n_off e))
  end.

Lemma chain_le b bs p es : chain b bs p es -> p + 8 * Z.of_nat (length es) <= bs.
Proof. induction 1; cbn [length]; lia. Qed.

Lemma chain_bs_p b bs p es : chain b bs p es -> p <= bs.
Proof. intros C. pose proof (chain_le _ _ _ _ C). lia. Qed.

Section Block.
  Variables (b : list Z) (bs : Z).
  Hypothesis (Hb : bytes_ok b) (Hl : bs <= Z.of_nat (length b)).

Lemma nlen_range p : 0 <= p -> p + 8 <= bs -> 0 <= e_nlen b p < 256.
Proof. intros. apply byte_at; [done|lia]. Qed.

Lemma len_ent_name p : 0 <= p -> p + 8 <= bs -> p + 8 + e_nlen b p <= bs -> Z.of_nat (length (Ring.slice b (p + 8) (e_nlen b p))) = e_nlen b p.
Proof. intros H0 H1 H2. pose proof (nlen_range p H0 H1). apply len_slice. repeat split; lia. Qed.

(** Comparing length and bytes is comparing names. *)
Lemma name_test p name : 0 <= p -> p + 8 <= bs -> p + 8 + e_nlen b p <= bs -> Z.of_nat (length name) <= 255 ->
  (e_nlen b p =? u8 (Z.of_nat (length name))) && bool_decide (Ring.slice b (p + 8) (Z.of_nat (length name)) = name) =
  bool_decide (Ring.slice b (p + 8) (e_nlen b p) = name).
Proof.
  intros H0 H1 H2 Hn. pose proof (len_ent_name p H0 H1 H2) as El. rewrite u8_small by lia.
  destruct (decide (e_nlen b p = Z.of_nat (length name))) as [E|E].
  - by rewrite E, Z.eqb_refl.
  - rewrite (proj2 (Z.eqb_neq _ _) E). symmetry. apply bool_decide_false. intros En. apply E. by rewrite <- En, El.
Qed.

Lemma find_entry_search fuel name p es prev : chain b bs p es -> 0 <= p -> (length es <= fuel)%nat -> Z.of_nat (length name) <= 255 ->
  find_entry fuel b bs name p prev = search name es prev.
Proof.
  intros C. revert fuel prev. induction C as [|p es Hr Hle Hn C IH]; intros fuel prev H0 Hf Hnl.
  - destruct fuel; [done|]. cbn [find_entry]. by rewrite (proj2 (Z.ltb_lt bs _)) by lia.
  - destruct fuel as [|fuel]; [cbn in Hf; lia|]. cbn [find_entry search]. rewrite (proj2 (Z.ltb_ge bs _)) by lia. cbv zeta.
    rewrite (proj2 (Z.eqb_neq (e_rec b p) 0)), (proj2 (Z.ltb_ge bs _)) by lia. cbn [orb]. unfold used. cbn [n_ino n_name n_off ent_at].
    destruct (e_ino b p =? 0) eqn:E0; cbn [negb andb]; [apply IH; cbn in Hf; (done || lia)|].
    apply Z.eqb_neq in E0. rewrite name_test by (specialize (Hn E0); lia). 
    destruct (bool_decide _); [done|]. apply IH; cbn in Hf; (done || lia).
Qed.

Lemma find_slot_spec fuel needed p es q : chain b bs p es -> 0 <= p -> find_slot fuel b bs needed p = Some q ->
  exists es1 es2, es = es1 ++ ent_at b q :: es2 /\ p <= q /\ e_ino b q = 0 /\ needed <= e_rec b q.
Proof.
  intros C. revert fuel. induction C as [|p es Hr Hle Hn C IH]; intros fuel H0 Hs; (destruct fuel as [|fuel]; [done|]); cbn [find_slot] in Hs.
  - by rewrite (proj2 (Z.ltb_lt bs _)) in Hs by lia.
  - rewrite (proj2 (Z.ltb_ge bs _)) in Hs by lia. cbv zeta in Hs.
    rewrite (proj2 (Z.eqb_neq (e_rec b p) 0)), (proj2 (Z.ltb_ge bs _)) in Hs by lia. cbn [orb] in Hs.
    destruct ((e_ino b p =? 0) && (needed <=? e_rec b p)) eqn:E.
    + injection Hs as <-. apply andb_true_iff in E as [E1%Z.eqb_eq E2%Z.leb_le]. exists [], es. split_and!; (done || lia).
    + destruct (IH fuel ltac:(lia) Hs) as (es1 & es2 & -> & Hq & ? & ?). exists (ent_at b p :: es1), es2. split_and!; (done || lia).
Qed.

(** No slot is found only when there is none. *)
Lemma find_slot_none fuel needed p es : chain b bs p es -> 0 <= p -> (length es < fuel)%nat ->
  find_slot fuel b bs needed p = None -> Forall (fun e => used e = false -> n_rec e < needed) es.
Proof.
  intros C. revert fuel. induction C as [|p es Hr Hle Hn C IH]; intros fuel H0 Hf Hs; [constructor|].
  destruct fuel as [|fuel]; [lia|]. cbn [find_slot] in Hs.
  rewrite (proj2 (Z.ltb_ge bs _)) in Hs by lia. cbv zeta in Hs.
  rewrite (proj2 (Z.eqb_neq (e_rec b p) 0)), (proj2 (Z.ltb_ge bs _)) in Hs by lia. cbn [orb] in Hs.
  destruct ((e_ino b p =? 0) && (needed <=? e_rec b p)) eqn:E; [done|]. constructor.
  - unfold used. cbn [n_ino n_rec ent_at]. intros Hu%negb_false_iff. rewrite Hu in E. apply Z.leb_gt in E. lia.
  - apply (IH fuel); cbn in Hf; (done || lia).
Qed.

(** The first part of a chain, up to an entry. *)
Lemma chain_split p es1 e es2 : chain b bs p (es1 ++ e :: es2) -> 0 <= p ->
  p <= n_off e /\ e = ent_at b (n_off e) /\ chain b bs (n_off e) (e :: es2).
Proof.
  revert p. induction es1 as [|e1 es1 IH]; intros p C H0.
  - pose proof C as C'. inversion C as [|p' es' Hr Hle Hn C2 Ep]. subst. cbn [n_off ent_at]. split; [lia|]. by split.
  - inversion C as [|p' es' Hr Hle Hn C2 Ep]. subst. destruct (IH _ C2 ltac:(lia)) as (? & ? & ?). split; [lia|]. by split.
Qed.

(** *** Changing the block *)
Definition agree (b' : list Z) (lo hi : Z) : Prop := forall i, lo <= i < hi -> aget b' i = aget b i.

Lemma agree_fields b' p : bs <= Z.of_nat (length b') -> 0 <= p -> p + 8 <= bs -> agree b' p (p + 8) ->
  e_ino b' p = e_ino b p /\ e_rec b' p = e_rec b p /\ e_nlen b' p = e_nlen b p.
Proof.
  intros El H0 H1 Ha. unfold e_ino, e_rec, e_nlen, rd32, rd16. by rewrite !Ha by lia.
Qed.

Lemma agree_ent b' p hi : bs <= Z.of_nat (length b') -> 0 <= p -> p + 8 <= bs -> agree b' p hi -> p + 8 <= hi -> hi <= bs ->
  (e_ino b p <> 0 -> p + 8 + e_nlen b p <= hi) -> ent_at b' p = ent_at b p.
Proof.
  intros El H0 H1 Ha Hh Hhb Hn. destruct (agree_fields b' p El H0 H1) as (E1 & E2 & E3); [intros i Hi; apply Ha; lia|].
  unfold ent_at. rewrite E1, E2, E3. f_equal. destruct (e_ino b p =? 0) eqn:E0; [done|]. apply Z.eqb_neq in E0. specialize (Hn E0).
  pose proof (nlen_range p H0 H1) as Hr. apply aget_ext; [rewrite !Ring.length_slice by lia; done|].
  intros i Hi. rewrite Ring.length_slice in Hi by lia. rewrite !aget_slice by (repeat split; lia). apply Ha. lia.
Qed.

Lemma chain_frame b' p es : bs <= Z.of_nat (length b') -> chain b bs p es -> 0 <= p -> agree b' p bs -> chain b' bs p es.
Proof.
  intros El C. induction C as [|p es Hr Hle Hn C IH]; intros H0 Ha; [constructor|].
  destruct (agree_fields b' p El H0 ltac:(lia)) as (E1 & E2 & E3); [intros i Hi; apply Ha; lia|].
  rewrite <- (agree_ent b' p bs) by (done || lia || (intros Hi; specialize (Hn Hi); lia)).
  constructor; rewrite ?E1, ?E2, ?E3; [done..|]. apply IH; [lia|]. intros i Hi. apply Ha. lia.
Qed.

(** The first part of the chain stays and the rest is another one. *)
Lemma chain_replace b' p es1 e es2 es' : bs <= Z.of_nat (length b') -> chain b bs p (es1 ++ e :: es2) -> 0 <= p ->
  agree b' p (n_off e) -> chain b' bs (n_off e) es' -> chain b' bs p (es1 ++ es').
Proof.
  intros El. revert p. induction es1 as [|e1 es1 IH]; intros p C H0 Ha C'.
  - inversion C as [|p' es'' Hr Hle Hn C2 Ep]. subst. done.
  - inversion C as [|p' es'' Hr Hle Hn C2 Ep]. subst. cbn [app].
    destruct (chain_split _ _ _ _ C2 ltac:(lia)) as (Hge & _ & Ce). pose proof (chain_bs_p _ _ _ _ Ce) as Hbp.
    destruct (agree_fields b' p El H0 ltac:(lia)) as (E1 & E2 & E3); [intros i Hi; apply Ha; lia|].
    rewrite <- (agree_ent b' p (n_off e)) by (done || lia || (intros Hi; specialize (Hn Hi); lia)).
    constructor; rewrite ?E1, ?E2, ?E3; [done..|]. apply IH; [done|lia| |done]. intros i Hi. apply Ha. lia.
Qed.
End Block.

Lemma names_app es1 es2 : names (es1 ++ es2) = names es1 ++ names es2.
Proof. unfold names. by rewrite filter_app, fmap_app. Qed.

Lemma names_used e es : used e = true -> names (e :: es) = (n_name e, n_ino e) :: names es.
Proof. intros Hu. unfold names. by rewrite filter_cons_True. Qed.

Lemma names_free e es : used e = false -> names (e :: es) = names es.
Proof. intros Hu. unfold names. by rewrite filter_cons_False by (by rewrite Hu). Qed.

(** *** An entry written *)
Definition entry_bytes (ino rec_len ftype : Z) (name : list Z) : list Z :=
  le32 ino ++ le16 rec_len ++ u8 (Z.of_nat (length name)) :: ftype :: name.

Lemma len_entry_bytes ino rec_len ftype name : Z.of_nat (length (entry_bytes ino rec_len ftype name)) = 8 + Z.of_nat (length name).
Proof. unfold entry_bytes. rewrite !length_app. cbn [length le32 le16]. lia. Qed.

Lemma put_entry_blit b p ino rec_len ftype name : within b p (8 + Z.of_nat (length name)) ->
  put_entry b p ino rec_len ftype name = Ring.blit b p (entry_bytes ino rec_len ftype name).
Proof.
  intros Hw. pose proof Hw as (H0 & Hn & Hle). unfold put_entry, wr16, wr32, entry_bytes. cbv zeta.
  assert (E : Ring.blit (Ring.blit b p (le32 ino)) (p + 4) (le16 rec_len) = Ring.blit b p (le32 ino ++ le16 rec_len)).
  { apply (blit_app b p (le32 ino) (le16 rec_len)). repeat split; cbn [length le32 le16]; lia. }
  rewrite E. rewrite app_assoc. apply (blit_app b p (le32 ino ++ le16 rec_len)).
  repeat split; rewrite ?length_app; cbn [length le32 le16]; lia.
Qed.

Lemma put_entry_fields b p ino rec_len ftype name :
  within b p (8 + Z.of_nat (length name)) -> 0 <= ino < 2 ^ 32 -> 0 <= rec_len < 2 ^ 16 -> Z.of_nat (length name) <= 255 ->
  let b' := put_entry b p ino rec_len ftype name in
  e_ino b' p = ino /\ e_rec b' p = rec_len /\ e_nlen b' p = Z.of_nat (length name) /\
  Ring.slice b' (p + 8) (Z.of_nat (length name)) = name /\ length b' = length b /\
  (forall i, 0 <= i < Z.of_nat (length b) -> ~ (p <= i < p + 8 + Z.of_nat (length name)) -> aget b' i = aget b i).
Proof.
  intros Hw Hi Hr Hn. rewrite put_entry_blit by done. set (d := entry_bytes _ _ _ _).
  assert (Hd : Z.of_nat (length d) = 8 + Z.of_nat (length name)) by apply len_entry_bytes. rewrite <- Hd in Hw.
  cbv zeta. assert (Hat : forall k, 0 <= k < 8 + Z.of_nat (length name) -> aget (Ring.blit b p d) (p + k) = aget d k)
    by (intros k Hk; apply aget_blit_in; [done|lia]).
  assert (Hat0 : aget (Ring.blit b p d) p = aget d 0) by (rewrite <- Hat by lia; f_equal; lia).
  assert (Hp : 0 <= p) by apply Hw. split_and!.
  - apply rd32_intro; [done|]. rewrite Hat0, !Hat by lia. done.
  - apply rd16_intro; [done|]. replace (p + 4 + 1) with (p + 5) by lia. rewrite !Hat by lia. done.
  - unfold e_nlen. rewrite Hat by lia. apply u8_small. lia.
  - assert (Hlen : length (Ring.blit b p d) = length b) by (by apply len_blit). destruct Hw as (_ & _ & Hle). apply aget_ext.
    + rewrite Ring.length_slice by lia. lia.
    + intros i Hii. rewrite Ring.length_slice in Hii by lia. rewrite aget_slice by (repeat split; lia).
      rewrite <- Z.add_assoc, Hat by lia. unfold d, entry_bytes. rewrite aget_app_r by (cbn [length le32]; lia).
      rewrite aget_app_r by (cbn [length le32 le16]; lia). cbn [length le32 le16].
      change (u8 (Z.of_nat (length name)) :: ftype :: name) with ([u8 (Z.of_nat (length name)); ftype] ++ name).
      rewrite aget_app_r by (cbn [length]; lia). f_equal. cbn [length]. lia.
  - by apply len_blit.
  - intros i Hii Ho. apply aget_blit_out; [done|done|lia].
Qed.

Lemma put_entry_bytes b p ino rec_len ftype name : bytes_ok b -> is_byte ftype -> bytes_ok name -> bytes_ok (put_entry b p ino rec_len ftype name).
Proof.
  intros Hb Hf Hn. unfold put_entry, wr16, wr32. apply bytes_blit; [auto|]. constructor; [by apply Z.mod_pos_bound|by constructor].
Qed.

Lemma needed_bounds n : 0 <= n -> 8 + n <= needed_len n <= 8 + n + 3.
Proof.
  intros Hn. assert (E : needed_len n = (8 + n + 3) / 4 * 4).
  { unfold needed_len. change (Z.lnot 3) with (Z.lnot (Z.ones 2)). rewrite <- Z.ldiff_land, Z.ldiff_ones_r by lia.
    by rewrite Z.shiftl_mul_pow2, Z.shiftr_div_pow2 by lia. }
  rewrite E.
  pose proof (Z.div_mod (8 + n + 3) 4 ltac:(lia)). pose proof (Z.mod_pos_bound (8 + n + 3) 4 ltac:(lia)). lia.
Qed.

Section Change.
  Variables (b : list Z) (bs : Z).
  Hypothesis (Hb : bytes_ok b) (Hl4 : Z.of_nat (length b) = 4096) (Hbs : 0 <= bs <= 4096).

Lemma block_fits : bs <= Z.of_nat (length b).
Proof. lia. Qed.

(** Filling a free entry puts the name in its place in the list. *)
Lemma fill_slot_chain q es1 es2 name child ftype :
  let needed := needed_len (Z.of_nat (length name)) in
  chain b bs 0 (es1 ++ ent_at b q :: es2) -> e_ino b q = 0 -> needed <= e_rec b q ->
  Z.of_nat (length name) <= 255 -> bytes_ok name -> 0 < child < 2 ^ 32 -> is_byte ftype ->
  let b' := fill_slot b q needed child ftype name in
  exists es', chain b' bs 0 es' /\ names es' = names es1 ++ (name, child) :: names es2 /\ bytes_ok b' /\ length b' = length b.
Proof.
  intros needed C E0 Hn Hnl Hbn Hc Hf b'. pose proof block_fits as Hl. pose proof (needed_bounds (Z.of_nat (length name)) ltac:(lia)) as Hnb. fold needed in Hnb.
  destruct (chain_split _ _ _ _ _ _ C ltac:(lia)) as (Hq & _ & Ce). cbn [n_off ent_at] in Hq, Ce.
  inversion Ce as [|p es Hr Hle Hn' C2 Ep]. subst p es. clear Hn'.
  pose proof (chain_bs_p _ _ _ _ C2) as Hend.
  set (rec1 := if 8 <=? e_rec b q - needed then needed else e_rec b q).
  assert (Hrec1 : 8 + Z.of_nat (length name) <= rec1 <= e_rec b q) by (unfold rec1; case_match; lia).
  destruct (put_entry_fields b q child rec1 ftype name) as (F1 & F2 & F3 & F4 & F5 & F6); [repeat split; lia|lia|lia|done|].
  set (b1 := put_entry b q child rec1 ftype name) in *.
  assert (Hb1 : bytes_ok b1) by (by apply put_entry_bytes).
  assert (Hrest : forall b2, length b2 = length b -> (forall i, q + e_rec b q <= i < bs -> aget b2 i = aget b i) -> chain b2 bs (q + e_rec b q) es2).
  { intros b2 El Ha. apply (chain_frame b bs Hb Hl); [lia|done|lia|done]. }
  assert (Hent : forall b2, e_ino b2 q = child -> e_rec b2 q = rec1 -> e_nlen b2 q = Z.of_nat (length name) ->
    Ring.slice b2 (q + 8) (Z.of_nat (length name)) = name -> ent_at b2 q = Ent q child rec1 name).
  { intros b2 G1 G2 G3 G4. unfold ent_at. by rewrite G1, G2, G3, G4, (proj2 (Z.eqb_neq child 0)) by lia. }
  assert (Hnames : forall r mid, Forall (fun e => used e = false) mid -> names (es1 ++ Ent q child r name :: mid ++ es2) = names es1 ++ (name, child) :: names es2).
  { intros r mid Hm. rewrite names_app, names_used by (unfold used; cbn; by rewrite (proj2 (Z.eqb_neq child 0)) by lia).
    cbn [n_name n_ino]. do 2 f_equal. rewrite names_app. induction Hm as [|e mid He Hm IH]; [done|]. by rewrite names_free. }
  unfold b', fill_slot. cbv zeta. fold rec1 b1. destruct (8 <=? e_rec b q - needed) eqn:E8.
  - apply Z.leb_le in E8. assert (rec1 = needed) as Er by done.
    destruct (put_entry_fields b1 (q + needed) 0 (e_rec b q - needed) 0 []) as (G1 & G2 & G3 & G4 & G5 & G6);
      [repeat split; cbn [length]; lia|lia|lia|cbn; lia|]. cbn [length] in G3, G4, G6.
    set (b2 := put_entry b1 (q + needed) 0 (e_rec b q - needed) 0 []) in *.
    assert (Hq1 : forall i, q <= i < q + 8 + Z.of_nat (length name) -> aget b2 i = aget b1 i) by (intros i Hi; apply G6; lia).
    assert (Efq : e_ino b2 q = child /\ e_rec b2 q = rec1 /\ e_nlen b2 q = Z.of_nat (length name)).
    { destruct (agree_fields b1 bs b2 q) as (H1 & H2 & H3); [lia|lia|lia|intros i Hi; apply Hq1; lia|]. rewrite H1, H2, H3. done. }
    destruct Efq as (H1 & H2 & H3).
    assert (H4 : Ring.slice b2 (q + 8) (Z.of_nat (length name)) = name).
    { transitivity (Ring.slice b1 (q + 8) (Z.of_nat (length name))); [|exact F4]. apply aget_ext; [rewrite !Ring.length_slice by lia; done|].
      intros i Hi. rewrite Ring.length_slice in Hi by lia. rewrite !aget_slice by (repeat split; lia). apply Hq1. lia. }
    exists (es1 ++ Ent q child rec1 name :: [ent_at b2 (q + needed)] ++ es2). split_and!.
    + eapply (chain_replace b bs Hb Hl); [lia|exact C|lia| |].
      * intros i Hi. cbn [n_off ent_at] in Hi. rewrite G6, F6 by lia. done.
      * cbn [n_off ent_at]. rewrite <- (Hent b2) by done.
        constructor; rewrite ?H2, ?H3; [lia..|]. rewrite Er. constructor; rewrite ?G1, ?G2; [lia|lia|done|].
        replace (q + needed + (e_rec b q - needed)) with (q + e_rec b q) by lia. apply Hrest; [congruence|].
        intros i Hi. rewrite G6, F6 by lia. done.
    + apply Hnames. constructor; [|constructor]. unfold used. cbn [n_ino ent_at]. by rewrite G1.
    + apply put_entry_bytes; [done|done|constructor].
    + congruence.
  - apply Z.leb_gt in E8. assert (rec1 = e_rec b q) as Er by done.
    exists (es1 ++ Ent q child rec1 name :: [] ++ es2). split_and!; [|by apply Hnames|done|done].
    eapply (chain_replace b bs Hb Hl); [lia|exact C|lia| |].
    + intros i Hi. cbn [n_off ent_at] in Hi. apply F6; lia.
    + cbn [n_off ent_at app]. rewrite <- (Hent b1) by done. constructor; rewrite ?F2, ?F3; [lia..|]. rewrite Er.
      apply Hrest; [done|]. intros i Hi. apply F6; lia.
Qed.

(** Removing an entry takes its name out of the list. *)
Lemma absorb_chain q es1 es2 :
  let c := q + e_rec b q in
  chain b bs 0 (es1 ++ ent_at b q :: ent_at b c :: es2) ->
  let b' := unlink_entry b c (Some q) in
  exists es', chain b' bs 0 es' /\ names es' = names (es1 ++ [ent_at b q]) ++ names es2 /\ bytes_ok b' /\ length b' = length b.
Proof.
  intros c C b'. pose proof block_fits as Hl. destruct (chain_split _ _ _ _ _ _ C ltac:(lia)) as (Hq & _ & Ce). cbn [n_off ent_at] in Hq, Ce.
  inversion Ce as [|p es Hr Hle Hn C2 Ep]. subst p es. fold c in C2. inversion C2 as [|p es Hr2 Hle2 Hn2 C3 Ep]. subst p es.
  pose proof (chain_bs_p _ _ _ _ C3) as Hend. set (r := e_rec b q + e_rec b c). unfold b', unlink_entry, wr16. fold r.
  assert (Hw : within b (q + 4) (Z.of_nat (length (le16 r)))) by (repeat split; cbn [length le16]; unfold c in *; lia).
  set (b1 := Ring.blit b (q + 4) (le16 r)).
  assert (El : length b1 = length b) by (by apply len_blit).
  assert (Hout : forall i, 0 <= i < 4096 -> ~ (q + 4 <= i < q + 6) -> aget b1 i = aget b i).
  { intros i Hi Ho. apply aget_blit_out; [done|lia|cbn [length le16]; lia]. }
  assert (E2 : e_rec b1 q = r).
  { apply rd16_intro; [unfold r, c in *; lia|]. pose proof (aget_blit_in b (q + 4) (le16 r) 0 Hw) as G0.
    pose proof (aget_blit_in b (q + 4) (le16 r) 1 Hw) as G1. rewrite Z.add_0_r in G0.
    unfold b1. rewrite G0, G1 by (cbn [length le16]; lia). done. }
  assert (E1 : e_ino b1 q = e_ino b q) by (unfold e_ino, rd32; rewrite !Hout by (unfold c in *; lia); done).
  assert (E3 : e_nlen b1 q = e_nlen b q) by (apply Hout; unfold c in *; lia).
  assert (En : ent_at b1 q = Ent q (e_ino b q) r (n_name (ent_at b q))).
  { unfold ent_at. rewrite E1, E2, E3. f_equal. cbn [n_name]. destruct (e_ino b q =? 0) eqn:E0; [done|]. apply Z.eqb_neq in E0. specialize (Hn E0).
    pose proof (nlen_range b bs Hb Hl q ltac:(lia) ltac:(unfold c in *; lia)).
    apply aget_ext; [rewrite !Ring.length_slice by (unfold c in *; lia); done|]. intros i Hi.
    rewrite Ring.length_slice in Hi by (unfold c in *; lia). rewrite !aget_slice by (repeat split; unfold c in *; lia).
    apply Hout; unfold c in *; lia. }
  exists (es1 ++ ent_at b1 q :: es2). split_and!; [| |apply bytes_blit; auto|done].
  - eapply (chain_replace b bs Hb Hl); [lia|exact C|lia| |].
    + intros i Hi. cbn [n_off ent_at] in Hi. apply Hout; unfold c in *; lia.
    + cbn [n_off ent_at]. constructor; rewrite ?E1, ?E2, ?E3; [unfold r, c in *; lia..| |].
      * intros Hi. specialize (Hn Hi). unfold r. lia.
      * replace (q + r) with (c + e_rec b c) by (unfold r, c; lia). apply (chain_frame b bs Hb Hl); [lia|done|unfold c in *; lia|].
        intros i Hi. apply Hout; unfold c in *; lia.
  - rewrite !names_app, <- app_assoc. f_equal.
    assert (Hu : used (ent_at b1 q) = used (ent_at b q)) by (unfold used; cbn [n_ino ent_at]; by rewrite E1).
    destruct (used (ent_at b q)) eqn:Hub.
    + rewrite !names_used by done. cbn [app]. rewrite En. done.
    + rewrite !names_free by done. done.
Qed.

Lemma empty_chain es2 :
  chain b bs 0 (ent_at b 0 :: es2) ->
  let b' := unlink_entry b 0 None in
  exists es', chain b' bs 0 es' /\ names es' = names es2 /\ bytes_ok b' /\ length b' = length b.
Proof.
  intros C b'. pose proof block_fits as Hl. inversion C as [|p es Hr Hle Hn C2 Ep]. subst p es. pose proof (chain_bs_p _ _ _ _ C2) as Hend.
  unfold b', unlink_entry, wr32. change (0 + 6) with 6.
  assert (Hw1 : within b 0 (Z.of_nat (length (le32 0)))) by (repeat split; cbn [length le32]; lia).
  set (b0 := Ring.blit b 0 (le32 0)). assert (El0 : length b0 = length b) by (by apply len_blit).
  assert (Hw2 : within b0 6 (Z.of_nat (length [0; 0]))) by (repeat split; cbn [length]; lia).
  set (b1 := Ring.blit b0 6 [0; 0]). assert (El : length b1 = length b) by (rewrite <- El0; by apply len_blit).
  assert (Hout : forall i, 4 <= i < 4096 -> ~ (6 <= i < 8) -> aget b1 i = aget b i).
  { intros i Hi Ho. unfold b1. rewrite aget_blit_out by (done || lia || (cbn [length]; lia)).
    apply aget_blit_out; [done|lia|cbn [length le32]; lia]. }
  assert (E1 : e_ino b1 0 = 0).
  { apply rd32_intro; [done|]. assert (H4 : forall k, 0 <= k < 4 -> aget b1 k = aget (le32 0) k).
    { intros k Hk. unfold b1. rewrite aget_blit_out by (done || lia || (cbn [length]; lia)).
      rewrite <- (Z.add_0_l k) at 1. apply aget_blit_in; [done|cbn [length le32]; lia]. }
    rewrite !H4 by lia. done. }
  assert (E2 : e_rec b1 0 = e_rec b 0) by (unfold e_rec, rd16; rewrite !Hout by lia; done).
  exists (ent_at b1 0 :: es2). split_and!; [| |apply bytes_blit; [apply bytes_blit; auto|by repeat constructor]|done].
  - constructor; rewrite ?E2, ?E1; [done..|]. apply (chain_frame b bs Hb Hl); [lia|done|lia|].
    intros i Hi. apply Hout; lia.
  - apply names_free. unfold used. cbn [n_ino ent_at]. by rewrite E1.
Qed.
End Change.

(** ** The block as a list of names *)
Fixpoint assoc (name : list Z) (l : list (list Z * Z)) : option Z :=
  match l with [] => None | (n, i) :: l' => if bool_decide (n = name) then Some i else assoc name l' end.

Lemma search_assoc name es prev : (fun r => r.1.1) <$> search name es prev = assoc name (names es).
Proof.
  revert prev. induction es as [|e es IH]; intros prev; [done|]. cbn [search]. destruct (used e) eqn:Hu; cbn [andb].
  - rewrite names_used by done. cbn [assoc]. case_bool_decide; [done|apply IH].
  - rewrite names_free by done. apply IH.
Qed.

Lemma search_some name es prev ino cur pr : search name es prev = Some (ino, cur, pr) ->
  exists es1 e es2, es = es1 ++ e :: es2 /\ used e = true /\ n_name e = name /\ n_ino e = ino /\ n_off e = cur /\
    pr = match last es1 with Some e1 => Some (n_off e1) | None => prev end /\ name ∉ (names es1).*1.
Proof.
  revert prev. induction es as [|e es IH]; intros prev E; [done|]. cbn [search] in E.
  destruct (used e && bool_decide (n_name e = name)) eqn:Eu.
  - injection E as <- <- <-. apply andb_true_iff in Eu as [Hu Hn%bool_decide_eq_true].
    exists [], e, es. split_and!; try done. apply not_elem_of_nil.
  - destruct (IH _ E) as (es1 & e' & es2 & -> & Hu & Hn & Hi & Ho & -> & Hnin). exists (e :: es1), e', es2. split_and!; try done.
    + rewrite last_cons. by destruct (last es1).
    + destruct (used e) eqn:Hue.
      * rewrite names_used by done. apply not_elem_of_cons. split; [|done]. intros ->. cbn in Eu. by rewrite bool_decide_true in Eu.
      * by rewrite names_free.
Qed.

(** C23: The walks of the driver over a directory block implement a list of
    names with their inodes: looking for a name gives the inode of its first
    entry; filling a slot found for a name puts the name in the list; removing
    the entry found for a name takes that entry, the first of the name, out of
    the list; and the block stays a chain of entries. *)
Theorem dir_block_refines_names b bs es :
  bytes_ok b -> Z.of_nat (length b) = 4096 -> 0 <= bs <= 4096 -> chain b bs 0 es ->
  (forall name, Z.of_nat (length name) <= 255 ->
    (fun r => r.1.1) <$> find_entry (Z.to_nat bs) b bs name 0 None = assoc name (names es)) /\
  (forall name child ftype q, Z.of_nat (length name) <= 255 -> bytes_ok name -> 0 < child < 2 ^ 32 -> is_byte ftype ->
    find_slot (Z.to_nat bs) b bs (needed_len (Z.of_nat (length name))) 0 = Some q ->
    exists es' l1 l2, chain (fill_slot b q (needed_len (Z.of_nat (length name))) child ftype name) bs 0 es' /\
      names es = l1 ++ l2 /\ names es' = l1 ++ (name, child) :: l2) /\
  (forall name ino cur prev, Z.of_nat (length name) <= 255 ->
    find_entry (Z.to_nat bs) b bs name 0 None = Some (ino, cur, prev) ->
    exists es' l1 l2, chain (unlink_entry b cur prev) bs 0 es' /\
      names es = l1 ++ (name, ino) :: l2 /\ (name ∉ l1.*1) /\ names es' = l1 ++ l2).
Proof.
  intros Hb Hl Hbs C. pose proof (chain_le _ _ _ _ C) as Hlen. assert (Hfit : bs <= Z.of_nat (length b)) by lia.
  assert (Hfind : forall name, Z.of_nat (length name) <= 255 -> find_entry (Z.to_nat bs) b bs name 0 None = search name es None).
  { intros name Hn. apply find_entry_search; (done || lia). }
  split_and!.
  - intros name Hn. rewrite Hfind by done. apply search_assoc.
  - intros name child ftype q Hn Hbn Hc Hf Hs. destruct (find_slot_spec b bs _ _ _ _ _ C ltac:(lia) Hs) as (es1 & es2 & -> & Hq & E0 & Hr).
    destruct (fill_slot_chain b bs Hb Hl Hbs q es1 es2 name child ftype C E0 Hr Hn Hbn Hc Hf) as (es' & C' & En & _).
    exists es', (names es1), (names es2). split_and!; [done| |done].
    rewrite names_app, names_free; [done|]. unfold used. cbn [n_ino ent_at]. by rewrite E0.
  - intros name ino cur prev Hn Hs. rewrite Hfind in Hs by done.
    destruct (search_some _ _ _ _ _ _ Hs) as (es1 & e & es2 & -> & Hu & He & Hi & Ho & Hp & Hnin).
    assert (Ent : names (es1 ++ e :: es2) = names es1 ++ (name, ino) :: names es2) by (rewrite names_app, names_used by done; by rewrite He, Hi).
    destruct (chain_split _ _ _ _ _ _ C ltac:(lia)) as (Hq & Ee & _).
    destruct es1 as [|ep es1 _] using rev_ind.
    + cbn in Hp. subst prev. pose proof C as C2. inversion C2 as [|p es' Hr Hle Hn2 C3 Ep]. subst. cbn [n_off ent_at].
      destruct (empty_chain b bs Hb Hl Hbs es2 C) as (es'' & C' & En & _). exists es'', [], (names es2).
      split_and!; [exact C'|exact Ent|apply not_elem_of_nil|exact En].
    + rewrite last_snoc in Hp. subst prev. rewrite <- app_assoc in C. cbn [app] in C.
      destruct (chain_split _ _ _ _ _ _ C ltac:(lia)) as (Hq2 & Eep & C2). rewrite Eep in C2. inversion C2 as [|p es' Hr Hle Hn2 C3 Ep]. subst p es'.
      pose proof C3 as C4. inversion C4 as [|p es' Hr3 Hle3 Hn3 C5 Ep Ee3]. subst p es'.
      assert (Ecur : cur = n_off ep + e_rec b (n_off ep)) by (by rewrite <- Ho, <- Ee3).
      rewrite Eep, <- Ee3 in C. destruct (absorb_chain b bs Hb Hl Hbs (n_off ep) es1 es2 C) as (es'' & C' & En & _).
      rewrite <- Ecur in C'. exists es'', (names (es1 ++ [ep])), (names es2). split_and!; [exact C'| |exact Hnin|]. 
      { by rewrite Ee3. }
      by rewrite En, <- Eep.
Qed.

(** A block with one free entry. *)
Definition blank : list Z := put_entry (replicate 4096 0) 0 0 1024 0 [].

Lemma blank_fields : e_ino blank 0 = 0 /\ e_rec blank 0 = 1024 /\ Z.of_nat (length blank) = 4096 /\ bytes_ok blank.
Proof.
  destruct (put_entry_fields (replicate 4096 0) 0 0 1024 0 []) as (F1 & F2 & _ & _ & F5 & _);
    [rewrite <- (Nat2Z.id 4096); repeat split; rewrite ?length_replicate; cbn [length]; lia|lia|lia|cbn; lia|].
  split_and!; [done|done|unfold blank; rewrite F5, length_replicate; done|].
  apply put_entry_bytes; [by apply Forall_replicate|done|constructor].
Qed.

Lemma blank_slot : find_slot (Z.to_nat 1024) blank 1024 (needed_len 1) 0 = Some 0.
Proof.
  destruct blank_fields as (E1 & E2 & _). change (Z.to_nat 1024) with (S 1023). generalize 1023%nat. intros f.
  cbn [find_slot]. cbv zeta. by rewrite E1, E2.
Qed.

Lemma dir_block_refines_names_witness : exists es', chain (fill_slot blank 0 (needed_len 1) 5 1 [97]) 1024 0 es' /\ names es' = [([97], 5)].
Proof.
  destruct blank_fields as (E1 & E2 & El & Hb).
  assert (C : chain blank 1024 0 [ent_at blank 0]) by (constructor; rewrite ?E1, ?E2; [lia..|constructor]).
  assert (Hn : Z.of_nat (length [97]) <= 255 /\ bytes_ok [97] /\ 0 < 5 < 2 ^ 32 /\ is_byte 1 /\ 0 <= 1024 <= 4096)
    by (unfold is_byte; split_and!; [done|by constructor|lia..]).
  destruct Hn as (Hn & Hbn & Hc & Hf & Hbs).
  assert (Em : names [ent_at blank 0] = []) by (apply names_free; unfold used; cbn [n_ino ent_at]; by rewrite E1).
  destruct (dir_block_refines_names blank 1024 [ent_at blank 0] Hb El Hbs C) as (_ & Hins & _).
  destruct (Hins [97] 5 1 0 Hn Hbn Hc Hf blank_slot) as (es' & l1 & l2 & C' & E & E'). exists es'. split; [exact C'|].
  rewrite Em in E. symmetry in E. apply app_nil in E as [-> ->]. exact E'.
Defined.
End Ext2Names.
