(* ===== verification/Ext2Path.v ===== *)
(** Looking up names and paths in ext2: the directory read from the disk, the
    cache in front of it, and the walk along a path. *)
From S2P Require Import Prelude Ring Paths Bytes Ext2 Ext2Blocks Ext2Layout Ext2Alloc Ext2File Ext2Write Ext2Demo Ext2Dir Ext2Names.

Module Ext2Path.
Import Paths Bytes Ext2 Ext2Blocks Ext2Layout Ext2Alloc Ext2File Ext2Write Ext2Demo Ext2Dir Ext2Names.

(** ** The entries the directory reader shows *)

(** No NUL inside a name in use. *)
Definition plain (es : list ent) : Prop := Forall (fun e => used e = true -> 0 ∉ n_name e) es.

Lemma cstr_plain l : 0 ∉ l -> cstr l = l.
Proof.
  induction l as [|c l IH]; intros Hn; [done|]. apply not_elem_of_cons in Hn as [Hc Hn]. cbn [cstr].
  rewrite (proj2 (Z.eqb_neq c 0)) by lia. by rewrite IH.
Qed.

Lemma dir_entries_chain b bs fuel p es : bytes_ok b -> bs <= Z.of_nat (length b) -> chain b bs p es -> 0 <= p -> plain es -> (length es <= fuel)%nat ->
  (fun d => (de_name d, de_inode d)) <$> dir_entries fuel b bs p = names es.
Proof.
  intros Hb Hl C. revert fuel. induction C as [|p es Hr Hle Hn C IH]; intros fuel H0 Hp Hf.
  - destruct fuel; [done|]. cbn [dir_entries]. by rewrite (proj2 (Z.ltb_lt bs _)) by lia.
  - destruct fuel as [|fuel]; [cbn in Hf; lia|]. cbn [dir_entries]. rewrite (proj2 (Z.ltb_ge bs _)) by lia. cbv zeta.
    rewrite (proj2 (Z.eqb_neq (e_rec b p) 0)) by lia. apply Forall_cons in Hp as [Hpe Hp]. unfold used in Hpe. cbn [n_ino n_name ent_at] in Hpe.
    pose proof (IH fuel ltac:(lia) Hp ltac:(cbn in Hf; lia)) as E. destruct (e_ino b p =? 0) eqn:E0.
    + rewrite names_free by (unfold used; cbn [n_ino ent_at]; by rewrite E0). exact E.
    + rewrite names_used by (unfold used; cbn [n_ino ent_at]; by rewrite E0). rewrite fmap_cons, E. f_equal. cbn [de_name de_inode n_name n_ino ent_at].
      rewrite E0. pose proof (nlen_range b bs Hb Hl p H0 ltac:(lia)). rewrite Z.min_l by lia. rewrite cstr_plain; [done|]. by apply Hpe.
Qed.

Lemma call_back_lookup name ds c :
  call_back (ext2_lookup_cb name) ds c =
    match assoc name ((fun d => (de_name d, de_inode d)) <$> ds) with Some i => (Some i, true) | None => (c, false) end.
Proof.
  induction ds as [|d ds IH]; [done|]. cbn [call_back]. unfold ext2_lookup_cb at 1. rewrite fmap_cons. cbn [assoc].
  case_bool_decide; [done|]. exact IH.
Qed.

Lemma assoc_app name l l' : assoc name (l ++ l') = match assoc name l with Some i => Some i | None => assoc name l' end.
Proof. induction l as [|[n i] l IH]; [done|]. cbn [assoc app]. by case_bool_decide. Qed.

Lemma chain_det b bs p es es' : chain b bs p es -> chain b bs p es' -> es = es'.
Proof.
  intros C. revert es'. induction C as [|p es Hr Hle Hn C IH]; intros es' C'.
  - inversion C' as [E|p' es0 Hr Hle]; [done|]. subst. lia.
  - inversion C' as [E|p' es0 Hr' Hle' Hn' C2]; [subst; lia|]. subst. f_equal. by apply IH.
Qed.

(** ** Directories on the disk *)
Section Dirs.
  Context {D : Type} {BD : BlockDev D} {BSp : BlockSpec D}.

Definition block_names (s : fs D) (blk : Z) (ns : list (list Z * Z)) : Prop :=
    exists es, chain (block s blk) (ext2_blk_size s) 0 es /\ plain es /\ names es = ns.

(** Block [k] of the directory is on the disk and holds the names [ns]. *)
Definition dir_block (s : fs D) (inode : ext2_inode_t) (k : Z) (ns : list (list Z * Z)) : Prop :=
    mapped s inode k /\ file_block s inode k <> 0 /\ on_disk s (file_block s inode k) /\ block_names s (file_block s inode k) ns.

(** The directory has the names [l], block after block, and no holes. *)
Definition dir_holds (s : fs D) (inode : ext2_inode_t) (l : list (list Z * Z)) : Prop :=
    exists nss, l = concat nss /\ Forall2 (dir_block s inode) (zrange (Z.to_nat (dir_blocks inode (ext2_blk_size s)))) nss.

(** States that show the same image. *)
Definition view (s s' : fs D) : Prop := image (disk s') = image (disk s) /\ ext2_blk_size s' = ext2_blk_size s.

Lemma view_dir_block s s' inode k ns : view s s' -> dir_block s inode k ns -> dir_block s' inode k ns.
Proof.
  intros [Ei Eb]. unfold dir_block, block_names, mapped, file_block, word, on_disk, block. by rewrite Ei, Eb.
Qed.

Lemma view_dir s s' inode l : view s s' -> dir_holds s inode l -> dir_holds s' inode l.
Proof.
  intros V (nss & -> & Hf). exists nss. split; [done|]. destruct V as [Ei Eb]. rewrite Eb.
  eapply Forall2_impl; [exact Hf|]. intros k ns. by apply view_dir_block.
Qed.

Lemma same_view s s' : same s s' -> view s s'.
Proof. intros T. split; [exact (to_image _ _ _ T)|exact (same_bs _ _ T)]. Qed.

Lemma dir_det s inode l l' : dir_holds s inode l -> dir_holds s inode l' -> l = l'.
Proof.
  intros (nss & -> & Hf) (nss' & -> & Hf'). f_equal. revert nss' Hf'.
  induction Hf as [|k ns ks nss (_ & _ & _ & es & C & _ & <-) Hf IH]; intros nss' Hf'; [by apply Forall2_nil_inv_l in Hf'|].
  apply Forall2_cons_inv_l in Hf' as (ns' & nss'' & (_ & _ & _ & es' & C' & _ & <-) & Hf'' & ->).
  rewrite (chain_det _ _ _ _ _ C C'). f_equal. by apply IH.
Qed.

Lemma read_dir_lookup name inode bls nss s : geo s -> Forall2 (dir_block s inode) bls nss ->
  exists s', read_dir_in inode bls (ext2_lookup_cb name) None s = (s', Some (assoc name (concat nss))) /\ same s s'.
Proof.
  intros G Hf. revert s G Hf. revert nss. induction bls as [|k bls IH]; intros nss s G Hf.
  { apply Forall2_nil_inv_l in Hf as ->. exists s. split; [done|by apply to_refl]. }
  apply Forall2_cons_inv_l in Hf as (ns & nss' & (Hm & Hz & Hod & es & C & Hp & Hn) & Hf & ->). cbn [read_dir_in].
  destruct (data_block_spec s inode k G Hm) as (s1 & E1 & T1 & _). run E1. rewrite (proj2 (Z.eqb_neq _ 0) Hz).
  set (blk := file_block s inode k) in *. pose proof (same_geo _ _ G T1) as G1. pose proof (same_on_disk _ _ _ T1 Hod) as Hod1.
  destruct (read_block_spec s1 blk Blk G1 Hod1) as (s2 & E2 & T2 & B2 & _). run E2. rewrite !bind_gets. cbn [get_buf] in B2.
  assert (T : same s s2) by (by eapply same_trans). pose proof (same_bs _ _ T) as Ebs. rewrite Ebs.
  pose proof (bs_facts s G) as Hbs. pose proof (len_block s blk G Hod) as Lb. pose proof (g_blk s1 G1) as Lk.
  pose proof (same_geo _ _ G T) as G2. pose proof (g_blk s2 G2) as Lk2.
  rewrite (same_block s s1 blk T1) in B2.
  assert (Hbb : bytes_ok (block s blk)) by (apply bytes_slice, (g_image s G)).
  assert (C2 : chain (ext2_blkbuf s2) (ext2_blk_size s) 0 es).
  { apply (chain_frame (block s blk) (ext2_blk_size s) Hbb); [lia|lia|done|lia|]. intros i Hi.
    rewrite B2, Ring.aget_blit, decide_True by lia. by rewrite Z.sub_0_r. }
  pose proof (chain_le _ _ _ _ C) as Hle.
  rewrite call_back_lookup, (dir_entries_chain _ _ _ _ es) by (done || lia || apply (g_bufs s2 G2)). rewrite Hn.
  cbn [concat]. rewrite assoc_app. destruct (assoc name ns) as [i|]; [by exists s2|].
  destruct (IH nss' s2 G2) as (s3 & E3 & T3).
  { eapply Forall2_impl; [exact Hf|]. intros k' ns'. apply view_dir_block. by apply same_view. }
  exists s3. split; [exact E3|by eapply same_trans].
Qed.
End Dirs.

(** ** Looking up a name *)
Section Lookup.
  Variable L : layout.
  Hypothesis HL : layout_ok L.
  Context {D : Type} {BD : BlockDev D} {BSp : BlockSpec D}.

(** Inode [ino] is a directory with the names [l]. *)
Definition holds (s : fs D) (ino : Z) (l : list (list Z * Z)) : Prop :=
    valid L (Ino ino) /\ is_dir (inode_of L s ino) = true /\ dir_holds s (inode_of L s ino) l.

(** What is in the cache is in the directories. *)
Definition cache_ok (s : fs D) : Prop :=
    Forall (fun d => d_valid d <> 0 -> exists l, holds s (d_parent d) l /\ assoc (d_name d) l = Some (d_child d)) (dcache s).

Lemma view_holds s s' ino l : view s s' -> holds s ino l -> holds s' ino l.
Proof.
  intros V (Hv & Hd & Hl). assert (E : inode_of L s' ino = inode_of L s ino) by (unfold inode_of, content; by rewrite (proj1 V)).
  unfold holds. rewrite E. split_and!; [done|done|by eapply view_dir].
Qed.

Lemma cache_flushed (s : fs D) : cache_ok (dcache_flush s).
Proof. unfold cache_ok, dcache_flush. cbn. apply Forall_fmap, Forall_true. intros d Hd. by destruct Hd. Qed.

Lemma dcache_lookup_some (s : fs D) parent name c : dcache_lookup parent name s = Some c ->
  exists d, d ∈ dcache s /\ d_valid d <> 0 /\ d_parent d = parent /\ d_name d = name /\ d_child d = c.
Proof.
  unfold dcache_lookup. intros (i & Hi & ->)%fmap_Some. apply find_index_Some in Hi as (d & Hd & Hh & _).
  unfold dcache_hit in Hh. rewrite !andb_true_iff in Hh. destruct Hh as [[[Hv%negb_true_iff Hp%Z.eqb_eq] _] Hn%bool_decide_eq_true].
  exists d. apply Z.eqb_neq in Hv. split_and!; [by eapply list_elem_of_lookup_2|done..|]. by rewrite (aget_lookup _ _ _ Hd).
Qed.

Lemma lookup_spec s parent name l : wf L s -> cache_ok s -> holds s parent l -> name <> [] ->
  exists s', ext2_lookup parent name s = (s', assoc name l) /\ wf L s' /\ view s s' /\ cache_ok s'.
Proof.
  intros W K (Hv & Hd & Hl) Hn. pose proof (wf_geo L s W) as G. unfold ext2_lookup, check_name.
  assert (E0 : bind (gets ext2_mounted) (fun m => guard (negb ((m =? 0) || bool_decide (name = [])))) s = (s, Some tt)).
  { unfold bind, gets. by rewrite (proj2 (Z.eqb_neq _ 0) (g_mounted s G)), bool_decide_false by done. }
  run E0. rewrite bind_gets. destruct (dcache_lookup parent name s) as [c|] eqn:Ec.
  { destruct (dcache_lookup_some s parent name c Ec) as (d & Hin & Hdv & <- & <- & <-). pose proof K as K0. unfold cache_ok in K0. rewrite Forall_forall in K0.
    destruct (K0 d Hin Hdv) as (l' & (_ & _ & Hl') & Ea). rewrite (dir_det _ _ _ _ Hl Hl'), Ea. exists s. done. }
  unfold ext2_read_dir. destruct Hl as (nss & -> & Hf).
  destruct (read_inode_to L HL s parent W Hv) as (s1 & E1 & T1 & _). pose proof (same_geo _ _ G T1) as G1.
  destruct (read_dir_lookup name (inode_of L s parent) (zrange (Z.to_nat (dir_blocks (inode_of L s parent) (ext2_blk_size s)))) nss s1 G1) as (s2 & E2 & T2).
  { eapply Forall2_impl; [exact Hf|]. intros k ns. apply view_dir_block. by apply same_view. }
  assert (E3 : bind (gets ext2_mounted) (fun m => bind (guard (negb (m =? 0))) (fun _ => bind (ext2_read_inode parent) (fun inode =>
    bind (guard (is_dir inode)) (fun _ => bind (gets ext2_blk_size) (fun bs =>
      read_dir_in inode (zrange (Z.to_nat (dir_blocks inode bs))) (ext2_lookup_cb name) None))))) s = (s2, Some (assoc name (concat nss)))).
  { rewrite bind_gets, bind_guard by (by rewrite (proj2 (Z.eqb_neq _ 0) (g_mounted s G))). run E1. rewrite bind_guard by done.
    rewrite bind_gets, (same_bs s s1 T1). exact E2. }
  run E3. assert (T : same s s2) by (by eapply same_trans). pose proof (same_view _ _ T) as V.
  assert (W2 : wf L s2) by (apply (ch_wf _ _ _ _ (to_unchanged L s s2 W T))).
  assert (K2 : cache_ok s2).
  { unfold cache_ok. destruct (to_same _ _ _ T) as (_ & _ & _ & _ & _ & _ & _ & ->). eapply Forall_impl; [exact K|].
    intros d Hc Hdv. destruct (Hc Hdv) as (l & Hh & Ea). exists l. split; [by eapply view_holds|done]. }
  destruct (assoc name (concat nss)) as [c|] eqn:Ea; [|by exists s2]. rewrite bind_modify. exists (dcache_insert parent name c s2).
  assert (Vi : view s2 (dcache_insert parent name c s2)) by (unfold dcache_insert; by case_match).
  split; [done|]. split_and!.
  - unfold dcache_insert. case_match; [done|]. destruct W2 as [[] ? ? ? ? ? ?]. constructor; [constructor|..]; done.
  - destruct V, Vi. split; congruence.
  - assert (Hh : holds s2 parent (concat nss)) by (eapply view_holds; [exact V|]; split_and!; [done|done|by exists nss]).
    set (s3 := dcache_insert parent name c s2) in *.
    assert (Hk : Forall (fun d => d_valid d <> 0 -> exists l, holds s3 (d_parent d) l /\ assoc (d_name d) l = Some (d_child d)) (dcache s2)).
    { eapply Forall_impl; [exact K2|]. intros d Hc Hdv. destruct (Hc Hdv) as (l & Hl & El). exists l. split; [|done]. by eapply view_holds. }
    assert (Hnew : exists l, holds s3 parent l /\ assoc name l = Some c) by (exists (concat nss); split; [by eapply view_holds|done]).
    unfold cache_ok, s3, dcache_insert. destruct (DCACHE_NAME_MAX <? Z.of_nat (length name)) eqn:E; [|cbn [dcache]; apply Forall_aset].
    + unfold s3, dcache_insert in Hk. by rewrite E in Hk.
    + unfold s3, dcache_insert in Hk. by rewrite E in Hk.
    + intros _. unfold s3, dcache_insert in Hnew. by rewrite E in Hnew.
Qed.

Lemma lookup_not_dir s ino name : wf L s -> cache_ok s -> valid L (Ino ino) -> is_dir (inode_of L s ino) = false -> name <> [] ->
  exists s', ext2_lookup ino name s = (s', None).
Proof.
  intros W K Hv Hd Hn. pose proof (wf_geo L s W) as G. unfold ext2_lookup, check_name.
  assert (E0 : bind (gets ext2_mounted) (fun m => guard (negb ((m =? 0) || bool_decide (name = [])))) s = (s, Some tt)).
  { unfold bind, gets. by rewrite (proj2 (Z.eqb_neq _ 0) (g_mounted s G)), bool_decide_false by done. }
  run E0. rewrite bind_gets. destruct (dcache_lookup ino name s) as [c|] eqn:Ec.
  { destruct (dcache_lookup_some s ino name c Ec) as (d & Hin & Hdv & <- & <- & <-). unfold cache_ok in K. rewrite Forall_forall in K.
    destruct (K d Hin Hdv) as (l' & (_ & Hd' & _) & _). by rewrite Hd in Hd'. }
  destruct (read_inode_to L HL s ino W Hv) as (s1 & E1 & T1 & _). exists s1. unfold ext2_read_dir, bind at 1 2.
  unfold gets at 1, bind at 1. unfold guard at 1. rewrite (proj2 (Z.eqb_neq _ 0) (g_mounted s G)). cbn [negb ret].
  unfold bind at 1. rewrite E1. unfold bind, guard. by rewrite Hd.
Qed.

(** Following the components from inode [cur]: through directories, to a name
    that is missing, or to something that is not a directory. *)
Inductive walk (s : fs D) : Z -> list (list Z) -> option Z -> Prop :=
| walk_nil cur : walk s cur [] (Some cur)
| walk_next cur l c next cs r : holds s cur l -> assoc c l = Some next -> walk s next cs r -> walk s cur (c :: cs) r
| walk_missing cur l c cs : holds s cur l -> assoc c l = None -> walk s cur (c :: cs) None
| walk_not_dir cur c cs : valid L (Ino cur) -> is_dir (inode_of L s cur) = false -> walk s cur (c :: cs) None.

Lemma view_walk s s' cur cs r : view s s' -> walk s cur cs r -> walk s' cur cs r.
Proof.
  intros V. induction 1 as [cur|cur l c next cs r Hh Ha Hw IH|cur l c cs Hh Ha|cur c cs Hv Hd].
  - constructor.
  - eapply walk_next; [by eapply view_holds|done|done].
  - eapply walk_missing; [by eapply view_holds|done].
  - apply walk_not_dir; [done|]. unfold inode_of, content. by rewrite (proj1 V).
Qed.

Lemma lookup_segs_spec fuel p cur s r : wf L s -> cache_ok s -> (length p <= fuel)%nat ->
  Forall (fun c => (length c <= 255)%nat) (components p) -> walk s cur (components p) r ->
  exists s', lookup_segs fuel p cur s = (s', r) /\ (r <> None -> wf L s' /\ view s s' /\ cache_ok s').
Proof.
  revert p cur s. induction fuel as [|fuel IH]; intros p cur s W K Hf Hc Hw.
  { destruct p; [|cbn in Hf; lia]. inversion Hw; subst. by exists s. }
  destruct p as [|c p]; [inversion Hw; subst; by exists s|]. cbn [lookup_segs].
  pose proof (take_seg_step 255 c p Hc) as Hstep. destruct (take_seg 255 (c :: p)) as [seg rest] eqn:Et.
  destruct Hstep as [Hcomp Hshort]. cbn [length] in Hf, Hshort.
  rewrite Hcomp in Hc, Hw. apply Forall_app in Hc as [_ Hc]. destruct (decide (seg = [])) as [->|Hne].
  { rewrite bool_decide_true by done. apply IH; [done..|lia|done|done]. }
  rewrite bool_decide_false by done. cbn [app] in Hw. inversion Hw as [|? l ? next ? ? Hh Ha Hw'|? l ? ? Hh Ha|? ? ? Hv Hd]; subst.
  - destruct (lookup_spec s cur seg l W K Hh Hne) as (s1 & E1 & W1 & V1 & K1). rewrite Ha in E1. run E1.
    destruct (IH (skip_slash rest) next s1 W1 K1 ltac:(lia) Hc (view_walk _ _ _ _ _ V1 Hw')) as (s2 & E2 & Hok). exists s2. split; [done|].
    intros Hn. destruct (Hok Hn) as (W2 & V2 & K2). split_and!; [done| |done]. destruct V1, V2. split; congruence.
  - destruct (lookup_spec s cur seg l W K Hh Hne) as (s1 & E1 & _). rewrite Ha in E1. exists s1. by rewrite (bind_stop _ _ _ _ E1).
  - destruct (lookup_not_dir s cur seg W K Hv Hd Hne) as (s1 & E1). exists s1. by rewrite (bind_stop _ _ _ _ E1).
Qed.
End Lookup.

(** C24: With a cache that agrees with the directories, looking up an absolute
    path gives what following its components from the root does: the inode at
    the end, or a failure at the first missing name or at something that is
    not a directory; empty components do not count, nothing on the disk
    changes and the cache still agrees. *)
Theorem ext2_lookup_path_walk {D} {BD : BlockDev D} {BSp : BlockSpec D} L (s : fs D) p r :
  layout_ok L -> wf L s -> cache_ok L s -> Forall (fun c => (length c <= 255)%nat) (components p) ->
  walk L s EXT2_ROOT_INO (components p) r ->
  exists s', ext2_lookup_path (47 :: p) s = (s', r) /\ (r <> None -> image (disk s') = image (disk s) /\ cache_ok L s').
Proof.
  intros HL W K Hc Hw. unfold ext2_lookup_path. rewrite bind_gets, bind_guard.
  2: { by rewrite (proj2 (Z.eqb_neq _ 0) (g_mounted s (wf_geo L s W))). }
  rewrite bind_guard by done. destruct (lookup_segs_spec L HL (length p) p EXT2_ROOT_INO s r W K ltac:(done) Hc Hw) as (s' & E & Hok).
  exists s'. split; [done|]. intros Hn. destruct (Hok Hn) as (_ & [V _] & K'). done.
Qed.

(** ** The small image with a root directory that holds one name *)
Definition root0 : ext2_inode_t := inode0 <| i_mode := 0x41ED |> <| i_links_count := 2 |> <| i_size := 1024 |>
  <| i_block := aset (replicate 15 0) 0 6 |>.
Definition root_block : list Z := put_entry (replicate 1024 0) 0 3 1024 EXT2_FT_REG [97].
Definition rooted1 : fs (list Z) := demo <| disk := Ring.blit demo_image 5248 (encode_inode root0) |>.
Definition rooted : fs (list Z) := rooted1 <| disk := Ring.blit (Ring.blit demo_image 5248 (encode_inode root0)) 6144 root_block |>.

Lemma root0_ok : inode_ok root0.
Proof. split; cbn; try done; repeat constructor; done. Qed.

Lemma root_block_fields : Z.of_nat (length root_block) = 1024 /\ bytes_ok root_block /\
  e_ino root_block 0 = 3 /\ e_rec root_block 0 = 1024 /\ e_nlen root_block 0 = 1 /\ Ring.slice root_block 8 1 = [97].
Proof.
  destruct (put_entry_fields (replicate 1024 0) 0 3 1024 EXT2_FT_REG [97]) as (F1 & F2 & F3 & F4 & F5 & _);
    [repeat split; rewrite ?length_replicate; cbn [length]; lia|lia|lia|cbn; lia|].
  split_and!; [unfold root_block; rewrite F5, length_replicate; done| |done..].
  apply put_entry_bytes; [by apply Forall_replicate|done|by repeat constructor].
Qed.

Lemma demo_to im : bytes_ok im -> forall s : fs (list Z), geo s -> to s im (s <| disk := im |>).
Proof.
  intros Hb s [_ _ _ _ _ Lb Li _ _ [Bb Bi]]. exists im, (ext2_blkbuf s), (ext2_indbuf s). by destruct s.
Qed.

Lemma rooted1_ok : changed demo_layout [Ino 2] demo rooted1 /\ content demo_layout rooted1 (Ino 2) = encode_inode root0.
Proof.
  pose proof (bytes_encode_inode _ root0_ok) as Hb. pose proof (length_encode_inode _ root0_ok) as Hl.
  apply (to_changed demo_layout demo_layout_ok demo rooted1 (Ino 2) (encode_inode root0) demo_wf); [done|done| |done|].
  - cbn [place snd]. lia.
  - apply (demo_to (Ring.blit demo_image 5248 (encode_inode root0))); [|apply demo_geo].
    apply bytes_blit; [apply demo_bytes|done].
Qed.

Lemma rooted_ok : changed demo_layout [Data 6] rooted1 rooted /\ content demo_layout rooted (Data 6) = root_block.
Proof.
  destruct root_block_fields as (Hl & Hb & _). destruct rooted1_ok as [C1 _].
  apply (to_changed demo_layout demo_layout_ok rooted1 rooted (Data 6) root_block (ch_wf _ _ _ _ C1)); [done|done|exact Hl|done|].
  apply (demo_to (Ring.blit (Ring.blit demo_image 5248 (encode_inode root0)) 6144 root_block)); [|apply (wf_geo _ _ (ch_wf _ _ _ _ C1))].
  apply bytes_blit; [|done]. apply bytes_blit; [apply demo_bytes|apply bytes_encode_inode, root0_ok].
Qed.

Lemma rooted_root : inode_of demo_layout rooted 2 = root0 /\ is_dir root0 = true.
Proof.
  split; [|reflexivity]. assert (Hv : valid demo_layout (Ino 2)) by (split; cbn; lia). assert (Hn : Ino 2 ∉ [Data 6]) by not_in.
  destruct rooted1_ok as [C1 E1], rooted_ok as [C2 _]. unfold inode_of.
  rewrite (ch_rest _ _ _ _ C2 (Ino 2) Hv Hn), E1. apply decode_encode_inode, root0_ok.
Qed.

Lemma rooted_holds : holds demo_layout rooted EXT2_ROOT_INO [([97], 3)].
Proof.
  destruct rooted_root as [Er Ed]. destruct rooted_ok as [C2 E2]. destruct root_block_fields as (Hl & Hb & F1 & F2 & F3 & F4).
  pose proof (ch_wf _ _ _ _ C2) as W. destruct (block_on_disk demo_layout demo_layout_ok rooted (Data 6) 6 W) as [Hod Eb].
  { apply data_at; [exact demo_layout_ok|split; lia]. }
  rewrite E2 in Eb. clear E2 C2 W.
  split; [change (1 <= 2 <= 8); lia|]. change EXT2_ROOT_INO with 2. rewrite Er. split; [exact Ed|]. exists [[([97], 3)]]. split; [reflexivity|].
  change (Forall2 (dir_block rooted root0) [0] [[([97], 3)]]). constructor; [|constructor].
  split; [unfold mapped; change (ext2_blk_size rooted) with 1024; change (1024 / 4) with 256; split; [lia|]; split; intros ?; lia|].
  change (file_block rooted root0 0) with 6. split; [lia|]. split; [exact Hod|].
  exists [ent_at root_block 0]. rewrite <- Eb. change (ext2_blk_size rooted) with 1024.
  assert (Ee : ent_at root_block 0 = Ent 0 3 1024 [97]) by (unfold ent_at; rewrite F1, F2, F3; exact (f_equal (Ent 0 3 1024) F4)).
  split_and!.
  - constructor; rewrite ?F1, ?F2, ?F3; [lia..|]. constructor.
  - rewrite Ee. constructor; [|constructor]. intros _. cbn. rewrite list_elem_of_singleton. lia.
  - by rewrite Ee.
Qed.

Lemma ext2_lookup_path_walk_witness : exists s', ext2_lookup_path [47; 97] rooted = (s', Some 3) /\ image (disk s') = image (disk rooted).
Proof.
  assert (Hc : Forall (fun c => (length c <= 255)%nat) (components [97])) by (constructor; [cbn; lia|constructor]).
  assert (K : cache_ok demo_layout rooted) by constructor.
  assert (Hw : walk demo_layout rooted EXT2_ROOT_INO (components [97]) (Some 3)).
  { change (components [97]) with [[97]]. eapply walk_next; [exact rooted_holds|reflexivity|constructor]. }
  destruct (ext2_lookup_path_walk demo_layout rooted [97] (Some 3) demo_layout_ok (ch_wf _ _ _ _ (proj1 rooted_ok)) K Hc Hw) as (s' & E & Hok).
  exists s'. split; [exact E|]. apply Hok. discriminate.
Defined.
End Ext2Path.
