(* ===== verification/SysMem.v ===== *)
(** The memory calls of the system-call table (src/src/kernel/syscall/table.c):
    mmap, munmap and brk over the page tables. *)
From S2P Require Import Prelude Memory Phys Vm VmSpace Vfs.

Module SysMem.
Import Phys Vm VmSpace Vfs.

#[local] Opaque Mm.HOT_ZONE_PAGES Mm.HEAP_BASE Mm.page_used zero.

Definition MAP_FIXED : Z := 0x10.
Definition MAP_ANONYMOUS : Z := 0x20.
Definition MMAP_HINT_BASE : Z := 0x7f0000100000.
Definition MAP_FAILED : Z := 2 ^ 64 - 1.

(** [(uint64_t)(-n)] *)
Definition err (n : Z) : Z := 2 ^ 64 - n.

(** [(x + 0xFFF) & ~0xFFFULL] *)
Definition page_up (x : Z) : Z := page_down (u64 (x + 0xFFF)).

Section Mmap.
  Context {E : Type} {FO : FileOps E}.

(** Memory and allocator, the static cursor, the descriptors and the files. *)
Record space := Space { vm : vmst; mmap_cursor : Z; fds : vfs; files : E }.

Definition on_vm (v : vmst) (s : space) : space := Space v (mmap_cursor s) (fds s) (files s).
Definition set_cursor (c : Z) (s : space) : space := Space (vm s) c (fds s) (files s).

Fixpoint place_tries (tries : nat) (mm a npages : Z) (v : vmst) : Z :=
  match tries with
  | O => 0
  | S t => if negb (vm_range_present mm a npages v) then a else place_tries t mm (u64 (a + PAGE_SIZE)) npages v
  end.

Definition PLACE_TRIES : Z := 0x40000.
Definition mmap_place_free (mm start npages : Z) (v : vmst) : Z := place_tries (Z.to_nat PLACE_TRIES) mm (page_up start) npages v.

(** A page of the file: the offset is moved there first. *)
Definition fill_page (f : option Z) (off page : Z) (s : space) : space :=
  match f with
  | None => s
  | Some f =>
      let e := set_file f (file_at (files s) f <| f_offset := off |>) (files s) in
      let '(e1, (_, bytes)) := vfs_read (Some f) PAGE_SIZE e in
      Space (vm s <| pmem := st_bytes (pmem (vm s)) page bytes |>) (mmap_cursor s) (fds s) e1
  end.

Fixpoint mmap_loop (n : nat) (i : Z) (f : option Z) (mm base offset flags : Z) (s : space) : space * bool :=
  match n with
  | O => (s, true)
  | S n' =>
      match vm_alloc_page (vm s) with
      | (v, None) => (on_vm v s, false)
      | (v, Some page) =>
          let s1 := fill_page f (u64 (offset + i * PAGE_SIZE)) page (on_vm v s) in
          let '(v2, r) := vm_map_page mm (u64 (base + i * PAGE_SIZE)) page flags (vm s1) in
          if r <? 0 then (on_vm v2 s1, false) else mmap_loop n' (i + 1) f mm base offset flags (on_vm v2 s1)
      end
  end.

Definition prot_flags (prot : Z) : Z :=
  let r := VM_USER in
  let r := if negb (Z.land prot 1 =? 0) then Z.lor r VM_READ else r in
  let r := if negb (Z.land prot 2 =? 0) then Z.lor r VM_WRITE else r in
  if negb (Z.land prot 4 =? 0) then Z.lor r VM_EXEC else r.

(** After an automatic placement up to [en]. *)
Definition bump_cursor (addr en : Z) (s : space) : space :=
  if addr =? 0 then
    let next := page_up en in
    if mmap_cursor s <? next then set_cursor next s else s
  else s.

(** [mm] is the current task's address space, 0 when there is none. *)
Definition sys_mmap (mm addr len prot flags fd offset : Z) (s : space) : space * Z :=
  if len =? 0 then (s, err 22) else
  let npages := u64 (len + 0xFFF) / 0x1000 in
  if mm =? 0 then (s, err 22) else
  let go base s :=
    let f := if negb (Z.land flags MAP_ANONYMOUS =? 0) then None else vfs_fd_get (i32 fd) (fds s) in
    let '(s1, ok) := mmap_loop (Z.to_nat npages) 0 f mm base offset (prot_flags prot) s in
    if ok : bool then (s1, base) else (s1, MAP_FAILED) in
  if Z.land flags MAP_FIXED =? 0 then
    let hint := if negb (addr =? 0) then addr else mmap_cursor s in
    let base := mmap_place_free mm hint npages (vm s) in
    if base =? 0 then (s, MAP_FAILED) else
    go base (bump_cursor addr (base + npages * PAGE_SIZE) s)
  else go addr s.

(** [None] where [vm_unmap] leaves its bitmap or does not end. *)
Definition sys_munmap (mm addr len : Z) (s : space) : option (space * Z) :=
  if mm =? 0 then Some (s, err 14) else
  if negb (Z.land addr 0xFFF =? 0) || (len =? 0) then Some (s, err 22) else
  let npages := u64 (len + 0xFFF) / 0x1000 in
  match vm_unmap mm addr (u64 (npages * PAGE_SIZE)) (vm s) with
  | Some (v, _) => Some (on_vm v s, 0)
  | None => None
  end.
End Mmap.
Arguments space E : clear implicits.

(** One page of a growing break. *)
Fixpoint brk_loop (n : nat) (mm a : Z) (v : vmst) : vmst * bool :=
  match n with
  | O => (v, true)
  | S n' =>
      match vm_alloc_page v with
      | (v1, None) => (v1, false)
      | (v1, Some page) =>
          let '(v2, r) := vm_map_page mm a page (Z.lor (Z.lor VM_USER VM_READ) VM_WRITE) v1 in
          if r <? 0 then (v2, false) else brk_loop n' mm (a + PAGE_SIZE) v2
      end
  end.

(** Both ends of the loop are multiples of the page size. *)
Definition sys_brk (mm b : Z) (v : vmst) : vmst * Z :=
  if mm =? 0 then (v, err 22) else
  if b =? 0 then (v, brk v mm) else
  let '(v1, ok) :=
    if brk v mm <? b then
      let start := page_up (brk v mm) in
      let en := page_up b in
      brk_loop (Z.to_nat ((en - start) / PAGE_SIZE)) mm start v
    else (v, true) in
  if ok : bool then let v2 := set_word (mm + 8) b v1 in (v2, brk v2 mm) else (v1, brk v1 mm).

(** ** The loops are those of [vm_map] *)
Lemma brk_loop_map n : forall mm a v,
  brk_loop n mm a v = let '(v', r) := vm_map_loop n mm a 11 v in (v', negb (r <? 0)).
Proof.
  induction n as [|n IH]; intros mm a v; [done|]. cbn [brk_loop vm_map_loop]. destruct (vm_alloc_page v) as [v1 [p|]]; [|done].
  change (Z.lor (Z.lor VM_USER VM_READ) VM_WRITE) with 11. destruct (vm_map_page mm a p 11 v1) as [v2 r]. destruct (r <? 0); [done|]. apply IH.
Qed.

Lemma mmap_loop_map {E} {FO : FileOps E} n : forall i mm base off flags (s : space E),
  0 <= base -> 0 <= i -> base + (i + Z.of_nat n) * 4096 <= 2 ^ 48 ->
  mmap_loop n i None mm base off flags s =
  let '(v', r) := vm_map_loop n mm (base + i * 4096) flags (vm s) in (on_vm v' s, negb (r <? 0)).
Proof.
  induction n as [|n IH]; intros i mm base off flags s Hb Hi He; cbn [mmap_loop vm_map_loop]; [by destruct s|].
  destruct (vm_alloc_page (vm s)) as [v1 [p|]]; [|done]. cbn [fill_page vm on_vm]. change PAGE_SIZE with 4096.
  rewrite (u64_small (base + i * 4096)) by lia. destruct (vm_map_page mm (base + i * 4096) p flags v1) as [v2 r]. destruct (r <? 0); [done|].
  rewrite IH by lia. cbn [vm on_vm]. replace (base + (i + 1) * 4096) with (base + i * 4096 + 4096) by lia.
  by destruct (vm_map_loop n mm (base + i * 4096 + 4096) flags v2) as [v3 r3].
Qed.

(** ** Finding room *)
Lemma page_up_spec x : 0 <= x -> x + 0xFFF < 2 ^ 64 ->
  x <= page_up x < x + 4096 /\ page_up x mod 4096 = 0.
Proof.
  intros H0 H. unfold page_up. rewrite u64_small by lia. rewrite page_down_eq.
  pose proof (Z_div_mod_eq_full (x + 0xFFF) 4096). pose proof (Z.mod_pos_bound (x + 0xFFF) 4096 ltac:(lia)). split; [lia|apply Z_mod_mult].
Qed.

Lemma range_absent mm a n v : mm <> 0 -> vm_range_present mm a n v = false ->
  forall i, 0 <= i < n -> vm_translate v mm (u64 (a + u64 (i * PAGE_SIZE))) = 0.
Proof.
  intros Hm H i Hi. unfold vm_range_present in H. rewrite (proj2 (Z.eqb_neq mm 0)) in H by done.
  destruct (Z.eqb_spec (vm_translate v mm (u64 (a + u64 (i * PAGE_SIZE)))) 0) as [|Hne]; [done|]. exfalso.
  apply not_true_iff_false in H. apply H. apply existsb_exists. exists i. split; [by apply list_elem_of_In, elem_of_zrange; lia|].
  by apply negb_true_iff, Z.eqb_neq.
Qed.

Definition free_run (v : vmst) (mm a : Z) (n : nat) : Prop := forall i, 0 <= i < Z.of_nat n -> vm_translate v mm (a + i * 4096) = 0.

Lemma place_tries_spec tries mm n v : mm <> 0 -> forall a, a mod 4096 = 0 -> 0 <= a -> a + (Z.of_nat tries + Z.of_nat n) * 4096 <= 2 ^ 48 ->
  let r := place_tries tries mm a (Z.of_nat n) v in
  r = 0 \/ a <= r <= a + Z.of_nat tries * 4096 /\ r mod 4096 = 0 /\ free_run v mm r n.
Proof.
  intros Hm. induction tries as [|t IH]; intros a Ha H0 He; cbv zeta; cbn [place_tries]; [by left|].
  destruct (vm_range_present mm a (Z.of_nat n) v) eqn:Ep; cbn [negb].
  - change PAGE_SIZE with 4096. rewrite u64_small by lia. destruct (IH (a + 4096)) as [H|(H1 & H2)]; [|lia|lia|by left|right].
    + by rewrite <- Zplus_mod_idemp_l, Ha.
    + split; [lia|done].
  - right. split; [lia|]. split; [done|]. intros i Hi. pose proof (range_absent mm a (Z.of_nat n) v Hm Ep i Hi) as H.
    change PAGE_SIZE with 4096 in H. by rewrite !u64_small in H by (rewrite ?u64_small; lia).
Qed.

Lemma mmap_place_free_spec mm hint n v : mm <> 0 -> 0 <= hint -> hint + (PLACE_TRIES + Z.of_nat n) * 4096 + 0x1000 <= 2 ^ 48 ->
  let r := mmap_place_free mm hint (Z.of_nat n) v in
  r = 0 \/ hint <= r <= hint + 0x1000 + PLACE_TRIES * 4096 /\ r mod 4096 = 0 /\ free_run v mm r n.
Proof.
  intros Hm H0 He. unfold PLACE_TRIES in He. destruct (page_up_spec hint H0 ltac:(lia)) as [Hu Ha].
  assert (Ht : Z.of_nat (Z.to_nat PLACE_TRIES) = 0x40000) by done. assert (Hp : PLACE_TRIES = 0x40000) by done. unfold mmap_place_free.
  set (tries := Z.to_nat PLACE_TRIES) in *. clearbody tries.
  rewrite Hp. destruct (place_tries_spec tries mm n v Hm (page_up hint) Ha ltac:(lia) ltac:(lia)) as [|(H1 & H2)]; [by left|right]. split; [lia|done].
Qed.

(** The page of [va] is backed by memory other than the page at 0. *)
Definition in_use (v : vmst) (c va : Z) : Prop := vm_translate v c (page_down va) <> 0.

Lemma in_use_off v mm a n va : a mod 4096 = 0 -> 0 <= a -> a + Z.of_nat n * 4096 <= 2 ^ 48 -> 0 <= va < 2 ^ 48 ->
  free_run v mm a n -> in_use v mm va -> off_run a n va.
Proof.
  intros Ha H0 He Hva Hf Hu i Hi Hv. apply Hu. rewrite page_down_eq. rewrite !vpn_small in Hv by lia.
  rewrite Z_div_plus_full in Hv by lia. pose proof (Z_div_mod_eq_full a 4096). rewrite <- (Hf (Z.of_nat i)) by lia. f_equal. lia.
Qed.

Lemma bump_cursor_spec {E} addr en (s : space E) : 0 <= en -> en + 0xFFF < 2 ^ 64 ->
  let s' := bump_cursor addr en s in
  vm s' = vm s /\ files s' = files s /\ (addr = 0 -> en <= mmap_cursor s').
Proof.
  intros H0 H. unfold bump_cursor. destruct (Z.eqb_spec addr 0) as [->|]; [|by split_and!].
  destruct (page_up_spec en H0 H) as [Q _]. destruct (Z.ltb_spec (mmap_cursor s) (page_up en)); cbn; split_and!; done || lia.
Qed.

Lemma map_free_run T v mm a n flags : vm_ok T v -> is_ctx T mm -> a mod 4096 = 0 -> 0 <= a -> a + Z.of_nat n * 4096 <= 2 ^ 48 ->
  free_run v mm a n ->
  let '(v', r) := vm_map_loop n mm a flags v in
  exists T', vm_step T v T' v' /\ (r = 0 \/ r = -1) /\
    (forall c va, is_ctx T c -> 0 <= va < 2 ^ 48 -> (c = mm -> in_use v mm va) -> lookup_va v' c va = lookup_va v c va) /\
    (r = 0 -> exists fs, length fs = n /\ mapped_run v T' v' mm a flags fs).
Proof.
  intros Hv Hc Ha H0 He Hf. pose proof (vm_map_loop_spec n T v mm a flags Hv Hc Ha H0 He) as P.
  destruct (vm_map_loop n mm a flags v) as [v' r]. destruct P as (T' & S1 & Hr & Hs & Hm). exists T'. split_and!; [done|done| |done].
  intros c va Hcc Hva Hu. apply Hs; [done|]. intros ->. apply (in_use_off v mm); auto.
Qed.

(** C28: An anonymous mapping that does not ask for an address never touches
    memory in use: no page that is backed, in this or any other address
    space, changes its translation or its permissions, whether the call
    succeeds or runs out of memory. On success the result is page aligned, not
    below the hint, none of its pages was backed before, and each is now
    backed by a zeroed frame of its own, fresh from the allocator, with the
    protection asked for; the search for an automatic place next starts above. *)
Theorem sys_mmap_anonymous {E} {FO : FileOps E} T mm addr len prot flags fd offset (s : space E) :
  vm_ok T (vm s) -> is_ctx T mm -> 0 < len -> Z.land flags MAP_FIXED = 0 -> Z.land flags MAP_ANONYMOUS <> 0 ->
  let hint := if addr =? 0 then mmap_cursor s else addr in
  0 <= hint -> hint + PLACE_TRIES * 4096 + len + 0x4000 <= 2 ^ 48 ->
  let n := Z.to_nat ((len + 0xFFF) / 4096) in
  let '(s', r) := sys_mmap mm addr len prot flags fd offset s in
  files s' = files s /\ exists T', vm_step T (vm s) T' (vm s') /\
  (forall c va, is_ctx T c -> 0 <= va < 2 ^ 48 -> (c = mm -> in_use (vm s) mm va) -> lookup_va (vm s') c va = lookup_va (vm s) c va) /\
  (r = MAP_FAILED \/
   hint <= r /\ r mod 4096 = 0 /\ free_run (vm s) mm r n /\
   (exists fs, length fs = n /\ mapped_run (vm s) T' (vm s') mm r (prot_flags prot) fs) /\
   (addr = 0 -> r + Z.of_nat n * 4096 <= mmap_cursor s')).
Proof.
  intros Hv Hc Hl Hfix Hanon hint Hh He n. unfold sys_mmap. rewrite (proj2 (Z.eqb_neq len 0)) by lia.
  assert (Hmm : mm <> 0) by (pose proof (label_pos _ _ _ _ Hv Hc); lia). rewrite (proj2 (Z.eqb_neq mm 0)) by done.
  rewrite (proj2 (Z.eqb_eq _ 0)) by done. rewrite (proj2 (Z.eqb_neq (Z.land flags MAP_ANONYMOUS) 0)) by done. cbn [negb].
  unfold PLACE_TRIES in He. rewrite (u64_small (len + 0xFFF)) by lia. change 0x1000 with 4096.
  pose proof (Z_div_mod_eq_full (len + 0xFFF) 4096) as Ed. pose proof (Z.mod_pos_bound (len + 0xFFF) 4096 ltac:(lia)) as Hm.
  assert (En : (len + 0xFFF) / 4096 = Z.of_nat n) by (unfold n; lia). fold n. rewrite En.
  replace (if negb (addr =? 0) then addr else mmap_cursor s) with hint by (unfold hint; by destruct (addr =? 0)).
  pose proof (mmap_place_free_spec mm hint n (vm s) Hmm Hh ltac:(unfold PLACE_TRIES; lia)) as Pl. cbv zeta in Pl. unfold PLACE_TRIES in Pl.
  set (base := mmap_place_free mm hint (Z.of_nat n) (vm s)) in *. clearbody base.
  assert (Id : exists T', vm_step T (vm s) T' (vm s) /\
     (forall c va, is_ctx T c -> 0 <= va < 2 ^ 48 -> (c = mm -> in_use (vm s) mm va) -> lookup_va (vm s) c va = lookup_va (vm s) c va)).
  { exists T. split; [by apply vm_step_refl|done]. }
  destruct (Z.eqb_spec base 0) as [->|Hb0].
  { split; [done|]. destruct Id as (T' & I1 & I2). exists T'. split; [done|]. split; [done|]. by left. }
  destruct Pl as [?|(Pl1 & Pl2 & Pl3)]; [done|].
  change PAGE_SIZE with 4096.
  destruct (bump_cursor_spec addr (base + Z.of_nat n * 4096) s ltac:(lia) ltac:(lia)) as (E1 & E2 & E3).
  set (s1 := bump_cursor addr _ s) in *. clearbody s1. rewrite mmap_loop_map by lia.
  rewrite Z.mul_0_l, Z.add_0_r, E1.
  pose proof (map_free_run T (vm s) mm base n (prot_flags prot) Hv Hc Pl2 ltac:(lia) ltac:(lia) Pl3) as P.
  destruct (vm_map_loop n mm base (prot_flags prot) (vm s)) as [v' r]. destruct P as (T' & S1 & Hr & Hs & Hf).
  destruct Hr as [-> | ->]; cbn [Z.ltb Z.compare negb].
  - split; [done|]. exists T'. split; [done|]. split; [done|]. right. split; [lia|]. split; [done|]. split; [done|]. split; [by apply Hf|done].
  - split; [done|]. exists T'. split; [done|]. split; [done|]. by left.
Qed.

Lemma mapped_run_brk v0 T v mm b a flags fs : vm_ok T v -> is_ctx T mm -> 0 <= b < 2 ^ 64 -> mapped_run v0 T v mm a flags fs ->
  mapped_run v0 T (set_word (mm + 8) b v) mm a flags fs.
Proof.
  intros Hv Hc Hb (Hn & Hf & Hm). destruct (set_brk_ok T v mm b Hv Hc Hb) as (_ & Hl & _). split; [done|]. split.
  - eapply Forall_impl; [exact Hf|]. intros f. by apply new_frame_brk.
  - intros i f Hi va Hva. rewrite Hl by done. by apply (Hm i).
Qed.

Definition brk_start (v : vmst) (mm : Z) : Z := page_up (brk v mm).
Definition brk_pages (v : vmst) (mm b : Z) : nat := Z.to_nat ((page_up b - brk_start v mm) / 4096).

Lemma brk_pages_end v mm b : 0 <= brk v mm -> brk v mm + 0xFFF <= 2 ^ 48 -> 0 <= b -> b + 0xFFF <= 2 ^ 48 ->
  0 <= brk_start v mm /\ brk_start v mm mod 4096 = 0 /\ brk_start v mm + Z.of_nat (brk_pages v mm b) * 4096 <= 2 ^ 48 /\
  (b <= brk v mm -> brk_pages v mm b = 0%nat).
Proof.
  intros H1 H2 H3 H4. unfold brk_pages, brk_start, page_up. rewrite !u64_small by lia. rewrite !page_down_eq.
  rewrite <- !Z.mul_sub_distr_r, !Z.div_mul by lia.
  pose proof (Z_div_mod_eq_full (b + 0xFFF) 4096). pose proof (Z.mod_pos_bound (b + 0xFFF) 4096 ltac:(lia)).
  pose proof (Z_div_mod_eq_full (brk v mm + 0xFFF) 4096). pose proof (Z.mod_pos_bound (brk v mm + 0xFFF) 4096 ltac:(lia)).
  split; [lia|]. split; [apply Z_mod_mult|]. split; lia.
Qed.

(** Moving the program break. The result is the break in force. It is
    the one asked for, or the old one when growing ran out of memory. Growing
    backs every page between the two breaks with a zeroed, writable frame of
    its own; nothing else changes its translation, in any address space, and
    no byte that was in use changes. Shrinking unmaps nothing. *)
Theorem sys_brk_spec T mm b v :
  vm_ok T v -> is_ctx T mm -> 0 < b -> b + 0xFFF <= 2 ^ 48 -> brk v mm + 0xFFF <= 2 ^ 48 ->
  let '(v', r) := sys_brk mm b v in
  r = brk v' mm /\ exists T', vm_ok T' v' /\ T ⊆ T' /\
  (forall c va, is_ctx T c -> (c = mm -> off_run (brk_start v mm) (brk_pages v mm b) va) -> lookup_va v' c va = lookup_va v c va) /\
  (forall x, untouched T v x -> ld8 (pmem v') x = ld8 (pmem v) x) /\
  (r = b /\ (exists fs, length fs = brk_pages v mm b /\ mapped_run v T' v' mm (brk_start v mm) 11 fs) \/
   r = brk v mm /\ brk v mm < b).
Proof.
  intros Hv Hc Hb Hb2 Hbrk. unfold sys_brk. rewrite (proj2 (Z.eqb_neq mm 0)) by (pose proof (label_pos _ _ _ _ Hv Hc); lia).
  rewrite (proj2 (Z.eqb_neq b 0)) by lia. assert (Hr : 0 <= brk v mm) by apply ld64_range.
  destruct (brk_pages_end v mm b Hr Hbrk ltac:(lia) Hb2) as (P1 & P2 & P3 & P4).
  assert (Hloop : (if brk v mm <? b then brk_loop (Z.to_nat ((page_up b - page_up (brk v mm)) / PAGE_SIZE)) mm (page_up (brk v mm)) v else (v, true)) =
    let '(v', r) := vm_map_loop (brk_pages v mm b) mm (brk_start v mm) 11 v in (v', negb (r <? 0))).
  { change PAGE_SIZE with 4096. fold (brk_start v mm) (brk_pages v mm b).
    destruct (Z.ltb_spec (brk v mm) b) as [|Hle]; [apply brk_loop_map|]. by rewrite P4. }
  cbv zeta. rewrite Hloop. pose proof (vm_map_loop_spec (brk_pages v mm b) T v mm (brk_start v mm) 11 Hv Hc P2 P1 P3) as M.
  assert (Hsh : b <= brk v mm -> (vm_map_loop (brk_pages v mm b) mm (brk_start v mm) 11 v).2 = 0) by (intros H; by rewrite P4).
  destruct (vm_map_loop _ mm _ 11 v) as [v1 r]. destruct M as (T' & S1 & Hr1 & Hs & Hm). pose proof (vs_ok _ _ _ _ S1) as Hv1.
  pose proof (step_ctx _ _ _ _ _ S1 Hc) as Hc1. cbn [snd] in Hsh.
  destruct Hr1 as [-> | ->]; cbn [Z.ltb Z.compare negb].
  - destruct (set_brk_ok T' v1 mm b Hv1 Hc1 ltac:(lia)) as (O & L & Bk & Mem). split; [done|]. exists T'.
    split; [exact O|]. split; [apply (vs_sub _ _ _ _ S1)|]. split.
    { intros c va Hcc Hoff. rewrite L by (by eapply step_ctx). by apply Hs. }
    split.
    { intros x Hx. rewrite Mem; [by apply (vs_mem _ _ _ _ S1)|]. intros Hin. by apply (proj1 Hx mm _ Hc). }
    left. split; [done|]. destruct (Hm eq_refl) as (fs & Hl & Hrun). exists fs. split; [done|]. apply mapped_run_brk; done || lia.
  - split; [done|]. exists T'. split; [done|]. split; [apply (vs_sub _ _ _ _ S1)|]. split; [done|].
    split; [intros x Hx; by apply (vs_mem _ _ _ _ S1)|]. right. split.
    + rewrite !brk_entry. apply (vs_ctx _ _ _ _ S1 mm 1 Hc). lia.
    + destruct (Z_lt_le_dec (brk v mm) b) as [|Hle]; [done|]. specialize (Hsh Hle). done.
Qed.

(** ** Examples *)

(** The break of the example space, and two pages more. *)
Definition ex_brk : vmst := set_word (ex_ctx + 8) 0x4000000000 ex_create.1.

Lemma ex_brk_ok : exists T, vm_ok T ex_brk /\ is_ctx T ex_ctx /\ brk ex_brk ex_ctx = 0x4000000000.
Proof.
  destruct ex_create_ok as (T & H1 & H2). exists T. destruct (set_brk_ok T _ ex_ctx 0x4000000000 H1 H2 ltac:(lia)) as (A & _ & B & _).
  split; [exact A|]. split; [exact H2|exact B].
Qed.

Lemma sys_brk_spec_witness :
  let '(v', r) := sys_brk ex_ctx 0x4000001800 ex_brk in
  r = 0x4000001800 /\ exists f g, f <> g /\ lookup_va v' ex_ctx 0x4000000010 = Some (f + 0x10, (true, true, false)) /\
    lookup_va v' ex_ctx 0x4000001000 = Some (g + 0, (true, true, false)).
Proof.
  destruct ex_brk_ok as (T & H1 & H2 & Hb).
  pose proof (sys_brk_spec T ex_ctx 0x4000001800 ex_brk H1 H2 ltac:(lia) ltac:(lia) ltac:(rewrite Hb; lia)) as H.
  assert (E : ((sys_brk ex_ctx 0x4000001800 ex_brk).2 =? 0x4000001800) = true) by (vm_compute; reflexivity).
  assert (Es : brk_start ex_brk ex_ctx = 0x4000000000 /\ brk_pages ex_brk ex_ctx 0x4000001800 = 2%nat).
  { unfold brk_pages, brk_start. rewrite Hb. split; vm_compute; reflexivity. }
  destruct Es as [Es En]. rewrite Es, En in H. destruct (sys_brk _ _ ex_brk) as [v' r]. cbn [snd] in E. apply Z.eqb_eq in E.
  destruct H as (_ & T' & _ & _ & _ & _ & [H|[H _]]); [|rewrite Hb in H; lia].
  destruct H as (_ & fs & Hlen & Hnd & _ & Hl). split; [exact E|].
  destruct fs as [|f [|g fs]]; [discriminate Hlen|discriminate Hlen|].
  exists f, g. split; [intros ->; by apply NoDup_cons in Hnd as [Hnd _]; apply Hnd; left|]. split.
  - exact (Hl 0%nat f eq_refl 0x4000000010 eq_refl).
  - exact (Hl 1%nat g eq_refl 0x4000001000 eq_refl).
Defined.

(** A system without files. *)
Definition no_files : FileOps unit := {|
  file_at _ _ := file0; set_file _ _ e := e; op_close _ := None; op_read _ := None; op_write _ := None; op_ioctl _ := None
|}.
Definition ex_space : space unit := Space ex_create.1 MMAP_HINT_BASE (vfs_init vfs_bss) tt.

(** Two automatic pages, readable and writable. *)
Lemma sys_mmap_anonymous_witness :
  let '(s', r) := sys_mmap (FO := no_files) ex_ctx 0 0x1800 3 0x22 0 0 ex_space in
  r = MMAP_HINT_BASE /\ MMAP_HINT_BASE + 8192 <= mmap_cursor s' /\
  exists f, lookup_va (vm s') ex_ctx (MMAP_HINT_BASE + 0x1234) = Some (f + 0x234, (true, true, false)).
Proof.
  destruct ex_create_ok as (T & H1 & H2).
  pose proof (sys_mmap_anonymous (FO := no_files) T ex_ctx 0 0x1800 3 0x22 0 0 ex_space H1 H2 ltac:(lia) eq_refl ltac:(vm_compute; discriminate)
    ltac:(vm_compute; discriminate) ltac:(vm_compute; discriminate)) as H.
  assert (E : ((sys_mmap (FO := no_files) ex_ctx 0 0x1800 3 0x22 0 0 ex_space).2 =? MMAP_HINT_BASE) = true) by (vm_compute; reflexivity).
  cbv zeta in H. destruct (sys_mmap _ 0 _ _ _ _ _ ex_space) as [s' r]. cbn [snd] in E. apply Z.eqb_eq in E. subst r.
  destruct H as (_ & T' & _ & _ & [H|(_ & _ & _ & (fs & Hlen & _ & _ & Hm) & Hcur)]); [discriminate H|].
  split; [done|]. split; [exact (Hcur eq_refl)|].
  change (length fs = 2%nat) in Hlen. destruct fs as [|f [|g fs]]; [discriminate Hlen|discriminate Hlen|].
  exists g. exact (Hm 1%nat g eq_refl (MMAP_HINT_BASE + 0x1234) eq_refl).
Defined.
End SysMem.
