(* ===== verification/Sys.v ===== *)
(** What the system calls share: a monad for handlers that may return early or
    block, and access to the calling task and its memory. *)
From S2P Require Import Prelude Sched Memory Phys Vm Process Signal.

Module Sys.
Import Sched Phys Vm Signal.

(** How a handler stops: with a result for the caller, or blocked in
    [sched_block_and_switch]. *)
Inductive stop :=
| Ret (r : Z)
| Blocked.

(** A handler over the state [S]: it goes on with a value or has stopped. *)
Definition H (S A : Type) : Type := S -> S * (stop + A).

Definition hret {S A} (a : A) : H S A := fun s => (s, inr a).
Definition hbind {S A B} (m : H S A) (k : A -> H S B) : H S B := fun s =>
  match m s with (s1, inl r) => (s1, inl r) | (s1, inr a) => k a s1 end.
Definition halt {S A} (r : Z) : H S A := fun s => (s, inl (Ret r)).
Definition get {S A} (f : S -> A) : H S A := fun s => (s, inr (f s)).
Definition modify {S} (f : S -> S) : H S unit := fun s => (f s, inr tt).

(** [if (!b) return r;] *)
Definition check {S} (b : bool) (r : Z) : H S unit := if b then hret tt else halt r.

(** A pointer that may be null. *)
Definition check_some {S A} (o : option A) (r : Z) : H S A := match o with Some a => hret a | None => halt r end.

(** The call as a whole: a value is the result. *)
Definition run {S} (m : H S Z) (s : S) : S * stop :=
  match m s with (s1, inl r) => (s1, r) | (s1, inr r) => (s1, Ret r) end.

Declare Scope handler_scope.
Delimit Scope handler_scope with handler.
Notation "'let*' x := m 'in' k" := (hbind m (fun x => k))
  (at level 10, x name, m at level 100, k at level 200) : handler_scope.
Notation "'do*' m 'in' k" := (hbind m (fun _ => k))
  (at level 10, m at level 100, k at level 200) : handler_scope.
Open Scope handler_scope.

(** [(uint64_t)(-n)] *)
Definition err (n : Z) : Z := 2 ^ 64 - n.

(** The low [n] bytes of a word, lowest first, and the word of such bytes. *)
Definition le (n : nat) (x : Z) : list Z := (fun i => u8 (x / 256 ^ i)) <$> zrange n.
Definition word_le (l : list Z) : Z := foldr (fun b acc => b + 256 * acc) 0 l.

(** ** The calling task *)
Definition me (e : Z) : H kst Z := let* t := get (fun s => current_task (ks s)) in check_some t e.
Definition task_of (t : Z) : H kst task := get (fun s => tget (ks s) t).
Definition upd (t : Z) (f : task -> task) : H kst unit := modify (set_t t f).

(** [if (!current_task || !current_task->mm_context) return e;] *)
Definition me_mm (e : Z) : H kst (Z * Z) := let* t := me e in let* x := task_of t in let* mm := check_some (mm_context x) e in hret (t, mm).

(** [current_task ? current_task->mm_context : 0] *)
Definition current_mm (s : sched) : option Z := match current_task s with Some t => mm_context (tget s t) | None => None end.

(** ** User memory *)
Definition put (mm a : Z) (bytes : list Z) (e : Z) : H kst unit := fun s =>
  let '(v, r) := vm_copy_to_user mm a bytes (kv s) in
  (s <| kv := v |>, if r <? 0 then inl (Ret e) else inr tt).

(** The result is not looked at. *)
Definition put_any (mm a : Z) (bytes : list Z) : H kst unit := fun s => (s <| kv := (vm_copy_to_user mm a bytes (kv s)).1 |>, inr tt).

Definition take_in (mm a n : Z) (e : Z) : H kst (list Z) := let* l := get (fun s => vm_copy_from_user mm a n (kv s)) in check_some l e.
Definition take64 (mm a e : Z) : H kst Z := let* l := take_in mm a 8 e in hret (word_le l).
Definition take32 (mm a e : Z) : H kst Z := let* l := take_in mm a 4 e in hret (word_le l).
Definition take16 (mm a e : Z) : H kst Z := let* l := take_in mm a 2 e in hret (word_le l).

(** [vm_copy_from_user] into a word that holds 0, the result not looked at. *)
Definition take64_any (mm a : Z) : H kst Z := get (fun s => from_option word_le 0 (vm_copy_from_user mm a 8 (kv s))).

(** [exec_strncpy_from_user]: at most [max] bytes up to a NUL; a longer string
    loses its last byte. *)
Fixpoint strncpy_in (n : nat) (mm src e : Z) : H kst (list Z) :=
  match n with
  | O => hret []
  | S n' =>
      let* l := take_in mm src 1 e in
      if aget l 0 =? 0 then hret [] else let* r := strncpy_in n' mm (u64 (src + 1)) e in hret (aget l 0 :: r)
  end.
Definition exec_strncpy_from_user (mm src max e : Z) : H kst (list Z) :=
  let* l := strncpy_in (Z.to_nat max) mm src e in hret (take (Z.to_nat (max - 1)) l).

(** ** Blocking: the registers [switch_context] saves are arguments. *)
Definition block {A} (uret saved : kctx_t) (kind arg : Z) : H kst A := fun s =>
  (s <| ks := sched_block_and_switch kind arg uret saved (ks s) |>, inl Blocked).

(** [sig_pending & ~sig_blocked] *)
Definition deliverable (x : task) : bool := negb (Z.land (sig_pending x) (Z.lnot (sig_blocked x)) =? 0).

Create Rewrite HintDb handler.

(** ** Running a handler, one instruction at a time *)
Section Steps.
  Context {S A B : Type}.

Lemma hbind_assoc {C} (m : H S A) (k : A -> H S B) (l : B -> H S C) s : hbind (hbind m k) l s = hbind m (fun a => hbind (k a) l) s.
Proof. unfold hbind. by destruct (m s) as [s1 [r|a]]. Qed.
Lemma hbind_ret (a : A) (k : A -> H S B) s : hbind (hret a) k s = k a s.
Proof. done. Qed.
Lemma hbind_halt r (k : A -> H S B) s : hbind (halt r) k s = (s, inl (Ret r)).
Proof. done. Qed.
Lemma hbind_get (f : S -> A) (k : A -> H S B) s : hbind (get f) k s = k (f s) s.
Proof. done. Qed.
Lemma hbind_modify (f : S -> S) (k : unit -> H S B) s : hbind (modify f) k s = k tt (f s).
Proof. done. Qed.
End Steps.

Lemma hbind_check {S B} b r (k : unit -> H S B) s : hbind (check b r) k s = if b then k tt s else (s, inl (Ret r)).
Proof. by destruct b. Qed.
Lemma hbind_some {S A B} (a : A) r (k : A -> H S B) s : hbind (check_some (Some a) r) k s = k a s.
Proof. done. Qed.
Lemma hbind_none {S A B} r (k : A -> H S B) s : hbind (check_some None r) k s = (s, inl (Ret r)).
Proof. done. Qed.
#[export] Hint Rewrite @hbind_assoc @hbind_ret @hbind_halt @hbind_get @hbind_modify @hbind_check @hbind_some @hbind_none : handler.

(** ** Handlers that keep a property of the state *)
Definition keeps {S A} (R : S -> S -> Prop) (m : H S A) : Prop := forall s, R s (m s).1.

Section Keeps.
  Context {S : Type} (R : S -> S -> Prop) `{!PreOrder R}.

Lemma keeps_ret {A} (a : A) : keeps R (hret a).
Proof. intros s. cbn. reflexivity. Qed.
Lemma keeps_halt {A} r : keeps R (halt r : H S A).
Proof. intros s. cbn. reflexivity. Qed.
Lemma keeps_get {A} (f : S -> A) : keeps R (get f).
Proof. intros s. cbn. reflexivity. Qed.
Lemma keeps_check b r : keeps R (check b r : H S unit).
Proof. destruct b; [apply keeps_ret|apply keeps_halt]. Qed.
Lemma keeps_check_some {A} (o : option A) r : keeps R (check_some o r).
Proof. destruct o; [apply keeps_ret|apply keeps_halt]. Qed.
Lemma keeps_bind {A B} (m : H S A) (k : A -> H S B) : keeps R m -> (forall a, keeps R (k a)) -> keeps R (hbind m k).
Proof. intros Hm Hk s. unfold hbind. specialize (Hm s). destruct (m s) as [s1 [r|a]]; [done|]. etrans; [exact Hm|apply Hk]. Qed.
Lemma keeps_if {A} (b : bool) (m n : H S A) : keeps R m -> keeps R n -> keeps R (if b then m else n).
Proof. by destruct b. Qed.
Lemma keeps_modify f : (forall s, R s (f s)) -> keeps R (modify f).
Proof. intros Hf s. apply Hf. Qed.
End Keeps.
End Sys.
