(* ===== verification/SysTask.v ===== *)
(** System calls about the calling task itself (src/src/kernel/syscall/table.c):
    identities, process groups, resource limits, names, signal stacks, clocks
    and timers. Every reading of [timer_ms] is an argument. *)
From S2P Require Import Prelude Sched Memory Phys Vm Process Signal Sys.

Module SysTask.
Import Sched Phys Vm Signal Sys.

(** A handler that needs no task and reports 0 without one. *)
Definition with_task (f : task -> Z) : H kst Z :=
  get (fun s => match current_task (ks s) with Some t => f (tget (ks s) t) | None => 0 end).

Definition sys_sched_yield : H kst Z := hret 0.
Definition sys_getpid : H kst Z := with_task pid.
Definition sys_getppid : H kst Z := with_task ppid.
Definition sys_getuid : H kst Z := with_task uid.
Definition sys_getgid : H kst Z := with_task gid.
Definition sys_geteuid : H kst Z := with_task euid.
Definition sys_getegid : H kst Z := with_task egid.
Definition sys_getpgrp : H kst Z := with_task pgrp.
Definition sys_set_tid_address : H kst Z := with_task pid.

(** Calls that accept everything. *)
Definition sys_mlock2 : H kst Z := hret 0.
Definition sys_rseq : H kst Z := hret (err 38).
Definition sys_mprotect : H kst Z := hret 0.
Definition sys_madvise : H kst Z := hret 0.
Definition sys_getpriority : H kst Z := hret 0.
Definition sys_setpriority : H kst Z := hret 0.

(** ** Identities *)
Definition set_uid (u : Z) (x : task) : task := x <| uid := u |> <| euid := u |>.
Definition set_gid (g : Z) (x : task) : task := x <| gid := g |> <| egid := g |>.

Definition sys_setuid (u : Z) : H kst Z :=
  let* t := me 0 in
  let* x := task_of t in
  do* check (negb (negb (euid x =? 0) && negb (u32 u =? uid x) && negb (u32 u =? euid x))) (err 1) in
  do* upd t (set_uid (u32 u)) in hret 0.

Definition sys_setgid (g : Z) : H kst Z :=
  let* t := me 0 in
  let* x := task_of t in
  do* check (negb (negb (egid x =? 0) && negb (u32 g =? gid x) && negb (u32 g =? egid x))) (err 1) in
  do* upd t (set_gid (u32 g)) in hret 0.

(** ** Process groups and sessions *)

(** [pid == 0 || pid == current_task->pid ? current_task : sched_get_task((int)pid)] *)
Definition find_pid (p : Z) : H kst Z :=
  let* t := me (err 3) in
  let* x := task_of t in
  if (p =? 0) || (p =? pid x) then hret t
  else let* o := get (fun s => sched_get_task (i32 p) (ks s)) in check_some o (err 3).

Definition set_pgrp (g : Z) (x : task) : task := x <| pgrp := if g =? 0 then u32 (pid x) else u32 g |>.
Definition sys_setpgid (p g : Z) : H kst Z := let* t := find_pid p in do* upd t (set_pgrp g) in hret 0.
Definition sys_getpgid (p : Z) : H kst Z := let* t := find_pid p in let* x := task_of t in hret (pgrp x).

Definition new_session (x : task) : task := x <| sid := u32 (pid x) |> <| pgrp := u32 (pid x) |>.
Definition sys_setsid : H kst Z :=
  let* t := me (err 1) in
  let* x := task_of t in
  do* check (negb (pgrp x =? pid x)) (err 1) in
  do* upd t new_session in hret (pid x).

(** ** Resource limits *)
Definition RLIMITS : Z := 16.

Definition set_rlimit (r c m : Z) (x : task) : task :=
  x <| rlimit_cur := aset (rlimit_cur x) r c |> <| rlimit_max := aset (rlimit_max x) r m |>.

(** Reading the pair at [a] and putting it in force. *)
Definition take_rlimit (t mm r a : Z) : H kst unit :=
  let* c := take64 mm a (err 14) in
  let* m := take64 mm (u64 (a + 8)) (err 14) in
  do* check (c <=? m) (err 22) in
  let* x := task_of t in
  do* check (negb (negb (euid x =? 0) && (aget (rlimit_max x) r <? m))) (err 1) in
  upd t (set_rlimit r c m).

Definition put_rlimit (mm a c m : Z) : H kst unit :=
  do* put mm a (le 8 c) (err 14) in put mm (u64 (a + 8)) (le 8 m) (err 14).

Definition sys_getrlimit (r a : Z) : H kst Z :=
  let* p := me_mm (err 14) in
  do* check (r <? RLIMITS) (err 22) in
  let* x := task_of p.1 in
  do* put_rlimit p.2 a (aget (rlimit_cur x) r) (aget (rlimit_max x) r) in hret 0.

Definition sys_setrlimit (r a : Z) : H kst Z :=
  let* p := me_mm (err 14) in
  do* check (r <? RLIMITS) (err 22) in
  do* take_rlimit p.1 p.2 r a in hret 0.

(** The first argument of the call is not looked at. *)
Definition sys_prlimit64 (r newlim oldlim : Z) : H kst Z :=
  let* t := me 0 in
  do* check (r <? RLIMITS) (err 22) in
  let* x := task_of t in
  match mm_context x with
  | None => hret 0
  | Some mm =>
      do* (if oldlim =? 0 then hret tt else put_rlimit mm oldlim (aget (rlimit_cur x) r) (aget (rlimit_max x) r)) in
      do* (if newlim =? 0 then hret tt else take_rlimit t mm r newlim) in hret 0
  end.

Definition sys_getrusage (usage : Z) : H kst Z :=
  let* p := me_mm (err 14) in do* put p.2 usage (zeros 144) (err 14) in hret 0.

Definition sys_umask (mask : Z) : H kst Z :=
  let* t := me 0 in
  let* x := task_of t in
  do* upd t (fun x => x <| umask := u16 (Z.land mask 0x1FF) |>) in hret (umask x).

(** ** Names, pending signals, the signal stack *)

(** PR_SET_NAME copies the string and its NUL over the old name. *)
Definition sys_prctl (option arg2 : Z) : H kst Z :=
  let* p := me_mm (err 14) in
  if option =? 15 then
    let* name := exec_strncpy_from_user p.2 arg2 16 (err 14) in
    do* upd p.1 (fun x => x <| task_name := Process.overwrite (name ++ [0]) (task_name x) |>) in hret 0
  else hret 0.

Definition sys_rt_sigpending (set : Z) : H kst Z :=
  let* p := me_mm (err 14) in
  let* x := task_of p.1 in
  do* put p.2 set (le 8 (Z.land (sig_pending x) (sig_blocked x))) (err 14) in hret 0.

Definition SS_DISABLE : Z := 2.

Definition set_altstack (w : list Z) (x : task) : task :=
  if negb (Z.land (aget w 1) SS_DISABLE =? 0) then x <| altstack_base := 0 |> <| altstack_size := 0 |>
  else x <| altstack_base := aget w 0 |> <| altstack_size := aget w 2 |>.

Definition sys_sigaltstack (ss old_ss : Z) : H kst Z :=
  let* p := me_mm (err 14) in
  let* x := task_of p.1 in
  do* (if old_ss =? 0 then hret tt
       else put p.2 old_ss (words_bytes [altstack_base x; if altstack_onstack x =? 0 then 0 else 1; altstack_size x]) (err 14)) in
  if ss =? 0 then hret 0 else
  let* l := take_in p.2 ss 24 (err 14) in
  do* upd p.1 (set_altstack (bytes_words 3 l)) in hret 0.

(** ** Clocks *)
Definition sys_time (now a1 : Z) : H kst Z :=
  let sec := now / 1000 in
  let* mm := get (fun s => current_mm (ks s)) in
  match mm with
  | Some mm => do* (if a1 =? 0 then hret tt else put_any mm a1 (le 8 sec)) in hret sec
  | None => hret sec
  end.

Definition sys_clock_getres (tp : Z) : H kst Z :=
  let* p := me_mm (err 14) in
  do* put p.2 tp (le 8 0) (err 14) in
  do* put p.2 (u64 (tp + 8)) (le 8 1000000) (err 14) in hret 0.

Definition CLOCK_REALTIME : Z := 0.
Definition CLOCK_MONOTONIC : Z := 1.
Definition CLOCK_MONOTONIC_RAW : Z := 4.
Definition BOOT_EPOCH_SEC : Z := 1600000000.

Definition clock_known (which : Z) : bool :=
  (which =? CLOCK_REALTIME) || (which =? CLOCK_MONOTONIC) || (which =? CLOCK_MONOTONIC_RAW).

Definition sys_clock_gettime (now which tp : Z) : H kst Z :=
  let* p := me_mm (err 14) in
  let sec := u64 (now / 1000 + if which =? CLOCK_REALTIME then BOOT_EPOCH_SEC else 0) in
  let nsec := u64 (now mod 1000 * 1000000) in
  do* check (clock_known which) (err 22) in
  do* put p.2 tp (le 8 sec) (err 14) in
  do* put p.2 (u64 (tp + 8)) (le 8 nsec) (err 14) in hret 0.

(** ** Interval timers *)

(** [itimer_read_user]: interval and value in milliseconds. *)
Definition to_ms (sec usec : Z) : Z := u64 (u64 (sec * 1000) + usec / 1000).
Definition itimer_read_user (mm p : Z) : H kst (Z * Z) :=
  let* isec := take64_any mm p in
  let* iusec := take64_any mm (u64 (p + 8)) in
  let* vsec := take64_any mm (u64 (p + 16)) in
  let* vusec := take64_any mm (u64 (p + 24)) in
  hret (to_ms isec iusec, to_ms vsec vusec).

Definition itimer_write_user (mm p iv val : Z) : H kst unit :=
  do* put_any mm p (le 8 (iv / 1000)) in
  do* put_any mm (u64 (p + 8)) (le 8 (iv mod 1000 * 1000)) in
  do* put_any mm (u64 (p + 16)) (le 8 (val / 1000)) in
  put_any mm (u64 (p + 24)) (le 8 (val mod 1000 * 1000)).

(** What is left of a timer at [now]. *)
Definition time_left (deadline now : Z) : Z := if now <? deadline then deadline - now else 0.

Definition set_itimer (now iv val : Z) (x : task) : task :=
  x <| itimer_interval := iv |> <| itimer_deadline := if val =? 0 then 0 else u64 (now + val) |>.

Definition sys_setitimer (now1 now2 which newv oldv : Z) : H kst Z :=
  let* p := me_mm (err 14) in
  if negb (which =? 0) then hret 0 else
  do* (if newv =? 0 then hret tt
       else let* iv := itimer_read_user p.2 newv in upd p.1 (set_itimer now1 iv.1 iv.2)) in
  let* x := task_of p.1 in
  do* (if oldv =? 0 then hret tt
       else itimer_write_user p.2 oldv (itimer_interval x) (time_left (itimer_deadline x) now2)) in hret 0.

Definition sys_getitimer (now1 now2 which value : Z) : H kst Z := sys_setitimer now1 now2 which 0 value.

(** Seconds left of the alarm in force, rounded up. *)
Definition alarm_left (deadline now : Z) : Z :=
  if deadline =? 0 then 0 else
  let rem := i64 (deadline - now) in
  if 0 <? rem then (rem + 999) / 1000 else 0.

Definition set_alarm (now seconds : Z) (x : task) : task :=
  x <| itimer_deadline := if seconds =? 0 then 0 else u64 (now + seconds * 1000) |> <| itimer_interval := 0 |>.

Definition sys_alarm (now1 now2 seconds : Z) : H kst Z :=
  let* t := me 0 in
  let* x := task_of t in
  do* upd t (set_alarm now2 seconds) in hret (alarm_left (itimer_deadline x) now1).

(** ** All of them, and the signal calls of Signal, as one step *)
Inductive call :=
| CSetuid (u : Z) | CSetgid (g : Z) | CSetpgid (p g : Z) | CGetpgid (p : Z) | CSetsid
| CGetrlimit (r a : Z) | CSetrlimit (r a : Z) | CPrlimit64 (r newlim oldlim : Z) | CGetrusage (a : Z) | CUmask (m : Z)
| CPrctl (o a : Z) | CSigpending (a : Z) | CSigaltstack (ss old : Z)
| CTime (now a : Z) | CClockGetres (a : Z) | CClockGettime (now which a : Z)
| CSetitimer (now1 now2 which newv oldv : Z) | CGetitimer (now1 now2 which v : Z) | CAlarm (now1 now2 seconds : Z)
| CSigaction (sig act oldact : Z) | CSigprocmask (how set oldset : Z) | CSigreturn.

Definition handler (c : call) : H kst Z :=
  match c with
  | CSetuid u => sys_setuid u
  | CSetgid g => sys_setgid g
  | CSetpgid p g => sys_setpgid p g
  | CGetpgid p => sys_getpgid p
  | CSetsid => sys_setsid
  | CGetrlimit r a => sys_getrlimit r a
  | CSetrlimit r a => sys_setrlimit r a
  | CPrlimit64 r n o => sys_prlimit64 r n o
  | CGetrusage a => sys_getrusage a
  | CUmask m => sys_umask m
  | CPrctl o a => sys_prctl o a
  | CSigpending a => sys_rt_sigpending a
  | CSigaltstack ss old => sys_sigaltstack ss old
  | CTime now a => sys_time now a
  | CClockGetres a => sys_clock_getres a
  | CClockGettime now w a => sys_clock_gettime now w a
  | CSetitimer n1 n2 w n o => sys_setitimer n1 n2 w n o
  | CGetitimer n1 n2 w v => sys_getitimer n1 n2 w v
  | CAlarm n1 n2 sec => sys_alarm n1 n2 sec
  | CSigaction sig act old => fun s => let '(s1, r) := sys_rt_sigaction sig act old s in (s1, inr r)
  | CSigprocmask how set old => fun s => let '(s1, r) := sys_rt_sigprocmask how set old s in (s1, inr r)
  | CSigreturn => fun s => let '(s1, r) := sys_rt_sigreturn s in (s1, inr r)
  end.

Definition run_calls (cs : list call) (s : kst) : kst := foldl (fun s c => (handler c s).1) s cs.

(** ** Privileges *)

(** An unprivileged [x] has become [y] without gaining anything. *)
Record no_gain (x y : task) : Prop := {
  ng_uid : uid x <> 0 -> euid x <> 0 -> (uid y = uid x \/ uid y = euid x) /\ (euid y = uid x \/ euid y = euid x);
  ng_gid : gid x <> 0 -> egid x <> 0 -> (gid y = gid x \/ gid y = egid x) /\ (egid y = gid x \/ egid y = egid x);
  ng_max r : uid x <> 0 -> euid x <> 0 -> aget (rlimit_max y) r <= aget (rlimit_max x) r
}.

#[export] Instance no_gain_preorder : PreOrder no_gain.
Proof.
  split.
  - intros x. split; [by auto|by auto|reflexivity].
  - intros x y z [A1 A2 A3] [B1 B2 B3].
    assert (Tr : forall a b a' b' a'' b'' : Z, (a <> 0 -> b <> 0 -> (a' = a \/ a' = b) /\ (b' = a \/ b' = b)) ->
              (a' <> 0 -> b' <> 0 -> (a'' = a' \/ a'' = b') /\ (b'' = a' \/ b'' = b')) ->
              a <> 0 -> b <> 0 -> (a'' = a \/ a'' = b) /\ (b'' = a \/ b'' = b)).
    { intros a b a' b' a'' b'' H1 H2 Ha Hb. destruct (H1 Ha Hb) as [[-> | ->] [-> | ->]]; clear H1; destruct H2 as [[-> | ->] [-> | ->]]; auto. }
    split; [exact (Tr _ _ _ _ _ _ A1 B1)|exact (Tr _ _ _ _ _ _ A2 B2)|].
    intros r H1 H2. etrans; [|by apply A3]. clear - A1 B3 H1 H2. destruct (A1 H1 H2) as [C1 C2]. apply B3.
    + by destruct C1 as [-> | ->].
    + by destruct C2 as [-> | ->].
Qed.

Definition gains_nothing (s s' : kst) : Prop := forall t, no_gain (tget (ks s) t) (tget (ks s') t).

#[export] Instance gains_nothing_preorder : PreOrder gains_nothing.
Proof. split; [by intros s t|]. intros a b c H1 H2 t. etrans; [apply H1|apply H2]. Qed.

Lemma aget_aset_or {A} `{Inhabited A} (l : list A) i j x : aget (aset l i x) j = aget l j \/ (aget (aset l i x) j = x /\ aget l j = aget l i).
Proof.
  unfold aget, aset. destruct (decide (Z.to_nat i = Z.to_nat j)) as [E|Hne].
  - rewrite E. destruct (decide (Z.to_nat j < base.length l)%nat) as [Hl|Hl].
    + right. by rewrite list_lookup_total_insert_eq.
    + left. by rewrite list_insert_ge by lia.
  - left. by rewrite list_lookup_total_insert_ne.
Qed.

Lemma set_t_gains t f s : no_gain (tget (ks s) t) (f (tget (ks s) t)) -> gains_nothing s (set_t t f s).
Proof.
  intros Hf t'. unfold set_t, mod_task, tget. cbn. destruct (aget_aset_or (task_table (ks s)) t t' (f (aget (task_table (ks s)) t))) as [->|[-> E]]; [done|].
  rewrite E. exact Hf.
Qed.

(** The fields that matter are left alone. *)
Lemma no_gain_same x y : uid y = uid x -> euid y = euid x -> gid y = gid x -> egid y = egid x -> rlimit_max y = rlimit_max x -> no_gain x y.
Proof. intros E1 E2 E3 E4 E5. split; rewrite ?E1, ?E2, ?E3, ?E4, ?E5; auto. intros. reflexivity. Qed.

Lemma keeps_upd t f : (forall x, no_gain x (f x)) -> keeps gains_nothing (upd t f).
Proof. intros Hf. apply keeps_modify. intros s. by apply set_t_gains. Qed.

Lemma same_tasks_gains s s' : task_table (ks s') = task_table (ks s) -> gains_nothing s s'.
Proof. intros E t. unfold tget. by rewrite E. Qed.

Lemma keeps_put mm a l e : keeps gains_nothing (put mm a l e).
Proof. intros s. unfold put. destruct (vm_copy_to_user mm a l (kv s)) as [v r]. by apply same_tasks_gains. Qed.
Lemma keeps_put_any mm a l : keeps gains_nothing (put_any mm a l).
Proof. intros s. by apply same_tasks_gains. Qed.

Lemma keeps_setuid u : keeps gains_nothing (sys_setuid u).
Proof.
  intros s. unfold sys_setuid, me, task_of, upd. autorewrite with handler.
  destruct (current_task (ks s)) as [t|]; autorewrite with handler; [|reflexivity]. set (x := tget (ks s) t).
  destruct (negb (negb (euid x =? 0) && negb (u32 u =? uid x) && negb (u32 u =? euid x))) eqn:E; [|reflexivity]. cbn [fst].
  apply set_t_gains. fold x. rewrite negb_true_iff, !andb_false_iff, !negb_false_iff, !Z.eqb_eq in E.
  split; [|by auto|reflexivity]. intros H1 H2. cbn. destruct E as [[E|E]|E]; [done|rewrite E; auto..].
Qed.

Lemma keeps_setgid g : keeps gains_nothing (sys_setgid g).
Proof.
  intros s. unfold sys_setgid, me, task_of, upd. autorewrite with handler.
  destruct (current_task (ks s)) as [t|]; autorewrite with handler; [|reflexivity]. set (x := tget (ks s) t).
  destruct (negb (negb (egid x =? 0) && negb (u32 g =? gid x) && negb (u32 g =? egid x))) eqn:E; [|reflexivity]. cbn [fst].
  apply set_t_gains. fold x. rewrite negb_true_iff, !andb_false_iff, !negb_false_iff, !Z.eqb_eq in E.
  split; [by auto| |reflexivity]. intros H1 H2. cbn. destruct E as [[E|E]|E]; [done|rewrite E; auto..].
Qed.

Lemma set_rlimit_gain r c m x : negb (negb (euid x =? 0) && (aget (rlimit_max x) r <? m)) = true -> no_gain x (set_rlimit r c m x).
Proof.
  intros E. rewrite negb_true_iff, andb_false_iff, negb_false_iff, Z.eqb_eq, Z.ltb_ge in E. split; [by auto|by auto|].
  intros r' H1 H2. cbn. destruct E as [E|E]; [done|]. destruct (aget_aset_or (rlimit_max x) r r' m) as [->|[-> ->]]; [reflexivity|exact E].
Qed.

Lemma keeps_take_rlimit t mm r a : keeps gains_nothing (take_rlimit t mm r a).
Proof.
  intros s. unfold take_rlimit, take64, take_in, task_of, upd. autorewrite with handler.
  destruct (vm_copy_from_user mm a 8 (kv s)) as [lc|]; autorewrite with handler; [|reflexivity].
  destruct (vm_copy_from_user mm (u64 (a + 8)) 8 (kv s)) as [lm|]; autorewrite with handler; [|reflexivity].
  destruct (word_le lc <=? word_le lm); [|reflexivity].
  destruct (negb (negb (euid (tget (ks s) t) =? 0) && _)) eqn:E; [|reflexivity]. cbn [fst]. apply set_t_gains. by apply set_rlimit_gain.
Qed.

(** One instruction of a handler. *)
Ltac keep :=
  repeat first
    [ apply keeps_ret; apply _ | apply keeps_halt; apply _ | apply keeps_get; apply _ | apply keeps_check; apply _
    | apply keeps_check_some; apply _ | apply keeps_put | apply keeps_put_any | apply keeps_take_rlimit
    | apply (keeps_bind gains_nothing); [|intros ?] | apply keeps_if
    | apply keeps_upd; intros ?; by apply no_gain_same
    | match goal with |- keeps _ (match ?o with Some _ => _ | None => _ end) => destruct o end ].

Lemma set_altstack_gain w x : no_gain x (set_altstack w x).
Proof. unfold set_altstack. destruct (negb _); by apply no_gain_same. Qed.

(** The three calls of Signal store to memory and to the signal fields. *)
Lemma gains_set_t t f s s' : gains_nothing s s' -> (forall x, no_gain x (f x)) -> gains_nothing s (set_t t f s').
Proof. intros H Hf. etrans; [exact H|]. by apply set_t_gains. Qed.

Lemma keeps_sigaction sig act old s : gains_nothing s (sys_rt_sigaction sig act old s).1.
Proof.
  unfold sys_rt_sigaction. destruct (current_task (ks s)) as [t|]; [|reflexivity]. destruct (mm_context _) as [ctx|]; [|reflexivity].
  destruct (_ || _); [reflexivity|]. destruct (_ || _); [reflexivity|].
  assert (Hput : forall l : list Z, gains_nothing s (if old =? 0 then (s, true) else
            let '(v, r) := vm_copy_to_user ctx old l (kv s) in (s <| kv := v |>, negb (r <? 0))).1).
  { intros l. destruct (old =? 0); [reflexivity|]. destruct (vm_copy_to_user ctx old l (kv s)). by apply same_tasks_gains. }
  specialize (Hput (words_bytes [aget (sig_handler (tget (ks s) t)) sig; 0; aget (sig_flags (tget (ks s) t)) sig; aget (sig_restorer (tget (ks s) t)) sig])).
  destruct (if old =? 0 then _ else _) as [s1 ok]. cbn [fst] in Hput. destruct ok; [|done]. cbn [negb]. destruct (act =? 0); [done|].
  destruct (vm_copy_from_user ctx act 32 (kv s1)); [|done]. apply gains_set_t; [done|]. intros x. by apply no_gain_same.
Qed.

Lemma keeps_sigprocmask how set old s : gains_nothing s (sys_rt_sigprocmask how set old s).1.
Proof.
  unfold sys_rt_sigprocmask. destruct (current_task (ks s)) as [t|]; [|reflexivity]. destruct (mm_context _) as [ctx|]; [|reflexivity].
  assert (Hput : forall l : list Z, gains_nothing s (if old =? 0 then (s, true) else
            let '(v, r) := vm_copy_to_user ctx old l (kv s) in (s <| kv := v |>, negb (r <? 0))).1).
  { intros l. destruct (old =? 0); [reflexivity|]. destruct (vm_copy_to_user ctx old l (kv s)). by apply same_tasks_gains. }
  specialize (Hput (words_bytes [sig_blocked (tget (ks s) t)])).
  destruct (if old =? 0 then _ else _) as [s1 ok]. cbn [fst] in Hput. destruct ok; [|done]. cbn [negb]. destruct (set =? 0); [done|].
  destruct (vm_copy_from_user ctx set 8 (kv s1)); [|done]. apply gains_set_t; [done|]. intros x. by apply no_gain_same.
Qed.

Lemma keeps_sigreturn s : gains_nothing s (sys_rt_sigreturn s).1.
Proof.
  unfold sys_rt_sigreturn. destruct (current_task (ks s)) as [t|]; [|reflexivity]. destruct (mm_context _) as [ctx|]; [|reflexivity].
  destruct (vm_copy_from_user ctx _ 8 (kv s)) as [ls|]; [|reflexivity]. destruct (vm_copy_from_user ctx _ 128 (kv s)) as [lr|]; [|reflexivity].
  cbn [fst].
  repeat match goal with |- gains_nothing _ (if ?b then _ else _) => destruct b end;
    repeat (apply gains_set_t; [|intros x; by apply no_gain_same]); try by apply same_tasks_gains.
  all: repeat match goal with |- context [if ?b then _ else _] => destruct b end;
    repeat (apply gains_set_t; [|intros x; by apply no_gain_same]); by apply same_tasks_gains.
Qed.

Lemma keeps_handler c : keeps gains_nothing (handler c).
Proof.
  destruct c; cbn [handler];
    try (apply keeps_setuid || apply keeps_setgid);
    try (unfold sys_setpgid, sys_getpgid, sys_setsid, sys_getrlimit, sys_setrlimit, sys_prlimit64, sys_getrusage, sys_umask,
           sys_rt_sigpending, sys_time, sys_clock_getres, sys_clock_gettime, sys_getitimer, sys_setitimer, sys_alarm,
           put_rlimit, find_pid, me_mm, me, task_of, itimer_read_user, itimer_write_user, take64_any; by keep).
  - unfold sys_sigaltstack, me_mm, me, task_of, take_in. keep. apply keeps_upd. intros x. apply set_altstack_gain.
  - intros s. pose proof (keeps_sigaction sig act oldact s). by destruct (sys_rt_sigaction _ _ _ s).
  - intros s. pose proof (keeps_sigprocmask how set oldset s). by destruct (sys_rt_sigprocmask _ _ _ s).
  - intros s. pose proof (keeps_sigreturn s). by destruct (sys_rt_sigreturn s).
Qed.

Lemma run_calls_gains cs : forall s, gains_nothing s (run_calls cs s).
Proof. induction cs as [|c cs IH]; intros s; [reflexivity|]. cbn. etrans; [apply keeps_handler|apply IH]. Qed.

(** C30: Privileges are never gained. Whatever sequence of the calls that set
    identities, limits, groups, masks, timers, handlers and stacks is made,
    with any arguments, memory contents and clock readings, a task neither of
    whose user ids is 0 ends with a real and an effective user id among the two
    it had and with no hard limit raised; and a task neither of whose group ids
    is 0 ends with group ids among the two it had. (The group half does not
    follow from the user ids: [sys_setgid] lets a task of effective group 0 take
    any group, whatever its user, see [setgid_group_zero].) *)
Theorem privileges_never_gained cs s t :
  let x := tget (ks s) t in let y := tget (ks (run_calls cs s)) t in
  (uid x <> 0 -> euid x <> 0 ->
     (uid y = uid x \/ uid y = euid x) /\ (euid y = uid x \/ euid y = euid x) /\
     forall r, aget (rlimit_max y) r <= aget (rlimit_max x) r) /\
  (gid x <> 0 -> egid x <> 0 -> (gid y = gid x \/ gid y = egid x) /\ (egid y = gid x \/ egid y = egid x)).
Proof.
  destruct (run_calls_gains cs s t) as [H1 H2 H3]. cbv zeta. split; [|exact H2]. intros Hu He. destruct (H1 Hu He) as [A B].
  split; [exact A|]. split; [exact B|]. intros r. by apply H3.
Qed.

(** A task of user 1000 asks for root, for more processes than its hard limit
    of 5, and for the identity it has. *)
Definition user_task : task := task0 <| uid := 1000 |> <| euid := 1000 |> <| gid := 100 |> <| egid := 100 |> <| rlimit_max := replicate 16 5 |>.
Definition user_kernel : kst :=
  Kst (mod_task 1 (fun _ => user_task) sched_bss <| current_task := Some 1 |>) (VmSt (fun _ => 0) Mm.mm_bss 0 0) (SigGlob 0 0 0 0 0 0 0 0 0 []).

Lemma privileges_never_gained_witness :
  let s := run_calls [CSetuid 0; CSetgid 0; CSetuid 1000; CPrlimit64 6 0 0; CSetsid] user_kernel in
  (uid (tget (ks s) 1) = 1000 \/ uid (tget (ks s) 1) = 1000) /\ aget (rlimit_max (tget (ks s) 1)) 6 <= 5 /\
  (handler (CSetuid 0) user_kernel).2 = inl (Ret (err 1)).
Proof.
  destruct (privileges_never_gained [CSetuid 0; CSetgid 0; CSetuid 1000; CPrlimit64 6 0 0; CSetsid] user_kernel 1) as [H _].
  assert (Hu : uid (tget (ks user_kernel) 1) <> 0) by (vm_compute; discriminate).
  assert (He : euid (tget (ks user_kernel) 1) <> 0) by (vm_compute; discriminate).
  destruct (H Hu He) as (A & _ & C). split; [exact A|]. split; [exact (C 6)|]. vm_compute. reflexivity.
Defined.

(** A task of user 1000 in group 0 takes group 5. *)
Example setgid_group_zero :
  let k := user_kernel <| ks := mod_task 1 (fun _ => user_task <| gid := 0 |> <| egid := 0 |>) (ks user_kernel) |> in
  let s := run_calls [CSetgid 5] k in
  (euid (tget (ks s) 1), gid (tget (ks s) 1), egid (tget (ks s) 1)) = (1000, 5, 5).
Proof. vm_compute. reflexivity. Qed.
End SysTask.
