(* ===== verification/SysWait.v ===== *)
(** System calls that wait (src/src/kernel/syscall/table.c): wait4, futex,
    nanosleep and rt_sigtimedwait. A call that blocks stops in [block]; what
    follows the switch back to it is a definition of its own, run from the
    state the other tasks have left, with the call's local variables as
    arguments. *)
From S2P Require Import Prelude Sched Memory Phys Vm Process Signal Sys.

Module SysWait.
Import Sched Phys Vm Signal Sys.

Section Wait.
  (** The registers that [sched_block_and_switch] saves. *)
  Context (uret saved : kctx_t).

(** The end of [sched_block_and_switch], run when the task is switched to. *)
Definition resumed (t : Z) : H kst unit := modify (fun s => s <| ks := sched_resume t (ks s) |>).

(** ** wait4 *)
Definition wait4_write_status (mm : option Z) (status_ptr status : Z) : H kst unit :=
  match mm with
  | None => hret tt
  | Some mm => if status_ptr =? 0 then hret tt else put mm status_ptr (le 4 status) (err 14)
  end.

(** [((uint32_t)child->exit_code & 0xFF) << 8] *)
Definition wait_status (code : Z) : Z := Z.shiftl (Z.land (u32 code) 0xFF) 8.

Definition reap_child (p c status_ptr : Z) : H kst Z :=
  let* x := task_of p in
  let* y := task_of c in
  do* wait4_write_status (mm_context x) status_ptr (wait_status (exit_code y)) in
  do* upd c (fun y => y <| state := TASK_STATE_REAPED |>) in
  hret (pid y).

Definition sys_wait4 (pid_arg status_ptr options : Z) : H kst Z :=
  let* p := me (err 10) in
  let* x := task_of p in
  let want := i32 pid_arg in
  let* o := get (fun s => sched_find_child (pid x) want (ks s)) in
  let* c := check_some o (err 10) in
  let* y := task_of c in
  if state y =? TASK_STATE_ZOMBIE then reap_child p c status_ptr
  else if negb (Z.land options 1 =? 0) then hret 0
  else block uret saved WAIT_CHILD (u64 want).

Definition restore_user (rsp : Z) (ctx : list Z) : H kst unit :=
  modify (set_g (fun g => g <| syscall_user_rsp := rsp |> <| syscall_user_ctx := ctx |>)).

Definition wait4_resume (p want status_ptr saved_user_rsp : Z) (saved_user_ctx : list Z) : H kst Z :=
  do* resumed p in
  let* x := task_of p in
  let* o := get (fun s => sched_find_child (pid x) want (ks s)) in
  match o with
  | None => do* restore_user saved_user_rsp saved_user_ctx in hret (err 10)
  | Some c =>
      let* y := task_of c in
      if state y =? TASK_STATE_ZOMBIE
      then do* restore_user saved_user_rsp saved_user_ctx in reap_child p c status_ptr
      else block uret saved WAIT_CHILD (u64 want)
  end.

(** ** Times *)
Definition timespec_to_ms (mm tsp : Z) : H kst Z :=
  let* sec := take64 mm tsp (err 14) in
  let* nsec := take64 mm (u64 (tsp + 8)) (err 14) in
  hret (u64 (u64 (sec * 1000) + nsec / 1000000)).

(** ** futex *)
Definition FUTEX_WAIT : Z := 0.
Definition FUTEX_WAKE : Z := 1.

Definition waits_on (uaddr : Z) (x : task) : bool :=
  (state x =? TASK_STATE_BLOCKED) && (wait_kind x =? WAIT_FUTEX) && (wait_arg x =? uaddr).

(** Wake the waiters among [ids] until [woke] reaches [val]. *)
Fixpoint futex_wake (uaddr val : Z) (ids : list Z) (woke : Z) (s : sched) : sched * Z :=
  match ids with
  | [] => (s, woke)
  | i :: rest =>
      match sched_get_task i s with
      | None => futex_wake uaddr val rest woke s
      | Some t =>
          if waits_on uaddr (tget s t) then
            let s1 := sched_wake (Some t) s in
            if val <=? woke + 1 then (s1, woke + 1) else futex_wake uaddr val rest (woke + 1) s1
          else futex_wake uaddr val rest woke s
      end
  end.

Definition set_deadline (d : Z) (x : task) : task := x <| wait_deadline := d |>.

Definition sys_futex (now uaddr op val timeout : Z) : H kst Z :=
  let* p := me_mm (err 14) in
  let cmd := Z.land op 0x7F in
  if cmd =? FUTEX_WAIT then
    let* cur := take32 p.2 uaddr (err 14) in
    do* check (i32 val =? i32 cur) (err 11) in
    do* upd p.1 (set_deadline 0) in
    do* (if timeout =? 0 then hret tt
         else let* ms := timespec_to_ms p.2 timeout in upd p.1 (set_deadline (u64 (now + ms)))) in
    block uret saved WAIT_FUTEX uaddr
  else if cmd =? FUTEX_WAKE then
    let* r := get (fun s => futex_wake uaddr (i32 val) (zrange (Z.to_nat (sched_task_count (ks s)))) 0 (ks s)) in
    do* modify (fun s => s <| ks := r.1 |>) in hret r.2
  else hret (err 38).

Definition futex_resume (t mm uaddr val now : Z) : H kst Z :=
  do* resumed t in
  let* cur := take32 mm uaddr (err 14) in
  if negb (i32 val =? i32 cur) then hret 0 else
  let* x := task_of t in
  if negb (wait_deadline x =? 0) && (wait_deadline x <=? now) then hret (err 110)
  else if deliverable x then hret (err 4)
  else block uret saved WAIT_FUTEX uaddr.

(** ** nanosleep: [now] is the time when the call starts, then when it goes on. *)
Definition sys_nanosleep (now req : Z) : H kst Z :=
  let* p := me_mm (err 14) in
  let* ms := timespec_to_ms p.2 req in
  if ms =? 0 then hret 0 else block uret saved WAIT_TIME (u64 (now + ms)).

Definition nanosleep_resume (t mm rem deadline now : Z) : H kst Z :=
  do* resumed t in
  let left := Z.max 0 (i64 deadline - i64 now) in
  let* x := task_of t in
  if negb (rem =? 0) && deliverable x then
    do* put mm rem (le 8 (left / 1000)) (err 14) in
    do* put mm (u64 (rem + 8)) (le 8 (left mod 1000 * 1000000)) (err 14) in hret (err 4)
  else hret 0.

(** ** rt_sigtimedwait *)
Definition waitable (set blocked : Z) : Z :=
  Z.land (Z.land set (Z.lnot (Z.lor (Z.shiftl 1 9) (Z.shiftl 1 19)))) (Z.lnot blocked).

Definition sigtimedwait_loop (now t wanted deadline : Z) : H kst Z :=
  let* x := task_of t in
  let m := Z.land (sig_pending x) wanted in
  if negb (m =? 0) then
    let sig := lowest_sig m in
    do* upd t (fun x => x <| sig_pending := bit_clr (sig_pending x) sig |>) in hret sig
  else if deadline <=? now then hret (err 11)
  else if deliverable x then hret (err 4)
  else block uret saved WAIT_SIGTIMED deadline.

Definition sys_rt_sigtimedwait (now1 now2 set timeout : Z) : H kst Z :=
  let* p := me_mm (err 14) in
  let* w := take64 p.2 set (err 14) in
  let* x := task_of p.1 in
  let wanted := waitable w (sig_blocked x) in
  let* deadline := if timeout =? 0 then hret (2 ^ 64 - 1)
                   else let* ms := timespec_to_ms p.2 timeout in hret (u64 (now1 + ms)) in
  sigtimedwait_loop now2 p.1 wanted deadline.

Definition sigtimedwait_resume (now t wanted deadline : Z) : H kst Z :=
  do* resumed t in sigtimedwait_loop now t wanted deadline.
End Wait.

(** ** FUTEX_WAKE wakes the first waiters *)
Lemma waits_on_blocked uaddr x : waits_on uaddr x = true -> state x = TASK_STATE_BLOCKED.
Proof. unfold waits_on. rewrite !andb_true_iff, !Z.eqb_eq. tauto. Qed.

(** The tasks that wait on [uaddr], in the order of the table. *)
Definition waiters (s : sched) (uaddr : Z) (n : nat) : list Z := filter (fun i => waits_on uaddr (tget s i) = true) (zrange n).

Lemma waiters_S s uaddr n :
  waiters s uaddr (S n) = waiters s uaddr n ++ if waits_on uaddr (tget s (Z.of_nat n)) then [Z.of_nat n] else [].
Proof.
  unfold waiters. rewrite zrange_S, filter_app. f_equal. destruct (waits_on _ _) eqn:E; [by rewrite filter_cons_True|].
  rewrite filter_cons_False; [done|congruence].
Qed.

Lemma drop_zrange_S n m : (n < m)%nat -> drop n (zrange m) = Z.of_nat n :: drop (S n) (zrange m).
Proof. intros H. apply drop_S. unfold zrange. by rewrite list_lookup_fmap, lookup_seq_lt by done. Qed.

Definition wake_upto (uaddr : Z) (s : sched) (n : nat) : sched :=
  foldl (fun s i => if waits_on uaddr (tget s i) then sched_wake (Some i) s else s) s (zrange n).

Lemma futex_wake_run uaddr v s : sched_ok s -> forall k n,
  Z.of_nat n + Z.of_nat k = task_count s -> Z.of_nat (length (waiters s uaddr n)) < Z.max 1 v ->
  exists n', (n' <= Z.to_nat (task_count s))%nat /\
    futex_wake uaddr v (drop n (zrange (Z.to_nat (task_count s)))) (Z.of_nat (length (waiters s uaddr n))) (wake_upto uaddr s n) =
      (wake_upto uaddr s n', Z.of_nat (length (waiters s uaddr n'))) /\
    (Z.of_nat (length (waiters s uaddr n')) = Z.max 1 v \/
     n' = Z.to_nat (task_count s) /\ Z.of_nat (length (waiters s uaddr n')) < Z.max 1 v).
Proof.
  intros Hs. induction k as [|k IH]; intros n Hn Hw.
  - exists n. split; [lia|]. split; [|right; split; [lia|done]]. rewrite drop_ge; [done|]. rewrite length_zrange. lia.
  - rewrite drop_zrange_S by lia. cbn [futex_wake].
    destruct (wake_prefix (waits_on uaddr) (waits_on_blocked uaddr) s n Hs ltac:(lia)) as (Hs1 & Etc & Hget & _).
    fold (wake_upto uaddr s n) in Hs1, Etc, Hget.
    assert (Hg : tget (wake_upto uaddr s n) (Z.of_nat n) = tget s (Z.of_nat n)).
    { rewrite Hget by lia. by rewrite decide_False by lia. }
    assert (Hup : wake_upto uaddr s (S n) = if waits_on uaddr (tget s (Z.of_nat n)) then sched_wake (Some (Z.of_nat n)) (wake_upto uaddr s n) else wake_upto uaddr s n).
    { unfold wake_upto at 1. rewrite zrange_S, foldl_app. cbn [foldl]. fold (wake_upto uaddr s n). by rewrite Hg. }
    pose proof (waiters_S s uaddr n) as HW.
    unfold sched_get_task. rewrite Etc, (proj2 (Z.ltb_ge (Z.of_nat n) 0)), (proj2 (Z.leb_gt (task_count s) (Z.of_nat n))) by lia. cbn [orb]. rewrite Hg.
    destruct (waits_on uaddr (tget s (Z.of_nat n))) eqn:E.
    + assert (Hd : dead (tget s (Z.of_nat n)) = false) by (unfold dead; by rewrite (waits_on_blocked _ _ E)).
      rewrite Hd, Hg, E.
      assert (HL : Z.of_nat (length (waiters s uaddr (S n))) = Z.of_nat (length (waiters s uaddr n)) + 1) by (rewrite HW, length_app; cbn [length]; lia).
      destruct (v <=? Z.of_nat (length (waiters s uaddr n)) + 1) eqn:Ev.
      * exists (S n). split; [lia|]. rewrite Hup, HL. split; [done|]. left. lia.
      * rewrite <- HL, <- Hup. apply IH; lia.
    + rewrite app_nil_r in HW. rewrite <- HW, <- Hup.
      assert (HR : exists n', (n' <= Z.to_nat (task_count s))%nat /\
        futex_wake uaddr v (drop (S n) (zrange (Z.to_nat (task_count s)))) (Z.of_nat (length (waiters s uaddr (S n)))) (wake_upto uaddr s (S n)) =
          (wake_upto uaddr s n', Z.of_nat (length (waiters s uaddr n'))) /\
        (Z.of_nat (length (waiters s uaddr n')) = Z.max 1 v \/ n' = Z.to_nat (task_count s) /\ Z.of_nat (length (waiters s uaddr n')) < Z.max 1 v)).
      { apply IH; [lia|]. by rewrite HW. }
      destruct (dead (tget s (Z.of_nat n))); [exact HR|]. rewrite Hup, Hg, E, <- Hup. exact HR.
Qed.

(** FUTEX_WAKE wakes exactly the first waiters. The result is the smaller
    of the number of tasks blocked on the address and the count asked for (one
    when less is asked for); exactly that many of them, first in the order of
    the task table, become READY at their saved priority and join the back of
    their queue in that order; every other task stays as it was. A task that
    FUTEX_WAIT has put to sleep on the address is among the tasks counted. *)
Theorem futex_wake_exact uret saved now uaddr op val timeout (s : kst) t mm :
  sched_ok (ks s) -> current_task (ks s) = Some t -> mm_context (tget (ks s) t) = Some mm -> Z.land op 0x7F = FUTEX_WAKE ->
  let W := waiters (ks s) uaddr (Z.to_nat (task_count (ks s))) in
  let r := Z.min (Z.of_nat (length W)) (Z.max 1 (i32 val)) in
  let up := take (Z.to_nat r) W in
  exists s', run (sys_futex uret saved now uaddr op val timeout) s = (s <| ks := s' |>, Ret r) /\ sched_ok s' /\
  (forall i, 0 <= i < task_count (ks s) -> tget s' i = if decide (i ∈ up) then woken (tget (ks s) i) else tget (ks s) i) /\
  (forall l, 0 <= l < MLFQ_LEVELS -> ql s' l = ql (ks s) l ++ filter (fun i => saved_priority (tget (ks s) i) = l) up).
Proof.
  intros Hs Hc Hm Hop W r up. set (k := ks s) in *.
  destruct (futex_wake_run uaddr (i32 val) k Hs (Z.to_nat (task_count k)) 0) as (n' & Hn & E & Hr).
  { pose proof (ok_tc _ Hs). lia. } { change (length (waiters k uaddr 0)) with 0%nat. lia. }
  change (drop 0 ?l) with l in E. change (Z.of_nat (length (waiters k uaddr 0))) with 0 in E. change (wake_upto uaddr k 0) with k in E.
  assert (EW : exists rest, W = waiters k uaddr n' ++ rest /\ (n' = Z.to_nat (task_count k) -> rest = [])).
  { exists (filter (fun i => waits_on uaddr (tget k i) = true) (drop n' (zrange (Z.to_nat (task_count k))))). split.
    - unfold W, waiters. rewrite <- filter_app. f_equal. rewrite <- (take_drop n' (zrange (Z.to_nat (task_count k)))) at 1. f_equal.
      unfold zrange. rewrite <- fmap_take, take_seq. do 2 f_equal. lia.
    - intros ->. rewrite drop_ge; [done|]. by rewrite length_zrange. }
  destruct EW as (rest & EW & Erest).
  assert (Er : Z.of_nat (length (waiters k uaddr n')) = r).
  { unfold r. rewrite EW, length_app. destruct Hr as [Hr|[Hr1 Hr2]]; [lia|]. rewrite (Erest Hr1). cbn [length]. lia. }
  assert (Eup : up = waiters k uaddr n'). { unfold up. rewrite <- Er, Nat2Z.id, EW. by rewrite take_app_length. }
  destruct (wake_prefix (waits_on uaddr) (waits_on_blocked uaddr) k n' Hs ltac:(pose proof (ok_tc _ Hs); lia)) as (Hs1 & _ & Hget & Hql).
  fold (wake_upto uaddr k n') in Hs1, Hget, Hql.
  exists (wake_upto uaddr k n'). split; [|split; [exact Hs1|split]].
  - unfold run, sys_futex, me_mm, me, task_of. autorewrite with handler. fold k. rewrite Hc. autorewrite with handler. fold k. rewrite Hm.
    autorewrite with handler. cbn [fst snd]. rewrite Hop. cbn [Z.eqb FUTEX_WAKE FUTEX_WAIT Pos.eqb]. autorewrite with handler. fold k.
    unfold sched_task_count. rewrite E. cbn [fst snd hret]. by rewrite Er.
  - intros i Hi. rewrite Hget by lia. rewrite Eup. unfold waiters, woken_if.
    destruct (decide (i < Z.of_nat n')) as [Hl|Hl], (decide (i ∈ _)) as [Hin|Hin]; rewrite list_elem_of_filter, elem_of_zrange in Hin.
    + by rewrite (proj1 Hin).
    + destruct (waits_on uaddr (tget k i)) eqn:Ew; [|done]. exfalso. apply Hin. split; [done|lia].
    + exfalso. lia.
    + done.
  - intros l Hl. rewrite (Hql l Hl). f_equal. rewrite Eup. unfold waiters, wakes_to. rewrite list_filter_filter. apply list_filter_iff. intros i. tauto.
Qed.

(** ** wait4 *)
Lemma sched_find_child_inv parent want k c : sched_find_child parent want k = Some c ->
  0 <= c < Z.of_nat (length (task_table k)) /\
  ppid (tget k c) = parent /\ state (tget k c) <> TASK_STATE_REAPED /\ (0 < want -> i64 (pid (tget k c)) = want).
Proof.
  unfold sched_find_child, first_task. intros H. apply fmap_Some in H as (n & Hn & ->). apply find_index_Some in Hn as (x & Hx & Hp & _).
  apply lookup_take_Some in Hx as [Hx _]. unfold tget, aget. rewrite Nat2Z.id, (list_lookup_total_correct _ _ _ Hx).
  rewrite !andb_true_iff, !negb_true_iff, !andb_false_iff, Z.eqb_eq, Z.eqb_neq, negb_false_iff in Hp.
  destruct Hp as [[[H1 H2] _] H4]. split; [apply lookup_lt_Some in Hx; lia|]. split; [done|]. split; [done|]. intros Hw. destruct H4 as [H4|H4]; [|by apply Z.eqb_eq in H4].
  apply Z.ltb_ge in H4. lia.
Qed.

(** What a call that hands over a child does: the child was a ZOMBIE of the
    caller matching the request; its status is stored and its slot REAPED. *)
Record handed_over (p want status_ptr : Z) (s s' : kst) (c r : Z) : Prop := {
  ho_parent : ppid (tget (ks s) c) = pid (tget (ks s) p);
  ho_want : 0 < want -> i64 (pid (tget (ks s) c)) = want;
  ho_zombie : state (tget (ks s) c) = TASK_STATE_ZOMBIE;
  ho_result : r = pid (tget (ks s) c);
  ho_slot : ks s' = mod_task c (fun y => y <| state := TASK_STATE_REAPED |>) (ks s);
  ho_status mm : mm_context (tget (ks s) p) = Some mm -> status_ptr <> 0 ->
    exists n, vm_copy_to_user mm status_ptr (le 4 (wait_status (exit_code (tget (ks s) c)))) (kv s) = (kv s', n) /\ 0 <= n;
  ho_memory : status_ptr = 0 -> kv s' = kv s
}.

Lemma reap_child_spec p want c ptr s s' r : sched_find_child (pid (tget (ks s) p)) want (ks s) = Some c ->
  state (tget (ks s) c) = TASK_STATE_ZOMBIE -> run (reap_child p c ptr) s = (s', Ret r) ->
  kg s' = kg s /\ (r = err 14 /\ ks s' = ks s \/ handed_over p want ptr s s' c r).
Proof.
  intros Hf Hz. destruct (sched_find_child_inv _ _ _ _ Hf) as (_ & H1 & H2 & H3).
  unfold run, reap_child, task_of, upd. autorewrite with handler. unfold wait4_write_status.
  set (y := tget (ks s) c) in *. set (st := le 4 (wait_status (exit_code y))).
  assert (HR : forall s1, ks s1 = ks s -> kg s1 = kg s -> (ptr = 0 -> kv s1 = kv s) ->
     (forall mm, mm_context (tget (ks s) p) = Some mm -> ptr <> 0 -> exists n, vm_copy_to_user mm ptr st (kv s) = (kv s1, n) /\ 0 <= n) ->
     let s2 := set_t c (fun y => y <| state := TASK_STATE_REAPED |>) s1 in
     kg s2 = kg s /\ handed_over p want ptr s s2 c (pid y)).
  { intros s1 E1 E2 E3 E4. split; [exact E2|]. split; [exact H1|exact H3|exact Hz|done| |exact E4|exact E3]. unfold set_t. cbn. by rewrite E1. }
  destruct (mm_context (tget (ks s) p)) as [mm|] eqn:Hm.
  - destruct (ptr =? 0) eqn:Ep.
    + autorewrite with handler. cbn. intros [= <- <-]. apply Z.eqb_eq in Ep. destruct (HR s) as [G1 G2]; [done|done|done|done|].
      split; [done|]. right. exact G2.
    + apply Z.eqb_neq in Ep. unfold hbind at 1, put. fold st. destruct (vm_copy_to_user mm ptr st (kv s)) as [v n] eqn:Ev. destruct (n <? 0) eqn:En.
      * intros [= <- <-]. split; [done|]. by left.
      * autorewrite with handler. cbn. intros [= <- <-]. apply Z.ltb_ge in En. destruct (HR (s <| kv := v |>)) as [G1 G2]; [done|done|done| |].
        { intros mm' [= <-] _. exists n. split; [exact Ev|done]. }
        split; [done|]. right. exact G2.
  - autorewrite with handler. cbn. intros [= <- <-]. destruct (HR s) as [G1 G2]; [done|done|done|done|]. split; [done|]. right. exact G2.
Qed.

(** A slot that has been handed over is found by no later call. *)
Lemma handed_over_once p want ptr s s' c r q want' : 0 <= c < Z.of_nat (length (task_table (ks s))) ->
  handed_over p want ptr s s' c r -> sched_find_child q want' (ks s') <> Some c.
Proof.
  intros Hc [_ _ _ _ E _ _] H. apply sched_find_child_inv in H as (_ & _ & H & _). apply H. rewrite E. unfold mod_task, tget. cbn.
  rewrite aget_aset_eq by lia. done.
Qed.

(** ** What the waiting calls do to the snapshot of the user context *)
Definition same_context (s s' : kst) : Prop := kg s' = kg s.
#[export] Instance same_context_preorder : PreOrder same_context.
Proof. split; [done|]. intros a b c H1 H2. unfold same_context in *. congruence. Qed.

Lemma context_put mm a l e : keeps same_context (put mm a l e).
Proof. intros s. unfold put. by destruct (vm_copy_to_user mm a l (kv s)). Qed.
Lemma context_upd t f : keeps same_context (upd t f).
Proof. by intros s. Qed.
Lemma context_block {A} uret saved kind arg : keeps same_context (block uret saved kind arg : H kst A).
Proof. by intros s. Qed.
Lemma context_resumed t : keeps same_context (resumed t).
Proof. by intros s. Qed.

Ltac keep_context :=
  repeat first
    [ apply keeps_ret; apply _ | apply keeps_halt; apply _ | apply keeps_get; apply _ | apply keeps_check; apply _
    | apply keeps_check_some; apply _ | apply context_put | apply context_upd | apply context_block | apply context_resumed
    | apply (keeps_bind same_context); [|intros ?] | apply keeps_if
    | match goal with |- keeps _ (match ?o with Some _ => _ | None => _ end) => destruct o end ].

Lemma context_wait4 uret saved pid_arg ptr options : keeps same_context (sys_wait4 uret saved pid_arg ptr options).
Proof. unfold sys_wait4, reap_child, wait4_write_status, me, task_of. keep_context. Qed.

Lemma run_fst {S} (m : H S Z) s : (run m s).1 = (m s).1.
Proof. unfold run. by destruct (m s) as [s1 [r|r]]. Qed.

(** C32: wait4 survives being put to sleep. If the call blocks, then whatever
    the other tasks do before it is switched to (their system calls overwrite
    the saved user stack pointer and register snapshot), when it returns, both
    are the caller's own again; and it returns ECHILD when it has no such child
    left, EFAULT when the status cannot be stored, or the number of a child
    that has exited and matches the request: the low byte of its exit code,
    shifted, has been stored, its slot is REAPED, and no later wait4 of any
    task finds it. *)
Theorem wait4_transparent uret saved s0 s1 s2 s3 p pid_arg ptr options r :
  current_task (ks s0) = Some p -> run (sys_wait4 uret saved pid_arg ptr options) s0 = (s1, Blocked) ->
  run (wait4_resume uret saved p (i32 pid_arg) ptr (syscall_user_rsp (kg s0)) (syscall_user_ctx (kg s0))) s2 = (s3, Ret r) ->
  let s2' := s2 <| ks := sched_resume p (ks s2) |> in
  kg s1 = kg s0 /\
  syscall_user_rsp (kg s3) = syscall_user_rsp (kg s0) /\ syscall_user_ctx (kg s3) = syscall_user_ctx (kg s0) /\
  (r = err 10 /\ sched_find_child (pid (tget (ks s2') p)) (i32 pid_arg) (ks s2') = None \/
   r = err 14 /\ ks s3 = ks s2' \/
   exists c, handed_over p (i32 pid_arg) ptr s2' s3 c r /\ forall q want, sched_find_child q want (ks s3) <> Some c).
Proof.
  intros Hc H1 H3 s2'. split.
  { pose proof (context_wait4 uret saved pid_arg ptr options s0) as H. rewrite <- run_fst, H1 in H. exact H. }
  clear H1 Hc. set (g0 := kg s0) in *. clearbody g0. clear s0 s1. revert H3.
  unfold run, wait4_resume, resumed, task_of. autorewrite with handler. fold s2'. clearbody s2'.
  destruct (sched_find_child (pid (tget (ks s2') p)) (i32 pid_arg) (ks s2')) as [c|] eqn:Hf; cycle 1.
  { unfold restore_user. autorewrite with handler. cbn. intros [= <- <-]. split; [done|]. split; [done|]. by left. }
  autorewrite with handler. destruct (state (tget (ks s2') c) =? TASK_STATE_ZOMBIE) eqn:Ez; [|done]. apply Z.eqb_eq in Ez.
  unfold restore_user at 1. autorewrite with handler. set (s4 := set_g _ s2'). intros HR.
  assert (E4 : ks s4 = ks s2' /\ kv s4 = kv s2' /\ syscall_user_rsp (kg s4) = syscall_user_rsp g0 /\ syscall_user_ctx (kg s4) = syscall_user_ctx g0) by done.
  clearbody s4. destruct E4 as (Ek & Ev & Er & Ec). rewrite <- Ek in Hf, Ez.
  destruct (reap_child_spec p (i32 pid_arg) c ptr s4 s3 r Hf Ez HR) as [G [[-> G2]|G2]]; rewrite G; (split; [done|]; split; [done|]; right).
  - left. split; [done|]. by rewrite G2.
  - right. exists c. split.
    + destruct G2 as [A1 A2 A3 A4 A5 A6 A7]. rewrite Ek in *. split; try done; by rewrite <- Ev.
    + intros q want. apply (handed_over_once _ _ _ _ _ _ _ q want) in G2; [done|]. by destruct (sched_find_child_inv _ _ _ _ Hf).
Qed.

(** The other waiting calls do not survive it. A task that has slept in
    nanosleep, futex or rt_sigtimedwait leaves the kernel with the user stack
    pointer and the register snapshot that were there when it was switched to:
    those of the task that made the last system call, whatever they were when
    it went to sleep. *)
Theorem sleeper_takes_foreign_context uret saved s2 t mm a b c d :
  kg (run (nanosleep_resume t mm a b c) s2).1 = kg s2 /\
  kg (run (futex_resume uret saved t mm a b c) s2).1 = kg s2 /\
  kg (run (sigtimedwait_resume uret saved c t a d) s2).1 = kg s2.
Proof.
  split; [|split]; rewrite run_fst; match goal with |- kg (?m s2).1 = _ => change (same_context s2 (m s2).1); revert s2; change (keeps same_context m) end.
  - unfold nanosleep_resume, task_of. keep_context.
  - unfold futex_resume, take32, take_in, task_of. keep_context.
  - unfold sigtimedwait_resume, sigtimedwait_loop, task_of. keep_context.
Qed.

(** ** Waiting for a blocked signal *)

(** rt_sigtimedwait takes the blocked signals out of the set it waits for: a
    signal that is blocked is never returned. *)
Lemma sigtimedwait_never_blocked uret saved now1 now2 set timeout s s' r t mm w :
  current_task (ks s) = Some t -> mm_context (tget (ks s) t) = Some mm -> word_le <$> vm_copy_from_user mm set 8 (kv s) = Some w ->
  Z.land w (Z.lnot (sig_blocked (tget (ks s) t))) = 0 ->
  run (sys_rt_sigtimedwait uret saved now1 now2 set timeout) s = (s', Ret r) -> r = err 14 \/ r = err 11 \/ r = err 4.
Proof.
  intros Hc Hm Hw Hb. apply fmap_Some in Hw as (l & Hl & ->).
  unfold run, sys_rt_sigtimedwait, me_mm, me, task_of, take64, take_in. autorewrite with handler. rewrite Hc. autorewrite with handler. rewrite Hm.
  autorewrite with handler. cbn [fst snd]. rewrite Hl. autorewrite with handler.
  assert (Ew : waitable (word_le l) (sig_blocked (tget (ks s) t)) = 0).
  { unfold waitable. rewrite <- Z.land_assoc, (Z.land_comm (Z.lnot _) (Z.lnot (sig_blocked _))), Z.land_assoc, Hb. done. }
  rewrite Ew. assert (HL : forall d s1, (forall x, x = tget (ks s) t -> True) -> forall s2 r1, sigtimedwait_loop uret saved now2 t 0 d s1 = (s2, r1) ->
     match r1 with inl (Ret r) | inr r => r = err 14 \/ r = err 11 \/ r = err 4 | inl Blocked => True end).
  { intros d s1 _ s2 r1. unfold sigtimedwait_loop, task_of. autorewrite with handler. rewrite Z.land_0_r. cbn [Z.eqb negb].
    destruct (d <=? now2); [intros [= <- <-]; by auto|]. destruct (deliverable _); intros [= <- <-]; by auto. }
  unfold hbind at 1. destruct (timeout =? 0).
  - cbn [hret]. destruct (sigtimedwait_loop _ _ _ _ _ _ s) as [s2 r1] eqn:E. apply HL in E; [|done]. destruct r1 as [[r1|]|r1]; intros [= <- <-]; done.
  - unfold timespec_to_ms, take64, take_in. autorewrite with handler.
    destruct (vm_copy_from_user mm timeout 8 (kv s)); autorewrite with handler; [|intros [= <- <-]; by auto].
    destruct (vm_copy_from_user mm (u64 (timeout + 8)) 8 (kv s)); autorewrite with handler; [|intros [= <- <-]; by auto].
    cbn [hret]. destruct (sigtimedwait_loop _ _ _ _ _ _ s) as [s2 r1] eqn:E. apply HL in E; [|done]. destruct r1 as [[r1|]|r1]; intros [= <- <-]; done.
Qed.

(** ** Concrete runs *)

(** Task 1 waits on a futex, task 2 runs in an address space. *)
Definition ex_futex : kst :=
  Kst (mod_task 2 (fun x => x <| mm_context := Some 0x5000 |>) (sched_next (sched_block_and_switch WAIT_FUTEX 0x7000 kctx0 kctx0 ex_running)).1)
      (VmSt (fun _ => 0) Mm.mm_bss 0 0) (SigGlob 0 0 0 0 0 0 0 0 0 []).

Lemma ex_futex_ok : sched_ok (ks ex_futex).
Proof.
  assert (H : sched_ok (sched_next (sched_block_and_switch WAIT_FUTEX 0x7000 kctx0 kctx0 ex_running)).1).
  { apply sched_next_preserves, sched_block_and_switch_preserves, ex_running_ok. }
  unfold ex_futex. cbn [ks]. apply mod_task_ok; try done; vm_compute; intuition congruence.
Qed.

Lemma futex_wake_exact_witness :
  exists s', run (sys_futex kctx0 kctx0 0 0x7000 0x81 1 0) ex_futex = (ex_futex <| ks := s' |>, Ret 1) /\ tget s' 1 = woken (tget (ks ex_futex) 1).
Proof.
  destruct (futex_wake_exact kctx0 kctx0 0 0x7000 0x81 1 0 ex_futex 2 0x5000 ex_futex_ok eq_refl eq_refl eq_refl) as (s' & E & _ & G & _).
  assert (EW : waiters (ks ex_futex) 0x7000 (Z.to_nat (task_count (ks ex_futex))) = [1]) by (vm_compute; reflexivity).
  rewrite EW in E, G. exists s'. split; [exact E|]. rewrite (G 1) by (vm_compute; intuition congruence).
  rewrite decide_True; [done|]. vm_compute. left.
Defined.

(** Task 1 waits for task 2, which exits with code 7 after using its own user
    stack. *)
Definition ex_wait (child_state rsp : Z) : kst :=
  Kst (mod_task 2 (fun x => x <| pid := 2 |> <| ppid := 1 |> <| name := NameBuf |> <| exit_code := 7 |> <| state := child_state |>)
        (mod_task 1 (fun x => x <| pid := 1 |>) ex_running))
      (VmSt (fun _ => 0) Mm.mm_bss 0 0) (SigGlob 0 0 0 0 0 0 0 0 rsp [rsp]).

Lemma wait4_transparent_witness :
  let r := run (wait4_resume kctx0 kctx0 1 (-1) 0 0x7FF0 [0x7FF0]) (ex_wait TASK_STATE_ZOMBIE 0x1230) in
  r.2 = Ret 2 /\ syscall_user_rsp (kg r.1) = 0x7FF0 /\ state (tget (ks r.1) 2) = TASK_STATE_REAPED.
Proof.
  intros r. assert (Er : r.2 = Ret 2) by (vm_compute; reflexivity). split; [exact Er|].
  destruct (wait4_transparent kctx0 kctx0 (ex_wait TASK_STATE_READY 0x7FF0) _ (ex_wait TASK_STATE_ZOMBIE 0x1230) r.1 1 0xFFFFFFFF 0 0 2 eq_refl
              (surjective_pairing (run (sys_wait4 kctx0 kctx0 0xFFFFFFFF 0 0) (ex_wait TASK_STATE_READY 0x7FF0)) : _ = (_, Blocked)))
    as (_ & H1 & _).
  { transitivity (r.1, r.2); [|by rewrite Er]. exact (surjective_pairing r). }
  split; [exact H1|]. vm_compute. reflexivity.
Defined.
End SysWait.
