(* ===== verification/SysProc.v ===== *)
(** fork, clone, vfork and exit (src/src/kernel/syscall/table.c) over the
    scheduler, the address spaces and the environment of Process.v. *)
From S2P Require Import Prelude Sched Memory Phys Vm VmSpace Process Signal Sys.

Module SysProc.
Import Sched Phys Vm VmSpace Process Signal Sys.

(** What fork uses of the rest of the kernel besides [ProcEnv]: the memory and
    the snapshot of the user registers. *)
Class ForkEnv (E : Type) := {
  env_vm : E -> vmst;
  set_env_vm : vmst -> E -> E;
  user_ctx : E -> list Z
}.

(** What the child takes over from its parent [x]. *)
Definition inherit (ctx : list Z) (x c : task) : task :=
  c <| fork_ctx := (regs_of ctx) <| r_rax := 0 |> |> <| ppid := pid x |> <| is_fork := 1 |> <| state := TASK_STATE_READY |>
    <| uid := uid x |> <| gid := gid x |> <| euid := euid x |> <| egid := egid x |> <| sid := sid x |> <| umask := umask x |>
    <| rlimit_cur := rlimit_cur x |> <| rlimit_max := rlimit_max x |>
    <| altstack_base := altstack_base x |> <| altstack_size := altstack_size x |> <| altstack_onstack := 0 |>
    <| pgrp := pgrp x |> <| fs_base := fs_base x |> <| gs_base := gs_base x |>
    <| cwd := overwrite (take 95 (c_str (cwd x)) ++ [0]) (cwd c) |>
    <| sig_handler := sig_handler x |> <| sig_flags := sig_flags x |> <| sig_restorer := sig_restorer x |>
    <| sig_pending := 0 |> <| sig_blocked := sig_blocked x |>.

(** How the record of a new child [c] relates to its parent's [x]. *)
Record child_of (ctx : list Z) (x c : task) (i mm : Z) : Prop := {
  co_pid : pid c = i;
  co_ppid : ppid c = pid x;
  co_state : state c = TASK_STATE_READY;
  co_space : mm_context c = Some mm;
  co_regs : fork_ctx c = (regs_of ctx) <| r_rax := 0 |>;
  co_is_fork : is_fork c = 1;
  co_ids : uid c = uid x /\ gid c = gid x /\ euid c = euid x /\ egid c = egid x /\ sid c = sid x /\ pgrp c = pgrp x /\ umask c = umask x;
  co_limits : rlimit_cur c = rlimit_cur x /\ rlimit_max c = rlimit_max x;
  co_signals : sig_handler c = sig_handler x /\ sig_flags c = sig_flags x /\ sig_restorer c = sig_restorer x /\
               sig_blocked c = sig_blocked x /\ sig_pending c = 0;
  co_stack : altstack_base c = altstack_base x /\ altstack_size c = altstack_size x /\ altstack_onstack c = 0;
  co_tls : fs_base c = fs_base x /\ gs_base c = gs_base x;
  co_cwd : (length (c_str (cwd x)) <= 95)%nat -> c_str (cwd c) = c_str (cwd x);
  co_timers : itimer_deadline c = 0 /\ itimer_interval c = 0 /\ wait_kind c = WAIT_NONE
}.

Lemma c_str_app l r : Forall (fun b => b <> 0) l -> c_str (l ++ 0 :: r) = l.
Proof. induction 1 as [|b l Hb _ IH]; [done|]. cbn. rewrite (proj2 (Z.eqb_neq b 0)) by done. by rewrite IH. Qed.

Lemma c_str_nonzero l : Forall (fun b => b <> 0) (c_str l).
Proof. induction l as [|b l IH]; cbn; [constructor|]. destruct (b =? 0) eqn:Eb; [constructor|]. apply Z.eqb_neq in Eb. by constructor. Qed.
Section Fork.
  Context {E : Type} {PE : ProcEnv E} {FE : ForkEnv E}.

Definition sys_fork (s : sched) (e : E) : sched * E * Z :=
  match current_task s with
  | None => (s, e, err 22)
  | Some t =>
      match mm_context (tget s t) with
      | None => (s, e, err 22)
      | Some mm =>
          let '(v, child_mm) := vm_fork mm (env_vm e) in
          let e1 := set_env_vm v e in
          if child_mm =? 0 then (s, e1, err 12) else
          match sched_spawn_process (Some child_mm) 0 0 s e1 with
          | (s1, e2, None) => (s1, e2, err 11)
          | (s1, e2, Some c) =>
              let s2 := mod_task c (inherit (user_ctx e2) (tget s1 t)) s1 in (s2, e2, pid (tget s2 c))
          end
      end
  end.

Definition sys_clone (flags stack : Z) (s : sched) (e : E) : sched * E * Z :=
  if negb (stack =? 0) then (s, e, err 38) else sys_fork s e.
Definition sys_vfork (s : sched) (e : E) : sched * E * Z := sys_fork s e.

Definition sys_exit (code : Z) (s : sched) (e : E) : sched * E * Z :=
  let '(s1, e1) := match current_task s with
                   | Some t => sched_mark_exited (Some t) (i32 code) s e
                   | None => (s, e)
                   end in
  (s1, set_exit_request e1, 0).
Definition sys_exit_group (code : Z) (s : sched) (e : E) : sched * E * Z := sys_exit code s e.


(** ** The child of a fork *)
Lemma inherit_child ctx x i mm du dg c k :
  child_of ctx x (inherit ctx x (spawn_slot i (Some mm) 0 0 du dg c <| kstack_top := k |>)) i mm.
Proof.
  split; try done. intros Hl. unfold inherit. cbn [cwd]. unfold overwrite. rewrite take_ge by done. rewrite <- app_assoc.
  apply c_str_app, c_str_nonzero.
Qed.

(** The new child is READY already: inheriting changes nothing the queues depend on. *)
Lemma inherit_preserves ctx x s c : sched_ok s -> 0 <= c < MAX_TASKS -> state (tget s c) = TASK_STATE_READY ->
  preserves s (mod_task c (inherit ctx x) s).
Proof.
  intros Hs Hc Hr. set (g := fun y => inherit ctx x y <| state := state y |>).
  assert (Eg : mod_task c (inherit ctx x) s = mod_task c g s) by (unfold mod_task, g; by rewrite Hr).
  rewrite Eg. apply mod_task_preserves; [exact Hs|exact Hc|]. intros y. unfold g, inherit. cbn. split_and!; reflexivity.
Qed.
End Fork.

(** The environment keeps the register snapshot. *)
Class ForkEnvOk (E : Type) `{ProcEnv E, !ForkEnv E} := {
  ctx_vm v (e : E) : user_ctx (set_env_vm v e) = user_ctx e;
  ctx_reset (e : E) : user_ctx (Process.signal_globals_reset e) = user_ctx e;
  ctx_pmalloc n (e : E) : user_ctx (pmalloc_contig n e).1 = user_ctx e;
  ctx_set o f fd (e : E) : user_ctx (vfs_fd_set o f fd e) = user_ctx e;
  ctx_tty (e : E) : user_ctx (devfs_open_tty e).1 = user_ctx e
}.

Section ForkProofs.
  Context {E : Type} {PE : ProcEnv E} {FE : ForkEnv E} {FO : ForkEnvOk E}.

Lemma wire_std_ctx s fds : forall e : E, user_ctx (foldl (wire_std s) e fds) = user_ctx e.
Proof.
  induction fds as [|fd fds IH]; intros e; [done|]. cbn [foldl]. rewrite IH. unfold wire_std. destruct (vfs_fd_get fd e); [done|].
  pose proof (ctx_tty e) as Ht. destruct (devfs_open_tty e) as [e1 [f|]]; [by rewrite ctx_set|done].
Qed.

Lemma spawn_ctx mm ent rsp s (e : E) : user_ctx (sched_spawn_process mm ent rsp s e).1.2 = user_ctx e.
Proof.
  unfold sched_spawn_process. pose proof (ctx_pmalloc 4 (Process.signal_globals_reset e)) as Hp. rewrite ctx_reset in Hp.
  destruct (first_task _ s); [|destruct (MAX_TASKS <=? task_count s); [done|]];
    (destruct (pmalloc_contig 4 (Process.signal_globals_reset e)) as [e2 [k|]]; cbn [fst snd]; [by rewrite wire_std_ctx|done]).
Qed.

(** C33: fork makes a copy that is told apart only by what it returns. When the
    address space can be copied and a slot and a kernel stack can be had, the
    result is the number of a slot that was REAPED or new, never the caller's;
    its task has the copied address space, will enter user mode with the
    caller's sixteen registers at the system call but RAX 0, names the caller
    as parent and has its credentials, group, session, mask, limits, working
    directory, TLS bases and signal dispositions, with no signal pending and no
    timer; it waits last in the middle queue. No other task changes and the
    scheduler stays sound. Otherwise the result is ENOMEM or EAGAIN and no
    task, except the slot a failed spawn has claimed, has changed. *)
Theorem fork_child s e t mm :
  sched_ok s -> current_task s = Some t -> state (tget s t) <> TASK_STATE_REAPED -> mm_context (tget s t) = Some mm ->
  let space := (vm_fork mm (env_vm e)).2 in
  let '(s', e', r) := sys_fork s e in
  r = err 12 /\ space = 0 /\ s' = s \/
  r = err 11 /\ space <> 0 /\ (forall u, 0 <= u -> spawn_index s <> Some u -> tget s' u = tget s u) \/
  exists c, spawn_index s = Some c /\ r = c /\ c <> t /\ space <> 0 /\
    child_of (user_ctx e) (tget s t) (tget s' c) c space /\ ql s' 2 = ql s 2 ++ [c] /\
    (forall u, 0 <= u -> u <> c -> tget s' u = tget s u) /\ sched_ok s' /\ (sched_live s -> sched_live s').
Proof.
  intros Hs Hc Hr Hm space. unfold sys_fork. rewrite Hc, Hm. unfold space. destruct (vm_fork mm (env_vm e)) as [v cm]. cbn [snd]. clear space.
  destruct (Z.eqb_spec cm 0) as [->|Hcm]; [cbv beta iota zeta; by left|]. cbv zeta.
  pose proof (sched_spawn_process_spec (Some cm) 0 0 s (set_env_vm v e) Hs) as P.
  pose proof (spawn_ctx (Some cm) 0 0 s (set_env_vm v e)) as Hctx. rewrite ctx_vm in Hctx.
  destruct (sched_spawn_process (Some cm) 0 0 s (set_env_vm v e)) as [[s1 e2] [c|]]; cbn [fst snd] in Hctx.
  - right. right. destruct P as (Hi & [k Hk] & Hp1 & Hp2 & Hq & Ho & [Hok Hlive]).
    destruct (spawn_index_spec s c Hs Hi) as (Hcr & _ & _ & Hreap).
    pose proof (ok_cur _ Hs _ Hc) as Ht. pose proof (ok_tc _ Hs) as Htc.
    assert (Hne : c <> t). { intros ->. apply Hr, Hreap. lia. }
    assert (Ex : tget s1 t = tget s t) by (apply Ho; lia). rewrite Ex, Hctx.
    assert (Ec : tget (mod_task c (inherit (user_ctx e) (tget s t)) s1) c = inherit (user_ctx e) (tget s t) (tget s1 c)) by (by apply tget_mod_eq).
    pose proof (inherit_preserves (user_ctx e) (tget s t) s1 c Hok Hcr Hp2) as Hup.
    exists c. split; [done|]. rewrite Ec, Hk. split; [done|]. split; [done|]. split; [done|].
    split; [apply inherit_child|]. split; [by rewrite ql_mod_task|]. split.
    + intros u Hu Hne'. rewrite tget_mod_ne by lia. by apply Ho.
    + split; [exact (proj1 Hup)|]. intros Hl. exact (proj2 Hup _ (Hlive _ Hl)).
  - right. left. split; [done|]. split; [done|]. intros u Hu Hne. destruct P as [[_ ->]|(_ & i & Hi & ->)]; [done|].
    apply tget_mod_ne; [destruct (spawn_index_spec s i Hs Hi) as [? _]; lia|done|by intros ->].
Qed.
End ForkProofs.

(** ** A concrete fork

    The environment has the memory of [VmSpace] and a free kernel stack. *)
Definition ex_env : ProcEnv kst := {|
  Process.signal_globals_reset := fun e => set_g signal_globals_reset e;
  set_exit_request := fun e => e;
  pmalloc_contig := fun _ e => (e, Some 0x900000);
  vfs_fd_close_all := fun _ s e => (s, e);
  vfs_fd_get := fun _ _ => Some 0;
  vfs_fd_set := fun _ _ _ e => e;
  vfs_fd_alloc := fun _ _ e => e;
  devfs_open_tty := fun e => (e, None)
|}.
Definition ex_fork_env : ForkEnv kst := {|
  env_vm := kv; set_env_vm := fun v e => e <| kv := v |>; user_ctx := fun e => syscall_user_ctx (kg e)
|}.
Definition ex_fork_ok : @ForkEnvOk kst ex_env ex_fork_env.
Proof. by split. Defined.

Definition ex_parent : sched := mod_task 1 (fun x => x <| pid := 1 |> <| mm_context := Some ex_ctx |> <| uid := 1000 |>) ex_running.
Definition ex_kernel : kst := Kst ex_parent ex_user (SigGlob 0 0 0 0 0 0 0 0 0 (Z.add 7 <$> zrange 16)).

Lemma ex_parent_ok : sched_ok ex_parent.
Proof. apply mod_task_ok; [exact ex_running_ok|vm_compute; intuition congruence|done]. Qed.

Lemma fork_child_witness :
  let '(s', _, r) := @sys_fork kst ex_env ex_fork_env ex_parent ex_kernel in
  r = 3 /\ ppid (tget s' 3) = 1 /\ uid (tget s' 3) = 1000 /\ r_rax (fork_ctx (tget s' 3)) = 0 /\ r_rdi (fork_ctx (tget s' 3)) = 8 /\ ql s' 2 = [2; 3].
Proof.
  pose proof (@fork_child kst ex_env ex_fork_env ex_fork_ok ex_parent ex_kernel 1 ex_ctx ex_parent_ok eq_refl) as H.
  assert (Er : (@sys_fork kst ex_env ex_fork_env ex_parent ex_kernel).2 = 3) by (vm_compute; reflexivity).
  assert (Ei : spawn_index ex_parent = Some 3) by (vm_compute; reflexivity). rewrite Ei in H.
  specialize (H ltac:(vm_compute; discriminate) eq_refl). cbv zeta in H. destruct (@sys_fork kst ex_env ex_fork_env ex_parent ex_kernel) as [[s' e'] r].
  cbn [snd] in Er. subst r. destruct H as [[H _]|[[H _]|(c & Hc & _ & _ & _ & Hch & Hq & _)]]; [exfalso; revert H; vm_compute; discriminate..|].
  injection Hc as <-. destruct Hch as [_ H2 _ _ H5 _ H7 _ _ _ _ _ _]. split; [done|]. split; [exact H2|]. split; [exact (proj1 H7)|].
  rewrite H5. split; [done|]. split; [done|]. exact Hq.
Defined.
End SysProc.
