(* ===== verification/Exec.v ===== *)
(** execve (src/src/kernel/syscall/table.c): reading the argument vectors,
    merging the environment with the defaults, and replacing the image of the
    current task through the loader of Elf.v. *)
From S2P Require Import Prelude Ring Sched Memory Vfs Tmpfs Ext2 Ext2Dir Phys Vm VmSpace Elf ElfLoad ElfStack ElfSpace Process Signal Sys.

Module Exec.
Import Sched Phys Vm VmSpace ElfSpace Signal Sys.

Definition EXEC_MAX_ARGS : Z := 16.
Definition EXEC_MAX_ENV : Z := 24.

(** ** Strings of the program *)

(** What the copying loop stores, its NUL included, and whether every byte
    could be read. *)
Fixpoint copied_bytes (n : nat) (mm src : Z) (v : vmst) : list Z * bool :=
  match n with
  | O => ([], true)
  | S n' =>
      match vm_copy_from_user mm src 1 v with
      | None => ([], false)
      | Some l =>
          if aget l 0 =? 0 then ([0], true)
          else let '(r, ok) := copied_bytes n' mm (u64 (src + 1)) v in (aget l 0 :: r, ok)
      end
  end.

(** A full buffer gets its NUL over the last byte. *)
Definition ended (max : Z) (l : list Z) : list Z :=
  if (Z.of_nat (length l) =? max) && negb (aget l (max - 1) =? 0) then take (Z.to_nat (max - 1)) l ++ [0] else l.

(** [exec_strncpy_from_user] into the page [pg]. *)
Definition strncpy_to_page (mm pg src : Z) (v : vmst) : vmst * bool :=
  let '(l, ok) := copied_bytes (Z.to_nat PAGE_SIZE) mm src v in
  (v <| pmem := st_bytes (pmem v) pg (if ok then ended PAGE_SIZE l else l) |>, ok).

(** The string that starts at [a]. *)
Definition string_at (v : vmst) (a : Z) : list Z := Sched.c_str (ld_bytes (pmem v) a (Z.to_nat PAGE_SIZE)).

(** [pfree] of a page the allocator gave, where it is defined. *)
Definition free_page (p : Z) (v : vmst) : vmst := v <| pmm := default (pmm v) (Mm.pfree p (pmm v)) |>.

(** The pages read so far are not given back when reading fails. *)
Fixpoint read_strvec (n : nat) (mm vec : Z) (out : list Z) (v : vmst) : vmst * option (list Z) :=
  match n with
  | O => (v, Some out)
  | S n' =>
      match vm_copy_from_user mm (u64 (vec + Z.of_nat (length out) * 8)) 8 v with
      | None => (v, None)
      | Some w =>
          let p := word_le w in
          if p =? 0 then (v, Some out) else
          match vm_alloc_page v with
          | (v1, None) => (v1, None)
          | (v1, Some pg) =>
              let '(v2, ok) := strncpy_to_page mm pg p v1 in
              if ok : bool then read_strvec n' mm vec (out ++ [pg]) v2 else (free_page pg v2, None)
          end
      end
  end.
Definition exec_read_strvec (mm vec : Z) (v : vmst) : vmst * option (list Z) :=
  read_strvec (Z.to_nat (EXEC_MAX_ARGS - 1)) mm vec [] v.

Definition exec_free_vec (l : list Z) (v : vmst) : vmst := foldl (fun v p => free_page p v) v l.

(** ** The environment *)

Definition exec_cat3 (a b c : list Z) : list Z := a ++ b ++ c.

Fixpoint until_eq (e : list Z) : list Z :=
  match e with [] => [] | c :: r => if c =? 61 then [] else c :: until_eq r end.
Definition env_key_of (e : list Z) (max : Z) : list Z := take (Z.to_nat (max - 1)) (until_eq e).

Fixpoint env_key_match (e key : list Z) : bool :=
  match key, e with
  | [], c :: _ => c =? 61
  | [], [] => false
  | k :: key', c :: e' => (c =? k) && env_key_match e' key'
  | _ :: _, [] => false
  end.

(** One string of the caller: over the first entry of that name, or behind. *)
Definition merge_one (menv : list (list Z)) (e : list Z) : list (list Z) :=
  match find_index (fun x => env_key_match x (env_key_of e 32)) menv with
  | Some j => <[j := e]> menv
  | None => menv ++ [e]
  end.

Fixpoint merge_env (menv kenvp : list (list Z)) : list (list Z) :=
  match kenvp with
  | [] => menv
  | e :: r => if Z.of_nat (length menv) <? EXEC_MAX_ENV - 1 then merge_env (merge_one menv e) r else menv
  end.

Definition lit_path : list Z :=
  [80;65;84;72;61;47;117;115;114;47;108;111;99;97;108;47;115;98;105;110;58;47;117;115;114;47;108;111;99;97;108;47;98;105;110;58;
   47;117;115;114;47;115;98;105;110;58;47;117;115;114;47;98;105;110;58;47;115;98;105;110;58;47;98;105;110].
Definition lit_home : list Z := [72;79;77;69;61;47;104;111;109;101;47;98;97;110;97;110;97].
Definition lit_term : list Z := [84;69;82;77;61;120;116;101;114;109].
Definition lit_shell : list Z := [83;72;69;76;76;61;47;98;105;110;47;98;97;115;104].
Definition lit_user_eq : list Z := [85;83;69;82;61].
Definition lit_logname_eq : list Z := [76;79;71;78;65;77;69;61].
Definition lit_pwd_eq : list Z := [80;87;68;61].
Definition lit_root : list Z := [114;111;111;116].
Definition lit_banana : list Z := [98;97;110;97;110;97].

Definition default_env (euid : Z) (cwd : list Z) : list (list Z) :=
  let uname := if euid =? 0 then lit_root else lit_banana in
  let cwdstr := match Sched.c_str cwd with [] => [47] | s => s end in
  [lit_path; lit_home; lit_term; lit_shell; exec_cat3 lit_user_eq uname []; exec_cat3 lit_logname_eq uname []; exec_cat3 lit_pwd_eq cwdstr []].

(** ** execve *)
Section Execve.
  Context {E : Type} {FO : Vfs.FileOps E} (vfs_open : list Z -> E -> E * option Z).

(** The scheduler, the loader with the memory, the signal globals and the
    request that the assembly entry looks at. *)
Record xst := Xst { xs : sched; xl : Elf.loader (E := E); xg : sigglob; syscall_exec_entry : Z; syscall_exec_rsp : Z; syscall_exec_request : Z }.

Definition mem_of (s : xst) : vmst := Elf.lvm (xl s).
Definition with_loader (l : Elf.loader) (s : xst) : xst := Xst (xs s) l (xg s) (syscall_exec_entry s) (syscall_exec_rsp s) (syscall_exec_request s).
Definition with_mem (v : vmst) (s : xst) : xst := with_loader (Elf.on_vm (fun _ => v) (xl s)) s.

(** The new image of the current task. *)
Definition new_image (c : Elf.elf_context_t) (rsp : Z) (x : task) : task :=
  x <| sig_handler := zeros 64 |> <| sig_flags := zeros 64 |> <| sig_restorer := zeros 64 |> <| sig_pending := 0 |> <| sig_blocked := 0 |>
    <| mm_context := Some (Elf.vmctx c) |> <| Sched.entry := Elf.entry c |> <| user_rsp := rsp |>.

Definition replace_image (k : Z) (c : Elf.elf_context_t) (rsp : Z) (s : xst) : xst :=
  let s1 := with_mem (vm_switch (Elf.vmctx c) (mem_of s)) s in
  Xst (mod_task k (new_image c rsp) (xs s)) (xl s1) (signal_globals_reset (xg s)) (Elf.entry c) rsp 1.

(** [c0] is what the context variable holds before loading, [tsc] the time
    stamp the stack builder reads. *)
Definition sys_execve (c0 : Elf.elf_context_t) (tsc path argv envp : Z) (s : xst) : xst * Z :=
  match current_task (xs s) with
  | None => (s, err 22)
  | Some k =>
      let x := tget (xs s) k in
      match mm_context x with
      | None => (s, err 22)
      | Some mm =>
          let '(pathbuf, ok) := copied_bytes 63 mm path (mem_of s) in
          if negb ok then (s, err 14) else
          match exec_read_strvec mm argv (mem_of s) with
          | (v1, None) => (with_mem v1 s, err 14)
          | (v1, Some kargv) =>
              match exec_read_strvec mm envp v1 with
              | (v2, None) => (with_mem (exec_free_vec kargv v2) s, err 14)
              | (v2, Some kenvp) =>
                  let give_back v := exec_free_vec kenvp (exec_free_vec kargv v) in
                  let '(l, c, r) := Elf.elf_load vfs_open (c_str (ended 63 pathbuf)) c0 (xl (with_mem v2 s)) in
                  let s1 := with_loader l s in
                  if r <? 0 then (with_mem (give_back (mem_of s1)) s1, err 2) else
                  let menv := merge_env (default_env (euid x) (cwd x)) (string_at (mem_of s1) <$> kenvp) in
                  let cur := Elf.TaskIds mm (uid x) (gid x) in
                  match Elf.elf_build_user_stack tsc (Some cur) (g_default_uid (xs s), g_default_gid (xs s)) c
                          (string_at (mem_of s1) <$> kargv) menv (mem_of s1) with
                  | (v3, None) => (with_mem (give_back v3) s1, err 12)
                  | (v3, Some rsp) => (replace_image k c rsp (with_mem (give_back v3) s1), 0)
                  end
              end
          end
      end
  end.
End Execve.

(** ** The environment a program receives *)

(** What getenv finds: the first entry of that name. *)
Definition entry_of (k : list Z) (env : list (list Z)) : option (list Z) := list.head (filter (fun e => until_eq e = k) env).
Definition named (e : list Z) : Prop := 61 ∈ e.

Lemma until_eq_no_eq e : 61 ∉ until_eq e.
Proof.
  induction e as [|c e IH]; cbn; [apply not_elem_of_nil|]. destruct (c =? 61) eqn:Ec; [apply not_elem_of_nil|].
  apply Z.eqb_neq in Ec. rewrite not_elem_of_cons. by split; [intros E; apply Ec|].
Qed.

Lemma env_key_match_spec e : forall k, 61 ∉ k -> named e -> (env_key_match e k = true <-> until_eq e = k).
Proof.
  induction e as [|c e IH]; intros k Hk Hn; [by apply not_elem_of_nil in Hn|]. cbn [until_eq].
  destruct k as [|x k]; cbn [env_key_match].
  - destruct (c =? 61); [done|]. split; intros H; discriminate.
  - rewrite not_elem_of_cons in Hk. destruct Hk as [Hx Hk]. destruct (c =? 61) eqn:Ec.
    + apply Z.eqb_eq in Ec as ->. rewrite (proj2 (Z.eqb_neq 61 x)) by done. cbn [andb]. split; intros H; discriminate.
    + assert (Hn' : named e). { unfold named in *. rewrite elem_of_cons in Hn. destruct Hn as [<-|Hn]; [done|exact Hn]. }
      rewrite andb_true_iff, Z.eqb_eq, (IH k Hk Hn'). split; [by intros [-> ->]|]. by intros [= -> ->].
Qed.

(** Every entry has a name of its own. *)
Record env_ok (env : list (list Z)) : Prop := { eo_named : Forall named env; eo_nodup : NoDup (until_eq <$> env) }.

Lemma filter_no_key k (l : list (list Z)) : k ∉ (until_eq <$> l) -> filter (fun e => until_eq e = k) l = [].
Proof.
  induction l as [|x l IH]; [done|]. rewrite fmap_cons, not_elem_of_cons. intros [H1 H2]. rewrite filter_cons_False by congruence. by apply IH.
Qed.

Lemma merge_one_spec env e : env_ok env -> named e -> (length (until_eq e) <= 31)%nat ->
  env_ok (merge_one env e) /\ (length (merge_one env e) <= S (length env))%nat /\
  forall k, entry_of k (merge_one env e) = if decide (until_eq e = k) then Some e else entry_of k env.
Proof.
  intros [Hn Hd] He Hl. unfold merge_one, env_key_of. rewrite take_ge by lia.
  assert (Hm : forall x, x ∈ env -> (env_key_match x (until_eq e) = true <-> until_eq x = until_eq e)).
  { intros x Hx. apply env_key_match_spec; [apply until_eq_no_eq|]. rewrite Forall_forall in Hn. by apply Hn. }
  destruct (find_index _ env) as [j|] eqn:Hj.
  - apply find_index_Some in Hj as (x & Hx & Hp & _). apply Hm in Hp; [|by eapply list_elem_of_lookup_2].
    pose proof (take_drop_middle _ _ _ Hx) as Ee. rewrite insert_take_drop by (by eapply lookup_lt_Some).
    set (l1 := take j env) in *. set (l2 := drop (S j) env) in *. clearbody l1 l2. subst env.
    rewrite fmap_app, fmap_cons, NoDup_app, NoDup_cons in Hd. destruct Hd as (D1 & D2 & D3 & D4).
    rewrite Forall_app, Forall_cons in Hn. destruct Hn as (N1 & N2 & N3).
    assert (D5 : until_eq x ∉ (until_eq <$> l1)) by (intros Hin; apply (D2 _ Hin); left).
    split; [split|split].
    + by rewrite Forall_app, Forall_cons.
    + rewrite fmap_app, fmap_cons, <- Hp, NoDup_app, NoDup_cons. done.
    + rewrite !length_app. cbn [length]. lia.
    + intros k. unfold entry_of. rewrite !filter_app. destruct (decide (until_eq e = k)) as [<-|Hk].
      * rewrite filter_no_key by (by rewrite <- Hp). rewrite filter_cons_True by done. done.
      * by rewrite !filter_cons_False by congruence.
  - rewrite find_index_None, Forall_forall in Hj.
    assert (Hf : until_eq e ∉ (until_eq <$> env)).
    { rewrite list_elem_of_fmap. intros (x & E & Hx). specialize (Hj x Hx). by rewrite (proj2 (Hm x Hx)) in Hj. }
    split; [split|split].
    + rewrite Forall_app. split; [done|by constructor].
    + rewrite fmap_app, NoDup_app. split; [done|]. split; [|apply NoDup_singleton]. intros y Hy ->%list_elem_of_singleton. done.
    + rewrite length_app. cbn [length]. lia.
    + intros k. unfold entry_of. rewrite filter_app. destruct (decide (until_eq e = k)) as [<-|Hk].
      * rewrite filter_no_key by done. by rewrite filter_cons_True.
      * rewrite filter_cons_False by done. by rewrite app_nil_r.
Qed.

(** The last of the caller's strings of a name. *)
Definition last_of (k : list Z) (l : list (list Z)) : option (list Z) := last (filter (fun e => until_eq e = k) l).

Lemma merge_env_spec l : forall env, env_ok env -> Forall named l -> Forall (fun e => (length (until_eq e) <= 31)%nat) l ->
  (length env + length l <= 23)%nat ->
  env_ok (merge_env env l) /\ (length (merge_env env l) <= length env + length l)%nat /\
  forall k, entry_of k (merge_env env l) = match last_of k l with Some e => Some e | None => entry_of k env end.
Proof.
  induction l as [|e l IH]; intros env Hok Hn Hl Hlen; [cbn; split; [done|]; split; [lia|done]|].
  apply Forall_cons in Hn as [Hn Hns]. apply Forall_cons in Hl as [Hl Hls]. cbn [length] in Hlen.
  cbn [merge_env]. unfold EXEC_MAX_ENV. rewrite (proj2 (Z.ltb_lt _ _)) by lia.
  destruct (merge_one_spec env e Hok Hn Hl) as (Hok1 & Hlen1 & Hget1).
  destruct (IH (merge_one env e) Hok1 Hns Hls ltac:(lia)) as (Hok2 & Hlen2 & Hget2).
  split; [exact Hok2|]. split; [cbn [length]; lia|]. intros k. rewrite Hget2. unfold last_of.
  destruct (decide (until_eq e = k)) as [<-|Hk].
  - rewrite filter_cons_True by done. rewrite last_cons. destruct (last (filter _ l)); [done|]. rewrite Hget1. by rewrite decide_True.
  - rewrite filter_cons_False by done. destruct (last (filter _ l)); [done|]. rewrite Hget1. by rewrite decide_False.
Qed.

Lemma default_env_names euid cwd :
  until_eq <$> default_env euid cwd = [[80;65;84;72]; [72;79;77;69]; [84;69;82;77]; [83;72;69;76;76]; [85;83;69;82]; [76;79;71;78;65;77;69]; [80;87;68]].
Proof. unfold default_env. destruct (euid =? 0), (c_str cwd); reflexivity. Qed.

Lemma default_env_ok euid cwd : env_ok (default_env euid cwd).
Proof.
  split.
  - unfold default_env, named, exec_cat3. rewrite !Forall_cons. split_and!; try constructor; vm_compute; repeat (left || right).
  - rewrite default_env_names. apply (bool_decide_eq_true_1 (NoDup _)). vm_compute. reflexivity.
Qed.

(** C34: The environment of an executed program is a map. When the caller's
    strings are well formed (a name of at most 31 bytes, an equals sign), the
    merged vector names every variable once, has at most 22 entries, and
    looking a name up gives the caller's last string of that name, else the
    default one (PATH, HOME, TERM, SHELL, USER, LOGNAME, PWD), else nothing:
    entries never shadow one another and none is lost. *)
Theorem exec_environment euid cwd kenvp :
  Z.of_nat (length kenvp) < EXEC_MAX_ARGS -> Forall named kenvp -> Forall (fun e => (length (until_eq e) <= 31)%nat) kenvp ->
  let m := merge_env (default_env euid cwd) kenvp in
  NoDup (until_eq <$> m) /\ (length m <= 22)%nat /\
  forall k, entry_of k m = match last_of k kenvp with Some e => Some e | None => entry_of k (default_env euid cwd) end.
Proof.
  unfold EXEC_MAX_ARGS. intros Hlen Hn Hl. destruct (merge_env_spec kenvp (default_env euid cwd) (default_env_ok euid cwd) Hn Hl) as ([_ H1] & H2 & H3).
  { change (length (default_env euid cwd)) with 7%nat. lia. }
  split; [exact H1|]. split; [|exact H3]. change (length (default_env euid cwd)) with 7%nat in H2. lia.
Qed.

(** The caller sets TERM twice and EDITOR; PATH and the rest are the defaults. *)
Definition ex_envp : list (list Z) := [[84;69;82;77;61;97]; [69;68;61;118;105]; [84;69;82;77;61;98]].
Lemma exec_environment_witness :
  let m := merge_env (default_env 0 [47; 0]) ex_envp in
  entry_of [84;69;82;77] m = Some [84;69;82;77;61;98] /\ entry_of [69;68] m = Some [69;68;61;118;105] /\
  entry_of [85;83;69;82] m = Some [85;83;69;82;61;114;111;111;116] /\ length m = 8%nat.
Proof.
  intros m. destruct (exec_environment 0 [47; 0] ex_envp) as (_ & _ & H).
  - reflexivity.
  - unfold ex_envp, named. rewrite !Forall_cons. split_and!; try constructor; repeat (left || right).
  - unfold ex_envp. rewrite !Forall_cons. split_and!; try constructor; cbn; lia.
  - unfold m. rewrite !H. split; [reflexivity|]. split; [reflexivity|]. split; reflexivity.
Defined.

(** ** The files of the program are read within bounds *)
#[export] Instance tmpfs_bounded m : BoundedReads (Tmpfs.tmpfs_files m).
Proof.
  intros f n e Hn. unfold Vfs.vfs_read. cbn. destruct (Vfs.f_ops _) as [o|]; [|cbn; lia]. destruct (o =? Tmpfs.TMPFS_OPS); [|cbn; lia].
  unfold Tmpfs.tmpfs_read_op. destruct (_ =? 0); [cbn; lia|]. destruct (_ <=? _); [cbn; lia|]. cbn. rewrite length_fmap, length_zrange.
  set (r := Tmpfs.n_size _ - _). destruct (Z.ltb_spec r n); lia.
Qed.

Section Ext2Files.
  Context {D : Type} {BD : Ext2.BlockDev D}.

Lemma ext2_bind {A B} (P : B -> Prop) (m : Ext2.M D A) (k : A -> Ext2.M D B) s s' y :
  (forall a s1 s2 y, k a s1 = (s2, Some y) -> P y) -> Ext2.bind m k s = (s', Some y) -> P y.
Proof. intros Hk. unfold Ext2.bind. destruct (m s) as [s1 [a|]]; [apply Hk|done]. Qed.

Lemma read_loop_length fuel inode offset size : forall acc s s' l, Ext2.read_loop fuel inode offset size acc s = (s', Some l) ->
  Z.of_nat (length l) <= Z.max size (Z.of_nat (length acc)).
Proof.
  induction fuel as [|fuel IH]; intros acc s s' l; cbn [Ext2.read_loop]; [intros [= _ <-]; lia|].
  destruct (Z.leb_spec size (Z.of_nat (length acc))) as [|Hlt]; [intros [= _ <-]; lia|].
  apply (ext2_bind (fun l => Z.of_nat (length l) <= Z.max size (Z.of_nat (length acc)))). intros bs s1 s1' l1. apply (ext2_bind (fun l => Z.of_nat (length l) <= Z.max size (Z.of_nat (length acc)))). intros blk s2 s2' l2. destruct (blk =? 0); [intros [= _ <-]; lia|].
  apply (ext2_bind (fun l => Z.of_nat (length l) <= Z.max size (Z.of_nat (length acc)))). intros [r|] s3 s3' l3; [|intros [= _ <-]; lia]. apply (ext2_bind (fun l => Z.of_nat (length l) <= Z.max size (Z.of_nat (length acc)))). intros b s4 s4' l4 E. apply IH in E.
  unfold Ring.slice in E. rewrite length_app, length_take, length_drop in E. destruct (Z.ltb_spec (size - Z.of_nat (length acc)) (bs - u32 (offset + Z.of_nat (length acc)) mod bs)); lia.
Qed.

Lemma read_file_length ino offset size s s' l : 0 <= size -> Ext2.ext2_read_file ino offset size s = (s', Some l) -> Z.of_nat (length l) <= size.
Proof.
  intros Hs. apply (ext2_bind (fun l => Z.of_nat (length l) <= size)). intros m s1 s1' l1. apply (ext2_bind (fun l => Z.of_nat (length l) <= size)). intros _ s2 s2' l2. apply (ext2_bind (fun l => Z.of_nat (length l) <= size)). intros inode s3 s3' l3.
  apply (ext2_bind (fun l => Z.of_nat (length l) <= size)). intros _ s4 s4' l4. destruct (_ <=? offset); [intros [= _ <-]; cbn; lia|].
  apply (ext2_bind (fun l => Z.of_nat (length l) <= size)). intros bs s5 s5' l5 E. apply read_loop_length in E. cbn in E. set (r := Ext2.i_size inode - offset) in *. destruct (Z.ltb_spec r size); lia.
Qed.

#[export] Instance ext2_bounded : BoundedReads (Ext2Dir.ext2_files (D := D)).
Proof.
  intros f n e Hn. unfold Vfs.vfs_read. cbn. destruct (Vfs.f_ops _) as [o|]; [|cbn; lia]. destruct (o =? Ext2Dir.EXT2_OPS); [|cbn; lia].
  unfold Ext2Dir.ext2_read_op. destruct (_ =? _); [cbn; lia|]. destruct (Ext2.ext2_read_file _ _ _ e) as [s1 [l|]] eqn:E; [|cbn; lia].
  apply read_file_length in E; [|lia]. destruct (Ext2Dir.op_result _ _ _ s1) as [s2 r]. cbn. lia.
Qed.
End Ext2Files.

(** ** Reading the strings of the caller *)
Section Strings.
  Context (T0 : labels) (v0 : vmst).
  Hypothesis Hv0 : vm_ok T0 v0.

Lemma length_copied n mm src v : (length (copied_bytes n mm src v).1 <= n)%nat.
Proof.
  revert src. induction n as [|n IH]; intros src; [done|]. cbn [copied_bytes]. destruct (vm_copy_from_user mm src 1 v) as [l|]; [|cbn; lia].
  destruct (_ =? 0); [cbn; lia|]. specialize (IH (u64 (src + 1))). destruct (copied_bytes n mm _ v). cbn in *. lia.
Qed.

Lemma length_ended n l : 0 < n -> (length l <= Z.to_nat n)%nat -> (length (ended n l) <= Z.to_nat n)%nat.
Proof. intros Hn Hl. unfold ended. destruct (_ && _); [|done]. rewrite length_app, length_take. cbn. lia. Qed.

(** A string stays in its page. *)
Lemma strncpy_grown mm pg src T v : grown T0 v0 T v -> newly v0 v pg -> T !! pg = None -> grown T0 v0 T (strncpy_to_page mm pg src v).1.
Proof.
  intros G Hn Ht. unfold strncpy_to_page. pose proof (length_copied (Z.to_nat PAGE_SIZE) mm src v) as Hl.
  destruct (copied_bytes _ mm src v) as [l ok]. cbn [fst] in *. apply (grown_write T0 v0 T v); try done. intros b Hb. apply ld8_st_bytes_out. intros Hin.
  apply (Hb pg Hn Ht). pose proof (length_ended PAGE_SIZE l ltac:(done) Hl). change (Z.to_nat PAGE_SIZE) with (Z.to_nat 4096) in *. destruct ok; lia.
Qed.

Lemma kept_free p v : spaces_kept T0 v0 v -> was_free v0 p -> spaces_kept T0 v0 (free_page p v).
Proof. intros K Hp. destruct (kept_pfree T0 v0 v p K Hp) as (m & E & K'). unfold free_page. rewrite E. exact K'. Qed.

Lemma kept_free_vec l : forall v, spaces_kept T0 v0 v -> Forall (was_free v0) l -> spaces_kept T0 v0 (exec_free_vec l v).
Proof.
  induction l as [|p l IH]; intros v K Hl; [done|]. apply Forall_cons in Hl as [Hp Hl]. apply (IH (free_page p v)); [by apply kept_free|done].
Qed.

(** Giving pages back touches the allocator only. *)
Lemma free_vec_same l v : pmem (exec_free_vec l v) = pmem v /\ cr3 (exec_free_vec l v) = cr3 v.
Proof. revert v. induction l as [|p l IH]; intros v; [done|]. destruct (IH (free_page p v)) as [E1 E2]. unfold exec_free_vec in *. cbn [foldl]. by rewrite E1, E2. Qed.

(** The strings read are in pages of their own; when a string cannot be read
    nothing has happened to the spaces either. *)
Definition strvec_post (v : vmst) (out : list Z) (n : nat) (r : vmst * option (list Z)) : Prop :=
  match r with
  | (v', None) => spaces_kept T0 v0 v' /\ cr3 v' = cr3 v0
  | (v', Some l) => grown T0 v0 T0 v' /\ Forall (newly v0 v') l /\ (length l <= length out + n)%nat
  end.

Lemma read_strvec_spec n mm vec : forall out v, grown T0 v0 T0 v -> Forall (newly v0 v) out -> strvec_post v out n (read_strvec n mm vec out v).
Proof.
  induction n as [|n IH]; intros out v G Ho; cbn [read_strvec]; [split; [done|]; split; [done|lia]|].
  destruct (vm_copy_from_user mm _ 8 v) as [w|]; [|by apply (grown_kept T0 v0 T0)].
  destruct (word_le w =? 0); [split; [done|]; split; [done|lia]|]. pose proof (vs_ok _ _ _ _ (gr_step _ _ _ _ G)) as Hv.
  destruct (vm_alloc_page v) as [v1 [pg|]] eqn:A.
  2: { rewrite alloc_page_table in A. destruct (alloc_step T0 v v1 _ Hv A) as [S1 K1]. apply (grown_kept T0 v0 T0); [done|]. by apply (grown_keeps T0 v0 T0 v). }
  destruct (alloc_page_frame T0 v v1 pg Hv A) as (S1 & K1 & N1). pose proof (grown_keeps T0 v0 T0 v v1 G S1 K1) as G1.
  pose proof (newly_mono v0 v v1 pg (nf_new _ _ _ _ _ N1) (vs_mm _ _ _ _ (gr_step _ _ _ _ G))) as Hpg.
  pose proof (strncpy_grown mm pg (word_le w) T0 v1 G1 Hpg (nf_label _ _ _ _ _ N1)) as G2. assert (E : pmm (strncpy_to_page mm pg (word_le w) v1).1 = pmm v1).
  { unfold strncpy_to_page. by destruct (copied_bytes _ _ _ v1). }
  destruct (strncpy_to_page mm pg (word_le w) v1) as [v2 ok]. cbn [fst] in *.
  assert (Hnew : forall p, newly v0 v1 p -> newly v0 v2 p) by (intros p [Hp1 Hp2]; split; [|done]; unfold taken; by rewrite E).
  destruct ok.
  - specialize (IH (out ++ [pg]) v2 G2). rewrite Forall_app in IH. unfold strvec_post in *.
    destruct (read_strvec n mm vec (out ++ [pg]) v2) as [v' [l|]]; [|apply IH; split; [|by constructor; [apply Hnew|]]].
    + rewrite length_app in IH. cbn in IH. destruct IH as (I1 & I2 & I3); [split; [|by constructor; [apply Hnew|]]|split; [done|]; split; [done|lia]].
      eapply Forall_impl; [exact Ho|]. intros p Hp. apply Hnew. eapply newly_later; [done|apply (vs_mm _ _ _ _ S1)].
    + eapply Forall_impl; [exact Ho|]. intros p Hp. apply Hnew. eapply newly_later; [done|apply (vs_mm _ _ _ _ S1)].
  - destruct (grown_kept T0 v0 T0 v2 Hv0 G2) as [K2 E2]. split; [|done]. apply kept_free; [done|]. by eapply newly_was_free.
Qed.

Lemma exec_read_strvec_spec mm vec v : grown T0 v0 T0 v -> strvec_post v [] 15 (exec_read_strvec mm vec v).
Proof. intros G. by apply read_strvec_spec. Qed.
End Strings.

(** The string in a page that was taken stays through the loading. *)
Lemma string_kept T v T' v' p : vm_ok T v -> vm_step T v T' v' -> Vm.frame_ok T v p -> aligned p -> string_at v' p = string_at v p.
Proof.
  intros Hv S Hf Ha. unfold string_at. f_equal. unfold ld_bytes. apply list_fmap_ext. intros i x Hx. change (Z.to_nat PAGE_SIZE) with (Z.to_nat 4096) in Hx.
  assert (Hin : 0 <= x < 4096). { apply list_elem_of_lookup_2, elem_of_zrange in Hx. lia. }
  apply (vs_mem _ _ _ _ S). apply (frame_untouched T v p); [done..|lia].
Qed.

(** ** The room the strings need on the stack *)
Definition fits (e : list Z) : Prop := (length e <= 4096)%nat /\ Forall (fun b => 0 <= b < 256) e.

Lemma c_str_fits l : (length l <= 4096)%nat -> Forall (fun b => 0 <= b < 256) l -> fits (c_str l).
Proof.
  intros Hl Hb. split.
  - clear Hb. revert Hl. generalize 4096%nat. induction l as [|b l IH]; intros n Hl; cbn [c_str]; [done|]. destruct (b =? 0); cbn in *; [lia|].
    destruct n; [lia|]. specialize (IH n). lia.
  - clear Hl. induction l as [|b l IH]; cbn [c_str]; [done|]. apply Forall_cons in Hb as [Hb Hl]. destruct (b =? 0); [done|]. by constructor; [|apply IH].
Qed.

Lemma string_at_fits v p : fits (string_at v p).
Proof.
  unfold string_at, ld_bytes. change (Z.to_nat PAGE_SIZE) with (Z.to_nat 4096). apply c_str_fits.
  - rewrite length_fmap, length_zrange. lia.
  - apply Forall_fmap, Forall_true. intros i. apply ld8_range.
Qed.

Lemma default_env_fits euid cwd : (length cwd <= 96)%nat -> Forall (fun b => 0 <= b < 256) cwd -> Forall fits (default_env euid cwd).
Proof.
  intros Hl Hb. unfold default_env. destruct (c_str_fits cwd ltac:(lia) Hb) as [_ Hc].
  assert (Hcl : (length (c_str cwd) <= 96)%nat). { clear Hb Hc. revert Hl. generalize 96%nat. induction cwd as [|b l IH]; intros n Hl; cbn [c_str]; [lia|]. destruct (b =? 0); cbn in *; [lia|]. destruct n; [lia|]. specialize (IH n). lia. }
  assert (Hp : fits (exec_cat3 lit_pwd_eq (match c_str cwd with [] => [47] | s => s end) [])).
  { unfold exec_cat3. rewrite app_nil_r. destruct (c_str cwd) as [|b l]; [split; [cbn; lia|repeat constructor; lia]|]. split; [rewrite length_app; cbn in *; lia|].
    apply Forall_app. split; [repeat constructor; lia|done]. }
  repeat apply Forall_cons_2; try exact Hp; try exact (Forall_nil_2 _); destruct (euid =? 0); (split; [cbn; lia|repeat constructor; lia]).
Qed.

Lemma merge_one_fits env e : Forall fits env -> fits e -> Forall fits (merge_one env e).
Proof.
  intros Hn He. unfold merge_one. destruct (find_index _ env) as [j|]; [by apply Forall_insert|]. apply Forall_app. split; [done|by constructor].
Qed.

Lemma merge_env_fits l : forall env, Forall fits env -> Forall fits l -> (length env <= 23)%nat -> Forall fits (merge_env env l) /\ (length (merge_env env l) <= 23)%nat.
Proof.
  induction l as [|e l IH]; intros env Hn Hl Hlen; [done|]. apply Forall_cons in Hl as [He Hl]. cbn [merge_env]. unfold EXEC_MAX_ENV.
  destruct (Z.ltb_spec (Z.of_nat (length env)) (24 - 1)); [|done]. apply IH; [by apply merge_one_fits|done|].
  unfold merge_one. destruct (find_index _ env); [rewrite length_insert; lia|rewrite length_app; cbn; lia].
Qed.

Lemma strs_size_fits l n : Forall fits l -> (length l <= n)%nat -> 0 <= ElfStack.strs_size l <= 4097 * Z.of_nat n.
Proof.
  intros Hl Hn. split; [apply ElfStack.strs_size_nonneg|]. assert (H : ElfStack.strs_size l <= 4097 * Z.of_nat (length l)); [|lia].
  clear Hn. induction l as [|e l IH]; cbn [ElfStack.strs_size foldr]; [done|]. fold (ElfStack.strs_size l). apply Forall_cons in Hl as [[He _] Hl]. specialize (IH Hl). cbn [length]. lia.
Qed.

Lemma stack_room argv envp : Forall fits argv -> Forall fits envp -> (length argv <= 15)%nat -> (length envp <= 23)%nat ->
  take 64 argv = argv /\ take 64 envp = envp /\ Forall (Forall (fun b => 0 <= b < 256)) (argv ++ envp) /\
  Elf.USER_STACK_TOP - Elf.USER_STACK_SIZE + ElfStack.stack_need argv envp <= Elf.USER_STACK_TOP.
Proof.
  intros Ha He La Le. rewrite !take_ge by lia. split; [done|]. split; [done|]. split.
  - apply Forall_app. split; (eapply Forall_impl; [done|]; by intros l [_ Hl]).
  - unfold ElfStack.stack_need. pose proof (strs_size_fits argv 15 Ha La). pose proof (strs_size_fits envp 23 He Le). unfold Elf.USER_STACK_SIZE. lia.
Qed.

(** ** execve is all or nothing *)

(** What is laid out on the new stack depends on memory alone. *)
Lemma translate_pmem v v' c va : pmem v' = pmem v -> vm_translate v' c va = vm_translate v c va.
Proof. intros E. rewrite !vm_translate_walk. by rewrite (lookup_pmem v v'). Qed.

Lemma ubytes_pmem v v' c a l : pmem v' = pmem v -> ElfStack.ubytes v c a l -> ElfStack.ubytes v' c a l.
Proof. intros E H b Hb. rewrite <- (H b Hb). unfold ElfStack.uread. by rewrite E, (translate_pmem v v'). Qed.

Lemma initial_stack_pmem v v' c t u g argv envp rsp : pmem v' = pmem v ->
  ElfStack.initial_stack v c t u g argv envp rsp -> ElfStack.initial_stack v' c t u g argv envp rsp.
Proof.
  intros E [H1 (ps & qs & plat & rnd & H2 & H3 & H4 & H5 & H6)]. split; [done|]. exists ps, qs, plat, rnd.
  split; [by apply (ubytes_pmem v)|]. split; [|split; [|split; [by apply (ubytes_pmem v)|by apply (ubytes_pmem v)]]].
  - eapply Forall2_impl; [exact H3|]. intros p l. by apply ubytes_pmem.
  - eapply Forall2_impl; [exact H4|]. intros p l. by apply ubytes_pmem.
Qed.

(** The stack of the loaded image is built, whatever strings of the caller fit
    into pages; only the stack of the new space is written. *)
Lemma build_stack T v T' l c tsc mm uid gid def argv envp : vm_ok T v -> grown T v T' l -> is_ctx T' (Elf.vmctx c) -> own_stack v T' l (Elf.vmctx c) ->
  mm <> 0 -> Forall fits argv -> Forall fits envp -> (length argv <= 15)%nat -> (length envp <= 23)%nat ->
  let '(v', r) := Elf.elf_build_user_stack tsc (Some (Elf.TaskIds mm uid gid)) def c argv envp l in
  grown T v T' v' /\ ElfStack.written T' (Elf.vmctx c) (Elf.USER_STACK_TOP - Elf.USER_STACK_SIZE) Elf.USER_STACK_TOP l v' /\
  exists rsp, r = Some rsp /\ ElfStack.initial_stack v' c tsc uid gid argv envp rsp.
Proof.
  intros Hv G Hc [Hbuf Hfr] Hmm Ha He La Le. destruct (stack_room argv envp Ha He La Le) as (Ea & Ee & Hb & Hroom).
  pose proof (vs_ok _ _ _ _ (gr_step _ _ _ _ G)) as Hl.
  pose proof (ElfStack.elf_build_user_stack_layout T' (Elf.USER_STACK_TOP - Elf.USER_STACK_SIZE) l tsc (Some (Elf.TaskIds mm uid gid)) def c argv envp
    ltac:(unfold Elf.USER_STACK_TOP, Elf.USER_STACK_SIZE; lia) Hl Hc Hbuf) as P.
  rewrite Ea, Ee in P. specialize (P Hb Hroom). unfold Elf.ids in P. cbn [Elf.t_mm Elf.t_uid Elf.t_gid] in P. rewrite (proj2 (Z.eqb_neq mm 0) Hmm) in P. cbn [negb fst snd] in P.
  destruct (Elf.elf_build_user_stack _ _ _ c argv envp l) as [v' r]. destruct P as (_ & W & rsp & Hr & _ & Hs).
  split; [|split; [done|by exists rsp]]. destruct W as [W1 W2 W3 W4 W5]. apply (grown_write T v T' l); try done.
  intros b Hb'. apply W5. intros x Hx E. destruct (Hfr x Hx) as (f & Hn & Hf & Hin). apply (Hb' f Hn Hf).
  rewrite (keeps_translate T' l v') in E by done. lia.
Qed.

Section Atomic.
  Context {E : Type} {FO : Vfs.FileOps E} {BR : BoundedReads FO} (vfs_open : list Z -> E -> E * option Z).

(** The task table, the signal globals and the pending request are as before,
    and so is the page table in force. *)
Definition process_kept (s s' : xst (E := E)) : Prop :=
  xs s' = xs s /\ xg s' = xg s /\ syscall_exec_entry s' = syscall_exec_entry s /\ syscall_exec_rsp s' = syscall_exec_rsp s /\
  syscall_exec_request s' = syscall_exec_request s /\ cr3 (mem_of s') = cr3 (mem_of s).

(** Task [k] of [s'] is that of [s] with the image [c], loaded into the memory
    [l], on the stack pointer [rsp]. *)
Record image_replaced (T : labels) (s s' : xst (E := E)) (k : Z) (l : vmst) (c : Elf.elf_context_t) (rsp : Z) : Prop := {
  ir_request : syscall_exec_request s' = 1 /\ syscall_exec_entry s' = Elf.entry c /\ syscall_exec_rsp s' = rsp;
  ir_task : xs s' = mod_task k (new_image c rsp) (xs s);
  ir_globals : xg s' = signal_globals_reset (xg s);
  ir_new : T !! Elf.vmctx c = None;
  ir_cr3 : cr3 (mem_of s') = pml4_phys (mem_of s') (Elf.vmctx c);
  ir_space va : lookup_va (mem_of s') (Elf.vmctx c) va = lookup_va l (Elf.vmctx c) va;
  ir_bytes b : (forall x, Elf.USER_STACK_TOP - Elf.USER_STACK_SIZE <= x < Elf.USER_STACK_TOP -> vm_translate l (Elf.vmctx c) x <> b) ->
    ld8 (pmem (mem_of s')) b = ld8 (pmem l) b
}.

(** The arguments and the environment of the new image, read from the caller's
    memory, are on its stack. *)
Definition started_with (tsc mm argv envp : Z) (x : task) (s s' : xst (E := E)) (pb : list Z) (l : Elf.loader (E := E)) (c0 c : Elf.elf_context_t) (rsp : Z) : Prop :=
  exists v1 ka v2 ke,
    exec_read_strvec mm argv (mem_of s) = (v1, Some ka) /\ exec_read_strvec mm envp v1 = (v2, Some ke) /\
    Elf.elf_load vfs_open (c_str (ended 63 pb)) c0 (xl (with_mem v2 s)) = (l, c, 0) /\
    ElfStack.initial_stack (mem_of s') c tsc (uid x) (gid x) (string_at v2 <$> ka) (merge_env (default_env (euid x) (cwd x)) (string_at v2 <$> ke)) rsp.

(** What the two outcomes say. *)
Definition execve_post (T : labels) (c0 : Elf.elf_context_t) (tsc path argv envp k : Z) (s : xst (E := E)) (r : xst (E := E) * Z) : Prop :=
  let x := tget (xs s) k in
  spaces_kept T (mem_of s) (mem_of r.1) /\
  ((r.2 = err 22 \/ r.2 = err 14 \/ r.2 = err 2) /\ process_kept s r.1 \/
   r.2 = 0 /\ exists mm pb l c rsp, mm_context x = Some mm /\ copied_bytes 63 mm path (mem_of s) = (pb, true) /\
     image_replaced T s r.1 k (Elf.lvm l) c rsp /\ started_with tsc mm argv envp x s r.1 pb l c0 c rsp).

Lemma copied_context n mm src v l : copied_bytes (S n) mm src v = (l, true) -> mm <> 0.
Proof. intros H ->. discriminate H. Qed.

Lemma strings_kept T v T' v' l : vm_ok T v -> vm_step T v T' v' -> Forall (fun p => Vm.frame_ok T v p /\ aligned p) l -> string_at v' <$> l = string_at v <$> l.
Proof.
  intros Hv S Hl. induction Hl as [|p l [Hp Ha] _ IH]; [done|]. by rewrite !fmap_cons, IH, (string_kept T v T' v' p).
Qed.

Lemma newly_frames T v0 v l : vm_ok T v0 -> Forall (newly v0 v) l -> Forall (fun p => Vm.frame_ok T v p /\ aligned p) l.
Proof.
  intros Hv H. eapply Forall_impl; [exact H|]. intros p Hp. split; [|by destruct (taken_aligned _ _ (proj1 Hp))].
  apply (newly_frame_ok T v0); [by apply (newly_label T v0 v)|done].
Qed.

Lemma all_free v0 v l : Forall (newly v0 v) l -> Forall (was_free v0) l.
Proof. intros H. eapply Forall_impl; [exact H|]. intros p. apply newly_was_free. Qed.

Lemma all_fit v l : Forall fits (string_at v <$> l).
Proof. apply Forall_fmap, Forall_true. intros p. apply string_at_fits. Qed.

(** The switch to a space whose stack has been built. *)
Lemma replace_image_spec T T' lm v3 vf k c rsp (s s1 : xst (E := E)) : vm_ok T' lm -> is_ctx T' (Elf.vmctx c) -> T !! Elf.vmctx c = None ->
  ElfStack.written T' (Elf.vmctx c) (Elf.USER_STACK_TOP - Elf.USER_STACK_SIZE) Elf.USER_STACK_TOP lm v3 -> pmem vf = pmem v3 -> mem_of s1 = vf ->
  xs s1 = xs s -> xg s1 = xg s -> spaces_kept T (mem_of s) vf ->
  let sf := replace_image k c rsp s1 in spaces_kept T (mem_of s) (mem_of sf) /\ image_replaced T s sf k lm c rsp /\ pmem (mem_of sf) = pmem v3.
Proof.
  intros Hl Hc Hnew [_ _ _ W4 W5] Ef E1 Ex Eg [K1 K2 K3 K4 K5] sf.
  assert (Hc0 : Elf.vmctx c <> 0) by (pose proof (label_pos _ _ _ _ Hl Hc); lia).
  assert (Em : mem_of sf = vf <| cr3 := pml4_phys vf (Elf.vmctx c) |>).
  { unfold sf, replace_image, vm_switch. rewrite (proj2 (Z.eqb_neq _ 0) Hc0), E1. done. }
  assert (Es : xs sf = mod_task k (new_image c rsp) (xs s) /\ xg sf = signal_globals_reset (xg s)) by (unfold sf, replace_image; cbn; by rewrite Ex, Eg).
  assert (Eq : syscall_exec_request sf = 1 /\ syscall_exec_entry sf = Elf.entry c /\ syscall_exec_rsp sf = rsp) by done.
  clearbody sf. destruct Es as [Es1 Es2]. assert (Ep : pmem (mem_of sf) = pmem v3) by (by rewrite Em). split; [|split; [|done]].
  - rewrite Em. split; [done|done| |done|done]. intros c' va Hc'. rewrite (lookup_pmem vf) by done. by apply K3.
  - split; [done|done|done|done|by rewrite Em| |].
    + intros va. rewrite (lookup_pmem v3) by done. by apply (lookup_keeps T').
    + intros b Hb. rewrite Ep. apply W5. intros y Hy. rewrite (keeps_translate T' lm v3) by done. by apply Hb.
Qed.

(** With both vectors read. *)
Lemma execve_loaded T v1 v2 ka ke mm pb c0 tsc path argv envp k (s : xst (E := E)) :
  let x := tget (xs s) k in
  vm_ok T (mem_of s) -> stub_ok T (mem_of s) -> (length (cwd x) <= 96)%nat -> Forall (fun b => 0 <= b < 256) (cwd x) ->
  current_task (xs s) = Some k -> mm_context x = Some mm -> copied_bytes 63 mm path (mem_of s) = (pb, true) ->
  exec_read_strvec mm argv (mem_of s) = (v1, Some ka) -> exec_read_strvec mm envp v1 = (v2, Some ke) ->
  grown T (mem_of s) T v2 -> Forall (newly (mem_of s) v2) ka -> Forall (newly (mem_of s) v2) ke -> (length ka <= 15)%nat -> (length ke <= 15)%nat ->
  execve_post T c0 tsc path argv envp k s (sys_execve vfs_open c0 tsc path argv envp s).
Proof.
  intros x Hv Hst Hcl Hcb Hk Hmm Hpb E1 E2 G2 Na Ne La Le. unfold sys_execve. rewrite Hk. fold x. rewrite Hmm, Hpb. cbn [negb]. rewrite E1, E2.
  pose proof (vs_ok _ _ _ _ (gr_step _ _ _ _ G2)) as Hv2. pose proof (stub_step _ _ _ _ (gr_step _ _ _ _ G2) Hst) as Hst2.
  pose proof (elf_load_grown vfs_open T v2 (c_str (ended 63 pb)) c0 (xl (with_mem v2 s)) Hv2 Hst2 eq_refl) as P.
  destruct (Elf.elf_load vfs_open _ c0 _) as [[l c] r] eqn:El. destruct P as (Hr & T' & Gl & Ok). pose proof (vs_ok _ _ _ _ (gr_step _ _ _ _ Gl)) as Hvl.
  pose proof (grown_trans _ _ _ _ _ _ G2 Gl) as G. pose proof (all_free _ _ _ Na) as Fa. pose proof (all_free _ _ _ Ne) as Fe.
  assert (Back : forall v, grown T (mem_of s) T' v -> spaces_kept T (mem_of s) (exec_free_vec ke (exec_free_vec ka v))).
  { intros v Gv. destruct (grown_kept T (mem_of s) T' v Hv Gv) as [Kv _]. apply kept_free_vec; [by apply kept_free_vec|done]. }
  destruct (free_vec_same ka (Elf.lvm l)) as [_ B2], (free_vec_same ke (exec_free_vec ka (Elf.lvm l))) as [_ B4].
  destruct Hr as [->| ->]; cbn [Z.ltb Z.compare].
  2: { split; [by apply Back|]. left. split; [by auto|]. do 5 (split; [done|]). transitivity (cr3 (exec_free_vec ke (exec_free_vec ka (Elf.lvm l)))); [done|].
       rewrite B4, B2. apply (vs_cr3 _ _ _ _ (gr_step _ _ _ _ G)). }
  destruct (Ok eq_refl) as (Hnew & Hc & Own). change (mem_of (with_loader l s)) with (Elf.lvm l).
  pose proof (newly_frames T (mem_of s) v2 ka Hv Na) as Ra. pose proof (newly_frames T (mem_of s) v2 ke Hv Ne) as Re.
  rewrite (strings_kept T v2 T' (Elf.lvm l) ka Hv2 (gr_step _ _ _ _ Gl) Ra), (strings_kept T v2 T' (Elf.lvm l) ke Hv2 (gr_step _ _ _ _ Gl) Re).
  destruct (merge_env_fits (string_at v2 <$> ke) (default_env (euid x) (cwd x)) (default_env_fits _ _ Hcl Hcb) (all_fit v2 ke) ltac:(cbn; lia)) as [Me Ml].
  pose proof (build_stack T v2 T' (Elf.lvm l) c tsc mm (uid x) (gid x) (g_default_uid (xs s), g_default_gid (xs s)) (string_at v2 <$> ka) _ Hv2 Gl Hc Own
    (copied_context _ _ _ _ _ Hpb) (all_fit v2 ka) Me ltac:(by rewrite length_fmap) Ml) as P.
  destruct (Elf.elf_build_user_stack _ _ _ c _ _ _) as [v3 r]. destruct P as (G3 & W & rsp & -> & Hs).
  destruct (free_vec_same ka v3) as [C1 _], (free_vec_same ke (exec_free_vec ka v3)) as [C3 _].
  set (vf := exec_free_vec ke (exec_free_vec ka v3)) in *. pose proof (Back v3 (grown_trans _ _ _ _ _ _ G2 G3)) as Kf. fold vf in Kf.
  destruct (replace_image_spec T T' (Elf.lvm l) v3 vf k c rsp s (with_mem vf (with_loader l s)) Hvl Hc Hnew W ltac:(congruence) eq_refl eq_refl eq_refl Kf) as (K & Im & Ep).
  split; [exact K|]. right. split; [done|]. exists mm, pb, l, c, rsp. do 2 (split; [done|]). split; [exact Im|].
  exists v1, ka, v2, ke. do 3 (split; [done|]). by apply (initial_stack_pmem v3).
Qed.

Lemma kept_self T v : vm_ok T v -> spaces_kept T v v.
Proof. intros Hv. by apply (grown_kept T v T v Hv (grown_refl T v Hv)). Qed.

Lemma execve_outcome T c0 tsc path argv envp k (s : xst (E := E)) :
  let x := tget (xs s) k in
  vm_ok T (mem_of s) -> stub_ok T (mem_of s) -> (length (cwd x) <= 96)%nat -> Forall (fun b => 0 <= b < 256) (cwd x) -> current_task (xs s) = Some k ->
  execve_post T c0 tsc path argv envp k s (sys_execve vfs_open c0 tsc path argv envp s).
Proof.
  intros x Hv Hst Hcl Hcb Hk. pose proof (kept_self T (mem_of s) Hv) as K0.
  assert (Stop : forall v r, spaces_kept T (mem_of s) v -> cr3 v = cr3 (mem_of s) -> r = err 22 \/ r = err 14 -> execve_post T c0 tsc path argv envp k s (with_mem v s, r)).
  { intros v r K Ec Hr. split; [exact K|]. left. split; [destruct Hr; auto|]. by do 5 (split; [done|]). }
  assert (Quit : forall r, r = err 22 \/ r = err 14 -> execve_post T c0 tsc path argv envp k s (s, r)).
  { intros r Hr. split; [exact K0|]. left. split; [destruct Hr; auto|]. by do 5 (split; [done|]). }
  destruct (mm_context x) as [mm|] eqn:Hmm; [|unfold sys_execve; rewrite Hk; fold x; rewrite Hmm; apply Quit; by left].
  destruct (copied_bytes 63 mm path (mem_of s)) as [pb ok] eqn:Hpb.
  destruct ok; [|unfold sys_execve; rewrite Hk; fold x; rewrite Hmm, Hpb; apply Quit; by right].
  pose proof (exec_read_strvec_spec T (mem_of s) Hv mm argv (mem_of s) (grown_refl T _ Hv)) as P1.
  destruct (exec_read_strvec mm argv (mem_of s)) as [v1 [ka|]] eqn:E1.
  2: { unfold sys_execve. rewrite Hk. fold x. rewrite Hmm, Hpb. cbn [negb]. rewrite E1. apply Stop; [apply P1|apply P1|by right]. }
  destruct P1 as (G1 & N1 & L1). pose proof (vs_ok _ _ _ _ (gr_step _ _ _ _ G1)) as Hv1.
  pose proof (exec_read_strvec_spec T v1 Hv1 mm envp v1 (grown_refl T _ Hv1)) as P2.
  pose proof (exec_read_strvec_spec T (mem_of s) Hv mm envp v1 G1) as P2'.
  destruct (exec_read_strvec mm envp v1) as [v2 [ke|]] eqn:E2.
  - destruct P2 as (G2 & N2 & L2). pose proof (vs_mm _ _ _ _ (gr_step _ _ _ _ G1)) as X1. pose proof (vs_mm _ _ _ _ (gr_step _ _ _ _ G2)) as X2.
    apply (execve_loaded T v1 v2 ka ke mm pb); try done.
    + by eapply grown_trans.
    + eapply Forall_impl; [exact N1|]. intros p Hp. by eapply newly_later.
    + eapply Forall_impl; [exact N2|]. intros p Hp. by eapply newly_mono.
  - unfold sys_execve. rewrite Hk. fold x. rewrite Hmm, Hpb. cbn [negb]. rewrite E1, E2. destruct P2' as [K2 C2].
    apply Stop; [apply kept_free_vec; [done|by eapply all_free]| |by right]. rewrite (proj2 (free_vec_same ka v2)). exact C2.
Qed.
End Atomic.

(** C35: execve is all or nothing. Either it fails with EINVAL, EFAULT or
    ENOENT, and then the caller's task, every other task, the signal globals,
    the request to the assembly entry and the page table in force are as
    before, so the old program goes on; or it succeeds. Then the task has the
    space, the entry and the stack pointer of the image that the loader made of
    the file named by the caller; that space is new, it is the one in force,
    and it is as the loader left it but for the stack, where the initial stack
    lies with the caller's argument strings and the merged environment; the
    assembly is asked to enter there; every signal disposition, mask and
    pending signal is back to the default, no delivery to the old image is
    under way; the task keeps its number, parent, credentials, limits, group
    and working directory, and no other task has changed. In every case, what
    the file holds notwithstanding, each address space there was translates as
    before, the bytes of its user pages are the same, and no page in use has
    been given up. File reads return at most the bytes asked for (proved above
    for tmpfs and ext2); the stack of
    4 MB has room for any strings the vectors can name, so that ENOMEM of the
    stack builder does not occur. *)
Theorem execve_all_or_nothing {E} {FO : Vfs.FileOps E} {BR : BoundedReads FO} vfs_open T c0 tsc path argv envp (s : xst (E := E)) k :
  let x := tget (xs s) k in
  length (task_table (xs s)) = Z.to_nat MAX_TASKS -> current_task (xs s) = Some k -> 0 <= k < MAX_TASKS ->
  vm_ok T (mem_of s) -> stub_ok T (mem_of s) -> (length (cwd x) <= 96)%nat -> Forall (fun b => 0 <= b < 256) (cwd x) ->
  let '(s', r) := sys_execve vfs_open c0 tsc path argv envp s in
  let y := tget (xs s') k in
  spaces_kept T (mem_of s) (mem_of s') /\
  ((r = err 22 \/ r = err 14 \/ r = err 2) /\ process_kept s s' \/
   r = 0 /\ exists mm pb l c rsp, mm_context x = Some mm /\ copied_bytes 63 mm path (mem_of s) = (pb, true) /\
     started_with vfs_open tsc mm argv envp x s s' pb l c0 c rsp /\ image_replaced T s s' k (Elf.lvm l) c rsp /\
     mm_context y = Some (Elf.vmctx c) /\ Sched.entry y = Elf.entry c /\ user_rsp y = rsp /\
     sig_handler y = zeros 64 /\ sig_flags y = zeros 64 /\ sig_restorer y = zeros 64 /\ sig_pending y = 0 /\ sig_blocked y = 0 /\
     pid y = pid x /\ ppid y = ppid x /\ uid y = uid x /\ euid y = euid x /\ gid y = gid x /\ egid y = egid x /\
     rlimit_cur y = rlimit_cur x /\ rlimit_max y = rlimit_max x /\ pgrp y = pgrp x /\ sid y = sid x /\ cwd y = cwd x /\ state y = state x /\
     forall u, 0 <= u -> u <> k -> tget (xs s') u = tget (xs s) u).
Proof.
  intros x Hl Hk Hr Hv Hst Hcl Hcb. pose proof (execve_outcome vfs_open T c0 tsc path argv envp k s Hv Hst Hcl Hcb Hk) as H.
  destruct (sys_execve _ _ _ _ _ _ s) as [s' r]. destruct H as [K H]. split; [exact K|].
  destruct H as [H|(Hr0 & mm & pb & l & c & rsp & Hm & Hp & Im & St)]; [by left|right]. cbn [fst snd] in *.
  assert (Ey : tget (xs s') k = new_image c rsp x).
  { rewrite (ir_task _ _ _ _ _ _ _ Im). unfold mod_task, tget. cbn. by rewrite aget_aset_eq by lia. }
  rewrite Ey. split; [done|]. exists mm, pb, l, c, rsp. do 4 (split; [done|]).
  repeat (split; [reflexivity|]). intros u Hu Hne. rewrite (ir_task _ _ _ _ _ _ _ Im). by apply tget_mod_ne; [lia| |].
Qed.

(** ** Witness: a task that executes "/a"

    Its page holds the path, the vector of the one argument "/a" and an empty
    environment. *)
Definition ex_strings : list Z := [47; 97; 0] ++ repeat 0 29 ++ Elf.le64 0xFFFFFFFFF000 ++ Elf.le64 0.
Definition ex_memory : vmst := ex_user <| pmem := st_bytes (pmem ex_user) 0x100000 ex_strings |>.
Definition ex_exec : xst (E := unit) :=
  Xst (mod_task 1 (fun x => x <| mm_context := Some ex_ctx |>) ex_running) (Elf.Loader ex_memory tt None 0) (SigGlob 0 0 0 0 0 0 0 0 0 []) 0 0 0.

(** A disk whose one file is the image of ElfLoad, and how it may be opened. *)
Definition image_ops : Vfs.FileOps unit := {|
  Vfs.file_at := fun _ _ => Vfs.File 0 124 0 (Some 1) 0 1 [47; 97] 0 0; Vfs.set_file := fun _ _ e => e;
  Vfs.op_read := fun _ => Some (fun _ _ n e => (e, (Z.min n 124, take (Z.to_nat n) ElfLoad.ex_image))); Vfs.op_write := fun _ => None;
  Vfs.op_close := fun _ => None; Vfs.op_ioctl := fun _ => None |}.
#[export] Instance image_bounded : BoundedReads image_ops.
Proof. intros f n e Hn. change (Z.of_nat (length (take (Z.to_nat n) ElfLoad.ex_image)) <= n). rewrite length_take. lia. Qed.
Definition ex_execve (open : list Z -> unit -> unit * option Z) :=
  sys_execve (FO := image_ops) open ElfLoad.ex_context 7 0xFFFFFFFFF000 0xFFFFFFFFF020 0xFFFFFFFFF028 ex_exec.

(** Bytes below the heap are no concern of the page tables. *)
Lemma low_bytes_ok T v a l : vm_ok T v -> a + Z.of_nat (length l) <= 8388608 -> vm_ok T (v <| pmem := st_bytes (pmem v) a l |>).
Proof.
  intros H1 Hle. apply (keeps_ok T v); [exact H1| |reflexivity]. apply clear_keeps. intros b Hb t lab Ht Hin.
  destruct (taken_aligned _ _ (vo_taken _ _ H1 _ _ Ht)) as [_ Hl]. change Mm.HEAP_BASE with 8388608 in Hl. apply Hb.
  apply ld8_st_bytes_out. lia.
Qed.

#[local] Opaque ex_user.
Lemma ex_memory_ok : exists T, vm_ok T ex_memory /\ stub_ok T ex_memory /\ is_ctx T ex_ctx.
Proof.
  destruct ex_user_ok as (T & H1 & Hc). exists T. split; [|split; [|exact Hc]].
  2: { intros H. exfalso. apply H. vm_compute. reflexivity. }
  apply low_bytes_ok; [exact H1|]. apply Z.leb_le. reflexivity.
Qed.

Lemma ex_cwd_ok : (length (cwd (tget (xs ex_exec) 1)) <= 96)%nat /\ Forall (fun b => 0 <= b < 256) (cwd (tget (xs ex_exec) 1)).
Proof. split; [apply Nat.leb_le; vm_compute; reflexivity|]. apply (bool_decide_eq_true_1 (Forall _ _)). vm_compute. reflexivity. Qed.

Definition ex_args : option (list (list Z) * list (list Z)) :=
  match exec_read_strvec ex_ctx 0xFFFFFFFFF020 ex_memory with
  | (v1, Some ka) => match exec_read_strvec ex_ctx 0xFFFFFFFFF028 v1 with
                     | (v2, Some ke) => Some (string_at v2 <$> ka, string_at v2 <$> ke)
                     | _ => None
                     end
  | _ => None
  end.
Lemma ex_args_read : ex_args = Some ([[47; 97]], []).
Proof. vm_compute. reflexivity. Qed.

Definition ex_missing := ex_execve (fun _ e => (e, None)).
Definition ex_found := ex_execve (fun _ e => (e, Some 0)).

(** The task runs in a space of its own, with its argument and the default
    environment on the stack. *)
Definition ex_started (s' : xst (E := unit)) : Prop :=
  exists c rsp, mm_context (tget (xs s') 1) = Some (Elf.vmctx c) /\ cr3 (mem_of s') = pml4_phys (mem_of s') (Elf.vmctx c) /\ Elf.vmctx c <> ex_ctx /\
    ElfStack.initial_stack (mem_of s') c 7 (uid (tget (xs ex_exec) 1)) (gid (tget (xs ex_exec) 1)) [[47; 97]]
      (default_env (euid (tget (xs ex_exec) 1)) (cwd (tget (xs ex_exec) 1))) rsp.
Definition ex_failed (r : Z) (s' : xst (E := unit)) : Prop := (r = err 22 \/ r = err 14 \/ r = err 2) /\ process_kept ex_exec s'.

Lemma ex_mm : mm_context (tget (xs ex_exec) 1) = Some ex_ctx.
Proof. vm_compute. reflexivity. Qed.

#[local] Opaque ex_memory.
(** Without the file, ENOENT, and nothing has happened; with the file, either
    the old program goes on as it was, or the new one starts. *)
Lemma execve_all_or_nothing_witness :
  (ex_missing.2 = err 2 /\ process_kept ex_exec ex_missing.1) /\ (ex_failed ex_found.2 ex_found.1 \/ ex_found.2 = 0 /\ ex_started ex_found.1).
Proof.
  destruct ex_memory_ok as (T & Hv & Hst & Hc). destruct ex_cwd_ok as [Hl Hb].
  pose proof (fun open => execve_all_or_nothing (FO := image_ops) open T ElfLoad.ex_context 7 0xFFFFFFFFF000 0xFFFFFFFFF020 0xFFFFFFFFF028 ex_exec 1
    eq_refl eq_refl ltac:(vm_compute; intuition congruence) Hv Hst Hl Hb) as H.
  assert (E2 : ex_missing.2 = err 2) by (vm_compute; reflexivity). split.
  - split; [exact E2|]. specialize (H (fun _ e => (e, None))). revert E2 H. unfold ex_missing, ex_execve. cbv zeta.
    destruct (sys_execve _ _ _ _ _ _ ex_exec) as [s' r]. cbn [fst snd]. intros -> [_ [[_ H]|[H _]]]; [exact H|discriminate H].
  - specialize (H (fun _ e => (e, Some 0))). revert H. unfold ex_found, ex_execve. cbv zeta.
    destruct (sys_execve _ _ _ _ _ _ ex_exec) as [s' r]. cbn [fst snd]. intros [_ [H|(Hr & mm & pb & l & c & rsp & Hm & _ & St & Im & Ey & _)]]; [left; exact H|right].
    split; [exact Hr|]. exists c, rsp. split; [exact Ey|]. split; [exact (ir_cr3 _ _ _ _ _ _ _ Im)|]. split.
    + intros E. pose proof (ir_new _ _ _ _ _ _ _ Im) as Hn. unfold is_ctx in Hc. rewrite E, Hc in Hn. discriminate Hn.
    + rewrite ex_mm in Hm. apply Some_inj in Hm. subst mm. destruct St as (v1 & ka & v2 & ke & E1 & E3 & _ & Hs).
      pose proof ex_args_read as Ea. unfold ex_args in Ea. change (mem_of ex_exec) with ex_memory in E1. rewrite E1, E3 in Ea. apply Some_inj, pair_equal_spec in Ea as [Ea Eb].
      rewrite Ea, Eb in Hs. exact Hs.
Defined.
End Exec.
