(* ===== verification/SysPath.v ===== *)
(** The calls that take a path (src/src/kernel/syscall/table.c): working
    directory, mkdir, rmdir, rename, readlink, chmod, truncate, unlink and
    statfs, over the ext2 driver. *)
From S2P Require Import Prelude Ring Paths Cwd Sched Memory Vfs Phys Vm Process VmSpace Signal Sys Bytes Ext2 Ext2Blocks Ext2Layout Ext2Dir Ext2Demo Ext2Path.

Module SysPath.
Import Ext2 Ext2Demo.
Import Sched Phys Vm VmSpace Signal Sys.

Section Calls.
  (** [junk] is what the stack holds where [cwd_resolve] reads it unwritten. *)
  Context {D : Type} {BD : BlockDev D} (junk : nat -> Z -> Z).

(** The kernel of Signal.v and the mounted filesystem. *)
Record pst := Pst { pk : kst; pf : Ext2.fs D }.

Definition on_k {A} (m : H kst A) : H pst A := fun s => let '(k, r) := m (pk s) in (Pst k (pf s), r).

(** The owner that a new inode gets. *)
Definition creator_of (s : sched) : Z * Z := match current_task s with Some t => (uid (tget s t), gid (tget s t)) | None => (0, 0) end.

(** A call of the driver; the result is looked at. *)
Definition on_fs {A} (m : Ext2.M D A) : H pst (option A) := fun s =>
  let '(f, o) := m (pf s <| Ext2.creator := creator_of (ks (pk s)) |>) in (Pst (pk s) f, inr o).
Definition fs_or {A} (m : Ext2.M D A) (e : Z) : H pst A := let* o := on_fs m in check_some o e.

Definition me_path (e : Z) : H pst (Z * Z) := on_k (me_mm e).
Definition take_path (mm p max : Z) : H pst (list Z) := on_k (exec_strncpy_from_user mm p max (err 14)).

(** [current_task->cwd[0] ? current_task->cwd : "/"] *)
Definition cwd_of (x : task) : list Z := match c_str (cwd x) with [] => [47] | p => p end.
Definition task_at (t : Z) : H pst task := on_k (task_of t).

Definition resolve_for (t : Z) (path : list Z) : H pst (list Z) :=
  let* x := task_at t in hret (Cwd.cwd_resolve junk (cwd_of x) path 96).

(** ** The working directory *)
Definition sys_getcwd (buf size : Z) : H pst Z :=
  do* check (negb (buf =? 0)) (err 14) in
  let* p := me_path (err 14) in
  let* x := task_at p.1 in
  let n := Z.of_nat (length (cwd_of x)) in
  do* check (n + 1 <=? size) (err 34) in
  do* on_k (put p.2 buf (cwd_of x ++ [0]) (err 14)) in hret n.

Definition set_cwd (path : list Z) (x : task) : task := x <| cwd := Process.overwrite (take 95 path ++ [0]) (cwd x) |>.

(** What chdir and fchdir do with the resolved path. *)
Definition enter_dir (t : Z) (resolved : list Z) : H pst Z :=
  let* ino := fs_or (Ext2Dir.ext2_lookup_path resolved) (err 2) in
  let* type := fs_or (Ext2.ext2_inode_type ino) (err 2) in
  do* check (type =? Ext2.EXT2_S_IFDIR) (err 20) in
  do* on_k (upd t (set_cwd resolved)) in hret 0.

Definition sys_chdir (path : Z) : H pst Z :=
  let* p := me_path (err 14) in
  let* pathbuf := take_path p.2 path 95 in
  let* resolved := resolve_for p.1 pathbuf in
  enter_dir p.1 resolved.

(** [name_of] gives the name recorded in the file a descriptor stands for. *)
Definition sys_fchdir (name_of : Z -> option (list Z)) (fd : Z) : H pst Z :=
  let* t := on_k (me (err 14)) in
  let* name := check_some (name_of (i32 fd)) (err 9) in
  do* check (negb (bool_decide (name = []))) (err 20) in
  let* resolved := resolve_for t name in
  enter_dir t resolved.

(** ** Directories *)

(** The directory part and the last name of a path, or an error code. *)
Definition split_path_ino (p : list Z) (name_max : Z) : H pst (Z + Z * list Z) :=
  match Ext2Dir.split_last p with
  | None => hret (inl (-2))
  | Some (parent, rest) =>
      if 256 <=? Z.of_nat (length parent) then hret (inl (-36)) else
      let* o := on_fs (Ext2Dir.ext2_lookup_path (if bool_decide (parent = []) then [47] else parent)) in
      match o with
      | None => hret (inl (-2))
      | Some ino =>
          let name := take (Z.to_nat (name_max - 1)) rest in
          if bool_decide (name = []) then hret (inl (-2)) else hret (inr (ino, name))
      end
  end.

Definition perm_of (i : Ext2.ext2_inode_t) : Vfs.perm_inode := Vfs.PermInode (Ext2.i_mode i) (Ext2.i_uid i) (Ext2.i_gid i).
Definition cred_of (s : sched) : option Vfs.cred :=
  match current_task s with Some t => Some (Vfs.Cred (euid (tget s t)) (egid (tget s t))) | None => None end.

(** The inode is read only when the caller is not root. *)
Definition dir_write_perm (ino : Z) : H pst Z :=
  let* c := get (fun s => cred_of (ks (pk s))) in
  match c with
  | None => hret 0
  | Some c' =>
      if Vfs.euid c' =? 0 then hret 0 else
      let* o := on_fs (Ext2.ext2_read_inode ino) in hret (Vfs.vfs_dir_write_perm (perm_of <$> o) c)
  end.

Definition sys_mkdir (path : Z) : H pst Z :=
  let* p := me_path (err 14) in
  let* pathbuf := take_path p.2 path 95 in
  let* resolved := resolve_for p.1 pathbuf in
  let* r := split_path_ino resolved 64 in
  match r with
  | inl e => hret (u64 e)
  | inr (parent_ino, name) =>
      let* there := on_fs (Ext2Dir.ext2_lookup_path resolved) in
      do* check (bool_decide (there = None)) (err 17) in
      let* perm := dir_write_perm parent_ino in
      do* check (negb (perm <? 0)) (err 13) in
      do* fs_or (Ext2Dir.ext2_mkdir parent_ino name) (err 17) in hret 0
  end.

Definition sys_rmdir (path : Z) : H pst Z :=
  let* p := me_path (err 14) in
  let* pathbuf := take_path p.2 path 95 in
  let* resolved := resolve_for p.1 pathbuf in
  let* r := split_path_ino resolved 64 in
  match r with
  | inl e => hret (u64 e)
  | inr (parent_ino, name) =>
      let* perm := dir_write_perm parent_ino in
      do* check (negb (perm <? 0)) (err 13) in
      let* e := fs_or (Ext2Dir.ext2_rmdir parent_ino name) (err 2) in
      hret (if e =? -2 then err 39 else 0)
  end.

Definition sys_rename (oldp newp : Z) : H pst Z :=
  let* p := me_path (err 14) in
  let* ob := take_path p.2 oldp 95 in
  let* nb := take_path p.2 newp 95 in
  let* ors := resolve_for p.1 ob in
  let* nrs := resolve_for p.1 nb in
  let* o := split_path_ino ors 64 in
  match o with
  | inl _ => hret (err 2)
  | inr (oparent, oname) =>
      let* n := split_path_ino nrs 64 in
      match n with
      | inl _ => hret (err 2)
      | inr (nparent, nname) =>
          let* po := dir_write_perm oparent in
          do* check (negb (po <? 0)) (err 13) in
          let* pn := dir_write_perm nparent in
          do* check (negb (pn <? 0)) (err 13) in
          do* fs_or (Ext2Dir.ext2_rename oparent oname nparent nname) (err 2) in hret 0
      end
  end.

(** ** Files by path *)
Definition sys_readlink (path buf bufsiz : Z) : H pst Z :=
  let* p := me_path (err 14) in
  let* pathbuf := take_path p.2 path 95 in
  let* ino := fs_or (Ext2Dir.ext2_lookup_path pathbuf) (err 2) in
  let* type := fs_or (Ext2.ext2_inode_type ino) (err 2) in
  do* check (type =? Ext2.EXT2_S_IFLNK) (err 22) in
  let* target := fs_or (Ext2.ext2_symlink_target ino 256) (err 22) in
  let n := Z.min (Z.of_nat (length target)) bufsiz in
  do* on_k (put p.2 buf (take (Z.to_nat n) target) (err 14)) in hret n.

(** 0, -1 or -2. Without a current task there is no check. *)
Definition chmod_path (pathbuf : list Z) (mode : Z) : H pst Z :=
  let* o := on_fs (Ext2Dir.ext2_lookup_path pathbuf) in
  match o with
  | None => hret (-2)
  | Some ino =>
      let* c := get (fun s => cred_of (ks (pk s))) in
      let* denied := match c with
                     | Some c' =>
                         if Vfs.euid c' =? 0 then hret false else
                         let* oi := on_fs (Ext2.ext2_read_inode ino) in
                         hret (match oi with Some i => negb (Ext2.i_uid i =? Vfs.euid c') | None => false end)
                     | None => hret false
                     end in
      if denied : bool then hret (-1) else
      let* w := on_fs (Ext2.ext2_chmod ino (u32 mode)) in
      hret (match w with Some _ => 0 | None => -2 end)
  end.

Definition sys_chmod (path mode : Z) : H pst Z :=
  let* p := me_path (err 14) in
  let* pathbuf := take_path p.2 path 95 in
  let* resolved := resolve_for p.1 pathbuf in
  let* r := chmod_path resolved mode in hret (u64 r).

Definition AT_FDCWD : Z := -100.
Definition sys_fchmodat (dirfd path mode : Z) : H pst Z :=
  if negb (i32 dirfd =? AT_FDCWD) then hret (err 38) else sys_chmod path mode.

(** The length is ignored. *)
Definition sys_truncate (path : Z) : H pst Z :=
  let* p := me_path (err 14) in
  let* pathbuf := take_path p.2 path 95 in
  let* resolved := resolve_for p.1 pathbuf in
  let* ino := fs_or (Ext2Dir.ext2_lookup_path resolved) (err 2) in
  do* fs_or (Ext2.ext2_truncate ino) (err 2) in hret 0.

(** The name is looked for before the parent. *)
Definition unlink_path (p : list Z) : H pst Z :=
  match Ext2Dir.split_last p with
  | None => hret (-2)
  | Some (parent, rest) =>
      if 256 <=? Z.of_nat (length parent) then hret (-36) else
      let name := take 255 rest in
      if bool_decide (name = []) then hret (-2) else
      let* o := on_fs (Ext2Dir.ext2_lookup_path (if bool_decide (parent = []) then [47] else parent)) in
      match o with
      | None => hret (-2)
      | Some ino => let* w := on_fs (Ext2Dir.ext2_unlink ino name) in hret (match w with Some _ => 0 | None => -2 end)
      end
  end.

Definition sys_unlink (path : Z) : H pst Z :=
  let* p := me_path (err 14) in
  let* pathbuf := take_path p.2 path 63 in
  let* r := unlink_path pathbuf in hret (u64 r).
Definition sys_unlinkat (dirfd path : Z) : H pst Z :=
  if negb (i32 dirfd =? AT_FDCWD) then hret (err 38) else sys_unlink path.

(** ** statfs *)
Definition statfs_fill (mm out : Z) : H pst Z :=
  if out =? 0 then hret (-14) else
  let* c := on_fs Ext2.ext2_superblock_counts in
  let* b := on_fs Ext2.ext2_block_size in
  let '(blocks, bfree, inodes, ifree) := default (0, 0, 0, 0) c in
  let bs := default 0 b in
  let e := u64 (-14) in
  do* on_k (put mm out (concat (le 8 <$> [0xEF53; bs; blocks; bfree; bfree; inodes; ifree])) e) in
  do* on_k (put mm (u64 (out + 56)) (le 4 0) e) in
  do* on_k (put mm (u64 (out + 60)) (le 4 0) e) in
  do* on_k (put mm (u64 (out + 64)) (le 8 255) e) in
  do* on_k (put mm (u64 (out + 72)) (le 8 bs) e) in
  do* on_k (put mm (u64 (out + 80)) (le 8 0) e) in hret 0.

(** Neither the path nor the descriptor is looked at. *)
Definition sys_statfs (buf : Z) : H pst Z :=
  let* t := on_k (me (err 14)) in
  let* x := task_at t in
  match mm_context x with
  | None => hret (u64 (-14))
  | Some mm => let* r := statfs_fill mm buf in hret (u64 r)
  end.
Definition sys_fstatfs (buf : Z) : H pst Z := sys_statfs buf.
End Calls.
Arguments pst D : clear implicits.
(** ** Looking does not write *)

(** Reading leaves the disk as it was and gives no more bytes than asked for. *)
Class ReadKeeps (D : Type) `{BlockSpec D} := read_keeps lba n (d : D) :
  let '(d', (_, bytes)) := dev_read lba n d in
  image d' = image d /\ (0 <= n -> Z.of_nat (length bytes) <= n * 512) /\
  (Ext2Blocks.bytes_ok (image d) -> Ext2Blocks.bytes_ok bytes).

Section Looks.
  Context {D : Type} {BD : BlockDev D} {BSp : BlockSpec D} {RK : ReadKeeps D}.

(** The same disk, and still a sound driver state if it was one. *)
Definition seen (s s' : Ext2.fs D) : Prop :=
  image (Ext2.disk s') = image (Ext2.disk s) /\ forall L, Ext2Layout.wf L s -> Ext2Layout.wf L s'.
#[export] Instance seen_preorder : PreOrder seen.
Proof. split; [by split|]. intros a b c [H1 H2] [H3 H4]. split; [congruence|auto]. Qed.

(** A call of the driver that leaves the image of the disk alone. *)
Definition looks {A} (m : Ext2.M D A) : Prop := forall s, seen s (m s).1.

Lemma looks_ret {A} (a : A) : looks (Ext2.ret a). Proof. intros s. reflexivity. Qed.
Lemma looks_fail {A} : looks (Ext2.fail : Ext2.M D A). Proof. intros s. reflexivity. Qed.
Lemma looks_gets {A} (f : Ext2.fs D -> A) : looks (Ext2.gets f). Proof. intros s. reflexivity. Qed.
Lemma looks_guard b : looks (Ext2.guard b). Proof. intros s. by destruct b. Qed.
Lemma looks_modify f : (forall s : Ext2.fs D, seen s (f s)) -> looks (Ext2.modify f).
Proof. intros Hf s. apply Hf. Qed.
Lemma looks_bind {A B} (m : Ext2.M D A) (k : A -> Ext2.M D B) : looks m -> (forall a, looks (k a)) -> looks (Ext2.bind m k).
Proof. intros Hm Hk s. unfold Ext2.bind. specialize (Hm s). destruct (m s) as [s1 [a|]]; [|done]. etrans; [exact Hm|apply Hk]. Qed.
Lemma looks_attempt {A} (m : Ext2.M D A) : looks m -> looks (Ext2.attempt m).
Proof. intros Hm s. unfold Ext2.attempt. specialize (Hm s). by destruct (m s). Qed.
Lemma looks_if {A} (b : bool) (m n : Ext2.M D A) : looks m -> looks n -> looks (if b then m else n).
Proof. by destruct b. Qed.

Lemma seen_cache (s : Ext2.fs D) c n : seen s (s <| Ext2.dcache := c |> <| Ext2.dcache_next := n |>).
Proof.
  split; [done|]. intros L [[] W1 W2 W3 W4 W5 W6]. split; try done.
Qed.
Lemma seen_creator (s : Ext2.fs D) c : seen s (s <| Ext2.creator := c |>).
Proof.
  split; [done|]. intros L [[] W1 W2 W3 W4 W5 W6]. split; try done.
Qed.

Lemma looks_read_block blk b : looks (Ext2.ext2_read_block blk b).
Proof.
  intros s. unfold Ext2.ext2_read_block. set (lba := u32 _). set (n := _ / 512).
  split.
  - destruct (dev_read lba n (Ext2.disk s)) as [d [ok bytes]] eqn:E. cbn [fst].
    assert (Hi : image d = image (Ext2.disk s)) by (pose proof (read_keeps lba n (Ext2.disk s)) as Hr; rewrite E in Hr; apply Hr).
    by destruct b.
  - intros L W. pose proof (Ext2Layout.wf_geo _ _ W) as G. pose proof (Ext2Blocks.bs_facts s G) as [Hb1 Hb2]. fold n in Hb2.
    pose proof (read_keeps lba n (Ext2.disk s)) as Hr. destruct (dev_read lba n (Ext2.disk s)) as [d [ok bytes]].
    destruct Hr as (Hi & Hl & Hb). cbn [fst]. apply (Ext2Layout.ch_wf L [] s), Ext2Layout.to_unchanged; [done|].
    apply Ext2Blocks.set_buf_to; [done|done|apply Hb, Ext2Blocks.g_image, G|]. specialize (Hl ltac:(lia)). lia.
Qed.

Ltac look :=
  repeat first
    [ apply looks_ret | apply looks_fail | apply looks_gets | apply looks_guard | apply looks_read_block | apply looks_attempt
    | apply looks_bind; [|intros ?] | apply looks_if | assumption
    | match goal with |- looks (match ?o with _ => _ end) => destruct o end ].

Lemma looks_read_inode ino : looks (Ext2.ext2_read_inode ino).
Proof. unfold Ext2.ext2_read_inode, Ext2.ext2_read_gdesc. look. Qed.
Lemma looks_data_block inode idx : looks (Ext2.ext2_data_block inode idx).
Proof. unfold Ext2.ext2_data_block, Ext2.table_word. look. Qed.
Lemma looks_read_dir_in {S} inode bls cb : forall acc : S, looks (Ext2Dir.read_dir_in inode bls cb acc).
Proof.
  induction bls as [|n bls IH]; intros acc; cbn [Ext2Dir.read_dir_in]; [apply looks_ret|].
  apply looks_bind; [apply looks_data_block|intros blk]. look. apply IH.
Qed.
Lemma looks_lookup parent name : looks (Ext2Dir.ext2_lookup parent name).
Proof.
  unfold Ext2Dir.ext2_lookup, Ext2Dir.check_name, Ext2Dir.ext2_read_dir. look; try apply looks_read_inode; try apply looks_read_dir_in.
  apply looks_modify. intros s. unfold Ext2Dir.dcache_insert. destruct (_ <? _); [reflexivity|apply seen_cache].
Qed.
Lemma looks_lookup_segs fuel : forall p cur, looks (Ext2Dir.lookup_segs fuel p cur).
Proof.
  induction fuel as [|fuel IH]; intros p cur; cbn [Ext2Dir.lookup_segs]; [apply looks_ret|]. destruct p as [|c p]; [apply looks_ret|].
  destruct (Paths.take_seg 255 (c :: p)) as [seg rest]. case_bool_decide; [apply IH|]. apply looks_bind; [apply looks_lookup|intros]. apply IH.
Qed.
Lemma looks_lookup_path path : looks (Ext2Dir.ext2_lookup_path path).
Proof. unfold Ext2Dir.ext2_lookup_path. look. apply looks_lookup_segs. Qed.

(** ** Handlers that only look *)

(** The kernel state is the same and so is what the disk holds. *)
Definition looked (s s' : pst D) : Prop := pk s' = pk s /\ seen (pf s) (pf s').
#[export] Instance looked_preorder : PreOrder looked.
Proof. split; [by split|]. intros a b c [H1 H2] [H3 H4]. split; [congruence|by etrans]. Qed.

Lemma looked_fs {A} (m : Ext2.M D A) : looks m -> keeps looked (on_fs m).
Proof.
  intros Hm s. unfold on_fs. pose proof (seen_creator (pf s) (creator_of (ks (pk s)))) as Hc.
  specialize (Hm (pf s <| Ext2.creator := creator_of (ks (pk s)) |>)). destruct (m _) as [f o]. split; [done|by etrans].
Qed.
Lemma looked_k {A} (m : H kst A) : keeps eq m -> keeps looked (on_k m).
Proof. intros Hm s. unfold on_k. specialize (Hm (pk s)). destruct (m (pk s)) as [k r]. cbn in *. subst. by destruct s. Qed.

Lemma reads_strncpy n mm e : forall src, keeps eq (strncpy_in n mm src e).
Proof.
  induction n as [|n IH]; intros src; cbn [strncpy_in]; [apply keeps_ret; apply _|]. unfold take_in.
  repeat first [apply (keeps_bind eq); [|intros ?] | apply keeps_get; apply _ | apply keeps_check_some; apply _ | apply keeps_if | apply keeps_ret; apply _ | apply IH].
Qed.
Lemma reads_exec_strncpy mm src mx e : keeps eq (exec_strncpy_from_user mm src mx e).
Proof. apply (keeps_bind eq); [apply reads_strncpy|intros]. apply keeps_ret. apply _. Qed.
Lemma reads_me_mm e : keeps eq (me_mm e).
Proof.
  unfold me_mm, me, task_of.
  repeat first [apply (keeps_bind eq); [|intros ?] | apply keeps_get; apply _ | apply keeps_check_some; apply _ | apply keeps_ret; apply _].
Qed.

Ltac look_h :=
  repeat first
    [ apply keeps_ret; apply _ | apply keeps_halt; apply _ | apply keeps_get; apply _ | apply keeps_check; apply _ | apply keeps_check_some; apply _
    | apply looked_fs | apply looked_k | apply (keeps_bind looked); [|intros ?] | apply keeps_if
    | match goal with |- keeps _ (match ?o with _ => _ end) => destruct o end ].

Lemma looked_split p n : keeps looked (split_path_ino p n : H (pst D) _).
Proof. unfold split_path_ino. look_h; apply looks_lookup_path. Qed.
Lemma looked_perm ino : keeps looked (dir_write_perm ino : H (pst D) _).
Proof. unfold dir_write_perm. look_h; apply looks_read_inode. Qed.
Lemma looked_resolve junk t p : keeps looked (resolve_for junk t p : H (pst D) _).
Proof. unfold resolve_for, task_at, task_of. look_h. Qed.

(** When a handler has changed the disk and its first step only looks, the rest
    has, from a state that shows the same disk. *)
Definition changes {A} (m : H (pst D) A) (s : pst D) : Prop := image (Ext2.disk (pf (m s).1)) <> image (Ext2.disk (pf s)).

Lemma changes_bind {A B} (m : H (pst D) A) (k : A -> H (pst D) B) s : keeps looked m -> changes (hbind m k) s ->
  exists s1 a, m s = (s1, inr a) /\ looked s s1 /\ changes (k a) s1.
Proof.
  intros Hm. unfold changes, hbind. specialize (Hm s). destruct (m s) as [s1 [r|a]]; cbn [fst] in *.
  - intros H. exfalso. apply H. exact (proj1 (proj2 Hm)).
  - intros H. exists s1, a. split; [done|]. split; [done|]. by rewrite (proj1 (proj2 Hm)).
Qed.
Lemma changes_quiet {A} (m : H (pst D) A) s : keeps looked m -> ~ changes m s.
Proof. intros Hm H. apply H, (Hm s). Qed.

(** ** What the steps before the change have established *)
Lemma me_path_inv e (s s1 : pst D) p : me_path e s = (s1, inr p) ->
  s1 = s /\ current_task (ks (pk s)) = Some p.1 /\ mm_context (tget (ks (pk s)) p.1) = Some p.2.
Proof.
  unfold me_path, on_k, me_mm, me, task_of. autorewrite with handler. destruct (current_task (ks (pk s))) as [t|] eqn:Hc; autorewrite with handler; [|done].
  destruct (mm_context (tget (ks (pk s)) t)) as [mm|] eqn:Hm; autorewrite with handler; [|done]. cbn. intros [= <- <-]. by destruct s.
Qed.
Lemma take_path_inv mm a mx (s s1 : pst D) str : take_path mm a mx s = (s1, inr str) ->
  s1 = s /\ exec_strncpy_from_user mm a mx (err 14) (pk s) = (pk s, inr str).
Proof.
  unfold take_path, on_k. pose proof (reads_exec_strncpy mm a mx (err 14) (pk s)) as H.
  destruct (exec_strncpy_from_user mm a mx (err 14) (pk s)) as [k r]. cbn in H. subst k. intros [= <- ->]. by destruct s.
Qed.
Lemma resolve_inv junk t str (s s1 : pst D) r : resolve_for junk t str s = (s1, inr r) ->
  s1 = s /\ r = Cwd.cwd_resolve junk (cwd_of (tget (ks (pk s)) t)) str 96.
Proof. unfold resolve_for, task_at, on_k, task_of, hbind, get. cbn. intros [= <- <-]. by destruct s. Qed.

(** The states of the driver that path lookups from the present one lead
    to: what its caches and buffers hold may differ. *)
Inductive after_lookups (f0 : Ext2.fs D) : Ext2.fs D -> Prop :=
| al_now : after_lookups f0 f0
| al_creator f c : after_lookups f0 f -> after_lookups f0 (f <| Ext2.creator := c |>)
| al_lookup f path : after_lookups f0 f -> after_lookups f0 (Ext2Dir.ext2_lookup_path path f).1.

(** The directory that holds the last name of [resolved] is found by looking
    its path up. *)
Definition parent_of (s : pst D) (resolved : list Z) (ino : Z) : Prop :=
  exists parent rest f, Ext2Dir.split_last resolved = Some (parent, rest) /\ after_lookups (pf s) f /\
    (Ext2Dir.ext2_lookup_path (if bool_decide (parent = []) then [47] else parent) f).2 = Some ino.

(** The mode bits of inode [ino], as the disk holds it, let the current task
    write: the caller is root, or the bits of its class have W. *)
Definition writable_by (c : Vfs.cred) (i : Ext2.ext2_inode_t) : Prop := Z.testbit (Vfs.perm_bits c (perm_of i)) 1 = true.
Definition granted (L : Ext2Layout.layout) (s : pst D) (ino : Z) : Prop :=
  match cred_of (ks (pk s)) with
  | None => True
  | Some c => Vfs.euid c = 0 \/ (Ext2Layout.valid L (Ext2Layout.Ino ino) -> writable_by c (Ext2Layout.inode_of L (pf s) ino))
  end.
Definition permitted (L : Ext2Layout.layout) (s : pst D) (resolved : list Z) : Prop :=
  exists ino, parent_of s resolved ino /\ granted L s ino.

Lemma after_lookups_trans f g h : after_lookups f g -> after_lookups g h -> after_lookups f h.
Proof. intros H1 H2. induction H2; [done|by constructor..]. Qed.

Lemma parent_of_after s s1 r ino : after_lookups (pf s) (pf s1) -> parent_of s1 r ino -> parent_of s r ino.
Proof.
  intros H (p & q & f & H1 & H2 & H3). exists p, q, f. split; [done|]. split; [|done]. by eapply after_lookups_trans.
Qed.
Lemma granted_looked L s s1 ino : looked s s1 -> granted L s1 ino -> granted L s ino.
Proof.
  intros [Hk [H _]]. unfold granted, Ext2Layout.inode_of, Ext2Layout.content. by rewrite Hk, H.
Qed.

Lemma split_inv r n (s s1 : pst D) ino name : split_path_ino r n s = (s1, inr (inr (ino, name))) ->
  parent_of s r ino /\ after_lookups (pf s) (pf s1).
Proof.
  unfold split_path_ino. destruct (Ext2Dir.split_last r) as [[parent rest]|] eqn:Hs; [|done]. destruct (256 <=? _); [done|].
  unfold hbind, on_fs. set (f := pf s <| Ext2.creator := _ |>).
  assert (Hf : after_lookups (pf s) f) by (apply al_creator, al_now).
  destruct (Ext2Dir.ext2_lookup_path _ f) as [f1 [i|]] eqn:El; [|done].
  unfold hret. destruct (bool_decide (take _ rest = [])); intros [= <- <- _]. split.
  - exists parent, rest, f. split; [done|]. split; [done|]. by rewrite El.
  - cbn [pf]. rewrite <- (f_equal fst El : (Ext2Dir.ext2_lookup_path _ f).1 = f1). by apply al_lookup.
Qed.

Lemma perm_inv L ino (s s1 : pst D) perm : Ext2Layout.layout_ok L -> Ext2Layout.wf L (pf s) ->
  dir_write_perm ino s = (s1, inr perm) -> negb (perm <? 0) = true -> granted L s ino.
Proof.
  intros HL W. unfold dir_write_perm, granted. autorewrite with handler. destruct (cred_of (ks (pk s))) as [c|]; [|done].
  destruct (Vfs.euid c =? 0) eqn:E0; [intros _ _; left; by apply Z.eqb_eq|]. unfold hbind, on_fs.
  pose proof (proj2 (seen_creator (pf s) (creator_of (ks (pk s)))) L W) as Wc. set (f := pf s <| Ext2.creator := _ |>) in *.
  intros E Hp. right. intros Hv.
  destruct (Ext2Layout.read_inode_spec L HL f ino Wc Hv) as (f1 & Er & _). rewrite Er in E. injection E as <- <-.
  change (negb ((if Vfs.euid c =? 0 then 0 else if Z.testbit (Vfs.perm_bits c (perm_of (Ext2Layout.inode_of L f ino))) 1 then 0 else Vfs.EACCES) <? 0) = true) in Hp.
  rewrite E0 in Hp. unfold writable_by. change (Ext2Layout.inode_of L (pf s) ino) with (Ext2Layout.inode_of L f ino). by destruct (Z.testbit _ 1).
Qed.

Lemma check_inv b r (s s1 : pst D) u : check b r s = (s1, inr u) -> s1 = s /\ b = true.
Proof. destruct b; [|done]. by intros [= <- _]. Qed.
End Looks.

(** ** The calls that change directories *)
Inductive dir_call := Mkdir (path : Z) | Rmdir (path : Z) | Rename (oldp newp : Z).

Section Dirs.
  Context {D : Type} {BD : BlockDev D} {BSp : BlockSpec D} {RK : ReadKeeps D} (junk : nat -> Z -> Z) (L : Ext2Layout.layout).

Definition dir_handler (c : dir_call) : H (pst D) Z :=
  match c with Mkdir p => sys_mkdir junk p | Rmdir p => sys_rmdir junk p | Rename o n => sys_rename junk o n end.
Definition dir_paths (c : dir_call) : list Z := match c with Mkdir p | Rmdir p => [p] | Rename o n => [o; n] end.

(** The path at [a], resolved, leads to a directory the caller may write to. *)
Definition path_permitted (s : pst D) (t mm a : Z) : Prop :=
  exists str, exec_strncpy_from_user mm a 95 (err 14) (pk s) = (pk s, inr str) /\
    permitted L s (Cwd.cwd_resolve junk (cwd_of (tget (ks (pk s)) t)) str 96).

(** The first step of a handler that has changed the disk only looked: go on
    from its result. *)
Ltac step H :=
  let s1 := fresh "s" in let a := fresh "a" in let E := fresh "E" in let L := fresh "L" in
  apply changes_bind in H as (s1 & a & E & L & H);
    [|first [ apply looked_split | apply looked_perm | apply looked_resolve | apply looked_fs, looks_lookup_path
            | apply looked_k; first [apply reads_me_mm | apply reads_exec_strncpy] | apply keeps_check; apply _ ]].

Lemma wf_looked (s s1 : pst D) : looked s s1 -> Ext2Layout.wf L (pf s) -> Ext2Layout.wf L (pf s1).
Proof. intros [_ [_ H]]. apply H. Qed.

Lemma start_permitted {A} (k : Z * Z -> H (pst D) A) s : changes (hbind (me_path (err 14)) k) s ->
  exists t mm, current_task (ks (pk s)) = Some t /\ mm_context (tget (ks (pk s)) t) = Some mm /\ changes (k (t, mm)) s.
Proof.
  intros H. step H. apply me_path_inv in E as (-> & H1 & H2). destruct a as [t mm]. by exists t, mm.
Qed.

Lemma one_permitted t mm p (s s1 s2 s3 : pst D) str r ino :
  take_path mm p 95 s = (s1, inr str) -> resolve_for junk t str s1 = (s2, inr r) -> parent_of s2 r ino -> granted L s3 ino -> looked s2 s3 ->
  path_permitted s t mm p.
Proof.
  intros E1 E2 Hp Hg Hlk. apply take_path_inv in E1 as [-> E1]. apply resolve_inv in E2 as [-> ->].
  exists str. split; [exact E1|]. exists ino. split; [done|]. by eapply granted_looked.
Qed.

(** C31: The directory tree changes only with permission. If mkdir, rmdir or
    rename has changed anything on the disk, then for each path it was given
    the directory that holds its last name, found by looking up the directory
    part of the path resolved against the caller's working directory, has mode
    bits that let the caller write to it (those of the owner, the group or the
    others, whichever applies first), or the caller's effective user is root.
    The bits are those of the directory's inode on the disk as it is when the
    call begins (a disk whose tables are where the driver takes them to be). *)
Theorem directory_changes_permitted c s :
  Ext2Layout.layout_ok L -> Ext2Layout.wf L (pf s) ->
  image (Ext2.disk (pf (run (dir_handler c) s).1)) <> image (Ext2.disk (pf s)) ->
  exists t mm, current_task (ks (pk s)) = Some t /\ mm_context (tget (ks (pk s)) t) = Some mm /\
    Forall (path_permitted s t mm) (dir_paths c).
Proof.
  intros HL W. assert (Er : (run (dir_handler c) s).1 = (dir_handler c s).1) by (unfold run; by destruct (dir_handler c s) as [? [?|?]]).
  rewrite Er. clear Er. change (changes (dir_handler c) s -> exists t mm, current_task (ks (pk s)) = Some t /\ mm_context (tget (ks (pk s)) t) = Some mm /\ Forall (path_permitted s t mm) (dir_paths c)).
  destruct c as [p|p|o n]; cbn [dir_handler dir_paths]; intros H; apply start_permitted in H as (t & mm & Hc & Hm & H); exists t, mm; (split; [exact Hc|]); (split; [exact Hm|]); cbn [fst snd] in H.
  - step H. step H. step H. destruct a1 as [e|[ino name]]; [by apply changes_quiet in H; [|apply keeps_ret; apply _]|].
    step H. step H. step H. step H. apply check_inv in E5 as [-> E5]. constructor; [|constructor].
    assert (W4 : Ext2Layout.wf L (pf s4)) by (eapply wf_looked; [|exact W]; repeat (etrans; [|eassumption]); reflexivity).
    eapply one_permitted; [exact E|exact E0|by eapply split_inv|by eapply perm_inv|by do 2 (etrans; [eassumption|])].
  - step H. step H. step H. destruct a1 as [e|[ino name]]; [by apply changes_quiet in H; [|apply keeps_ret; apply _]|].
    step H. step H. apply check_inv in E3 as [-> E3]. constructor; [|constructor].
    assert (W2 : Ext2Layout.wf L (pf s2)) by (eapply wf_looked; [|exact W]; repeat (etrans; [|eassumption]); reflexivity).
    eapply one_permitted; [exact E|exact E0|by eapply split_inv|by eapply perm_inv|done].
  - step H. step H. step H. step H. step H. destruct a3 as [e|[oino oname]]; [by apply changes_quiet in H; [|apply keeps_ret; apply _]|].
    step H. destruct a3 as [e|[nino nname]]; [by apply changes_quiet in H; [|apply keeps_ret; apply _]|].
    step H. step H. step H. step H. apply check_inv in E6 as [-> E6]. apply check_inv in E8 as [-> E8].
    apply take_path_inv in E as [-> E]. apply take_path_inv in E0 as [-> E0]. apply resolve_inv in E1 as [-> ->]. apply resolve_inv in E2 as [-> ->].
    apply split_inv in E3 as [Po Ao]. apply split_inv in E4 as [Pn _].
    constructor; [|constructor; [|constructor]].
    + exists a. split; [exact E|]. exists oino. split; [exact Po|].
      eapply granted_looked; [|eapply (perm_inv L); [exact HL| |exact E5|exact E6]]; [by do 2 (etrans; [eassumption|])|].
      eapply wf_looked; [|exact W]. by do 2 (etrans; [eassumption|]).
    + exists a0. split; [exact E0|]. exists nino. split; [by eapply parent_of_after|].
      eapply granted_looked; [|eapply (perm_inv L); [exact HL| |exact E7|exact E8]]; [by do 3 (etrans; [eassumption|])|].
      eapply wf_looked; [|exact W]. by do 3 (etrans; [eassumption|]).
Qed.
End Dirs.

(** ** A concrete run: root makes /d on the demonstration disk *)
#[local] Instance ram_reads : ReadKeeps (list Z).
Proof. 
  intros lba n d. unfold dev_read, ram_dev. unfold on_ram. destruct (_ && _) eqn:E.
  - rewrite !andb_true_iff, !Z.leb_le in E. split; [done|]. split; [|apply Ext2Blocks.bytes_slice].
    intros Hn. rewrite Ring.length_slice by lia. lia.
  - split; [done|]. split; [intros; cbn; lia|intros _; constructor].
 Qed.

Definition path_user : vmst := ex_user <| pmem := st_bytes (pmem ex_user) 0x100000 [47; 100; 0] |>.
Definition ex_mkdir (euid_of_caller : Z) : pst (list Z) :=
  Pst (Kst (mod_task 1 (fun x => x <| mm_context := Some ex_ctx |> <| euid := euid_of_caller |>) ex_running) path_user (SigGlob 0 0 0 0 0 0 0 0 0 [])) Ext2Path.rooted.
Definition ex_mkdir_run (u : Z) := run (dir_handler (fun _ _ => 0) (Mkdir 0xFFFFFFFFF000)) (ex_mkdir u).

Lemma ex_mkdir_wf : Ext2Layout.wf demo_layout (pf (ex_mkdir 0)).
Proof. destruct Ext2Path.rooted_ok as [C _]. exact (Ext2Layout.ch_wf _ _ _ _ C). Qed.

(** An ordinary user is refused. *)
Example mkdir_refused : (ex_mkdir_run 1000).2 = Ret (err 13).
Proof. vm_compute. reflexivity. Qed.

Lemma directory_changes_permitted_witness :
  (ex_mkdir_run 0).2 = Ret 0 /\
  exists t mm, current_task (ks (pk (ex_mkdir 0))) = Some t /\ mm_context (tget (ks (pk (ex_mkdir 0))) t) = Some mm /\
    Forall (path_permitted (fun _ _ => 0) demo_layout (ex_mkdir 0) t mm) [0xFFFFFFFFF000].
Proof.
  split; [vm_compute; reflexivity|]. apply (directory_changes_permitted (fun _ _ => 0) demo_layout (Mkdir 0xFFFFFFFFF000) (ex_mkdir 0) demo_layout_ok ex_mkdir_wf).
  intros H. apply (f_equal (fun l => aget l 4096)) in H. revert H. vm_compute. discriminate.
Defined.
End SysPath.
