(* ===== verification/SysFd.v ===== *)
(** The calls that take a descriptor (src/src/kernel/syscall/table.c): read,
    write, close, dup, fcntl, lseek, pread64, readv, writev and poll, over the
    descriptor table of Vfs.v.

    Where the code hands a user pointer to a file operation, the bytes written
    are an argument and the bytes read are part of the result. *)
From S2P Require Import Prelude Sched Memory Vfs Phys Vm VmSpace Process Signal Sys SysWait.

Module SysFd.
Import Vfs.
Import Sched Phys Vm Signal Sys.

(** What poll asks of the pipes and of the terminal about the file at an address. *)
Class PollOps (E : Type) := {
  pipe_is_pipe : Z -> E -> bool;
  pipe_readable : Z -> E -> bool;
  pipe_writable : Z -> E -> bool;
  pipe_readers_gone : Z -> E -> bool;
  pipe_writers_gone : Z -> E -> bool;
  devfs_is_tty : Z -> E -> bool;
  devfs_tty_readable : E -> bool
}.

Section Calls.
  Context {E : Type} {FO : FileOps E}.

(** The kernel of Signal.v, the descriptor table, the open files. *)
Record fdst := Fst { fk : kst; fv : vfs; fe : E }.

Definition on_k {A} (m : H kst A) : H fdst A := fun s => let '(k, r) := m (fk s) in (Fst k (fv s) (fe s), r).
Definition on_files {A} (m : E -> E * A) : H fdst A := fun s => let '(e, a) := m (fe s) in (Fst (fk s) (fv s) e, inr a).
Definition on_fds (g : vfs -> vfs) : H fdst unit := modify (fun s => Fst (fk s) (g (fv s)) (fe s)).

(** [current_pid()] *)
Definition owner (s : fdst) : Z := Process.current_pid (ks (fk s)).

(** The file of a descriptor, EBADF without one. *)
Definition getf (fd : Z) : H fdst Z := let* f := get (fun s => vfs_fd_get (i32 fd) (fv s)) in check_some f (err 9).
Definition file_of (f : Z) : H fdst file_t := get (fun s => file_at (fe s) f).

Definition sys_read (fd count : Z) : H fdst (Z * list Z) := let* f := getf fd in on_files (vfs_read (Some f) count).
Definition sys_write (fd : Z) (data : list Z) : H fdst Z := let* f := getf fd in on_files (vfs_write (Some f) data).

Definition sys_close (fd : Z) : H fdst Z :=
  let* f := getf fd in
  do* on_files (vfs_close (Some f)) in
  do* on_fds (vfs_fd_free (i32 fd)) in hret 0.

(** ** Duplicating *)
Definition sys_dup (fd : Z) : H fdst Z :=
  let* f := getf fd in
  let* r := get (fun s => vfs_fd_alloc (owner s) f (fv s)) in
  do* on_fds (fun _ => r.1) in
  do* check (negb (r.2 <? 0)) (err 24) in
  do* on_files (fun e => (take_ref f e, tt)) in hret r.2.

Definition sys_dup2 (oldfd newfd : Z) : H fdst Z := fun s =>
  let '(v, e, r) := vfs_fd_dup2 (owner s) (i32 oldfd) (i32 newfd) (fv s) (fe s) in
  (Fst (fk s) v e, inr (if r <? 0 then err 9 else r)).

Definition F_DUPFD : Z := 0.
Definition F_GETFD : Z := 1.
Definition F_SETFD : Z := 2.
Definition F_GETFL : Z := 3.
Definition F_SETFL : Z := 4.

Definition set_nonblock (arg : Z) (x : file_t) : file_t :=
  x <| f_flags := Z.lor (Z.land (f_flags x) (Z.lnot O_NONBLOCK)) (Z.land arg O_NONBLOCK) |>.

Definition alloc_from (f min : Z) : H fdst Z := fun s =>
  let '(v, e, r) := vfs_fd_alloc_min (owner s) f min (fv s) (fe s) in (Fst (fk s) v e, inr r).

Definition sys_fcntl (fd cmd arg : Z) : H fdst Z :=
  if cmd =? F_DUPFD then
    let* f := getf fd in
    let* nfd := alloc_from f (i32 arg) in
    hret (if nfd <? 0 then err 24 else nfd)
  else if (cmd =? F_GETFD) || (cmd =? F_SETFD) then do* getf fd in hret 0
  else if cmd =? F_GETFL then let* f := getf fd in let* x := file_of f in hret (f_flags x)
  else if cmd =? F_SETFL then
    let* f := getf fd in
    do* on_files (fun e => (set_file f (set_nonblock arg (file_at e f)) e, tt)) in hret 0
  else hret (err 22).

(** ** Offsets *)
Definition sys_lseek (fd offset whence : Z) : H fdst Z :=
  let* f := getf fd in
  let* r := on_files (vfs_lseek (Some f) offset whence) in
  hret (if r =? 2 ^ 64 - 1 then err 22 else r).

Definition set_offset (f o : Z) : H fdst unit := on_files (fun e => (set_file f (file_at e f <| f_offset := o |>) e, tt)).

Definition sys_pread64 (fd count offset : Z) : H fdst (Z * list Z) :=
  let* f := getf fd in
  let* x := file_of f in
  do* set_offset f offset in
  let* r := on_files (vfs_read (Some f) count) in
  do* set_offset f (f_offset x) in hret r.

(** ** Vectors *)
Definition my_mm (e : Z) : H fdst Z := let* mm := get (fun s => current_mm (ks (fk s))) in check_some mm e.

Definition take_iovec (mm iov i : Z) : H fdst (Z * Z) :=
  let* base := on_k (take64 mm (u64 (iov + i * 16)) (err 14)) in
  let* len := on_k (take64 mm (u64 (iov + i * 16 + 8)) (err 14)) in hret (base, len).

(** The pieces of one element, 512 bytes at most at a time: the new total, or
    the call's result. *)
Fixpoint write_chunks (n : nat) (f mm base len total : Z) : H fdst Z :=
  match n with
  | O => hret total
  | S n' =>
      if len =? 0 then hret total else
      let chunk := if 512 <? len then 512 else len in
      let* tmp := on_k (take_in mm base chunk (err 14)) in
      let* w := on_files (vfs_write (Some f) tmp) in
      do* check (w =? chunk) (u64 (total + w)) in
      write_chunks n' f mm (u64 (base + chunk)) (len - chunk) (u64 (total + chunk))
  end.

Fixpoint writev_loop (n : nat) (f mm iov i total : Z) : H fdst Z :=
  match n with
  | O => hret total
  | S n' =>
      let* p := take_iovec mm iov i in
      let* t := write_chunks (S (Z.to_nat (p.2 / 512))) f mm p.1 p.2 total in
      writev_loop n' f mm iov (i + 1) t
  end.

Definition sys_writev (fd iov iovcnt : Z) : H fdst Z :=
  let* f := getf fd in
  let* mm := my_mm (err 14) in
  writev_loop (Z.to_nat iovcnt) f mm iov 0 0.

(** What has been stored, and where. *)
Fixpoint readv_loop (n : nat) (f mm iov i total : Z) (got : list (Z * list Z)) : H fdst (Z * list (Z * list Z)) :=
  match n with
  | O => hret (total, got)
  | S n' =>
      let* p := take_iovec mm iov i in
      if p.2 =? 0 then readv_loop n' f mm iov (i + 1) total got else
      let* r := on_files (vfs_read (Some f) p.2) in
      let got := got ++ [(p.1, r.2)] in
      if i64 r.1 <? 0 then hret (r.1, got) else
      let total := u64 (total + r.1) in
      if r.1 <? p.2 then hret (total, got) else readv_loop n' f mm iov (i + 1) total got
  end.

Definition sys_readv (fd iov iovcnt : Z) : H fdst (Z * list (Z * list Z)) :=
  let* f := getf fd in
  let* mm := my_mm (err 14) in
  readv_loop (Z.to_nat iovcnt) f mm iov 0 0 [].

(** ** poll *)
Context {PO : PollOps E}.

Definition POLLIN : Z := 1.
Definition POLLOUT : Z := 4.
Definition POLLERR : Z := 8.
Definition POLLHUP : Z := 16.
Definition POLLNVAL : Z := 32.

Definition wants (events bit : Z) : bool := negb (Z.land events bit =? 0).
Definition flag (b : bool) (bit : Z) : Z := if b then bit else 0.

Definition poll_check_one (f : option Z) (events : Z) (e : E) : Z :=
  match f with
  | None => POLLNVAL
  | Some f =>
      if pipe_is_pipe f e then
        if f_type (file_at e f) =? 1
        then Z.lor (flag (wants events POLLIN && pipe_readable f e) POLLIN) (flag (pipe_writers_gone f e) POLLHUP)
        else Z.lor (flag (wants events POLLOUT && pipe_writable f e) POLLOUT) (flag (pipe_readers_gone f e) (Z.lor POLLERR POLLHUP))
      else if devfs_is_tty f e then
        Z.lor (flag (wants events POLLIN && devfs_tty_readable e) POLLIN) (flag (wants events POLLOUT) POLLOUT)
      else Z.lor (flag (wants events POLLIN) POLLIN) (flag (wants events POLLOUT) POLLOUT)
  end.

(** One pass over the array: how many entries are ready. *)
Fixpoint poll_scan (n : nat) (mm fds i ready : Z) : H fdst Z :=
  match n with
  | O => hret ready
  | S n' =>
      let base := u64 (fds + i * 8) in
      let* fd := on_k (take32 mm base (err 14)) in
      let* events := on_k (take16 mm (u64 (base + 4)) (err 14)) in
      let* rev := get (fun s => poll_check_one (vfs_fd_get (i32 fd) (fv s)) events (fe s)) in
      do* on_k (put mm (u64 (base + 6)) (le 2 rev) (err 14)) in
      poll_scan n' mm fds (i + 1) (if rev =? 0 then ready else ready + 1)
  end.

Section Blocking.
  (** The registers that [sched_block_and_switch] saves. *)
  Context (uret saved : kctx_t).

(** A round of the loop at the time [now]. *)
Definition poll_round (now mm fds nfds deadline : Z) : H fdst Z :=
  let* ready := poll_scan (Z.to_nat nfds) mm fds 0 0 in
  if negb (ready =? 0) then hret ready
  else if deadline =? 0 then hret 0
  else if deadline <=? now then hret 0
  else
    let* intr := get (fun s => match current_task (ks (fk s)) with Some t => deliverable (tget (ks (fk s)) t) | None => false end) in
    if intr : bool then hret (err 4) else on_k (block uret saved WAIT_SELECT deadline).

Definition poll_deadline (now timeout_ms : Z) : Z :=
  if i64 timeout_ms <? 0 then 2 ^ 64 - 1 else if timeout_ms =? 0 then 0 else u64 (now + timeout_ms).

Definition sys_poll (now1 now2 fds nfds timeout_ms : Z) : H fdst Z :=
  let* mm := my_mm (err 14) in
  do* check (negb ((fds =? 0) && negb (nfds =? 0))) (err 14) in
  poll_round now2 mm fds nfds (poll_deadline now1 timeout_ms).

Definition poll_resume (t now mm fds nfds deadline : Z) : H fdst Z :=
  do* on_k (SysWait.resumed t) in poll_round now mm fds nfds deadline.
End Blocking.
End Calls.
Arguments fdst E : clear implicits.

(** ** writev is one write of everything *)
Lemma word_le_le64 v : 0 <= v < 2 ^ 64 -> word_le (le64 v) = v.
Proof.
  intros Hv. pose proof (word_of_le64 v [] Hv) as H. rewrite app_nil_r in H. unfold word_of in H.
  rewrite take_ge in H by (by rewrite length_le64). exact H.
Qed.

(** The vector in memory: a base and a length for each piece. *)
Definition vec_bytes (l : list (Z * list Z)) : list Z := concat ((fun p => words_bytes [p.1; Z.of_nat (length p.2)]) <$> l).

Lemma vec_bytes_app l l' : vec_bytes (l ++ l') = vec_bytes l ++ vec_bytes l'.
Proof. unfold vec_bytes. by rewrite fmap_app, concat_app. Qed.
Lemma length_vec_bytes l : length (vec_bytes l) = (16 * length l)%nat.
Proof. induction l as [|p l IH]; [done|]. unfold vec_bytes. cbn [fmap list_fmap concat]. rewrite length_app, length_words_bytes. fold (vec_bytes l). rewrite IH. cbn [length]. lia. Qed.

Lemma holds_drop v ctx va bs c : 0 <= c <= Z.of_nat (length bs) -> holds v ctx va bs -> holds v ctx (u64 (va + c)) (drop (Z.to_nat c) bs).
Proof.
  intros Hc H b Hb. rewrite length_drop in Hb.
  assert (E : VmSpace.tr v ctx (u64 (va + c)) b = VmSpace.tr v ctx va (c + b)). { unfold VmSpace.tr. f_equal. rewrite u64_add_l. f_equal. lia. }
  rewrite E. rewrite VmSpace.aget_drop by lia. rewrite Z2Nat.id by lia. apply H. lia.
Qed.

Section Writev.
  Context {E : Type} {FO : FileOps E} (f : Z).

(** A file that takes whatever is written and keeps it: [stream] is what it
    has taken, [open] what its operations keep true. *)
Definition takes_all (open : E -> Prop) (stream : E -> list Z) : Prop :=
  forall e data, open e -> data <> [] -> exists e',
    vfs_write (Some f) data e = (e', Z.of_nat (length data)) /\ open e' /\ stream e' = stream e ++ data.

  Context (open : E -> Prop) (stream : E -> list Z) (Hf : takes_all open stream).

Lemma take_in_held k mm a n (bs : list Z) e : mm <> 0 -> 0 <= a < 2 ^ 64 -> holds (kv k) mm a bs -> 0 <= n <= Z.of_nat (length bs) ->
  take_in mm a n e k = (k, inr (take (Z.to_nat n) bs)).
Proof.
  intros Hm Ha Hb Hn. unfold take_in. autorewrite with handler. pose proof (read_part (kv k) mm a bs 0 n Hm Hb ltac:(lia) ltac:(lia) ltac:(lia)) as R.
  rewrite Z.add_0_r, u64_small in R by lia. rewrite R. done.
Qed.

Lemma write_chunks_spec n : forall mm base data total (s : fdst E), mm <> 0 -> 0 <= base < 2 ^ 64 -> holds (kv (fk s)) mm base data ->
  open (fe s) -> Z.of_nat (length data) <= 512 * Z.of_nat n -> 0 <= total -> total + Z.of_nat (length data) < 2 ^ 64 ->
  exists e', write_chunks n f mm base (Z.of_nat (length data)) total s = (Fst (fk s) (fv s) e', inr (total + Z.of_nat (length data))) /\
    open e' /\ stream e' = stream (fe s) ++ data.
Proof.
  induction n as [|n IH]; intros mm base data total s Hm Hb Hh Ho Hn Ht Hl.
  { exists (fe s). destruct data; [|cbn [length] in Hn; lia]. cbn [write_chunks length]. rewrite app_nil_r, Z.add_0_r. by destruct s. }
  cbn [write_chunks]. destruct (Z.eqb_spec (Z.of_nat (length data)) 0) as [E0|E0].
  { exists (fe s). rewrite E0, Z.add_0_r. destruct data; [|done]. rewrite app_nil_r. by destruct s. }
  set (c := if 512 <? Z.of_nat (length data) then 512 else Z.of_nat (length data)).
  assert (Hc : 0 < c <= Z.of_nat (length data) /\ c <= 512 /\ (c = Z.of_nat (length data) \/ c = 512)) by (unfold c; destruct (Z.ltb_spec 512 (Z.of_nat (length data))); lia). clearbody c.
  unfold hbind at 1, on_k at 1. rewrite (take_in_held (fk s) mm base c data) by (done || lia).
  set (d := take (Z.to_nat c) data).
  assert (Hd : Z.of_nat (length d) = c) by (unfold d; rewrite length_take; lia).
  destruct (Hf (fe s) d Ho) as (e1 & Ew & Ho1 & Es1); [intros Ed; rewrite Ed in Hd; cbn in Hd; lia|].
  unfold hbind at 1, on_files. cbn [fk fv fe]. rewrite Ew, Hd, Z.eqb_refl. autorewrite with handler. cbv iota.
  assert (Edrop : Z.of_nat (length data) - c = Z.of_nat (length (drop (Z.to_nat c) data))) by (rewrite length_drop; lia).
  rewrite Edrop. rewrite (u64_small (total + c)) by lia.
  pose proof (length_drop data (Z.to_nat c)) as HD.
  destruct (IH mm (u64 (base + c)) (drop (Z.to_nat c) data) (total + c) (Fst (fk s) (fv s) e1)) as (e2 & E2 & Ho2 & Es2); try done; try lia.
  { apply u64_range. } { apply holds_drop; [lia|done]. }
  exists e2. cbn [fk fv fe] in *. rewrite E2. split; [do 2 f_equal; lia|]. split; [done|]. rewrite Es2, Es1, <- app_assoc. unfold d. by rewrite take_drop.
Qed.

Lemma take_iovec_held l1 p l2 mm iov (s : fdst E) : mm <> 0 -> 0 <= p.1 < 2 ^ 64 -> Z.of_nat (length p.2) < 2 ^ 64 ->
  holds (kv (fk s)) mm iov (vec_bytes (l1 ++ p :: l2)) ->
  take_iovec mm iov (Z.of_nat (length l1)) s = (s, inr (p.1, Z.of_nat (length p.2))).
Proof.
  intros Hm Hp Hl Hh. unfold take_iovec. pose proof (length_vec_bytes (l1 ++ p :: l2)) as HL. rewrite length_app in HL. cbn [length] in HL.
  assert (Hw : forall off w q, 0 <= w < 2 ^ 64 -> vec_bytes (l1 ++ p :: l2) = q ++ le64 w ++ drop (8 + length q) (vec_bytes (l1 ++ p :: l2)) -> off = Z.of_nat (length q) ->
     (off + 8 <= 16 * Z.of_nat (length l1) + 16) -> 0 <= off ->
     on_k (take64 mm (u64 (iov + off)) (err 14)) s = (s, inr w)).
  { intros off w q Hw0 Eq -> Hb Ho. unfold on_k, take64, take_in. autorewrite with handler.
    rewrite (read_part (kv (fk s)) mm iov _ (Z.of_nat (length q)) 8 Hm Hh) by lia. autorewrite with handler.
    rewrite Eq, slice_app_r, take_app_le by (by rewrite length_le64). rewrite take_ge by (by rewrite length_le64).
    cbn. rewrite word_le_le64 by done. by destruct s. }
  assert (Ev : vec_bytes (l1 ++ p :: l2) = vec_bytes l1 ++ le64 p.1 ++ le64 (Z.of_nat (length p.2)) ++ vec_bytes l2).
  { rewrite vec_bytes_app. f_equal. }
  unfold hbind. rewrite (Hw (Z.of_nat (length l1) * 16) p.1 (vec_bytes l1)); [|done| |rewrite length_vec_bytes; lia|lia|lia].
  - replace (iov + Z.of_nat (length l1) * 16 + 8) with (iov + (Z.of_nat (length l1) * 16 + 8)) by lia.
    rewrite (Hw _ (Z.of_nat (length p.2)) (vec_bytes l1 ++ le64 p.1)); [done|lia| |rewrite length_app, length_vec_bytes, length_le64; lia|lia|lia].
    rewrite Ev at 1. rewrite <- !app_assoc. do 3 f_equal. rewrite Ev, !app_assoc, <- !app_assoc.
    rewrite (app_assoc (vec_bytes l1)), (app_assoc (vec_bytes l1 ++ le64 p.1)). rewrite drop_app_length'; [done|]. rewrite !length_app, !length_le64. lia.
  - rewrite Ev at 1. do 2 f_equal. rewrite Ev, app_assoc. rewrite drop_app_length'; [done|]. rewrite length_app, length_le64. lia.
Qed.

Definition total_of (l : list (Z * list Z)) : Z := Z.of_nat (length (concat (snd <$> l))).

Lemma writev_loop_spec l2 : forall l1 mm iov total (s : fdst E), mm <> 0 -> open (fe s) -> 0 <= total -> total + total_of l2 < 2 ^ 64 ->
  Forall (fun p => 0 <= p.1 < 2 ^ 64 /\ holds (kv (fk s)) mm p.1 p.2) l2 -> holds (kv (fk s)) mm iov (vec_bytes (l1 ++ l2)) ->
  exists e', writev_loop (length l2) f mm iov (Z.of_nat (length l1)) total s = (Fst (fk s) (fv s) e', inr (total + total_of l2)) /\
    open e' /\ stream e' = stream (fe s) ++ concat (snd <$> l2).
Proof.
  induction l2 as [|p l2 IH]; intros l1 mm iov total s Hm Ho Ht Hl HF Hh.
  { exists (fe s). cbn. rewrite app_nil_r. unfold total_of. cbn. rewrite Z.add_0_r. by destruct s. }
  apply Forall_cons in HF as [[Hp1 Hp2] HF]. unfold total_of in Hl. cbn [fmap list_fmap concat] in Hl. rewrite length_app in Hl.
  cbn [length writev_loop]. unfold hbind at 1. rewrite (take_iovec_held l1 p l2) by (done || lia). cbn [Datatypes.fst Datatypes.snd].
  destruct (write_chunks_spec (S (Z.to_nat (Z.of_nat (length p.2) / 512))) mm p.1 p.2 total s) as (e1 & E1 & Ho1 & Es1); try done.
  { pose proof (Z_div_mod_eq_full (Z.of_nat (length p.2)) 512). pose proof (Z.mod_pos_bound (Z.of_nat (length p.2)) 512).
    pose proof (Z.div_pos (Z.of_nat (length p.2)) 512). lia. }
  { lia. }
  unfold hbind at 1. rewrite E1.
  destruct (IH (l1 ++ [p]) mm iov (total + Z.of_nat (length p.2)) (Fst (fk s) (fv s) e1)) as (e2 & E2 & Ho2 & Es2); try done; try lia.
  { unfold total_of. lia. } { by rewrite <- app_assoc. }
  exists e2. replace (Z.of_nat (length l1) + 1) with (Z.of_nat (length (l1 ++ [p]))) by (rewrite length_app; cbn [length]; lia).
  rewrite E2. cbn [fk fv fe] in *. split; [|split; [done|]].
  - do 2 f_equal. unfold total_of. cbn [fmap list_fmap concat]. rewrite length_app. lia.
  - rewrite Es2, Es1, <- app_assoc. done.
Qed.
End Writev.

(** C36: writev is one write of everything. On a file that takes what it is
    given, a vector whose elements and whose pieces are readable is written
    completely and in order, however the pieces are cut: what the file has
    taken grows by the concatenation of all pieces, the result is its length,
    and neither the task, the memory nor the descriptors change. *)
Theorem writev_gathers {E} {FO : FileOps E} f open stream (s : fdst E) fd mm iov l :
  takes_all f open stream -> vfs_fd_get (i32 fd) (fv s) = Some f -> current_mm (ks (fk s)) = Some mm -> mm <> 0 -> open (fe s) ->
  total_of l < 2 ^ 64 -> Forall (fun p => 0 <= p.1 < 2 ^ 64 /\ holds (kv (fk s)) mm p.1 p.2) l -> holds (kv (fk s)) mm iov (vec_bytes l) ->
  exists e', run (sys_writev fd iov (Z.of_nat (length l))) s = (Fst (fk s) (fv s) e', Ret (total_of l)) /\
    open e' /\ stream e' = stream (fe s) ++ concat (snd <$> l).
Proof.
  intros Hf Hg Hmm Hm Ho Hl HF Hh. unfold run, sys_writev, getf, my_mm. autorewrite with handler. rewrite Hg. autorewrite with handler.
  rewrite Hmm. autorewrite with handler. rewrite Nat2Z.id.
  destruct (writev_loop_spec f open stream Hf l [] mm iov 0 s Hm Ho ltac:(lia) ltac:(lia) HF Hh) as (e' & E' & H1 & H2).
  change (Z.of_nat (length [])) with 0 in E'. exists e'. rewrite E'. by rewrite Z.add_0_l.
Qed.

(** ** A concrete run: a file that keeps what it is given, two pieces *)
Import VmSpace.
Record note := Note { n_file : file_t; n_text : list Z }.
#[local] Instance note_ops : FileOps note := {|
  file_at := fun e _ => n_file e;
  set_file := fun _ x e => Note x (n_text e);
  op_close := fun _ => None;
  op_read := fun _ => None;
  op_write := fun _ => Some (fun _ _ bytes e => (Note (n_file e) (n_text e ++ bytes), Z.of_nat (length bytes)));
  op_ioctl := fun _ => None
|}.

Definition ex_pieces : list (Z * list Z) := [(0xFFFFFFFFF100, [104; 101; 108]); (0xFFFFFFFFF200, [108; 111])].
Definition ex_vec_user : vmst :=
  ex_user <| pmem := st_bytes (st_bytes (st_bytes (pmem ex_user) 0x100000 (vec_bytes ex_pieces)) 0x100100 [104; 101; 108]) 0x100200 [108; 111] |>.
Definition ex_writev : fdst note :=
  Fst (Kst (mod_task 1 (fun x => x <| mm_context := Some ex_ctx |>) ex_running) ex_vec_user (SigGlob 0 0 0 0 0 0 0 0 0 []))
    (vfs_fd_set 1 0x9000 1 vfs_bss).1 (Note (file0 <| f_ops := Some 0x77 |>) [33]).

Definition holdsb (v : vmst) (ctx va : Z) (bs : list Z) : bool :=
  forallb (fun n => let a := VmSpace.tr v ctx va (Z.of_nat n) in negb (a =? 0) && (Phys.ld8 (pmem v) a =? aget bs (Z.of_nat n))) (seq 0 (length bs)).
Lemma holdsb_holds v ctx va bs : holdsb v ctx va bs = true -> holds v ctx va bs.
Proof.
  intros H b Hb. unfold holdsb in H. rewrite forallb_forall in H. specialize (H (Z.to_nat b)). rewrite Z2Nat.id in H by lia.
  rewrite andb_true_iff, negb_true_iff, Z.eqb_neq, Z.eqb_eq in H. apply H. apply in_seq. lia.
Qed.

Lemma note_takes_all : takes_all 0x9000 (fun e => f_ops (n_file e) = Some 0x77) n_text.
Proof. intros e data Ho _. exists (Note (n_file e) (n_text e ++ data)). unfold vfs_write. cbn. by rewrite Ho. Qed.

Lemma writev_gathers_witness :
  exists e', run (sys_writev 1 0xFFFFFFFFF000 2) ex_writev = (Fst (fk ex_writev) (fv ex_writev) e', Ret 5) /\
    f_ops (n_file e') = Some 0x77 /\ n_text e' = [33; 104; 101; 108; 108; 111].
Proof.
  apply (writev_gathers 0x9000 (fun e => f_ops (n_file e) = Some 0x77) n_text ex_writev 1 ex_ctx 0xFFFFFFFFF000 ex_pieces);
    [exact note_takes_all|vm_compute; reflexivity|vm_compute; reflexivity|vm_compute; discriminate|reflexivity|vm_compute; reflexivity| |].
  - repeat apply Forall_cons_2; try apply Forall_nil_2; (split; [vm_compute; intuition congruence|]); apply holdsb_holds; vm_compute; reflexivity.
  - apply holdsb_holds. vm_compute. reflexivity.
Defined.
End SysFd.
