(* ===== verification/Keyboard.v ===== *)
(** Keyboard input (src/src/kernel/core/keyboard.c): the ring of characters,
    the translation of scan codes and the line reader of the shell.

    What the serial port and the PS/2 controller deliver at a poll is an
    argument; the commands [kbd_init] sends to the controller are left out. A
    [char] is its byte. *)
From S2P Require Import Prelude Ring.

Module Keyboard.

Definition KBD_BUF_SIZE : Z := 256.
Definition KBD_LSHIFT : Z := 0x2A.
Definition KBD_RSHIFT : Z := 0x36.
Definition KBD_LSHIFT_REL : Z := 0xAA.
Definition KBD_RSHIFT_REL : Z := 0xB6.
Definition KBD_CAPS_LOCK : Z := 0x3A.

Record kbd := Kbd { kbd_buf : list Z; kbd_head : Z; kbd_tail : Z; shift_pressed : bool; caps_lock : bool }.
#[export] Instance eta_kbd : Eta kbd := fun k => Kbd (kbd_buf k) (kbd_head k) (kbd_tail k) (shift_pressed k) (caps_lock k).

Definition kbd_bss : kbd := Kbd (replicate (Z.to_nat KBD_BUF_SIZE) 0) 0 0 false false.

Definition scan_to_ascii_lower : list Z :=
  [0; 0; 49; 50; 51; 52; 53; 54; 55; 56; 57; 48; 45; 61; 8;
   0; 113; 119; 101; 114; 116; 121; 117; 105; 111; 112; 91; 93; 10;
   0; 97; 115; 100; 102; 103; 104; 106; 107; 108; 59; 39; 96;
   0; 92; 122; 120; 99; 118; 98; 110; 109; 44; 46; 47; 0;
   42; 0; 32; 0].
Definition scan_to_ascii_upper : list Z :=
  [0; 0; 33; 64; 35; 36; 37; 94; 38; 42; 40; 41; 95; 43; 8;
   0; 81; 87; 69; 82; 84; 89; 85; 73; 79; 80; 123; 125; 10;
   0; 65; 83; 68; 70; 71; 72; 74; 75; 76; 58; 34; 126;
   0; 124; 90; 88; 67; 86; 66; 78; 77; 60; 62; 63; 0;
   42; 0; 32; 0].

Definition buf_put (c : Z) (k : kbd) : kbd * bool :=
  let next := (kbd_tail k + 1) mod KBD_BUF_SIZE in
  if next =? kbd_head k then (k, false)
  else (k <| kbd_buf := aset (kbd_buf k) (kbd_tail k) c |> <| kbd_tail := next |>, true).

Definition buf_get (k : kbd) : kbd * option Z :=
  if kbd_head k =? kbd_tail k then (k, None)
  else (k <| kbd_head := (kbd_head k + 1) mod KBD_BUF_SIZE |>, Some (aget (kbd_buf k) (kbd_head k))).

Definition buf_is_empty (k : kbd) : bool := kbd_head k =? kbd_tail k.

Definition kbd_init (k : kbd) : kbd := Kbd (kbd_buf k) 0 0 false false.

(** A byte of the serial line: Enter and Backspace become what the keyboard sends. *)
Definition serial_char (c : Z) : Z := if c =? 13 then 10 else if c =? 0x7F then 8 else c.

Definition scan_key (sc : Z) (k : kbd) : kbd :=
  if (sc =? KBD_LSHIFT_REL) || (sc =? KBD_RSHIFT_REL) then k <| shift_pressed := false |>
  else if Z.testbit sc 7 then k
  else if (sc =? KBD_LSHIFT) || (sc =? KBD_RSHIFT) then k <| shift_pressed := true |>
  else if sc =? KBD_CAPS_LOCK then k <| caps_lock := negb (caps_lock k) |>
  else if sc <? Z.of_nat (length scan_to_ascii_lower) then
    let c := aget (if shift_pressed k || caps_lock k then scan_to_ascii_upper else scan_to_ascii_lower) sc in
    if negb (c =? 0) then (buf_put c k).1 else k
  else k.

(** What the devices hold at a poll: the serial bytes, and a scan code. *)
Definition input : Type := list Z * option Z.

Definition kbd_poll (i : input) (k : kbd) : kbd :=
  let k1 := foldl (fun k c => (buf_put (serial_char c) k).1) k i.1 in
  match i.2 with None => k1 | Some sc => scan_key sc k1 end.

Definition kbd_has_key (i : input) (k : kbd) : kbd * bool := let k1 := kbd_poll i k in (k1, negb (buf_is_empty k1)).

Definition kbd_try_get (k : kbd) : kbd * option Z := buf_get k.

(** The polls to come are the list; [None]: it ends before there is a key. *)
Fixpoint kbd_getchar (l : list input) (k : kbd) : option (list input * kbd * Z) :=
  match l with
  | [] => None
  | i :: l' =>
      match buf_get (kbd_poll i k) with
      | (k1, Some c) => Some (l', k1, c)
      | (k1, None) => kbd_getchar l' k1
      end
  end.

(** [buf] is what [pos] has reached. Every key takes a poll at least, so
    [length l] is fuel enough. *)
Fixpoint readline_loop (n : nat) (max_len : Z) (buf : list Z) (l : list input) (k : kbd) : option (list input * kbd * list Z) :=
  match n with
  | O => None
  | S n' =>
      match kbd_getchar l k with
      | None => None
      | Some (l1, k1, c) =>
          if (c =? 10) || (c =? 13) then Some (l1, k1, buf)
          else if (c =? 8) || (c =? 0x7F) then readline_loop n' max_len (take (length buf - 1) buf) l1 k1
          else if (32 <=? c) && (c <=? 126) then
            readline_loop n' max_len (if Z.of_nat (length buf) <? max_len - 1 then buf ++ [c] else buf) l1 k1
          else readline_loop n' max_len buf l1 k1
      end
  end.
Definition kbd_readline (max_len : Z) (l : list input) (k : kbd) : option (list input * kbd * list Z) :=
  readline_loop (length l) max_len [] l k.

(** ** The ring is a queue of at most 255 characters *)
Definition queued (k : kbd) : Z := (kbd_tail k - kbd_head k) mod KBD_BUF_SIZE.
Definition keys (k : kbd) : list Z := Ring.ring_list KBD_BUF_SIZE (kbd_buf k) (kbd_head k) (queued k).

Record kbd_ok (k : kbd) : Prop := {
  ko_len : Z.of_nat (length (kbd_buf k)) = KBD_BUF_SIZE;
  ko_head : 0 <= kbd_head k < KBD_BUF_SIZE;
  ko_tail : 0 <= kbd_tail k < KBD_BUF_SIZE
}.

Lemma kbd_bss_ok : kbd_ok kbd_bss.
Proof. done. Qed.

Lemma queued_range k : 0 <= queued k < KBD_BUF_SIZE.
Proof. by apply Z.mod_pos_bound. Qed.

Lemma length_keys k : Z.of_nat (length (keys k)) = queued k.
Proof. unfold keys. rewrite Ring.length_ring_list. pose proof (queued_range k). lia. Qed.

(** Where the ring stands after [d] more characters. *)
Lemma queued_tail k : kbd_ok k -> kbd_tail k = (kbd_head k + queued k) mod KBD_BUF_SIZE.
Proof.
  intros [_ Hh Ht]. unfold queued. rewrite Zplus_mod_idemp_r. replace (kbd_head k + (kbd_tail k - kbd_head k)) with (kbd_tail k) by lia.
  by rewrite Z.mod_small.
Qed.

Lemma ring_distance h n : 0 <= h < KBD_BUF_SIZE -> 0 <= n < KBD_BUF_SIZE -> ((h + n) mod KBD_BUF_SIZE - h) mod KBD_BUF_SIZE = n.
Proof. intros Hh Hn. rewrite Zminus_mod_idemp_l. replace (h + n - h) with n by lia. by rewrite Z.mod_small. Qed.

Lemma buf_put_spec c k : kbd_ok k ->
  kbd_ok (buf_put c k).1 /\
  (buf_put c k).2 = (Z.of_nat (length (keys k)) <? KBD_BUF_SIZE - 1) /\
  keys (buf_put c k).1 = (if Z.of_nat (length (keys k)) <? KBD_BUF_SIZE - 1 then keys k ++ [c] else keys k).
Proof.
  intros Hk. pose proof (queued_tail k Hk) as Et. pose proof (queued_range k) as Hq. destruct Hk as [Hl Hh Ht].
  rewrite length_keys. unfold buf_put.
  assert (En : (kbd_tail k + 1) mod KBD_BUF_SIZE = (kbd_head k + (queued k + 1)) mod KBD_BUF_SIZE) by (rewrite Et; by apply Ring.ring_tail_next).
  rewrite En. destruct (Z.ltb_spec (queued k) (KBD_BUF_SIZE - 1)) as [Hlt|Hge].
  - rewrite (proj2 (Z.eqb_neq _ _)).
    + cbn. split; [split; cbn; [by rewrite length_aset|done|by apply Z.mod_pos_bound]|]. split; [done|].
      unfold keys. cbn [kbd_buf kbd_head kbd_tail fst update eta_kbd].
      match goal with |- Ring.ring_list _ _ _ (queued ?k') = _ => assert (Eq : queued k' = queued k + 1) end.
      { unfold queued at 1. cbn. apply ring_distance; [done|unfold KBD_BUF_SIZE in *; lia]. }
      rewrite Eq. cbn. rewrite Et at 1. by apply Ring.ring_push.
    + intros E. assert (E0 : (kbd_head k + (queued k + 1)) mod KBD_BUF_SIZE = (kbd_head k + 0) mod KBD_BUF_SIZE) by (rewrite E, Z.add_0_r, Z.mod_small; done).
      apply Ring.ring_slot_inj in E0; unfold KBD_BUF_SIZE in *; lia.
  - assert (E : queued k = KBD_BUF_SIZE - 1) by lia. rewrite E.
    replace (kbd_head k + (KBD_BUF_SIZE - 1 + 1)) with (kbd_head k + 1 * KBD_BUF_SIZE) by lia. rewrite Z_mod_plus_full, Z.mod_small, Z.eqb_refl by done.
    by split.
Qed.

Lemma buf_get_spec k : kbd_ok k ->
  kbd_ok (buf_get k).1 /\ (buf_get k).2 = hd_error (keys k) /\ keys (buf_get k).1 = tl (keys k).
Proof.
  intros Hk. pose proof (queued_tail k Hk) as Et. pose proof (queued_range k) as Hq. destruct (Hk) as [Hl Hh Ht]. unfold buf_get.
  destruct (Z.eqb_spec (kbd_head k) (kbd_tail k)) as [E|E].
  - assert (E0 : queued k = 0) by (unfold queued; by rewrite E, Z.sub_diag).
    unfold keys. cbn [fst snd]. rewrite E0. by rewrite Ring.ring_list_empty.
  - assert (Hp : 0 < queued k).
    { destruct (Z_lt_le_dec 0 (queued k)); [done|]. exfalso. apply E. assert (E0 : queued k = 0) by lia. rewrite Et, E0, Z.add_0_r. by rewrite Z.mod_small. }
    set (k' := k <| kbd_head := (kbd_head k + 1) mod KBD_BUF_SIZE |>).
    assert (Eq : queued k' = queued k - 1).
    { unfold queued at 1. cbn. rewrite Zminus_mod_idemp_r. replace (kbd_tail k - (kbd_head k + 1)) with (kbd_tail k - kbd_head k - 1) by lia.
      rewrite <- Zminus_mod_idemp_l. change ((kbd_tail k - kbd_head k) mod KBD_BUF_SIZE) with (queued k). apply Z.mod_small. lia. }
    assert (Ek : keys k = aget (kbd_buf k) (kbd_head k) :: keys k').
    { unfold keys at 1. rewrite Ring.ring_pop by done. f_equal. unfold keys. by rewrite Eq. }
    cbn [fst snd]. rewrite Ek. split; [|done]. split; [done|by apply Z.mod_pos_bound|done].
Qed.

(** Characters put one after the other, while there is room. *)
Lemma buf_puts_spec cs : forall k, kbd_ok k -> Z.of_nat (length (keys k) + length cs) < KBD_BUF_SIZE ->
  kbd_ok (foldl (fun k c => (buf_put c k).1) k cs) /\ keys (foldl (fun k c => (buf_put c k).1) k cs) = keys k ++ cs.
Proof.
  induction cs as [|c cs IH]; intros k Hk Hl; cbn [foldl]; [by rewrite app_nil_r|]. cbn [length] in Hl.
  destruct (buf_put_spec c k Hk) as (H1 & _ & H2). rewrite (proj2 (Z.ltb_lt _ _)) in H2 by lia.
  destruct (IH _ H1) as [H3 H4]; [rewrite H2, length_app; cbn [length]; lia|]. split; [done|]. by rewrite H4, H2, <- app_assoc.
Qed.

(** Shift and caps lock together still give the upper table, and Enter on the
    serial line is a newline. *)
Example typed : keys (kbd_poll ([97; 13; 127], Some 0x10) kbd_bss) = [97; 10; 8; 113].
Proof. vm_compute. reflexivity. Qed.
Example typed_shift : keys (foldl (fun k sc => scan_key sc k) kbd_bss [0x2A; 0x10; 0xAA; 0x10; 0x90]) = [81; 113].
Proof. vm_compute. reflexivity. Qed.
Example line_read : (kbd_readline 80 [([108; 120; 8; 115; 10], None); ([], None); ([], None); ([], None); ([], None)] kbd_bss) =
  Some ([], (foldl (fun k c => (buf_get k).1) (kbd_poll ([108; 120; 8; 115; 10], None) kbd_bss) (zrange 5)), [108; 115]).
Proof. vm_compute. reflexivity. Qed.
End Keyboard.
