(* ===== verification/Devfs.v ===== *)
(** The device files (src/src/kernel/fs/devfs.c): /dev/null, /dev/zero and
    /dev/tty with its line discipline.

    The screen is the list of the characters given to [vga_putc]. A read of the
    terminal that finds no key stops with [Blocked]; [tty_resume] is what the
    code does once the scheduler runs the task again. *)
From S2P Require Import Prelude Ring Sched Vfs Keyboard.

Module Devfs.
Import Sched Vfs Keyboard.

(** ** /dev/null and /dev/zero: the bytes read, the count written *)
Definition null_read (off size : Z) : list Z := [].
Definition null_write (off : Z) (data : list Z) : Z := Z.of_nat (length data).
Definition null_close : Z := 0.
Definition zero_read (off size : Z) : list Z := replicate (Z.to_nat size) 0.
Definition zero_write (off : Z) (data : list Z) : Z := Z.of_nat (length data).
Definition zero_close : Z := 0.

(** ** The terminal *)
Definition TTY_ICANON : Z := 2.
Definition TTY_IBUF : Z := 256.

(** The static variables, the keyboard, the screen and the scheduler. *)
Record con := Con {
  tty_c_lflag : Z;
  tty_c_oflag : Z;
  tty_pgrp : Z;
  tty_vmin : Z;
  tty_vtime : Z;
  tty_ibuf : list Z;
  tty_ibuf_len : Z;
  tty_ibuf_pos : Z;
  ckbd : kbd;
  screen : list Z;
  csched : sched
}.
#[export] Instance eta_con : Eta con := fun s =>
  Con (tty_c_lflag s) (tty_c_oflag s) (tty_pgrp s) (tty_vmin s) (tty_vtime s) (tty_ibuf s) (tty_ibuf_len s) (tty_ibuf_pos s) (ckbd s) (screen s) (csched s).

Definition con_bss (k : kbd) (sch : sched) : con := Con 0x000B 0x0005 0 1 0 (replicate (Z.to_nat TTY_IBUF) 0) 0 0 k [] sch.

Definition devfs_tty_get_flags (s : con) : Z * Z := (tty_c_lflag s, tty_c_oflag s).
Definition devfs_tty_set_flags (lflag oflag : Z) (s : con) : con := s <| tty_c_lflag := lflag |> <| tty_c_oflag := oflag |>.
Definition devfs_tty_get_pgrp (s : con) : Z := tty_pgrp s.
Definition devfs_tty_set_pgrp (pgrp : Z) (s : con) : con := s <| tty_pgrp := pgrp |>.
Definition devfs_tty_get_vmin_vtime (s : con) : Z * Z := (tty_vmin s, tty_vtime s).
Definition devfs_tty_set_vmin_vtime (vmin vtime : Z) (s : con) : con := s <| tty_vmin := vmin |> <| tty_vtime := vtime |>.

Definition devfs_tty_readable (i : input) (s : con) : con * Z :=
  if tty_ibuf_pos s <? tty_ibuf_len s then (s, 1)
  else let '(k, b) := kbd_has_key i (ckbd s) in (s <| ckbd := k |>, if b then 1 else 0).

Definition vga_putc (c : Z) (s : con) : con := s <| screen := screen s ++ [c] |>.
Definition vga_puts (l : list Z) (s : con) : con := foldl (fun s c => vga_putc c s) s l.

Definition tty_echo (c : Z) (s : con) : con :=
  if c =? 10 then vga_putc 10 s else if c =? 8 then vga_puts [8; 32; 8] s else vga_putc c s.

(** What a reader that has not all it needs waits for. *)
Inductive need := Line | Count (n : Z).

Inductive outcome :=
| Data (bytes : list Z)
| Blocked (w : need).

Definition store (c : Z) (s : con) : con := s <| tty_ibuf := aset (tty_ibuf s) (tty_ibuf_len s) c |> <| tty_ibuf_len := tty_ibuf_len s + 1 |>.
Definition try_get (s : con) : con * option Z := let '(k, o) := kbd_try_get (ckbd s) in (s <| ckbd := k |>, o).

(** The two loops, up to the end ([true]) or to [tty_getc] blocking. Every turn
    takes a key out of the ring, so [KBD_BUF_SIZE] turns are enough. *)
Fixpoint canon_loop (n : nat) (s : con) : con * bool :=
  match n with
  | O => (s, false)
  | S n' =>
      let '(s1, o) := try_get s in
      match o with
      | None => (s1, false)
      | Some c =>
          if c =? 10 then
            let s2 := tty_echo c s1 in
            (if tty_ibuf_len s2 <? TTY_IBUF then store c s2 else s2, true)
          else if c =? 8 then
            canon_loop n' (tty_echo c (if 0 <? tty_ibuf_len s1 then s1 <| tty_ibuf_len := tty_ibuf_len s1 - 1 |> else s1))
          else
            let s2 := tty_echo c s1 in
            canon_loop n' (if tty_ibuf_len s2 <? TTY_IBUF then store c s2 else s2)
      end
  end.

Fixpoint raw_loop (n : nat) (need : Z) (s : con) : con * bool :=
  if tty_ibuf_len s <? need then
    match n with
    | O => (s, false)
    | S n' =>
        let '(s1, o) := try_get s in
        match o with
        | None => (s1, false)
        | Some c => raw_loop n' need (store c (tty_echo c s1))
        end
    end
  else (s, true).

Definition collect (w : need) (s : con) : con * bool :=
  match w with
  | Line => canon_loop (Z.to_nat KBD_BUF_SIZE) s
  | Count n => raw_loop (Z.to_nat KBD_BUF_SIZE) n s
  end.

(** Hand out at most [size] of the bytes from [from] on. *)
Definition hand_out (from size : Z) (s : con) : con * list Z :=
  let n := Z.min size (tty_ibuf_len s - from) in
  let data := Ring.slice (tty_ibuf s) from n in
  let s1 := s <| tty_ibuf_pos := from + n |> in
  (if tty_ibuf_len s1 <=? tty_ibuf_pos s1 then s1 <| tty_ibuf_len := 0 |> <| tty_ibuf_pos := 0 |> else s1, data).

Section Blocking.
  (** The registers that [sched_block_and_switch] saves. *)
  Context (uret saved : kctx_t).

Definition fill (w : need) (size : Z) (s : con) : con * outcome :=
  let '(s1, fin) := collect w s in
  if fin : bool then let '(s2, d) := hand_out 0 size s1 in (s2, Data d)
  else (s1 <| csched := sched_block_and_switch WAIT_KBD 0 uret saved (csched s1) |>, Blocked w).

Definition canonical (s : con) : bool := negb (Z.land (tty_c_lflag s) TTY_ICANON =? 0).

Definition raw_need (size : Z) (s : con) : Z :=
  let need := if 1 <=? tty_vmin s then tty_vmin s else 1 in
  let need := if TTY_IBUF <? need then TTY_IBUF else need in
  if i32 size <? need then i32 size else need.

Definition tty_read (size : Z) (s : con) : con * outcome :=
  if size =? 0 then (s, Data [])
  else if tty_ibuf_pos s <? tty_ibuf_len s then let '(s1, d) := hand_out (tty_ibuf_pos s) size s in (s1, Data d)
  else fill (if canonical s then Line else Count (raw_need size s)) size s.

Definition tty_resume (t : Z) (w : need) (size : Z) (s : con) : con * outcome :=
  fill w size (s <| csched := sched_resume t (csched s) |>).
End Blocking.

Definition tty_write (data : list Z) (s : con) : con * Z := (foldl (fun s c => vga_putc c s) s data, Z.of_nat (length data)).
Definition tty_close : Z := 0.

(** ** The objects: the addresses of the operation tables are arguments *)
Definition DEV_NULL : list Z := [47; 100; 101; 118; 47; 110; 117; 108; 108].
Definition DEV_ZERO : list Z := [47; 100; 101; 118; 47; 122; 101; 114; 111].
Definition DEV_TTY : list Z := [47; 100; 101; 118; 47; 116; 116; 121].

Inductive dev := dev_null | dev_zero | dev_tty.

Definition devfs_init (ops : dev -> Z) (d : dev) (f : file_t) : file_t :=
  f <| f_inode := match d with dev_null => 1 | dev_zero => 2 | dev_tty => 3 end |>
    <| f_size := 0 |> <| f_offset := 0 |> <| f_ops := Some (ops d) |> <| f_private := 0 |> <| f_refs := 1 |>
    <| f_name := match d with dev_null => DEV_NULL | dev_zero => DEV_ZERO | dev_tty => DEV_TTY end |>.

(** [f && f->ops == &tty_ops] *)
Definition devfs_is_tty (ops : dev -> Z) (f : option file_t) : bool :=
  match f with Some x => bool_decide (f_ops x = Some (ops dev_tty)) | None => false end.

(** [path] is the string without its NUL. *)
Definition devfs_open (path : list Z) (flags : Z) : option dev :=
  if bool_decide (path = DEV_NULL) then Some dev_null
  else if bool_decide (path = DEV_ZERO) then Some dev_zero
  else if bool_decide (path = DEV_TTY) then Some dev_tty
  else None.

(** ** What the terminal is meant to do *)

(** The line editor: a buffer of 256 characters, Backspace removes the last. *)
Definition edit (l : list Z) (c : Z) : list Z :=
  if c =? 8 then take (length l - 1) l else if Z.of_nat (length l) <? TTY_IBUF then l ++ [c] else l.
Definition edited (cs : list Z) : list Z := foldl edit [] cs.
Definition finished (l : list Z) : list Z := if Z.of_nat (length l) <? TTY_IBUF then l ++ [10] else l.
Definition echoed (cs : list Z) : list Z := concat ((fun c => if c =? 8 then [8; 32; 8] else [c]) <$> cs).

(** The terminal between calls, and the bytes it holds for the next read. *)
Record tty_ok (s : con) : Prop := {
  to_ibuf : Z.of_nat (length (tty_ibuf s)) = TTY_IBUF;
  to_len : 0 <= tty_ibuf_pos s <= tty_ibuf_len s;
  to_max : tty_ibuf_len s <= TTY_IBUF;
  to_idle : tty_ibuf_pos s < tty_ibuf_len s \/ tty_ibuf_pos s = 0 /\ tty_ibuf_len s = 0;
  to_kbd : kbd_ok (ckbd s)
}.
Definition pending (s : con) : list Z := Ring.slice (tty_ibuf s) (tty_ibuf_pos s) (tty_ibuf_len s - tty_ibuf_pos s).

(** The terminal inside a read: [b] collected so far, [ks] in the keyboard,
    [scr] on the screen. *)
Record collecting (b ks scr : list Z) (s : con) : Prop := {
  cl_ibuf : Z.of_nat (length (tty_ibuf s)) = TTY_IBUF;
  cl_pos : tty_ibuf_pos s = 0;
  cl_len : tty_ibuf_len s = Z.of_nat (length b);
  cl_max : Z.of_nat (length b) <= TTY_IBUF;
  cl_held : take (length b) (tty_ibuf s) = b;
  cl_kbd : kbd_ok (ckbd s);
  cl_keys : keys (ckbd s) = ks;
  cl_scr : screen s = scr
}.

Lemma echoed_app l l' : echoed (l ++ l') = echoed l ++ echoed l'.
Proof. unfold echoed. by rewrite fmap_app, concat_app. Qed.

Lemma echo_screen c s : screen (tty_echo c s) = screen s ++ echoed [c].
Proof.
  unfold tty_echo, echoed. cbn. destruct (Z.eqb_spec c 10) as [->|]; [done|].
  destruct (c =? 8); [|done]. cbn. by rewrite <- !app_assoc.
Qed.
Lemma echo_same c s : exists scr, tty_echo c s = s <| screen := scr |>.
Proof. unfold tty_echo. destruct (c =? 10); [by eexists|]. destruct (c =? 8); [|by eexists]. eexists. cbn. reflexivity. Qed.

Lemma echo_collecting c b ks scr s : collecting b ks scr s -> collecting b ks (scr ++ echoed [c]) (tty_echo c s).
Proof.
  intros [H1 H2 H3 H4 H5 H6 H7 H8]. pose proof (echo_screen c s) as E. destruct (echo_same c s) as [scr' E']. rewrite E' in *.
  split; try done. rewrite E. by rewrite H8.
Qed.

Lemma store_collecting c b ks scr s : collecting b ks scr s -> Z.of_nat (length b) < TTY_IBUF -> collecting (b ++ [c]) ks scr (store c s).
Proof.
  intros [H1 H2 H3 H4 H5 H6 H7 H8] Hb. split; cbn; try done.
  - by rewrite length_aset.
  - rewrite H3, length_app. cbn [length]. lia.
  - rewrite length_app. cbn [length]. lia.
  - rewrite H3, length_app, Nat.add_comm. cbn [length Nat.add]. unfold aset. rewrite Nat2Z.id.
    rewrite (take_S_r _ _ c) by (rewrite list_lookup_insert_eq; [done|lia]). by rewrite take_insert_ge, H5 by lia.
Qed.

Lemma get_collecting b c ks scr s : collecting b (c :: ks) scr s -> (try_get s).2 = Some c /\ collecting b ks scr (try_get s).1.
Proof.
  intros [H1 H2 H3 H4 H5 H6 H7 H8]. pose proof (buf_get_spec _ H6) as (K1 & K2 & K3). unfold try_get, kbd_try_get.
  destruct (buf_get (ckbd s)) as [k o]. cbn in *. rewrite H7 in K2, K3. split; [done|]. by split.
Qed.
Lemma get_empty b scr s : collecting b [] scr s -> (try_get s).2 = None /\ collecting b [] scr (try_get s).1.
Proof.
  intros [H1 H2 H3 H4 H5 H6 H7 H8]. pose proof (buf_get_spec _ H6) as (K1 & K2 & K3). unfold try_get, kbd_try_get.
  destruct (buf_get (ckbd s)) as [k o]. cbn in *. rewrite H7 in K2, K3. split; [done|]. by split.
Qed.

Lemma erase_collecting b ks scr s : collecting b ks scr s ->
  collecting (take (length b - 1) b) ks scr (if 0 <? tty_ibuf_len s then s <| tty_ibuf_len := tty_ibuf_len s - 1 |> else s).
Proof.
  intros [H1 H2 H3 H4 H5 H6 H7 H8]. destruct (Z.ltb_spec 0 (tty_ibuf_len s)) as [H|H].
  - split; cbn; try done; rewrite ?length_take; [lia|lia|]. transitivity (take (length b - 1) (take (length b) (tty_ibuf s))); [rewrite take_take; f_equal; lia|by rewrite H5].
  - destruct b; [done|cbn [length] in H3; lia].
Qed.

Lemma edit_collecting c b ks scr s : collecting b ks scr s -> c <> 8 ->
  collecting (edit b c) ks scr (if tty_ibuf_len s <? TTY_IBUF then store c s else s).
Proof.
  intros H Hc. unfold edit. rewrite (proj2 (Z.eqb_neq _ _) Hc), (cl_len _ _ _ _ H).
  destruct (Z.ltb_spec (Z.of_nat (length b)) TTY_IBUF); [by apply store_collecting|done].
Qed.

(** A turn of the loop on a key other than Enter edits the buffer. *)
Lemma canon_turn n c b ks scr s : collecting b (c :: ks) scr s -> c <> 10 -> exists s',
  canon_loop (S n) s = canon_loop n s' /\ collecting (edit b c) ks (scr ++ echoed [c]) s'.
Proof.
  intros H Hc. destruct (get_collecting _ _ _ _ _ H) as [E1 H1]. cbn [canon_loop]. destruct (try_get s) as [s1 o]. cbn [fst snd] in *. subst o.
  rewrite (proj2 (Z.eqb_neq _ _) Hc). destruct (Z.eqb_spec c 8) as [->|H8].
  - eexists. split; [done|]. apply echo_collecting. by apply (erase_collecting b ks scr s1).
  - eexists. split; [done|]. apply edit_collecting; [|done]. by apply echo_collecting.
Qed.

(** The loop over keys without Enter takes them all and blocks. *)
Lemma canon_loop_waits l : forall n b scr s, collecting b l scr s -> 10 ∉ l -> (length l < n)%nat -> exists s',
  canon_loop n s = (s', false) /\ collecting (foldl edit b l) [] (scr ++ echoed l) s'.
Proof.
  induction l as [|c l IH]; intros n b scr s H Hl Hn; (destruct n as [|n]; [lia|]).
  - destruct (get_empty _ _ _ H) as [E1 H1]. cbn [canon_loop]. destruct (try_get s) as [s1 o]. cbn [fst snd] in *. subst o.
    exists s1. split; [done|]. cbn. by rewrite app_nil_r.
  - apply not_elem_of_cons in Hl as [Hc Hl]. destruct (canon_turn n c b l scr s H (not_eq_sym Hc)) as (s1 & E & H1). rewrite E.
    destruct (IH n _ _ s1 H1 Hl) as (s2 & E2 & H2); [cbn [length] in Hn; lia|]. exists s2. split; [done|].
    rewrite <- app_assoc, <- echoed_app in H2. exact H2.
Qed.

Lemma canon_loop_line l rest : forall n b scr s, collecting b (l ++ 10 :: rest) scr s -> 10 ∉ l -> (length l < n)%nat -> exists s',
  canon_loop n s = (s', true) /\ collecting (finished (foldl edit b l)) rest (scr ++ echoed (l ++ [10])) s'.
Proof.
  induction l as [|c l IH]; intros n b scr s H Hl Hn; (destruct n as [|n]; [lia|]).
  - destruct (get_collecting _ _ _ _ _ H) as [E1 H1]. cbn [canon_loop]. destruct (try_get s) as [s1 o]. cbn [fst snd] in *. subst o.
    cbn [Z.eqb Pos.eqb]. eexists. split; [done|]. apply (echo_collecting 10) in H1.
    apply (edit_collecting 10) in H1; [|done]. exact H1.
  - apply not_elem_of_cons in Hl as [Hc Hl]. destruct (canon_turn n c b (l ++ 10 :: rest) scr s H (not_eq_sym Hc)) as (s1 & E & H1). rewrite E.
    destruct (IH n _ _ s1 H1 Hl) as (s2 & E2 & H2); [cbn [length] in Hn; lia|]. exists s2. split; [done|].
    rewrite <- app_assoc, <- echoed_app in H2. exact H2.
Qed.

(** Handing out what was collected. *)
Lemma hand_out_spec from size s : Z.of_nat (length (tty_ibuf s)) = TTY_IBUF -> 0 <= from < tty_ibuf_len s \/ from = 0 /\ tty_ibuf_len s = 0 -> tty_ibuf_len s <= TTY_IBUF -> kbd_ok (ckbd s) -> 0 < size ->
  let p := Ring.slice (tty_ibuf s) from (tty_ibuf_len s - from) in
  let '(s', d) := hand_out from size s in
  d = take (Z.to_nat size) p /\ pending s' = drop (Z.to_nat size) p /\ tty_ok s' /\ ckbd s' = ckbd s /\ screen s' = screen s.
Proof.
  intros Hl Hf Hm Hk Hs p. unfold hand_out. cbn [tty_ibuf_len tty_ibuf_pos update eta_con].
  assert (Hp : length p = Z.to_nat (tty_ibuf_len s - from)) by (unfold p, Ring.slice; rewrite length_take, length_drop; lia).
  assert (Ed : Ring.slice (tty_ibuf s) from (Z.min size (tty_ibuf_len s - from)) = take (Z.to_nat size) p).
  { unfold p, Ring.slice. rewrite take_take. f_equal. lia. }
  split; [exact Ed|]. destruct (Z.leb_spec (tty_ibuf_len s) (from + Z.min size (tty_ibuf_len s - from))) as [H|H].
  - split; [|split; [split; cbn; try done; lia|done]]. rewrite drop_ge by lia. reflexivity.
  - split; [|split; [split; cbn; try done; lia|done]]. unfold pending, p, Ring.slice. cbn [tty_ibuf tty_ibuf_pos tty_ibuf_len update eta_con].
    rewrite List.skipn_firstn_comm, drop_drop. f_equal; [lia|]. f_equal. lia.
Qed.

(** ** Reading a line *)

(** Keys arrive and the scheduler comes back in some state. *)
Definition arrive (x : list Z * sched) (s : con) : con :=
  s <| ckbd := foldl (fun k c => (buf_put c k).1) (ckbd s) x.1 |> <| csched := x.2 |>.

(** A read by task [t], resumed after each of the arrivals until it is through;
    the arrivals it did not wait for are left. *)
Fixpoint served (uret saved : kctx_t) (t size : Z) (later : list (list Z * sched)) (r : con * outcome) : con * outcome * list (list Z * sched) :=
  match r.2, later with
  | Blocked w, x :: later' => served uret saved t size later' (tty_resume uret saved t w size (arrive x r.1))
  | _, _ => (r, later)
  end.

Lemma collecting_sched b ks scr s sch : collecting b ks scr s -> collecting b ks scr (s <| csched := sch |>).
Proof. intros [H1 H2 H3 H4 H5 H6 H7 H8]. by split. Qed.

Lemma length_ks b ks scr s : collecting b ks scr s -> (length ks < Z.to_nat KBD_BUF_SIZE)%nat.
Proof. intros H. pose proof (length_keys (ckbd s)) as E. rewrite (cl_keys _ _ _ _ H) in E. pose proof (queued_range (ckbd s)). unfold KBD_BUF_SIZE in *. lia. Qed.

Lemma arrive_collecting b scr s x : collecting b [] scr s -> Z.of_nat (length x.1) < KBD_BUF_SIZE -> collecting b x.1 scr (arrive x s).
Proof.
  intros [H1 H2 H3 H4 H5 H6 H7 H8] Hx. destruct (buf_puts_spec x.1 (ckbd s) H6) as [K1 K2]; [rewrite H7; cbn [length Nat.add]; done|].
  rewrite H7 in K2. by split.
Qed.

(** Where the first Enter lies when the keys come in two parts. *)
Lemma first_enter (ks more l rest : list Z) : ks ++ more = l ++ 10 :: rest -> 10 ∉ l ->
  (exists r, ks = l ++ 10 :: r /\ rest = r ++ more) \/ ((10 ∉ ks) /\ (exists l', l = ks ++ l' /\ more = l' ++ 10 :: rest)).
Proof.
  revert l. induction ks as [|c ks IH]; intros l E Hl; [right; split; [apply not_elem_of_nil|]; by exists l|].
  destruct l as [|d l]; cbn in E; injection E as -> E; [left; by exists ks|]. apply not_elem_of_cons in Hl as [Hd Hl].
  destruct (IH l E Hl) as [(r & -> & ->)|(H & l' & -> & ->)]; [left; by exists r|right]. split; [by apply not_elem_of_cons|]. by exists l'.
Qed.

Lemma fill_done uret saved w size s s1 : collect w s = (s1, true) ->
  fill uret saved w size s = let '(s2, d) := hand_out 0 size s1 in (s2, Data d).
Proof. intros E. unfold fill. by rewrite E. Qed.
Lemma fill_blocks uret saved w size s s1 : collect w s = (s1, false) ->
  fill uret saved w size s = (s1 <| csched := sched_block_and_switch WAIT_KBD 0 uret saved (csched s1) |>, Blocked w).
Proof. intros E. unfold fill. by rewrite E. Qed.

Lemma collect_waits b ks scr s : collecting b ks scr s -> 10 ∉ ks -> exists s',
  collect Line s = (s', false) /\ collecting (foldl edit b ks) [] (scr ++ echoed ks) s'.
Proof. intros H Hks. apply canon_loop_waits; [done|done|by eapply length_ks]. Qed.
Lemma collect_ends b l rest scr s : collecting b (l ++ 10 :: rest) scr s -> 10 ∉ l -> exists s',
  collect Line s = (s', true) /\ collecting (finished (foldl edit b l)) rest (scr ++ echoed (l ++ [10])) s'.
Proof. intros H Hl. pose proof (length_ks _ _ _ _ H) as Hn. rewrite length_app in Hn. apply canon_loop_line; [done|done|lia]. Qed.

Lemma hand_out_line b ks scr size s : collecting b ks scr s -> 0 < size ->
  let '(s', d) := hand_out 0 size s in
  d = take (Z.to_nat size) b /\ pending s' = drop (Z.to_nat size) b /\ tty_ok s' /\ keys (ckbd s') = ks /\ screen s' = scr.
Proof.
  intros [G1 G2 G3 G4 G5 G6 G7 G8] Hs. pose proof (hand_out_spec 0 size s G1 ltac:(lia) ltac:(lia) G6 Hs) as HO. cbv zeta in HO.
  unfold Ring.slice in HO. rewrite Z.sub_0_r, drop_0, G3, Nat2Z.id, G5 in HO. destruct (hand_out 0 size s) as [s2 d].
  destruct HO as (-> & Hp & Hok & Ek & Escr). split; [done|]. split; [done|]. split; [done|]. by rewrite Ek, Escr.
Qed.

Lemma served_done uret saved t size later s d : served uret saved t size later (s, Data d) = (s, Data d, later).
Proof. by destruct later. Qed.
Lemma served_waits uret saved t size x later s w : served uret saved t size (x :: later) (s, Blocked w) =
  served uret saved t size later (fill uret saved w size (arrive x s <| csched := sched_resume t (csched (arrive x s)) |>)).
Proof. done. Qed.
#[local] Opaque collect fill served hand_out.

Lemma fill_line uret saved t size later : forall b ks scr s l rest,
  0 < size -> collecting b ks scr s -> ks ++ concat (later.*1) = l ++ 10 :: rest -> 10 ∉ l ->
  Forall (fun x => Z.of_nat (length x.1) < KBD_BUF_SIZE) later ->
  let '(s', o, unused) := served uret saved t size later (fill uret saved Line size s) in
  let whole := finished (foldl edit b l) in
  o = Data (take (Z.to_nat size) whole) /\ pending s' = drop (Z.to_nat size) whole /\ tty_ok s' /\
  keys (ckbd s') ++ concat (unused.*1) = rest /\ screen s' = scr ++ echoed (l ++ [10]).
Proof.
  induction later as [|x later IH]; intros b ks scr s l rest Hs H E Hl HF;
    (destruct (first_enter _ _ _ _ E Hl) as [(r & -> & ->)|(Hks & l' & -> & El)]).
  2: { exfalso. cbn in El. destruct l'; discriminate El. }
  3: { destruct (collect_waits b ks scr s H Hks) as (s1 & E1 & H1). rewrite (fill_blocks _ _ _ _ _ _ E1), served_waits.
    apply Forall_cons in HF as [Hx HF]. apply not_elem_of_app in Hl as [_ Hl].
    eapply collecting_sched in H1. eapply arrive_collecting in H1; [|exact Hx]. eapply collecting_sched in H1.
    specialize (IH _ _ _ _ l' rest Hs H1 El Hl HF). rewrite foldl_app, <- (app_assoc ks), (echoed_app ks), (app_assoc scr). exact IH. }
  all: destruct (collect_ends b l r scr s H Hl) as (s1 & E1 & H1); rewrite (fill_done _ _ _ _ _ _ E1);
    pose proof (hand_out_line _ _ _ size s1 H1 Hs) as HO; destruct (hand_out 0 size s1) as [s2 d];
    destruct HO as (-> & Hp & Hok & Ek & Escr); rewrite served_done; split; [reflexivity|]; split; [exact Hp|]; split; [exact Hok|];
    split; [by rewrite Ek|exact Escr].
Qed.

Lemma pending_nil s : tty_ok s -> pending s = [] -> tty_ibuf_pos s = 0 /\ tty_ibuf_len s = 0.
Proof.
  intros [H1 H2 H3 H4 H5] Hp. destruct H4 as [H|H]; [|done]. apply (f_equal length) in Hp. revert Hp. unfold pending, Ring.slice.
  rewrite length_take, length_drop. cbn. lia.
Qed.

(** C39: The terminal in line mode. Bytes left over from a line are handed out
    first, touching neither keyboard nor screen. With nothing left over, a read
    returns the first bytes of the line typed next, as the line editor leaves
    it (Backspace removes the last character, at most 256 are kept, Enter
    ends it), keeps the rest of the line for the reads to come and leaves what
    was typed after it in the keyboard; everything up to Enter has been echoed,
    with ECHO off as well, for the code looks at ICANON alone. This holds however the keys arrive, before the read or in any number of
    portions while the reader is blocked, and whatever the scheduler does
    meanwhile. *)
Theorem tty_reads_lines uret saved t size later s :
  tty_ok s -> 0 < size ->
  (pending s <> [] ->
    let '(s', o) := tty_read uret saved size s in
    o = Data (take (Z.to_nat size) (pending s)) /\ pending s' = drop (Z.to_nat size) (pending s) /\ tty_ok s' /\
    ckbd s' = ckbd s /\ screen s' = screen s) /\
  (pending s = [] -> canonical s = true -> Forall (fun x => Z.of_nat (length x.1) < KBD_BUF_SIZE) later ->
    forall l rest, keys (ckbd s) ++ concat (later.*1) = l ++ 10 :: rest -> 10 ∉ l ->
    let '(s', o, unused) := served uret saved t size later (tty_read uret saved size s) in
    o = Data (take (Z.to_nat size) (finished (edited l))) /\ pending s' = drop (Z.to_nat size) (finished (edited l)) /\ tty_ok s' /\
    keys (ckbd s') ++ concat (unused.*1) = rest /\ screen s' = screen s ++ echoed (l ++ [10])).
Proof.
  intros Hok Hs. pose proof Hok as [H1 H2 H3 H4 H5]. split.
  - intros Hp. unfold tty_read. rewrite (proj2 (Z.eqb_neq _ _)) by lia.
    destruct H4 as [H4|[E1 E2]]; [|exfalso; apply Hp; unfold pending; by rewrite E1, E2].
    rewrite (proj2 (Z.ltb_lt _ _) H4). pose proof (hand_out_spec (tty_ibuf_pos s) size s H1 ltac:(lia) H3 H5 Hs) as HO.
    cbv zeta in HO. destruct (hand_out _ _ _) as [s' d]. destruct HO as (-> & H). split; [reflexivity|exact H].
  - intros Hp Hc HF l rest E Hl. destruct (pending_nil s Hok Hp) as [E1 E2]. unfold tty_read.
    rewrite (proj2 (Z.eqb_neq _ _)), E1, E2, Hc by lia. cbn [Z.ltb Z.compare].
    eapply (fill_line uret saved t size later [] _ _ s l rest Hs); [|exact E|done|done].
    split; [done|done|by rewrite E2|done|done|done|done|done].
Qed.

(** Somebody types "lx", Backspace, "s", Enter, "q" in three portions; the
    reader asks for two bytes. *)
Definition ex_con : con := con_bss (buf_put 108 kbd_bss).1 sched_bss.
Definition ex_keys : list (list Z * sched) := [([120; 8], sched_bss); ([115; 10; 113], sched_bss); ([33], sched_bss)].

Lemma tty_reads_lines_witness :
  let '(s, o, unused) := served kctx0 kctx0 1 2 ex_keys (tty_read kctx0 kctx0 2 ex_con) in
  o = Data [108; 115] /\ pending s = [10] /\ keys (ckbd s) ++ concat (unused.*1) = [113; 33] /\
  screen s = [108; 120; 8; 32; 8; 115; 10].
Proof.
  destruct (tty_reads_lines kctx0 kctx0 1 2 ex_keys ex_con) as [_ H]; [|done|].
  { split; [done|done|done|by right|]. apply (proj1 (buf_put_spec 108 kbd_bss kbd_bss_ok)). }
  specialize (H eq_refl eq_refl ltac:(repeat constructor) [108; 120; 8; 115] [113; 33] eq_refl (bool_decide_eq_true_1 _ (eq_refl : bool_decide (10 ∉ [108; 120; 8; 115]) = true))).
  destruct (served _ _ _ _ _ _) as [[s o] unused]. destruct H as (-> & Hp & _ & Hk & Hscr). split; [reflexivity|]. split; [exact Hp|].
  split; [exact Hk|exact Hscr].
Defined.

(** ** Behaviours behind the findings *)

(** In raw mode a read of 4 GiB returns at once with nothing. *)
Example raw_huge_read : (tty_read kctx0 kctx0 (2 ^ 32) (devfs_tty_set_flags 0 0 ex_con)).2 = Data [].
Proof. vm_compute. reflexivity. Qed.

(** poll finds a terminal readable on which a read blocks. *)
Example readable_but_blocks :
  (devfs_tty_readable ([], None) ex_con).2 = 1 /\ (tty_read kctx0 kctx0 1 ex_con).2 = Blocked Line.
Proof. vm_compute. split; reflexivity. Qed.

(** A second reader, started while the first is blocked, takes the characters
    of the unfinished line. *)
Example unfinished_line_taken :
  let s := (tty_read kctx0 kctx0 80 ex_con).1 in
  (tty_read kctx0 kctx0 80 s).2 = Data [108].
Proof. vm_compute. reflexivity. Qed.

(** The Enter that ends a line of 256 characters is lost. *)
Example long_line_loses_enter : finished (edited (replicate 300 97)) = replicate 256 97.
Proof. vm_compute. reflexivity. Qed.
End Devfs.
