(* ===== verification/Pseudo.v ===== *)
(** The generated files (src/src/kernel/fs/procfs.c, sysfs.c): /proc and /sys.

    Both sources keep the same pool of open files with a text buffer for each;
    the pool is written once, with its constants as parameters. A path is the
    string without its NUL, [f_private] is the index of the buffer. *)
From S2P Require Import Prelude Ring Sched Vfs Printk.

Module Pseudo.
Import Sched Vfs.

(** ** The helpers of both files *)
Definition str_eq (a b : list Z) : bool := bool_decide (a = b).
Definition str_begins (s pre : list Z) : bool := bool_decide (pre = take (length pre) s).

(** [out] is what has been written, [pos] its length. *)
Definition append_str (cap : Z) (out s : list Z) : list Z := out ++ take (Z.to_nat (cap - 1 - Z.of_nat (length out))) s.
Definition decimal (v : Z) : list Z := Z.add 48 <$> Printk.digits 10 v.
Definition append_uint (cap : Z) (out : list Z) (v : Z) : list Z := append_str cap out (decimal v).

(** ** The pool of open files *)
Record pool := Pool {
  files : list file_t;
  data : list Z;
  busy : list Z;
  ops_inited : bool
}.
#[export] Instance eta_pool : Eta pool := fun s => Pool (files s) (data s) (busy s) (ops_inited s).

Section Pool.
  (** How many files, the length of a buffer, the first inode number, the
      address of the operation table. *)
  Context (SLOTS DATA_LEN INO OPS : Z).

Definition pool_bss : pool :=
  Pool (replicate (Z.to_nat SLOTS) file0) (replicate (Z.to_nat (SLOTS * DATA_LEN)) 0) (replicate (Z.to_nat SLOTS) 0) false.

Definition init_ops (s : pool) : pool := s <| ops_inited := true |>.

(** [out]: what is written into the buffer, and the length it is given. *)
Definition open_in (path : list Z) (out : option (list Z * Z)) (s : pool) : pool * option Z :=
  let s := init_ops s in
  match find_index (fun b => b =? 0) (busy s) with
  | None => (s, None)
  | Some k =>
      let slot := Z.of_nat k in
      match out with
      | None => (s <| busy := aset (busy s) slot 0 |>, None)
      | Some (text, len) =>
          let f := aget (files s) slot in
          (Pool (aset (files s) slot (File (INO + slot) len 0 (Some OPS) slot 1 (take 63 path) (f_flags f) (f_type f)))
             (Ring.blit (data s) (slot * DATA_LEN) text) (busy s) (ops_inited s), Some slot)
      end
  end.

Definition read_op (k off size : Z) (s : pool) : pool * list Z :=
  let f := aget (files s) k in
  if f_size f <=? off then (s, []) else
  let n := if f_size f - off <? size then f_size f - off else size in
  (s <| files := aset (files s) k (f <| f_offset := off + n |>) |>,
   Ring.slice (data s) (f_private f * DATA_LEN + off) n).

Definition write_op (off : Z) (bytes : list Z) : Z := Z.of_nat (length bytes).

Definition close_op (k : Z) (s : pool) : pool :=
  let b := f_private (aget (files s) k) in
  if (0 <=? b) && (b <? SLOTS) then s <| busy := aset (busy s) b 0 |> else s.
End Pool.

(** ** procfs *)
Definition PROC_POOL : Z := 16.
Definition PROC_DATA_LEN : Z := 512.

(** "/proc", "/proc/uptime", "/proc/self/status" *)
Definition P_PROC : list Z := [47; 112; 114; 111; 99].
Definition P_UPTIME : list Z := P_PROC ++ [47; 117; 112; 116; 105; 109; 101].
Definition P_STATUS : list Z := P_PROC ++ [47; 115; 101; 108; 102; 47; 115; 116; 97; 116; 117; 115].

(** "Name:\t", "\nPid:\t", "\nPpid:\t", "\nState:\t", "\nPriority:\t" *)
Definition T_NAME : list Z := [78; 97; 109; 101; 58; 9].
Definition T_PID : list Z := [10; 80; 105; 100; 58; 9].
Definition T_PPID : list Z := [10; 80; 112; 105; 100; 58; 9].
Definition T_STATE : list Z := [10; 83; 116; 97; 116; 101; 58; 9].
Definition T_PRIORITY : list Z := [10; 80; 114; 105; 111; 114; 105; 116; 121; 58; 9].
(** "Name:\t(none)\nPid:\t0\nState:\t?\n" and "(unnamed)" *)
Definition T_NONE : list Z := T_NAME ++ [40; 110; 111; 110; 101; 41] ++ T_PID ++ [48] ++ T_STATE ++ [63; 10].
Definition T_UNNAMED : list Z := [40; 117; 110; 110; 97; 109; 101; 100; 41].

Definition state_name (x : task) : list Z :=
  if (0 <=? state x) && (state x <=? 5) then aget state_names (state x) else [63; 63; 63].

Definition gen_status (cap : Z) (s : sched) : list Z :=
  match current_task s with
  | None => append_str cap [] T_NONE
  | Some t =>
      let x := tget s t in
      let out := append_str cap [] T_NAME in
      let out := append_str cap out (if name_is_null x then T_UNNAMED else name_bytes x) in
      let out := append_str cap out T_PID in
      let out := append_uint cap out (pid x) in
      let out := append_str cap out T_PPID in
      let out := append_uint cap out (ppid x) in
      let out := append_str cap out T_STATE in
      let out := append_str cap out (state_name x) in
      let out := append_str cap out T_PRIORITY in
      let out := append_uint cap out (u64 (priority x)) in
      append_str cap out [10]
  end.

Section Procfs.
  (** The address of [proc_ops], the scheduler and [timer_ms()]. *)
  Context (PROC_OPS : Z) (sch : sched) (ms : Z).

Definition proc_bss : pool := pool_bss PROC_POOL PROC_DATA_LEN.
Definition procfs_init_ops : pool -> pool := init_ops.

(** The text of a path, and its length. *)
Definition proc_text (path : list Z) : option (list Z * Z) :=
  if bool_decide (path = P_PROC) then
    let '(out, len) := sched_list PROC_DATA_LEN sch in
    Some (out, if PROC_DATA_LEN <=? len then PROC_DATA_LEN - 1 else len)
  else if str_eq path P_UPTIME then
    let out := append_str PROC_DATA_LEN (append_uint PROC_DATA_LEN [] (ms / 1000)) [10] in
    Some (out, Z.of_nat (length out))
  else if str_eq path P_STATUS then
    let out := gen_status PROC_DATA_LEN sch in
    Some (out, Z.of_nat (length out))
  else None.

Definition procfs_open (path : list Z) (s : pool) : pool * option Z :=
  if negb (str_begins path P_PROC) then (s, None) else open_in PROC_DATA_LEN 100 PROC_OPS path (proc_text path) s.

Definition proc_read : Z -> Z -> Z -> pool -> pool * list Z := read_op PROC_DATA_LEN.
Definition proc_write : Z -> list Z -> Z := write_op.
Definition proc_close : Z -> pool -> pool := close_op PROC_POOL.

Definition procfs_is_path (path : list Z) : bool := str_begins path P_PROC.

(** "uptime self " *)
Definition procfs_list (path : list Z) (max : Z) : option (list Z * Z) :=
  if str_eq path P_PROC then
    let out := append_str max (append_str max [] [117; 112; 116; 105; 109; 101; 32]) [115; 101; 108; 102; 32] in
    let pos := Z.of_nat (length out) in
    Some (if pos <? max then out ++ [0] else out, pos)
  else None.
End Procfs.

(** ** sysfs *)
Definition SYSFS_POOL : Z := 8.
Definition SYSFS_DATA_LEN : Z := 128.

(** "/sys", "/sys/kernel", "/sys/kernel/version", "/sys/kernel/boottime" *)
Definition S_SYS : list Z := [47; 115; 121; 115].
Definition S_KERNEL : list Z := S_SYS ++ [47; 107; 101; 114; 110; 101; 108].
Definition S_VERSION : list Z := S_KERNEL ++ [47; 118; 101; 114; 115; 105; 111; 110].
Definition S_BOOTTIME : list Z := S_KERNEL ++ [47; 98; 111; 111; 116; 116; 105; 109; 101].

(** "Axion-Ban 0.5.0\n" *)
Definition T_VERSION : list Z := [65; 120; 105; 111; 110; 45; 66; 97; 110; 32; 48; 46; 53; 46; 48; 10].

Section Sysfs.
  (** The address of [sys_ops]; [sysfs_boot_ms]. *)
  Context (SYS_OPS : Z) (boot_ms : Z).

Definition sysfs_init : Z := 0.
Definition sysfs_set_boot_ms (ms : Z) : Z := ms.
Definition sys_bss : pool := pool_bss SYSFS_POOL SYSFS_DATA_LEN.
Definition sysfs_init_ops : pool -> pool := init_ops.

Definition sys_text (path : list Z) : option (list Z * Z) :=
  if str_eq path S_VERSION then
    let out := append_str SYSFS_DATA_LEN [] T_VERSION in Some (out, Z.of_nat (length out))
  else if str_eq path S_BOOTTIME then
    let out := append_str SYSFS_DATA_LEN (append_uint SYSFS_DATA_LEN [] boot_ms) [32; 109; 115; 10] in
    Some (out, Z.of_nat (length out))
  else None.

Definition sysfs_open (path : list Z) (s : pool) : pool * option Z :=
  if negb (str_begins path S_SYS) then (s, None) else open_in SYSFS_DATA_LEN 200 SYS_OPS path (sys_text path) s.

Definition sys_read : Z -> Z -> Z -> pool -> pool * list Z := read_op SYSFS_DATA_LEN.
Definition sys_write : Z -> list Z -> Z := write_op.
Definition sys_close : Z -> pool -> pool := close_op SYSFS_POOL.

Definition sysfs_is_path (path : list Z) : bool := str_begins path S_SYS.

(** "kernel ", "version boottime " *)
Definition sysfs_list (path : list Z) (max : Z) : option (list Z * Z) :=
  let finish out := let pos := Z.of_nat (length out) in Some (if pos <? max then out ++ [0] else out, pos) in
  if str_eq path S_SYS then finish (append_str max [] [107; 101; 114; 110; 101; 108; 32])
  else if str_eq path S_KERNEL then
    finish (append_str max (append_str max [] [118; 101; 114; 115; 105; 111; 110; 32]) [98; 111; 111; 116; 116; 105; 109; 101; 32])
  else None.
End Sysfs.

(** ** What is read is what was generated *)
Section Reads.
  Context (SLOTS DATA_LEN INO OPS : Z).

Record pool_ok (s : pool) : Prop := {
  po_files : Z.of_nat (length (files s)) = SLOTS;
  po_data : Z.of_nat (length (data s)) = SLOTS * DATA_LEN;
  po_busy : Z.of_nat (length (busy s)) = SLOTS
}.

(** [vfs_read] once for each size, each from where the file stands. *)
Fixpoint reads (k : Z) (sizes : list Z) (s : pool) : pool * list Z :=
  match sizes with
  | [] => (s, [])
  | n :: r =>
      let '(s1, d) := read_op DATA_LEN k (f_offset (aget (files s) k)) n s in
      let '(s2, d') := reads k r s1 in (s2, d ++ d')
  end.

Definition total (sizes : list Z) : Z := foldr Z.add 0 sizes.

Lemma reads_spec k sizes : forall s text off, 0 <= k < Z.of_nat (length (files s)) -> Forall (fun n => 0 <= n) sizes ->
  let f := aget (files s) k in
  f_offset f = off -> 0 <= off -> off <= f_size f -> 0 <= f_private f * DATA_LEN ->
  Ring.slice (data s) (f_private f * DATA_LEN) (f_size f) = text -> f_size f = Z.of_nat (length text) ->
  (reads k sizes s).2 = take (Z.to_nat (total sizes)) (drop (Z.to_nat off) text).
Proof.
  induction sizes as [|n sizes IH]; intros s text off Hk HF f Ho Hoff Hle Hp Ht Hsz; [done|]. apply Forall_cons in HF as [Hn HF].
  cbn [reads total foldr]. fold (total sizes). assert (Htot : 0 <= total sizes) by (clear IH; induction HF; [done|cbn; unfold total in *; lia]).
  unfold read_op. fold f. rewrite Ho. destruct (Z.leb_spec (f_size f) off) as [Hend|Hmore].
  - destruct (reads k sizes s) as [s2 d'] eqn:E. cbn [snd app]. specialize (IH s text off Hk HF Ho Hoff Hle Hp Ht Hsz). rewrite E in IH. cbn [snd] in IH.
    rewrite IH, drop_ge, !take_nil by lia. done.
  - set (m := if f_size f - off <? n then f_size f - off else n).
    assert (Hm : 0 <= m <= f_size f - off /\ (m = n \/ m = f_size f - off /\ m <= n)) by (unfold m; destruct (Z.ltb_spec (f_size f - off) n); lia).
    clearbody m. set (s1 := s <| files := _ |>).
    assert (Ef : aget (files s1) k = f <| f_offset := off + m |>) by (unfold s1; cbn; apply aget_aset_eq; lia).
    pose proof (IH s1 text (off + m)) as H. cbv zeta in H. rewrite Ef in H. cbn [f_offset f_size f_private update eta_file] in H.
    specialize (H ltac:(unfold s1; cbn; by rewrite length_aset) HF eq_refl ltac:(lia) ltac:(lia) Hp Ht Hsz).
    destruct (reads k sizes s1) as [s2 d'] eqn:E. cbn [snd] in *. rewrite H. clear IH H E.
    assert (Ed : Ring.slice (data s) (f_private f * DATA_LEN + off) m = take (Z.to_nat m) (drop (Z.to_nat off) text)).
    { rewrite <- Ht. unfold Ring.slice. rewrite List.skipn_firstn_comm, take_take, drop_drop. f_equal; [lia|]. f_equal. lia. }
    rewrite Ed. replace (Z.to_nat (off + m)) with (Z.to_nat off + Z.to_nat m)%nat by lia. rewrite <- drop_drop.
    destruct Hm as [Hm1 [->|[Em Hm2]]].
    + rewrite <- (take_drop (Z.to_nat n) (take (Z.to_nat (n + total sizes)) (drop (Z.to_nat off) text))). rewrite take_take. f_equal; [f_equal; lia|].
      rewrite List.skipn_firstn_comm. f_equal. lia.
    + rewrite (drop_ge (drop (Z.to_nat off) text)) by (rewrite length_drop; lia). rewrite take_nil, app_nil_r.
      rewrite !take_ge by (rewrite length_drop; lia). done.
Qed.

Lemma open_in_spec path text len s s' k : pool_ok s -> 0 < DATA_LEN -> open_in DATA_LEN INO OPS path (Some (text, len)) s = (s', Some k) ->
  0 <= len <= Z.of_nat (length text) -> k * DATA_LEN + Z.of_nat (length text) <= SLOTS * DATA_LEN ->
  0 <= k < Z.of_nat (length (files s')) /\
  let f := aget (files s') k in
  f_offset f = 0 /\ f_size f = len /\ f_private f = k /\ Ring.slice (data s') (k * DATA_LEN) len = take (Z.to_nat len) text.
Proof.
  intros [H1 H2 H3] Hd E Hl Hfit. unfold open_in, init_ops in E. cbn [busy files data update eta_pool] in E.
  destruct (find_index _ (busy s)) as [j|] eqn:Ej; [|discriminate E].
  apply pair_equal_spec in E as [<- E].
  apply (f_equal (default 0)) in E.
  change (Z.of_nat j = k) in E. subst k.
  cbn [files data].
  apply find_index_Some in Ej as (b & Hb & _). apply lookup_lt_Some in Hb.
  rewrite length_aset. split; [lia|]. rewrite aget_aset_eq by lia. cbn. split; [done|]. split; [done|]. split; [done|].
  unfold Ring.slice, Ring.blit. rewrite drop_app_length' by (rewrite length_take; nia). by rewrite take_app_le by lia.
Qed.
End Reads.

Lemma sched_list_length max s : 0 <= (sched_list max s).2 <= Z.of_nat (length (sched_list max s).1).
Proof.
  unfold sched_list. cbn [fst snd]. set (out := list_rows _ _ _ _). clearbody out. unfold pos_of. split; [lia|].
  destruct (_ <? max); [rewrite length_app; cbn [length]; lia|]. destruct (0 <? _); rewrite ?length_aset; lia.
Qed.

Lemma proc_text_length sch ms path text len : proc_text sch ms path = Some (text, len) -> 0 <= len <= Z.of_nat (length text).
Proof.
  unfold proc_text. case_bool_decide; [|by repeat case_match; intros [= <- <-]; lia]. pose proof (sched_list_length PROC_DATA_LEN sch) as H1.
  destruct (sched_list PROC_DATA_LEN sch) as [out n]. cbn [fst snd] in H1. intros [= <- <-]. unfold PROC_DATA_LEN in *. destruct (Z.leb_spec 512 n); lia.
Qed.

(** A file below /proc reads as the text generated when it was opened,
    whatever sizes it is read in: the reads together give its first bytes, as
    many as were asked for, up to the length of the text and never beyond. *)
Theorem proc_file_reads_text PROC_OPS sch ms path s s' k text len sizes :
  pool_ok PROC_POOL PROC_DATA_LEN s -> procfs_open PROC_OPS sch ms path s = (s', Some k) -> proc_text sch ms path = Some (text, len) ->
  k * PROC_DATA_LEN + Z.of_nat (length text) <= PROC_POOL * PROC_DATA_LEN -> Forall (fun n => 0 <= n) sizes ->
  (reads PROC_DATA_LEN k sizes s').2 = take (Z.to_nat (total sizes)) (take (Z.to_nat len) text).
Proof.
  intros Hok E Et Hfit HF. unfold procfs_open in E. destruct (str_begins path P_PROC); cbn [negb] in E; [|discriminate E]. rewrite Et in E.
  pose proof (proc_text_length _ _ _ _ _ Et) as Hl.
  destruct (open_in_spec PROC_POOL _ _ _ _ _ _ _ _ _ Hok ltac:(done) E Hl Hfit) as (Hk & Ho & Hs & Hp & Hd).
  rewrite (reads_spec PROC_DATA_LEN k sizes s' (take (Z.to_nat len) text) 0 Hk HF Ho); [by rewrite drop_0|lia|lia|rewrite Hp; unfold PROC_DATA_LEN; lia|by rewrite Hp, Hs|].
  rewrite Hs, length_take. lia.
Qed.

(** /proc/uptime after 83.5 seconds, read in pieces of one byte and of ten. *)
Lemma proc_file_reads_text_witness :
  let r := procfs_open 7 sched_bss 83500 P_UPTIME proc_bss in
  r.2 = Some 0 /\ (reads PROC_DATA_LEN 0 [1; 10] r.1).2 = [56; 51; 10].
Proof.
  intros r. assert (Er : r.2 = Some 0) by (vm_compute; reflexivity). split; [exact Er|].
  rewrite (proc_file_reads_text 7 sched_bss 83500 P_UPTIME proc_bss r.1 0 [56; 51; 10] 3 [1; 10]).
  - reflexivity.
  - split; vm_compute; reflexivity.
  - transitivity (r.1, r.2); [apply surjective_pairing|by rewrite Er].
  - vm_compute. reflexivity.
  - vm_compute. discriminate.
  - repeat constructor; lia.
Defined.

(** ** Behaviours behind the findings *)

(** No buffer is ever marked busy: the second file opened is the first one, and
    what the first reader reads then is the second text. *)
Example proc_files_collide :
  let '(s1, a) := procfs_open 7 sched_bss 83500 P_UPTIME proc_bss in
  let '(s2, b) := procfs_open 7 sched_bss 83500 P_STATUS s1 in
  a = Some 0 /\ b = Some 0 /\ (reads PROC_DATA_LEN 0 [100] s2).2 = T_NONE.
Proof. vm_compute. split; [|split]; reflexivity. Qed.

(** A path that only begins like /sys is claimed by sysfs, which has no such file. *)
Example system_is_not_a_file : sysfs_is_path (S_SYS ++ [116; 101; 109]) = true /\ (sysfs_open 8 0 (S_SYS ++ [116; 101; 109]) sys_bss).2 = None.
Proof. vm_compute. split; reflexivity. Qed.
End Pseudo.
