(* ===== verification/Open.v ===== *)
(** Opening a file: the choice of a filesystem (src/src/kernel/fs/vfs.c,
    vfs_open_mode, vfs_open and vfs_list_dir) and the calls open and openat
    (src/src/kernel/syscall/table.c), over the models of all five filesystems. *)
From S2P Require Import Prelude Ring Cwd Sched Memory Vfs Tmpfs Printk Pseudo Keyboard Devfs Phys Vm Process VmSpace Signal Sys Ext2 Ext2Dir Ext2Demo Ext2Path SysPath.

Module Open.
Import Ext2 Ext2Demo.
Import Sched Phys Vm VmSpace Signal Sys SysPath.

Section Open.
  (** [junk] as in SysPath.v; [PROC_OPS] and [SYS_OPS] are the addresses of the
      operation tables, [boot_ms] is [sysfs_boot_ms]. *)
  Context {D : Type} {BD : BlockDev D} (junk : nat -> Z -> Z) (PROC_OPS SYS_OPS boot_ms : Z).

(** The kernel with the disk, and the state of the other filesystems. *)
Record ost := Ost { op : pst D; oproc : Pseudo.pool; osys : Pseudo.pool; otmp : Tmpfs.tmpfs; ovfs : Vfs.vfs }.

Definition on_p {A} (m : H (pst D) A) : H ost A := fun s =>
  let '(p, r) := m (op s) in (Ost p (oproc s) (osys s) (otmp s) (ovfs s), r).
Definition on_proc {A} (m : Pseudo.pool -> Pseudo.pool * A) : H ost A := fun s =>
  let '(p, a) := m (oproc s) in (Ost (op s) p (osys s) (otmp s) (ovfs s), inr a).
Definition on_sys {A} (m : Pseudo.pool -> Pseudo.pool * A) : H ost A := fun s =>
  let '(p, a) := m (osys s) in (Ost (op s) (oproc s) p (otmp s) (ovfs s), inr a).
Definition on_tmp {A} (m : Tmpfs.tmpfs -> Tmpfs.tmpfs * A) : H ost A := fun s =>
  let '(p, a) := m (otmp s) in (Ost (op s) (oproc s) (osys s) p (ovfs s), inr a).
Definition on_vfs {A} (m : Vfs.vfs -> Vfs.vfs * A) : H ost A := fun s =>
  let '(p, a) := m (ovfs s) in (Ost (op s) (oproc s) (osys s) (otmp s) p, inr a).

(** The file objects, by the pool they lie in. *)
Inductive opened := ODev (d : Devfs.dev) | OProc (k : Z) | OSys (k : Z) | OExt (k : Z) | OTmp (k : Z).

Definition set_errno (e : Z) : H ost unit := on_vfs (fun v => (Vfs.VfsSt (Vfs.fd_table v) (Vfs.fd_owner v) e, tt)).

(** With O_CREAT, a path that is not there is created with the mode given, if
    its directory is there; [true]: the caller may not. *)
Definition create_missing (path : list Z) (mode : Z) : H (pst D) bool :=
  let* found := on_fs (Ext2Dir.ext2_lookup_path path) in
  match found with
  | Some _ => hret false
  | None =>
      match Ext2Dir.split_last path with
      | None => hret false
      | Some (parent, name) =>
          if bool_decide (name = []) || (256 <=? Z.of_nat (length parent)) then hret false else
          let* dir := on_fs (Ext2Dir.ext2_lookup_path (if bool_decide (parent = []) then [47] else parent)) in
          match dir with
          | None => hret false
          | Some ino =>
              let* perm := dir_write_perm ino in
              if perm <? 0 then hret true else
              do* on_fs (Ext2Dir.ext2_create_file ino name (Z.land mode 0x0FFF)) in hret false
          end
      end
  end.

(** [vfs_check_perm] on the object in slot [k] of the ext2 pool. *)
Definition check_perm (k flags : Z) : H (pst D) Z :=
  let* x := get (fun s => Ext2Dir.pool_get (pf s) k) in
  let* i := on_fs (Ext2.ext2_read_inode (u32 (Vfs.f_private x))) in
  let* c := get (fun s => cred_of (ks (pk s))) in
  hret (Vfs.vfs_check_perm (perm_of <$> i) c flags).

Definition close_ext (k : Z) : H (pst D) unit := modify (fun s => Pst (pk s) (Vfs.vfs_close (FO := Ext2Dir.ext2_files) (Some k) (pf s)).1).

Definition open_disk (path : list Z) (flags : Z) : H ost (option opened) :=
  let* f := on_p (on_fs (Ext2Dir.ext2_open path flags)) in
  match f with
  | None => let* t := on_tmp (Tmpfs.tmpfs_open path) in hret (OTmp <$> t)
  | Some k =>
      let* r := on_p (check_perm k flags) in
      if r <? 0 then do* on_p (close_ext k) in do* set_errno Vfs.EACCES in hret None
      else hret (Some (OExt k))
  end.

(** [ms] is [timer_ms()]. *)
Definition vfs_open_mode (ms : Z) (path : list Z) (flags mode : Z) : H ost (option opened) :=
  do* set_errno 0 in
  match Devfs.devfs_open path flags with
  | Some d => hret (Some (ODev d))
  | None =>
      if Pseudo.procfs_is_path path then
        let* sch := get (fun s => ks (pk (op s))) in
        let* k := on_proc (Pseudo.procfs_open PROC_OPS sch ms path) in hret (OProc <$> k)
      else if Pseudo.sysfs_is_path path then
        let* k := on_sys (Pseudo.sysfs_open SYS_OPS boot_ms path) in hret (OSys <$> k)
      else
        let* denied := if Z.land flags Vfs.O_CREAT =? 0 then hret false else on_p (create_missing path mode) in
        if denied : bool then do* set_errno Vfs.EACCES in hret None else open_disk path flags
  end.

Definition vfs_open (ms : Z) (path : list Z) (flags : Z) : H ost (option opened) := vfs_open_mode ms path flags 0x01FF.

(** The bytes left in the buffer and the result. *)
Definition vfs_list_dir (path : list Z) (max : Z) : H ost (option (list Z * Z)) :=
  if Pseudo.procfs_is_path path then hret (Pseudo.procfs_list path max)
  else if Pseudo.sysfs_is_path path then hret (Pseudo.sysfs_list path max)
  else let* o := on_p (on_fs (Ext2Dir.ext2_list path max)) in 
    hret ((fun l => let pos := Z.of_nat (length l) in (if pos <? max then l ++ [0] else l, pos)) <$> o).

(** ** open and openat *)

(** [addr] gives the address of a file object. *)
Context (addr : opened -> Z).

Definition relative (path : list Z) : bool := negb (Paths.Paths.absolute path).

(** From the path on, common to both calls. *)
Definition open_path (ms : Z) (path : list Z) (flags mode : Z) : H ost Z :=
  let* o := vfs_open_mode ms path flags mode in
  match o with
  | None =>
      let* e := get (fun s => Vfs.vfs_open_errno (ovfs s)) in
      hret (if e =? -13 then err 13 else err 2)
  | Some f =>
      let* owner := get (fun s => Process.current_pid (ks (pk (op s)))) in
      let* fd := on_vfs (Vfs.vfs_fd_alloc owner (addr f)) in
      hret (if fd <? 0 then err 24 else fd)
  end.

Definition sys_open (ms path flags mode : Z) : H ost Z :=
  let* p := on_p (me_path (err 14)) in
  let* pathbuf := on_p (take_path p.2 path 95) in
  let* path' := if relative pathbuf then on_p (resolve_for junk p.1 pathbuf) else hret pathbuf in
  open_path ms path' flags mode.

(** [name_of] gives the name recorded in the file a descriptor stands for. *)
Definition sys_openat (name_of : Z -> option (list Z)) (ms dirfd path flags mode : Z) : H ost Z :=
  let* p := on_p (me_path (err 14)) in
  let* pathbuf := on_p (take_path p.2 path 95) in
  let* x := on_p (task_at p.1) in
  let base := cwd_of x in
  let* base :=
    (if i32 dirfd =? AT_FDCWD then hret base else
     let* name := check_some (name_of (i32 dirfd)) (err 9) in
     do* check (negb (bool_decide (name = []))) (err 20) in
     hret (if relative name then Cwd.cwd_resolve junk base name 96 else name)) in
  open_path ms (if relative pathbuf then Cwd.cwd_resolve junk base pathbuf 96 else pathbuf) flags mode.
End Open.
Arguments ost D : clear implicits.

(** ** What a successful open guarantees *)
Lemma hbind_inr {S A B} (m : H S A) (k : A -> H S B) s s' b : hbind m k s = (s', inr b) -> exists s1 a, m s = (s1, inr a) /\ k a s1 = (s', inr b).
Proof. unfold hbind. destruct (m s) as [s1 [r|a]]; [done|]. intros E. by exists s1, a. Qed.

(** A handler whose early returns are error codes. *)
Definition fails_high {S A} (m : H S A) : Prop := forall s s' r, m s = (s', inl (Ret r)) -> 2 ^ 63 <= r.

Section High.
  Context {S : Type}.
Lemma high_ret {A} (a : A) : fails_high (hret a : H S A).
Proof. by intros s s' r. Qed.
Lemma high_get {A} (f : S -> A) : fails_high (get f).
Proof. by intros s s' r. Qed.
Lemma high_check b e : 2 ^ 63 <= e -> fails_high (check b e : H S unit).
Proof. intros He s s' r. destruct b; [done|]. by intros [= _ <-]. Qed.
Lemma high_some {A} (o : option A) e : 2 ^ 63 <= e -> fails_high (check_some o e : H S A).
Proof. intros He s s' r. destruct o; [done|]. by intros [= _ <-]. Qed.
Lemma high_bind {A B} (m : H S A) (k : A -> H S B) : fails_high m -> (forall a, fails_high (k a)) -> fails_high (hbind m k).
Proof.
  intros Hm Hk s s' r. unfold hbind. specialize (Hm s). destruct (m s) as [s1 [e|a]]; [|apply Hk].
  intros [= _ ->]. by apply (Hm s1).
Qed.
Lemma high_never {A} (m : H S A) : (forall s, exists s' a, m s = (s', inr a)) -> fails_high m.
Proof. intros Hm s s' r E. destruct (Hm s) as (s1 & a & E'). congruence. Qed.
End High.

Section Granted.
  Context {D : Type} {BD : BlockDev D} (junk : nat -> Z -> Z) (PROC_OPS SYS_OPS boot_ms : Z) (addr : opened -> Z).

Lemma on_p_inr {A} (m : H (pst D) A) (s s' : ost D) a : on_p m s = (s', inr a) ->
  m (op s) = (op s', inr a) /\ oproc s' = oproc s /\ osys s' = osys s /\ otmp s' = otmp s /\ ovfs s' = ovfs s.
Proof. unfold on_p. destruct (m (op s)) as [p r]. intros [= <- ->]. done. Qed.
Lemma high_on_p {A} (m : H (pst D) A) : fails_high m -> fails_high (on_p m).
Proof. intros Hm s s' r. unfold on_p. destruct (m (op s)) as [p x] eqn:E. intros [= _ ->]. by eapply Hm. Qed.
Lemma high_fs {A} (m : Ext2.M D A) : fails_high (on_fs m).
Proof. apply high_never. intros s. unfold on_fs. destruct (m _) as [f o]. by eexists _, _. Qed.
Lemma high_vfs {A} (m : Vfs.vfs -> Vfs.vfs * A) : fails_high (on_vfs m : H (ost D) A).
Proof. apply high_never. intros s. unfold on_vfs. destruct (m _) as [f o]. by eexists _, _. Qed.
Lemma high_proc {A} (m : Pseudo.pool -> Pseudo.pool * A) : fails_high (on_proc m : H (ost D) A).
Proof. apply high_never. intros s. unfold on_proc. destruct (m _) as [f o]. by eexists _, _. Qed.
Lemma high_sys {A} (m : Pseudo.pool -> Pseudo.pool * A) : fails_high (on_sys m : H (ost D) A).
Proof. apply high_never. intros s. unfold on_sys. destruct (m _) as [f o]. by eexists _, _. Qed.
Lemma high_tmp {A} (m : Tmpfs.tmpfs -> Tmpfs.tmpfs * A) : fails_high (on_tmp m : H (ost D) A).
Proof. apply high_never. intros s. unfold on_tmp. destruct (m _) as [f o]. by eexists _, _. Qed.
Lemma high_modify {S} (f : S -> S) : fails_high (modify f).
Proof. by intros s s' r. Qed.
Lemma high_on_k {A} (m : H kst A) : fails_high m -> fails_high (on_k m : H (pst D) A).
Proof. intros Hm s s' r. unfold on_k. destruct (m (pk s)) as [p x] eqn:E. intros [= _ ->]. by eapply Hm. Qed.

Lemma high_strncpy n : forall mm a, fails_high (strncpy_in n mm a (err 14)).
Proof.
  induction n as [|n IH]; intros mm a; cbn [strncpy_in]; [apply high_ret|]. unfold take_in.
  repeat first [apply high_ret | apply high_get | apply high_some; done | apply IH | apply high_bind; [|intros ?] | case_match].
Qed.

Ltac high :=
  repeat first
    [ apply high_ret | apply high_get | apply high_modify | apply high_check; done | apply high_some; done | apply high_vfs | apply high_proc | apply high_sys | apply high_tmp
    | apply high_fs | apply high_strncpy | apply high_on_p | apply high_on_k | apply high_bind; [|intros ?]
    | match goal with |- fails_high (match ?o with _ => _ end) => destruct o end ].

Lemma high_open ms path flags mode : fails_high (open_path PROC_OPS SYS_OPS boot_ms addr ms path flags mode : H (ost D) Z).
Proof. unfold open_path, vfs_open_mode, open_disk, create_missing, check_perm, close_ext, set_errno, dir_write_perm. high. Qed.
Lemma high_sys_open ms path flags mode : fails_high (sys_open junk PROC_OPS SYS_OPS boot_ms addr ms path flags mode : H (ost D) Z).
Proof.
  unfold sys_open. apply high_bind; [unfold me_path, me_mm, me, task_of; high|intros p].
  apply high_bind; [unfold take_path, exec_strncpy_from_user; high|intros b].
  apply high_bind; [unfold resolve_for, task_at, task_of; high|intros q]. apply high_open.
Qed.

(** The caller with ids [c] may use the file of inode [i] as [flags] say. *)
Definition allowed (c : Vfs.cred) (i : Vfs.perm_inode) (flags : Z) : Prop :=
  Vfs.euid c = 0 \/
  (Vfs.wants_read flags -> Z.testbit (Vfs.perm_bits c i) 2 = true) /\
  (Vfs.wants_write flags -> Z.testbit (Vfs.perm_bits c i) 1 = true).

(** The inode that was read last, of the object in slot [k], lets the caller in. *)
Definition granted_open (s : ost D) (k flags : Z) : Prop :=
  exists f0, pf (op s) = (Ext2.ext2_read_inode (u32 (Vfs.f_private (Ext2Dir.pool_get f0 k))) f0).1 /\
  forall i c, (Ext2.ext2_read_inode (u32 (Vfs.f_private (Ext2Dir.pool_get f0 k))) f0).2 = Some i -> cred_of (ks (pk (op s))) = Some c ->
    allowed c (perm_of i) flags.

Lemma check_allowed i c flags : 0 <= Vfs.vfs_check_perm (Some i) (Some c) flags -> allowed c i flags.
Proof.
  intros Hp. pose proof (Vfs.vfs_check_perm_spec i c flags) as (H1 & _). unfold allowed, Vfs.EACCES in *.
  destruct (Z.eq_dec (Vfs.euid c) 0) as [|Hne]; [by left|right].
  assert (Hno : ~ (Vfs.wants_read flags /\ Z.testbit (Vfs.perm_bits c i) 2 = false \/ Vfs.wants_write flags /\ Z.testbit (Vfs.perm_bits c i) 1 = false)).
  { intros Hx. assert (Ex : Vfs.vfs_check_perm (Some i) (Some c) flags = -13) by (apply H1; by split). lia. }
  split; intros Hw; apply not_false_is_true; intros E; apply Hno; [left|right]; done.
Qed.

Definition same_fds (v v' : Vfs.vfs) : Prop := Vfs.fd_table v' = Vfs.fd_table v /\ Vfs.fd_owner v' = Vfs.fd_owner v.

Lemma set_errno_inr e (s s' : ost D) u : set_errno e s = (s', inr u) -> op s' = op s /\ same_fds (ovfs s) (ovfs s').
Proof. unfold set_errno, on_vfs. intros [= <- _]. done. Qed.

Lemma check_perm_inr k flags (s s' : pst D) r : check_perm k flags s = (s', inr r) -> pk s' = pk s /\
  exists f0, pf s' = (Ext2.ext2_read_inode (u32 (Vfs.f_private (Ext2Dir.pool_get f0 k))) f0).1 /\
    r = Vfs.vfs_check_perm (perm_of <$> (Ext2.ext2_read_inode (u32 (Vfs.f_private (Ext2Dir.pool_get f0 k))) f0).2) (cred_of (ks (pk s))) flags.
Proof.
  unfold check_perm. autorewrite with handler. unfold on_fs, hbind at 1. set (f0 := pf s <| creator := _ |>).
  change (Ext2Dir.pool_get (pf s) k) with (Ext2Dir.pool_get f0 k). destruct (Ext2.ext2_read_inode _ f0) as [f1 o] eqn:E.
  autorewrite with handler. intros [= <- <-]. split; [done|]. exists f0. by rewrite E.
Qed.

(** What the choice of a filesystem leaves untouched, and what it has checked. *)
Definition open_ok (s s' : ost D) (flags : Z) (f : opened) : Prop :=
  match f with
  | ODev _ | OProc _ | OSys _ => op s' = op s
  | OExt k => granted_open s' k flags
  | OTmp _ => True
  end.

Lemma open_disk_inr path flags (s s' : ost D) o : open_disk path flags s = (s', inr o) ->
  same_fds (ovfs s) (ovfs s') /\ match o with Some (OExt k) => granted_open s' k flags | Some (OTmp _) | None => True | _ => False end.
Proof.
  unfold open_disk. intros (s1 & f & E1 & E)%hbind_inr. apply on_p_inr in E1 as (E1 & _ & _ & _ & V1). destruct f as [k|].
  - apply hbind_inr in E as (s2 & r & E2 & E). apply on_p_inr in E2 as (E2 & _ & _ & _ & V2).
    apply check_perm_inr in E2 as (Hk & f0 & Ef & Er). destruct (Z.ltb_spec r 0).
    + apply hbind_inr in E as (s3 & ? & E3 & E). apply on_p_inr in E3 as (_ & _ & _ & _ & V3).
      apply hbind_inr in E as (s4 & ? & E4 & E). apply set_errno_inr in E4 as [_ V4]. injection E as <- <-.
      split; [|done]. destruct V4 as [V4 V4']. split; congruence.
    + injection E as <- <-. split; [split; congruence|]. exists f0. split; [done|]. intros i c Ei Ec. apply check_allowed. rewrite Hk in Ec. rewrite Ei, Ec in Er. cbn [fmap option_fmap option_map] in Er. lia.
  - apply hbind_inr in E as (s2 & t & E2 & E). injection E as <- <-. unfold on_tmp in E2. destruct (Tmpfs.tmpfs_open path (otmp s1)) as [p a]. injection E2 as <- <-.
    cbn. split; [by rewrite V1|]. by destruct a.
Qed.

Lemma vfs_open_mode_inr ms path flags mode (s s' : ost D) o : vfs_open_mode PROC_OPS SYS_OPS boot_ms ms path flags mode s = (s', inr o) ->
  same_fds (ovfs s) (ovfs s') /\ match o with Some f => open_ok s s' flags f | None => True end.
Proof.
  unfold vfs_open_mode. intros (s1 & ? & E1 & E)%hbind_inr. apply set_errno_inr in E1 as [O1 V1].
  destruct (Devfs.devfs_open path flags) as [d|]; [injection E as <- <-; done|].
  destruct (Pseudo.procfs_is_path path).
  { rewrite hbind_get in E. apply hbind_inr in E as (s2 & k & E2 & E). unfold on_proc in E2. destruct (Pseudo.procfs_open _ _ _ _ _) as [p a]. injection E2 as <- <-. injection E as <- <-.
    split; [exact V1|]. destruct a; [exact O1|done]. }
  destruct (Pseudo.sysfs_is_path path).
  { apply hbind_inr in E as (s2 & k & E2 & E). unfold on_sys in E2. destruct (Pseudo.sysfs_open _ _ _ _) as [p a]. injection E2 as <- <-. injection E as <- <-.
    split; [exact V1|]. destruct a; [exact O1|done]. }
  apply hbind_inr in E as (s2 & b & E2 & E).
  assert (V2 : ovfs s2 = ovfs s1).
  { destruct (Z.land flags Vfs.O_CREAT =? 0); [by injection E2 as <- <-|]. by apply on_p_inr in E2 as (_ & _ & _ & _ & ?). }
  destruct b.
  - apply hbind_inr in E as (s3 & ? & E3 & E). apply set_errno_inr in E3 as [_ V3]. injection E as <- <-. split; [|done]. destruct V1, V3. split; congruence.
  - apply open_disk_inr in E as [V3 Hok]. destruct V1, V3. split; [split; congruence|]. by destruct o as [[]|].
Qed.

Lemma open_path_inr ms path flags mode (s s' : ost D) fd : Vfs.vfs_ok (ovfs s) -> 0 <= fd < Vfs.MAX_FDS ->
  open_path PROC_OPS SYS_OPS boot_ms addr ms path flags mode s = (s', inr fd) ->
  exists f, 3 <= fd /\ Vfs.fd_at (ovfs s) fd = None /\ Vfs.vfs_fd_get fd (ovfs s') = Some (addr f) /\
    (forall i, 0 <= i -> i <> fd -> Vfs.fd_at (ovfs s') i = Vfs.fd_at (ovfs s) i) /\ open_ok s s' flags f.
Proof.
  intros Hv Hfd (s1 & o & E1 & E)%hbind_inr. apply vfs_open_mode_inr in E1 as [[T1 T2] Hok]. unfold Vfs.MAX_FDS in Hfd.
  destruct o as [f|].
  2: { rewrite hbind_get in E. injection E as <- <-. exfalso. destruct (_ =? -13); unfold err in Hfd; lia. }
  rewrite hbind_get in E. apply hbind_inr in E as (s2 & r & E2 & E). injection E as -> Er.
  set (owner := Process.current_pid _) in E2. clearbody owner. unfold on_vfs in E2.
  assert (Hv1 : Vfs.vfs_ok (ovfs s1)) by (unfold Vfs.vfs_ok in *; by rewrite T1, T2).
  pose proof (Vfs.vfs_fd_alloc_lowest owner (addr f) (ovfs s1) Hv1) as HA. destruct (Vfs.vfs_fd_alloc owner (addr f) (ovfs s1)) as [v r'].
  injection E2 as <- ->. cbn [ovfs]. destruct HA as [(-> & _)|(Hr & Hn & _ & Hg & _ & Hrest)]; [exfalso; cbn in Er; unfold err in Er; lia|].
  rewrite (proj2 (Z.ltb_ge r 0)) in Er by lia. subst r. exists f. unfold Vfs.fd_at in *. rewrite T1 in *.
  split; [lia|]. split; [done|]. split; [done|]. split; [intros i Hi Hne; by apply Hrest|]. destruct f; done.
Qed.
End Granted.

(** C37: A file opened is a file the caller may use. When open returns a
    descriptor, it was a free one above the standard three, it now stands for
    the file opened, and no other descriptor has changed; a device or a
    generated file has been opened without touching the disk; and for a file of
    the disk the inode that was read grants the caller, by the bits of owner,
    group or others, whichever applies first, every access the flags ask for. *)
Theorem sys_open_granted {D} {BD : BlockDev D} junk PROC_OPS SYS_OPS boot_ms addr ms path flags mode (s s' : ost D) fd :
  Vfs.vfs_ok (ovfs s) -> run (sys_open junk PROC_OPS SYS_OPS boot_ms addr ms path flags mode) s = (s', Ret fd) -> 0 <= fd < Vfs.MAX_FDS ->
  exists f, 3 <= fd /\ Vfs.fd_at (ovfs s) fd = None /\ Vfs.vfs_fd_get fd (ovfs s') = Some (addr f) /\
    (forall i, 0 <= i -> i <> fd -> Vfs.fd_at (ovfs s') i = Vfs.fd_at (ovfs s) i) /\ open_ok s s' flags f.
Proof.
  intros Hv Hr Hfd. unfold run in Hr. destruct (sys_open _ _ _ _ _ _ _ _ _ s) as [s0 [st|r]] eqn:E.
  { injection Hr as -> ->. apply high_sys_open in E. unfold Vfs.MAX_FDS in Hfd. lia. }
  injection Hr as -> ->. unfold sys_open in E. apply hbind_inr in E as (s1 & p & E1 & E). apply on_p_inr in E1 as (E1 & _ & _ & _ & V1). apply me_path_inv in E1 as (P1 & _).
  apply hbind_inr in E as (s2 & b & E2 & E). apply on_p_inr in E2 as (E2 & _ & _ & _ & V2). apply take_path_inv in E2 as (P2 & _).
  apply hbind_inr in E as (s3 & q & E3 & E).
  assert (H3 : op s3 = op s2 /\ ovfs s3 = ovfs s2).
  { destruct (relative b); [|by injection E3 as <- <-]. apply on_p_inr in E3 as (E3 & _ & _ & _ & V3). split; [|done].
    unfold resolve_for, task_at, on_k, task_of in E3. cbn in E3. injection E3 as E3 _. rewrite <- E3. by destruct (op s2). }
  destruct H3 as [P3 V3]. assert (Vs : ovfs s3 = ovfs s) by congruence. assert (Ps : op s3 = op s) by congruence.
  apply open_path_inr in E; [|by rewrite Vs|done]. destruct E as (f & H1 & H2 & H4 & H5 & H6). rewrite Vs in *. exists f. do 4 (split; [done|]).
  destruct f; cbn in *; congruence.
Qed.

(** ** A concrete run: user 1000 opens the root directory for reading *)
Definition ex_fs : Ext2.fs (list Z) := Ext2Path.rooted <| ext2_file_pool := replicate 64 Vfs.file0 |> <| ext2_file_pool_used := replicate 64 0 |>.
Definition ex_open (uid : Z) (path : list Z) : ost (list Z) :=
  Ost (Pst (Kst (mod_task 1 (fun x => x <| mm_context := Some ex_ctx |> <| Sched.euid := uid |>) ex_running)
              (ex_user <| pmem := st_bytes (pmem ex_user) 0x100000 (path ++ [0]) |>) (SigGlob 0 0 0 0 0 0 0 0 0 [])) ex_fs)
    Pseudo.proc_bss Pseudo.sys_bss Tmpfs.tmpfs_bss Vfs.vfs_bss.
Definition ex_addr (f : opened) : Z := match f with ODev _ => 1 | OProc k => 0x100 + k | OSys k => 0x200 + k | OExt k => 0x300 + k | OTmp k => 0x400 + k end.
Definition ex_sys_open (flags mode : Z) (s : ost (list Z)) := run (sys_open (fun _ _ => 0) 7 8 0 ex_addr 0 0xFFFFFFFFF000 flags mode) s.

Lemma pair_snd {A B} (r : A * B) b : r.2 = b -> r = (r.1, b).
Proof. destruct r. by intros <-. Qed.
#[local] Opaque run sys_open.

Lemma sys_open_granted_witness :
  let r := ex_sys_open 0 0 (ex_open 1000 [47]) in
  r.2 = Ret 3 /\ exists f, Vfs.vfs_fd_get 3 (ovfs r.1) = Some (ex_addr f) /\ open_ok (ex_open 1000 [47]) r.1 0 f.
Proof.
  intros r. assert (Er : r.2 = Ret 3) by (vm_compute; reflexivity). split; [exact Er|].
  destruct (sys_open_granted (fun _ _ => 0) 7 8 0 ex_addr 0 0xFFFFFFFFF000 0 0 (ex_open 1000 [47]) r.1 3) as (f & _ & _ & H1 & _ & H2).
  - split; reflexivity.
  - exact (pair_snd _ _ Er).
  - unfold Vfs.MAX_FDS. lia.
  - exists f. split; [exact H1|exact H2].
Defined.

(** ** Behaviours behind the findings *)

(** root creates /d with mode 0644 and stores three bytes; user 1000 opens it
    for writing with O_TRUNC: the call is refused, and the file is empty. *)
Definition ex_owned : ost (list Z) :=
  let s := (ex_sys_open (Z.lor 1 Vfs.O_CREAT) 0x1A4 (ex_open 0 [47; 100])).1 in
  let p := op s in
  Ost (Pst (Kst (mod_task 1 (fun x => x <| Sched.euid := 1000 |>) (ks (pk p))) (kv (pk p)) (kg (pk p)))
         (Ext2.ext2_write_file (Vfs.f_inode (Ext2Dir.pool_get (pf p) 0)) 0 [104; 105; 10] (pf p)).1) (oproc s) (osys s) (otmp s) (ovfs s).
Definition size_of_d (s : ost (list Z)) : option Z := (Ext2.ext2_inode_size (Vfs.f_inode (Ext2Dir.pool_get (pf (op s)) 0)) (pf (op s))).2.

Example truncated_before_refused :
  let r := ex_sys_open (Z.lor 1 Vfs.O_TRUNC) 0 ex_owned in
  size_of_d ex_owned = Some 3 /\ r.2 = Ret (err 13) /\ size_of_d r.1 = Some 0.
Proof. vm_compute. split; [|split]; reflexivity. Qed.
End Open.
