(* ===== verification/Stat.v ===== *)
(** stat, fstat, access and their variants, ftruncate and getdents64
    (src/src/kernel/syscall/table.c).

    These calls read the path and store the answer through the user's pointers
    without a check: the path is an argument, and the bytes stored (when the
    pointer is not null) are part of the result. *)
From S2P Require Import Prelude Ring Sched Memory Vfs Tmpfs Printk Pseudo Keyboard Devfs Phys Vm VmSpace Process Signal Sys Ext2 Ext2Dir Ext2Demo Ext2Path SysPath Open.

Module Stat.
Import Vfs Tmpfs.
Import Ext2 Ext2Demo.
Import Sched Phys Vm VmSpace Signal Sys SysPath Open.

(** struct stat: 18 words. *)
Definition fill_stat (ino size mode : Z) : list Z :=
  words_bytes ([0; ino; 1; Z.lor mode 0x1FF; 0; 0; size; 1024; u64 (size + 511) / 512] ++ replicate 9 0).

Definition S_IFCHR : Z := 0x2000.
Definition S_IFREG : Z := 0x8000.

Section Stat.
  Context {D : Type} {BD : BlockDev D} (PROC_OPS SYS_OPS boot_ms : Z).

Definition dev_inode (d : Devfs.dev) : Z := Vfs.f_inode (Devfs.devfs_init (fun _ => 0) d Vfs.file0).

(** A generated file is opened and closed again. *)
Definition stat_pool (open : Pseudo.pool -> Pseudo.pool * option Z) (close : Z -> Pseudo.pool -> Pseudo.pool)
    (p : Pseudo.pool) : Pseudo.pool * option (list Z) :=
  match open p with
  | (p1, None) => (p1, None)
  | (p1, Some k) =>
      let f := aget (Pseudo.files p1) k in (close k p1, Some (fill_stat (Vfs.f_inode f) (Vfs.f_size f) S_IFREG))
  end.

Definition stat_disk (p : list Z) : H (pst D) (Z + list Z) :=
  let* found := on_fs (Ext2Dir.ext2_lookup_path p) in
  match found with
  | None => hret (inl (-2))
  | Some ino =>
      let* type := on_fs (Ext2.ext2_inode_type ino) in
      let* sz := on_fs (Ext2.ext2_inode_size ino) in
      let type := default 0 type in
      hret (inr (fill_stat ino (default 0 sz) (if type =? 0 then S_IFREG else type)))
  end.

(** An error code or the bytes stored. *)
Definition stat_path (ms : Z) (p : list Z) : H (ost D) (Z + list Z) :=
  match Devfs.devfs_open p 0 with
  | Some d => hret (inr (fill_stat (dev_inode d) 0 S_IFCHR))
  | None =>
      let* t := on_tmp (Tmpfs.tmpfs_open p) in
      match t with
      | Some k =>
          let* f := get (fun s => aget (Tmpfs.file_pool (otmp s)) k) in
          hret (inr (fill_stat (Vfs.f_inode f) (Vfs.f_size f) S_IFREG))
      | None =>
          let* sch := get (fun s => ks (pk (op s))) in
          let* a := if Pseudo.procfs_is_path p then on_proc (stat_pool (Pseudo.procfs_open PROC_OPS sch ms p) Pseudo.proc_close) else hret None in
          match a with
          | Some bytes => hret (inr bytes)
          | None =>
              let* b := if Pseudo.sysfs_is_path p then on_sys (stat_pool (Pseudo.sysfs_open SYS_OPS boot_ms p) Pseudo.sys_close) else hret None in
              match b with
              | Some bytes => hret (inr bytes)
              | None => on_p (stat_disk p)
              end
          end
      end
  end.

Definition result_of (r : Z + list Z) : Z * list Z := match r with inl e => (u64 e, []) | inr bytes => (0, bytes) end.

Definition sys_stat (ms : Z) (path : list Z) : H (ost D) (Z * list Z) := let* r := stat_path ms path in hret (result_of r).
Definition sys_lstat (ms : Z) (path : list Z) : H (ost D) (Z * list Z) := sys_stat ms path.
Definition sys_access (ms : Z) (path : list Z) (mode : Z) : H (ost D) Z := let* r := stat_path ms path in hret (result_of r).1.
Definition sys_faccessat (ms dirfd : Z) (path : list Z) (mode : Z) : H (ost D) Z := sys_access ms path mode.
Definition sys_faccessat2 (ms : Z) (path : list Z) (mode : Z) : H (ost D) Z := sys_access ms path mode.

(** [file_of] gives the object behind a descriptor. *)
Definition fstat_mode (f : Vfs.file_t) : Z :=
  let t := Vfs.f_type f in
  if (t =? EXT2_S_IFDIR) || (t =? EXT2_S_IFREG) || (t =? EXT2_S_IFLNK) then t
  else if (1 <=? Vfs.f_inode f) && (Vfs.f_inode f <=? 3) then S_IFCHR else S_IFREG.

Definition sys_fstat (file_of : Z -> option Vfs.file_t) (fd : Z) : H (ost D) (Z * list Z) :=
  match file_of (i32 fd) with
  | None => hret (err 9, [])
  | Some f => hret (0, fill_stat (Vfs.f_inode f) (Vfs.f_size f) (fstat_mode f))
  end.

(** [path]: [None] is the null pointer. *)
Definition sys_newfstatat (file_of : Z -> option Vfs.file_t) (ms dirfd : Z) (path : option (list Z)) : H (ost D) (Z * list Z) :=
  match path with
  | None | Some [] => sys_fstat file_of dirfd
  | Some p => if negb (i32 dirfd =? AT_FDCWD) then hret (err 38, []) else sys_stat ms p
  end.
End Stat.

(** ** Descriptors of disk files: any [FileOps] may provide the objects *)
Section Files.
  Context {D : Type} {BD : BlockDev D} {FO : Vfs.FileOps (Ext2.fs D)} (get_fd : Z -> option Z).

Definition file_in (s : pst D) (f : Z) : Vfs.file_t := Vfs.file_at (pf s) f.
Definition update_file (f : Z) (g : Vfs.file_t -> Vfs.file_t) : H (pst D) unit :=
  modify (fun s => Pst (pk s) (Vfs.set_file f (g (file_in s f)) (pf s))).

Definition sys_ftruncate (fd : Z) : H (pst D) Z :=
  let* f := check_some (get_fd (i32 fd)) (err 9) in
  let* x := get (fun s => file_in s f) in
  let ino := u32 (Vfs.f_private x) in
  do* check (negb (ino =? 0)) (err 22) in
  do* fs_or (Ext2.ext2_truncate ino) (err 22) in
  do* update_file f (fun x => x <| Vfs.f_size := 0 |>) in hret 0.

(** The entries are stored at [dirp]. *)
Definition sys_getdents64 (fd count : Z) : H (pst D) (Z * list Ext2Dir.linux_dirent64) :=
  let* f := check_some (get_fd (i32 fd)) (err 9) in
  let* x := get (fun s => file_in s f) in
  do* check (Vfs.f_type x =? EXT2_S_IFDIR) (err 20) in
  let* d := fs_or (Ext2Dir.ext2_getdents (u32 (Vfs.f_private x)) (Vfs.f_offset x) count) (err 21) in
  do* update_file f (fun x => x <| Vfs.f_offset := Ext2Dir.entry_off d |>) in hret (Ext2Dir.written d, Ext2Dir.stored d).
End Files.

(** ** Behaviours behind the findings *)

(** The file /t in tmpfs is asked for seventeen times: the seventeenth time it
    is not there, since every stat takes one of the sixteen file objects. *)
Definition ex_tmp : ost (list Z) :=
  let s := ex_open 0 [47; 116] in
  Ost (op s) (oproc s) (osys s) (Tmpfs.tmpfs_create_file [47; 116] 0x5000 3 (Tmpfs.tmpfs_init Tmpfs.tmpfs_bss)).1 (ovfs s).
Definition stat_t (s : ost (list Z)) := sys_access 7 8 0 0 [47; 116] 0 s.

Example stat_uses_up_files :
  let s16 := foldl (fun s _ => (stat_t s).1) ex_tmp (zrange 16) in
  (stat_t ex_tmp).2 = inr 0 /\ (stat_t s16).2 = inr (err 2).
Proof. vm_compute. split; reflexivity. Qed.
End Stat.
