(* ===== verification/Users.v ===== *)
(** The user table (src/src/kernel/syscall/table.c, parse_dec, field_at and
    users_init): user and group numbers of root and banana from /etc/passwd. *)
From S2P Require Import Prelude Printk Paths Pseudo.

Module Users.

(** A string ends where the list does: the byte after it is no digit. *)
Fixpoint parse_dec_from (v : Z) (s : list Z) : Z :=
  match s with
  | [] => v
  | c :: s' => if (48 <=? c) && (c <=? 57) then parse_dec_from (u32 (u32 (v * 10) + (c - 48))) s' else v
  end.
Definition parse_dec (s : list Z) : Z := parse_dec_from 0 s.

(** Up to the first [c] ([nl] or ':'), and what follows it. *)
Fixpoint until (c : Z) (s : list Z) : list Z * option (list Z) :=
  match s with
  | [] => ([], None)
  | x :: s' => if x =? c then ([], Some s') else let '(a, b) := until c s' in (x :: a, b)
  end.

(** [line] is what lies before [nl]; the field runs to its end. *)
Fixpoint field_from (idx : nat) (line : list Z) : option (list Z) :=
  match line with
  | [] => None
  | _ =>
      match idx with
      | O => Some line
      | S idx' => match (until 58 line).2 with None => None | Some rest => field_from idx' rest end
      end
  end.
Definition field_at (line : list Z) (idx : nat) : option (list Z) := field_from idx line.

Record users := Users { g_root_uid : Z; g_root_gid : Z; g_default_uid : Z; g_default_gid : Z }.

(** "root:" and "banana:" *)
Definition ROOT : list Z := [114; 111; 111; 116].
Definition BANANA : list Z := [98; 97; 110; 97; 110; 97].

Definition user_line (line : list Z) (u : users) : users :=
  match field_at line 2, field_at line 3 with
  | Some uidf, Some gidf =>
      if Pseudo.str_begins line (ROOT ++ [58]) then
        Users (parse_dec uidf) (parse_dec gidf) (g_default_uid u) (g_default_gid u)
      else if Pseudo.str_begins line (BANANA ++ [58]) then
        Users (g_root_uid u) (g_root_gid u) (parse_dec uidf) (parse_dec gidf)
      else u
  | _, _ => u
  end.

(** Each turn takes a line out of the buffer. *)
Fixpoint user_lines (n : nat) (buf : list Z) (u : users) : users :=
  match n, buf with
  | S n', _ :: _ =>
      let '(line, rest) := until 10 buf in
      match rest with None => user_line line u | Some r => user_lines n' r (user_line line u) end
  | _, _ => u
  end.

(** [content] is what /etc/passwd holds, [None] when it cannot be opened; the
    first 511 bytes are read. *)
Definition users_init (content : option (list Z)) : users :=
  let u := Users 0 0 0 0 in
  match content with None => u | Some file => let buf := take 511 file in user_lines (length buf) buf u end.

(** ** The file format *)
Record account := Account { a_name : list Z; a_pass : list Z; a_uid : Z; a_gid : Z; a_rest : list Z }.

Definition plain (s : list Z) : Prop := (10 ∉ s) /\ (58 ∉ s).
Record account_ok (a : account) : Prop := {
  ao_name : plain (a_name a);
  ao_pass : plain (a_pass a);
  ao_uid : 0 <= a_uid a < 2 ^ 32;
  ao_gid : 0 <= a_gid a < 2 ^ 32;
  ao_rest : 10 ∉ a_rest a
}.

(** name:password:uid:gid:rest *)
Definition account_line (a : account) : list Z :=
  a_name a ++ 58 :: a_pass a ++ 58 :: Pseudo.decimal (a_uid a) ++ 58 :: Pseudo.decimal (a_gid a) ++ 58 :: a_rest a.
Definition passwd (l : list account) : list Z := concat ((fun a => account_line a ++ [10]) <$> l).

(** The last account of a name. *)
Definition find_user (name : list Z) (l : list account) : option account := last (filter (fun a => a_name a = name) l).

(** ** Numbers *)
Lemma decimal_digits v : 0 <= v < 2 ^ 64 -> exists ds, Pseudo.decimal v = Z.add 48 <$> ds /\ Printk.value 10 ds = v /\ Forall (fun d => 0 <= d < 10) ds /\ ds <> [].
Proof.
  intros Hv. destruct (Printk.digits_spec 10 v ltac:(lia) Hv) as (H1 & H2 & H3 & _). exists (Printk.digits 10 v). split; [reflexivity|]. split; [exact H1|]. split; [exact H2|exact H3].
Qed.

Lemma value_le ds : forall v, 0 <= v -> Forall (fun d => 0 <= d < 10) ds -> v <= foldl (fun acc d => acc * 10 + d) v ds.
Proof.
  induction ds as [|d ds IH]; intros v Hv HF; cbn [foldl]; [done|]. apply Forall_cons in HF as [Hd HF].
  pose proof (IH (v * 10 + d) ltac:(lia) HF). lia.
Qed.

Lemma parse_digits ds : forall v rest, Forall (fun d => 0 <= d < 10) ds -> 0 <= v -> foldl (fun acc d => acc * 10 + d) v ds < 2 ^ 32 ->
  parse_dec_from v ((Z.add 48 <$> ds) ++ 58 :: rest) = foldl (fun acc d => acc * 10 + d) v ds.
Proof.
  induction ds as [|d ds IH]; intros v rest HF Hv Hlt; [done|]. apply Forall_cons in HF as [Hd HF]. cbn [foldl] in *.
  pose proof (value_le ds (v * 10 + d) ltac:(lia) HF). cbn [fmap list_fmap app parse_dec_from].
  rewrite (proj2 (Z.leb_le 48 (48 + d))), (proj2 (Z.leb_le (48 + d) 57)) by lia. cbn [andb].
  replace (48 + d - 48) with d by lia. rewrite (u32_small (v * 10)), u32_small by lia. apply IH; [done|lia|done].
Qed.

Lemma parse_decimal v rest : 0 <= v < 2 ^ 32 -> parse_dec (Pseudo.decimal v ++ 58 :: rest) = v.
Proof.
  intros Hv. destruct (decimal_digits v ltac:(lia)) as (ds & -> & E & HF & _). unfold Printk.value in E.
  unfold parse_dec. rewrite parse_digits; [done|done|lia|lia].
Qed.

Lemma decimal_plain v : 0 <= v < 2 ^ 64 -> plain (Pseudo.decimal v) /\ Pseudo.decimal v <> [].
Proof.
  intros Hv. destruct (decimal_digits v Hv) as (ds & -> & _ & HF & Hne). split; [|by destruct ds]. rewrite Forall_forall in HF.
  split; intros (d & E & Hd)%list_elem_of_fmap; apply HF in Hd; lia.
Qed.

(** ** Fields and lines *)
Lemma until_app c s rest : c ∉ s -> until c (s ++ c :: rest) = (s, Some rest).
Proof.
  induction s as [|x s IH]; intros Hs; cbn [app until]; [by rewrite Z.eqb_refl|]. apply not_elem_of_cons in Hs as [Hx Hs].
  rewrite (proj2 (Z.eqb_neq _ _)) by congruence. by rewrite IH.
Qed.

Lemma field_next idx s rest : 58 ∉ s -> field_from (S idx) (s ++ 58 :: rest) = field_from idx rest.
Proof. intros Hs. destruct s as [|x s]; [done|]. cbn [field_from app]. change (x :: s ++ 58 :: rest) with ((x :: s) ++ 58 :: rest). by rewrite until_app. Qed.

Lemma field_here s : s <> [] -> field_from 0 s = Some s.
Proof. by destruct s. Qed.

Lemma line_fields a : account_ok a ->
  field_at (account_line a) 2 = Some (Pseudo.decimal (a_uid a) ++ 58 :: Pseudo.decimal (a_gid a) ++ 58 :: a_rest a) /\
  field_at (account_line a) 3 = Some (Pseudo.decimal (a_gid a) ++ 58 :: a_rest a).
Proof.
  intros [[_ Hn] [_ Hp] Hu Hg _]. unfold field_at, account_line. destruct (decimal_plain (a_uid a) ltac:(lia)) as [[_ Hu'] Hne]. destruct (decimal_plain (a_gid a) ltac:(lia)) as [_ Hne'].
  split.
  - rewrite (field_next 1 (a_name a)), (field_next 0 (a_pass a)) by assumption. apply field_here. intros [E _]%app_nil. exact (Hne E).
  - rewrite (field_next 2 (a_name a)), (field_next 1 (a_pass a)), (field_next 0 (Pseudo.decimal _)) by assumption.
    apply field_here. intros [E _]%app_nil. exact (Hne' E).
Qed.

(** A line begins with a name and a colon when that is its account's name. *)
Lemma begins_name a name : account_ok a -> plain name -> Pseudo.str_begins (account_line a) (name ++ [58]) = bool_decide (a_name a = name).
Proof.
  intros [[_ Hn] _ _ _ _] [_ Hname]. unfold Pseudo.str_begins, account_line. set (rest := a_pass a ++ _). clearbody rest. apply bool_decide_ext.
  rewrite length_app. cbn [length]. revert name Hname Hn. induction (a_name a) as [|x s IH]; intros [|y name] Hname Hn; cbn [app length Nat.add take].
  - done.
  - split; [|done]. intros [= -> E]. apply not_elem_of_cons in Hname. naive_solver.
  - split; [|done]. intros [= E]. subst x. apply not_elem_of_cons in Hn. naive_solver.
  - apply not_elem_of_cons in Hname as [_ Hname]. apply not_elem_of_cons in Hn as [_ Hn]. specialize (IH name Hname Hn).
    split; [intros [= -> E]; by f_equal; apply IH|intros [= -> E]]. f_equal. by apply IH.
Qed.

Lemma line_no_newline a : account_ok a -> 10 ∉ account_line a.
Proof.
  intros [[Hn _] [Hp _] Hu Hg Hr]. destruct (decimal_plain (a_uid a) ltac:(lia)) as [[Hu' _] _]. destruct (decimal_plain (a_gid a) ltac:(lia)) as [[Hg' _] _].
  unfold account_line.
  repeat first [assumption | apply not_elem_of_app; split | apply not_elem_of_cons; split; [discriminate|]].
Qed.

Ltac not_in := let H := fresh in intros H; repeat (apply elem_of_cons in H as [H|H]; [discriminate H|]); by apply elem_of_nil in H.

Lemma user_line_account a u : account_ok a ->
  user_line (account_line a) u =
  if bool_decide (a_name a = ROOT) then Users (a_uid a) (a_gid a) (g_default_uid u) (g_default_gid u)
  else if bool_decide (a_name a = BANANA) then Users (g_root_uid u) (g_root_gid u) (a_uid a) (a_gid a) else u.
Proof.
  intros Ha. destruct (line_fields a Ha) as [E2 E3]. unfold user_line. rewrite E2, E3. destruct (Ha) as [_ _ Hu Hg _].
  rewrite !begins_name, !parse_decimal; try done; split; not_in.
Qed.

(** What the accounts read so far have set. *)
Definition ids (name : list Z) (l : list account) : Z * Z := match find_user name l with Some a => (a_uid a, a_gid a) | None => (0, 0) end.
Definition users_of (l : list account) : users := Users (ids ROOT l).1 (ids ROOT l).2 (ids BANANA l).1 (ids BANANA l).2.

Lemma find_user_snoc name l a : find_user name (l ++ [a]) = if bool_decide (a_name a = name) then Some a else find_user name l.
Proof.
  unfold find_user. rewrite filter_app. cbn. case_decide; [rewrite bool_decide_eq_true_2 by done; by rewrite last_snoc|].
  rewrite bool_decide_eq_false_2 by done. by rewrite app_nil_r.
Qed.

Lemma user_lines_passwd l : forall n done_, Forall account_ok l -> (length (passwd l) <= n)%nat ->
  user_lines n (passwd l) (users_of done_) = users_of (done_ ++ l).
Proof.
  induction l as [|a l IH]; intros n done_ HF Hn; [rewrite app_nil_r; by destruct n|]. apply Forall_cons in HF as [Ha HF].
  change (passwd (a :: l)) with ((account_line a ++ [10]) ++ passwd l) in *. rewrite <- app_assoc in *. cbn [app] in *.
  rewrite length_app in Hn. cbn [length] in Hn. destruct n as [|n]; [lia|].
  assert (Estep : user_lines (S n) (account_line a ++ 10 :: passwd l) (users_of done_) = user_lines n (passwd l) (user_line (account_line a) (users_of done_))).
  { cbn [user_lines]. rewrite (until_app 10 (account_line a) (passwd l) (line_no_newline a Ha)). by destruct (account_line a). }
  rewrite Estep, user_line_account by done.
  assert (Eu : (if bool_decide (a_name a = ROOT) then Users (a_uid a) (a_gid a) (g_default_uid (users_of done_)) (g_default_gid (users_of done_))
     else if bool_decide (a_name a = BANANA) then Users (g_root_uid (users_of done_)) (g_root_gid (users_of done_)) (a_uid a) (a_gid a) else users_of done_) = users_of (done_ ++ [a])).
  { unfold users_of, ids. rewrite !find_user_snoc. case_bool_decide as H1; [rewrite (bool_decide_eq_false_2 (a_name a = BANANA)) by (rewrite H1; done); done|].
    by case_bool_decide. }
  rewrite Eu, IH by (done || lia). by rewrite <- app_assoc.
Qed.

(** C40: Reading the password file back. For any list of accounts written one a
    line in at most 511 bytes, the numbers in decimal as the kernel prints them, the user and group
    numbers of root and of banana after boot are those of the last account of
    that name, and 0 where there is none. *)
Theorem users_init_passwd l : Forall account_ok l -> (length (passwd l) <= 511)%nat ->
  users_init (Some (passwd l)) = users_of l.
Proof. intros HF Hl. unfold users_init. rewrite take_ge by done. exact (user_lines_passwd l (length (passwd l)) [] HF (le_n _)). Qed.

Definition ex_accounts : list account := [Account ROOT [120] 0 0 [47]; Account BANANA [120] 1000 100 []; Account [98] [] 7 4294967295 [58; 58]].

Lemma users_init_passwd_witness :
  users_init (Some (passwd ex_accounts)) = Users 0 0 1000 100 /\ Z.of_nat (length (passwd ex_accounts)) = 51.
Proof.
  split; [|vm_compute; reflexivity]. rewrite users_init_passwd; [vm_compute; reflexivity| |vm_compute; lia].
  repeat constructor; cbn; try lia; not_in.
Defined.

(** A number that does not fit wraps. *)
Example uid_wraps : parse_dec [52; 50; 57; 52; 57; 54; 55; 50; 57; 54] = 0.
Proof. reflexivity. Qed.
End Users.
