(* ===== verification/SysMisc.v ===== *)
(** The remaining calls of src/src/kernel/syscall/table.c (sysinfo, uname,
    gettimeofday, getrandom, ioctl, arch_prctl, select, pipe) and the table
    itself (syscall.c, syscall_table_init). *)
From Stdlib Require Import String.
From S2P Require Import Prelude Ring Sched Memory Vfs Keyboard Devfs Phys Vm VmSpace Process Signal Sys.

Module SysMisc.
Import Devfs.
Import Sched Phys Vm Signal Sys.

(** ** Calls that report on the system *)

(** [beyond] is what the stack holds behind the variable [zero], which the code
    copies from with lengths up to 24. *)
Definition sys_sysinfo (ms : Z) (beyond : list Z) (info : Z) : H kst Z :=
  let* p := me_mm (err 14) in
  let* st := get (fun s => Mm.mm_stats (pmm (kv s))) in
  let* procs := get (fun s => task_count (ks s)) in
  let '(total, _, free_pages) := st in
  let zero n := take n (le64 0 ++ beyond) in
  let out off bytes := put p.2 (u64 (info + off)) bytes (err 14) in
  do* out 0 (le64 (ms / 1000)) in
  do* out 8 (zero 24%nat) in
  do* out 32 (le64 (u64 (total * PAGE_SIZE))) in
  do* out 40 (le64 (u64 (free_pages * PAGE_SIZE))) in
  do* out 48 (zero 24%nat) in
  do* out 72 (le 2 (u16 procs)) in
  do* out 74 (le 2 0) in
  do* out 76 (zero 16%nat) in
  do* out 92 (le 4 1) in
  do* out 96 (zero 20%nat) in hret 0.

(** Calls that store through the user's pointer: the bytes are the result. *)
Definition uts_field (n : nat) (text : list Z) : list Z := take n text ++ replicate (65 - length (take n text)) 0.
Definition U_SYSNAME : list Z := [66; 97; 110; 97; 110; 97; 79; 83].
Definition U_NODENAME : list Z := [97; 120; 105; 111; 110; 45; 98; 97; 110].
Definition U_RELEASE : list Z := [53; 46; 49; 53; 46; 48; 45; 97; 120; 105; 111; 110; 0].
Definition U_VERSION : list Z := [65; 120; 105; 111; 110; 45; 66; 97; 110; 32; 118; 50; 46; 48; 46; 49].
Definition U_MACHINE : list Z := [120; 56; 54; 95; 54; 52].
Definition sys_uname : Z * list Z :=
  (0, uts_field 8 U_SYSNAME ++ uts_field 8 U_NODENAME ++ uts_field 13 U_RELEASE ++ uts_field 15 U_VERSION ++ uts_field 6 U_MACHINE).

Definition sys_gettimeofday (ms tv : Z) : Z * list Z :=
  (0, if tv =? 0 then [] else words_bytes [ms / 1000; (ms mod 1000) * 1000]).

Definition sys_getrandom (tsc count : Z) : Z * list Z :=
  (count, (fun i => u8 (Z.shiftr tsc (Z.land i 7 * 8))) <$> zrange (Z.to_nat count)).

(** ** The terminal's ioctls *)
Record tst := Tst { tk : kst; tv : Vfs.vfs; tc : Devfs.con }.
Definition on_k {A} (m : H kst A) : H tst A := fun s => let '(k, r) := m (tk s) in (Tst k (tv s) (tc s), r).
Definition on_tty (g : Devfs.con -> Devfs.con) : H tst unit := modify (fun s => Tst (tk s) (tv s) (g (tc s))).

Definition user_arg (arg : Z) : H tst Z :=
  let* mm := get (fun s => current_mm (ks (tk s))) in
  let* mm := check_some mm (err 14) in
  do* check (negb (arg =? 0)) (err 14) in hret mm.

Definition TCGETS : Z := 0x5401.
Definition TIOCGPGRP : Z := 0x540F.
Definition TIOCSPGRP : Z := 0x5410.
Definition TIOCGWINSZ : Z := 0x5413.
Definition TIOCSWINSZ : Z := 0x5414.

(** The 36 bytes of a termios: c_oflag at 4, c_lflag at 12. *)
Definition termios (lflag oflag : Z) : list Z := replicate 4 0 ++ le 4 oflag ++ replicate 4 0 ++ le 4 lflag ++ replicate 20 0.

Definition sys_ioctl (fd req arg : Z) : H tst Z :=
  let* f := get (fun s => Vfs.vfs_fd_get (i32 fd) (tv s)) in
  do* check_some f (err 9) in
  if req =? TCGETS then
    let* mm := user_arg arg in
    let* fl := get (fun s => Devfs.devfs_tty_get_flags (tc s)) in
    do* on_k (put mm arg (termios fl.1 fl.2) (err 14)) in hret 0
  else if (0x5402 <=? req) && (req <=? 0x5404) then
    let* mm := user_arg arg in
    let* oflag := on_k (take32 mm (u64 (arg + 4)) (err 14)) in
    let* lflag := on_k (take32 mm (u64 (arg + 12)) (err 14)) in
    do* on_tty (Devfs.devfs_tty_set_flags lflag oflag) in hret 0
  else if req =? TIOCGPGRP then
    let* mm := user_arg arg in
    let* pgrp := get (fun s => Devfs.devfs_tty_get_pgrp (tc s)) in
    do* on_k (put mm arg (le 4 pgrp) (err 14)) in hret 0
  else if req =? TIOCSPGRP then
    let* mm := user_arg arg in
    let* pgrp := on_k (take32 mm arg (err 14)) in
    do* on_tty (Devfs.devfs_tty_set_pgrp pgrp) in hret 0
  else if req =? TIOCGWINSZ then
    let* mm := user_arg arg in
    do* on_k (put mm arg (le 2 24 ++ le 2 80 ++ le 2 0 ++ le 2 0) (err 14)) in hret 0
  else if req =? TIOCSWINSZ then hret 0
  else hret (err 25).

(** ** select: until descriptor 0 has a key *)
Section Select.
  (** The registers that [sched_block_and_switch] saves. *)
  Context (uret saved : kctx_t).

Definition sys_select_common (i : Keyboard.input) (readfds : Z) : H tst Z :=
  let* has := (fun s => let '(k, b) := Keyboard.kbd_has_key i (Devfs.ckbd (tc s)) in
                        (Tst (tk s) (tv s) ((tc s) <| Devfs.ckbd := k |>), inr b)) in
  if negb (has : bool) then on_k (block uret saved WAIT_KBD 0) else
  let* mm := get (fun s => current_mm (ks (tk s))) in
  do* (match mm with
       | Some mm => if readfds =? 0 then hret tt else on_k (put_any mm readfds [1])
       | None => hret tt
       end) in hret 1.
Definition select_resume (t : Z) (i : Keyboard.input) (readfds : Z) : H tst Z :=
  do* on_k (modify (fun s => s <| ks := sched_resume t (ks s) |>)) in sys_select_common i readfds.
Definition sys_select (i : Keyboard.input) (nfds readfds : Z) : H tst Z := sys_select_common i readfds.
Definition sys_pselect6 (i : Keyboard.input) (nfds readfds : Z) : H tst Z := sys_select_common i readfds.
End Select.

(** ** pipe: [make] is [pipe_create_fds], the two descriptors or nothing *)
Section Pipe.
  Context {E : Type} (make : Z -> kst * E -> (kst * E) * option (Z * Z)).

Definition lift_k {A} (m : H kst A) : H (kst * E) A := fun s => let '(k, r) := m s.1 in ((k, s.2), r).
Definition pipe_with (pipefd flags : Z) : H (kst * E) Z :=
  let* mm := get (fun s => current_mm (ks s.1)) in
  let* mm := check_some mm (err 14) in
  do* check (negb (pipefd =? 0)) (err 14) in
  let* fds := (fun s => let '(s1, o) := make flags s in (s1, inr o)) in
  let* p := check_some fds (err 1) in
  do* lift_k (put mm pipefd (le 4 p.1 ++ le 4 p.2) (err 14)) in hret 0.
Definition sys_pipe (pipefd : Z) : H (kst * E) Z := pipe_with pipefd 0.
Definition sys_pipe2 (pipefd flags : Z) : H (kst * E) Z := pipe_with pipefd (Z.land flags Vfs.O_NONBLOCK).
End Pipe.

(** ** The fs and gs base registers *)
Record cpu := Cpu { csch : sched; msr_fs : Z; msr_gs : Z }.

(** The result and the word stored at [addr]. *)
Definition sys_arch_prctl (code addr : Z) (s : cpu) : cpu * Z * option Z :=
  let on_cur f := match current_task (csch s) with Some t => mod_task t f (csch s) | None => csch s end in
  if code =? 0x1001 then (Cpu (on_cur (fun x => x <| gs_base := addr |>)) (msr_fs s) addr, 0, None)
  else if code =? 0x1002 then (Cpu (on_cur (fun x => x <| fs_base := addr |>)) addr (msr_gs s), 0, None)
  else if code =? 0x1003 then if addr =? 0 then (s, err 22, None) else (s, 0, Some (msr_fs s))
  else if code =? 0x1004 then if addr =? 0 then (s, err 22, None) else (s, 0, Some (msr_gs s))
  else (s, err 22, None).

Definition syscall_restore_msrs (s : cpu) : cpu :=
  match current_task (csch s) with
  | None => s
  | Some t => Cpu (csch s) (fs_base (tget (csch s) t)) (gs_base (tget (csch s) t))
  end.

(** ** The table of calls: a handler is the name of its function *)
Definition MAX_SYSCALLS : Z := 512.
Definition syscall_table : Type := list (option string).

Definition syscall_init : syscall_table := replicate (Z.to_nat MAX_SYSCALLS) None.
Definition syscall_register (nr : Z) (handler : string) (t : syscall_table) : syscall_table :=
  if nr <? MAX_SYSCALLS then aset t nr (Some handler) else t.

(** The handler called; [None] is ENOSYS. *)
Definition syscall_dispatch (nr : Z) (t : syscall_table) : option string :=
  if MAX_SYSCALLS <=? nr then None else aget t nr.

Definition registrations : list (Z * string) :=
  [(0, "sys_read"%string); (1, "sys_write"%string); (2, "sys_open"%string); (3, "sys_close"%string);
   (4, "sys_stat"%string); (5, "sys_fstat"%string); (6, "sys_lstat"%string); (7, "sys_poll"%string);
   (8, "sys_lseek"%string); (9, "sys_mmap"%string); (10, "sys_mprotect"%string); (11, "sys_munmap"%string);
   (12, "sys_brk"%string); (13, "sys_rt_sigaction"%string); (14, "sys_rt_sigprocmask"%string);
   (15, "sys_rt_sigreturn"%string); (16, "sys_ioctl"%string); (17, "sys_pread64"%string);
   (19, "sys_readv"%string); (20, "sys_writev"%string); (21, "sys_access"%string); (22, "sys_pipe"%string);
   (23, "sys_select"%string); (24, "sys_sched_yield"%string); (28, "sys_madvise"%string);
   (32, "sys_dup"%string); (33, "sys_dup2"%string); (35, "sys_nanosleep"%string);
   (36, "sys_getitimer"%string); (37, "sys_alarm"%string); (38, "sys_setitimer"%string);
   (39, "sys_getpid"%string); (56, "sys_clone"%string); (57, "sys_fork"%string); (58, "sys_vfork"%string);
   (59, "sys_execve"%string); (60, "sys_exit"%string); (61, "sys_wait4"%string); (62, "sys_kill"%string);
   (63, "sys_uname"%string); (72, "sys_fcntl"%string); (76, "sys_truncate"%string);
   (77, "sys_ftruncate"%string); (79, "sys_getcwd"%string); (80, "sys_chdir"%string);
   (81, "sys_fchdir"%string); (82, "sys_rename"%string); (83, "sys_mkdir"%string); (84, "sys_rmdir"%string);
   (87, "sys_unlink"%string); (89, "sys_readlink"%string); (90, "sys_chmod"%string);
   (95, "sys_umask"%string); (96, "sys_gettimeofday"%string); (97, "sys_getrlimit"%string);
   (98, "sys_getrusage"%string); (99, "sys_sysinfo"%string); (102, "sys_getuid"%string);
   (104, "sys_getgid"%string); (105, "sys_setuid"%string); (106, "sys_setgid"%string);
   (107, "sys_geteuid"%string); (108, "sys_getegid"%string); (109, "sys_setpgid"%string);
   (110, "sys_getppid"%string); (111, "sys_getpgrp"%string); (112, "sys_setsid"%string);
   (121, "sys_getpgid"%string); (127, "sys_rt_sigpending"%string); (128, "sys_rt_sigtimedwait"%string);
   (131, "sys_sigaltstack"%string); (137, "sys_statfs"%string); (138, "sys_fstatfs"%string);
   (140, "sys_getpriority"%string); (141, "sys_setpriority"%string); (157, "sys_prctl"%string);
   (158, "sys_arch_prctl"%string); (160, "sys_setrlimit"%string); (201, "sys_time"%string);
   (202, "sys_futex"%string); (217, "sys_getdents64"%string); (218, "sys_set_tid_address"%string);
   (228, "sys_clock_gettime"%string); (229, "sys_clock_getres"%string); (231, "sys_exit_group"%string);
   (257, "sys_openat"%string); (262, "sys_newfstatat"%string); (263, "sys_unlinkat"%string);
   (268, "sys_fchmodat"%string); (269, "sys_faccessat"%string); (270, "sys_pselect6"%string);
   (273, "sys_mlock2"%string); (293, "sys_pipe2"%string); (302, "sys_prlimit64"%string);
   (318, "sys_getrandom"%string); (325, "sys_mlock2"%string); (334, "sys_rseq"%string);
   (439, "sys_faccessat2"%string); (29, "sys_shmget"%string); (30, "sys_shmat"%string);
   (31, "sys_shmctl"%string); (67, "sys_shmdt"%string); (41, "sys_socket"%string);
   (42, "sys_connect"%string); (43, "sys_accept"%string); (44, "sys_sendto"%string);
   (45, "sys_recvfrom"%string); (48, "sys_shutdown"%string); (49, "sys_bind"%string);
   (50, "sys_listen"%string)].
Definition syscall_table_init (t : syscall_table) : syscall_table := foldl (fun t p => syscall_register p.1 p.2 t) t registrations.

(** ** Every number reaches the handler it is registered for *)
Definition registered : gmap Z string := list_to_map registrations.
Definition agrees (nr : Z) : bool := bool_decide (syscall_dispatch nr (syscall_table_init syscall_init) = registered !! nr).

Lemma agrees_below : forallb agrees (zrange 512) = true.
Proof. vm_compute. reflexivity. Qed.

(** Dispatch is the registration table: the number of a call reaches the
    one function registered under it, later registrations never displace
    earlier ones, and every other number, however large, is ENOSYS. *)
Theorem syscall_dispatch_registered nr : 0 <= nr ->
  syscall_dispatch nr (syscall_table_init syscall_init) = registered !! nr.
Proof.
  intros Hnr. destruct (Z_lt_le_dec nr 512) as [Hlt|Hge].
  - pose proof agrees_below as H. rewrite forallb_forall in H. specialize (H nr). apply bool_decide_eq_true_1 in H; [done|].
    apply list_elem_of_In, elem_of_zrange. lia.
  - unfold syscall_dispatch. rewrite (proj2 (Z.leb_le _ _)) by (unfold MAX_SYSCALLS; lia). symmetry.
    apply not_elem_of_list_to_map_1. intros (p & -> & Hp)%list_elem_of_fmap.
    assert (Hall : forallb (fun p => p.1 <? 512) registrations = true) by (vm_compute; reflexivity).
    rewrite forallb_forall in Hall. apply list_elem_of_In in Hp. apply Hall, Z.ltb_lt in Hp. lia.
Qed.

Lemma syscall_dispatch_registered_witness :
  syscall_dispatch 57 (syscall_table_init syscall_init) = Some "sys_fork"%string /\ syscall_dispatch (2 ^ 64 - 1) (syscall_table_init syscall_init) = None.
Proof.
  split; (etransitivity; [apply syscall_dispatch_registered; lia|vm_compute; reflexivity]).
Defined.

(** ** A task keeps its base registers *)
Inductive tls_step := Prctl (code addr : Z) | Switch (t : Z).

Definition tls_run (s : cpu) (x : tls_step) : cpu :=
  match x with
  | Prctl code addr => (sys_arch_prctl code addr s).1.1
  | Switch t => Cpu (csch s <| current_task := Some t |>) (msr_fs s) (msr_gs s)
  end.

(** The base that task [t] asked for last with [code], [v] to begin with. *)
Fixpoint asked (code t cur : Z) (l : list tls_step) (v : Z) : Z :=
  match l with
  | [] => v
  | Prctl c a :: l' => asked code t cur l' (if (c =? code) && (cur =? t) then a else v)
  | Switch u :: l' => asked code t u l' v
  end.

Definition task_ids (l : list tls_step) : Prop := Forall (fun x => match x with Switch t => 0 <= t < MAX_TASKS | Prctl _ _ => True end) l.

Lemma tls_run_bases l : forall s cur, length (task_table (csch s)) = Z.to_nat MAX_TASKS -> current_task (csch s) = Some cur -> 0 <= cur < MAX_TASKS -> task_ids l ->
  forall t, 0 <= t < MAX_TASKS -> let s' := foldl tls_run s l in
  fs_base (tget (csch s') t) = asked 0x1002 t cur l (fs_base (tget (csch s) t)) /\
  gs_base (tget (csch s') t) = asked 0x1001 t cur l (gs_base (tget (csch s) t)).
Proof.
  induction l as [|x l IH]; intros s cur Hl Hc Hcur HF t Ht; [done|]. apply Forall_cons in HF as [Hx HF]. cbn [foldl].
  destruct x as [code addr|u]; cbn [asked].
  - assert (Hs : length (task_table (csch (tls_run s (Prctl code addr)))) = Z.to_nat MAX_TASKS /\ current_task (csch (tls_run s (Prctl code addr))) = Some cur /\
      fs_base (tget (csch (tls_run s (Prctl code addr))) t) = (if (code =? 0x1002) && (cur =? t) then addr else fs_base (tget (csch s) t)) /\
      gs_base (tget (csch (tls_run s (Prctl code addr))) t) = (if (code =? 0x1001) && (cur =? t) then addr else gs_base (tget (csch s) t))).
    { cbn [tls_run]. unfold sys_arch_prctl. rewrite Hc.
      assert (Hm : forall f, tget (mod_task cur f (csch s)) t = if cur =? t then f (tget (csch s) t) else tget (csch s) t).
      { intros f. unfold tget, mod_task. cbn. destruct (Z.eqb_spec cur t) as [->|Hne]; [by rewrite aget_aset_eq by lia|by rewrite aget_aset_ne by lia]. }
      destruct (Z.eqb_spec code 0x1001) as [->|H1]; [|destruct (Z.eqb_spec code 0x1002) as [->|H2]].
      - cbn [fst csch]. rewrite Hm. split; [by cbn; rewrite length_aset|]. split; [done|]. by destruct (cur =? t).
      - cbn [fst csch]. rewrite Hm. split; [by cbn; rewrite length_aset|]. split; [done|]. by destruct (cur =? t).
      - repeat case_match; done. }
    destruct Hs as (A & B & C & G). destruct (IH (tls_run s (Prctl code addr)) cur A B Hcur HF t Ht) as [H1 H2]. rewrite H1, H2, C, G. done.
  - apply (IH (tls_run s (Switch u)) u); done.
Qed.

(** Thread-local storage follows the task. Whatever tasks run and whatever
    they set with arch_prctl in between, the fs and gs base registers with
    which a task returns to user code are the ones it asked for last itself. *)
Theorem tls_follows_task s cur l t :
  length (task_table (csch s)) = Z.to_nat MAX_TASKS -> current_task (csch s) = Some cur -> 0 <= cur < MAX_TASKS -> task_ids l ->
  current_task (csch (foldl tls_run s l)) = Some t -> 0 <= t < MAX_TASKS ->
  let s' := syscall_restore_msrs (foldl tls_run s l) in
  msr_fs s' = asked 0x1002 t cur l (fs_base (tget (csch s) t)) /\ msr_gs s' = asked 0x1001 t cur l (gs_base (tget (csch s) t)).
Proof.
  intros Hl Hc Hcur HF Ht Hb. unfold syscall_restore_msrs. rewrite Ht. cbn [msr_fs msr_gs]. exact (tls_run_bases l s cur Hl Hc Hcur HF t Hb).
Qed.

(** Task 1 sets its base, task 2 sets another, task 1 returns. *)
Definition ex_steps : list tls_step := [Prctl 0x1002 0x7000; Switch 2; Prctl 0x1002 0x9000; Switch 1].
Lemma tls_follows_task_witness :
  let s := foldl tls_run (Cpu ex_running 0 0) ex_steps in msr_fs s = 0x9000 /\ msr_fs (syscall_restore_msrs s) = 0x7000.
Proof.
  split; [reflexivity|].
  destruct (tls_follows_task (Cpu ex_running 0 0) 1 ex_steps 1) as [H _]; [vm_compute; reflexivity|vm_compute; reflexivity|unfold MAX_TASKS; lia| | |unfold MAX_TASKS; lia|].
  - repeat constructor; unfold MAX_TASKS; lia.
  - vm_compute. reflexivity.
  - rewrite H. vm_compute. reflexivity.
Defined.

(** ** Behaviours behind the findings *)

(** The node name and the version lose their last characters. *)
Example uname_is_cut : take 65 (drop 65 sys_uname.2) = take 8 U_NODENAME ++ replicate 57 0 /\ length sys_uname.2 = 325%nat.
Proof. vm_compute. split; reflexivity. Qed.

(** Random bytes repeat after eight. *)
Example random_repeats : (sys_getrandom 0x1122334455667788 16).2 = concat (replicate 2 (le64 0x1122334455667788)).
Proof. vm_compute. reflexivity. Qed.

(** An ioctl for the terminal works on any descriptor. *)
Example ioctl_of_any_file :
  let s := Tst (Kst ex_running (VmSt (fun _ => 0) Mm.mm_bss 0 0) (SigGlob 0 0 0 0 0 0 0 0 0 [])) (Vfs.vfs_fd_set 1 0x9000 3 Vfs.vfs_bss).1 (con_bss Keyboard.kbd_bss sched_bss) in
  (run (sys_ioctl 3 TIOCSWINSZ 0) s).2 = Ret 0.
Proof. vm_compute. reflexivity. Qed.
End SysMisc.
