(* ===== verification/Socket.v ===== *)
(** The socket calls (src/src/kernel/net/socket.c): datagram sockets over the
    port table of Udp.v, everything else handed to the stream sockets of
    Loopback.v.

    As in Loopback.v a file is the index of its object; the sixteen objects of
    this file follow the thirty-two of loopback.c. A call that would take the
    private data of a foreign file for a socket, or copy past a datagram slot,
    gives [None]. A socket address is the list of its bytes. *)
From S2P Require Import Prelude Ring Sched Vfs Net Eth Ip Udp Loopback Memory Phys Vm Signal Sys.

Module Socket.
Import Vfs Net Ip Udp.
Import Sched.
Import Sys.

Definition AF_INET : Z := 2.
Definition SOCK_STREAM : Z := 1.
Definition SOCK_DGRAM : Z := 2.
Definition UDP_SOCK_MAX : Z := 16.

Record udp_sock_t := UdpSock { k_used : Z; k_port : Z; peer_ip : Z; peer_port : Z }.
Definition sock0 : udp_sock_t := UdpSock 0 0 0 0.
#[export] Instance inhabited_udp_sock : Inhabited udp_sock_t := populate sock0.

Definition UDP_OPS : Z := 3.
(** The file address of the object [k]. *)
Definition ufile (k : Z) : Z := Loopback.LOOP_MAX_FILES + k.
Definition ufile_index (f : Z) : option Z := if (32 <=? f) && (f <? 48) then Some (f - 32) else None.

(** ** Socket addresses *)
Definition sa_family (a : list Z) : Z := u16 (Z.lor (aget a 0) (Z.shiftl (aget a 1) 8)).
Definition sa_port (a : list Z) : Z := u16 (Z.lor (Z.shiftl (aget a 2) 8) (aget a 3)).
Definition sa_ip (a : list Z) : Z :=
  Z.lor (Z.lor (Z.lor (Z.shiftl (aget a 4) 24) (Z.shiftl (aget a 5) 16)) (Z.shiftl (aget a 6) 8)) (aget a 7).
(** The bytes stored at a non-null address. *)
Definition sa_store (ip port : Z) : list Z :=
  [2; 0; u8 (Z.shiftr port 8); Z.land port 0xFF; u8 (Z.shiftr ip 24); u8 (Z.shiftr ip 16); u8 (Z.shiftr ip 8); u8 ip;
   0; 0; 0; 0; 0; 0; 0; 0].

Section Calls.
  Context {D : Type} `{NicOps D}.

Record sk := Sk {
  s_vfs : vfs;
  s_lo : Loopback.loop;
  s_udp : udp;
  g_usocks : list udp_sock_t;
  g_ufiles : list file_t;
  s_ip : ipst D;
  s_sched : sched
}.

Definition set_socks (l : list udp_sock_t) (s : sk) : sk := Sk (s_vfs s) (s_lo s) (s_udp s) l (g_ufiles s) (s_ip s) (s_sched s).
Definition set_ufiles (l : list file_t) (s : sk) : sk := Sk (s_vfs s) (s_lo s) (s_udp s) (g_usocks s) l (s_ip s) (s_sched s).
Definition set_udp (u : udp) (s : sk) : sk := Sk (s_vfs s) (s_lo s) u (g_usocks s) (g_ufiles s) (s_ip s) (s_sched s).
Definition set_lo (st : Loopback.state) (s : sk) : sk := Sk st.1 st.2 (s_udp s) (g_usocks s) (g_ufiles s) (s_ip s) (s_sched s).
Definition set_sched (x : sched) (s : sk) : sk := Sk (s_vfs s) (s_lo s) (s_udp s) (g_usocks s) (g_ufiles s) (s_ip s) x.

Definition sockat (s : sk) (k : Z) : udp_sock_t := aget (g_usocks s) k.
Definition put_sock (k : Z) (x : udp_sock_t) (s : sk) : sk := set_socks (aset (g_usocks s) k x) s.
Definition put_ufile (j : Z) (x : file_t) (s : sk) : sk := set_ufiles (aset (g_ufiles s) j x) s.

(** [f->private_data]: the socket's number plus one, 0 for NULL. *)
Definition usock_of (s : sk) (j : Z) : option Z :=
  let p := f_private (aget (g_ufiles s) j) in if p =? 0 then None else Some (p - 1).

(** The object of a datagram file. *)
Definition fd_is_udp (s : sk) (f : Z) : option Z :=
  match ufile_index f with
  | Some j => if bool_decide (f_ops (aget (g_ufiles s) j) = Some UDP_OPS) then Some j else None
  | None => None
  end.

(** ** File operations *)

(** Bytes and sender, an error, or the block of [sched_block_and_switch]. *)
Section Blocking.
  (** The registers that [sched_block_and_switch] saves. *)
  Context (uret saved : kctx_t).

(** A turn of the loop that waits for a datagram; [None]: out of the slot. *)
Definition take_dgram (k j max : Z) : H sk (option (Z * list Z * (Z * Z))) := fun s =>
  let p := k_port (sockat s k) in
  let '(u, r) := udp_recv p max (s_udp s) in
  let s1 := set_udp u s in
  match r with
  | RecvOverrun _ => (s1, inr None)
  | RecvData n buf ip port =>
      if 0 <? n then (s1, inr (Some (n, buf, (ip, port))))
      else if negb (Z.land (f_flags (aget (g_ufiles s) j)) O_NONBLOCK =? 0) then (s1, inl (Ret (err 11)))
      else (set_sched (sched_block_and_switch WAIT_NET p uret saved (s_sched s1)) s1, inl Blocked)
  | RecvError r =>
      if r <? 0 then (s1, inl (Ret (err 9)))
      else if negb (Z.land (f_flags (aget (g_ufiles s) j)) O_NONBLOCK =? 0) then (s1, inl (Ret (err 11)))
      else (set_sched (sched_block_and_switch WAIT_NET p uret saved (s_sched s1)) s1, inl Blocked)
  end.

Definition udp_file_read (j size : Z) : H sk (option (Z * list Z * (Z * Z))) :=
  let* ok := get (fun s => match usock_of s j with
                           | Some k => if (k_used (sockat s k) =? 0) || (k_port (sockat s k) =? 0) then None else Some k
                           | None => None
                           end) in
  let* k := check_some ok (err 9) in
  take_dgram k j (i32 size).

Definition udp_file_write (j : Z) (data : list Z) : H sk Z :=
  let* ok := get (fun s => match usock_of s j with Some k => if k_used (sockat s k) =? 0 then None else Some k | None => None end) in
  let* k := check_some ok (err 9) in
  let* x := get (fun s => sockat s k) in
  do* check (negb (peer_ip x =? 0)) (err 107) in
  let size := Z.of_nat (length data) in
  fun s =>
    let '(u, i, r) := udp_send (peer_ip x) (peer_port x) (take (Z.to_nat (u32 size)) data) (s_udp s) (s_ip s) in
    (Sk (s_vfs s) (s_lo s) u (g_usocks s) (g_ufiles s) i (s_sched s), if r =? 0 then inr size else inl (Ret (err 5))).

Definition udp_file_close (j : Z) (s : sk) : sk :=
  let s1 := match usock_of s j with
            | Some k =>
                let x := sockat s k in
                let s1 := if (k_used x =? 0) || (k_port x =? 0) then s else set_udp (udp_unbind (k_port x) (s_udp s)) s in
                put_sock k sock0 s1
            | None => s
            end in
  put_ufile j ((aget (g_ufiles s1) j) <| f_private := 0 |> <| f_ops := None |>) s1.

(** ** The calls *)
Definition fd_file (fd : Z) : H sk Z := let* f := get (fun s => vfs_fd_get (i32 fd) (s_vfs s)) in check_some f (err 9).
Definition udp_of (f : Z) : H sk (option Z) := get (fun s => fd_is_udp s f).

(** The stream sockets. *)
Definition on_lo (m : Loopback.state -> option (Loopback.state * Z)) : H sk (option Z) := fun s =>
  match m (s_vfs s, s_lo s) with
  | Some (st, r) => (set_lo st s, inr (Some r))
  | None => (s, inr None)
  end.

Definition new_ufile (k : Z) (f : file_t) : file_t :=
  File 0 0 0 (Some UDP_OPS) (k + 1) 1 [] 0 0.

Definition sys_socket (owner domain type : Z) : H sk (option Z) :=
  do* check (domain =? AF_INET) (err 97) in
  if type =? SOCK_STREAM then on_lo (fun st => Some (Loopback.loop_socket owner domain type st)) else
  do* check (type =? SOCK_DGRAM) (err 93) in
  let* k := get (fun s => find_index (fun x => k_used x =? 0) (g_usocks s)) in
  let* k := check_some k (err 24) in
  let* j := get (fun s => find_index (fun f => bool_decide (f_ops f = None)) (g_ufiles s)) in
  let* j := check_some j (err 24) in
  let k := Z.of_nat k in let j := Z.of_nat j in
  do* modify (fun s => put_ufile j (new_ufile k (aget (g_ufiles s) j)) (put_sock k (UdpSock 1 0 0 0) s)) in
  let* fd := (fun s => let '(v, fd) := vfs_fd_alloc owner (ufile j) (s_vfs s) in
                       (Sk v (s_lo s) (s_udp s) (g_usocks s) (g_ufiles s) (s_ip s) (s_sched s), inr fd)) in
  if fd <? 0 then
    do* modify (fun s => put_ufile j ((aget (g_ufiles s) j) <| f_ops := None |>) (put_sock k (UdpSock 0 0 0 0) s)) in halt (err 24)
  else hret (Some fd).

Definition sys_bind (pid fd : Z) (addr : list Z) : H sk (option Z) :=
  let* f := fd_file fd in
  let* u := udp_of f in
  match u with
  | None => on_lo (Loopback.loop_bind fd addr)
  | Some j =>
      let* k := get (fun s => usock_of s j) in
      let* k := check_some k (err 22) in
      let* x := get (fun s => sockat s k) in
      do* check (k_port x =? 0) (err 22) in
      do* check (sa_family addr =? AF_INET) (err 97) in
      let port := sa_port addr in
      let* r := (fun s => let '(u, r) := udp_bind port pid (s_udp s) in (set_udp u s, inr r)) in
      do* check (r =? 0) (u64 r) in
      do* modify (fun s => put_sock k (UdpSock (k_used (sockat s k)) port (peer_ip (sockat s k)) (peer_port (sockat s k))) s) in
      hret (Some 0)
  end.

Definition sys_listen (fd : Z) : H sk (option Z) :=
  let* f := fd_file fd in
  let* u := udp_of f in
  match u with Some _ => hret (Some (err 95)) | None => on_lo (Loopback.loop_listen fd) end.

Definition sys_connect (fd : Z) (addr : list Z) : H sk (option Z) :=
  let* f := fd_file fd in
  let* u := udp_of f in
  match u with
  | None => on_lo (Loopback.loop_connect fd addr)
  | Some j =>
      let* k := get (fun s => usock_of s j) in
      let* k := check_some k (err 9) in
      do* check (sa_family addr =? AF_INET) (err 97) in
      do* modify (fun s => put_sock k (UdpSock (k_used (sockat s k)) (k_port (sockat s k)) (sa_ip addr) (sa_port addr)) s) in
      hret (Some 0)
  end.

(** With the bytes stored at a non-null [addr_out]. *)
Definition sys_accept (owner fd : Z) : H sk (option (Z * list Z)) :=
  let* f := fd_file fd in
  let* u := udp_of f in
  match u with
  | Some _ => hret (Some (err 95, []))
  | None => fun s =>
      match Loopback.loop_accept owner fd (s_vfs s, s_lo s) with
      | Some (st, r, addr) => (set_lo st s, inr (Some (r, addr)))
      | None => (s, inr None)
      end
  end.

Definition sys_sendto (fd : Z) (data : list Z) (addr : option (list Z)) : H sk (option Z) :=
  let* f := fd_file fd in
  let* u := udp_of f in
  match u with
  | None => fun s =>
      if negb (Loopback.is_loop_file f) then (s, inr None) else
      let '(lo, r) := Loopback.loop_sendto (H := Loopback.loop_files) fd data (s_vfs s) (s_lo s) in (set_lo (s_vfs s, lo) s, inr (Some r))
  | Some j =>
      let* k := get (fun s => usock_of s j) in
      let* k := check_some k (err 9) in
      let* x := get (fun s => sockat s k) in
      let dst_ip := match addr with Some a => sa_ip a | None => peer_ip x end in
      let dst_port := match addr with Some a => sa_port a | None => peer_port x end in
      do* check (negb (dst_ip =? 0)) (err 89) in
      let size := Z.of_nat (length data) in
      fun s =>
        let '(u, i, r) := udp_send dst_ip dst_port (take (Z.to_nat (u32 size)) data) (s_udp s) (s_ip s) in
        (Sk (s_vfs s) (s_lo s) u (g_usocks s) (g_ufiles s) i (s_sched s), if r =? 0 then inr (Some size) else inl (Ret (err 5)))
  end.

(** The result, the bytes, and what is stored at a non-null address. *)
Definition sys_recvfrom (fd len : Z) : H sk (option (Z * list Z * list Z)) :=
  let* f := fd_file fd in
  let* u := udp_of f in
  match u with
  | None => fun s =>
      if negb (Loopback.is_loop_file f) then (s, inr None) else
      let '(lo, (r, bytes)) := Loopback.loop_recvfrom (H := Loopback.loop_files) fd len (s_vfs s) (s_lo s) in (set_lo (s_vfs s, lo) s, inr (Some (r, bytes, [])))
  | Some j =>
      let* d := udp_file_read j len in
      hret ((fun x => (x.1.1, x.1.2, sa_store x.2.1 x.2.2)) <$> d)
  end.

(** Once the scheduler runs task [t] again. *)
Definition recvfrom_resume (t k j len : Z) : H sk (option (Z * list Z * list Z)) :=
  do* modify (fun s => set_sched (sched_resume t (s_sched s)) s) in
  let* d := take_dgram k j (i32 len) in
  hret ((fun x => (x.1.1, x.1.2, sa_store x.2.1 x.2.2)) <$> d).

Definition sys_shutdown (fd : Z) : H sk (option Z) :=
  let* f := fd_file fd in
  let* u := udp_of f in
  match u with
  | Some j =>
      let* k := get (fun s => usock_of s j) in
      do* (match k with
           | Some k => modify (fun s => put_sock k (UdpSock (k_used (sockat s k)) (k_port (sockat s k)) 0 0) s)
           | None => hret tt
           end) in hret (Some 0)
  | None => on_lo (Loopback.loop_shutdown fd)
  end.
End Blocking.
End Calls.

(** ** The port of a socket is its own *)
Section Ports.
  Context {D : Type} `{NicOps D} (uret saved : kctx_t).

Definition owns (u : udp) (l : list udp_sock_t) : Prop :=
  forall k, 0 <= k < UDP_SOCK_MAX -> k_port (aget l k) <> 0 ->
    is_Some (ports u (k_port (aget l k))) /\
    forall k', 0 <= k' < UDP_SOCK_MAX -> k_port (aget l k') = k_port (aget l k) -> k' = k.

Record sk_ok (s : sk (D := D)) : Prop := {
  so_udp : udp_ok (s_udp s);
  so_len : Z.of_nat (length (g_usocks s)) = UDP_SOCK_MAX;
  so_owns : owns (s_udp s) (g_usocks s)
}.

Definition preserves {A} (m : H (sk (D := D)) A) : Prop := keeps (fun s s' => sk_ok s -> sk_ok s') m.
#[local] Instance imp_preorder : PreOrder (fun s s' : sk (D := D) => sk_ok s -> sk_ok s').
Proof. split; [by intros s|intros a b c H1 H2 H3; auto]. Qed.

(** What leaves the port table and the sockets alone. *)
Lemma ok_same (s s' : sk (D := D)) : s_udp s' = s_udp s -> g_usocks s' = g_usocks s -> sk_ok s -> sk_ok s'.
Proof. intros E1 E2 [A B C]. split; by rewrite ?E1, ?E2. Qed.

Lemma ok_ufile j x (s : sk (D := D)) : sk_ok s -> sk_ok (put_ufile j x s).
Proof. by apply ok_same. Qed.

(** The same sockets over a port table that binds at least the same ports. *)
Lemma owns_weaken u u' l : (forall p, is_Some (ports u p) -> is_Some (ports u' p)) -> owns u l -> owns u' l.
Proof. intros Hu Ho k Hk Hp. destruct (Ho k Hk Hp) as [H1 H2]. split; [by apply Hu|done]. Qed.

Lemma sockat_put k x k' (s : sk (D := D)) : Z.of_nat (length (g_usocks s)) = UDP_SOCK_MAX -> 0 <= k < UDP_SOCK_MAX -> 0 <= k' ->
  aget (aset (g_usocks s) k x) k' = if k' =? k then x else aget (g_usocks s) k'.
Proof. intros Hl Hk Hk'. destruct (Z.eqb_spec k' k) as [->|Hne]; [by rewrite aget_aset_eq by lia|by rewrite aget_aset_ne by lia]. Qed.

(** A socket keeps its port or gives it up. *)
Lemma put_sock_nonneg k x (s : sk (D := D)) : 0 <= k -> k_port x = k_port (sockat s k) \/ k_port x = 0 -> sk_ok s -> sk_ok (put_sock k x s).
Proof.
  intros Hk Hx [A B C]. split; [done|by cbn; rewrite length_aset|]. cbn. unfold sockat in Hx.
  destruct (Z_lt_le_dec k UDP_SOCK_MAX) as [Hlt|Hge].
  2: { unfold aset. by rewrite list_insert_ge by lia. }
  assert (G : forall k', 0 <= k' -> aget (aset (g_usocks s) k x) k' = if k' =? k then x else aget (g_usocks s) k') by (intros; by apply sockat_put).
  intros k0 Hk0. rewrite G by lia. intros Hp. destruct (Z.eqb_spec k0 k) as [->|Hne].
  - destruct Hx as [E|E]; [|done]. rewrite E in *. destruct (C k Hk0 Hp) as [H1 H2]. split; [done|]. intros k' Hk'. rewrite G by lia.
    destruct (Z.eqb_spec k' k); [done|]. by apply H2.
  - destruct (C k0 Hk0 Hp) as [H1 H2]. split; [done|]. intros k' Hk'. rewrite G by lia.
    destruct (Z.eqb_spec k' k) as [->|]; [|by apply H2]. destruct Hx as [E|E]; rewrite E; [by apply H2|congruence].
Qed.
Lemma put_sock_ok k x (s : sk (D := D)) : k_port x = k_port (sockat s k) \/ k_port x = 0 -> sk_ok s -> sk_ok (put_sock k x s).
Proof.
  pose proof (put_sock_nonneg (Z.of_nat (Z.to_nat k)) x s ltac:(lia)) as P. unfold put_sock, sockat, aget, aset in *. by rewrite Nat2Z.id in P.
Qed.

(** A port just bound goes to a socket that has none. *)
Lemma bind_sock_ok k p pid a b c (s : sk (D := D)) : 0 <= k < UDP_SOCK_MAX -> sk_ok s -> k_port (sockat s k) = 0 -> (udp_bind p pid (s_udp s)).2 = 0 ->
  sk_ok (put_sock k (UdpSock a p b c) (set_udp (udp_bind p pid (s_udp s)).1 s)).
Proof.
  intros Hk [A B C] Hz Hr. destruct (udp_bind_spec p pid (s_udp s) A) as (A' & Hb & _). destruct (Hb Hr) as (Hp0 & Hn & Hports).
  assert (Hnew : forall k', 0 <= k' < UDP_SOCK_MAX -> k_port (aget (g_usocks s) k') <> p).
  { intros k' Hk' E. destruct (C k' Hk') as [[q Hq] _]; [by rewrite E|]. rewrite E, Hn in Hq. done. }
  split; [done|by cbn; rewrite length_aset|]. cbn.
  assert (G : forall k', 0 <= k' -> aget (aset (g_usocks s) k (UdpSock a p b c)) k' = if k' =? k then UdpSock a p b c else aget (g_usocks s) k') by (intros; by apply sockat_put).
  intros k0 Hk0. rewrite G by lia. rewrite Hports. destruct (Z.eqb_spec k0 k) as [->|Hne]; cbn.
  - intros _. rewrite decide_True by done. split; [by eexists|]. intros k' Hk'. rewrite G by lia. destruct (Z.eqb_spec k' k); [done|]. intros E. by apply Hnew in E.
  - intros Hp. rewrite decide_False by (by apply Hnew). destruct (C k0 Hk0 Hp) as [H1 H2]. split; [done|]. intros k' Hk'. rewrite G by lia.
    destruct (Z.eqb_spec k' k) as [->|]; [|by apply H2]. cbn. intros E. by destruct (Hnew k0 Hk0).
Qed.

(** Closing gives up the port and the binding. *)
Lemma close_ok j (s : sk (D := D)) : sk_ok s -> sk_ok (udp_file_close j s).
Proof.
  intros Hs. unfold udp_file_close. cbv zeta. apply ok_ufile.
  destruct (usock_of s j) as [k|]; [|done]. destruct ((k_used (sockat s k) =? 0) || (k_port (sockat s k) =? 0)); [by apply put_sock_ok; [right|]|].
  destruct Hs as [A B C]. destruct (udp_unbind_spec (k_port (sockat s k)) (s_udp s) A) as [A' Hports].
  split; [done|by cbn; rewrite length_aset|]. cbn.
  assert (G : forall k', aget (aset (g_usocks s) k sock0) k' = if decide (Z.to_nat k' = Z.to_nat k) then sock0 else aget (g_usocks s) k').
  { intros k'. unfold aget, aset. rewrite list_lookup_total_alt. destruct (decide (Z.to_nat k' = Z.to_nat k)) as [E'|Hne].
    - rewrite E'. destruct (decide (Z.to_nat k < length (g_usocks s))%nat).
      + by rewrite list_lookup_insert_eq.
      + rewrite list_insert_ge by lia. by rewrite lookup_ge_None_2 by lia.
    - rewrite list_lookup_insert_ne by lia. by rewrite <- list_lookup_total_alt. }
  intros k0 Hk0. rewrite G. destruct (decide (Z.to_nat k0 = Z.to_nat k)) as [E|Hne]; [done|]. intros Hp. destruct (C k0 Hk0 Hp) as [H1 H2].
  split.
  - rewrite Hports. rewrite decide_False; [done|]. intros E. apply Hne.
    assert (Ek : sockat s k = aget (g_usocks s) (Z.of_nat (Z.to_nat k))) by (unfold sockat, aget; by rewrite Nat2Z.id).
    destruct (decide (Z.to_nat k < length (g_usocks s))%nat) as [Hin|Hout].
    + rewrite <- (H2 (Z.of_nat (Z.to_nat k))); [lia|lia|]. by rewrite <- Ek.
    + exfalso. apply Hp. rewrite E, Ek. unfold aget. rewrite Nat2Z.id, list_lookup_total_alt, lookup_ge_None_2 by lia. done.
  - intros k' Hk'. rewrite G. destruct (decide (Z.to_nat k' = Z.to_nat k)); [cbn; congruence|]. by apply H2.
Qed.

(** ** Every call keeps it *)
Lemma pres_on_lo m : preserves (on_lo m).
Proof. intros s Hs. unfold on_lo. destruct (m _) as [[st r]|]; [by apply (ok_same s)|done]. Qed.

Lemma udp_recv_state p max u : (udp_recv p max u).1 = (udp_recv p 0 u).1.
Proof. unfold udp_recv. destruct (udp_find p u); [|done]. by destruct (_ =? 0). Qed.

Lemma pres_take_dgram k j max : preserves (take_dgram uret saved k j max).
Proof.
  intros s Hs. pose proof (udp_recv_state (k_port (sockat s k)) max (s_udp s)) as Eu. unfold take_dgram.
  destruct (udp_recv (k_port (sockat s k)) max (s_udp s)) as [u r]. cbn [fst] in Eu.
  assert (Hu : sk_ok (set_udp u s)).
  { destruct Hs as [A B C]. pose proof (udp_recv_spec (k_port (sockat s k)) 0 (s_udp s) A ltac:(lia)) as HR. cbv zeta in HR.
    destruct (udp_recv (k_port (sockat s k)) 0 (s_udp s)) as [u2 r2]. cbn [fst snd] in *. subst u2. destruct HR as [A' Hp].
    split; [done|done|]. cbn. apply (owns_weaken (s_udp s)); [|done]. intros p [q Hq].
    destruct (ports (s_udp s) (k_port (sockat s k))) as [[|[[a b] d] rest]|].
    - injection Hp as -> _. by eexists.
    - destruct Hp as [_ Hp]. rewrite Hp. case_decide; by eexists.
    - injection Hp as -> _. by eexists. }
  destruct r; repeat case_match; cbn [fst]; try exact Hu; by apply (ok_same (set_udp u s)).
Qed.

Lemma udp_send_ports {S} `{NicOps S} ip port data u (i : ipst S) : g_udp (udp_send ip port data u i).1.1 = g_udp u.
Proof. unfold udp_send. destruct (_ <? _); [done|]. destruct (ip_send _ _ _ _) as [s1 r]. by destruct (negb _). Qed.

Lemma ok_sent (s s' : sk (D := D)) : g_udp (s_udp s') = g_udp (s_udp s) -> g_usocks s' = g_usocks s -> sk_ok s -> sk_ok s'.
Proof.
  intros E1 E2 [A B C]. assert (Ep : forall p, ports (s_udp s') p = ports (s_udp s) p) by (intros p; unfold ports, udp_find; by rewrite E1).
  split; [|by rewrite E2|].
  - destruct A as [A1 A2 A3]. split; rewrite E1; done.
  - rewrite E2. apply (owns_weaken (s_udp s)); [|done]. intros p. by rewrite Ep.
Qed.

Ltac keep :=
  repeat first
    [ apply keeps_ret; apply _ | apply keeps_halt; apply _ | apply keeps_get; apply _ | apply keeps_check; apply _ | apply keeps_check_some; apply _
    | apply pres_on_lo | apply pres_take_dgram | apply (keeps_bind (fun s s' => sk_ok s -> sk_ok s')); [|intros ?]
    | match goal with |- keeps _ (match ?o with _ => _ end) => destruct o end ].

Lemma pres_fd_file fd : preserves (fd_file fd).
Proof. unfold preserves, fd_file. keep. Qed.
Lemma pres_udp_of f : preserves (udp_of f).
Proof. unfold preserves, udp_of. keep. Qed.

Lemma pres_send ip port data (r : Z -> stop + option Z) :
  preserves (fun s => let '(u, i, x) := udp_send ip port data (s_udp s) (s_ip s) in
    (Sk (s_vfs s) (s_lo s) u (g_usocks s) (g_ufiles s) i (s_sched s), r x)).
Proof.
  intros s Hs. pose proof (udp_send_ports ip port data (s_udp s) (s_ip s)) as E. destruct (udp_send _ _ _ _ _) as [[u i] x]. by apply (ok_sent s).
Qed.

Lemma pres_recvfrom fd len : preserves (sys_recvfrom uret saved fd len).
Proof.
  unfold preserves, sys_recvfrom. apply (keeps_bind (fun s s' => sk_ok s -> sk_ok s')); [apply pres_fd_file|intros f].
  apply (keeps_bind (fun s s' => sk_ok s -> sk_ok s')); [apply pres_udp_of|intros [j|]].
  - unfold udp_file_read. keep.
  - intros s Hs. destruct (negb _); [done|]. destruct (Loopback.loop_recvfrom _ _ _ _) as [lo [r b]]. by apply (ok_same s).
Qed.

Lemma pres_sendto fd data addr : preserves (sys_sendto fd data addr).
Proof.
  unfold preserves, sys_sendto. apply (keeps_bind (fun s s' => sk_ok s -> sk_ok s')); [apply pres_fd_file|intros f].
  apply (keeps_bind (fun s s' => sk_ok s -> sk_ok s')); [apply pres_udp_of|intros [j|]].
  - keep. apply pres_send.
  - intros s Hs. destruct (negb _); [done|]. destruct (Loopback.loop_sendto _ _ _ _) as [lo r]. by apply (ok_same s).
Qed.

Lemma pres_put k (g : sk (D := D) -> udp_sock_t) : (forall s, k_port (g s) = k_port (sockat s k) \/ k_port (g s) = 0) ->
  preserves (modify (fun s => put_sock k (g s) s)).
Proof. intros Hg. apply keeps_modify. intros s. by apply put_sock_ok. Qed.

Lemma pres_connect fd addr : preserves (sys_connect fd addr).
Proof. unfold preserves, sys_connect, fd_file, udp_of. keep. apply pres_put. intros s. by left. Qed.
Lemma pres_shutdown fd : preserves (sys_shutdown fd).
Proof. unfold preserves, sys_shutdown, fd_file, udp_of. keep. apply pres_put. intros s. by left. Qed.
Lemma pres_listen fd : preserves (sys_listen fd).
Proof. unfold preserves, sys_listen, fd_file, udp_of. keep. Qed.
Lemma pres_accept owner fd : preserves (sys_accept owner fd).
Proof.
  unfold preserves, sys_accept, fd_file, udp_of. keep. intros s Hs. destruct (Loopback.loop_accept _ _ _) as [[[st r] x]|]; [by apply (ok_same s)|done].
Qed.

Lemma pres_socket owner domain type : preserves (sys_socket owner domain type).
Proof.
  unfold preserves, sys_socket. keep.
  - apply keeps_modify. intros s Hs. apply ok_ufile. by apply put_sock_ok; [right|].
  - intros s Hs. destruct (vfs_fd_alloc _ _ _) as [v fd]. by apply (ok_same s).
  - apply keeps_modify. intros s Hs. apply ok_ufile. by apply put_sock_ok; [right|].
Qed.

(** bind, where the two steps only keep the invariant together. *)
Lemma pres_bind pid fd addr : preserves (sys_bind pid fd addr).
Proof.
  unfold preserves, sys_bind. apply (keeps_bind (fun s s' => sk_ok s -> sk_ok s')); [apply pres_fd_file|intros f].
  apply (keeps_bind (fun s s' => sk_ok s -> sk_ok s')); [apply pres_udp_of|intros [j|]]; [|keep].
  intros s Hs. autorewrite with handler. destruct (usock_of s j) as [k|]; autorewrite with handler; [|done].
  destruct (Z.eqb_spec (k_port (sockat s k)) 0) as [Hz|]; [|done]. destruct (sa_family addr =? AF_INET); [|done].
  unfold hbind at 1. pose proof (udp_bind_spec (sa_port addr) pid (s_udp s) (so_udp _ Hs)) as (HA & Hbound & Hsame).
  pose proof (bind_sock_ok (Z.of_nat (Z.to_nat k)) (sa_port addr) pid (k_used (sockat s k)) (peer_ip (sockat s k)) (peer_port (sockat s k)) s) as HB.
  destruct (udp_bind (sa_port addr) pid (s_udp s)) as [u r]. cbn [fst snd] in *. autorewrite with handler.
  destruct (Z.eqb_spec r 0) as [Hr|Hr].
  - autorewrite with handler. cbn [fst]. unfold sockat, put_sock, aget, aset in *. cbn [g_usocks set_udp] in *. rewrite Nat2Z.id in HB.
    destruct (decide (Z.to_nat k < Z.to_nat UDP_SOCK_MAX)%nat) as [Hlt|Hge]; [apply HB; [unfold UDP_SOCK_MAX in *; lia|done|done|done]|].
    rewrite list_insert_ge by (pose proof (so_len _ Hs); lia). destruct Hs as [A B C]. destruct (Hbound Hr) as (_ & _ & Hports).
    split; [exact HA|exact B|]. cbn. apply (owns_weaken (s_udp s)); [|exact C]. intros q Hq. rewrite Hports. case_decide; [by eexists|exact Hq].
  - rewrite (Hsame Hr). by apply (ok_same s).
Qed.

(** ** Runs *)
Inductive sock_call :=
| CSocket (owner domain type : Z)
| CBind (pid fd : Z) (addr : list Z)
| CListen (fd : Z)
| CConnect (fd : Z) (addr : list Z)
| CAccept (owner fd : Z)
| CSendto (fd : Z) (data : list Z) (addr : option (list Z))
| CRecvfrom (fd len : Z)
| CShutdown (fd : Z)
| CClose (j : Z)
| CPacket (pkt : list Z) (src : Z).

(** A datagram arrives in the interrupt-free kernel between two calls. *)
Definition packet (pkt : list Z) (src : Z) (s : sk (D := D)) : sk (D := D) :=
  let '(u, x) := udp_input pkt src (s_udp s) (s_sched s) in set_sched x (set_udp u s).

Definition sock_step (s : sk (D := D)) (c : sock_call) : sk (D := D) :=
  match c with
  | CSocket owner domain type => (sys_socket owner domain type s).1
  | CBind pid fd addr => (sys_bind pid fd addr s).1
  | CListen fd => (sys_listen fd s).1
  | CConnect fd addr => (sys_connect fd addr s).1
  | CAccept owner fd => (sys_accept owner fd s).1
  | CSendto fd data addr => (sys_sendto fd data addr s).1
  | CRecvfrom fd n => (sys_recvfrom uret saved fd n s).1
  | CShutdown fd => (sys_shutdown fd s).1
  | CClose j => udp_file_close j s
  | CPacket pkt src => packet pkt src s
  end.

Lemma sock_step_ok s c : sk_ok s -> sk_ok (sock_step s c).
Proof.
  intros Hs. destruct c; cbn [sock_step];
    [by apply pres_socket|by apply pres_bind|by apply pres_listen|by apply pres_connect|by apply pres_accept|by apply pres_sendto|by apply pres_recvfrom|by apply pres_shutdown|by apply close_ok|].
  unfold packet. destruct Hs as [A B C]. pose proof (udp_input_spec pkt src (s_udp s) (s_sched s) A) as [A' Hp]. destruct (udp_input _ _ _ _) as [u x]. cbn [fst snd] in *.
  split; [done|done|]. cbn. apply (owns_weaken (s_udp s)); [|done]. intros p [q Hq].
  destruct (decode pkt src) as [[dport d]|]; [|destruct Hp as [Hp _]; rewrite Hp; by eexists].
  destruct Hp as [Hp _]. rewrite Hp. case_decide; rewrite Hq; by eexists.
Qed.
End Ports.

(** C38: A port belongs to one socket. Over any sequence of the socket calls, of
    closes and of datagrams arriving, in any order and on any descriptors, a
    datagram socket that has a port is the only one with it, and the port is
    bound in the port table, so that what arrives for the port is queued for
    that socket. *)
Theorem socket_ports_private {D} `{NicOps D} uret saved cs (s : sk (D := D)) k :
  sk_ok s -> 0 <= k < UDP_SOCK_MAX ->
  let s' := foldl (sock_step uret saved) s cs in
  k_port (sockat s' k) <> 0 ->
  is_Some (ports (s_udp s') (k_port (sockat s' k))) /\
  forall k', 0 <= k' < UDP_SOCK_MAX -> k_port (sockat s' k') = k_port (sockat s' k) -> k' = k.
Proof.
  intros Hs Hk s' Hp. assert (Hs' : sk_ok s').
  { clear Hp. revert s Hs s'. induction cs as [|c cs IH]; intros s Hs; [done|]. apply IH. by apply sock_step_ok. }
  exact (so_owns _ Hs' k Hk Hp).
Qed.

(** A machine without a network device that has just started. *)
#[local] Instance no_nic : NicOps unit := {| dev_send d _ := (d, 0) |}.
Definition ex_sk : sk (D := unit) :=
  Sk (vfs_init vfs_bss) Loopback.loop_start udp_start (replicate 16 sock0) (replicate 16 file0) (ip_start (Eth.eth_start (Devs [] 0))) sched_bss.

Lemma ex_sk_ok : sk_ok ex_sk.
Proof. split; [exact udp_start_ok|done|]. intros k Hk Hp. exfalso. apply Hp. change (g_usocks ex_sk) with (replicate 16 sock0). unfold aget. by rewrite lookup_total_replicate_2 by (unfold UDP_SOCK_MAX in Hk; lia). Qed.

(** Two sockets ask for port 53, the first closes, and the second asks again. *)
Definition ex_calls : list sock_call :=
  let a53 := [2; 0; 0; 53; 127; 0; 0; 1] in
  [CSocket 1 2 2; CSocket 1 2 2; CBind 1 3 a53; CBind 1 4 a53; CClose 0; CBind 1 4 a53].

Lemma ex_end_port : k_port (sockat (foldl (sock_step kctx0 kctx0) ex_sk ex_calls) 1) = 53.
Proof. vm_compute. reflexivity. Qed.

Lemma socket_ports_private_witness :
  let s' := foldl (sock_step kctx0 kctx0) ex_sk ex_calls in
  k_port (sockat s' 1) = 53 /\ is_Some (ports (s_udp s') (k_port (sockat s' 1))) /\
  forall k', 0 <= k' < UDP_SOCK_MAX -> k_port (sockat s' k') = k_port (sockat s' 1) -> k' = 1.
Proof.
  cbv zeta. split; [exact ex_end_port|]. refine (socket_ports_private kctx0 kctx0 ex_calls ex_sk 1 ex_sk_ok _ _).
  - split; [intros [=]|reflexivity].
  - rewrite ex_end_port. discriminate.
Defined.

Example second_bind_refused :
  let s := foldl (sock_step kctx0 kctx0) ex_sk (take 4 ex_calls) in k_port (sockat s 0) = 53 /\ k_port (sockat s 1) = 0.
Proof. vm_compute. done. Qed.
End Socket.
